(* ===== verification/_CoqProject ===== *)
-Q . S2P
Prelude.v
PyStr.v
PrefixAdmit.v
CacheEvict.v
ResidentTail.v
DecodeFloor.v
AdaptiveK.v
KvGroups.v
KvCapacity.v
Boundaries.v
Installer.v
SitePatch.v
PyCount.v
PatchAlignFloor.v
PatchDecodeFloor.v
PatchPrefixAdmit.v
PatchResidentTail.v
PatchAdaptiveK.v
PatchHybridHit.v
PatchRetention.v
PatchTailBoundary.v
PatchCache.v
PatchKvCapacity.v
PatchKvConfig.v
PatchRouter.v
PatchSuppressStops.v
PatchMamba.v
PatchIpc.v
PatchXGrammar.v
PatchKpool.v
PatchW28.v
PatchIndexerWorkspace.v
PatchSharedExperts.v
Overlays.v
RoleTokenCache.v
Stats.v
AuditV149.v
DiagnoseV149.v
WindowEnv.v
WindowRun.v
IndexerWorkspace.v
Grammar.v
StopGuard.v
NoStore.v
MambaRetire.v
KpoolTail.v
Segments.v
Exl3Tier.v
Exl3Moe.v
Exl3Rows.v
Exl3Dispatch.v
Exl3Experts.v
Exl3Load.v
Exl3Ready.v
DFlash2Conv.v
DFlash2Draft.v
DrafterGroup.v
PatchDrafterGroup.v
DrafterStack.v
Streams.v
SharedExperts.v
TicketScheduler.v
TicketInstall.v
HeapQ.v
PyNum.v
PyDict.v
PyJson.v
TraceStream.v
KernelTimeline.v
KernelShare.v
PrefillShare.v
Roofline.v
WeightBytes.v
PyRe.v
ImportClosure.v
MgemmAudit.v
SmokeContract.v
SharedExpertsGate.v
OccupancyGate.v
QualProbe.v
