(* ===== verification/Prelude.v ===== *)
(** * GLM-5.3-Flash on two GB10 machines: verification library (root file)

    The repository serves one large mixture-of-experts model with vLLM.  It is a
    set of overlays: Python modules and patchers under [src/overlay/], which
    [src/start.sh] runs inside the serving container before vLLM starts, and
    scripts under [src/scripts/] that qualify a candidate image in production
    windows.  Each patcher rewrites named texts of an installed vLLM file; what
    it installs is ordinary Python, which then decides at every scheduler step.
    The library models both halves: the code that ends up running, and the
    patchers that put it there.

    ** Files and what they model

    Shared.  [Prelude] (this file): exceptions, the error monad [res], Python
    integers, environments and values, list and option lemmas, tactics and hint
    databases.  [PyStr]: Python's text operations on byte strings.  [PyNum]:
    rounding, division that raises, sums.  [PyDict]: dicts in insertion order,
    tallies, [sorted(set(...))].  [PyJson]: the JSON scanner of the standard library
    and what the scripts ask of a value.  [PyRe]: the part of [re] the audits use.
    [HeapQ]: the heap of [heapq].  [Stats]: order statistics and exact binomial
    counting.  [Segments]: spans, prefix sums and grouping by a sorted key.
    [PyCount]: counting a text across replacements.

    The scheduler and the prefix cache (each file names its module of
    [src/overlay/] in its own header).  [PrefixAdmit]: hold a waiting request
    while another computes the prefix they share.  [CacheEvict]: which free
    blocks are reused first, and the marks that protect hit blocks.
    [ResidentTail]: short cached remainders keep the step; it calls
    [PrefixAdmit].  [DecodeFloor]: the mixed-prefill gate with deadline and
    ageing.  [AdaptiveK]: how many draft tokens are verified.  [KvGroups],
    [KvCapacity], [Boundaries]: the KV-cache groups, the capacity log, the ends
    of chunks and of registered prefixes.  [DrafterGroup]: the drafter's own
    cache group: which layers ride in target tensors, the pool's
    sizes and every consumer of them.  [MambaRetire], [KpoolTail],
    [IndexerWorkspace]: retired states, slot mapping, the indexer's workspace.
    [Grammar], [StopGuard], [NoStore]: structured output, stop strings inside
    reasoning, the per-request cache flag.  [RoleTokenCache]: the tokenizer's
    segment cache.

    The drafter.  [DFlash2Conv]: the grouped causal convolution, the kernel
    against the reference.  [DFlash2Draft]: the score table and the greedy walk
    along the draft.

    The experts ([src/overlay/exl3.py], with the dataflow of
    [exl3_fat_moe.cu] and of [exl3-ticket/patched/exl3_moe_kernel.cuh]).
    [Exl3Load]: configuration, tensor-parallel shards, packed parameters, the
    weight loader, the stitching of handles.  [Exl3Tier]: switches, eligibility,
    resolution of the fat-expert tier, counters.  [Exl3Moe]: one forward pass,
    every path of it.  [Exl3Rows], [Exl3Dispatch]: what each path adds to the
    output, and the dispatch as a whole.  [Exl3Ready]: a loaded layer satisfies
    the record [Exl3Dispatch.layer_ready], which is the interface between the
    loader and the forward pass.  [Exl3Experts]: the properties of a pass.
    [TicketScheduler]: the kernel's ticket scheduler as a step relation over
    thread blocks, and the loop it replaces.  [Streams], [SharedExperts]: two device streams
    with events as a step relation, and the shared experts launched early on the
    second one ([patch_shared_experts_overlap.py]).

    The patchers.  [Installer]: the class every patcher satisfies (refuse, or
    find the work done, or rewrite exactly the anchors).  [SitePatch]: patchers
    driven by tables of sites, and staging several files before writing one.
    [Patch*]: the patchers, their constants byte for byte, one file each or one Module
    each in the files that group small ones ([PatchRouter], [PatchIpc],
    [PatchCache], [PatchKvConfig], [PatchMamba], [PatchKpool]).  [Overlays]:
    all of them, and the sequence of [src/start.sh].  [DrafterStack]: the three
    patchers of one KV-cache file, with upgrades of older installs.  [TicketInstall]: the installer of
    the ticket kernel, which surveys a tree before it writes.

    Qualification.  [WindowEnv], [WindowRun]: the [.env] file and the runner of
    a guarded production window, with its recovery
    ([src/scripts/run_v149_qualification_window.py]).  [AuditV149]: the judge
    of a window's receipt ([audit_v149_qualification.py]).  [DiagnoseV149]: the
    statistics of the paired diagnostic ([diagnose_v149_ab.py]).  [QualProbe]: the probe that
    measures one block and writes its receipt ([probe_v149_qualification.py]).  [SmokeContract]: the
    tool-serving smoke ([smoke_shared_experts.py]).  [SharedExpertsGate]: measuring an arm
    and the gate that compares two of them ([run_shared_experts_window.py]).

    Audits.  [TraceStream]: reading a profiler trace in chunks.  [KernelTimeline]:
    attribution of kernels to annotated ranges.  [KernelShare], [PrefillShare]: the decode and
    prefill shares computed from them.  [Roofline]: the decode roofline.  [WeightBytes]: the live
    weight bytes of a checkpoint.  [ImportClosure], [MgemmAudit]: the
    modules a set of seeds imports, and whether a kernel path is reachable from
    them.  [OccupancyGate]: the occupancy capture and its gate.

    ** How state and operations correspond

    A Python object whose fields change is a [Record], an operation on it a
    function from the old to the new one; a method that may raise answers in
    [res], so a state after an exception exists only where Python keeps one:
    [Exl3Moe], [SharedExperts] and [WindowRun] thread the state through failures as well, in
    monads of their own.  Dictionaries are [gmap], or association lists where
    the order is observed.  Names are the source's.

    vLLM, PyTorch, exllamav3, the Hugging Face tokenizer, XGrammar's matcher,
    Python's parser, docker and systemd are not in the repository.  They appear
    as arguments, as classes with their documented laws ([Exl3Moe.TorchLaws],
    [Exl3Ready.LinearEXL3Laws], the matcher of [Grammar], the queue of
    [CacheEvict]), or as an oracle whose answers are arbitrary ([WindowRun],
    the server of [SmokeContract]).
    Every law has a concrete instance, on which the witnesses compute.

    ** What the theorems show

    Experts: a prefill computes every routed slot exactly once with its own
    expert's matrices, whatever path is taken; a decode drops exactly what the
    documented helper says; the tier a load settles on can run, and is the one
    that runs; the shards of the ranks are the tensor; a checkpoint fills every
    parameter; a loaded layer is ready; every schedule of the ticket kernel ends
    and serves each expert's tiles once; in every interleaving of the
    streams the early launch gives the stock result.  Scheduler: the prefix found is the
    longest and the hold refines its specification and ends; eviction takes the
    lowest ranks; deferrals and waits are bounded; trimmed widths have a
    captured graph; a drafter group never shortens a hit and its consumers agree on its
    sizes; a floored chunk never
    stalls.  Drafter: the convolution kernel is the reference; the draft follows
    the chain of its own picks.  Patchers: fail closed, idempotent, exact; they compose in the order
    of the start script; one pair does not survive a second boot.  Caches and
    text: the role cache is token-exact and bounded; the grammar stays coherent
    with its matcher; the slot mapping stays in its row; no id leaks through
    retirement.  Qualification: the judge adopts exactly under the registered
    contract; a prefill run is accepted exactly when it is proved cold; the judge takes a probe's
    receipt exactly when the probe exited with zero; the interval and the verdict have their error rates; a window that
    ends, however it ends, leaves production as it was or says that it did not; the
    shared-experts gate adopts exactly on clean evidence, and the receipts its own scripts write
    are clean exactly when what they measured was.  Audits: chunked reading is
    reading; kernels go to the innermost range; a truncated trace gives no
    report; a header is accepted exactly when its tensors partition the payload; the import
    closure is exact; a verdict of not reachable is sound; the
    occupancy gate fails closed.

    ** Bounds and fuel

    The prefix scan recurses on the number of elements left, so its fuel is the
    distance to the end; [IndexerWorkspace.split_from] takes one unit for each
    request, and every chunk takes at least one; the polls of [WindowRun] take
    the source's own bounds (161, 31, 60 and 25 rounds); the JSON scanner takes
    twice the length of the text and one, which [PyJson.scan_enough] shows to be
    enough, since every call consumes; the worklist of [ImportClosure] takes the budget of
    names its files can mention, which every turn spends from; the reader of [TraceStream]
    takes the length of what is left.  All other recursion is
    structural.  Totality is part of the properties: they say that a result
    exists.  Python integers are unbounded ([Z], or [nat] where the source keeps
    them from being negative).  Python floats are exact rationals, with the
    non-finite ones apart where the code tests for them; fp16 rounding of the
    route weights is an idempotent function [half], and the arithmetic of a
    matrix product is not computed: a row is the record of what it was computed
    from.  Texts are byte strings of valid UTF-8, and ASCII where a regular
    expression searches them.

    ** What is not modelled

    Log lines and the texts of messages; time, except as an argument; locks
    (calls are atomic); the conversion of table indices to int32 and the order of
    floating-point sums; the device code beyond its dataflow and its checks;
    [check_stop_strings] and detokenization; the receipts' descriptive fields.
    Parts left out as a whole are the not_modelled components of the manifest.
    The reasons: patchers that rewrite Python's syntax trees, modules in
    [sys.modules], C++ or CUDA sources would need those languages' semantics as
    parameters with little left to prove; model classes are wiring of
    torch modules; the probes and smokes that are left are HTTP traffic against a
    live server, and what judges the receipts of the gates is modelled; the remaining guarded
    windows repeat the structure of [WindowRun] with other commands; shell launchers and image
    recipes run docker, ssh and systemd. *)
From stdpp Require Import base list gmap strings numbers.
From Stdlib Require Import ZArith QArith Lia Ascii String.

(** ** Exceptions and the error monad *)

(** The Python exceptions the modelled code raises or catches. *)
Inductive exn :=
  | TypeError
  | ValueError
  | AttributeError
  | KeyError
  | IndexError
  | RuntimeError
  | ZeroDivisionError
  | KeyboardInterrupt
  | AssertionError
  | SystemExit (msg : string)
  | OtherException.

#[export] Instance exn_eq_dec : EqDecision exn.
Proof. solve_decision. Defined.

(** The outcome of a Python expression: a value, or a raised exception. *)
Inductive res (A : Type) :=
  | Ok (a : A)
  | Raise (e : exn).
Arguments Ok {A} _.
Arguments Raise {A} _.

#[export] Instance res_ret : MRet res := fun A a => Ok a.
#[export] Instance res_bind : MBind res := fun A B k m =>
  match m with Ok a => k a | Raise e => Raise e end.
#[export] Instance res_fmap : FMap res := fun A B f m =>
  match m with Ok a => Ok (f a) | Raise e => Raise e end.

(** [try e except (...)]: run [h] when the raised exception is caught. *)
Definition catch {A} (m : res A) (caught : exn -> bool) (h : A) : res A :=
  match m with
  | Ok a => Ok a
  | Raise e => if caught e then Ok h else Raise e
  end.

(** The two families of [except] clauses the sources use on [int(...)]. *)
Definition type_or_value (e : exn) : bool :=
  match e with TypeError | ValueError => true | _ => false end.
Definition type_value_or_attr (e : exn) : bool :=
  match e with TypeError | ValueError | AttributeError => true | _ => false end.

Definition is_ok {A} (m : res A) : bool :=
  match m with Ok _ => true | Raise _ => false end.

(** ** Python strings: whitespace, decimal literals *)

(** ASCII whitespace as [str.strip] and [int] see it. *)
Definition is_space (c : ascii) : bool :=
  let n := nat_of_ascii c in
  (n =? 32)%nat || ((9 <=? n)%nat && (n <=? 13)%nat)
  || ((28 <=? n)%nat && (n <=? 31)%nat).

Fixpoint lstrip (s : string) : string :=
  match s with
  | EmptyString => EmptyString
  | String c s' => if is_space c then lstrip s' else s
  end.

Fixpoint rstrip (s : string) : string :=
  match s with
  | EmptyString => EmptyString
  | String c s' =>
      match rstrip s' with
      | EmptyString => if is_space c then EmptyString else String c EmptyString
      | r => String c r
      end
  end.

Definition strip (s : string) : string := rstrip (lstrip s).

Definition lower_ascii (c : ascii) : ascii :=
  let n := nat_of_ascii c in
  if ((65 <=? n)%nat && (n <=? 90)%nat)%bool then ascii_of_nat (n + 32) else c.

(** [str.lower] on ASCII text. *)
Fixpoint lower (s : string) : string :=
  match s with
  | EmptyString => EmptyString
  | String c s' => String (lower_ascii c) (lower s')
  end.

Definition digit_val (c : ascii) : option Z :=
  let n := nat_of_ascii c in
  if ((48 <=? n)%nat && (n <=? 57)%nat)%bool then Some (Z.of_nat n - 48)%Z else None.

(** Digits of a decimal literal; single underscores are allowed between digits
    ([prev] says whether the previous character was a digit). *)
Fixpoint parse_digits (prev : bool) (acc : Z) (s : string) : option Z :=
  match s with
  | EmptyString => if prev then Some acc else None
  | String c s' =>
      match digit_val c with
      | Some d => parse_digits true (acc * 10 + d)%Z s'
      | None =>
          if (Ascii.eqb c "_" && prev)%bool then parse_digits false acc s' else None
      end
  end.

(** [int(s)] / [int(s, 10)] for a string: surrounding whitespace, one sign,
    digits.  [None] stands for [ValueError]. *)
Definition parse_int (s : string) : option Z :=
  match strip s with
  | String "-" s' => (fun z => (- z)%Z) <$> parse_digits false 0 s'
  | String "+" s' => parse_digits false 0 s'
  | s' => parse_digits false 0 s'
  end.

(** ** Python values whose type the code does not trust *)

(** What an attribute of a request or a scheduler may hold.  [VObj] is any
    object [int()] rejects with [TypeError]. *)
Inductive pyval :=
  | VNone
  | VBool (b : bool)
  | VInt (z : Z)
  | VStr (s : string)
  | VObj.

#[export] Instance pyval_eq_dec : EqDecision pyval.
Proof. solve_decision. Defined.

(** [int(v)]. *)
Definition py_int (v : pyval) : res Z :=
  match v with
  | VInt z => Ok z
  | VBool b => Ok (Z.b2z b)
  | VStr s => match parse_int s with Some z => Ok z | None => Raise ValueError end
  | VNone | VObj => Raise TypeError
  end.

(** [bool(v)]. *)
Definition truthy (v : pyval) : bool :=
  match v with
  | VNone => false
  | VBool b => b
  | VInt z => negb (z =? 0)%Z
  | VStr s => match s with EmptyString => false | _ => true end
  | VObj => true
  end.

(** [v or w]. *)
Definition py_or (v w : pyval) : pyval := if truthy v then v else w.

(** An attribute that may be absent: [obj.name] and [getattr(obj, name, d)]. *)
Definition attr (a : option pyval) : res pyval :=
  match a with Some v => Ok v | None => Raise AttributeError end.
Definition getattr (a : option pyval) (d : pyval) : pyval := default d a.

(** ** Environment variables *)

(** [os.environ] is a map from names to values. *)
Abbreviation environ := (gmap string string).
Definition environ_get (env : environ) (k d : string) : string := default d (env !! k).

(** ** Integers *)

(** Python's [//] and [%] are floor division and modulus: [Z.div], [Z.modulo].
    [cdiv] is [-(-a // b)]. *)
Definition cdiv (a b : Z) : Z := (- (- a / b))%Z.

(** [min]/[max] of a non-empty list, [d] on the empty one. *)
Definition min_list (d : Z) (l : list Z) : Z :=
  match l with [] => d | x :: l' => fold_left Z.min l' x end.
Definition max_list (d : Z) (l : list Z) : Z :=
  match l with [] => d | x :: l' => fold_left Z.max l' x end.

Definition Zsum (l : list Z) : Z := fold_right Z.add 0%Z l.

(** The largest multiple of [b] at or below [n]: [n // b * b]. *)
Definition floor_to (n b : Z) : Z := (n / b * b)%Z.

(** ** Python lists, sets and decimal numbers *)

(** [s.split(sep)] for a one-character separator. *)
Fixpoint split_char (sep : ascii) (s : string) : list string :=
  match s with
  | EmptyString => [EmptyString]
  | String c s' =>
      if Ascii.eqb c sep then EmptyString :: split_char sep s'
      else match split_char sep s' with
           | [] => [String c EmptyString]
           | w :: ws => String c w :: ws
           end
  end.

(** [l[:n]]: a negative [n] counts from the end. *)
Definition slice_to {A} (n : Z) (l : list A) : list A :=
  if (n <? 0)%Z then take (Z.to_nat (Z.of_nat (Datatypes.length l) + n)) l else take (Z.to_nat n) l.

(** Insertion into a strictly increasing list; [sorted(set(l))]. *)
Fixpoint insert_z (x : Z) (l : list Z) : list Z :=
  match l with
  | [] => [x]
  | y :: l' => if (x <? y)%Z then x :: l else if (x =? y)%Z then l else y :: insert_z x l'
  end.
Definition sorted_set (l : list Z) : list Z := fold_right insert_z [] l.

Definition pow10 (n : nat) : positive := Nat.iter n (Pos.mul 10) 1%positive.

(** A run of decimal digits: value, number of digits, rest. *)
Fixpoint scan_digits (acc : Z) (n : nat) (s : string) : Z * nat * string :=
  match s with
  | EmptyString => (acc, n, s)
  | String c s' =>
      match digit_val c with
      | Some d => scan_digits (acc * 10 + d)%Z (S n) s'
      | None => (acc, n, s)
      end
  end.

Definition scan_exponent (s : string) : option Z :=
  match s with
  | EmptyString => Some 0%Z
  | String c s' =>
      if (Ascii.eqb c "e" || Ascii.eqb c "E")%bool then
        match s' with
        | String "-" r => Z.opp <$> parse_digits false 0 r
        | String "+" r => parse_digits false 0 r
        | r => parse_digits false 0 r
        end
      else None
  end.

Definition scan_unsigned (s : string) : option Q :=
  let '(i, ni, r) := scan_digits 0 0 s in
  let '(f, nf, r') := match r with String "." r1 => scan_digits i 0 r1 | _ => (i, 0%nat, r) end in
  match (ni + nf)%nat with
  | O => None
  | _ =>
      match scan_exponent r' with
      | None => None
      | Some e =>
          let q := Qmake f (pow10 nf) in
          Some (if (e <? 0)%Z then Qred (Qdiv q (inject_Z (Zpos (pow10 (Z.to_nat (- e))))))
                else Qred (Qmult q (inject_Z (Zpos (pow10 (Z.to_nat e))))))
      end
  end.

(** [float(s)] of a decimal literal, as the exact rational it denotes.  The
    literals [inf] and [nan], which no knob of the programs uses, are not
    numbers here. *)
Definition parse_float (s : string) : option Q :=
  match strip s with
  | String "-" s' => Qopp <$> scan_unsigned s'
  | String "+" s' => scan_unsigned s'
  | s' => scan_unsigned s'
  end.

Definition of_option {A} (e : exn) (o : option A) : res A :=
  match o with Some a => Ok a | None => Raise e end.

(** ** Tactics *)

(** Turn the boolean tests of the code into propositions, in the context and
    in the goal. *)
Ltac bool_to_prop :=
  repeat match goal with
  | H : (_ && _)%bool = true |- _ => apply andb_true_iff in H as [? ?]
  | H : (_ || _)%bool = false |- _ => apply orb_false_iff in H as [? ?]
  | H : negb _ = true |- _ => apply negb_true_iff in H
  | H : negb _ = false |- _ => apply negb_false_iff in H
  | H : (_ =? _)%Z = true |- _ => apply Z.eqb_eq in H
  | H : (_ =? _)%Z = false |- _ => apply Z.eqb_neq in H
  | H : (_ <=? _)%Z = true |- _ => apply Z.leb_le in H
  | H : (_ <=? _)%Z = false |- _ => apply Z.leb_gt in H
  | H : (_ <? _)%Z = true |- _ => apply Z.ltb_lt in H
  | H : (_ <? _)%Z = false |- _ => apply Z.ltb_ge in H
  | H : (_ <=? _)%nat = true |- _ => apply Nat.leb_le in H
  | H : (_ <=? _)%nat = false |- _ => apply Nat.leb_gt in H
  | H : (_ <? _)%nat = true |- _ => apply Nat.ltb_lt in H
  | H : (_ <? _)%nat = false |- _ => apply Nat.ltb_ge in H
  | H : (_ =? _)%nat = true |- _ => apply Nat.eqb_eq in H
  | H : (_ =? _)%nat = false |- _ => apply Nat.eqb_neq in H
  | H : bool_decide _ = true |- _ => apply bool_decide_eq_true_1 in H
  | H : bool_decide _ = false |- _ => apply bool_decide_eq_false_1 in H
  | |- (_ && _)%bool = true => apply andb_true_iff; split
  | |- (_ || _)%bool = false => apply orb_false_iff; split
  | |- negb _ = true => apply negb_true_iff
  | |- negb _ = false => apply negb_false_iff
  | |- (_ =? _)%Z = true => apply Z.eqb_eq
  | |- (_ =? _)%Z = false => apply Z.eqb_neq
  | |- (_ <=? _)%Z = true => apply Z.leb_le
  | |- (_ <=? _)%Z = false => apply Z.leb_gt
  | |- (_ <? _)%Z = true => apply Z.ltb_lt
  | |- (_ <? _)%Z = false => apply Z.ltb_ge
  end.

(** Split on the innermost test of the goal (or of hypothesis [H]). *)
Ltac case_if :=
  match goal with
  | |- context [if ?b then _ else _] =>
      lazymatch b with context [if _ then _ else _] => fail | _ => destruct b eqn:? end
  end.
Ltac case_if_in H :=
  match type of H with
  | context [if ?b then _ else _] =>
      lazymatch b with context [if _ then _ else _] => fail | _ => destruct b eqn:? end
  end.

(** Linear arithmetic with [/] and [mod] by positive numbers unfolded. *)
Ltac div_lia := Z.to_euclidean_division_equations; nia.

(** ** Shared lemmas *)

Lemma Ok_inj {A} (a b : A) : Ok a = Ok b -> a = b.
Proof. congruence. Qed.

Lemma bind_Ok {A B} (m : res A) (k : A -> res B) b :
  m ≫= k = Ok b <-> exists a, m = Ok a /\ k a = Ok b.
Proof. destruct m; simpl; split; [eauto | by intros (? & [= ->] & ?) | done | by intros (? & ? & ?)]. Qed.

Lemma floor_to_le n b : (0 < b -> floor_to n b <= n)%Z.
Proof. unfold floor_to. intros. pose proof (Z.mul_div_le n b). lia. Qed.

Lemma floor_to_gt n b : (0 < b -> n < floor_to n b + b)%Z.
Proof. unfold floor_to. intros. pose proof (Z.mul_succ_div_gt n b). lia. Qed.

Lemma floor_to_nonneg n b : (0 < b -> 0 <= n -> 0 <= floor_to n b)%Z.
Proof. unfold floor_to. intros. pose proof (Z.div_pos n b). nia. Qed.

Lemma floor_to_divide n b : (b | floor_to n b)%Z.
Proof. exists (n / b)%Z. reflexivity. Qed.

Lemma floor_to_mono n m b : (0 < b -> n <= m -> floor_to n b <= floor_to m b)%Z.
Proof.
  unfold floor_to. intros Hb Hnm. apply Z.mul_le_mono_nonneg_r; [lia |].
  by apply Z.div_le_mono.
Qed.

(** [floor_to n b] is the greatest multiple of [b] not above [n]. *)
Lemma floor_to_greatest n b m : (0 < b -> (b | m) -> m <= n -> m <= floor_to n b)%Z.
Proof.
  intros Hb [k ->] Hle. unfold floor_to. apply Z.mul_le_mono_nonneg_r; [lia |].
  apply Z.div_le_lower_bound; lia.
Qed.

Lemma floor_to_id n b : (0 < b -> (b | n) -> floor_to n b = n)%Z.
Proof. intros Hb [k ->]. unfold floor_to. rewrite Z.div_mul; lia. Qed.

Lemma cdiv_le_iff a b n : (0 < b -> cdiv a b <= n <-> a <= n * b)%Z.
Proof.
  intros Hb. unfold cdiv. split; intros H.
  - pose proof (Z.mul_div_le (- a) b). nia.
  - assert (- n <= - a / b)%Z by (apply Z.div_le_lower_bound; nia). lia.
Qed.

Lemma fold_min_le l a : (fold_left Z.min l a <= a)%Z.
Proof.
  revert a; induction l as [|x l IH]; intros a; simpl; [lia |].
  specialize (IH (Z.min a x)). lia.
Qed.

Lemma fold_min_elem l a x : x ∈ l -> (fold_left Z.min l a <= x)%Z.
Proof.
  revert a; induction l as [|y l IH]; intros a; [by intros ?%not_elem_of_nil |].
  intros [->|Hx]%elem_of_cons; simpl.
  - pose proof (fold_min_le l (Z.min a y)). lia.
  - by apply IH.
Qed.

Lemma fold_min_in l a : fold_left Z.min l a = a \/ fold_left Z.min l a ∈ l.
Proof.
  revert a; induction l as [|y l IH]; intros a; simpl; [by left |].
  destruct (IH (Z.min a y)) as [E|E]; [|right; by constructor].
  rewrite E. destruct (Z.min_spec a y) as [[_ ->]|[_ ->]];
    [by left | right; by constructor].
Qed.

Lemma Zsum_app l k : Zsum (l ++ k) = (Zsum l + Zsum k)%Z.
Proof. unfold Zsum. induction l as [|x l IH]; simpl; [done | lia]. Qed.

Lemma min_list_le d l x : x ∈ l -> (min_list d l <= x)%Z.
Proof.
  destruct l as [|y l]; [by intros ?%not_elem_of_nil |].
  intros [->|Hx]%elem_of_cons; simpl; [apply fold_min_le | by apply fold_min_elem].
Qed.

Lemma min_list_in d l : l <> [] -> min_list d l ∈ l.
Proof.
  destruct l as [|y l]; [done |]. intros _. simpl.
  destruct (fold_min_in l y) as [->|E]; by constructor.
Qed.

Lemma fold_max_ge l a : (a <= fold_left Z.max l a)%Z.
Proof.
  revert a; induction l as [|x l IH]; intros a; simpl; [lia |].
  specialize (IH (Z.max a x)). lia.
Qed.

Lemma fold_max_elem l a x : x ∈ l -> (x <= fold_left Z.max l a)%Z.
Proof.
  revert a; induction l as [|y l IH]; intros a; [by intros ?%not_elem_of_nil |].
  intros [->|Hx]%elem_of_cons; simpl.
  - pose proof (fold_max_ge l (Z.max a y)). lia.
  - by apply IH.
Qed.

Lemma fold_max_in l a : fold_left Z.max l a = a \/ fold_left Z.max l a ∈ l.
Proof.
  revert a; induction l as [|y l IH]; intros a; simpl; [by left |].
  destruct (IH (Z.max a y)) as [E|E]; [|right; by constructor].
  rewrite E. destruct (Z.max_spec a y) as [[_ ->]|[_ ->]];
    [right; by constructor | by left].
Qed.

Lemma max_list_ge d l x : x ∈ l -> (x <= max_list d l)%Z.
Proof.
  destruct l as [|y l]; [by intros ?%not_elem_of_nil |].
  intros [->|Hx]%elem_of_cons; simpl; [apply fold_max_ge | by apply fold_max_elem].
Qed.

Lemma max_list_in d l : l <> [] -> max_list d l ∈ l.
Proof.
  destruct l as [|y l]; [done |]. intros _. simpl.
  destruct (fold_max_in l y) as [->|E]; by constructor.
Qed.

Create HintDb glm53.
#[export] Hint Resolve floor_to_le floor_to_nonneg floor_to_divide floor_to_mono : glm53.

Lemma list_filter_all {A} (P : A -> Prop) `{!forall x, Decision (P x)} (l : list A) :
  (forall x, x ∈ l -> P x) -> base.filter P l = l.
Proof.
  induction l as [|x l IH]; intros HP; [done |].
  rewrite filter_cons_True by (apply HP; constructor). f_equal. apply IH.
  intros y Hy. apply HP. by constructor.
Qed.

Lemma list_filter_none {A} (P : A -> Prop) `{!forall x, Decision (P x)} (l : list A) :
  (forall x, x ∈ l -> ~ P x) -> base.filter P l = [].
Proof.
  induction l as [|x l IH]; intros HP; [done |].
  rewrite filter_cons_False by (apply HP; constructor). apply IH.
  intros y Hy. apply HP. by constructor.
Qed.

Lemma NoDup_fmap_filter {A B} (f : A -> B) (P : A -> Prop) `{!forall x, Decision (P x)} (l : list A) :
  NoDup (f <$> l) -> NoDup (f <$> base.filter P l).
Proof.
  induction l as [|x l IH]; intros Hnd; [done |].
  simpl in Hnd. apply list.NoDup_cons in Hnd as [Hx Hnd]. rewrite filter_cons.
  case_decide; [|by apply IH]. simpl. apply list.NoDup_cons. split; [|by apply IH].
  intros (y & Hy & Hin)%list_elem_of_fmap. apply list_elem_of_filter in Hin as [_ Hin].
  apply Hx, list_elem_of_fmap. by exists y.
Qed.

(** ** Lemmas on Python lists and sets *)

Lemma insert_z_elem x y l : y ∈ insert_z x l <-> y = x \/ y ∈ l.
Proof.
  induction l as [|z l IH]; simpl; [by rewrite elem_of_cons |].
  case_if; [by rewrite !elem_of_cons |]. case_if.
  - bool_to_prop. subst. rewrite !elem_of_cons. naive_solver.
  - rewrite !elem_of_cons, IH. naive_solver.
Qed.

Lemma sorted_set_elem y l : y ∈ sorted_set l <-> y ∈ l.
Proof.
  induction l as [|x l IH]; [done |]. simpl. rewrite insert_z_elem, IH, elem_of_cons. done.
Qed.

Lemma slice_to_prefix {A} n (l : list A) : slice_to n l `prefix_of` l.
Proof. unfold slice_to. case_if; apply prefix_take. Qed.

Lemma length_slice_to {A} n (l : list A) : (0 <= n)%Z ->
  Z.of_nat (Datatypes.length (slice_to n l)) = Z.min n (Z.of_nat (Datatypes.length l)).
Proof. intros. unfold slice_to. case_if; bool_to_prop; [lia |]. rewrite length_take. lia. Qed.

(** [mapM] in the error monad succeeds exactly when every element does. *)
Lemma mapM_Ok {A B} (f : A -> res B) l k :
  mapM f l = Ok k <-> Forall2 (fun x y => f x = Ok y) l k.
Proof.
  split.
  - revert k. induction l as [|x l IH]; intros k; simpl; [intros [= <-]; constructor |].
    intros (y & Hy & (ys & Hys & [= <-])%bind_Ok)%bind_Ok. constructor; [done | by apply IH].
  - induction 1 as [|x y l k Hx _ IH]; [done |]. simpl. by rewrite Hx, IH.
Qed.
