(* ===== verification/PyStr.v ===== *)
(** * Python text operations

    The operations the patchers use on a source file: [needle in s],
    [s.count(needle)], [s.replace(old, new, 1)], [s.replace(old, new)] and
    [s.split(sep, 1)[0]], with the facts about substrings their proofs share.
    Strings are byte strings; on valid UTF-8 these operations agree with the
    ones on code points. *)
From Stdlib Require Import ZArith Lia String Ascii.
From stdpp Require Import base list strings.
From S2P Require Import Prelude.
#[local] Open Scope string_scope.

(** ** Operations *)

(** [needle in s]. *)
Fixpoint str_in (needle s : string) : bool :=
  String.prefix needle s || match s with EmptyString => false | String _ s' => str_in needle s' end.

(** [s.count(needle)] of a non-empty needle: occurrences that do not overlap,
    from the left; [skip] is what is left of the last one. *)
Fixpoint count_from (needle : string) (skip : nat) (s : string) : nat :=
  match s with
  | EmptyString => 0
  | String _ s' =>
      match skip with
      | S k => count_from needle k s'
      | O => if String.prefix needle s then S (count_from needle (String.length needle - 1) s')
             else count_from needle 0 s'
      end
  end.
Definition str_count (needle s : string) : nat := count_from needle 0 s.

Fixpoint drop_str (n : nat) (s : string) : string :=
  match n, s with
  | O, _ => s
  | S k, EmptyString => EmptyString
  | S k, String _ s' => drop_str k s'
  end.

(** [s[:n]], for [n] at least zero. *)
Fixpoint take_str (n : nat) (s : string) : string :=
  match n, s with
  | S n, String c s => String c (take_str n s)
  | _, _ => ""
  end.

(** [s.endswith(suffix)]. *)
Definition ends_with (suffix s : string) : bool :=
  (String.length suffix <=? String.length s)%nat && String.eqb (drop_str (String.length s - String.length suffix) s) suffix.

(** [s.replace(old, new, 1)]. *)
Fixpoint replace_first (old new s : string) : string :=
  if String.prefix old s then new ++ drop_str (String.length old) s
  else match s with EmptyString => EmptyString | String c s' => String c (replace_first old new s') end.

(** [s.replace(old, new)] of a non-empty [old]. *)
Fixpoint replace_from (old new : string) (skip : nat) (s : string) : string :=
  match s with
  | EmptyString => EmptyString
  | String c s' =>
      match skip with
      | S k => replace_from old new k s'
      | O => if String.prefix old s then new ++ replace_from old new (String.length old - 1) s'
             else String c (replace_from old new 0 s')
      end
  end.
Definition replace_all (old new s : string) : string := replace_from old new 0 s.

(** [s.split(sep, 1)[0]]. *)
Fixpoint before (sep s : string) : string :=
  if String.prefix sep s then EmptyString
  else match s with EmptyString => EmptyString | String c s' => String c (before sep s') end.

(** A line feed. *)
Definition newline : string := String (ascii_of_nat 10) EmptyString.

(** The source texts below are written with [^] for the double quote. *)
Fixpoint unquote (s : string) : string :=
  match s with
  | EmptyString => EmptyString
  | String c s' => String (if Ascii.eqb c "^" then ascii_of_nat 34 else c) (unquote s')
  end.

(** ** Substrings *)

Lemma app_nil_str s : s ++ "" = s.
Proof. induction s as [|c s IH]; [done |]. change (String c (s ++ "") = String c s). by rewrite IH. Qed.

Lemma app_assoc_str (a b c : string) : (a ++ b) ++ c = a ++ b ++ c.
Proof.
  induction a as [|x a IH]; [done |].
  change (String x ((a ++ b) ++ c) = String x (a ++ b ++ c)). by rewrite IH.
Qed.

Lemma prefix_spec p s : String.prefix p s = true <-> exists b, s = p ++ b.
Proof.
  revert s. induction p as [|x p IH]; intros s; simpl.
  { split; [by exists s | intros _; by destruct s]. }
  destruct s as [|y s]; simpl; [split; [intros H; discriminate H | intros [b Hb]; discriminate Hb] |].
  destruct (ascii_dec x y) as [->|Hn].
  - rewrite IH. split; intros [b Hb]; exists b; [by subst s | by injection Hb].
  - split; [done |]. intros [b Hb]. injection Hb as Hc _. congruence.
Qed.

#[global] Arguments String.prefix : simpl never.

Lemma str_in_spec n s : str_in n s = true <-> exists a b, s = a ++ n ++ b.
Proof.
  split.
  - induction s as [|c s IH]; simpl.
    + rewrite orb_false_r. intros [b Hb]%prefix_spec. by exists "", b.
    + intros [[b Hb]%prefix_spec|H]%orb_true_iff; [by exists "", b |].
      destruct (IH H) as (a & b & ->). by exists (String c a), b.
  - intros (a & b & ->). induction a as [|c a IH].
    + assert (String.prefix n ("" ++ n ++ b) = true) as H by (apply prefix_spec; by exists b).
      change ("" ++ n ++ b) with (n ++ b) in *. destruct (n ++ b); simpl in *; by rewrite H.
    + change (String c a ++ n ++ b) with (String c (a ++ n ++ b)). simpl. rewrite IH. apply orb_true_r.
Qed.

Lemma str_in_app_l n a b : str_in n a = true -> str_in n (a ++ b) = true.
Proof.
  rewrite !str_in_spec. intros (x & y & ->). exists x, (y ++ b). by rewrite !app_assoc_str.
Qed.

Lemma str_in_app_r n a b : str_in n b = true -> str_in n (a ++ b) = true.
Proof.
  rewrite !str_in_spec. intros (x & y & ->). exists (a ++ x), y. by rewrite !app_assoc_str.
Qed.

Lemma str_in_refl s : str_in s s = true.
Proof. apply str_in_spec. exists "", "". by rewrite app_nil_str. Qed.

Lemma str_in_trans a b c : str_in a b = true -> str_in b c = true -> str_in a c = true.
Proof.
  intros H (x & y & ->)%str_in_spec. apply str_in_app_r. by apply str_in_app_l.
Qed.

Lemma count_zero_skip n s k : str_in n s = false -> count_from n k s = 0.
Proof.
  revert k. induction s as [|c s IH]; intros k; [done |]. simpl.
  intros [Hp Hs]%orb_false_iff. destruct k; [|by apply IH]. by rewrite Hp, IH.
Qed.

(** A count of zero is absence. *)
Lemma str_count_zero n s : n <> "" -> str_count n s = 0 <-> str_in n s = false.
Proof.
  intros Hn. split; [|apply count_zero_skip]. unfold str_count.
  induction s as [|c s IH]; intros H.
  - destruct n; done.
  - simpl in *. destruct (String.prefix n (String c s)); [done |]. simpl. by apply IH.
Qed.

Lemma str_count_pos n s : n <> "" -> str_count n s <> 0 -> str_in n s = true.
Proof.
  intros Hn H. apply not_false_iff_true. intros E. by apply H, str_count_zero.
Qed.

(** What contains an absent text is absent. *)
Lemma count_super a b s : a <> "" -> str_in a b = true -> str_count a s = 0 -> str_count b s = 0.
Proof.
  intros Ha Hab Hc. assert (b <> "") as Hb.
  { intros ->. destruct a; [done |]. discriminate Hab. }
  apply str_count_zero; [done |]. apply str_count_zero in Hc; [|done].
  apply not_true_iff_false. intros Hbs. rewrite (str_in_trans a b s Hab Hbs) in Hc. discriminate.
Qed.

Lemma drop_app p b : drop_str (String.length p) (p ++ b) = b.
Proof. by induction p. Qed.

Lemma take_drop_str n s : take_str n s ++ drop_str n s = s.
Proof. revert s. induction n as [|n IH]; intros [|c s]; try done. simpl.
  change (String c (take_str n s) ++ drop_str n s) with (String c (take_str n s ++ drop_str n s)). by rewrite IH.
Qed.

(** One replacement of a text that occurs. *)
Lemma replace_first_spec old new s : str_in old s = true ->
  exists a b, s = a ++ old ++ b /\ replace_first old new s = a ++ new ++ b.
Proof.
  induction s as [|c s IH]; simpl.
  - rewrite orb_false_r. intros [b Hb]%prefix_spec. destruct old as [|x old]; [|by destruct b].
    exists "", "". by rewrite app_nil_str.
  - destruct (String.prefix old (String c s)) eqn:E.
    + intros _. apply prefix_spec in E as [b Hb]. exists "", b. split; [done |]. rewrite Hb, drop_app. done.
    + simpl. intros H. destruct (IH H) as (a & b & -> & Hr). exists (String c a), b. split; [done |].
      change (String c a ++ new ++ b) with (String c (a ++ new ++ b)). by rewrite <- Hr.
Qed.

Lemma replace_first_absent old new s : str_in old s = false -> replace_first old new s = s.
Proof.
  induction s as [|c s IH]; simpl; intros [Hp Hs]%orb_false_iff; rewrite Hp; [done |].
  by rewrite IH.
Qed.

(** ** Exact edits *)

(** One occurrence of [old] becomes [new]; every other byte stays. *)
Definition edited (e : string * string) (s t : string) : Prop :=
  exists a b, s = a ++ fst e ++ b /\ t = a ++ snd e ++ b.

(** [t] is reached from [s] by editing occurrences with pairs of the table, in
    some order. *)
Inductive edits (table : list (string * string)) : string -> string -> Prop :=
  | edits_nil s : edits table s s
  | edits_cons e s t u : In e table -> edited e s t -> edits table t u -> edits table s u.

Lemma edits_one table old new s :
  In (old, new) table -> str_in old s = true -> edits table s (replace_first old new s).
Proof.
  intros Ht Hi. destruct (replace_first_spec old new s Hi) as (a & b & Hs & Hr).
  eapply edits_cons; [exact Ht | by exists a, b | constructor].
Qed.

Lemma edits_trans table s t u : edits table s t -> edits table t u -> edits table s u.
Proof. induction 1; [done |]. intros. econstructor; eauto. Qed.

Lemma edits_mono table table' s t : incl table table' -> edits table s t -> edits table' s t.
Proof. intros Hi. induction 1; [constructor |]. econstructor; eauto. Qed.

(** ** Texts that cannot overlap *)

(** One of the two is a prefix of the other. *)
Definition compat (x y : string) : bool := String.prefix x y || String.prefix y x.

(** No occurrence of [q] can start inside [p]. *)
Fixpoint starts_outside (p q : string) : bool :=
  match p with
  | EmptyString => true
  | String _ p' => negb (compat p q) && starts_outside p' q
  end.

(** Occurrences of [p] and [q] never share a character. *)
Definition apart (p q : string) : bool := starts_outside p q && starts_outside q p.

Lemma prefix_nil s : String.prefix "" s = true.
Proof. by destruct s. Qed.

Lemma compat_app x b y d : x ++ b = y ++ d -> compat x y = true.
Proof.
  revert y. induction x as [|c x IH]; intros y H; [unfold compat; by rewrite prefix_nil |].
  destruct y as [|c' y]; [unfold compat; by rewrite prefix_nil, orb_true_r |].
  injection H as -> H. specialize (IH y H). unfold compat in *. apply orb_true_iff in IH.
  apply orb_true_iff. destruct IH as [[z ->]%prefix_spec|[z ->]%prefix_spec]; [left | right];
    apply prefix_spec; by exists z.
Qed.

Lemma starts_outside_split p q b c d :
  starts_outside p q = true -> p ++ b = c ++ q ++ d -> exists m, c = p ++ m /\ b = m ++ q ++ d.
Proof.
  revert c. induction p as [|x p IH]; intros c Hs H; [by exists c |].
  cbn [starts_outside] in Hs. apply andb_true_iff in Hs as [Hc Hs].
  destruct c as [|y c].
  - change ("" ++ q ++ d) with (q ++ d) in H. apply compat_app in H. rewrite H in Hc. discriminate.
  - injection H as -> H. destruct (IH c Hs H) as (m & -> & Hb). by exists m.
Qed.

Lemma apart_split p q a b c d : apart p q = true -> a ++ p ++ b = c ++ q ++ d ->
  (exists m, c = a ++ p ++ m) \/ (exists m, d = m ++ p ++ b).
Proof.
  intros Hap. unfold apart in Hap. apply andb_true_iff in Hap as [Hpq Hqp].
  revert c. induction a as [|x a IH]; intros c H.
  - left. change ("" ++ p ++ b) with (p ++ b) in H.
    destruct (starts_outside_split p q b c d Hpq H) as (m & Hm & _). by exists m.
  - destruct c as [|y c].
    + right. symmetry in H. change ("" ++ q ++ d) with (q ++ d) in H.
      destruct (starts_outside_split q p d (String x a) b Hqp H) as (m & _ & Hm). by exists m.
    + injection H as -> H. destruct (IH c H) as [[m ->]|[m ->]]; [left | right]; by exists m.
Qed.

(** A replacement leaves what cannot overlap its anchor. *)
Lemma replace_survives p q r s :
  apart p q = true -> str_in p s = true -> str_in p (replace_first q r s) = true.
Proof.
  intros Hap Hp. destruct (str_in q s) eqn:Hq; [|by rewrite replace_first_absent].
  destruct (replace_first_spec q r s Hq) as (c & d & Hs & ->).
  apply str_in_spec in Hp as (a & b & Ha). rewrite Ha in Hs.
  apply str_in_spec. destruct (apart_split p q a b c d Hap Hs) as [[m ->]|[m ->]].
  - exists a, (m ++ r ++ d). by rewrite !app_assoc_str.
  - exists (c ++ r ++ m), b. by rewrite !app_assoc_str.
Qed.

(** The replacement text is there afterwards. *)
Lemma replace_first_in old new s : str_in old s = true -> str_in new (replace_first old new s) = true.
Proof.
  intros H. destruct (replace_first_spec old new s H) as (a & b & _ & ->).
  apply str_in_app_r, str_in_app_l, str_in_refl.
Qed.

(** ** Unique occurrences *)

(** The replacement happens at the first occurrence; with a count of one none is
    left behind it. *)
Lemma replace_first_split old new s : old <> "" -> str_in old s = true ->
  exists a b, s = a ++ old ++ b /\ replace_first old new s = a ++ new ++ b /\
    str_count old s = S (str_count old b) /\ (forall c d, s = c ++ old ++ d -> exists m, c = a ++ m).
Proof.
  intros Hne. induction s as [|c s IH]; [destruct old; [done | by cbn] |]. cbn [replace_first str_in].
  destruct (String.prefix old (String c s)) eqn:E.
  - intros _. apply prefix_spec in E as [b Hb]. exists "", b. rewrite Hb, drop_app.
    split; [done |]. split; [done |]. split; [|by intros x d _; exists x].
    unfold str_count. rewrite <- Hb. cbn [count_from]. rewrite (proj2 (prefix_spec old (String c s))) by (by exists b).
    f_equal. destruct old as [|x old]; [done |]. injection Hb as -> ->. clear.
    replace (String.length (String x old) - 1)%nat with (String.length old) by (simpl; lia).
    generalize (String x old). intros p. induction old as [|y old IH]; [done |]. exact IH.
  - intros H. destruct (IH H) as (a & b & -> & Hr & Hc & Hf). exists (String c a), b.
    split; [done |]. split; [by rewrite Hr |]. split.
    + rewrite <- Hc. unfold str_count. cbn [count_from]. by rewrite E.
    + intros x d Hx. destruct x as [|y x].
      * change ("" ++ old ++ d) with (old ++ d) in Hx. rewrite Hx in E.
        rewrite (proj2 (prefix_spec old (old ++ d))) in E by (by exists d). discriminate.
      * injection Hx as -> Hx. destruct (Hf x d Hx) as [m ->]. by exists m.
Qed.

Lemma length_app_str (a b : string) : String.length (a ++ b) = (String.length a + String.length b)%nat.
Proof. induction a as [|c a IH]; [done |]. change (S (String.length (a ++ b)) = S (String.length a + String.length b)). by rewrite IH. Qed.

Lemma app_self_nil (a b : string) : b = a ++ b -> a = "".
Proof. intros H. apply (f_equal String.length) in H. rewrite length_app_str in H. destruct a; [done |]. simpl in H. lia. Qed.

Lemma app_inj_l (a b c : string) : a ++ b = a ++ c -> b = c.
Proof. induction a as [|x a IH]; [done |]. intros H. injection H as H. by apply IH. Qed.

(** A unique anchor is gone after its replacement by a text it cannot overlap. *)
Lemma replace_unique_gone old new s :
  old <> "" -> apart new old = true -> str_count old s = 1 -> str_in old (replace_first old new s) = false.
Proof.
  intros Hne Hap Hc. assert (str_in old s = true) as Hin by (apply str_count_pos; [done | by rewrite Hc]).
  destruct (replace_first_split old new s Hne Hin) as (a & b & Hs & -> & Hcb & Hf).
  assert (str_in old b = false) as Hb by (apply str_count_zero; [done |]; lia).
  apply not_true_iff_false. intros (c & d & H)%str_in_spec.
  destruct (apart_split new old a b c d Hap H) as [[m ->]|[m ->]].
  - rewrite !app_assoc_str in H. apply app_inj_l, app_inj_l in H. rewrite H in Hb.
    rewrite (proj2 (str_in_spec old (m ++ old ++ d))) in Hb by (by exists m, d). discriminate.
  - assert (a = c ++ old ++ m) as Ha.
    { assert (a ++ (new ++ b) = (c ++ old ++ m) ++ (new ++ b)) as Hx by (by rewrite !app_assoc_str).
      revert Hx. generalize (new ++ b), (c ++ old ++ m). clear. intros t u. revert u. induction a as [|x a IH]; intros u H.
      - symmetry. by apply (app_self_nil u t).
      - destruct u as [|y u].
        + symmetry in H. by apply (app_self_nil (String x a) t) in H.
        + injection H as -> H. by rewrite (IH u H). }
    destruct (Hf c (m ++ old ++ b)) as [z Hz].
    { rewrite Hs, Ha. by rewrite !app_assoc_str. }
    rewrite Hz in Ha. rewrite app_assoc_str in Ha. rewrite <- (app_nil_str a) in Ha at 1. apply app_inj_l in Ha.
    destruct z; [destruct old; [done | discriminate Ha] | discriminate Ha].
Qed.

(** A text none of whose proper suffixes starts it. *)
Definition borderless (p : string) : bool := match p with EmptyString => false | String _ p' => starts_outside p' p end.

(** A fresh text put between two texts without it occurs exactly once. *)
Lemma count_fresh new a b : borderless new = true ->
  str_in new a = false -> str_in new b = false -> str_count new (a ++ new ++ b) = 1.
Proof.
  intros Hbl Ha Hb. assert (new <> "") as Hne by (by intros ->).
  assert (str_in new (a ++ new ++ b) = true) as Hin by (apply str_in_spec; by exists a, b).
  destruct (replace_first_split new "" _ Hne Hin) as (a' & b' & Hs & _ & -> & Hf).
  destruct (Hf a b eq_refl) as [m Hm]. enough (m = "") as ->.
  { rewrite app_nil_str in Hm. subst a'. apply app_inj_l, app_inj_l in Hs. subst b'.
    by rewrite (proj2 (str_count_zero new b Hne) Hb). }
  subst a. rewrite app_assoc_str in Hs. apply app_inj_l in Hs. destruct m as [|x m]; [done | exfalso].
  destruct new as [|y new]; [done |]. cbn [borderless] in Hbl.
  injection Hs as Hxy Hs. symmetry in Hs.
  destruct (starts_outside_split new (String y new) b' m b Hbl Hs) as (z & Hz & _).
  apply not_true_iff_false in Ha. apply Ha. apply str_in_spec. exists a', z. subst. done.
Qed.

Lemma absent_app n a b : str_in n (a ++ b) = false -> str_in n a = false /\ str_in n b = false.
Proof.
  intros H. split; apply not_true_iff_false; intros Hx.
  - by rewrite (str_in_app_l n a b Hx) in H.
  - by rewrite (str_in_app_r n a b Hx) in H.
Qed.

Lemma replace_fresh_once old new s : borderless new = true -> str_in new s = false -> str_in old s = true ->
  str_count new (replace_first old new s) = 1.
Proof.
  intros Hb Hn Ho. destruct (replace_first_spec old new s Ho) as (a & b & -> & ->).
  apply absent_app in Hn as [Ha [_ Hn]%absent_app]. by apply count_fresh.
Qed.

(** What contains an absent text is absent. *)
Lemma absent_super a b s : str_in a b = true -> str_in a s = false -> str_in b s = false.
Proof.
  intros Hab Ha. apply not_true_iff_false. intros Hb. by rewrite (str_in_trans a b s Hab Hb) in Ha.
Qed.

(** ** Counts around a replacement *)

Lemma count_skip p k s : count_from p k s = count_from p 0 (drop_str k s).
Proof. revert k. induction s as [|c s IH]; intros [|k]; try done. apply IH. Qed.

(** A text that cannot overlap [p] contributes none and hides none. *)
Lemma count_apart_head p q b : apart p q = true -> p <> "" -> str_count p (q ++ b) = str_count p b.
Proof.
  intros Hap Hp. unfold apart in Hap. apply andb_true_iff in Hap as [_ Hq].
  induction q as [|x q IH]; [done |]. cbn [starts_outside] in Hq. apply andb_true_iff in Hq as [Hc Hq].
  unfold str_count in *. change (String x q ++ b) with (String x (q ++ b)). cbn [count_from].
  destruct (String.prefix p (String x (q ++ b))) eqn:E; [|by apply IH].
  apply prefix_spec in E as [z Hz]. change (String x (q ++ b)) with (String x q ++ b) in Hz.
  apply compat_app in Hz. by rewrite Hz in Hc.
Qed.

Lemma length_prefix p s : String.prefix p s = true -> (String.length p <= String.length s)%nat.
Proof. intros [z ->]%prefix_spec. rewrite length_app_str. lia. Qed.

Lemma length_drop_str k s : String.length (drop_str k s) = (String.length s - k)%nat.
Proof. revert k. induction s as [|c s IH]; intros [|k]; try done. simpl. apply IH. Qed.

Lemma drop_app_le k a b : (k <= String.length a)%nat -> drop_str k (a ++ b) = drop_str k a ++ b.
Proof.
  revert k. induction a as [|c a IH]; intros [|k] H; try done; [simpl in H; lia |].
  change (drop_str k (a ++ b) = drop_str k a ++ b). apply IH. simpl in H. lia.
Qed.

Lemma count_apart p q a b : apart p q = true -> p <> "" ->
  str_count p (a ++ q ++ b) = (str_count p a + str_count p b)%nat.
Proof.
  intros Hap Hp. remember (String.length a) as n eqn:Hn. revert a Hn.
  induction n as [n IH] using lt_wf_ind. intros [|c a] ->.
  - exact (count_apart_head p q b Hap Hp).
  - unfold str_count. change (String c a ++ q ++ b) with (String c (a ++ q ++ b)). cbn [count_from].
    assert (String.prefix p (String c (a ++ q ++ b)) = String.prefix p (String c a)) as ->.
    { apply eq_true_iff_eq. split; intros [z Hz]%prefix_spec.
      - destruct (apart_split p q "" z (String c a) b Hap) as [[m Hm]|[m Hm]]; [by symmetry | |].
        + apply prefix_spec. exists m. exact Hm.
        + exfalso. change ("" ++ p ++ z) with (p ++ z) in *. rewrite Hm in Hz.
          change (String c (a ++ q ++ m ++ p ++ z)) with (String c a ++ q ++ m ++ p ++ z) in Hz.
          apply (f_equal String.length) in Hz. rewrite !length_app_str in Hz. simpl in Hz. lia.
      - apply prefix_spec. exists (z ++ q ++ b).
        change (String c (a ++ q ++ b)) with (String c a ++ q ++ b). by rewrite Hz, app_assoc_str. }
    destruct (String.prefix p (String c a)) eqn:E.
    + apply length_prefix in E. simpl in E. rewrite count_skip, drop_app_le, (count_skip p _ a) by lia.
      simpl. f_equal. refine (IH _ _ _ eq_refl). rewrite length_drop_str. simpl. lia.
    + refine (IH _ _ a eq_refl). simpl. lia.
Qed.

(** Occurrences that cannot overlap the anchor or its replacement are kept. *)
Lemma count_replace_apart p old new s :
  apart p old = true -> apart p new = true -> p <> "" -> str_count p (replace_first old new s) = str_count p s.
Proof.
  intros H1 H2 Hp. destruct (str_in old s) eqn:E; [|by rewrite replace_first_absent].
  destruct (replace_first_spec old new s E) as (a & b & -> & ->). by rewrite !count_apart.
Qed.

Lemma replace_skip old new k s : replace_from old new k s = replace_from old new 0 (drop_str k s).
Proof. revert k. induction s as [|c s IH]; intros [|k]; try done. apply IH. Qed.

Lemma replace_all_absent old new s : str_in old s = false -> replace_all old new s = s.
Proof.
  unfold replace_all. induction s as [|c s IH]; [done |]. cbn [str_in replace_from]. intros [-> H]%orb_false_iff.
  by rewrite IH.
Qed.

(** With a single occurrence [replace] needs no count. *)
Lemma replace_all_unique old new s : old <> "" -> str_count old s = 1 -> replace_all old new s = replace_first old new s.
Proof.
  intros Ho. unfold str_count, replace_all. induction s as [|c s IH]; [done |].
  cbn [count_from replace_from replace_first]. destruct (String.prefix old (String c s)) eqn:E.
  - rewrite count_skip, replace_skip. intros [= H]. f_equal.
    destruct old as [|x old]; [done |]. simpl. replace (String.length old - 0)%nat with (String.length old) in * by lia.
    apply replace_all_absent. apply str_count_zero; [done |].
    simpl in H. replace (String.length old - 0)%nat with (String.length old) in H by lia. exact H.
  - intros H. by rewrite (IH H).
Qed.

(** A prefix of a concatenation that is no longer than the first part. *)
Lemma prefix_of_longer m s z t : m ++ z = s ++ t -> (String.length m <= String.length s)%nat -> String.prefix m s = true.
Proof.
  revert s. induction m as [|c m IH]; intros s H Hl; [apply prefix_nil |].
  destruct s as [|c' s]; [simpl in Hl; lia |]. injection H as -> H.
  change (String.prefix (String c' m) (String c' s)) with (if ascii_dec c' c' then String.prefix m s else false).
  destruct (ascii_dec c' c') as [_|]; [|done]. apply IH; [done | simpl in Hl; lia].
Qed.
