(* ===== verification/PrefixAdmit.v ===== *)
(** * Prefix admission: holding a waiter for a partner's in-flight prefix

    Model of [overlay/patch_prefix_admit.py]: the block-aligned token LCP
    ([_glm53_aligned_prefix_tokens]) and the hold decision
    ([_glm53_hold_for_inflight_prefix]) with its per-request share cache. *)
From stdpp Require Import base list gmap strings numbers.
From Stdlib Require Import ZArith Lia.
From S2P Require Import Prelude.

(** ** Data *)

(** A prompt: a token list, or an object without [len()]. *)
Inductive tokens :=
  | Unsized
  | Toks (l : list Z).

(** The request attributes the hold reads.  [obj] is the object identity that
    [partner is request] compares; an absent attribute is [None].  [settable]
    says whether the class accepts new attributes. *)
Record request := Request {
  obj : nat;
  request_id : option string;
  prompt_token_ids : option tokens;
  num_computed_tokens : option pyval;
  _glm53_prefix_shares : option (gmap string Z);
  settable : bool
}.

Definition set_shares (r : request) (sh : gmap string Z) : request :=
  Request (obj r) (request_id r) (prompt_token_ids r) (num_computed_tokens r)
    (Some sh) (settable r).

(** ** Aligned common prefix *)

(** [l[i:j]]. *)
Definition slice (l : list Z) (i j : nat) : list Z := take (j - i) (drop i l).

(** [(matched // block) * block]. *)
Definition aligned (matched : nat) (block : Z) : Z := floor_to (Z.of_nat matched) block.

(** The element loop of a window whose slices differ. *)
Fixpoint scan_elements (fuel : nat) (mine theirs : list Z) (matched nxt : nat) (block : Z) : Z :=
  match fuel with
  | O => aligned matched block
  | S fuel' =>
      if (matched <? nxt)%nat then
        if bool_decide (mine !! matched = theirs !! matched)
        then scan_elements fuel' mine theirs (S matched) nxt block
        else aligned matched block
      else aligned matched block
  end.

(** The window loop: whole windows of 256 tokens while the slices agree. *)
Fixpoint scan_windows (fuel : nat) (mine theirs : list Z) (limit matched : nat) (block : Z) : Z :=
  match fuel with
  | O => aligned matched block
  | S fuel' =>
      if (matched <? limit)%nat then
        let nxt := if (limit <? matched + 256)%nat then limit else (matched + 256)%nat in
        if bool_decide (slice mine matched nxt = slice theirs matched nxt)
        then scan_windows fuel' mine theirs limit nxt block
        else scan_elements (nxt - matched) mine theirs matched nxt block
      else aligned matched block
  end.

Definition _glm53_aligned_prefix_tokens (mine theirs : tokens) (block : Z) : Z :=
  if (block <=? 0)%Z then 0%Z
  else match mine, theirs with
       | Toks m, Toks t =>
           let limit := Nat.min (length m) (length t) in
           scan_windows (S limit) m t limit 0 block
       | _, _ => 0%Z
       end.

(** ** The hold *)

(** [not tokens]: absent, [None] or empty. *)
Definition no_tokens (p : option tokens) : bool :=
  match p with None | Some (Toks []) => true | _ => false end.

#[global] Arguments no_tokens : simpl never.

(** [int(getattr(partner, "num_computed_tokens", 0) or 0)], 0 when it cannot be
    read, and never negative. *)
Definition partner_computed (p : request) : Z :=
  let c := match catch (py_int (py_or (getattr (num_computed_tokens p) (VInt 0)) (VInt 0)))
                   type_or_value 0%Z with Ok z => z | Raise _ => 0%Z end in
  if (c <? 0)%Z then 0%Z else c.

(** Loop state of the scan over [running]: the share cache, the best share so
    far, and whether a partner with that share has published it. *)
Record scan := Scan { sc_shares : gmap string Z; best : Z; best_ready : bool }.

(** The shared prefix with one partner, through the cache. *)
Definition lookup_share (sh : gmap string Z) (mine : tokens) (p : request)
    (theirs : tokens) (block : Z) : Z * gmap string Z :=
  match request_id p with
  | Some pid =>
      match sh !! pid with
      | Some v => (v, sh)
      | None => let v := _glm53_aligned_prefix_tokens mine theirs block in (v, <[pid := v]> sh)
      end
  | None => (_glm53_aligned_prefix_tokens mine theirs block, sh)
  end.

(** [partner is request], or the same non-[None] id. *)
Definition is_self (r p : request) : bool :=
  (obj p =? obj r)%nat
  || match request_id r with Some own => bool_decide (request_id p = Some own) | None => false end.

Definition partner_step (r : request) (mine : tokens) (block : Z) (s : scan) (p : request) : scan :=
  if is_self r p then s
  else match prompt_token_ids p with
  | None => s
  | Some theirs =>
      if no_tokens (Some theirs) then s else
      let '(shared, sh) := lookup_share (sc_shares s) mine p theirs block in
      if (shared <=? 0)%Z then Scan sh (best s) (best_ready s)
      else
        let ready := (shared <=? floor_to (partner_computed p) block)%Z in
        if (best s <? shared)%Z then Scan sh shared ready
        else if ((shared =? best s)%Z && ready)%bool then Scan sh (best s) true
        else Scan sh (best s) (best_ready s)
  end.

(** Tokens of shared prefix still unpublished, and the request with its cache. *)
Definition _glm53_hold_for_inflight_prefix (r : request) (running : list request)
    (block_size hash_block_size : pyval) : Z * request :=
  match py_int block_size, py_int hash_block_size with
  | Ok b, Ok h =>
      let block := Z.max b h in
      if (block <=? 0)%Z then (0%Z, r)
      else match prompt_token_ids r with
      | None => (0%Z, r)
      | Some mine =>
          if no_tokens (Some mine) then (0%Z, r) else
          let s := fold_left (partner_step r mine block) running
                     (Scan (default ∅ (_glm53_prefix_shares r)) 0 false) in
          let r' := if (match _glm53_prefix_shares r with Some _ => true | None => settable r end)
                    then set_shares r (sc_shares s) else r in
          if ((0 <? best s)%Z && negb (best_ready s))%bool then (best s, r') else (0%Z, r')
      end
  | _, _ => (0%Z, r)
  end.

(** ** Reference definitions *)

(** The longest common prefix, one token at a time. *)
Fixpoint lcp (m t : list Z) : nat :=
  match m, t with
  | x :: m', y :: t' => if (x =? y)%Z then S (lcp m' t') else O
  | _, _ => O
  end.

(** What a partner contributes: its aligned share of the prompt and whether it
    has published that much.  Partners that are the request itself, or have no
    prompt, contribute nothing. *)
Definition contribution (r : request) (mine : tokens) (block : Z) (p : request) : option (Z * bool) :=
  if is_self r p then None
  else match prompt_token_ids p with
  | None => None
  | Some theirs =>
      if no_tokens (Some theirs) then None
      else let shared := _glm53_aligned_prefix_tokens mine theirs block in
           if (shared <=? 0)%Z then None
           else Some (shared, (shared <=? floor_to (partner_computed p) block)%Z)
  end.

Definition contributions r mine block (running : list request) : list (Z * bool) :=
  omap (contribution r mine block) running.

(** The abstract decision: the longest share, unless a partner that has it has
    published it. *)
Definition hold_spec (cs : list (Z * bool)) : Z :=
  let longest := max_list 0 (fst <$> cs) in
  if ((0 <? longest)%Z && negb (existsb (fun c => ((fst c =? longest)%Z && snd c)%bool) cs))%bool
  then longest else 0%Z.

(** The cache holds, for each partner id, the share with that id's prompt. *)
Definition coherent (prompt_of : string -> tokens) (mine : tokens) (block : Z)
    (sh : gmap string Z) : Prop :=
  forall pid v, sh !! pid = Some v ->
    v = _glm53_aligned_prefix_tokens mine (prompt_of pid) block.

(** Prompts are immutable: every request with an id carries that id's prompt. *)
Definition prompts_fixed (prompt_of : string -> tokens) (running : list request) : Prop :=
  forall p pid theirs, p ∈ running -> request_id p = Some pid ->
    prompt_token_ids p = Some theirs -> theirs = prompt_of pid.

(** ** The scan computes the aligned LCP *)

Lemma lcp_le_l m t : (lcp m t <= length m)%nat.
Proof. revert t; induction m as [|x m IH]; intros [|y t]; simpl; try lia. case_if; [specialize (IH t)|]; lia. Qed.

Lemma lcp_le_r m t : (lcp m t <= length t)%nat.
Proof. revert t; induction m as [|x m IH]; intros [|y t]; simpl; try lia. case_if; [specialize (IH t)|]; lia. Qed.

Lemma lcp_app p m t : lcp (p ++ m) (p ++ t) = (length p + lcp m t)%nat.
Proof. induction p as [|x p IH]; simpl; [done |]. by rewrite Z.eqb_refl, IH. Qed.

Lemma lcp_take m t : take (lcp m t) m = take (lcp m t) t.
Proof.
  revert t; induction m as [|x m IH]; intros [|y t]; simpl; try done.
  case_if; [|done]. apply Z.eqb_eq in Heqb as ->. simpl. by rewrite (IH t).
Qed.

(** Two lists agree strictly below their LCP and differ at it, unless one ends. *)
Lemma lcp_mismatch m t k :
  take k m = take k t -> m !! k <> t !! k -> lcp m t = k.
Proof.
  revert m t; induction k as [|k IH]; intros [|x m] [|y t]; simpl; intros Ht Hd; try done.
  - case_if; [apply Z.eqb_eq in Heqb as ->|]; done.
  - injection Ht as -> Ht. rewrite Z.eqb_refl. f_equal. by apply IH.
Qed.

Lemma lcp_agree m t k :
  take k m = take k t -> (k <= length m)%nat -> (k <= length t)%nat -> (k <= lcp m t)%nat.
Proof.
  revert m t; induction k as [|k IH]; intros [|x m] [|y t]; simpl; intros Ht Hm Ht'; try lia.
  injection Ht as -> Ht. rewrite Z.eqb_refl.
  specialize (IH m t Ht). lia.
Qed.

Lemma take_slice (l : list Z) i j : (i <= j)%nat -> take j l = take i l ++ slice l i j.
Proof.
  intros Hij. unfold slice. rewrite <- (take_drop i (take j l)) at 1.
  rewrite take_take, (Nat.min_l i j) by lia. f_equal.
  by rewrite skipn_firstn_comm.
Qed.

Lemma take_succ_agree (m t : list Z) k :
  take k m = take k t -> m !! k = t !! k -> take (S k) m = take (S k) t.
Proof.
  intros Ht Hk. destruct (m !! k) as [x|] eqn:Em.
  - by rewrite (take_S_r m k x Em), (take_S_r t k x (eq_sym Hk)), Ht.
  - symmetry in Hk. apply lookup_ge_None in Em, Hk.
    rewrite (take_ge m (S k)), (take_ge t (S k)) by lia.
    by rewrite (take_ge m k), (take_ge t k) in Ht by lia.
Qed.

(** Inside a window whose ends differ, the element loop stops at the LCP. *)
Lemma scan_elements_spec fuel m t k nxt block :
  take k m = take k t -> take nxt m <> take nxt t -> (nxt - k <= fuel)%nat ->
  scan_elements fuel m t k nxt block = aligned (lcp m t) block.
Proof.
  revert k; induction fuel as [|fuel IH]; intros k Ht Hn Hf.
  - destruct Hn. replace nxt with (Nat.min nxt k) by lia.
    by rewrite <- !take_take, Ht.
  - simpl. case_if; bool_to_prop.
    + case_bool_decide as Hk.
      * apply IH; [by apply take_succ_agree | done | lia].
      * by rewrite (lcp_mismatch m t k).
    + destruct Hn. replace nxt with (Nat.min nxt k) by lia.
      by rewrite <- !take_take, Ht.
Qed.

Lemma scan_windows_spec fuel m t k block :
  take k m = take k t -> (k <= Nat.min (length m) (length t))%nat ->
  (Nat.min (length m) (length t) - k < fuel)%nat ->
  scan_windows fuel m t (Nat.min (length m) (length t)) k block = aligned (lcp m t) block.
Proof.
  revert k; induction fuel as [|fuel IH]; intros k Ht Hle Hf; [lia |].
  simpl. set (limit := Nat.min (length m) (length t)) in *.
  destruct (k <? limit)%nat eqn:Ek; bool_to_prop.
  - set (nxt := if (limit <? k + 256)%nat then limit else (k + 256)%nat).
    assert (k < nxt <= limit)%nat as [Hlo Hhi].
    { subst nxt. case_if; bool_to_prop; lia. }
    case_bool_decide as Hs.
    + apply IH; [|lia|lia]. by rewrite !(take_slice _ k nxt), Ht, Hs by lia.
    + apply scan_elements_spec; [done | | lia].
      rewrite !(take_slice _ k nxt), Ht by lia. by intros ?%app_inv_head.
  - f_equal. pose proof (lcp_agree m t k Ht). pose proof (lcp_le_l m t).
    pose proof (lcp_le_r m t). lia.
Qed.

Lemma aligned_prefix_lcp m t block :
  (0 < block)%Z ->
  _glm53_aligned_prefix_tokens (Toks m) (Toks t) block = floor_to (Z.of_nat (lcp m t)) block.
Proof.
  intros Hb. unfold _glm53_aligned_prefix_tokens. case_if; bool_to_prop; [lia |].
  apply (scan_windows_spec _ m t 0); [by rewrite !take_0 | lia | lia].
Qed.

Lemma aligned_prefix_bounds mine theirs block :
  (0 <= _glm53_aligned_prefix_tokens mine theirs block)%Z.
Proof.
  destruct (Z.ltb_spec 0 block) as [Hb|Hb].
  - destruct mine as [|m], theirs as [|t];
      [| | |rewrite aligned_prefix_lcp by done; apply floor_to_nonneg; lia];
      unfold _glm53_aligned_prefix_tokens; case_if; lia.
  - unfold _glm53_aligned_prefix_tokens. case_if; bool_to_prop; lia.
Qed.

(** ** The loop computes [hold_spec] *)

(** The scan over [running] seen as a fold over the partners' contributions. *)
Definition absorb (s : Z * bool) (c : Z * bool) : Z * bool :=
  if (fst s <? fst c)%Z then c
  else if ((fst c =? fst s)%Z && snd c)%bool then (fst s, true) else s.

Definition summary (s : scan) : Z * bool := (best s, best_ready s).

Lemma lookup_share_coherent prompt_of sh mine p theirs block :
  coherent prompt_of mine block sh ->
  (forall pid, request_id p = Some pid -> theirs = prompt_of pid) ->
  fst (lookup_share sh mine p theirs block) = _glm53_aligned_prefix_tokens mine theirs block /\
  coherent prompt_of mine block (snd (lookup_share sh mine p theirs block)).
Proof.
  intros Hc Hp. unfold lookup_share. destruct (request_id p) as [pid|]; [|done].
  rewrite (Hp pid) by done. destruct (sh !! pid) as [v|] eqn:E; simpl.
  - split; [by apply Hc | done].
  - split; [done |]. intros pid' v'. destruct (decide (pid' = pid)) as [->|Hne].
    + rewrite lookup_insert_eq. by intros [= <-].
    + rewrite lookup_insert_ne by done. apply Hc.
Qed.

Lemma partner_step_spec prompt_of r mine block s p :
  coherent prompt_of mine block (sc_shares s) ->
  (forall pid theirs, request_id p = Some pid -> prompt_token_ids p = Some theirs ->
     theirs = prompt_of pid) ->
  coherent prompt_of mine block (sc_shares (partner_step r mine block s p)) /\
  summary (partner_step r mine block s p) =
    match contribution r mine block p with Some c => absorb (summary s) c | None => summary s end.
Proof.
  intros Hc Hp. unfold partner_step, contribution.
  destruct (is_self r p); [done |].
  destruct (prompt_token_ids p) as [theirs|] eqn:Et; [|done].
  destruct (no_tokens (Some theirs)); [done |].
  destruct (lookup_share_coherent prompt_of (sc_shares s) mine p theirs block Hc) as [Hv Hc'];
    [by eauto |].
  destruct (lookup_share _ _ _ _ _) as [shared sh]; simpl in *; subst shared.
  unfold absorb, summary; simpl. repeat (case_if; simpl; try done).
Qed.

Lemma fold_partner_step prompt_of r mine block running s :
  coherent prompt_of mine block (sc_shares s) -> prompts_fixed prompt_of running ->
  let s' := fold_left (partner_step r mine block) running s in
  coherent prompt_of mine block (sc_shares s') /\
  summary s' = fold_left absorb (contributions r mine block running) (summary s).
Proof.
  revert s; induction running as [|p running IH]; intros s Hc Hf; [done |].
  destruct (partner_step_spec prompt_of r mine block s p Hc) as [Hc' Hs'].
  { intros pid theirs Hid Hpr. eapply Hf; [constructor | done | done]. }
  destruct (IH (partner_step r mine block s p) Hc') as [Hc'' Hs''].
  { intros q pid theirs Hq. apply Hf. by constructor. }
  simpl. split; [done |]. rewrite Hs'', Hs'.
  unfold contributions; simpl. by destruct (contribution r mine block p).
Qed.

(** What the fold holds: an upper bound that is attained, and the disjunction
    of the ready bits at it. *)
Definition absorbed (cs : list (Z * bool)) (s : Z * bool) : Prop :=
  (forall c, c ∈ cs -> (fst c <= fst s)%Z) /\
  (fst s = 0%Z \/ exists b, (fst s, b) ∈ cs) /\
  (snd s = true <-> (fst s, true) ∈ cs).

Lemma absorb_spec cs s c :
  (0 < fst c)%Z -> absorbed cs s -> (0 <= fst s)%Z -> absorbed (cs ++ [c]) (absorb s c).
Proof.
  destruct s as [s sb], c as [c cb]; intros Hpos (Hle & Hin & Hrd) Hs; unfold absorb; simpl in *.
  case_if; bool_to_prop; [|case_if; bool_to_prop]; repeat split; simpl.
  - intros d [Hd| ->%list_elem_of_singleton]%elem_of_app; [apply Hle in Hd; lia | simpl; lia].
  - right. exists cb. set_solver.
  - intros ->. set_solver.
  - intros [Hd|[= ->]%list_elem_of_singleton]%elem_of_app; [apply Hle in Hd; simpl in Hd; lia | done].
  - intros d [Hd| ->%list_elem_of_singleton]%elem_of_app; [by apply Hle | simpl; lia].
  - right. exists true. subst. set_solver.
  - intros _. subst. set_solver.
  - intros d [Hd| ->%list_elem_of_singleton]%elem_of_app; [by apply Hle | simpl; lia].
  - destruct Hin as [|[b Hb]]; [by left | right; exists b; set_solver].
  - intros Hsb. apply Hrd in Hsb. set_solver.
  - intros [Hd|[= -> <-]%list_elem_of_singleton]%elem_of_app; [by apply Hrd |].
    apply andb_false_iff in Heqb0 as [?|?]; bool_to_prop; done.
Qed.

Lemma fold_absorb cs s cs0 :
  (forall c, c ∈ cs -> (0 < fst c)%Z) -> (0 <= fst s)%Z -> absorbed cs0 s ->
  absorbed (cs0 ++ cs) (fold_left absorb cs s).
Proof.
  revert s cs0; induction cs as [|c cs IH]; intros s cs0 Hpos Hs Ha; simpl.
  { by rewrite app_nil_r. }
  replace (cs0 ++ c :: cs) with ((cs0 ++ [c]) ++ cs) by (by rewrite <- app_assoc).
  assert (0 < fst c)%Z by (apply Hpos; constructor).
  apply IH.
  - intros d Hd. apply Hpos. by constructor.
  - unfold absorb. repeat case_if; simpl; lia.
  - by apply absorb_spec.
Qed.

Lemma absorbed_longest cs s :
  (forall c, c ∈ cs -> (0 < fst c)%Z) -> absorbed cs s -> max_list 0 (fst <$> cs) = fst s.
Proof.
  intros Hpos (Hle & Hin & _). destruct cs as [|c cs'] eqn:Ecs.
  { destruct Hin as [->|[b Hb]]; [done | by apply not_elem_of_nil in Hb]. }
  assert (max_list 0 (fst <$> c :: cs') ∈ fst <$> c :: cs') as Hm by (by apply max_list_in).
  apply list_elem_of_fmap in Hm as (d & Ed & Hd). rewrite Ed.
  pose proof (Hle d Hd). destruct Hin as [E|[b Hb]]; [pose proof (Hpos d Hd); lia |].
  assert (fst s <= max_list 0 (fst <$> c :: cs'))%Z; [|lia].
  apply max_list_ge. apply list_elem_of_fmap. by exists (fst s, b).
Qed.

Lemma absorbed_hold_spec cs s :
  (forall c, c ∈ cs -> (0 < fst c)%Z) -> absorbed cs s ->
  (if ((0 <? fst s)%Z && negb (snd s))%bool then fst s else 0%Z) = hold_spec cs.
Proof.
  intros Hpos Ha. unfold hold_spec. rewrite (absorbed_longest cs s) by done.
  destruct Ha as (_ & _ & Hrd). replace (existsb _ cs) with (snd s); [done |].
  apply eq_true_iff_eq. rewrite Hrd, existsb_exists. split.
  - intros Hin. exists (fst s, true). rewrite <- list_elem_of_In. simpl.
    by rewrite Z.eqb_refl.
  - intros ([c cb] & Hin & Hc). rewrite <- list_elem_of_In in Hin.
    simpl in Hc. bool_to_prop. by subst.
Qed.

Lemma contributions_pos r mine block running c :
  c ∈ contributions r mine block running -> (0 < fst c)%Z.
Proof.
  unfold contributions. intros (p & _ & Hc)%list_elem_of_omap.
  unfold contribution in Hc. destruct (is_self r p); [done |].
  destruct (prompt_token_ids p); [|done]. case_if_in Hc; [done |].
  case_if_in Hc; [done |]. injection Hc as <-. simpl. bool_to_prop. lia.
Qed.

Lemma lcp_bounds_agree m t (n : nat) :
  (n <= lcp m t)%nat -> take n m = take n t.
Proof.
  intros Hn. replace n with (Nat.min n (lcp m t)) by lia.
  by rewrite <- !take_take, lcp_take.
Qed.

Section Hold.
Context (prompt_of : string -> tokens) (r : request) (running : list request).
Context (mine : tokens) (b h : Z).
Let block := Z.max b h.
Hypothesis block_pos : (0 < block)%Z.
Hypothesis r_prompt : prompt_token_ids r = Some mine.
Hypothesis r_nonempty : no_tokens (Some mine) = false.
Hypothesis r_coherent : coherent prompt_of mine block (default ∅ (_glm53_prefix_shares r)).
Hypothesis fixed : prompts_fixed prompt_of running.

Lemma hold_is_spec :
  let out := _glm53_hold_for_inflight_prefix r running (VInt b) (VInt h) in
  fst out = hold_spec (contributions r mine block running) /\
  coherent prompt_of mine block (default ∅ (_glm53_prefix_shares (snd out))).
Proof.
  simpl. unfold _glm53_hold_for_inflight_prefix; simpl. fold block.
  destruct (block <=? 0)%Z eqn:E; bool_to_prop; [lia |]. rewrite r_prompt, r_nonempty.
  set (s0 := Scan _ 0 false).
  destruct (fold_partner_step prompt_of r mine block running s0 r_coherent fixed) as [Hc Hs].
  set (s' := fold_left _ running s0) in *. split.
  - assert (absorbed (contributions r mine block running) (summary s')) as Ha.
    { rewrite Hs. apply (fold_absorb _ _ []); [apply contributions_pos | simpl; lia |].
      repeat split; simpl; [set_solver | by left | done | set_solver]. }
    rewrite <- (absorbed_hold_spec _ (summary s')); [|apply contributions_pos | done].
    simpl. by case_if.
  - destruct (_glm53_prefix_shares r) as [sh|] eqn:Esh; [|destruct (settable r)];
      case_if; simpl; try done; rewrite Esh; intros ? ? E0;
      simpl in E0; by apply lookup_empty_Some in E0.
Qed.
End Hold.

Lemma hold_spec_zero_iff cs :
  hold_spec cs = 0%Z <->
  (max_list 0 (fst <$> cs) <= 0)%Z \/ (max_list 0 (fst <$> cs), true) ∈ cs.
Proof.
  unfold hold_spec. set (L := max_list 0 (fst <$> cs)).
  assert (existsb (fun c => ((fst c =? L)%Z && snd c)%bool) cs = true <-> (L, true) ∈ cs) as Hex.
  { rewrite existsb_exists. split.
    - intros ([c cb] & Hin & Hc). rewrite <- list_elem_of_In in Hin. simpl in Hc.
      bool_to_prop. by subst.
    - intros Hin. exists (L, true). rewrite <- list_elem_of_In. simpl. by rewrite Z.eqb_refl. }
  destruct (existsb _ cs); simpl.
  - rewrite andb_false_r. split; [intros _; right; by apply Hex | done].
  - rewrite andb_true_r. case_if; bool_to_prop.
    + split; [lia | intros [?|Hin]; [lia | by apply Hex in Hin]].
    + split; [by left | done].
Qed.

(** ** Properties *)

(** C1. [_glm53_aligned_prefix_tokens] on two token lists is the greatest
    multiple of the block size over which the lists agree: it is a non-negative
    multiple of [block] within both lists, the two prefixes of that length are
    equal, and no larger multiple has equal prefixes.  In particular the
    256-token windows of the scan never change the answer. *)
Theorem aligned_prefix_tokens_greatest (m t : list Z) (block : Z) (Hb : (0 < block)%Z) :
  let n := _glm53_aligned_prefix_tokens (Toks m) (Toks t) block in
  (0 <= n <= Z.of_nat (Nat.min (length m) (length t)))%Z /\ (block | n)%Z /\
  take (Z.to_nat n) m = take (Z.to_nat n) t /\
  forall k : nat, (k <= Nat.min (length m) (length t))%nat -> (block | Z.of_nat k)%Z ->
    take k m = take k t -> (Z.of_nat k <= n)%Z.
Proof.
  simpl. rewrite aligned_prefix_lcp by done.
  pose proof (floor_to_le (Z.of_nat (lcp m t)) block Hb) as Hle.
  pose proof (floor_to_nonneg (Z.of_nat (lcp m t)) block Hb) as Hnn.
  pose proof (lcp_le_l m t). pose proof (lcp_le_r m t).
  split; [lia |]. split; [apply floor_to_divide |]. split; [apply lcp_bounds_agree; lia |].
  intros k Hk Hd Ht. apply floor_to_greatest; [done | done |].
  pose proof (lcp_agree m t k Ht). lia.
Qed.

Lemma aligned_prefix_tokens_greatest_witness :
  (0 < 4)%Z /\
  _glm53_aligned_prefix_tokens (Toks [1;2;3;4;5;6;7]%Z) (Toks [1;2;3;4;5;9;7;8]%Z) 4 = 4%Z /\
  (4 | _glm53_aligned_prefix_tokens (Toks [1;2;3;4;5;6;7]%Z) (Toks [1;2;3;4;5;9;7;8]%Z) 4)%Z.
Proof.
  split; [lia |]. split; [reflexivity |].
  apply (aligned_prefix_tokens_greatest [1;2;3;4;5;6;7]%Z [1;2;3;4;5;9;7;8]%Z 4). lia.
Defined.

(** C2. The loop of [_glm53_hold_for_inflight_prefix], with its per-request
    share cache, refines the abstract decision [hold_spec]: the waiter is held
    for the longest share any other running partner has with its prompt, unless
    some partner with exactly that share has already published it; and the
    cache it leaves on the request is again coherent, so the next step's
    decision is the abstract one too. *)
Theorem hold_for_inflight_prefix_refines prompt_of r running mine b h
    (Hb : (0 < Z.max b h)%Z)
    (Hr : prompt_token_ids r = Some mine) (Hne : no_tokens (Some mine) = false)
    (Hc : coherent prompt_of mine (Z.max b h) (default ∅ (_glm53_prefix_shares r)))
    (Hf : prompts_fixed prompt_of running) :
  let out := _glm53_hold_for_inflight_prefix r running (VInt b) (VInt h) in
  fst out = hold_spec (contributions r mine (Z.max b h) running) /\
  coherent prompt_of mine (Z.max b h) (default ∅ (_glm53_prefix_shares (snd out))).
Proof. by apply hold_is_spec. Qed.

(** Two running partners: one shares 8 tokens and has published 4, the other
    shares 4 and is done. *)
Definition demo_waiter : request :=
  Request 0 (Some "w"%string) (Some (Toks [1;2;3;4;5;6;7;8;9]%Z)) (Some (VInt 0)) None true.
Definition demo_running (c : Z) : list request :=
  [Request 1 (Some "a"%string) (Some (Toks [1;2;3;4;5;6;7;8]%Z)) (Some (VInt c)) None true;
   Request 2 (Some "b"%string) (Some (Toks [1;2;3;4;0]%Z)) (Some (VInt 5)) None true].
Definition demo_prompt_of (s : string) : tokens :=
  if String.eqb s "a" then Toks [1;2;3;4;5;6;7;8]%Z else Toks [1;2;3;4;0]%Z.

Lemma demo_prompts_fixed c : prompts_fixed demo_prompt_of (demo_running c).
Proof.
  intros p pid theirs [->|[->|[]%not_elem_of_nil]%elem_of_cons]%elem_of_cons;
    simpl; by intros [= <-] [= <-].
Qed.

Lemma hold_for_inflight_prefix_refines_witness :
  fst (_glm53_hold_for_inflight_prefix demo_waiter (demo_running 4) (VInt 4) (VInt 2)) = 8%Z /\
  fst (_glm53_hold_for_inflight_prefix demo_waiter (demo_running 4) (VInt 4) (VInt 2)) =
    hold_spec (contributions demo_waiter (Toks [1;2;3;4;5;6;7;8;9]%Z) 4 (demo_running 4)).
Proof.
  split; [vm_compute; reflexivity |].
  refine (proj1 (hold_for_inflight_prefix_refines demo_prompt_of demo_waiter (demo_running 4)
    (Toks [1;2;3;4;5;6;7;8;9]%Z) 4 2 _ eq_refl eq_refl _ (demo_prompts_fixed 4))); [lia |].
  intros pid v. simpl. by rewrite lookup_empty.
Defined.

(** C18. The hold ends: once some running partner with the longest share has
    computed at least that many tokens, the waiter is not held, whatever the
    other partners have published. *)
Theorem hold_released_by_publisher prompt_of r running mine b h p theirs
    (Hb : (0 < Z.max b h)%Z)
    (Hr : prompt_token_ids r = Some mine) (Hne : no_tokens (Some mine) = false)
    (Hc : coherent prompt_of mine (Z.max b h) (default ∅ (_glm53_prefix_shares r)))
    (Hf : prompts_fixed prompt_of running)
    (Hp : p ∈ running) (Hself : is_self r p = false)
    (Ht : prompt_token_ids p = Some theirs) (Htne : no_tokens (Some theirs) = false)
    (Hlongest : forall q s ready, q ∈ running ->
       contribution r mine (Z.max b h) q = Some (s, ready) ->
       (s <= _glm53_aligned_prefix_tokens mine theirs (Z.max b h))%Z)
    (Hdone : (_glm53_aligned_prefix_tokens mine theirs (Z.max b h) <= partner_computed p)%Z) :
  fst (_glm53_hold_for_inflight_prefix r running (VInt b) (VInt h)) = 0%Z.
Proof.
  destruct (hold_is_spec prompt_of r running mine b h Hb Hr Hne Hc Hf) as [-> _].
  apply hold_spec_zero_iff. set (block := Z.max b h) in *.
  set (cs := contributions r mine block running).
  set (share := _glm53_aligned_prefix_tokens mine theirs block) in *.
  destruct (Z.leb_spec share 0) as [Hs|Hs].
  - left. destruct cs as [|c cs'] eqn:Ecs; [done |].
    assert (max_list 0 (fst <$> cs) ∈ fst <$> cs) as Hm by (apply max_list_in; by rewrite Ecs).
    rewrite <- Ecs. apply list_elem_of_fmap in Hm as ([s rd] & -> & Hin).
    apply list_elem_of_omap in Hin as (q & Hq & Hcq). simpl.
    specialize (Hlongest q s rd Hq Hcq). lia.
  - right. assert ((share, true) ∈ cs) as Hin.
    { apply list_elem_of_omap. exists p. split; [done |]. unfold contribution.
      rewrite Hself, Ht, Htne. fold share. case_if; bool_to_prop; [lia |].
      do 2 f_equal. apply Z.leb_le. apply floor_to_greatest; [done | | done].
      subst share. destruct mine as [|m], theirs as [|t]; simpl;
        unfold _glm53_aligned_prefix_tokens in *; try (case_if; [lia|]; apply Z.divide_0_r).
      fold (_glm53_aligned_prefix_tokens (Toks m) (Toks t) block).
      rewrite aligned_prefix_lcp by done. apply floor_to_divide. }
    enough (max_list 0 (fst <$> cs) = share) as -> by done.
    apply Z.le_antisymm.
    + assert (max_list 0 (fst <$> cs) ∈ fst <$> cs) as Hm.
      { apply max_list_in. by destruct cs; [apply not_elem_of_nil in Hin |]. }
      apply list_elem_of_fmap in Hm as ([s rd] & -> & Hq).
      apply list_elem_of_omap in Hq as (q & Hq & Hcq). eapply Hlongest; done.
    + apply max_list_ge, list_elem_of_fmap. by exists (share, true).
Qed.

Lemma hold_released_by_publisher_witness :
  fst (_glm53_hold_for_inflight_prefix demo_waiter (demo_running 8) (VInt 4) (VInt 2)) = 0%Z.
Proof.
  refine (hold_released_by_publisher demo_prompt_of demo_waiter (demo_running 8)
    (Toks [1;2;3;4;5;6;7;8;9]%Z) 4 2
    (Request 1 (Some "a"%string) (Some (Toks [1;2;3;4;5;6;7;8]%Z)) (Some (VInt 8)) None true)
    (Toks [1;2;3;4;5;6;7;8]%Z) _ eq_refl eq_refl _ (demo_prompts_fixed 8) _ eq_refl eq_refl eq_refl
    _ _).
  - lia.
  - intros pid v. simpl. by rewrite lookup_empty.
  - by left.
  - intros q s ready [->|[->|[]%not_elem_of_nil]%elem_of_cons]%elem_of_cons;
      vm_compute; intros [= <- <-]; discriminate.
  - vm_compute. discriminate.
Defined.
