(* ===== verification/CacheEvict.v ===== *)
(** * Prefix-cache victim selection

    Model of [overlay/cache_tail_evict.py] (victim ranking and selection) and
    of the two edits [overlay/patch_cache_hot_protect.py] installs in vLLM: a
    prefix hit marks its blocks, dropping a hash clears the mark. *)
From stdpp Require Import sorting.
From stdpp Require Import base list gmap strings numbers.
From Stdlib Require Import ZArith Lia.
From S2P Require Import Prelude.

(** ** Data *)

(** A KV-cache block.  [block_hash] is [None] for a block that caches nothing. *)
Record block := Block {
  block_id : Z;
  block_hash : option Z;
  block_hash_num_tokens : option Z
}.

#[export] Instance block_eq_dec : EqDecision block.
Proof. solve_decision. Defined.

(** [hot_protect_enabled()]. *)
Definition hot_protect_enabled (env : environ) : bool :=
  String.eqb (strip (environ_get env "GLM53_CACHE_HOT_PROTECT" "0")) "1".

(** The module global [_REUSED] and its two writers. *)
Definition mark_reused (reused : gset Z) (id : Z) : gset Z := {[id]} ∪ reused.
Definition clear_reused (reused : gset Z) (id : Z) : gset Z := reused ∖ {[id]}.

(** ** Ranking *)

(** The sort key: hashed bit, reused bit, negated depth, queue index. *)
Definition key : Type := Z * Z * Z * Z.

Definition rank_key (hashed : bool) (num_tokens : option Z) (index : Z) (reused : bool) : key :=
  (Z.b2z hashed, Z.b2z reused, (- default 0 num_tokens)%Z, index).

(** Python compares tuples lexicographically. *)
Definition key_le (a b : key) : Prop :=
  let '(a1, a2, a3, a4) := a in
  let '(b1, b2, b3, b4) := b in
  (a1 < b1 \/ a1 = b1 /\ (a2 < b2 \/ a2 = b2 /\ (a3 < b3 \/ a3 = b3 /\ a4 <= b4)))%Z.

#[export] Instance key_le_dec : RelDecision key_le.
Proof. intros [[[a1 a2] a3] a4] [[[b1 b2] b3] b4]; simpl; apply _. Defined.

#[export] Instance key_le_trans : Transitive key_le.
Proof. intros [[[a1 a2] a3] a4] [[[b1 b2] b3] b4] [[[c1 c2] c3] c4]; simpl; lia. Qed.

#[export] Instance key_le_total : Total key_le.
Proof. intros [[[a1 a2] a3] a4] [[[b1 b2] b3] b4]; simpl; lia. Qed.

Definition by_key (a b : key * block) : Prop := key_le (fst a) (fst b).
#[export] Instance by_key_dec : RelDecision by_key.
Proof. intros a b; unfold by_key; apply _. Defined.
#[export] Instance by_key_trans : Transitive by_key.
Proof. intros a b c; unfold by_key; apply key_le_trans. Qed.
#[export] Instance by_key_total : Total by_key.
Proof. intros a b; unfold by_key; apply key_le_total. Qed.

(** The reused bit of a block: only with the knob on, and only for a hash that
    is still there. *)
Definition is_reused (protect : bool) (reused : gset Z) (b : block) : bool :=
  protect && bool_decide (is_Some (block_hash b)) && bool_decide (block_id b ∈ reused).

Definition ranked_entry (protect : bool) (reused : gset Z) (index : Z) (b : block) : key * block :=
  (rank_key (bool_decide (is_Some (block_hash b))) (block_hash_num_tokens b) index
     (is_reused protect reused b), b).

(** The walk from the head to the tail sentinel, with a running index. *)
Fixpoint rank_queue (protect : bool) (reused : gset Z) (index : Z) (l : list block)
    : list (key * block) :=
  match l with
  | [] => []
  | b :: l' => ranked_entry protect reused index b :: rank_queue protect reused (index + 1) l'
  end.

(** ** The free queue

    vLLM's [FreeKVCacheBlockQueue]: [walk] lists the blocks between the two
    sentinels, [remove] unlinks one of them. *)
Class FreeQueue (Q : Type) := {
  walk : Q -> list block;
  remove : block -> Q -> Q
}.

(** What the code relies on: unlinking a block leaves the others in order. *)
Class FreeQueueLaws (Q : Type) `{FreeQueue Q} :=
  walk_remove : forall q b, NoDup (block_id <$> walk q) -> b ∈ walk q ->
    walk (remove b q) = base.filter (fun c => block_id c <> block_id b) (walk q).

Section Select.
Context {Q : Type} `{FreeQueue Q}.

Fixpoint remove_all (bs : list block) (q : Q) : Q :=
  match bs with
  | [] => q
  | b :: bs' => remove_all bs' (remove b q)
  end.

(** [select_blocks(queue, num_blocks)]: the victims, and the queue without
    them. *)
Definition select_blocks (env : environ) (reused : gset Z) (q : Q) (num_blocks : nat)
    : list block * Q :=
  let protect := hot_protect_enabled env in
  if (num_blocks =? 0)%nat then ([], q)
  else
    let ranked := merge_sort by_key (rank_queue protect reused 0 (walk q)) in
    let chosen := snd <$> take num_blocks ranked in
    (chosen, remove_all chosen q).
End Select.

(** A list of blocks is a free queue. *)
#[export] Instance list_queue : FreeQueue (list block) := {|
  walk q := q;
  remove b q := base.filter (fun c => block_id c <> block_id b) q
|}.
#[export] Instance list_queue_laws : FreeQueueLaws (list block).
Proof. done. Qed.

(** ** The hot-protect edits *)

(** What the edits touch: the blocks of the pool by id, and [_REUSED]. *)
Record pool := Pool { blocks : gmap Z block; reused_set : gset Z }.

(** The edit after [block_pool.touch(new_computed_blocks)]: every hit block that
    still has its hash is marked. *)
Definition note_hit (p : pool) (ids : list Z) : pool :=
  Pool (blocks p)
    (fold_left (fun r id => match blocks p !! id with
                            | Some b => match block_hash b with
                                        | Some _ => mark_reused r (block_id b)
                                        | None => r
                                        end
                            | None => r
                            end) ids (reused_set p)).

(** [KVCacheBlock.reset_hash] with the edit. *)
Definition reset_hash (p : pool) (id : Z) : pool :=
  match blocks p !! id with
  | None => p
  | Some b => Pool (<[id := Block (block_id b) None None]> (blocks p))
                   (clear_reused (reused_set p) (block_id b))
  end.

(** vLLM publishing a full block: the hash and its depth appear. *)
Definition set_hash (p : pool) (id hash n : Z) : pool :=
  match blocks p !! id with
  | None => p
  | Some b => Pool (<[id := Block (block_id b) (Some hash) (Some n)]> (blocks p)) (reused_set p)
  end.

Inductive pool_op :=
  | OpHit (ids : list Z)
  | OpReset (id : Z)
  | OpSetHash (id hash n : Z).

Definition run_op (p : pool) (o : pool_op) : pool :=
  match o with
  | OpHit ids => note_hit p ids
  | OpReset id => reset_hash p id
  | OpSetHash id h n => set_hash p id h n
  end.

(** Block ids are stable, and a mark is only ever on a block with a hash. *)
Definition pool_wf (p : pool) : Prop :=
  (forall id b, blocks p !! id = Some b -> block_id b = id) /\
  (forall id, id ∈ reused_set p -> exists b, blocks p !! id = Some b /\ is_Some (block_hash b)).

(** ** Lemmas *)

Lemma rank_queue_snd protect reused i l : snd <$> rank_queue protect reused i l = l.
Proof. revert i; induction l as [|b l IH]; intros i; simpl; [done |]. by rewrite IH. Qed.

Lemma rank_queue_lookup protect reused i l e :
  e ∈ rank_queue protect reused i l ->
  exists k b, l !! k = Some b /\ e = ranked_entry protect reused (i + Z.of_nat k) b.
Proof.
  revert i; induction l as [|b l IH]; intros i; simpl; [by intros ?%not_elem_of_nil |].
  intros [->|He]%elem_of_cons.
  - exists 0%nat, b. by rewrite Z.add_0_r.
  - destruct (IH _ He) as (k & c & Hk & ->). exists (S k), c. split; [done |].
    f_equal. lia.
Qed.

Lemma ranked_permutation protect reused l :
  snd <$> merge_sort by_key (rank_queue protect reused 0 l) ≡ₚ l.
Proof. rewrite merge_sort_Permutation. by rewrite rank_queue_snd. Qed.

Lemma ids_inj (l : list block) b c :
  NoDup (block_id <$> l) -> b ∈ l -> c ∈ l -> block_id b = block_id c -> b = c.
Proof.
  intros Hnd (i & Hi)%list_elem_of_lookup (j & Hj)%list_elem_of_lookup Hid.
  assert (i = j) as ->.
  { eapply (NoDup_lookup (block_id <$> l)); [done | |].
    - by rewrite list_lookup_fmap, Hi.
    - by rewrite list_lookup_fmap, Hj; simpl; rewrite Hid. }
  congruence.
Qed.

Section SelectLemmas.
Context {Q : Type} `{FreeQueueLaws Q}.

Lemma walk_remove_all bs q :
  NoDup (block_id <$> walk q) -> NoDup (block_id <$> bs) ->
  (forall b, b ∈ bs -> b ∈ walk q) ->
  walk (remove_all bs q) = base.filter (fun c => block_id c ∉ block_id <$> bs) (walk q).
Proof.
  revert q; induction bs as [|b bs IH]; intros q Hq Hbs Hin; simpl.
  - symmetry. apply list_filter_all. intros c _. apply not_elem_of_nil.
  - simpl in Hbs. apply list.NoDup_cons in Hbs as [Hb Hbs].
    assert (b ∈ walk q) as Hbq by (apply Hin; constructor).
    rewrite IH; rewrite ?walk_remove by done; [| |done|].
    + rewrite list_filter_filter. apply list_filter_iff. intros c. simpl. set_solver.
    + by apply NoDup_fmap_filter.
    + intros c Hc. apply list_elem_of_filter. split; [|apply Hin; by constructor].
      intros Hid. apply Hb. apply list_elem_of_fmap. by exists c.
Qed.

(** The victims and the survivors, as one sorted list. *)
Lemma select_blocks_split env reused q n :
  (0 < n)%nat -> NoDup (block_id <$> walk q) ->
  let ranked := merge_sort by_key (rank_queue (hot_protect_enabled env) reused 0 (walk q)) in
  let '(chosen, q') := select_blocks env reused q n in
  chosen = snd <$> take n ranked /\
  walk q' = base.filter (fun c => block_id c ∉ block_id <$> chosen) (walk q) /\
  walk q' ≡ₚ snd <$> drop n ranked.
Proof.
  intros Hn Hq ranked. unfold select_blocks. fold ranked. case_if; bool_to_prop; [lia |].
  set (chosen := snd <$> take n ranked).
  assert (walk q ≡ₚ chosen ++ (snd <$> drop n ranked)) as Hperm.
  { subst chosen. rewrite <- fmap_app, take_drop. symmetry. apply ranked_permutation. }
  assert (NoDup (block_id <$> chosen ++ (snd <$> drop n ranked))) as Hnd by (by rewrite <- Hperm).
  rewrite fmap_app in Hnd. apply list.NoDup_app in Hnd as (Hc & Hdisj & _).
  rewrite walk_remove_all; [|done|done|].
  - split; [done | split; [done |]]. rewrite Hperm, list.filter_app.
    rewrite (list_filter_none _ chosen), (list_filter_all _ (snd <$> drop n ranked)); [done | |].
    + intros c Hin Hc'. eapply Hdisj; [exact Hc' |]. apply list_elem_of_fmap. by exists c.
    + intros c Hin Hc'. apply Hc'. apply list_elem_of_fmap. by exists c.
  - intros b Hb. rewrite Hperm. set_solver.
Qed.
End SelectLemmas.

(** The eviction order between a victim at position [i] and a survivor at
    position [j], spelled out of the sort keys. *)
Definition spared_over (protect : bool) (reused : gset Z) (i j : nat) (v s : block) : Prop :=
  (is_Some (block_hash v) -> is_Some (block_hash s)) /\
  ((is_Some (block_hash s) -> is_Some (block_hash v)) ->
     (is_reused protect reused v = true -> is_reused protect reused s = true) /\
     (is_reused protect reused s = is_reused protect reused v ->
        (default 0 (block_hash_num_tokens s) <= default 0 (block_hash_num_tokens v))%Z /\
        ((default 0 (block_hash_num_tokens s) = default 0 (block_hash_num_tokens v))%Z ->
           (i < j)%nat))).

Lemma by_key_spared protect reused i j v s :
  i <> j -> by_key (ranked_entry protect reused (0 + Z.of_nat i) v)
         (ranked_entry protect reused (0 + Z.of_nat j) s) ->
  spared_over protect reused i j v s.
Proof.
  intros Hij. unfold by_key, ranked_entry, rank_key, spared_over; simpl.
  assert (forall b, is_reused protect reused b = true -> is_Some (block_hash b)) as Hr.
  { intros b Hb. unfold is_reused in Hb. by bool_to_prop. }
  repeat case_bool_decide; destruct (is_reused protect reused v) eqn:Ev,
    (is_reused protect reused s) eqn:Es; simpl; intros Hk; repeat split; intros;
    try done; try lia; naive_solver lia.
Qed.

Lemma in_ranked env reused (l : list block) b ranked :
  ranked = merge_sort by_key (rank_queue (hot_protect_enabled env) reused 0 l) ->
  forall e, e ∈ ranked -> snd e = b ->
  exists i, l !! i = Some b /\
    e = ranked_entry (hot_protect_enabled env) reused (0 + Z.of_nat i) b.
Proof.
  intros -> e He <-. rewrite merge_sort_Permutation in He.
  apply rank_queue_lookup in He as (i & c & Hi & ->). by exists i.
Qed.

Lemma select_blocks_length {Q} `{FreeQueueLaws Q} env reused (q : Q) n :
  length (fst (select_blocks env reused q n)) = Nat.min n (length (walk q)).
Proof.
  unfold select_blocks. case_if; bool_to_prop; [by subst |]. simpl.
  rewrite length_fmap, length_take. f_equal.
  rewrite <- (length_fmap snd). by rewrite ranked_permutation.
Qed.

Lemma select_blocks_order {Q} `{FreeQueueLaws Q} env reused (q : Q) n v s :
  NoDup (block_id <$> walk q) ->
  v ∈ fst (select_blocks env reused q n) -> s ∈ walk (snd (select_blocks env reused q n)) ->
  exists i j, walk q !! i = Some v /\ walk q !! j = Some s /\
    spared_over (hot_protect_enabled env) reused i j v s.
Proof.
  intros Hq Hv Hs. destruct n as [|n]; [by apply not_elem_of_nil in Hv |].
  pose proof (select_blocks_split env reused q (S n) ltac:(lia) Hq) as Hsp.
  set (ranked := merge_sort by_key _) in Hsp. destruct (select_blocks _ _ _ _) as [chosen q'].
  destruct Hsp as (-> & Hw & Hperm). simpl in Hv, Hs.
  assert (v <> s) as Hvs.
  { intros ->. rewrite Hw in Hs. apply list_elem_of_filter in Hs as [Hs _].
    apply Hs, list_elem_of_fmap. by exists s. }
  rewrite Hperm in Hs.
  apply list_elem_of_fmap in Hv as (ev & -> & Hev), Hs as (es & -> & Hes).
  assert (by_key ev es) as Hk.
  { eapply (StronglySorted_app_1_elem_of by_key (take (S n) ranked) (drop (S n) ranked));
      [|done|done]. rewrite take_drop. apply StronglySorted_merge_sort; apply _. }
  destruct (in_ranked env reused (walk q) (snd ev) ranked eq_refl ev) as (i & Hi & Eev);
    [by eapply subseteq_take | done |].
  destruct (in_ranked env reused (walk q) (snd es) ranked eq_refl es) as (j & Hj & Ees);
    [by eapply subseteq_drop | done |].
  exists i, j. split; [done | split; [done |]].
  rewrite Eev, Ees in Hk. apply by_key_spared; [|done]. intros ->. congruence.
Qed.

(** ** Invariant of the hot-protect bookkeeping *)

Lemma note_hit_reused p ids id :
  pool_wf p -> id ∈ reused_set (note_hit p ids) ->
  exists b, blocks p !! id = Some b /\ is_Some (block_hash b).
Proof.
  intros [Hid Hr]. unfold note_hit; simpl. revert Hr.
  generalize (reused_set p) as r. induction ids as [|i ids IH]; intros r Hr; [apply Hr |].
  simpl. apply IH. intros x Hx. destruct (blocks p !! i) as [b|] eqn:Eb; [|by apply Hr].
  destruct (block_hash b) as [h|] eqn:Eh; [|by apply Hr].
  unfold mark_reused in Hx.
  apply elem_of_union in Hx as [->%elem_of_singleton|Hx]; [|by apply Hr].
  rewrite (Hid i b Eb). exists b. by rewrite Eh.
Qed.

Lemma run_op_wf p o : pool_wf p -> pool_wf (run_op p o).
Proof.
  intros Hwf. pose proof Hwf as [Hid Hr]. destruct o as [ids|id|id h n]; simpl.
  - split; [done |]. intros x Hx. exact (note_hit_reused p ids x Hwf Hx).
  - unfold reset_hash. destruct (blocks p !! id) as [b|] eqn:Eb; [|done].
    split; intros x; simpl.
    + intros c. destruct (decide (x = id)) as [->|Hne].
      * rewrite lookup_insert_eq. intros [= <-]. simpl. by apply Hid.
      * rewrite lookup_insert_ne by done. apply Hid.
    + unfold clear_reused. intros [Hx Hne]%elem_of_difference. rewrite (Hid id b Eb) in Hne.
      rewrite lookup_insert_ne by set_solver. by apply Hr.
  - unfold set_hash. destruct (blocks p !! id) as [b|] eqn:Eb; [|done].
    split; intros x; simpl; destruct (decide (x = id)) as [->|Hne];
      rewrite ?lookup_insert_eq, ?lookup_insert_ne by done.
    + intros c [= <-]. simpl. by apply Hid.
    + apply Hid.
    + intros _. eexists. split; [done |]. by eexists.
    + apply Hr.
Qed.

(** ** Properties *)

(** C6. [select_blocks] takes exactly [min(num_blocks, free)] victims, the queue
    keeps every other block in order, and each victim ranks before each
    survivor: an unhashed block before a hashed one; among blocks of the same
    kind a never-hit block before a reused one; in the same band the deeper
    block first; at equal depth the one nearer the head of the queue. *)
Theorem select_blocks_takes_lowest {Q} `{FreeQueueLaws Q} env reused (q : Q) (n : nat)
    (Hq : NoDup (block_id <$> walk q)) :
  let chosen := fst (select_blocks env reused q n) in
  let q' := snd (select_blocks env reused q n) in
  length chosen = Nat.min n (length (walk q)) /\
  walk q' = base.filter (fun c => block_id c ∉ block_id <$> chosen) (walk q) /\
  chosen ++ walk q' ≡ₚ walk q /\
  forall v s, v ∈ chosen -> s ∈ walk q' ->
    exists i j, walk q !! i = Some v /\ walk q !! j = Some s /\
      spared_over (hot_protect_enabled env) reused i j v s.
Proof.
  simpl. split; [apply select_blocks_length |]. destruct n as [|n].
  - simpl. rewrite list_filter_all by (intros ? _; apply not_elem_of_nil).
    repeat split; try done. by intros v s ?%not_elem_of_nil.
  - pose proof (select_blocks_split env reused q (S n) ltac:(lia) Hq) as Hsp.
    pose proof (fun v s => select_blocks_order env reused q (S n) v s Hq) as Hord.
    destruct (select_blocks _ _ _ _) as [chosen q']; simpl in *.
    destruct Hsp as (-> & Hw & Hperm). split; [done |]. split; [|done].
    rewrite Hperm, <- fmap_app, take_drop. apply ranked_permutation.
Qed.

Definition demo_queue : list block :=
  [Block 1 (Some 10) (Some 3584); Block 2 (Some 11) (Some 7168); Block 3 None None;
   Block 4 (Some 12) (Some 7168); Block 5 (Some 13) (Some 10752)]%Z.
Definition demo_env : environ := {[ "GLM53_CACHE_HOT_PROTECT"%string := "1"%string ]}.

Lemma demo_queue_nodup : NoDup (block_id <$> demo_queue).
Proof. apply (bool_decide_eq_true_1 _). vm_compute. reflexivity. Qed.

Lemma select_blocks_takes_lowest_witness :
  block_id <$> fst (select_blocks demo_env {[5]}%Z demo_queue 3) = [3; 2; 4]%Z /\
  length (fst (select_blocks demo_env {[5]}%Z demo_queue 3)) =
    Nat.min 3 (length (walk demo_queue)).
Proof.
  split; [vm_compute; reflexivity |].
  exact (proj1 (select_blocks_takes_lowest demo_env {[5]}%Z demo_queue 3 demo_queue_nodup)).
Defined.

(** Eviction shortens a cached prefix from its tail: when a hashed page is
    evicted, every page of the queue that is hashed, has the same reuse history
    and lies deeper is evicted with it.  So a first page never goes while a
    deeper page of its prefix stays. *)
Theorem select_blocks_no_hole {Q} `{FreeQueueLaws Q} env reused (q : Q) (n : nat) v d
    (Hq : NoDup (block_id <$> walk q))
    (Hv : v ∈ fst (select_blocks env reused q n)) (Hd : d ∈ walk q)
    (Hvh : is_Some (block_hash v)) (Hdh : is_Some (block_hash d))
    (Hband : is_reused (hot_protect_enabled env) reused d =
             is_reused (hot_protect_enabled env) reused v)
    (Hdeep : (default 0 (block_hash_num_tokens v) < default 0 (block_hash_num_tokens d))%Z) :
  d ∈ fst (select_blocks env reused q n).
Proof.
  destruct (decide (d ∈ fst (select_blocks env reused q n))) as [|Hn]; [done |]. exfalso.
  assert (d ∈ walk (snd (select_blocks env reused q n))) as Hs.
  { destruct n as [|n]; [done |].
    pose proof (select_blocks_split env reused q (S n) ltac:(lia) Hq) as Hsp.
    assert (forall c, c ∈ fst (select_blocks env reused q (S n)) -> c ∈ walk q) as Hsub.
    { intros c Hc. destruct (select_blocks _ _ _ _) as [chosen q']; simpl in *.
      destruct Hsp as (-> & _ & _). apply list_elem_of_fmap in Hc as (e & -> & He).
      destruct (in_ranked env reused (walk q) (snd e) _ eq_refl e) as (i & Hi & _);
        [by eapply subseteq_take | done |]. by eapply list_elem_of_lookup_2. }
    destruct (select_blocks _ _ _ _) as [chosen q']; simpl in *.
    destruct Hsp as (_ & -> & _). apply list_elem_of_filter. split; [|done].
    intros (c & Hc & Hin)%list_elem_of_fmap.
    rewrite (ids_inj (walk q) d c) in Hn by eauto. done. }
  destruct (select_blocks_order env reused q n v d Hq Hv Hs) as (i & j & _ & _ & _ & Hsame).
  destruct Hsame as [_ Htok]; [done |]. destruct (Htok Hband) as [Hle _]. lia.
Qed.

Lemma select_blocks_no_hole_witness :
  (Block 5 (Some 13) (Some 10752))%Z ∈ fst (select_blocks demo_env ∅ demo_queue 3).
Proof.
  refine (select_blocks_no_hole demo_env ∅ demo_queue 3 (Block 2 (Some 11) (Some 7168))%Z
    (Block 5 (Some 13) (Some 10752))%Z demo_queue_nodup _ _ _ _ _ _).
  - apply (bool_decide_eq_true_1 _). vm_compute. reflexivity.
  - apply (bool_decide_eq_true_1 _). vm_compute. reflexivity.
  - by eexists.
  - by eexists.
  - vm_compute. reflexivity.
  - vm_compute. reflexivity.
Defined.

(** The hot-protect edits keep [_REUSED] sound over every sequence of hits,
    hash resets and hash publications: a marked id is always a block that still
    has a hash, so a block about to hold new tokens is never protected. *)
Theorem hot_protect_marks_sound (ops : list pool_op) (p : pool) (Hwf : pool_wf p) :
  pool_wf (fold_left run_op ops p).
Proof. revert p Hwf; induction ops as [|o ops IH]; intros p Hwf; [done |]. by apply IH, run_op_wf. Qed.

Definition demo_pool : pool := Pool {[ 1%Z := Block 1 (Some 10) (Some 64) ]}%Z ∅.

Lemma hot_protect_marks_sound_witness :
  pool_wf (fold_left run_op [OpHit [1]; OpReset 1; OpSetHash 1 7 64]%Z demo_pool) /\
  reused_set (fold_left run_op [OpHit [1]; OpReset 1; OpSetHash 1 7 64]%Z demo_pool) = ∅.
Proof.
  split; [|vm_compute; reflexivity]. apply (hot_protect_marks_sound _ demo_pool).
  split; simpl.
  - intros id b. destruct (decide (id = 1%Z)) as [->|Hne].
    + rewrite lookup_singleton_eq. by intros [= <-].
    + by rewrite lookup_singleton_ne.
  - intros id. set_solver.
Defined.
