(* ===== verification/ResidentTail.v ===== *)
(** * Resident tails: a short cached remainder keeps the step's token budget

    Model of the helpers of [overlay/patch_resident_tail.py] and of the two
    chunk-size edits it makes in vLLM's scheduler.  The in-flight prefix hold
    it consults is the one of [PrefixAdmit]; vLLM's prefix-cache lookup is a
    parameter. *)
From stdpp Require Import base list gmap strings numbers.
From Stdlib Require Import ZArith Lia.
From S2P Require Import Prelude PrefixAdmit.

(** ** Data *)

(** The request attributes the overlay reads and writes, on top of those the
    prefix hold reads.  The stamp and the deferral counter are the overlay's
    own attributes; [settable] (of the inherited part) says whether the class
    accepts them. *)
Record treq := TReq {
  prefix_part : PrefixAdmit.request;
  num_prompt_tokens : option pyval;
  num_tokens : option pyval;
  block_hashes : option (list Z);
  _glm53_resident_tail : option pyval;
  _glm53_resident_tail_defers : option pyval
}.

Definition t_computed (r : treq) : option pyval := num_computed_tokens (prefix_part r).
Definition t_settable (r : treq) : bool := settable (prefix_part r).

Definition set_stamp (r : treq) (v : Z) : treq :=
  TReq (prefix_part r) (num_prompt_tokens r) (num_tokens r) (block_hashes r)
    (Some (VInt v)) (_glm53_resident_tail_defers r).
Definition set_defers (r : treq) (v : Z) : treq :=
  TReq (prefix_part r) (num_prompt_tokens r) (num_tokens r) (block_hashes r)
    (_glm53_resident_tail r) (Some (VInt v)).

(** A scheduler queue attribute: absent, not iterable, or a list of waiters. *)
Inductive wqueue :=
  | QAbsent
  | QNotIterable
  | QList (l : list treq).

Record scheduler := Scheduler {
  s_running : option (list treq);
  max_num_running_reqs : option pyval;
  s_block_size : option pyval;
  s_hash_block_size : option pyval;
  has_manager : bool;
  waiting : wqueue;
  skipped_waiting : wqueue
}.

(** ** Knobs *)

(** [_glm53_resident_tail_limit]: an inclusive bound; a missing or unusable
    value falls back to the default. *)
Definition _glm53_resident_tail_limit (env : environ) (name : string) (dflt lo hi : Z) : Z :=
  match (match env !! name with None => Some dflt | Some raw => parse_int raw end) with
  | None => dflt
  | Some value => if ((value <? lo) || (hi <? value))%Z then dflt else value
  end.

Definition _glm53_resident_tail_page (env : environ) : Z :=
  _glm53_resident_tail_limit env "GLM53_RESIDENT_TAIL_PAGE" 3584 64 65536.
Definition _glm53_resident_tail_tokens (env : environ) : Z :=
  _glm53_resident_tail_limit env "GLM53_RESIDENT_TAIL_TOKENS" 3584 1 65536.
Definition _glm53_resident_tail_steps (env : environ) : Z :=
  _glm53_resident_tail_limit env "GLM53_RESIDENT_TAIL_STEPS" 4 1 32.

(** ** Predicates *)

(** [_glm53_is_resident_tail]: a full cached page and a short remainder. *)
Definition _glm53_is_resident_tail (computed prompt page tail : pyval) : bool :=
  match py_int computed, py_int prompt, py_int page, py_int tail with
  | Ok c, Ok p, Ok pg, Ok tl =>
      if ((pg <=? 0) || (tl <=? 0))%Z then false
      else let remaining := (p - c)%Z in
           ((pg <=? c)%Z && ((0 <? remaining)%Z && (remaining <=? tl)%Z))
  | _, _, _, _ => false
  end.

(** [_glm53_should_defer_cold]. *)
Definition _glm53_should_defer_cold (prefill_left : pyval) (is_tail tail_waiting tail_running : bool)
    (num_running max_running defer_count step_cap : pyval) : bool :=
  match py_int prefill_left, py_int num_running, py_int max_running,
        py_int defer_count, py_int step_cap with
  | Ok remaining, Ok running, Ok limit, Ok used, Ok cap =>
      if (is_tail || (remaining <=? 64)%Z || (cap <=? used)%Z || (cap <=? 0)%Z)%bool then false
      else if tail_running then true
      else (tail_waiting && (running <? limit)%Z)%bool
  | _, _, _, _, _ => false
  end.

(** [int(getattr(obj, name, 0) or 0)]. *)
Definition int_or_zero (a : option pyval) : res Z := py_int (py_or (getattr a (VInt 0)) (VInt 0)).

(** The deferral counter, 0 when it cannot be read. *)
Definition defer_count (r : treq) : Z :=
  match int_or_zero (_glm53_resident_tail_defers r) with Ok n => n | Raise _ => 0%Z end.

(** [_glm53_note_resident_tail]: the stamp of a fresh admission. *)
Definition _glm53_note_resident_tail (env : environ) (r : treq) (computed : pyval) : treq :=
  match int_or_zero (t_computed r) with
  | Ok already =>
      if negb (already =? 0)%Z then r
      else match attr (num_prompt_tokens r) ≫= py_int with
      | Ok prompt =>
          let qualifies := _glm53_is_resident_tail computed (VInt prompt)
            (VInt (_glm53_resident_tail_page env)) (VInt (_glm53_resident_tail_tokens env)) in
          if t_settable r then set_stamp r (if qualifies then 1 else 0)%Z else r
      | Raise _ => r
      end
  | Raise _ => r
  end.

(** [_glm53_tail_still_open]: the stamp still describes a short remainder. *)
Definition _glm53_tail_still_open (env : environ) (r : treq) (computed : pyval) : bool :=
  match int_or_zero (_glm53_resident_tail r) with
  | Ok stamp =>
      if negb (stamp =? 1)%Z then false
      else match attr (num_prompt_tokens r) ≫= py_int with
      | Ok prompt => _glm53_is_resident_tail computed (VInt prompt)
          (VInt (_glm53_resident_tail_page env)) (VInt (_glm53_resident_tail_tokens env))
      | Raise _ => false
      end
  | Raise _ => false
  end.

Section Waiters.
(** vLLM's [coordinator.find_longest_cache_hit(hashes, limit)]: the hit length,
    or any exception. *)
Context (find_longest_cache_hit : list Z -> Z -> res pyval).
(** [globals().get("_glm53_hold_for_inflight_prefix")]: absent, or a function
    that may raise. *)
Context (hold : option (treq -> list treq -> Z -> Z -> res Z)).
Context (env : environ).

(** [_glm53_waiter_cache_hit]: resident tokens of a fresh waiter, or [-1]. *)
Definition _glm53_waiter_cache_hit (w : treq) : Z :=
  match int_or_zero (t_computed w) with
  | Raise _ => (-1)%Z
  | Ok computed =>
      if negb (computed =? 0)%Z then (-1)%Z
      else match block_hashes w with
      | None | Some [] => (-1)%Z
      | Some hashes =>
          let ntok := match int_or_zero (num_tokens w) with Ok n => n | Raise _ => 0%Z end in
          let prompt_len := int_or_zero (num_prompt_tokens w) in
          match (if (ntok <=? 1)%Z then prompt_len else Ok ntok) with
          | Raise _ => (-1)%Z
          | Ok ntok' =>
              if (ntok' <=? 1)%Z then (-1)%Z
              else match find_longest_cache_hit hashes (ntok' - 1) ≫= py_int with
              | Ok hit => Z.max 0 hit
              | Raise _ => (-1)%Z
              end
          end
      end
  end.

(** [_glm53_waiter_is_blocked]: no hold blocks nothing; a failing hold blocks. *)
Definition _glm53_waiter_is_blocked (w : treq) (running : list treq) (bs hbs : Z) : bool :=
  match hold with
  | None => false
  | Some h => match h w running bs hbs with Ok n => negb (n =? 0)%Z | Raise _ => true end
  end.

(** Is this waiter an unblocked resident tail? *)
Definition waiter_qualifies (running : list treq) (bs hbs page tail : Z) (w : treq) : bool :=
  if _glm53_waiter_is_blocked w running bs hbs then false
  else match attr (num_prompt_tokens w) ≫= py_int with
  | Raise _ => false
  | Ok prompt => _glm53_is_resident_tail (VInt (_glm53_waiter_cache_hit w)) (VInt prompt)
                   (VInt page) (VInt tail)
  end.

(** One queue of the scan: [inl b] is an early return, [inr scanned] the count
    to carry on with. *)
Fixpoint scan_queue (running : list treq) (bs hbs page tail : Z) (l : list treq) (scanned : nat)
    : bool + nat :=
  match l with
  | [] => inr scanned
  | w :: l' =>
      if (4 <=? scanned)%nat then inl false
      else if waiter_qualifies running bs hbs page tail w then inl true
      else scan_queue running bs hbs page tail l' (S scanned)
  end.

Definition queue_items (q : wqueue) : list treq :=
  match q with QList l => l | QAbsent | QNotIterable => [] end.

(** [_glm53_has_waiting_resident_tail]. *)
Definition _glm53_has_waiting_resident_tail (s : scheduler) (page tail : Z) : bool :=
  match attr (s_block_size s) ≫= py_int, attr (s_hash_block_size s) ≫= py_int, s_running s with
  | Ok bs, Ok hbs, Some running =>
      if negb (has_manager s) then false
      else match scan_queue running bs hbs page tail (queue_items (waiting s)) 0 with
      | inl b => b
      | inr scanned =>
          match scan_queue running bs hbs page tail (queue_items (skipped_waiting s)) scanned with
          | inl b => b
          | inr _ => false
          end
      end
  | _, _, _ => false
  end.

(** Some other running request is an open resident tail. *)
Definition tail_is_running (running : list treq) (r : treq) : bool :=
  existsb (fun other =>
    negb (obj (prefix_part other) =? obj (prefix_part r))%nat &&
    match attr (t_computed other) ≫= py_int with
    | Ok c => _glm53_tail_still_open env other (VInt c)
    | Raise _ => false
    end) running.

(** [_glm53_defer_cold_for_resident_tail]: the decision, and the request with
    its deferral counter. *)
Definition _glm53_defer_cold_for_resident_tail (s : scheduler) (r : treq) : bool * treq :=
  match attr (num_prompt_tokens r) ≫= py_int, attr (t_computed r) ≫= py_int,
        s_running s, attr (max_num_running_reqs s) ≫= py_int with
  | Ok prompt, Ok computed, Some running, Ok max_running =>
      let remaining := (prompt - computed)%Z in
      let is_tail := _glm53_tail_still_open env r (VInt computed) in
      let step_cap := _glm53_resident_tail_steps env in
      if (is_tail || (remaining <=? 64)%Z || (step_cap <=? defer_count r)%Z)%bool then (false, r)
      else
        let num_running := Z.of_nat (length running) in
        let tail_running := tail_is_running running r in
        let tail_waiting :=
          (negb tail_running && (num_running <? max_running)%Z)%bool &&
          _glm53_has_waiting_resident_tail s (_glm53_resident_tail_page env)
            (_glm53_resident_tail_tokens env) in
        if _glm53_should_defer_cold (VInt remaining) is_tail tail_waiting tail_running
             (VInt num_running) (VInt max_running) (VInt (defer_count r)) (VInt step_cap)
        then if t_settable r then (true, set_defers r (defer_count r + 1)) else (false, r)
        else (false, r)
  | _, _, _, _ => (false, r)
  end.

(** ** The chunk-size edits *)

(** Running loop: the long-prefill cap does not apply to an open tail. *)
Definition running_chunk (r : treq) (computed lptt num_new token_budget input_budget draft_slots : Z)
    : Z :=
  let n := if ((0 <? lptt) && (lptt <? num_new))%Z
              && negb (_glm53_tail_still_open env r (VInt computed))
           then lptt else num_new in
  Z.min n (Z.min token_budget (input_budget - draft_slots)).

(** Waiting loop: stamp the admission, then cap unless the stamp says tail. *)
Definition waiting_chunk (r : treq) (computed threshold num_new : Z) : treq * Z :=
  let r' := _glm53_note_resident_tail env r (VInt computed) in
  (r', if ((0 <? threshold) && (threshold <? num_new))%Z
          && negb (_glm53_tail_still_open env r' (VInt computed))
       then threshold else num_new).
End Waiters.

(** The hold the installed scheduler finds in its globals when the prefix
    admission overlay is installed too.  The share cache it leaves on the
    waiter is not threaded here: the decision does not depend on it (see
    [PrefixAdmit.hold_is_spec]). *)
Definition prefix_hold (w : treq) (running : list treq) (bs hbs : Z) : res Z :=
  Ok (fst (_glm53_hold_for_inflight_prefix (prefix_part w) (prefix_part <$> running)
             (VInt bs) (VInt hbs))).

(** ** Lemmas *)

Lemma limit_bounds env name dflt lo hi :
  (lo <= dflt <= hi)%Z -> (lo <= _glm53_resident_tail_limit env name dflt lo hi <= hi)%Z.
Proof.
  intros Hd. unfold _glm53_resident_tail_limit.
  destruct (env !! name) as [raw|]; [destruct (parse_int raw) as [z|]; [|lia] |];
    (case_if; [lia |]; apply orb_false_iff in Heqb as [? ?]; bool_to_prop; lia).
Qed.

Lemma page_bounds env : (64 <= _glm53_resident_tail_page env <= 65536)%Z.
Proof. by apply limit_bounds. Qed.
Lemma tokens_bounds env : (1 <= _glm53_resident_tail_tokens env <= 65536)%Z.
Proof. by apply limit_bounds. Qed.
Lemma steps_bounds env : (1 <= _glm53_resident_tail_steps env <= 32)%Z.
Proof. by apply limit_bounds. Qed.

Lemma is_resident_tail_iff c p pg tl :
  _glm53_is_resident_tail (VInt c) (VInt p) (VInt pg) (VInt tl) = true <->
  (0 < pg /\ 0 < tl /\ pg <= c /\ 0 < p - c <= tl)%Z.
Proof.
  unfold _glm53_is_resident_tail; simpl. case_if.
  - apply orb_true_iff in Heqb as [?|?]; bool_to_prop.
    + split; [done | lia].
    + split; [done | lia].
  - bool_to_prop. rewrite !andb_true_iff, Z.leb_le, Z.ltb_lt, Z.leb_le. lia.
Qed.

Lemma should_defer_iff remaining is_tail tw tr running limit used cap :
  _glm53_should_defer_cold (VInt remaining) is_tail tw tr (VInt running) (VInt limit)
    (VInt used) (VInt cap) = true <->
  is_tail = false /\ (64 < remaining /\ used < cap /\ 0 < cap)%Z /\
  (tr = true \/ tw = true /\ (running < limit)%Z).
Proof.
  unfold _glm53_should_defer_cold; simpl. case_if.
  - rewrite !orb_true_iff in Heqb. split; [done |]. intros (-> & ? & _).
    destruct Heqb as [[[?|?]|?]|?]; bool_to_prop; first [done | lia].
  - bool_to_prop. destruct tr; [naive_solver |]. rewrite andb_true_iff, Z.ltb_lt. naive_solver.
Qed.

Lemma note_keeps env r c :
  prefix_part (_glm53_note_resident_tail env r c) = prefix_part r /\
  num_prompt_tokens (_glm53_note_resident_tail env r c) = num_prompt_tokens r.
Proof.
  unfold _glm53_note_resident_tail. destruct (int_or_zero (t_computed r)); [|done].
  case_if; [done |]. destruct (attr _ ≫= py_int); [|done]. by case_if.
Qed.

Section WaiterLemmas.
Context (find_hit : list Z -> Z -> res pyval).
Context (hold : option (treq -> list treq -> Z -> Z -> res Z)).
Context (env : environ).

Lemma scan_queue_spec running bs hbs page tail l n :
  (n <= 4)%nat ->
  scan_queue find_hit hold running bs hbs page tail l n =
  if existsb (waiter_qualifies find_hit hold running bs hbs page tail) (take (4 - n) l) then inl true
  else if (length l <=? 4 - n)%nat then inr (n + length l)%nat else inl false.
Proof.
  revert n; induction l as [|w l IH]; intros n Hn; cbn [scan_queue].
  - rewrite take_nil. simpl. by rewrite Nat.add_0_r.
  - case_if; bool_to_prop.
    + by replace (4 - n)%nat with 0%nat by lia.
    + replace (4 - n)%nat with (S (4 - S n)) by lia. cbn [take existsb length].
      destruct (waiter_qualifies _ _ _ _ _ _ _ w); [done |]. cbn [orb].
      rewrite IH by lia. destruct (existsb _ (take (4 - S n) l)); [done |].
      change (S (length l) <=? S (4 - S n))%nat with (length l <=? 4 - S n)%nat.
      case_if; [|done]. f_equal. lia.
Qed.

(** The two-queue scan looks at the first four waiters, in queue order. *)
Lemma has_waiting_spec s page tail bs hbs running :
  attr (s_block_size s) ≫= py_int = Ok bs -> attr (s_hash_block_size s) ≫= py_int = Ok hbs ->
  s_running s = Some running -> has_manager s = true ->
  _glm53_has_waiting_resident_tail find_hit hold s page tail =
  existsb (waiter_qualifies find_hit hold running bs hbs page tail)
    (take 4 (queue_items (waiting s) ++ queue_items (skipped_waiting s))).
Proof.
  intros Hb Hh Hr Hm. unfold _glm53_has_waiting_resident_tail.
  rewrite Hb, Hh, Hr, Hm. simpl negb. cbv iota.
  set (q1 := queue_items (waiting s)). set (q2 := queue_items (skipped_waiting s)).
  rewrite scan_queue_spec by lia. replace (4 - 0)%nat with 4%nat by lia.
  rewrite take_app, existsb_app.
  destruct (existsb _ (take 4 q1)); [done |]. simpl orb.
  case_if; bool_to_prop.
  - simpl Nat.add. rewrite scan_queue_spec by lia.
    destruct (existsb _ (take (4 - length q1) q2)); [done |]. by case_if.
  - replace (4 - length q1)%nat with 0%nat by lia. done.
Qed.

Lemma defer_true s r r' :
  _glm53_defer_cold_for_resident_tail find_hit hold env s r = (true, r') ->
  exists prompt computed running max_running,
    attr (num_prompt_tokens r) ≫= py_int = Ok prompt /\
    attr (t_computed r) ≫= py_int = Ok computed /\
    s_running s = Some running /\ attr (max_num_running_reqs s) ≫= py_int = Ok max_running /\
    (64 < prompt - computed)%Z /\ _glm53_tail_still_open env r (VInt computed) = false /\
    (defer_count r < _glm53_resident_tail_steps env)%Z /\ r' = set_defers r (defer_count r + 1) /\
    (tail_is_running env running r = true \/
     (Z.of_nat (length running) < max_running)%Z /\
     _glm53_has_waiting_resident_tail find_hit hold s (_glm53_resident_tail_page env)
       (_glm53_resident_tail_tokens env) = true).
Proof.
  unfold _glm53_defer_cold_for_resident_tail.
  destruct (attr (num_prompt_tokens r) ≫= py_int) as [prompt|]; [|done].
  destruct (attr (t_computed r) ≫= py_int) as [computed|]; [|done].
  destruct (s_running s) as [running|]; [|done].
  destruct (attr (max_num_running_reqs s) ≫= py_int) as [max_running|]; [|done].
  cbv zeta.
  case_if; [done |]. case_if; [|done]. case_if; [|done]. intros [= <-].
  apply should_defer_iff in Heqb0 as (Ht & (Hr & Hu & _) & Hwhy).
  exists prompt, computed, running, max_running. repeat (split; [done |]).
  destruct Hwhy as [|[Hw Hlt]]; [by left | right]. bool_to_prop. done.
Qed.

Lemma defer_false s r r' :
  _glm53_defer_cold_for_resident_tail find_hit hold env s r = (false, r') -> r' = r.
Proof.
  unfold _glm53_defer_cold_for_resident_tail.
  destruct (attr (num_prompt_tokens r) ≫= py_int) as [prompt|]; [|by intros [= <-]].
  destruct (attr (t_computed r) ≫= py_int) as [computed|]; [|by intros [= <-]].
  destruct (s_running s) as [running|]; [|by intros [= <-]].
  destruct (attr (max_num_running_reqs s) ≫= py_int); [|by intros [= <-]].
  cbv zeta. repeat (case_if; try (by intros [= <-])).
Qed.
End WaiterLemmas.

(** ** Sequences of scheduler steps *)

(** The same request seen at successive steps: everything but the overlay's two
    attributes may change between them. *)
Definition with_defers (r : treq) (d : option pyval) : treq :=
  TReq (prefix_part r) (num_prompt_tokens r) (num_tokens r) (block_hashes r)
    (_glm53_resident_tail r) d.
Definition with_stamp (r : treq) (st : option pyval) : treq :=
  TReq (prefix_part r) (num_prompt_tokens r) (num_tokens r) (block_hashes r)
    st (_glm53_resident_tail_defers r).

(** How many of the given steps defer the request, whose counter is [d]. *)
Fixpoint deferrals find_hit hold env (steps : list (scheduler * treq)) (d : option pyval) : nat :=
  match steps with
  | [] => 0
  | (s, snap) :: steps' =>
      let '(b, r') := _glm53_defer_cold_for_resident_tail find_hit hold env s (with_defers snap d) in
      (if b then 1 else 0) + deferrals find_hit hold env steps' (_glm53_resident_tail_defers r')
  end%nat.

(** The stamp after a sequence of admissions of the request. *)
Definition stamp_after env (snaps : list (treq * pyval)) (st : option pyval) : option pyval :=
  fold_left (fun st sc => _glm53_resident_tail
    (_glm53_note_resident_tail env (with_stamp (fst sc) st) (snd sc))) snaps st.

Lemma deferrals_bound find_hit hold env steps d :
  (Z.of_nat (deferrals find_hit hold env steps d) <=
   Z.max 0 (_glm53_resident_tail_steps env -
            match int_or_zero d with Ok n => n | Raise _ => 0 end))%Z.
Proof.
  revert d; induction steps as [|[s snap] steps IH]; intros d; cbn [deferrals]; [lia |].
  destruct (_glm53_defer_cold_for_resident_tail _ _ _ _ _) as [[|] r'] eqn:E.
  - apply defer_true in E as (? & ? & ? & ? & _ & _ & _ & _ & _ & _ & Hu & -> & _).
    unfold defer_count in *. cbn [_glm53_resident_tail_defers with_defers set_defers] in *.
    set (n := match int_or_zero d with Ok n => n | Raise _ => 0%Z end) in *.
    specialize (IH (Some (VInt (n + 1)))).
    replace (int_or_zero (Some (VInt (n + 1)))) with (Ok (n + 1)%Z) in IH; [lia |].
    unfold int_or_zero, py_or; simpl. destruct (n + 1 =? 0)%Z eqn:En; bool_to_prop; simpl;
      [by rewrite En | done].
  - apply defer_false in E as ->. specialize (IH d). cbn [_glm53_resident_tail_defers with_defers].
    lia.
Qed.

(** ** Properties *)

(** C8. A cold prefill is never starved: over any sequence of scheduler steps,
    whatever the tails that are running or waiting, one request is deferred at
    most [GLM53_RESIDENT_TAIL_STEPS] times, and never more than 32 times. *)
Theorem cold_prefill_deferred_boundedly find_hit hold env (steps : list (scheduler * treq)) :
  (Z.of_nat (deferrals find_hit hold env steps None) <= _glm53_resident_tail_steps env)%Z /\
  (_glm53_resident_tail_steps env <= 32)%Z.
Proof.
  pose proof (deferrals_bound find_hit hold env steps None) as Hb.
  pose proof (steps_bounds env). cbn in Hb. split; lia.
Qed.

(** A deferral is always for the sake of a resident tail: the deferred
    request is a prefill with more than 64 tokens left that is not itself an
    open tail, and either another running request is an open tail, or a
    sequence slot is free and one of the first four waiters, over both queues
    in order, is a resident tail the in-flight hold lets through.  Only the
    deferral counter of the request changes. *)
Theorem deferral_has_a_tail find_hit hold env s r r'
    (Hd : _glm53_defer_cold_for_resident_tail find_hit hold env s r = (true, r')) :
  exists prompt computed running bs hbs,
    attr (num_prompt_tokens r) ≫= py_int = Ok prompt /\
    attr (t_computed r) ≫= py_int = Ok computed /\ s_running s = Some running /\
    (64 < prompt - computed)%Z /\ _glm53_tail_still_open env r (VInt computed) = false /\
    r' = set_defers r (defer_count r + 1) /\
    ((exists other c, other ∈ running /\ obj (prefix_part other) <> obj (prefix_part r) /\
        attr (t_computed other) ≫= py_int = Ok c /\
        _glm53_tail_still_open env other (VInt c) = true) \/
     ((exists limit, attr (max_num_running_reqs s) ≫= py_int = Ok limit /\
        (Z.of_nat (length running) < limit)%Z) /\
      exists w, w ∈ take 4 (queue_items (waiting s) ++ queue_items (skipped_waiting s)) /\
        _glm53_waiter_is_blocked hold w running bs hbs = false /\
        waiter_qualifies find_hit hold running bs hbs (_glm53_resident_tail_page env)
          (_glm53_resident_tail_tokens env) w = true)).
Proof.
  apply defer_true in Hd as (prompt & computed & running & limit & Hp & Hc & Hr & Hl & Hleft &
    Hnot & _ & -> & Hwhy).
  destruct Hwhy as [Ht|[Hslot Hw]].
  - exists prompt, computed, running, 0%Z, 0%Z. repeat (split; [done |]). left.
    apply existsb_exists in Ht as (other & Hin & Ho). rewrite <- list_elem_of_In in Hin.
    apply andb_true_iff in Ho as [Hne Ho]. bool_to_prop.
    destruct (attr (t_computed other) ≫= py_int) as [c|] eqn:Ec; [|done].
    by exists other, c.
  - assert (exists bs hbs, attr (s_block_size s) ≫= py_int = Ok bs /\
      attr (s_hash_block_size s) ≫= py_int = Ok hbs /\ has_manager s = true) as
      (bs & hbs & Hb & Hh & Hm).
    { unfold _glm53_has_waiting_resident_tail in Hw.
      destruct (attr (s_block_size s) ≫= py_int) as [bs|]; [|done].
      destruct (attr (s_hash_block_size s) ≫= py_int) as [hbs|]; [|done].
      rewrite Hr in Hw. destruct (has_manager s) eqn:Em; [|done]. by exists bs, hbs. }
    exists prompt, computed, running, bs, hbs. repeat (split; [done |]). right.
    split; [by exists limit |].
    rewrite (has_waiting_spec find_hit hold s _ _ bs hbs running Hb Hh Hr Hm) in Hw.
    apply existsb_exists in Hw as (w & Hin & Hq). rewrite <- list_elem_of_In in Hin.
    exists w. split; [done |]. split; [|done].
    unfold waiter_qualifies in Hq. by case_if_in Hq.
Qed.

(** A cold prefill of 100,000 tokens, 7,168 computed; a waiter whose 3,584
    tokens are cached and whose remainder is 416. *)
Definition demo_cold : treq :=
  TReq (Request 7 (Some "cold"%string) (Some (Toks [1;2;3]%Z)) (Some (VInt 7168)) None true)
    (Some (VInt 100000)) (Some (VInt 100000)) None None None.
Definition demo_tail : treq :=
  TReq (Request 8 (Some "tail"%string) (Some (Toks [9;9;9]%Z)) (Some (VInt 0)) None true)
    (Some (VInt 4000)) (Some (VInt 4000)) (Some [1]%Z) None None.
Definition demo_sched : scheduler :=
  Scheduler (Some [demo_cold]) (Some (VInt 4)) (Some (VInt 3584)) (Some (VInt 64)) true
    (QList [demo_tail]) QAbsent.
Definition demo_hit (hashes : list Z) (limit : Z) : res pyval := Ok (VInt 3584).

Lemma deferral_has_a_tail_witness :
  exists r', _glm53_defer_cold_for_resident_tail demo_hit (Some prefix_hold) ∅ demo_sched demo_cold
             = (true, r') /\
  exists prompt computed, attr (num_prompt_tokens demo_cold) ≫= py_int = Ok prompt /\
    attr (t_computed demo_cold) ≫= py_int = Ok computed /\ (64 < prompt - computed)%Z.
Proof.
  assert (_glm53_defer_cold_for_resident_tail demo_hit (Some prefix_hold) ∅ demo_sched demo_cold
          = (true, set_defers demo_cold 1)) as Hd by (vm_compute; reflexivity).
  exists (set_defers demo_cold 1). split; [exact Hd |].
  destruct (deferral_has_a_tail demo_hit (Some prefix_hold) ∅ demo_sched demo_cold _ Hd)
    as (prompt & computed & running & bs & hbs & Hp & Hc & _ & Hleft & _).
  exists prompt, computed. split; [exact Hp | split; [exact Hc | exact Hleft]].
Defined.

(** The last chunk of a cold prefill is not a tail: if the request was
    admitted without a full cached page, then after any further calls made
    while it has computed tokens, its stamp still says no, however short the
    remainder has become. *)
Theorem cold_admission_never_becomes_tail env r0 hit prompt (snaps : list (treq * pyval)) r computed
    (Hfresh : int_or_zero (t_computed r0) = Ok 0%Z) (Hset : t_settable r0 = true)
    (Hprompt : attr (num_prompt_tokens r0) ≫= py_int = Ok prompt)
    (Hcold : _glm53_is_resident_tail hit (VInt prompt) (VInt (_glm53_resident_tail_page env))
               (VInt (_glm53_resident_tail_tokens env)) = false)
    (Hlater : Forall (fun sc => exists n, int_or_zero (t_computed (fst sc)) = Ok n /\ n <> 0%Z) snaps) :
  let st := stamp_after env snaps (_glm53_resident_tail (_glm53_note_resident_tail env r0 hit)) in
  _glm53_tail_still_open env (with_stamp r st) computed = false.
Proof.
  cbv zeta.
  assert (_glm53_resident_tail (_glm53_note_resident_tail env r0 hit) = Some (VInt 0)) as ->.
  { unfold _glm53_note_resident_tail. rewrite Hfresh. simpl negb. cbv iota.
    by rewrite Hprompt, Hcold, Hset. }
  assert (stamp_after env snaps (Some (VInt 0)) = Some (VInt 0)) as ->; [|done].
  induction Hlater as [|[snap c] snaps (n & Hn & Hne) _ IH]; [done |].
  unfold stamp_after in *; cbn [fold_left fst snd].
  assert (_glm53_note_resident_tail env (with_stamp snap (Some (VInt 0))) c =
          with_stamp snap (Some (VInt 0))) as ->; [|exact IH].
  unfold _glm53_note_resident_tail. change (t_computed (with_stamp snap _)) with (t_computed snap).
  simpl in Hn. rewrite Hn. case_if; [done |]. by bool_to_prop.
Qed.

Lemma cold_admission_never_becomes_tail_witness :
  _glm53_tail_still_open ∅
    (with_stamp demo_cold (stamp_after ∅ [(demo_cold, VInt 97000)]
      (_glm53_resident_tail (_glm53_note_resident_tail ∅ demo_tail (VInt 64))))) (VInt 99000) = false.
Proof.
  refine (cold_admission_never_becomes_tail ∅ demo_tail (VInt 64) 4000
    [(demo_cold, VInt 97000)] demo_cold (VInt 99000) eq_refl eq_refl eq_refl _ _).
  - vm_compute. reflexivity.
  - constructor; [|constructor]. exists 7168%Z. split; [reflexivity | lia].
Defined.

(** One exclusive step finishes a tail: when a fresh request's cache hit is
    a full page and its remainder fits the tail bound, the waiting loop asks for
    the whole remainder, not the long-prefill cap, and so does the running loop
    on the stamped request as far as the step's budgets allow. *)
Theorem resident_tail_not_capped env r hit prompt threshold token_budget input_budget draft_slots
    (Hfresh : int_or_zero (t_computed r) = Ok 0%Z) (Hset : t_settable r = true)
    (Hprompt : attr (num_prompt_tokens r) ≫= py_int = Ok prompt)
    (Hhit : (_glm53_resident_tail_page env <= hit)%Z)
    (Hleft : (0 < prompt - hit <= _glm53_resident_tail_tokens env)%Z) :
  let '(r', n) := waiting_chunk env r hit threshold (prompt - hit) in
  n = (prompt - hit)%Z /\
  running_chunk env r' hit threshold (prompt - hit) token_budget input_budget draft_slots =
    Z.min (prompt - hit) (Z.min token_budget (input_budget - draft_slots)).
Proof.
  unfold waiting_chunk, running_chunk.
  pose proof (page_bounds env). pose proof (tokens_bounds env).
  assert (_glm53_tail_still_open env (_glm53_note_resident_tail env r (VInt hit)) (VInt hit) = true)
    as ->; [|by rewrite andb_false_r].
  assert (_glm53_is_resident_tail (VInt hit) (VInt prompt) (VInt (_glm53_resident_tail_page env))
    (VInt (_glm53_resident_tail_tokens env)) = true) as Hq by (apply is_resident_tail_iff; lia).
  unfold _glm53_note_resident_tail. rewrite Hfresh. simpl negb. cbv iota.
  rewrite Hprompt, Hq, Hset. unfold _glm53_tail_still_open, set_stamp; simpl.
  simpl in Hprompt. rewrite Hprompt. exact Hq.
Qed.

Lemma resident_tail_not_capped_witness :
  let '(r', n) := waiting_chunk ∅ demo_tail 3584 128 416 in
  n = 416%Z /\ running_chunk ∅ r' 3584 128 416 2048 4096 8 = 416%Z.
Proof.
  refine (resident_tail_not_capped ∅ demo_tail 3584 4000 128 2048 4096 8 eq_refl eq_refl eq_refl _ _);
    vm_compute; [discriminate | split; [reflexivity | discriminate]].
Defined.
