(* ===== verification/DecodeFloor.v ===== *)
(** * The decode floor: mixed-prefill gate, version 3.1

    Model of the helper that [overlay/patch_scheduler_decode_floor.py] installs
    in vLLM's scheduler: [HELPER_V3_ONLY] with the edits of
    [_build_v31_helper], and [HELPER_POLICY].  Clock readings are exact
    rationals (seconds of [time.monotonic()]). *)
From stdpp Require Import base list gmap strings numbers.
From Stdlib Require Import ZArith Lia QArith Qround Qminmax Lqa.
From S2P Require Import Prelude.
#[local] Open Scope Z_scope.

(** ** Data *)

(** The request attributes the gate reads; [g_settable] says whether the class
    accepts new attributes. *)
Record greq := GReq {
  g_obj : nat;
  g_id : option string;
  g_num_tokens : Z;
  g_num_computed : Z;
  g_num_prompt : Z;
  g_settable : bool
}.

(** The gate knobs. *)
Record config := Config {
  warm_tokens : Z;
  max_wait_ms : Z;
  late_cap : Z;
  escalate_ms : Z;
  late_cap_max : Z
}.

(** The per-request state dict; [None] is an absent key.  [done] absent and
    [done] false read the same. *)
Record gstate := GState {
  first_seen : option Q;
  late_at : option Q;
  cap : option Z;
  done : bool;
  last_computed : option Z;
  capped_at : option Q;
  capped_s : option Q
}.

Definition empty_state : gstate := GState None None None false None None None.

(** Where the dicts live: on the request objects (by identity), or in the
    bounded fallback map, in insertion order, guarded by the request id. *)
Record world := World {
  attr_states : gmap nat gstate;
  fallback : list (nat * (option string * gstate))
}.

(** ** Configuration *)

(** [_int]: a validated knob. *)
Definition _int (env : environ) (name : string) (dflt lo hi : Z) : Z :=
  match env !! name with
  | None => dflt
  | Some raw =>
      match strip raw with
      | EmptyString => dflt
      | s => match parse_int s with
             | None => dflt
             | Some v => if ((v <? lo) || (hi <? v))%bool then dflt else v
             end
      end
  end.

Definition _glm53_gate_config (env : environ) : config :=
  let cap0 := _int env "GLM53_MIXED_PREFILL_LATE_CAP" 512 64 8192 in
  let max0 := _int env "GLM53_MIXED_PREFILL_LATE_CAP_MAX" 1792 64 8192 in
  Config (_int env "GLM53_MIXED_PREFILL_WARM_TOKENS" 3584 0 1000000)
         (_int env "GLM53_MIXED_PREFILL_MAX_WAIT_MS" 1500 0 600000)
         cap0
         (_int env "GLM53_MIXED_PREFILL_ESCALATE_MS" 0 0 600000)
         (if max0 <? cap0 then cap0 else max0).

(** ** The v1 policy *)

(** A running request other than [current] that has computed its whole prompt. *)
Definition decoding_peer (current r : greq) : bool :=
  negb ((g_obj r =? g_obj current)%nat || bool_decide (g_id r = g_id current))
  && (g_num_prompt r <=? g_num_computed r).

Definition _glm53_mixed_prefill_policy (env : environ) (running : list greq) (current : greq)
    : option Z :=
  let raw := lower (strip (environ_get env "GLM53_MIXED_PREFILL_CHUNK" "skip")) in
  if existsb (String.eqb raw) ["0"; "off"; "no"]%string then None
  else
    let c := if existsb (String.eqb raw) ["skip"; "-1"]%string then Some 0
             else let n := default 0 (parse_int raw) in if n <=? 0 then None else Some n in
    match c with
    | None => None
    | Some cap => if existsb (decoding_peer current) running then Some cap else None
    end.

(** ** State lookup *)

Fixpoint assoc {A} (k : nat) (l : list (nat * A)) : option A :=
  match l with
  | [] => None
  | (k', v) :: l' => if (k =? k')%nat then Some v else assoc k l'
  end.

Fixpoint assoc_remove {A} (k : nat) (l : list (nat * A)) : list (nat * A) :=
  match l with
  | [] => []
  | (k', v) :: l' => if (k =? k')%nat then l' else (k', v) :: assoc_remove k l'
  end.

(** [m[k] = v]: in place for a known key, at the end otherwise. *)
Fixpoint assoc_set {A} (k : nat) (v : A) (l : list (nat * A)) : list (nat * A) :=
  match l with
  | [] => [(k, v)]
  | (k', v') :: l' => if (k =? k')%nat then (k', v) :: l' else (k', v') :: assoc_set k v l'
  end.

(** [_glm53_fallback_get]: an entry of another request id is dropped. *)
Definition _glm53_fallback_get (w : world) (current : greq) : option gstate * world :=
  match assoc (g_obj current) (fallback w) with
  | None => (None, w)
  | Some (rid, st) =>
      if bool_decide (rid = g_id current) then (Some st, w)
      else (None, World (attr_states w) (assoc_remove (g_obj current) (fallback w)))
  end.

(** [_glm53_fallback_put]: a full map first drops its 1024 oldest entries. *)
Definition _glm53_fallback_put (w : world) (current : greq) (st : gstate) : world :=
  let m := if (4096 <=? length (fallback w))%nat then drop 1024 (fallback w) else fallback w in
  World (attr_states w) (assoc_set (g_obj current) (g_id current, st) m).

(** [_glm53_gate_state(current)]. *)
Definition _glm53_gate_state (w : world) (current : greq) : option gstate * world :=
  match attr_states w !! g_obj current with
  | Some st => (Some st, w)
  | None => _glm53_fallback_get w current
  end.

(** Where [create=True] puts a fresh dict, and where its updates are seen. *)
Definition create_state (w : world) (current : greq) (st : gstate) : world :=
  if g_settable current then World (<[g_obj current := st]> (attr_states w)) (fallback w)
  else _glm53_fallback_put w current st.
Definition update_state (w : world) (current : greq) (st : gstate) : world :=
  match attr_states w !! g_obj current with
  | Some _ => World (<[g_obj current := st]> (attr_states w)) (fallback w)
  | None => World (attr_states w) (assoc_set (g_obj current) (g_id current, st) (fallback w))
  end.

(** ** The gate *)

(** [_glm53_set_capped]: accumulate only the intervals spent under the cap. *)
Definition _glm53_set_capped (st : gstate) (now : Q) (active : bool) : gstate :=
  match late_at st with
  | None => st
  | Some _ =>
      match active, capped_at st with
      | true, None =>
          GState (first_seen st) (late_at st) (cap st) (done st) (last_computed st)
            (Some now) (capped_s st)
      | true, Some _ => st
      | false, Some t =>
          GState (first_seen st) (late_at st) (cap st) (done st) (last_computed st)
            None (Some (default 0%Q (capped_s st) + Qmax (now - t) 0)%Q)
      | false, None => st
      end
  end.

(** A rollback of the computed tokens ends the crawl episode; the hold age
    stays.  Then the new position is recorded. *)
Definition note_position (st : gstate) (num_computed : Z) : gstate :=
  let st1 := match last_computed st with
             | Some last => if num_computed <? last
                            then GState (first_seen st) None None false (last_computed st) None None
                            else st
             | None => st
             end in
  GState (first_seen st1) (late_at st1) (cap st1) (done st1) (Some num_computed)
    (capped_at st1) (capped_s st1).

(** The crawl reached its bypass tail. *)
Definition finish_crawl (st : gstate) (now : Q) : gstate :=
  match late_at st with
  | Some _ =>
      if done st then st
      else let st1 := _glm53_set_capped st now false in
           GState (first_seen st1) (late_at st1) (cap st1) true (last_computed st1)
             (capped_at st1) (capped_s st1)
  | None => st
  end.

Definition ms (dt : Q) : Q := (dt * 1000)%Q.

(** The late cap [since] the request became late. *)
Definition aged_cap (cfg : config) (elapsed : Q) : Z :=
  if 0 <? escalate_ms cfg then
    let doublings := Z.min (Qfloor (ms elapsed / inject_Z (escalate_ms cfg))) 8 in
    Z.min (late_cap_max cfg) (Z.shiftl (late_cap cfg) doublings)
  else late_cap cfg.

(** The held branch: no bypass, a decoding peer, and the skip policy.  [st] is
    the (possibly fresh) state; the result is the returned value and state. *)
Definition held (cfg : config) (policy_cap remaining : Z) (now : Q) (st : gstate) : Z * gstate :=
  let seen := default now (first_seen st) in
  let st1 := GState (Some seen) (late_at st) (cap st) (done st) (last_computed st)
               (capped_at st) (capped_s st) in
  if negb (Qle_bool (inject_Z (max_wait_ms cfg)) (ms (now - seen))) then (policy_cap, st1)
  else
    let late := default now (late_at st1) in
    let c := aged_cap cfg (now - late) in
    let st2 := GState (first_seen st1) (Some late) (Some c) (done st1) (last_computed st1)
                 (capped_at st1) (capped_s st1) in
    (Z.max (Z.min c remaining) 1, _glm53_set_capped st2 now true).

(** The decision on a request with [remaining > 0], from the policy's answer and
    the request's state dict ([None] before it is created): the returned value
    and the dict afterwards. *)
Definition gate_core (cfg : config) (policy : option Z) (remaining num_computed : Z) (now : Q)
    (st0 : option gstate) : option Z * option gstate :=
  let st := (fun s => note_position s num_computed) <$> st0 in
  if remaining <=? warm_tokens cfg then (None, (fun s => finish_crawl s now) <$> st)
  else
    match policy with
    | None => (None, (fun s => _glm53_set_capped s now false) <$> st)
    | Some c =>
        if 0 <? c then (Some c, (fun s => _glm53_set_capped s now false) <$> st)
        else if max_wait_ms cfg <=? 0 then (Some c, st)
        else
          let s := default (GState None None None false (Some num_computed) None None) st in
          let '(r, s') := held cfg c remaining now s in (Some r, Some s')
    end.

(** [_glm53_mixed_prefill_gate(running, current, num_computed_tokens)] at clock
    reading [now]. *)
Definition _glm53_mixed_prefill_gate (env : environ) (w : world) (running : list greq)
    (current : greq) (num_computed : Z) (now : Q) : option Z * world :=
  let cfg := _glm53_gate_config env in
  let remaining := g_num_tokens current - num_computed in
  if remaining <=? 0 then (None, w)
  else
    let '(st0, w0) := _glm53_gate_state w current in
    let '(r, st') := gate_core cfg (_glm53_mixed_prefill_policy env running current)
                       remaining num_computed now st0 in
    (r, match st0, st' with
        | _, None => w0
        | Some _, Some s => update_state w0 current s
        | None, Some s => create_state w0 current s
        end).

(** ** The call sites *)

(** Running loop: [num_new_tokens] after the gate. *)
Definition gated_running (num_new : Z) (mixed_cap : option Z) : Z :=
  match mixed_cap with Some c => Z.min num_new c | None => num_new end.

(** Waiting loop: [None] when the request is put back for this step. *)
Definition gated_waiting (num_new : Z) (mixed_cap : option Z) : option Z :=
  match mixed_cap with
  | Some c => if c <=? 0 then None else Some (Z.min num_new c)
  | None => Some num_new
  end.

#[global] Arguments note_position : simpl never.
#[global] Arguments finish_crawl : simpl never.
#[global] Arguments _glm53_set_capped : simpl never.
#[global] Arguments held : simpl never.

(** ** Traces *)

(** One call of the gate. *)
Record call := Call {
  c_running : list greq;
  c_current : greq;
  c_computed : Z;
  c_now : Q
}.

Definition run_call (env : environ) (w : world) (c : call) : option Z * world :=
  _glm53_mixed_prefill_gate env w (c_running c) (c_current c) (c_computed c) (c_now c).
Definition run_calls (env : environ) (cs : list call) (w : world) : world :=
  fold_left (fun w c => snd (run_call env w c)) cs w.

Definition empty_world : world := World ∅ [].

(** The readings of [time.monotonic()] never decrease. *)
Fixpoint clock_from (t : Q) (cs : list call) : Prop :=
  match cs with
  | [] => True
  | c :: cs' => (t <= c_now c)%Q /\ clock_from (c_now c) cs'
  end.
Definition clock_end (t : Q) (cs : list call) : Q := fold_left (fun _ c => c_now c) cs t.

(** ** Crawl accounting: the invariant of one state dict at clock [t] *)

Definition acct (s : gstate) (t : Q) : Prop :=
  match first_seen s with Some f => (f <= t)%Q | None => True end /\
  match late_at s with
  | None => capped_at s = None /\ capped_s s = None
  | Some l =>
      (l <= t)%Q /\ (0 <= default 0%Q (capped_s s))%Q /\
      match capped_at s with
      | None => (default 0%Q (capped_s s) <= t - l)%Q
      | Some c => (l <= c)%Q /\ (c <= t)%Q /\ (default 0%Q (capped_s s) <= c - l)%Q
      end
  end.

Lemma Qmax_l x y : (x <= Qmax x y)%Q.
Proof. apply Q.le_max_l. Qed.
Lemma Qmax_eq x : (0 <= x)%Q -> (Qmax x 0 == x)%Q.
Proof. intros Hx. by apply Q.max_l. Qed.

Lemma acct_mono s t t' : (t <= t')%Q -> acct s t -> acct s t'.
Proof.
  intros Ht [Hf Hl]. split.
  - destruct (first_seen s); [|done]. lra.
  - destruct (late_at s) as [l|]; [|done]. destruct Hl as (? & ? & Hc).
    split; [lra | split; [done |]]. destruct (capped_at s) as [c|]; [|lra].
    destruct Hc as (? & ? & ?). repeat split; lra.
Qed.

Lemma acct_set_capped s now active : acct s now -> acct (_glm53_set_capped s now active) now.
Proof.
  intros Ha. pose proof Ha as [Hf Hl]. unfold _glm53_set_capped.
  destruct (late_at s) as [l|] eqn:El; [|done].
  destruct Hl as (Hlt & Hs & Hc).
  destruct active, (capped_at s) as [c|] eqn:Ec; try done; (split; [done |]); simpl.
  - repeat split; lra.
  - destruct Hc as (? & ? & ?).
    assert (Qmax (now - c) 0 == now - c)%Q as E by (apply Qmax_eq; lra).
    rewrite E. repeat split; [done | lra | lra].
Qed.

Lemma acct_note s n t : acct s t -> acct (note_position s n) t.
Proof.
  intros [Hf Hl]. unfold note_position.
  destruct (last_computed s) as [last|]; [case_if|]; by split.
Qed.

Lemma acct_finish s now : acct s now -> acct (finish_crawl s now) now.
Proof.
  intros Ha. unfold finish_crawl. destruct (late_at s); [|done]. destruct (done s); [done |].
  destruct (acct_set_capped s now false Ha). by split.
Qed.

Lemma acct_held cfg c remaining now s :
  acct s now -> acct (snd (held cfg c remaining now s)) now.
Proof.
  intros [Hf Hl]. unfold held.
  assert (default now (first_seen s) <= now)%Q as Hseen
    by (destruct (first_seen s); simpl; [done | lra]).
  case_if; simpl; [by split |].
  apply acct_set_capped. split; simpl; [done |].
  destruct (late_at s) as [l|]; simpl; [done |].
  destruct Hl as [-> ->]; simpl. repeat split; lra.
Qed.

Lemma gate_core_acct cfg pol remaining n now st0 r s' :
  (forall s, st0 = Some s -> acct s now) ->
  gate_core cfg pol remaining n now st0 = (r, Some s') -> acct s' now.
Proof.
  intros Hst. unfold gate_core.
  assert (forall s, (fun s => note_position s n) <$> st0 = Some s -> acct s now) as Hn.
  { intros s (s1 & Es1 & ->)%fmap_Some. by apply acct_note, Hst. }
  set (st := (fun s => note_position s n) <$> st0) in *.
  assert (forall f : gstate -> gstate, (forall s, acct s now -> acct (f s) now) ->
    forall s, f <$> st = Some s -> acct s now) as Hmap.
  { intros f Hf s (s1 & Es1 & ->)%fmap_Some. by apply Hf, Hn. }
  case_if; [intros [= _ H]; eapply Hmap, H; intros; by apply acct_finish |].
  destruct pol as [c|]; [|intros [= _ H]; eapply Hmap, H; intros; by apply acct_set_capped].
  case_if; [intros [= _ H]; eapply Hmap, H; intros; by apply acct_set_capped |].
  case_if; [intros [= _ H]; by apply Hn |].
  set (s := default _ st). assert (acct s now) as Hs.
  { subst s. destruct st; simpl; [by apply Hn | by split]. }
  pose proof (acct_held cfg c remaining now s Hs) as Hh.
  destruct (held _ _ _ _ _) as [r1 s1]. by intros [= _ <-].
Qed.

(** Every dict of the world satisfies [P]. *)
Definition all_states (P : gstate -> Prop) (w : world) : Prop :=
  (forall o s, attr_states w !! o = Some s -> P s) /\
  (forall k rid s, (k, (rid, s)) ∈ fallback w -> P s).

Lemma empty_world_all P : all_states P empty_world.
Proof.
  split; simpl.
  - intros o s H. by apply lookup_empty_Some in H.
  - intros k rid s H. by apply not_elem_of_nil in H.
Qed.

Lemma assoc_elem {A} k (l : list (nat * A)) v : assoc k l = Some v -> (k, v) ∈ l.
Proof.
  induction l as [|[k' v'] l IH]; simpl; [done |]. case_if; bool_to_prop.
  - intros [= ->]. subst. by left.
  - intros H. right. by apply IH.
Qed.

Lemma assoc_set_elem {A} k (v : A) l k' v' :
  (k', v') ∈ assoc_set k v l -> (k', v') = (k, v) \/ (k', v') ∈ l.
Proof.
  induction l as [|[k1 v1] l IH]; simpl.
  - intros ->%list_elem_of_singleton. by left.
  - case_if; bool_to_prop.
    + intros [[= -> ->]|H]%elem_of_cons; [subst; by left | right; by right].
    + intros [[= -> ->]|H]%elem_of_cons; [right; by left |].
      destruct (IH H); [by left | right; by right].
Qed.

Lemma assoc_remove_elem {A} k (l : list (nat * A)) e : e ∈ assoc_remove k l -> e ∈ l.
Proof.
  induction l as [|[k1 v1] l IH]; simpl; [done |]. case_if; [by right |].
  intros [->|H]%elem_of_cons; [by left | right; by apply IH].
Qed.

Lemma gate_state_all P w current :
  all_states P w ->
  (forall s, fst (_glm53_gate_state w current) = Some s -> P s) /\
  all_states P (snd (_glm53_gate_state w current)).
Proof.
  intros [Ha Hb]. unfold _glm53_gate_state.
  destruct (attr_states w !! g_obj current) as [s|] eqn:E; simpl.
  { split; [|done]. intros s' [= <-]. by eapply Ha. }
  unfold _glm53_fallback_get. destruct (assoc _ _) as [[rid s]|] eqn:Es; [|done].
  apply assoc_elem in Es. case_if; simpl.
  - split; [|done]. intros s' [= <-]. by eapply Hb.
  - split; [done |]. split; [done |]. simpl. intros k rid' s' Hin.
    eapply Hb, assoc_remove_elem, Hin.
Qed.

Lemma put_all P w current s :
  all_states P w -> P s ->
  all_states P (update_state w current s) /\ all_states P (create_state w current s).
Proof.
  intros [Ha Hb] Hs.
  assert (forall o x, <[g_obj current := s]> (attr_states w) !! o = Some x -> P x) as Hins.
  { intros o x. destruct (decide (o = g_obj current)) as [->|Hne].
    - rewrite lookup_insert_eq. by intros [= <-].
    - rewrite lookup_insert_ne by done. apply Ha. }
  unfold update_state, create_state, _glm53_fallback_put. split.
  - destruct (attr_states w !! g_obj current); split; simpl; try done.
    intros k rid x [[= -> -> ->]|Hin]%assoc_set_elem; [done | by eapply Hb].
  - destruct (g_settable current); split; cbn [attr_states fallback]; try done.
    intros k rid x [[= -> -> ->]|Hin]%assoc_set_elem; [done |]. eapply Hb.
    case_if_in Hin; [by eapply subseteq_drop | done].
Qed.

Lemma gate_all_acct env w running current n now t :
  (t <= now)%Q -> all_states (fun s => acct s t) w ->
  all_states (fun s => acct s now) (snd (_glm53_mixed_prefill_gate env w running current n now)).
Proof.
  intros Ht [Ha Hb]. assert (all_states (fun s => acct s now) w) as Hw.
  { split; intros; eapply acct_mono; eauto. }
  unfold _glm53_mixed_prefill_gate. cbv zeta. case_if; [done |].
  destruct (gate_state_all _ w current Hw) as [Hst Hw0].
  destruct (_glm53_gate_state w current) as [st0 w0]; simpl in *.
  destruct (gate_core _ _ _ _ _ _) as [r [s'|]] eqn:Ec; simpl; [|by destruct st0].
  assert (acct s' now) as Hs' by (eapply gate_core_acct; [apply Hst | exact Ec]).
  destruct (put_all _ w0 current s' Hw0 Hs') as [Hu Hc]. by destruct st0.
Qed.

Lemma run_calls_acct env cs w t :
  clock_from t cs -> all_states (fun s => acct s t) w ->
  all_states (fun s => acct s (clock_end t cs)) (run_calls env cs w).
Proof.
  revert w t; induction cs as [|c cs IH]; intros w t Hc Hw; [done |].
  destruct Hc as [Ht Hc]. apply (IH _ (c_now c)); [done |]. by eapply gate_all_acct.
Qed.

(** ** The deadline *)

Lemma policy_nonneg env running current c :
  _glm53_mixed_prefill_policy env running current = Some c -> 0 <= c.
Proof.
  unfold _glm53_mixed_prefill_policy. case_if; [done |]. case_if.
  - case_if; [intros [= <-]; lia | done].
  - case_if; [done |]. case_if; [intros [= <-]; bool_to_prop; lia | done].
Qed.

Lemma set_capped_seen s now a : first_seen (_glm53_set_capped s now a) = first_seen s.
Proof. unfold _glm53_set_capped. by destruct (late_at s), a, (capped_at s). Qed.

Lemma note_seen s n : first_seen (note_position s n) = first_seen s.
Proof. unfold note_position. destruct (last_computed s); [case_if|]; done. Qed.

Lemma finish_seen s now : first_seen (finish_crawl s now) = first_seen s.
Proof.
  unfold finish_crawl. destruct (late_at s); [|done]. destruct (done s); [done |].
  apply set_capped_seen.
Qed.

Lemma held_seen cfg c remaining now s :
  first_seen (snd (held cfg c remaining now s)) = Some (default now (first_seen s)).
Proof. unfold held. case_if; simpl; [done |]. by rewrite set_capped_seen. Qed.

(** An existing hold age is never lost, and the dict stays. *)
Lemma gate_core_keeps_seen cfg pol remaining n now s f r st' :
  first_seen s = Some f -> gate_core cfg pol remaining n now (Some s) = (r, st') ->
  exists s', st' = Some s' /\ first_seen s' = Some f.
Proof.
  intros Hf. unfold gate_core; simpl. case_if.
  { intros [= _ <-]. eexists. split; [done |]. by rewrite finish_seen, note_seen. }
  destruct pol as [c|]; [|intros [= _ <-]; eexists; split; [done|]; by rewrite set_capped_seen, note_seen].
  case_if; [intros [= _ <-]; eexists; split; [done|]; by rewrite set_capped_seen, note_seen|].
  case_if; [intros [= _ <-]; eexists; split; [done|]; by rewrite note_seen|].
  pose proof (held_seen cfg c remaining now (note_position s n)) as Hh.
  destruct (held _ _ _ _ _) as [r1 s1]. intros [= _ <-]. exists s1. split; [done |].
  cbn [snd] in Hh. by rewrite Hh, note_seen, Hf.
Qed.

(** A skip leaves a dict whose hold age is in the past, and it is before the
    deadline unless the deadline is off. *)
Lemma gate_core_skip cfg pol remaining n now st0 c st' :
  (forall s, st0 = Some s -> acct s now) -> 0 < max_wait_ms cfg ->
  gate_core cfg pol remaining n now st0 = (Some c, st') -> c <= 0 ->
  exists s' f, st' = Some s' /\ first_seen s' = Some f /\ (f <= now)%Q /\
    (ms (now - f) < inject_Z (max_wait_ms cfg))%Q /\
    f = default now (st0 ≫= first_seen) /\ warm_tokens cfg < remaining.
Proof.
  intros Hst Hmax. unfold gate_core. set (st := _ <$> st0).
  destruct (remaining <=? warm_tokens cfg) eqn:Ew; [done |].
  destruct pol as [p|]; [|done].
  case_if; [intros [= -> _]; bool_to_prop; lia |].
  case_if; [bool_to_prop; lia |].
  set (s := default _ st).
  assert (first_seen s = st0 ≫= first_seen) as Hseen.
  { subst s st. destruct st0; simpl; [apply note_seen | done]. }
  unfold held. case_if; [|intros [= <- _] Hc; lia].
  intros [= -> <-] Hc. bool_to_prop.
  eexists _, _. split; [done | split; [done |]]. simpl. rewrite Hseen.
  assert (~ inject_Z (max_wait_ms cfg) <= ms (now - default now (st0 ≫= first_seen)))%Q as Hn.
  { rewrite Hseen in *. intros H. apply Qle_bool_iff in H. congruence. }
  apply Qnot_le_lt in Hn. split; [|split; [done | split; [done | lia]]].
  destruct st0 as [s0|]; simpl; [|lra]. destruct (first_seen s0) as [f|] eqn:Ef; simpl; [|lra].
  destruct (Hst s0 eq_refl) as [Hf _]. by rewrite Ef in Hf.
Qed.

(** On a class that accepts attributes the fallback map is never used, other
    requests' dicts are untouched, and an existing hold age survives. *)
Lemma gate_settable env w running current n now :
  fallback w = [] -> g_settable current = true ->
  let w' := snd (_glm53_mixed_prefill_gate env w running current n now) in
  fallback w' = [] /\
  (forall o, o <> g_obj current -> attr_states w' !! o = attr_states w !! o) /\
  (forall s f, attr_states w !! g_obj current = Some s -> first_seen s = Some f ->
     exists s', attr_states w' !! g_obj current = Some s' /\ first_seen s' = Some f).
Proof.
  intros Hfb Hset. cbv zeta. unfold _glm53_mixed_prefill_gate. cbv zeta.
  case_if; [by eauto |].
  unfold _glm53_gate_state, _glm53_fallback_get. rewrite Hfb; cbn [assoc].
  destruct (attr_states w !! g_obj current) as [s|] eqn:Es.
  - destruct (gate_core _ _ _ _ _ _) as [r st'] eqn:Ec.
    destruct st' as [s'|]; cbn [snd].
    + unfold update_state. rewrite Es. cbn [attr_states fallback].
      split; [done | split].
      * intros o Ho. by rewrite lookup_insert_ne.
      * intros s1 f [= <-] Hf.
        destruct (gate_core_keeps_seen _ _ _ _ _ _ _ _ _ Hf Ec) as (s2 & [= ->] & Hs2).
        exists s2. by rewrite lookup_insert_eq.
    + split; [done | split; [done |]]. intros s1 f [= <-] Hf.
      by destruct (gate_core_keeps_seen _ _ _ _ _ _ _ _ _ Hf Ec) as (s2 & ? & _).
  - destruct (gate_core _ _ _ _ _ _) as [r [s'|]]; cbn [snd]; [|done].
    unfold create_state. rewrite Hset. cbn [attr_states fallback].
    split; [done | split; [|done]]. intros o Ho. by rewrite lookup_insert_ne.
Qed.

Definition all_settable (cs : list call) : Prop :=
  Forall (fun c => g_settable (c_current c) = true) cs.

Lemma run_calls_keep_seen env cs w o s f :
  all_settable cs -> fallback w = [] ->
  attr_states w !! o = Some s -> first_seen s = Some f ->
  exists s', attr_states (run_calls env cs w) !! o = Some s' /\ first_seen s' = Some f.
Proof.
  intros Hall. revert w s; induction Hall as [|c cs Hc _ IH]; intros w s Hfb Hs Hf; [by exists s |].
  destruct (gate_settable env w (c_running c) (c_current c) (c_computed c) (c_now c) Hfb Hc)
    as (Hfb' & Hother & Hown).
  unfold run_calls; cbn [fold_left]; fold (run_calls env cs).
  change (snd (_glm53_mixed_prefill_gate _ _ _ _ _ _)) with (snd (run_call env w c)) in *.
  destruct (decide (o = g_obj (c_current c))) as [->|Hne].
  - destruct (Hown s f Hs Hf) as (s' & Hs' & Hf'). by apply (IH _ s').
  - apply (IH _ s); [done | by rewrite Hother | done].
Qed.

Lemma run_calls_fallback env cs w :
  all_settable cs -> fallback w = [] -> fallback (run_calls env cs w) = [].
Proof.
  intros Hall. revert w; induction Hall as [|c cs Hc _ IH]; intros w Hfb; [done |].
  apply IH. by apply (gate_settable env w (c_running c) (c_current c) (c_computed c) (c_now c)).
Qed.

(** After a skip of a fresh or held request, its dict records a past hold age. *)
Lemma skip_records env w c t k :
  (t <= c_now c)%Q -> fallback w = [] -> g_settable (c_current c) = true ->
  all_states (fun s => acct s t) w -> 0 < max_wait_ms (_glm53_gate_config env) ->
  fst (run_call env w c) = Some k -> k <= 0 ->
  exists s f, attr_states (snd (run_call env w c)) !! g_obj (c_current c) = Some s /\
    first_seen s = Some f /\ (f <= c_now c)%Q.
Proof.
  intros Ht Hfb Hset [Ha _] Hmax. unfold run_call, _glm53_mixed_prefill_gate. cbv zeta.
  case_if; [done |]. unfold _glm53_gate_state, _glm53_fallback_get. rewrite Hfb; cbn [assoc].
  destruct (attr_states w !! g_obj (c_current c)) as [s0|] eqn:Es.
  - destruct (gate_core _ _ _ _ _ _) as [r st'] eqn:Ec. cbn [fst snd]. intros -> Hk.
    eapply gate_core_skip in Ec as (s' & f & -> & Hf & Hle & _); [|intros s [= <-]; eapply acct_mono; eauto|done|done].
    unfold update_state. rewrite Es. exists s', f. cbn [attr_states]. by rewrite lookup_insert_eq.
  - destruct (gate_core _ _ _ _ _ _) as [r st'] eqn:Ec. cbn [fst snd]. intros -> Hk.
    eapply gate_core_skip in Ec as (s' & f & -> & Hf & Hle & _); [|done|done|done].
    unfold create_state. rewrite Hset. exists s', f. cbn [attr_states]. by rewrite lookup_insert_eq.
Qed.

Lemma clock_app t cs cs' : clock_from t (cs ++ cs') <-> clock_from t cs /\ clock_from (clock_end t cs) cs'.
Proof.
  revert t; induction cs as [|c cs IH]; intros t; simpl; [naive_solver |].
  rewrite IH. unfold clock_end; simpl. tauto.
Qed.

(** A call at or past the deadline of a recorded hold age never skips. *)
Lemma deadline_step env w c k s f c1_now t :
  attr_states w !! g_obj (c_current c) = Some s -> first_seen s = Some f ->
  all_states (fun s => acct s t) w -> (t <= c_now c)%Q ->
  0 < max_wait_ms (_glm53_gate_config env) -> (f <= c1_now)%Q ->
  (inject_Z (max_wait_ms (_glm53_gate_config env)) <= ms (c_now c - c1_now))%Q ->
  fst (run_call env w c) = Some k -> ~ k <= 0.
Proof.
  intros Hs Hf [Ha _] Ht Hmax Hle Hwait. unfold run_call, _glm53_mixed_prefill_gate. cbv zeta.
  case_if; [done |]. unfold _glm53_gate_state. rewrite Hs.
  destruct (gate_core _ _ _ _ _ _) as [r st'] eqn:Ec. cbn [fst snd]. intros -> Hk.
  eapply gate_core_skip in Ec as (s' & f' & _ & _ & _ & Hlt & Hf' & _);
    [|intros s0 [= <-]; eapply acct_mono; eauto|done|done].
  simpl in Hf'. rewrite Hf in Hf'. simpl in Hf'. subst f'. unfold ms in *. lra.
Qed.

(** ** The age of the late cap *)

Lemma _int_bounds env name dflt lo hi : lo <= dflt <= hi -> lo <= _int env name dflt lo hi <= hi.
Proof.
  intros Hd. unfold _int. destruct (env !! name) as [raw|]; [|lia].
  destruct (strip raw) as [|ch s']; [lia |]. destruct (parse_int _); [|lia].
  case_if; [lia |]. apply orb_false_iff in Heqb as [? ?]. bool_to_prop. lia.
Qed.

Lemma gate_config_wf env :
  let cfg := _glm53_gate_config env in
  0 <= warm_tokens cfg <= 1000000 /\ 0 <= max_wait_ms cfg <= 600000 /\
  64 <= late_cap cfg /\ late_cap cfg <= late_cap_max cfg <= 8192 /\ 0 <= escalate_ms cfg.
Proof.
  pose proof (_int_bounds env "GLM53_MIXED_PREFILL_WARM_TOKENS" 3584 0 1000000 ltac:(lia)).
  pose proof (_int_bounds env "GLM53_MIXED_PREFILL_MAX_WAIT_MS" 1500 0 600000 ltac:(lia)).
  pose proof (_int_bounds env "GLM53_MIXED_PREFILL_LATE_CAP" 512 64 8192 ltac:(lia)).
  pose proof (_int_bounds env "GLM53_MIXED_PREFILL_LATE_CAP_MAX" 1792 64 8192 ltac:(lia)).
  pose proof (_int_bounds env "GLM53_MIXED_PREFILL_ESCALATE_MS" 0 0 600000 ltac:(lia)).
  unfold _glm53_gate_config; cbn [warm_tokens max_wait_ms late_cap escalate_ms late_cap_max].
  repeat split; try lia; case_if; bool_to_prop; lia.
Qed.

Lemma Qfloor_ms_mono e1 e2 k : (e1 <= e2)%Q -> 0 < k ->
  Qfloor (ms e1 / inject_Z k) <= Qfloor (ms e2 / inject_Z k).
Proof.
  intros He Hk. apply Qfloor_resp_le. unfold Qdiv. apply Qmult_le_compat_r; [unfold ms; lra |].
  apply Qinv_le_0_compat. change 0%Q with (inject_Z 0). rewrite <- Zle_Qle. lia.
Qed.

Lemma Qfloor_ms_nonneg e k : (0 <= e)%Q -> 0 < k -> 0 <= Qfloor (ms e / inject_Z k).
Proof.
  intros He Hk. pose proof (Qfloor_ms_mono 0 e k He Hk) as Hm.
  assert (Qfloor (ms 0 / inject_Z k) = 0) as E; [|lia].
  rewrite <- (Qfloor_Z 0). apply Qfloor_comp. unfold ms, Qdiv. by rewrite !Qmult_0_l.
Qed.

Lemma aged_cap_mono cfg e1 e2 :
  0 <= late_cap cfg <= late_cap_max cfg -> (0 <= e1)%Q -> (e1 <= e2)%Q ->
  late_cap cfg <= aged_cap cfg e1 <= aged_cap cfg e2 /\ aged_cap cfg e2 <= late_cap_max cfg.
Proof.
  intros Hc He1 He2. unfold aged_cap. case_if; bool_to_prop; [|lia].
  pose proof (Qfloor_ms_nonneg e1 (escalate_ms cfg) He1 ltac:(lia)).
  pose proof (Qfloor_ms_mono e1 e2 (escalate_ms cfg) He2 ltac:(lia)).
  set (d1 := Qfloor (ms e1 / _)) in *. set (d2 := Qfloor (ms e2 / _)) in *.
  rewrite !Z.shiftl_mul_pow2 by lia.
  assert (2 ^ 0 <= 2 ^ Z.min d1 8)%Z by (apply Z.pow_le_mono_r; lia).
  assert (2 ^ Z.min d1 8 <= 2 ^ Z.min d2 8)%Z by (apply Z.pow_le_mono_r; lia).
  change (2 ^ 0)%Z with 1 in *. nia.
Qed.

(** ** Properties *)


(** A 50,000-token cold prefill behind one decoding peer, polled at 0 s, then at
    1.5 s: skipped, then admitted at the base late cap. *)
Definition demo_peer : greq := GReq 1 (Some "peer"%string) 100 100 90 true.
Definition demo_req : greq := GReq 2 (Some "cold"%string) 50000 0 50000 true.
Definition demo_call (now : Q) : call := Call [demo_peer; demo_req] demo_req 0 now.


(** C19. The two crawl figures of the completion log are consistent over every
    trace of calls with a non-decreasing clock: for every request that is late,
    the capped time is non-negative and, together with the interval still open,
    at most the wall time since it became late; and nothing is accounted for a
    request that is not late. *)
Theorem crawl_accounting_sound env (cs : list call) (t0 : Q) (Hclock : clock_from t0 cs) o s
    (Hs : attr_states (run_calls env cs empty_world) !! o = Some s) :
  let t := clock_end t0 cs in
  match late_at s with
  | None => capped_at s = None /\ capped_s s = None
  | Some l =>
      (0 <= default 0%Q (capped_s s))%Q /\
      (default 0%Q (capped_s s) + match capped_at s with Some c => t - c | None => 0 end <= t - l)%Q
  end.
Proof.
  assert (all_states (fun s => acct s (clock_end t0 cs)) (run_calls env cs empty_world)) as [Ha _].
  { apply run_calls_acct; [done | apply empty_world_all]. }
  destruct (Ha o s Hs) as [_ Hl]. cbv zeta. destruct (late_at s) as [l|]; [|done].
  destruct Hl as (Hlt & H0 & Hc). split; [done |].
  destruct (capped_at s) as [c|]; [destruct Hc as (? & ? & ?)|]; lra.
Qed.

Lemma crawl_accounting_sound_witness :
  exists s l, attr_states (run_calls ∅ [demo_call 0; demo_call 2; demo_call 5] empty_world) !! 2%nat = Some s /\
    late_at s = Some l /\ (0 <= default 0%Q (capped_s s))%Q.
Proof.
  destruct (attr_states (run_calls ∅ [demo_call 0; demo_call 2; demo_call 5] empty_world) !! 2%nat)
    as [s|] eqn:Hs; [|vm_compute in Hs; discriminate].
  assert (clock_from 0 [demo_call 0; demo_call 2; demo_call 5]) as Hc
    by (simpl; repeat split; unfold Qle; simpl; lia).
  pose proof (crawl_accounting_sound ∅ _ 0%Q Hc 2%nat s Hs) as Ha.
  vm_compute in Hs. injection Hs as <-. cbv zeta in Ha. simpl in Ha.
  eexists _, _. split; [reflexivity | split; [reflexivity |]]. exact (proj1 Ha).
Defined.

(** Aging: on the parsed knobs, the late cap starts at
    [GLM53_MIXED_PREFILL_LATE_CAP], never decreases while the request stays
    late, and never exceeds [GLM53_MIXED_PREFILL_LATE_CAP_MAX]. *)
Theorem late_cap_ages_monotonically env (e1 e2 : Q) (H1 : (0 <= e1)%Q) (H2 : (e1 <= e2)%Q) :
  let cfg := _glm53_gate_config env in
  64 <= late_cap cfg /\ late_cap cfg <= aged_cap cfg e1 <= aged_cap cfg e2 /\
  aged_cap cfg e2 <= late_cap_max cfg <= 8192.
Proof.
  destruct (gate_config_wf env) as (_ & _ & Hlo & Hmax & _). cbv zeta.
  destruct (aged_cap_mono (_glm53_gate_config env) e1 e2) as [Ha Hb]; [lia | done | done | lia].
Qed.

Definition demo_aging : environ := {[ "GLM53_MIXED_PREFILL_ESCALATE_MS"%string := "1000"%string ]}.

Lemma late_cap_ages_monotonically_witness :
  aged_cap (_glm53_gate_config demo_aging) (3 # 2) = 1024 /\
  aged_cap (_glm53_gate_config demo_aging) (3 # 2) <= aged_cap (_glm53_gate_config demo_aging) 9.
Proof.
  split; [vm_compute; reflexivity |].
  apply (late_cap_ages_monotonically demo_aging (3 # 2) 9); unfold Qle; simpl; lia.
Defined.

(** The gate holds a request back only when it must: a returned cap of 0
    (or less) means some other running request is decoding, the uncached
    remainder exceeds the bypass threshold, and the request has not waited out
    the deadline. *)
Theorem skip_only_when_needed env w running current n now k t
    (Ht : (t <= now)%Q) (Hw : all_states (fun s => acct s t) w)
    (Hskip : fst (_glm53_mixed_prefill_gate env w running current n now) = Some k) (Hk : k <= 0) :
  (exists r, r ∈ running /\ decoding_peer current r = true) /\
  warm_tokens (_glm53_gate_config env) < g_num_tokens current - n /\
  (0 < max_wait_ms (_glm53_gate_config env) ->
     forall s f, attr_states w !! g_obj current = Some s -> first_seen s = Some f ->
       (ms (now - f) < inject_Z (max_wait_ms (_glm53_gate_config env)))%Q).
Proof.
  destruct Hw as [Ha Hb]. revert Hskip. unfold _glm53_mixed_prefill_gate. cbv zeta.
  case_if; [done |].
  destruct (gate_state_all (fun s => acct s now) w current) as [Hst _].
  { split; intros; eapply acct_mono; eauto. }
  destruct (_glm53_gate_state w current) as [st0 w0] eqn:Eg. simpl in Hst.
  destruct (gate_core _ _ _ _ _ _) as [r st'] eqn:Ec. cbn [fst]. intros ->.
  split; [|split].
  - revert Ec. unfold gate_core. case_if; [done |].
    destruct (_glm53_mixed_prefill_policy env running current) as [c|] eqn:Ep; [|done].
    intros _. unfold _glm53_mixed_prefill_policy in Ep. case_if_in Ep; [done |].
    destruct (if existsb _ ["skip"; "-1"]%string then _ else _); [|done].
    case_if_in Ep; [|done]. apply existsb_exists in Heqb2 as (p & Hin & Hp).
    exists p. split; [by apply list_elem_of_In | done].
  - revert Ec. unfold gate_core. case_if; [done |]. intros _. bool_to_prop. lia.
  - intros Hmax s f Hs Hf.
    eapply gate_core_skip in Ec as (s' & f' & _ & _ & _ & Hlt & Hf' & _); [|done|done|done].
    unfold _glm53_gate_state in Eg. rewrite Hs in Eg. injection Eg as <- <-.
    simpl in Hf'. rewrite Hf in Hf'. simpl in Hf'. by subst f'.
Qed.

Lemma skip_only_when_needed_witness :
  fst (_glm53_mixed_prefill_gate ∅ empty_world [demo_peer; demo_req] demo_req 0 0) = Some 0 /\
  exists r, r ∈ [demo_peer; demo_req] /\ decoding_peer demo_req r = true.
Proof.
  assert (fst (_glm53_mixed_prefill_gate ∅ empty_world [demo_peer; demo_req] demo_req 0 0) = Some 0)
    as H0 by (vm_compute; reflexivity).
  split; [exact H0 |].
  refine (proj1 (skip_only_when_needed ∅ empty_world [demo_peer; demo_req] demo_req 0 0 0 0%Q _
    (empty_world_all _) H0 _)); [unfold Qle; simpl; lia | lia].
Defined.
