(* ===== verification/AdaptiveK.v ===== *)
(** * Adaptive verification length

    Model of the policy class [_Glm53AdaptiveK] and of the edited
    [update_draft_token_ids] that [overlay/patch_adaptive_k.py] installs in
    vLLM's scheduler, and of the CUDA-graph length helper it installs in
    [cudagraph_utils.py].  Python floats are exact rationals; the JSON override
    file is an input of each call that may read it. *)
From Stdlib Require Import Ascii ZArith Lia QArith Qround Qminmax Lqa.
From stdpp Require Import base list gmap strings numbers pretty.
From S2P Require Import Prelude.
#[local] Open Scope string_scope.
#[local] Open Scope list_scope.
#[local] Open Scope Z_scope.

(** ** Data *)

(** A parsed JSON value; [JObj] is an object, [JFloat] a number with a point or
    an exponent. *)
Inductive json :=
  | JNull
  | JBool (b : bool)
  | JInt (z : Z)
  | JFloat (q : Q)
  | JStr (s : string)
  | JList (l : list json)
  | JObj.

(** The settings the override file may change. *)
Record knobs := Knobs {
  enabled : bool;
  alpha : Q;
  margin : Q;
  min_steps : Z;
  saturate : string;
  k_set : list Z
}.

(** The policy object.  [state] maps a request id to its EMA and to the number
    of its observations. *)
Record policy := Policy {
  kn : knobs;
  graphs_enabled : bool;
  hist_every : Z;
  batch_margin : bool;
  pos_trim : bool;
  state : gmap string (Q * Q);
  hist : gmap Z Z;
  steps : Z;
  k_max : Z;
  boot_set : list Z;
  boot_enabled : bool;
  file_mtime : option Z
}.

(** What [os.stat] and [json.load] find: nothing, or a modification time and
    either the top-level object or an exception. *)
Abbreviation file_state := (option (Z * res (gmap string json))).

(** The requests' [spec_token_ids]: the draft tokens of each live request. *)
Abbreviation store := (gmap string (list Z)).

Definition with_kn (p : policy) (k : knobs) : policy :=
  Policy k (graphs_enabled p) (hist_every p) (batch_margin p) (pos_trim p) (state p) (hist p)
    (steps p) (k_max p) (boot_set p) (boot_enabled p) (file_mtime p).
Definition with_state (p : policy) (s : gmap string (Q * Q)) : policy :=
  Policy (kn p) (graphs_enabled p) (hist_every p) (batch_margin p) (pos_trim p) s (hist p)
    (steps p) (k_max p) (boot_set p) (boot_enabled p) (file_mtime p).
Definition with_hist (p : policy) (h : gmap Z Z) : policy :=
  Policy (kn p) (graphs_enabled p) (hist_every p) (batch_margin p) (pos_trim p) (state p) h
    (steps p) (k_max p) (boot_set p) (boot_enabled p) (file_mtime p).
Definition with_steps (p : policy) (n : Z) : policy :=
  Policy (kn p) (graphs_enabled p) (hist_every p) (batch_margin p) (pos_trim p) (state p) (hist p)
    n (k_max p) (boot_set p) (boot_enabled p) (file_mtime p).
Definition with_mtime (p : policy) (m : option Z) : policy :=
  Policy (kn p) (graphs_enabled p) (hist_every p) (batch_margin p) (pos_trim p) (state p) (hist p)
    (steps p) (k_max p) (boot_set p) (boot_enabled p) m.

(** ** Construction *)

Definition mode_on (s : string) : bool := existsb (String.eqb s) ["ema"; "on"; "1"].
Definition flag_on (s : string) : bool := existsb (String.eqb s) ["1"; "on"; "true"; "yes"].

(** [os.environ.get(name, d).strip().lower()]. *)
Definition env_word (env : environ) (name d : string) : string :=
  lower (strip (environ_get env name d)).
Definition env_float (env : environ) (name d : string) : res Q :=
  of_option ValueError (parse_float (environ_get env name d)).
Definition env_int (env : environ) (name d : string) : res Z :=
  of_option ValueError (parse_int (environ_get env name d)).

(** [{int(x) for x in raw.split(",") if x.strip()}], in source order. *)
Definition int_list (raw : string) : res (list Z) :=
  mapM (fun x => of_option ValueError (parse_int x))
    (base.filter (fun x => strip x <> "") (split_char ","%char raw)).

Section with_repr.
(** [str(v)] of a value that is neither a string nor an integer. *)
Variable repr : json -> string.

Definition json_str (v : json) : string :=
  match v with
  | JStr s => s
  | JInt z => pretty z
  | v => repr v
  end.

Definition json_float (v : json) : res Q :=
  match v with
  | JInt z => Ok (inject_Z z)
  | JFloat q => Ok q
  | JBool b => Ok (inject_Z (Z.b2z b))
  | JStr s => of_option ValueError (parse_float s)
  | _ => Raise TypeError
  end.

Definition json_int (v : json) : res Z :=
  match v with
  | JInt z => Ok z
  | JFloat q => Ok (Z.quot (Qnum q) (Zpos (Qden q)))
  | JBool b => Ok (Z.b2z b)
  | JStr s => of_option ValueError (parse_int s)
  | _ => Raise TypeError
  end.

(** The set comprehension over [cfg["set"]]. *)
Definition json_set (v : json) : res (list Z) :=
  match v with
  | JList l => mapM json_int l
  | v => mapM (fun x => of_option ValueError (parse_int x)) (split_char ","%char (json_str v))
  end.

(** The [try] block of [_reload]: each assignment takes effect before the next
    one is evaluated; [false] when an exception ended the block. *)
Definition load_cfg (p : policy) (cfg : gmap string json) : policy * bool :=
  let k := kn p in
  let mode := lower (strip (json_str (default (JStr "ema") (cfg !! "mode")))) in
  let k := Knobs (mode_on mode) (alpha k) (margin k) (min_steps k) (saturate k) (k_set k) in
  match from_option json_float (Ok (alpha k)) (cfg !! "alpha") with
  | Raise _ => (with_kn p k, false)
  | Ok a =>
  let k := Knobs (enabled k) a (margin k) (min_steps k) (saturate k) (k_set k) in
  match from_option json_float (Ok (margin k)) (cfg !! "margin") with
  | Raise _ => (with_kn p k, false)
  | Ok m =>
  let k := Knobs (enabled k) (alpha k) m (min_steps k) (saturate k) (k_set k) in
  match from_option json_int (Ok (min_steps k)) (cfg !! "min_steps") with
  | Raise _ => (with_kn p k, false)
  | Ok ms =>
  let sat := lower (strip (from_option json_str (saturate k) (cfg !! "saturate"))) in
  let k := Knobs (enabled k) (alpha k) (margin k) ms sat (k_set k) in
  match cfg !! "set" with
  | None => (with_hist (with_state (with_kn p k) ∅) ∅, true)
  | Some v =>
      match json_set v with
      | Raise _ => (with_kn p k, false)
      | Ok want =>
          let both := sorted_set (base.filter (fun x => x ∈ boot_set p) want) in
          let ks := match both with [] => boot_set p | _ => both end in
          let k := Knobs (enabled k) (alpha k) (margin k) (min_steps k) (saturate k) ks in
          (with_hist (with_state (with_kn p k) ∅) ∅, true)
      end
  end end end end.

(** [_reload]. *)
Definition _reload (p : policy) (fs : file_state) : policy :=
  if negb (boot_enabled p) then p
  else
    let mtime := fst <$> fs in
    if decide (mtime = file_mtime p) then p
    else
      let p := with_mtime p mtime in
      match fs with
      | None => p
      | Some (_, Raise _) => p
      | Some (_, Ok cfg) => fst (load_cfg p cfg)
      end.

(** [if self.steps % 50 == 0: self._reload()]. *)
Definition tick (p : policy) (fs : file_state) : policy :=
  if steps p mod 50 =? 0 then _reload p fs else p.

(** [__init__]. *)
Definition init (env : environ) (fs : file_state) : res policy :=
  let mode := env_word env "GLM53_ADAPTIVE_K" "off" in
  let capture := env_word env "GLM53_ADAPTIVE_K_CAPTURE" "0" in
  let en := mode_on mode in
  let graphs := en || flag_on capture in
  a ← env_float env "GLM53_ADAPTIVE_K_ALPHA" "0.25";
  m ← env_float env "GLM53_ADAPTIVE_K_MARGIN" "1.0";
  ms ← env_int env "GLM53_ADAPTIVE_K_MIN_STEPS" "4";
  ks ← int_list (environ_get env "GLM53_ADAPTIVE_K_SET" "2,4,7");
  let ks := sorted_set ks in
  let sat := env_word env "GLM53_ADAPTIVE_K_SATURATE" "max" in
  he ← env_int env "GLM53_ADAPTIVE_K_HIST" "200";
  let bm := flag_on (env_word env "GLM53_ADAPTIVE_K_BATCH_MARGIN" "0") in
  let pt := flag_on (env_word env "GLM53_ADAPTIVE_K_POS_TRIM" "0") in
  mret (_reload (Policy (Knobs en a m ms sat ks) graphs he bm pt ∅ ∅ 0 (max_list 0 ks) ks en None) fs).

(** ** Observation and choice *)

(** [observe]. *)
Definition observe (p : policy) (req_id : string) (num_draft num_accepted : Z) : policy :=
  if negb (enabled (kn p)) || (num_draft <=? 0) then p
  else
    let a := alpha (kn p) in
    let obs :=
      if (num_draft <=? num_accepted) && negb (String.eqb (saturate (kn p)) "n")
      then inject_Z (Z.max (k_max p) num_draft) else inject_Z num_accepted in
    match state p !! req_id with
    | None => with_state p (<[req_id := ((obs * a + inject_Z (k_max p) * (1 - a))%Q, 1%Q)]> (state p))
    | Some (ema, n) => with_state p (<[req_id := ((obs * a + ema * (1 - a))%Q, (n + 1)%Q)]> (state p))
    end.

(** [choose]; [min(self.k_set)] raises on an empty set. *)
Definition choose (p : policy) (req_id : string) (k : Z) (structured : bool) : res (option Z) :=
  if negb (enabled (kn p)) || structured || (k <=? 0) then Ok None
  else
    match state p !! req_id with
    | None => Ok None
    | Some (ema, n) =>
        if negb (Qle_bool (inject_Z (min_steps (kn p))) n) then Ok None
        else
          let target := Qceiling (ema + margin (kn p)) in
          match base.filter (fun v => v <= Z.min target k) (k_set (kn p)), k_set (kn p) with
          | [], [] => Raise ValueError
          | [], ks => Ok (Some (Z.max 1 (Z.min (min_list 0 ks) k)))
          | cands, _ => Ok (Some (Z.max 1 (Z.min (max_list 0 cands) k)))
          end
    end.

(** ** Batch trimming *)

Definition spec_token_ids (s : store) (r : string) : list Z := default [] (s !! r).
Definition spec_len (s : store) (r : string) : Z := Z.of_nat (length (spec_token_ids s r)).

(** [_margin_width]. *)
Definition _margin_width (p : policy) (reqs : list (string * bool)) (picks : list (option Z))
  : option Z :=
  if negb (batch_margin p) || existsb snd reqs then None
  else match omap id picks with [] => None | known => Some (min_list 0 known) end.

(** [_pos_width]. *)
Definition _pos_width (p : policy) (reqs : list (string * bool)) (picks : list (option Z)) (n : Z)
  : option Z :=
  if negb (pos_trim p && batch_margin p) then None
  else if existsb snd reqs then None
  else if (length reqs <? 2)%nat then None
  else if existsb (fun v => bool_decide (v = None)) picks then None
  else
    let floor := match k_set (kn p) with [] => n | ks => min_list 0 ks end in
    if floor <? n then Some (Z.min n floor) else None.

(** [_count]: the histogram, and the pruning of dead requests. *)
Definition _count (p : policy) (n : Z) (live : gset string) : policy :=
  let p := with_hist p (<[n := default 0 (hist p !! n) + 1]> (hist p)) in
  let p := with_steps p (steps p + 1) in
  if (0 <? hist_every p) && (steps p mod hist_every p =? 0)
  then with_state p (base.filter (fun kv => kv.1 ∈ live) (state p))
  else p.

(** The row width [apply] settles on. *)
Definition batch_width (p : policy) (s : store) (reqs : list (string * bool))
    (picks : list (option Z)) : Z :=
  if forallb (fun v => bool_decide (v <> None)) picks then
    let n := min_list 0 (omap id picks) in
    default n (_pos_width p reqs picks n)
  else
    default (max_list 0 (map (fun r => spec_len s r.1) reqs)) (_margin_width p reqs picks).

(** The trimming loop. *)
Definition trim (n : Z) (s : store) (r : string) : store :=
  if n <? spec_len s r then <[r := slice_to n (spec_token_ids s r)]> s else s.
Definition trim_all (n : Z) (s : store) (rs : list string) : store := fold_left (trim n) rs s.

(** [apply]. *)
Definition apply (p : policy) (fs : file_state) (s : store) (reqs : list (string * bool))
    (live : gset string) : res (policy * store) :=
  let p := tick p fs in
  if negb (enabled (kn p)) || bool_decide (reqs = []) then Ok (with_steps p (steps p + 1), s)
  else
    picks ← mapM (fun r => choose p r.1 (spec_len s r.1) r.2) reqs;
    let n := batch_width p s reqs picks in
    mret (_count p n live, trim_all n s (map fst reqs)).

(** [batch_k], the helper kept for unit tests; [None] stands for a request that
    is missing or a prefill chunk. *)
Fixpoint batch_choices (p : policy) (k : Z) (reqs : list (option (string * bool)))
  : res (option (list Z)) :=
  match reqs with
  | [] => Ok (Some [])
  | None :: reqs' => batch_choices p k reqs'
  | Some (r, structured) :: reqs' =>
      c ← choose p r k structured;
      match c with
      | None => Ok None
      | Some n => ns ← batch_choices p k reqs'; Ok (option_map (cons n) ns)
      end
  end.

Definition batch_k (p : policy) (fs : file_state) (k : Z) (reqs : list (option (string * bool)))
    (live : gset string) : res (Z * policy) :=
  let p := tick p fs in
  if negb (enabled (kn p)) || (k <=? 0) then Ok (k, with_steps p (steps p + 1))
  else
    ns ← batch_choices p k reqs;
    let n := match ns with None | Some [] => k | Some ns => min_list 0 ns end in
    mret (n, _count p n live).

(** ** The scheduler hook *)

(** What [update_draft_token_ids] reads of a request. *)
Record request := Request {
  finished : bool;
  is_prefill_chunk : bool;
  should_advance : bool;
  validate_tokens : list Z -> list Z
}.

(** One iteration of the loop over the drafts: the store and [_ak_reqs]. *)
Definition update_one (p : policy) (requests : gmap string request)
    (acc : store * list (string * bool)) (d : string * list Z) : store * list (string * bool) :=
  let '(s, ak) := acc in
  let '(req_id, toks) := d in
  match requests !! req_id with
  | None => acc
  | Some r =>
      if finished r then acc
      else if is_prefill_chunk r then
        (match spec_token_ids s req_id with [] => s | _ => <[req_id := []]> s end, ak)
      else
        let toks := if should_advance r then validate_tokens r toks else toks in
        (<[req_id := toks]> s,
         if enabled (kn p) && bool_decide (toks <> []) then ak ++ [(req_id, should_advance r)] else ak)
  end.

Definition update_draft_token_ids (p : policy) (fs : file_state) (requests : gmap string request)
    (s : store) (drafts : list (string * list Z)) : res (policy * store) :=
  let '(s, ak) := fold_left (update_one p requests) drafts (s, []) in
  match ak with
  | [] => Ok (p, s)
  | _ => apply p fs s ak (dom requests)
  end.

(** ** CUDA-graph lengths *)

(** [_glm53_adaptive_k_query_lens]. *)
Definition _glm53_adaptive_k_query_lens (env : environ) (lens : list Z) (decode_query_len : Z)
  : res (list Z) :=
  let mode := env_word env "GLM53_ADAPTIVE_K" "off" in
  let capture := env_word env "GLM53_ADAPTIVE_K_CAPTURE" "0" in
  if negb (mode_on mode || flag_on capture) then Ok lens
  else
    ks ← int_list (environ_get env "GLM53_ADAPTIVE_K_SET" "2,4,7");
    let extra := map (fun k => k + 1)
      (base.filter (fun k => 0 < k + 1 <= decode_query_len) ks) in
    mret (sorted_set (lens ++ extra ++ [decode_query_len])).

End with_repr.

(** ** Runs of the policy *)

(** What the scheduler does to the policy object after construction. *)
Inductive event :=
  | Observe (r : string) (num_draft num_accepted : Z)
  | Update (fs : file_state) (requests : gmap string request) (s : store)
      (drafts : list (string * list Z))
  | BatchK (fs : file_state) (k : Z) (reqs : list (option (string * bool))) (live : gset string).

Section runs.
Variable repr : json -> string.

Definition exec (p : policy) (e : event) : res policy :=
  match e with
  | Observe r d a => Ok (observe p r d a)
  | Update fs requests s drafts => fst <$> update_draft_token_ids repr p fs requests s drafts
  | BatchK fs k reqs live => snd <$> batch_k repr p fs k reqs live
  end.

Fixpoint run (p : policy) (es : list event) : res policy :=
  match es with
  | [] => Ok p
  | e :: es' => p' ← exec p e; run p' es'
  end.

(** [P] relates every event of the run to the policy it meets, and holds of the
    policies between. *)
Fixpoint along (P : policy -> event -> Prop) (p : policy) (es : list event) : Prop :=
  match es with
  | [] => True
  | e :: es' => P p e /\ match exec p e with Ok p' => along P p' es' | Raise _ => True end
  end.

(** An induction principle: what every event preserves holds at the end. *)
Lemma run_invariant (I : policy -> Prop) (P : policy -> event -> Prop) es p p' :
  (forall q e q', I q -> P q e -> exec q e = Ok q' -> I q') ->
  I p -> along P p es -> run p es = Ok p' -> I p'.
Proof.
  intros Hstep. revert p. induction es as [|e es IH]; intros p Hp Hal Hr; simpl in *.
  - by injection Hr as <-.
  - destruct Hal as [HP Hal]. apply bind_Ok in Hr as (q & He & Hr). rewrite He in Hal.
    exact (IH q (Hstep _ _ _ Hp HP He) Hal Hr).
Qed.

(** ** The override file *)

Lemma load_cfg_shape p cfg :
  exists k, fst (load_cfg repr p cfg) = with_kn p k \/
            fst (load_cfg repr p cfg) = with_hist (with_state (with_kn p k) ∅) ∅.
Proof.
  unfold load_cfg. cbv zeta.
  destruct (from_option _ _ (cfg !! "alpha")) as [a|]; [|eexists; left; reflexivity].
  destruct (from_option _ _ (cfg !! "margin")) as [m|]; [|eexists; left; reflexivity].
  destruct (from_option _ _ (cfg !! "min_steps")) as [ms|]; [|eexists; left; reflexivity].
  destruct (cfg !! "set") as [v|]; [|eexists; right; reflexivity].
  destruct (json_set repr v) as [want|]; eexists; [right | left]; reflexivity.
Qed.

Lemma load_cfg_frame p cfg :
  let p' := fst (load_cfg repr p cfg) in
  graphs_enabled p' = graphs_enabled p /\ hist_every p' = hist_every p /\
  batch_margin p' = batch_margin p /\ pos_trim p' = pos_trim p /\ steps p' = steps p /\
  k_max p' = k_max p /\ boot_set p' = boot_set p /\ boot_enabled p' = boot_enabled p /\
  (state p' = state p \/ state p' = ∅).
Proof.
  cbv zeta. destruct (load_cfg_shape p cfg) as [k [-> | ->]]; repeat split; auto.
Qed.

Lemma load_cfg_k_set p cfg :
  let p' := fst (load_cfg repr p cfg) in
  k_set (kn p') = k_set (kn p) \/ k_set (kn p') = boot_set p \/
  (k_set (kn p') <> [] /\ k_set (kn p') ⊆ boot_set p).
Proof.
  unfold load_cfg. cbv zeta. destruct (from_option _ _ _) as [a|]; [|by left].
  destruct (from_option _ _ _) as [m|]; [|by left].
  destruct (from_option _ _ _) as [ms|]; [|by left].
  destruct (cfg !! "set") as [v|]; [|by left].
  destruct (json_set repr v) as [want|]; [|by left]. right. simpl.
  destruct (sorted_set _) as [|x l] eqn:E; [by left | right]. split; [done |].
  rewrite <- E. intros y Hy. by apply sorted_set_elem, list_elem_of_filter in Hy as [? _].
Qed.

Lemma reload_cases p fs :
  let p' := _reload repr p fs in
  p' = p \/ boot_enabled p = true /\
    (p' = with_mtime p (fst <$> fs) \/
     exists cfg, p' = fst (load_cfg repr (with_mtime p (fst <$> fs)) cfg)).
Proof.
  unfold _reload. cbv zeta. destruct (boot_enabled p); simpl; [|by left].
  case_decide; [by left | right]. split; [done |].
  destruct fs as [[t [cfg|]]|]; simpl; eauto.
Qed.

(** ** What construction fixes for good *)

(** The settings of the environment bound every later policy: the knob set
    stays inside the one parsed at boot, the policy is on only if it was on at
    boot. *)
Record boot_bounds (ks : list Z) (en : bool) (p : policy) : Prop := {
  bb_set : boot_set p = ks;
  bb_kmax : k_max p = max_list 0 ks;
  bb_boot : boot_enabled p = en;
  bb_on : enabled (kn p) = true -> en = true;
  bb_sub : k_set (kn p) ⊆ ks;
  bb_ne : k_set (kn p) = [] -> ks = []
}.

Lemma reload_bounds ks en p fs : boot_bounds ks en p -> boot_bounds ks en (_reload repr p fs).
Proof.
  intros [Hs Hm Hb Ho Hsub Hne].
  destruct (reload_cases p fs) as [->|[Hbe [->|[cfg ->]]]]; [by split | by split |].
  destruct (load_cfg_frame (with_mtime p (fst <$> fs)) cfg)
    as (_ & _ & _ & _ & _ & Hm' & Hs' & Hb' & _).
  pose proof (load_cfg_k_set (with_mtime p (fst <$> fs)) cfg) as Hk. simpl in *.
  split; try congruence.
  - intros z Hz. destruct Hk as [E|[E|[_ E]]].
    + apply Hsub. by rewrite <- E.
    + by rewrite <- Hs, <- E.
    + rewrite <- Hs. by apply E.
  - intros E0. destruct Hk as [E|[E|[E _]]]; [apply Hne; by rewrite <- E | by rewrite <- Hs, <- E | done].
Qed.

(** Everything but the statistics. *)
Definition settings (p : policy) :=
  (kn p, k_max p, boot_set p, boot_enabled p, batch_margin p, pos_trim p).

Lemma bounds_settings ks en p p' :
  settings p' = settings p -> boot_bounds ks en p -> boot_bounds ks en p'.
Proof. unfold settings. intros [= E1 E2 E3 E4 _ _] [? ? ? ? ? ?].
  split; rewrite ?E1, ?E2, ?E3, ?E4; done.
Qed.

Lemma count_settings p n live : settings (_count p n live) = settings p.
Proof. unfold _count. by case_if. Qed.

Lemma observe_settings p r d a : settings (observe p r d a) = settings p.
Proof. unfold observe. repeat case_match; done. Qed.

Lemma apply_settings p fs s reqs live p' s' :
  apply repr p fs s reqs live = Ok (p', s') -> settings p' = settings (tick repr p fs).
Proof.
  unfold apply. cbv zeta. case_if; [by intros [= <- _] |].
  intros (picks & _ & [= <- _])%bind_Ok. apply count_settings.
Qed.

Lemma batch_k_settings p fs k reqs live n p' :
  batch_k repr p fs k reqs live = Ok (n, p') -> settings p' = settings (tick repr p fs).
Proof.
  unfold batch_k. cbv zeta. case_if; [by intros [= _ <-] |].
  intros (ns & _ & [= _ <-])%bind_Ok. apply count_settings.
Qed.

(** An event reads the override file at most once, and otherwise changes only
    the statistics. *)
Lemma exec_settings p e p' :
  exec p e = Ok p' -> settings p' = settings p \/ exists fs, settings p' = settings (tick repr p fs).
Proof.
  destruct e as [r d a|fs requests s drafts|fs k reqs live]; simpl.
  - intros [= <-]. left. apply observe_settings.
  - unfold update_draft_token_ids. destruct (fold_left _ _ _) as [s1 ak].
    destruct ak as [|x ak]; [intros [= <-]; by left |].
    destruct (apply _ _ _ _ _ _) as [[q s']|] eqn:E; [|done]. intros [= <-].
    right. exists fs. by eapply apply_settings.
  - destruct (batch_k _ _ _ _ _ _) as [[n q]|] eqn:E; [|done]. intros [= <-].
    right. exists fs. by eapply batch_k_settings.
Qed.

Lemma tick_bounds ks en p fs : boot_bounds ks en p -> boot_bounds ks en (tick repr p fs).
Proof. unfold tick. case_if; [apply reload_bounds | done]. Qed.

Lemma exec_bounds ks en p e p' :
  boot_bounds ks en p -> exec p e = Ok p' -> boot_bounds ks en p'.
Proof.
  intros Hb [E|[fs E]]%exec_settings; eapply bounds_settings; eauto. by apply tick_bounds.
Qed.

Definition boot_set_of (env : environ) : res (list Z) :=
  sorted_set <$> int_list (environ_get env "GLM53_ADAPTIVE_K_SET" "2,4,7").

Definition boot_mode (env : environ) : bool := mode_on (env_word env "GLM53_ADAPTIVE_K" "off").

Lemma init_bounds env fs p :
  init repr env fs = Ok p ->
  exists ks, boot_set_of env = Ok ks /\ boot_bounds ks (boot_mode env) p.
Proof.
  unfold init. intros (a & _ & (m & _ & (ms & _ & (ks & Hks & (he & _ & [= <-])%bind_Ok)%bind_Ok)
    %bind_Ok)%bind_Ok)%bind_Ok.
  exists (sorted_set ks). unfold boot_set_of. rewrite Hks. split; [done |].
  apply reload_bounds. by split.
Qed.

Lemma run_bounds ks en es p p' :
  boot_bounds ks en p -> run p es = Ok p' -> boot_bounds ks en p'.
Proof.
  intros Hb Hr. apply (run_invariant (boot_bounds ks en) (fun _ _ => True) es p p'); auto.
  - intros q e q' Hq _. by apply exec_bounds.
  - clear. revert p. induction es as [|e es IH]; intros p; simpl; [done |].
    split; [done |]. destruct (exec p e); [apply IH | done].
Qed.

End runs.

(** ** Choices *)

Lemma omap_id_elem (l : list (option Z)) n : n ∈ omap id l <-> Some n ∈ l.
Proof.
  rewrite list_elem_of_omap. split; [intros (x & Hx & E) | intros H; by exists (Some n)].
  unfold id in E. by subst x.
Qed.

(** On a usable knob set a choice exists and lies between one row and the full
    length; it is a knob or the full length. *)
Lemma choose_spec p r k structured :
  k_set (kn p) <> [] -> (forall v, v ∈ k_set (kn p) -> 1 <= v) ->
  exists c, choose p r k structured = Ok c /\
    match c with
    | None => True
    | Some n => structured = false /\ 1 <= n <= k /\ (n ∈ k_set (kn p) \/ n = k)
    end.
Proof.
  intros Hne Hpos. unfold choose.
  case_if; [by exists None |]. bool_to_prop.
  destruct (state p !! r) as [[ema m]|]; [|by exists None].
  case_if; [by exists None |]. cbv zeta.
  set (cands := base.filter _ _).
  assert (forall v, v ∈ cands -> 1 <= v <= k /\ v ∈ k_set (kn p)) as Hc.
  { intros v (Hle & Hin)%list_elem_of_filter. specialize (Hpos v Hin). split; [lia | done]. }
  destruct cands as [|x l] eqn:E.
  - destruct (k_set (kn p)) as [|y ks] eqn:Ek; [done |]. eexists. split; [reflexivity |].
    split; [done |]. pose proof (min_list_in 0 (y :: ks) ltac:(done)) as Hin.
    pose proof (Hpos _ Hin). split; [lia |].
    destruct (Z.le_gt_cases (min_list 0 (y :: ks)) k); [left | right; lia].
    by replace (Z.max 1 (Z.min (min_list 0 (y :: ks)) k)) with (min_list 0 (y :: ks)) by lia.
  - eexists. split; [reflexivity |]. split; [done |].
    pose proof (max_list_in 0 (x :: l) ltac:(done)) as Hin. apply Hc in Hin as [Hb Hin].
    split; [lia | left].
    by replace (Z.max 1 (Z.min (max_list 0 (x :: l)) k)) with (max_list 0 (x :: l)) by lia.
Qed.

Lemma all_known (picks : list (option Z)) : forallb (fun v => bool_decide (v <> None)) picks = true ->
  forall c, c ∈ picks -> exists n, c = Some n.
Proof.
  intros H c Hc%list_elem_of_In. rewrite forallb_forall in H. specialize (H c Hc).
  destruct c; [eauto |]. by apply bool_decide_eq_true_1 in H.
Qed.

Section trimming.
Context (p : policy) (s : store) (reqs : list (string * bool)).
Hypothesis Hne : k_set (kn p) <> [].
Hypothesis Hpos : forall v, v ∈ k_set (kn p) -> 1 <= v.

Definition pick_of (r : string * bool) : res (option Z) := choose p r.1 (spec_len s r.1) r.2.

Lemma picks_exist : exists picks, mapM pick_of reqs = Ok picks.
Proof.
  induction reqs as [|r l [ps IH]]; [by exists [] |].
  destruct (choose_spec p r.1 (spec_len s r.1) r.2 Hne Hpos) as (c & Hc & _).
  exists (c :: ps). change (pick_of r = Ok c) in Hc. simpl. rewrite Hc. simpl. by rewrite IH.
Qed.

Context (picks : list (option Z)).
Hypothesis Hpicks : mapM pick_of reqs = Ok picks.

(** Every known choice comes from an unstructured request of the batch. *)
Lemma pick_source n :
  Some n ∈ picks -> exists r, (r, false) ∈ reqs /\ 1 <= n <= spec_len s r /\
    (n ∈ k_set (kn p) \/ n = spec_len s r).
Proof.
  intros Hin. apply mapM_Ok in Hpicks. clear Hne.
  induction Hpicks as [|x c l l' Hx H IH]; [by apply not_elem_of_nil in Hin |].
  apply elem_of_cons in Hin as [<-|Hin].
  - destruct (decide (k_set (kn p) = [])) as [E|E].
    + exfalso. revert Hx. unfold pick_of, choose. rewrite E. simpl. repeat case_match; done.
    + destruct (choose_spec p x.1 (spec_len s x.1) x.2 E Hpos) as (c & Hc & Hs).
      unfold pick_of in Hx. rewrite Hc in Hx. injection Hx as ->. destruct Hs as (Hst & Hb & Hk).
      exists x.1. split; [|done]. destruct x as [a b]. simpl in *. subst b. constructor.
  - destruct IH as (r & Hr & H'); [done |]. exists r. split; [by constructor | done].
Qed.

(** A structured request has no choice. *)
Lemma structured_unpicked r : (r, true) ∈ reqs -> None ∈ picks.
Proof.
  intros Hin. apply mapM_Ok in Hpicks.
  induction Hpicks as [|x c l l' Hx H IH]; [by apply not_elem_of_nil in Hin |].
  apply elem_of_cons in Hin as [<-|Hin]; [|right; by apply IH].
  unfold pick_of, choose in Hx. simpl in Hx. rewrite orb_true_r in Hx. injection Hx as <-. constructor.
Qed.

(** The settled width is at least one row; it is the full length of some
    request, or a knob. *)
Lemma batch_width_spec :
  reqs <> [] -> (forall r, r ∈ map fst reqs -> 1 <= spec_len s r) ->
  1 <= batch_width p s reqs picks /\
  (batch_width p s reqs picks ∈ k_set (kn p) \/
   exists r, r ∈ map fst reqs /\ batch_width p s reqs picks = spec_len s r).
Proof.
  intros Hr Hlen.
  assert (picks <> []) as Hpn.
  { intros ->. apply mapM_Ok in Hpicks. by inversion Hpicks. }
  assert (forall n, n ∈ omap id picks -> 1 <= n /\ (n ∈ k_set (kn p) \/
      exists r, r ∈ map fst reqs /\ n = spec_len s r)) as Hknown.
  { intros n (r & Hin & Hb & Hk)%omap_id_elem%pick_source. split; [lia |].
    destruct Hk as [|Hk]; [by left | right]. exists r. split; [|done].
    apply list_elem_of_fmap. by exists (r, false). }
  unfold batch_width. destruct (forallb _ _) eqn:Eall.
  - assert (omap id picks <> []) as Hk.
    { destruct picks as [|c l]; [done |].
      destruct (all_known _ Eall c) as [n ->]; [constructor | done]. }
    pose proof (Hknown _ (min_list_in 0 _ Hk)) as Hm.
    unfold _pos_width. repeat (case_if; simpl; [done |]).
    destruct (k_set (kn p)) as [|y ks] eqn:Ek; simpl; [by rewrite Z.ltb_irrefl |].
    case_if; [|done]. bool_to_prop. cbn [default].
    pose proof (min_list_in 0 (y :: ks) ltac:(done)) as Hin. pose proof (Hpos _ Hin).
    change (fold_left Z.min ks y) with (min_list 0 (y :: ks)) in *.
    rewrite Z.min_r by lia. split; [done | by left].
  - unfold _margin_width.
    assert (map (fun r : string * bool => spec_len s r.1) reqs <> []) as Hl by (by destruct reqs).
    pose proof (max_list_in 0 _ Hl) as Hmax.
    apply list_elem_of_fmap in Hmax as (x & Hx & Hin).
    assert (x.1 ∈ map fst reqs) as Hin' by (apply list_elem_of_fmap; eauto).
    case_if; simpl; [rewrite Hx; split; [by apply Hlen | eauto] |].
    destruct (omap id picks) as [|c l] eqn:E; simpl; [rewrite Hx; split; [by apply Hlen | eauto] |].
    apply Hknown. change (fold_left Z.min l c) with (min_list 0 (c :: l)). by apply min_list_in.
Qed.
End trimming.

(** ** Trimming *)

Lemma slice_to_id {A} n (l : list A) : Z.of_nat (length l) <= n -> slice_to n l = l.
Proof. intros. unfold slice_to. case_if; bool_to_prop; [lia |]. apply take_ge. lia. Qed.

Lemma slice_to_twice {A} n (l : list A) : 0 <= n -> slice_to n (slice_to n l) = slice_to n l.
Proof. intros. apply slice_to_id. rewrite length_slice_to by done. lia. Qed.

Lemma trim_tokens n s r q :
  spec_token_ids (trim n s r) q =
    if decide (q = r) then slice_to n (spec_token_ids s q) else spec_token_ids s q.
Proof.
  unfold trim. case_decide; subst.
  - case_if; bool_to_prop; unfold spec_token_ids at 1; [by rewrite lookup_insert_eq |].
    symmetry. by apply slice_to_id.
  - case_if; [|done]. unfold spec_token_ids. by rewrite lookup_insert_ne.
Qed.

Lemma trim_all_tokens n s rs q : 0 <= n ->
  spec_token_ids (trim_all n s rs) q =
    if decide (q ∈ rs) then slice_to n (spec_token_ids s q) else spec_token_ids s q.
Proof.
  intros Hn. revert s. induction rs as [|r rs IH]; intros s; [done |].
  change (trim_all n s (r :: rs)) with (trim_all n (trim n s r) rs). rewrite IH, trim_tokens.
  destruct (decide (q = r)) as [->|Hq]; repeat case_decide; try set_solver; [by apply slice_to_twice].
Qed.

(** A usable knob set, now and after any read of the override file. *)
Definition usable (p : policy) : Prop :=
  (k_set (kn p) <> [] /\ forall v, v ∈ k_set (kn p) -> 1 <= v) /\
  (boot_set p <> [] /\ forall v, v ∈ boot_set p -> 1 <= v).

Lemma reload_usable repr p fs : usable p -> usable (_reload repr p fs).
Proof.
  intros [Hk Hb].
  destruct (reload_cases repr p fs) as [->|[Hbe [->|[cfg ->]]]]; [by split | by split |].
  destruct (load_cfg_frame repr (with_mtime p (fst <$> fs)) cfg) as (_ & _ & _ & _ & _ & _ & Hs' & _).
  pose proof (load_cfg_k_set repr (with_mtime p (fst <$> fs)) cfg) as Hc. simpl in *.
  split; [|by rewrite Hs']. destruct Hc as [E|[E|[E1 E2]]]; [by rewrite E | by rewrite E |].
  split; [done |]. intros v Hv. by apply Hb, E2.
Qed.

Lemma tick_usable repr p fs : usable p -> usable (tick repr p fs).
Proof. unfold tick. case_if; [apply reload_usable | done]. Qed.

(** What [apply] does to the store, on either of its paths: a width of at least
    one row, which is a knob of the current set or no cut at all. *)
Lemma apply_store repr p fs s reqs live :
  usable p -> (forall r, r ∈ map fst reqs -> 1 <= spec_len s r) ->
  let q := tick repr p fs in
  exists p' n, 1 <= n /\ apply repr p fs s reqs live = Ok (p', trim_all n s (map fst reqs)) /\
    (n ∈ k_set (kn q) \/ (exists r, r ∈ map fst reqs /\ n = spec_len s r) \/
     forall r, r ∈ map fst reqs -> spec_len s r <= n) /\
    ((exists r, (r, true) ∈ reqs) -> forall r, r ∈ map fst reqs -> spec_len s r <= n).
Proof.
  intros Hu Hlen. cbv zeta. apply (tick_usable repr p fs) in Hu as [[Hne Hpos] _].
  set (lens := map (fun r : string * bool => spec_len s r.1) reqs).
  assert (forall r, r ∈ map fst reqs -> spec_len s r <= max_list 0 lens) as Hmax.
  { intros r Hr. apply max_list_ge. apply list_elem_of_fmap in Hr as (x & -> & Hx).
    apply list_elem_of_fmap. by exists x. }
  unfold apply. cbv zeta. case_if.
  - set (q := with_steps _ _). exists q, (Z.max 1 (max_list 0 lens)).
    assert (forall r, r ∈ map fst reqs -> spec_len s r <= Z.max 1 (max_list 0 lens)) as Hle.
    { intros r Hr. specialize (Hmax r Hr). lia. }
    split; [lia | split; [|split; [by right; right | by intros _]]]. do 2 f_equal.
    clear -Hle. induction (map fst reqs) as [|r rs IH]; [done |].
    change (trim_all ?n s (r :: rs)) with (trim_all n (trim n s r) rs).
    replace (trim _ s r) with s; [apply IH; intros; apply Hle; by constructor |].
    unfold trim. specialize (Hle r ltac:(constructor)). case_if; [bool_to_prop; lia | done].
  - bool_to_prop. destruct (picks_exist (tick repr p fs) s reqs Hne Hpos) as [picks Hp].
    pose proof (batch_width_spec _ s reqs Hne Hpos picks Hp ltac:(done) Hlen) as [H1 Hw].
    unfold pick_of in Hp. rewrite Hp. simpl. eexists _, _. split; [exact H1 |].
    split; [reflexivity |]. split; [destruct Hw; auto |].
    intros (r0 & Hst). pose proof (structured_unpicked _ s reqs picks Hp r0 Hst) as Hnone.
    assert (existsb snd reqs = true) as Hex.
    { apply existsb_exists. exists (r0, true). split; [by apply list_elem_of_In | done]. }
    unfold batch_width, _margin_width. rewrite Hex, orb_true_r.
    destruct (forallb _ _) eqn:Eall; [|done].
    by destruct (all_known _ Eall None Hnone).
Qed.

(** One call of [apply] on a usable knob set always returns, and cuts the
    drafts of the batch to one common width of at least one row: every request
    of the batch keeps exactly its first [n] tokens, every other request is
    untouched. *)
Theorem apply_trims_uniformly repr p fs s reqs live
    (Hu : usable p) (Hlen : forall r, r ∈ map fst reqs -> spec_token_ids s r <> []) :
  exists p' s' n, apply repr p fs s reqs live = Ok (p', s') /\ (1 <= n)%nat /\
    forall r, spec_token_ids s' r =
      if decide (r ∈ map fst reqs) then take n (spec_token_ids s r) else spec_token_ids s r.
Proof.
  destruct (apply_store repr p fs s reqs live Hu) as (p' & n & Hn & Ha & _).
  { intros r Hr. specialize (Hlen r Hr). unfold spec_len. destruct (spec_token_ids s r); simpl; [done | lia]. }
  exists p', (trim_all n s (map fst reqs)), (Z.to_nat n). split; [done |]. split; [lia |].
  intros r. rewrite trim_all_tokens by lia. case_decide; [|done]. unfold slice_to.
  case_if; [bool_to_prop; lia | done].
Qed.

(** A structured request pins its batch: whatever the knobs, the margins
    and the override file say, a batch with a structured request in it keeps
    every draft token. *)
Theorem structured_pins_batch repr p fs s reqs live r0
    (Hu : usable p) (Hlen : forall r, r ∈ map fst reqs -> spec_token_ids s r <> [])
    (Hst : (r0, true) ∈ reqs) :
  exists p' s', apply repr p fs s reqs live = Ok (p', s') /\
    forall r, spec_token_ids s' r = spec_token_ids s r.
Proof.
  destruct (apply_store repr p fs s reqs live Hu) as (p' & n & Hn & Ha & _ & Hpin).
  { intros r Hr. specialize (Hlen r Hr). unfold spec_len. destruct (spec_token_ids s r); simpl; [done | lia]. }
  exists p', (trim_all n s (map fst reqs)). split; [done |].
  intros r. rewrite trim_all_tokens by lia. case_decide as Hr; [|done].
  apply slice_to_id. apply (Hpin (ex_intro _ r0 Hst) r Hr).
Qed.

(** Every width the policy settles on has a captured target graph: with
    the policy and the graph helper reading the same environment, in any policy
    state a run can reach (override files included), a batch whose requests
    carry the full draft of [decode_query_len - 1] tokens verifies a row count
    that is one of the captured uniform decode lengths. *)
Theorem trimmed_width_is_captured repr env fs0 p0 es p fs s reqs live p' s' ks K out
    (Hinit : init repr env fs0 = Ok p0) (Hrun : run repr p0 es = Ok p)
    (Hks : boot_set_of env = Ok ks) (Hne : ks <> []) (Hpos : forall v, v ∈ ks -> 1 <= v)
    (HK : 1 <= K) (Hout : _glm53_adaptive_k_query_lens env [K + 1] (K + 1) = Ok out)
    (Hfull : forall r, r ∈ map fst reqs -> spec_len s r = K)
    (Ha : apply repr p fs s reqs live = Ok (p', s')) :
  forall r, r ∈ map fst reqs -> spec_len s' r + 1 ∈ out.
Proof.
  destruct (init_bounds repr env fs0 p0 Hinit) as (ks' & Hks' & Hb0).
  rewrite Hks in Hks'. injection Hks' as <-.
  pose proof (run_bounds repr ks _ es p0 p Hb0 Hrun) as Hb.
  pose proof (tick_bounds repr ks _ p fs Hb) as Hbt.
  assert (usable p) as Hu.
  { destruct Hb as [Hs _ _ _ Hsub Hn]. split; [split; [by intros E%Hn | intros v Hv; by apply Hpos, Hsub] |].
    by rewrite Hs. }
  assert (K + 1 ∈ out /\ forall v, enabled (kn (tick repr p fs)) = true -> v ∈ ks -> v <= K -> v + 1 ∈ out)
    as [HKout Hin].
  { revert Hout Hks. unfold _glm53_adaptive_k_query_lens, boot_set_of. cbv zeta. case_if.
    - intros [= <-] _. split; [constructor |]. intros v Hon. apply (bb_on _ _ _ Hbt) in Hon.
      unfold boot_mode in Hon. bool_to_prop. congruence.
    - intros (l & -> & [= <-])%bind_Ok [= <-]. split; [apply insert_z_elem; by left |].
      intros v _ Hv Hle. apply insert_z_elem. right. apply sorted_set_elem, elem_of_app. left.
      pose proof (Hpos v Hv). apply list_elem_of_fmap. exists v. split; [done |].
      apply list_elem_of_filter. split; [lia |]. by apply sorted_set_elem. }
  destruct (enabled (kn (tick repr p fs))) eqn:Hen.
  - destruct (apply_store repr p fs s reqs live Hu) as (p1 & n & Hn & Ha' & Hw & _).
    { intros r Hr. by rewrite Hfull. }
    rewrite Ha in Ha'. injection Ha' as _ ->. intros r Hr.
    unfold spec_len at 1. rewrite trim_all_tokens by lia. rewrite decide_True by done.
    rewrite length_slice_to by lia. change (Z.of_nat (length (spec_token_ids s r))) with (spec_len s r).
    rewrite (Hfull r Hr). destruct (Z.le_gt_cases K n) as [Hle|Hlt]; [by rewrite Z.min_r |].
    rewrite Z.min_l by lia. destruct Hw as [Hw|[(q & Hq & Hw)|Hw]].
    + apply Hin; [done | by apply (bb_sub _ _ _ Hbt) | lia].
    + rewrite (Hfull q Hq) in Hw. lia.
    + specialize (Hw r Hr). rewrite (Hfull r Hr) in Hw. lia.
  - intros r Hr. revert Ha. unfold apply. cbv zeta. rewrite Hen. intros [= _ <-].
    by rewrite (Hfull r Hr).
Qed.

(** ** The acceptance average *)

(** The averages of a policy lie between 0 and [B], with a positive count. *)
Definition ema_in (B : Q) (p : policy) : Prop :=
  map_Forall (fun _ st => 0 <= st.1 /\ st.1 <= B /\ 1 <= st.2)%Q (state p).

(** An observation of at most [B] tokens under a smoothing weight. *)
Definition sane_event (B : Z) (p : policy) (e : event) : Prop :=
  (0 <= alpha (kn p) <= 1)%Q /\ 0 <= k_max p <= B /\
  match e with Observe _ d a => 0 <= a <= d /\ d <= B | _ => True end.

Lemma convex_mix (a x y B : Q) : (0 <= a <= 1)%Q -> (0 <= x <= B)%Q -> (0 <= y <= B)%Q ->
  (0 <= x * a + y * (1 - a) <= B)%Q.
Proof. intros [? ?] [? ?] [? ?]. split; nra. Qed.

Lemma observe_ema B p r d a :
  sane_event B p (Observe r d a) -> ema_in (inject_Z B) p -> ema_in (inject_Z B) (observe p r d a).
Proof.
  intros (Ha & Hk & Hda & Hd) Hp. unfold observe. case_if; [done |]. cbv zeta. bool_to_prop.
  assert (forall z, 0 <= z <= B -> (0 <= inject_Z z <= inject_Z B)%Q) as Hz.
  { intros z ?. rewrite <- !Zle_Qle. change 0%Q with (inject_Z 0). rewrite <- Zle_Qle. lia. }
  set (obs := if (d <=? a) && negb (String.eqb (saturate (kn p)) "n")
    then inject_Z (Z.max (k_max p) d) else inject_Z a).
  assert (0 <= obs <= inject_Z B)%Q as Hobs by (unfold obs; case_if; apply Hz; lia).
  destruct (state p !! r) as [[e n]|] eqn:Er.
  - destruct (Hp r _ Er) as (He & HeB & Hn). simpl in *.
    apply map_Forall_insert_2; [|done]. simpl.
    destruct (convex_mix (alpha (kn p)) obs e (inject_Z B)) as [? ?]; auto.
    split; [done | split; [done | lra]].
  - apply map_Forall_insert_2; [|done]. simpl.
    destruct (convex_mix (alpha (kn p)) obs (inject_Z (k_max p)) (inject_Z B)) as [? ?]; auto.
    split; [done | split; [done | lra]].
Qed.

Lemma reload_state repr p fs :
  state (_reload repr p fs) = state p \/ state (_reload repr p fs) = ∅.
Proof.
  destruct (reload_cases repr p fs) as [->|[_ [->|[cfg ->]]]]; [by left | by left |].
  destruct (load_cfg_frame repr (with_mtime p (fst <$> fs)) cfg)
    as (_ & _ & _ & _ & _ & _ & _ & _ & Hst). exact Hst.
Qed.

(** Apart from observations, an event only drops entries of the state. *)
Lemma exec_state repr p e p' :
  exec repr p e = Ok p' -> (match e with Observe _ _ _ => False | _ => True end) ->
  state p' ⊆ state p.
Proof.
  assert (forall q fs, state (tick repr q fs) ⊆ state q) as Ht.
  { intros q fs. unfold tick. case_if; [|done].
    destruct (reload_state repr q fs) as [E|E]; rewrite E; [done | apply map_empty_subseteq]. }
  assert (forall q n live, state (_count q n live) ⊆ state q) as Hc.
  { intros. unfold _count. case_if; [apply map_filter_subseteq | done]. }
  destruct e as [r d a|fs requests s drafts|fs k reqs live]; simpl; [done | |]; intros H _.
  - revert H. unfold update_draft_token_ids. destruct (fold_left _ _ _) as [s1 ak].
    destruct ak as [|x ak]; [by intros [= <-] |]. unfold apply. cbv zeta.
    case_if; [intros [= <-]; apply Ht |]. destruct (mapM _ _) as [picks|]; [|done]. intros [= <-].
    etrans; [apply Hc | apply Ht].
  - revert H. unfold batch_k. cbv zeta. case_if; [intros [= <-]; apply Ht |].
    destruct (batch_choices _ _ _) as [ns|]; [|done]. intros [= <-].
    etrans; [apply Hc | apply Ht].
Qed.

Lemma map_Forall_subseteq {A} (P : string -> A -> Prop) (m1 m2 : gmap string A) :
  m1 ⊆ m2 -> map_Forall P m2 -> map_Forall P m1.
Proof. intros Hs H k x Hk. eapply H, lookup_weaken; eauto. Qed.

(** The acceptance averages stay where the choice expects them: over any
    run with a smoothing weight in [0, 1] and drafts of at most [B] tokens, of
    which at most all are accepted, every average lies between 0 and [B], and
    every entry counts at least one observation. *)
Theorem ema_stays_in_range repr env fs0 p0 es p B
    (Hinit : init repr env fs0 = Ok p0) (Hrun : run repr p0 es = Ok p)
    (Hsane : along repr (sane_event B) p0 es) :
  forall r ema n, state p !! r = Some (ema, n) -> (0 <= ema <= inject_Z B)%Q /\ (1 <= n)%Q.
Proof.
  assert (ema_in (inject_Z B) p) as Hp.
  { apply (run_invariant repr (ema_in (inject_Z B)) (sane_event B) es p0 p); auto.
    - intros q e q' Hq Hs He. destruct e as [r d a| |].
      + injection He as <-. by apply observe_ema.
      + eapply map_Forall_subseteq; [by eapply exec_state | done].
      + eapply map_Forall_subseteq; [by eapply exec_state | done].
    - revert Hinit. unfold init.
      intros (a & _ & (m & _ & (ms & _ & (ks & _ & (he & _ & [= <-])%bind_Ok)%bind_Ok)
        %bind_Ok)%bind_Ok)%bind_Ok.
      unfold ema_in. set (q := Policy _ _ _ _ _ _ _ _ _ _ _ _).
      destruct (reload_state repr q fs0) as [E|E]; rewrite E; apply map_Forall_empty. }
  intros r ema n Hr. destruct (Hp r _ Hr) as (? & ? & ?). done.
Qed.

(** ** Requests the draft model never disappoints *)

Lemma reload_k_max repr p fs : k_max (_reload repr p fs) = k_max p.
Proof.
  destruct (reload_cases repr p fs) as [->|[_ [->|[cfg ->]]]]; [done | done |].
  destruct (load_cfg_frame repr (with_mtime p (fst <$> fs)) cfg) as (_ & _ & _ & _ & _ & Hk & _).
  exact Hk.
Qed.

Lemma exec_k_max repr p e p' : exec repr p e = Ok p' -> k_max p' = k_max p.
Proof.
  intros [E|[fs E]]%exec_settings; unfold settings in E; [congruence |].
  injection E as _ E _ _ _ _. rewrite E. unfold tick. case_if; [apply reload_k_max | done].
Qed.

(** Every observation of [r] accepts all of a draft within the knobs' range. *)
Definition fully_accepted (r : string) (p : policy) (e : event) : Prop :=
  match e with
  | Observe r' d a => r' = r -> d <= a /\ d <= k_max p /\ saturate (kn p) <> "n"
  | _ => True
  end.

Definition at_top (r : string) (p : policy) : Prop :=
  forall ema n, state p !! r = Some (ema, n) -> (ema == inject_Z (k_max p))%Q.

Lemma exec_at_top repr r p e p' :
  at_top r p -> fully_accepted r p e -> exec repr p e = Ok p' -> at_top r p'.
Proof.
  intros Ht Hf He ema n Hs. rewrite (exec_k_max repr p e p' He).
  destruct e as [r' d a|fs requests s drafts|fs k reqs live].
  2, 3: eapply (Ht ema n), lookup_weaken; [exact Hs | by eapply exec_state].
  injection He as <-. revert Hs. unfold observe. case_if; [apply Ht |]. cbv zeta.
  destruct (decide (r' = r)) as [->|Hr].
  - destruct Hf as (Hda & Hdk & Hsat); [done |]. bool_to_prop.
    assert ((d <=? a) && negb (String.eqb (saturate (kn p)) "n") = true) as ->.
    { bool_to_prop; [done |]. by apply String.eqb_neq. }
    rewrite Z.max_l by lia.
    destruct (state p !! r) as [[e0 m]|] eqn:E; simpl; rewrite lookup_insert_eq; intros [= <- _].
    + pose proof (Ht e0 m E) as ->. ring.
    + ring.
  - destruct (state p !! r') as [[e0 m]|]; simpl; rewrite lookup_insert_ne by done; apply Ht.
Qed.

(** Adaptation never costs a request whose drafts are always accepted: if
    every observation of [r] in a run accepted the whole draft (and saturation
    is not turned off), its choice is the full draft length or no trimming,
    for every margin of at least 0 and every length in the knob set. *)
Theorem fully_accepted_never_trimmed repr env fs0 p0 es p r k structured
    (Hinit : init repr env fs0 = Ok p0) (Hrun : run repr p0 es = Ok p)
    (Hfull : along repr (fully_accepted r) p0 es)
    (Hk : k ∈ k_set (kn p)) (Hmax : k <= k_max p) (Hm : (0 <= margin (kn p))%Q) :
  choose p r k structured = Ok None \/ choose p r k structured = Ok (Some k).
Proof.
  assert (at_top r p) as Ht.
  { apply (run_invariant repr (at_top r) (fully_accepted r) es p0 p); auto.
    - intros q e q'. apply exec_at_top.
    - revert Hinit. unfold init.
      intros (a & _ & (m & _ & (ms & _ & (ks & _ & (he & _ & [= <-])%bind_Ok)%bind_Ok)
        %bind_Ok)%bind_Ok)%bind_Ok.
      intros ema n. set (q := Policy _ _ _ _ _ _ _ _ _ _ _ _).
      destruct (reload_state repr q fs0) as [E|E]; rewrite E; simpl; by rewrite lookup_empty. }
  unfold choose. case_if; [by left |]. bool_to_prop.
  destruct (state p !! r) as [[ema n]|] eqn:E; [|by left]. case_if; [by left |]. cbv zeta. right.
  assert (k <= Qceiling (ema + margin (kn p))) as Hc.
  { rewrite (Qceiling_comp _ (inject_Z (k_max p) + margin (kn p)))
      by (by rewrite (Ht ema n E)).
    apply Z.le_trans with (Qceiling (inject_Z (k_max p))); [by rewrite Qceiling_Z |].
    apply Qceiling_resp_le. lra. }
  set (cands := base.filter _ _).
  assert (k ∈ cands) as Hin by (apply list_elem_of_filter; split; [lia | done]).
  assert (max_list 0 cands = k) as Hmx.
  { apply Z.le_antisymm; [|by apply max_list_ge].
    assert (cands <> []) as Hn by (by intros ->; apply not_elem_of_nil in Hin).
    pose proof (max_list_in 0 cands Hn) as Hi. apply list_elem_of_filter in Hi as [? _]. lia. }
  destruct cands as [|x l]; [by apply not_elem_of_nil in Hin |].
  rewrite Hmx. do 2 f_equal. lia.
Qed.

(** The override file cannot escape what the boot environment allowed:
    whatever the file holds over time, the policy is on only if it was on at
    boot, and its knob set stays a non-empty part of the boot set (whose graphs
    were captured). *)
Theorem override_file_confined repr env fs0 p0 es p ks
    (Hinit : init repr env fs0 = Ok p0) (Hrun : run repr p0 es = Ok p)
    (Hks : boot_set_of env = Ok ks) :
  (enabled (kn p) = true -> boot_mode env = true) /\
  k_set (kn p) ⊆ ks /\ (ks <> [] -> k_set (kn p) <> []) /\ k_max p = max_list 0 ks.
Proof.
  destruct (init_bounds repr env fs0 p0 Hinit) as (ks' & Hks' & Hb0).
  rewrite Hks in Hks'. injection Hks' as <-.
  destruct (run_bounds repr ks _ es p0 p Hb0 Hrun) as [Hs Hm Hb Ho Hsub Hn].
  split; [done | split; [done | split; [|done]]]. intros Hne E. by apply Hne, Hn.
Qed.

(** ** A run on concrete inputs *)

Definition demo_repr (v : json) : string := "None".
Definition demo_env : environ :=
  {[ "GLM53_ADAPTIVE_K" := "ema"; "GLM53_ADAPTIVE_K_MIN_STEPS" := "1" ]}.
Definition demo_file : file_state :=
  Some (17, Ok {[ "margin" := JStr "0.5"; "set" := JList [JInt 4; JInt 7; JInt 9] ]}).
Definition demo_policy (fs : file_state) (es : list event) : policy :=
  match init demo_repr demo_env fs ≫= fun p => run demo_repr p es with
  | Ok p => p
  | Raise _ => Policy (Knobs false 0 0 0 "" []) false 0 false false ∅ ∅ 0 0 [] false None
  end.
Definition demo_boot : policy := demo_policy demo_file [].
Definition demo_events : list event := [Observe "a" 7 1; Observe "b" 7 7; Observe "a" 7 0].
Definition demo_p : policy := demo_policy demo_file demo_events.
Definition demo_store : store := {[ "a" := [1;2;3;4;5;6;7]; "b" := [1;2;3;4;5;6;7] ]}.

Lemma demo_init : init demo_repr demo_env demo_file = Ok demo_boot.
Proof. vm_compute. reflexivity. Qed.
Lemma demo_run : run demo_repr demo_boot demo_events = Ok demo_p.
Proof. vm_compute. reflexivity. Qed.
Lemma demo_set : boot_set_of demo_env = Ok [2; 4; 7].
Proof. vm_compute. reflexivity. Qed.

Lemma small_set (l : list Z) (P : Z -> bool) : forallb P l = true -> forall v, v ∈ l -> P v = true.
Proof. intros H v Hv. rewrite forallb_forall in H. apply H. by apply list_elem_of_In. Qed.

Lemma demo_usable : usable demo_p.
Proof.
  split; (split; [vm_compute; discriminate |]); intros v Hv; apply Z.leb_le; revert v Hv;
    apply small_set; vm_compute; reflexivity.
Qed.

Lemma apply_trims_uniformly_witness :
  fst <$> apply demo_repr demo_p None demo_store [("a", false); ("b", false)] ∅ <> Raise ValueError /\
  exists p' s' n, apply demo_repr demo_p None demo_store [("a", false); ("b", false)] ∅ = Ok (p', s') /\
    (1 <= n)%nat /\ spec_token_ids s' "b" = take n [1;2;3;4;5;6;7].
Proof.
  destruct (apply_trims_uniformly demo_repr demo_p None demo_store [("a", false); ("b", false)] ∅
    demo_usable) as (p' & s' & n & Ha & Hn & Hs).
  - intros r [->|[->|[]%not_elem_of_nil]%elem_of_cons]%elem_of_cons; vm_compute; discriminate.
  - rewrite Ha. split; [discriminate |]. exists p', s', n. split; [done | split; [done |]].
    specialize (Hs "b"). rewrite decide_True in Hs by (vm_compute; repeat constructor). exact Hs.
Defined.

(** The slow request holds its peer to four rows. *)
Example demo_cut :
  (fun ps => spec_token_ids (snd ps) "b") <$>
    apply demo_repr demo_p None demo_store [("a", false); ("b", false)] ∅ = Ok [1;2;3;4].
Proof. vm_compute. reflexivity. Qed.

Lemma structured_pins_batch_witness :
  exists p' s', apply demo_repr demo_p None demo_store [("a", false); ("b", true)] ∅ = Ok (p', s') /\
    forall r, spec_token_ids s' r = spec_token_ids demo_store r.
Proof.
  apply (structured_pins_batch demo_repr demo_p None demo_store [("a", false); ("b", true)] ∅ "b"
    demo_usable).
  - intros r [->|[->|[]%not_elem_of_nil]%elem_of_cons]%elem_of_cons; vm_compute; discriminate.
  - right. left.
Defined.

Lemma trimmed_width_is_captured_witness :
  exists p' s', apply demo_repr demo_p None demo_store [("a", false); ("b", false)] ∅ = Ok (p', s') /\
    spec_len s' "b" = 4 /\ spec_len s' "b" + 1 ∈ [3; 5; 8].
Proof.
  destruct (apply demo_repr demo_p None demo_store [("a", false); ("b", false)] ∅)
    as [[p' s']|] eqn:Ha; [|vm_compute in Ha; discriminate].
  assert (_glm53_adaptive_k_query_lens demo_env [7 + 1] (7 + 1) = Ok [3; 5; 8]) as Hq
    by (vm_compute; reflexivity).
  exists p', s'. split; [done |]. split; [vm_compute in Ha; injection Ha as _ <-; reflexivity |].
  refine (trimmed_width_is_captured demo_repr demo_env demo_file demo_boot demo_events demo_p None
    demo_store [("a", false); ("b", false)] ∅ p' s' [2; 4; 7] 7 [3; 5; 8] demo_init demo_run demo_set
    _ _ _ Hq _ Ha "b" _).
  - discriminate.
  - intros v Hv. apply Z.leb_le. revert v Hv. apply small_set. reflexivity.
  - lia.
  - intros r [->|[->|[]%not_elem_of_nil]%elem_of_cons]%elem_of_cons; vm_compute; reflexivity.
  - right. left.
Defined.

Lemma demo_sane : along demo_repr (sane_event 7) demo_boot demo_events.
Proof.
  repeat split; try (vm_compute; discriminate); vm_compute; try discriminate; auto.
Qed.

Lemma ema_stays_in_range_witness :
  state demo_p !! "a" = Some (1056 # 256, 2)%Q /\ (0 <= 1056 # 256 <= inject_Z 7)%Q.
Proof.
  assert (state demo_p !! "a" = Some (1056 # 256, 2)%Q) as H by (vm_compute; reflexivity).
  split; [exact H |].
  apply (ema_stays_in_range demo_repr demo_env demo_file demo_boot demo_events demo_p 7
    demo_init demo_run demo_sane "a" _ _ H).
Defined.

Lemma demo_full : along demo_repr (fully_accepted "b") demo_boot demo_events.
Proof.
  repeat split; try (vm_compute; discriminate); intros E; vm_compute in E; discriminate.
Qed.

Lemma fully_accepted_never_trimmed_witness :
  choose demo_p "b" 7 false = Ok (Some 7) /\
  (choose demo_p "b" 7 false = Ok None \/ choose demo_p "b" 7 false = Ok (Some 7)).
Proof.
  split; [vm_compute; reflexivity |].
  apply (fully_accepted_never_trimmed demo_repr demo_env demo_file demo_boot demo_events demo_p "b" 7
    false demo_init demo_run demo_full).
  - apply (sorted_set_elem 7 [4; 7]). right. left.
  - vm_compute. discriminate.
  - vm_compute. discriminate.
Defined.

Lemma override_file_confined_witness :
  k_set (kn demo_p) = [4; 7] /\ k_set (kn demo_p) ⊆ [2; 4; 7].
Proof.
  split; [vm_compute; reflexivity |].
  apply (override_file_confined demo_repr demo_env demo_file demo_boot demo_events demo_p [2; 4; 7]
    demo_init demo_run demo_set).
Defined.

(** ** Corner cases *)

(** An override whose smoothing weight is not a number is reported as ignored,
    but its mode is already in force. *)
Lemma rejected_override_changes_mode repr p cfg e :
  from_option json_float (Ok (alpha (kn p))) (cfg !! "alpha") = Raise e ->
  snd (load_cfg repr p cfg) = false /\
  enabled (kn (fst (load_cfg repr p cfg))) =
    mode_on (lower (strip (json_str repr (default (JStr "ema") (cfg !! "mode"))))).
Proof. intros H. unfold load_cfg. cbv zeta. cbn [alpha]. rewrite H. done. Qed.

(** A knob set of separators only parses to the empty set, and the first choice
    for a warmed-up request raises. *)
Definition blank_env : environ :=
  {[ "GLM53_ADAPTIVE_K" := "ema"; "GLM53_ADAPTIVE_K_MIN_STEPS" := "1"; "GLM53_ADAPTIVE_K_SET" := "," ]}.

Example blank_set_raises :
  (init demo_repr blank_env None ≫= fun p => choose (observe p "a" 7 3) "a" 7 false) = Raise ValueError.
Proof. vm_compute. reflexivity. Qed.

(** The position trim clamps to the smallest knob without the lower bound of one
    row that [choose] keeps: a knob of 0 drops every draft. *)
Definition zero_env : environ :=
  {[ "GLM53_ADAPTIVE_K" := "ema"; "GLM53_ADAPTIVE_K_MIN_STEPS" := "1"; "GLM53_ADAPTIVE_K_SET" := "0,4,7";
     "GLM53_ADAPTIVE_K_BATCH_MARGIN" := "1"; "GLM53_ADAPTIVE_K_POS_TRIM" := "1" ]}.

Example zero_floor_drops_all :
  (p ← init demo_repr zero_env None;
   ps ← apply demo_repr (observe (observe p "a" 7 7) "b" 7 7) None demo_store
          [("a", false); ("b", false)] ∅;
   mret (spec_token_ids (snd ps) "a")) = Ok [].
Proof. vm_compute. reflexivity. Qed.
