(* ===== verification/KvGroups.v ===== *)
(** * KV-cache groups: the drafter group and the hybrid prefix cache

    Model of the helpers that the overlays on vLLM's KV-cache coordinator
    install: [overlay/patch_hybrid_prefix_hit.py] (which groups are EAGLE, and
    the hybrid minimum), [overlay/patch_apc_per_group_retention.py] (a retention
    interval per group), [overlay/patch_draft_compact_page.py] (the drafter's
    block size), and [overlay/patch_kv_capacity_log.py] (the capacity derived
    from the same groups). *)
From Stdlib Require Import ZArith Lia.
From stdpp Require Import base list gmap strings numbers sets.
From S2P Require Import Prelude PyStr.
#[local] Open Scope list_scope.
#[local] Open Scope Z_scope.

(** ** Data *)

(** The attributes a KV-cache spec object has; [mro] are the class names of
    [type(spec).__mro__], the class's own first.  [None] is an absent attribute
    or [None]. *)
Record leaf := Leaf {
  mro : list string;
  block_size : option Z;
  sliding_window : option Z;
  mamba_cache_mode : option string
}.

(** A group's spec: its own attributes and, for a uniform group, the member
    specs of its [kv_cache_specs] dict in order. *)
Record kvspec := KvSpec {
  own : leaf;
  kv_cache_specs : option (list leaf);
  page_size_bytes : Z;
  max_memory_usage_bytes : Z;
  participates_in_prefix_caching : option bool;
  prefix_cacheable_attr : option bool
}.

Record group := Group {
  kv_cache_spec : kvspec;
  is_eagle_group : bool
}.

(** [type(spec).__name__]. *)
Definition class_name (l : leaf) : string := hd EmptyString (mro l).

(** [_glm53_inner_kv_spec]. *)
Definition _glm53_inner_kv_spec (s : kvspec) : leaf :=
  match kv_cache_specs s with
  | Some (l :: _) => l
  | _ => own s
  end.

(** [_glm53_is_draft_swa_spec]. *)
Definition _glm53_is_draft_swa_spec (s : kvspec) : bool :=
  String.eqb (class_name (_glm53_inner_kv_spec s)) "SlidingWindowSpec".

(** The positions [i] of a list whose element satisfies [f]:
    [{i for i, g in enumerate(l) if f(g)}]. *)
Definition indices {A} (f : A -> bool) (l : list A) : gset nat :=
  list_to_set (omap (fun p : nat * A => if f p.2 then Some p.1 else None) (imap pair l)).

Definition all_ids {A} (l : list A) : gset nat := indices (fun _ => true) l.

Definition draft_ids (groups : list group) : gset nat :=
  indices (fun g => _glm53_is_draft_swa_spec (kv_cache_spec g)) groups.

(** ** Which groups are EAGLE *)

(** [EAGLE_OLD] and [EAGLE_NEW]: the fallback of the coordinator, stock and
    patched, from the ids flagged so far. *)
Definition eagle_fallback_old (use_eagle : bool) (groups : list group) (ids : gset nat) : gset nat :=
  if use_eagle && bool_decide (ids = ∅) then all_ids groups else ids.

Definition eagle_fallback (use_eagle : bool) (groups : list group) (ids : gset nat) : gset nat :=
  if use_eagle && bool_decide (ids = ∅) then
    let swa_ids := draft_ids groups in
    if bool_decide (swa_ids = ∅) then all_ids groups else swa_ids
  else ids.

(** ** The hybrid minimum *)

Section hybrid.
Context {blk : Type}.

(** One attention group of the coordinator, with the block size of its first
    manager. *)
Record agroup := AGroup {
  ag_idx : nat;
  ag_spec : kvspec;
  ag_ids : list nat;
  ag_use_eagle : bool;
  ag_block_size : Z
}.

(** The lookup of a group's manager: from the current hit length, the group's
    hit length and its blocks per group id (vLLM code). *)
Variable lookup : agroup -> bool -> Z -> Z * list (list blk).

Record hits := Hits {
  curr_hit_length : Z;
  eagle_verified : gset nat;
  hit_blocks_by_group : gmap nat (list blk);
  hit_length_by_group : gmap nat Z;
  longest_hit_length : Z
}.

(** [for group_id, blocks in zip(group_ids, hit_blocks): ...]. *)
Definition record_hits (ids : list nat) (blocks : list (list blk)) (len : Z) (h : hits) : hits :=
  fold_left (fun h (p : nat * list blk) =>
      Hits (curr_hit_length h) (eagle_verified h) (<[p.1 := p.2]> (hit_blocks_by_group h))
        (<[p.1 := len]> (hit_length_by_group h)) (longest_hit_length h))
    (zip ids blocks) h.

(** [DROP_NEW] of the compact-page overlay. *)
Definition drop_eagle_block (g : agroup) (verified : gset nat) : bool :=
  if _glm53_is_draft_swa_spec (ag_spec g) && (64 <? ag_block_size g) then false
  else ag_use_eagle g && bool_decide (ag_idx g ∉ verified).

Definition note_verified (g : agroup) (drop : bool) (new_len : Z) (h : hits) : hits :=
  let v :=
    if drop then {[ ag_idx g ]} ∪ eagle_verified h
    else if new_len <? curr_hit_length h then ∅ else eagle_verified h in
  Hits (curr_hit_length h) v (hit_blocks_by_group h) (hit_length_by_group h) (longest_hit_length h).

Definition take_hit (g : agroup) (new_len : Z) (blocks : list (list blk)) (h : hits) : hits :=
  let h := Hits new_len (eagle_verified h) (hit_blocks_by_group h) (hit_length_by_group h)
             (longest_hit_length h) in
  let h := record_hits (ag_ids g) blocks new_len h in
  Hits (curr_hit_length h) (eagle_verified h) (hit_blocks_by_group h) (hit_length_by_group h)
    (Z.max (longest_hit_length h) (curr_hit_length h)).

(** [MIN_NEW]: the body of the loop over the attention groups. *)
Definition min_step (h : hits) (g : agroup) : hits :=
  let drop := drop_eagle_block g (eagle_verified h) in
  let '(new_len, blocks) := lookup g drop (curr_hit_length h) in
  let h := note_verified g drop new_len h in
  if _glm53_is_draft_swa_spec (ag_spec g) then
    if curr_hit_length h <=? new_len then record_hits (ag_ids g) blocks new_len h else h
  else take_hit g new_len blocks h.

Definition min_pass (gs : list agroup) (h : hits) : hits := fold_left min_step gs h.

End hybrid.

(** ** Retention per group *)

(** [_glm53_swa_retention_env]. *)
Definition _glm53_swa_retention_env (env : environ) (scheduler_block_size max_interval : Z)
  : res (option Z) :=
  let raw := environ_get env "VLLM_PREFIX_CACHE_RETENTION_INTERVAL_SWA" "" in
  if String.eqb (strip raw) "" then Ok None
  else
    match parse_int (strip raw) with
    | None => Raise ValueError
    | Some value =>
        if value <? 0 then Raise ValueError
        else if negb (scheduler_block_size =? 0) && negb (value mod scheduler_block_size =? 0)
        then Raise ValueError
        else if max_interval <? value then Raise ValueError
        else Ok (Some value)
    end.

(** [_glm53_min_exempt_group_ids]. *)
Definition _glm53_min_exempt_group_ids (groups : list group) (eagle : gset nat) : gset nat :=
  let swa := draft_ids groups in
  if bool_decide (swa = ∅) || bool_decide (eagle <> swa) then ∅ else swa.

(** [not v] of an optional integer attribute. *)
Definition falsy (v : option Z) : bool :=
  match v with None => true | Some z => z =? 0 end.

(** [_glm53_retention_for_group]. *)
Definition _glm53_retention_for_group (s : kvspec) (global_interval swa_interval : option Z)
    (alignment_tokens : Z) (is_min_exempt : bool) : option Z :=
  if negb (_glm53_is_draft_swa_spec s) || negb is_min_exempt then global_interval
  else
    match swa_interval with
    | Some v => Some v
    | None =>
        let inner := _glm53_inner_kv_spec s in
        if falsy (sliding_window inner) || falsy (block_size inner) || (alignment_tokens =? 0)
        then global_interval
        else if alignment_tokens <=? default 0 (sliding_window inner) then global_interval
        else Some 0
    end.

(** [_glm53_resolve_retention_by_group]. *)
Definition _glm53_resolve_retention_by_group (groups : list group) (eagle : gset nat)
    (global_interval swa_interval : option Z) (alignment_tokens : Z) : res (list (option Z)) :=
  let min_exempt := _glm53_min_exempt_group_ids groups eagle in
  if bool_decide (swa_interval <> None) && bool_decide (min_exempt = ∅) then Raise ValueError
  else
    Ok (imap (fun i g => _glm53_retention_for_group (kv_cache_spec g) global_interval swa_interval
                alignment_tokens (bool_decide (i ∈ min_exempt))) groups).

(** [_glm53_validate_retention_intervals]. *)
Definition valid_interval (scheduler_block_size : Z) (v : option Z) : bool :=
  match v with
  | None => true
  | Some z => (z =? 0) || negb ((z <? 0) || negb (z mod scheduler_block_size =? 0))
  end.

Definition _glm53_validate_retention_intervals (intervals : list (option Z))
    (scheduler_block_size : Z) : res unit :=
  if forallb (valid_interval scheduler_block_size) intervals then Ok tt else Raise ValueError.

(** [INIT_NEW]: what coordinator construction leaves in
    [retention_interval_by_group]. *)
Definition retention_init (env : environ) (groups : list group) (eagle : gset nat)
    (global_interval : option Z) (scheduler_block_size : Z) : res (list (option Z)) :=
  swa ← _glm53_swa_retention_env env scheduler_block_size 1000000;
  v ← _glm53_resolve_retention_by_group groups eagle global_interval swa scheduler_block_size;
  _ ← _glm53_validate_retention_intervals v scheduler_block_size;
  mret v.

(** ** The drafter's block size *)

(** [choose_draft_block]; [accepts] is the backend's answer. *)
Fixpoint draft_search (accepts : Z -> bool) (steps mla_page draft_bytes : Z) (k : nat) : Z :=
  match k with
  | O => 64
  | S k' =>
      if (Z.of_nat k <=? 1) then 64
      else
        let block := 64 * Z.of_nat k in
        if negb (steps mod Z.of_nat k =? 0) then draft_search accepts steps mla_page draft_bytes k'
        else if mla_page <? block * draft_bytes then draft_search accepts steps mla_page draft_bytes k'
        else if accepts block then block
        else draft_search accepts steps mla_page draft_bytes k'
  end.

Definition choose_draft_block (accepts : Z -> bool) (names : list string)
    (mla_block mla_page draft_bytes : Z) : Z :=
  if bool_decide (names = []) || existsb (str_in "language_model") names
     || (mla_block <? 64) || negb (mla_block mod 64 =? 0) || (mla_page <=? 0) || (draft_bytes <=? 0)
  then 64
  else draft_search accepts (mla_block / 64) mla_page draft_bytes (Z.to_nat (mla_block / 64)).

(** [BLOCK_NEW], the inlined choice; [kernel] is vLLM's
    [select_common_block_size] on the drafter's backend, [None] when it
    raises. *)
Definition kernel_accepts (kernel : Z -> option Z) (cand : Z) : bool :=
  match kernel cand with Some k => k =? cand | None => false end.

Definition compact_block (kernel : Z -> option Z) (names : list string)
    (mla_block mla_page draft_bytes : Z) : Z :=
  if existsb (str_in "language_model") names then 64
  else if bool_decide (names <> []) && (mla_block mod 64 =? 0) && (0 <? draft_bytes)
  then draft_search (kernel_accepts kernel) (mla_block / 64) mla_page draft_bytes
         (Z.to_nat (mla_block / 64))
  else 64.

(** [VALID_NEW]: the checks of the padded validator, for a drafter spec of
    [bs] tokens. *)
Definition page_valid (mla_block mla_page bs page_size_padded unpadded_page_size_bytes : Z) : bool :=
  negb (negb (page_size_padded =? mla_page) || negb (bs mod 64 =? 0) || (bs <=? 0)
        || (mla_page <? unpadded_page_size_bytes))
  && (mla_block mod bs =? 0).

(** ** Lemmas *)

Lemma indices_elem {A} (f : A -> bool) (l : list A) i :
  i ∈ indices f l <-> exists x, l !! i = Some x /\ f x = true.
Proof.
  unfold indices. rewrite elem_of_list_to_set, list_elem_of_omap. split.
  - intros ([j x] & (j' & y & [= -> ->] & Hl)%elem_of_lookup_imap & Hf). simpl in Hf.
    destruct (f y) eqn:E; [|done]. injection Hf as ->. eauto.
  - intros (x & Hl & Hf). exists (i, x). split; [|simpl; by rewrite Hf].
    apply elem_of_lookup_imap. eauto.
Qed.

Lemma all_ids_elem {A} (l : list A) i : i ∈ all_ids l <-> (i < length l)%nat.
Proof.
  unfold all_ids. rewrite indices_elem, <- lookup_lt_is_Some. unfold is_Some. naive_solver.
Qed.

Lemma draft_ids_elem groups i :
  i ∈ draft_ids groups <->
  exists g, groups !! i = Some g /\ _glm53_is_draft_swa_spec (kv_cache_spec g) = true.
Proof. apply indices_elem. Qed.

(** The overlay's narrowing makes exactly the drafter groups exempt from the
    hybrid minimum; the stock fallback exempts none next to a target group. *)
Lemma exempt_after_narrowing groups :
  _glm53_min_exempt_group_ids groups (eagle_fallback true groups ∅) = draft_ids groups.
Proof.
  unfold _glm53_min_exempt_group_ids, eagle_fallback. rewrite (bool_decide_eq_true_2 ((∅ : gset nat) = ∅)) by done. simpl.
  destruct (decide (draft_ids groups = ∅)) as [E|E].
  - by rewrite !(bool_decide_eq_true_2 _ E).
  - rewrite !(bool_decide_eq_false_2 _ E). simpl. by rewrite bool_decide_eq_false_2 by naive_solver.
Qed.

Lemma exempt_after_stock_fallback groups i :
  (i < length groups)%nat -> i ∉ draft_ids groups ->
  _glm53_min_exempt_group_ids groups (eagle_fallback_old true groups ∅) = ∅.
Proof.
  intros Hi Hn. unfold _glm53_min_exempt_group_ids, eagle_fallback_old.
  rewrite (bool_decide_eq_true_2 ((∅ : gset nat) = ∅)) by done. simpl.
  rewrite (bool_decide_eq_true_2 (all_ids groups <> _)); [by rewrite orb_true_r |].
  intros E. apply Hn. rewrite <- E. by apply all_ids_elem.
Qed.

Lemma exempt_subset groups eagle : _glm53_min_exempt_group_ids groups eagle ⊆ draft_ids groups.
Proof. unfold _glm53_min_exempt_group_ids. case_if; set_solver. Qed.

Lemma swa_env_sound env sbs v :
  _glm53_swa_retention_env env sbs 1000000 = Ok (Some v) ->
  0 <= v <= 1000000 /\ (sbs <> 0 -> v mod sbs = 0).
Proof.
  unfold _glm53_swa_retention_env. cbv zeta. case_if; [done |].
  destruct (parse_int _) as [z|]; [|done]. case_if; [done |]. case_if; [done |]. case_if; [done |].
  intros [= ->]. bool_to_prop. split; [lia |]. intros Hs.
  apply andb_false_iff in Heqb1 as [H|H]; bool_to_prop; [by destruct Hs | done].
Qed.

Lemma valid_interval_mult sbs z : 0 < sbs -> 0 <= z -> z mod sbs = 0 -> valid_interval sbs (Some z) = true.
Proof.
  intros Hs Hz Hm. unfold valid_interval.
  destruct (z =? 0) eqn:E; [done |]. simpl. by bool_to_prop.
Qed.

(** What one group gets. *)
Lemma retention_cases s glob swa al ex :
  let v := _glm53_retention_for_group s glob swa al ex in
  (_glm53_is_draft_swa_spec s && ex = false -> v = glob) /\
  (_glm53_is_draft_swa_spec s && ex = true -> forall z, swa = Some z -> v = Some z) /\
  (v = glob \/ v = Some 0 \/ (swa <> None /\ v = swa)).
Proof.
  cbv zeta. unfold _glm53_retention_for_group.
  destruct (_glm53_is_draft_swa_spec s), ex; simpl; auto;
    destruct swa; repeat case_match; naive_solver.
Qed.

(** ** The retention vector *)

(** The retention overlay only ever sparsifies the drafter: construction
    yields one interval per group, every group that is not both a drafter and
    exempt from the hybrid minimum keeps the global interval, every entry is
    one the managers accept, and an operator override reaches exactly the
    exempt groups. *)
Theorem retention_vector_sound env groups eagle glob sbs v
    (Hs : 0 < sbs) (Hglob : valid_interval sbs glob = true)
    (Hv : retention_init env groups eagle glob sbs = Ok v) :
  length v = length groups /\ Forall (fun x => valid_interval sbs x = true) v /\
  (forall i, (i < length groups)%nat -> i ∉ _glm53_min_exempt_group_ids groups eagle -> v !! i = Some glob) /\
  (forall z, _glm53_swa_retention_env env sbs 1000000 = Ok (Some z) ->
     forall i, i ∈ _glm53_min_exempt_group_ids groups eagle -> v !! i = Some (Some z)).
Proof.
  revert Hv. unfold retention_init.
  intros (swa & Hswa & (v' & Hv & (u & Hu & [= <-])%bind_Ok)%bind_Ok)%bind_Ok.
  revert Hv. unfold _glm53_resolve_retention_by_group. cbv zeta. case_if; [done |]. intros [= <-].
  set (ex := _glm53_min_exempt_group_ids groups eagle) in *.
  split; [apply length_imap |]. split.
  - revert Hu. unfold _glm53_validate_retention_intervals. case_if; [|done].
    intros _. apply Forall_forall. intros x Hx. rewrite forallb_forall in Heqb0.
    apply Heqb0. by apply list_elem_of_In.
  - split.
    + intros i Hi Hn. rewrite list_lookup_imap.
      destruct (lookup_lt_is_Some_2 groups i Hi) as [g Hg]. rewrite Hg. simpl. f_equal.
      apply retention_cases. rewrite (bool_decide_eq_false_2 (i ∈ ex)) by done. apply andb_false_r.
    + intros z Hz i Hi. rewrite Hz in Hswa. injection Hswa as <-.
      pose proof (exempt_subset groups eagle i Hi) as (g & Hg & Hd)%draft_ids_elem.
      rewrite list_lookup_imap, Hg. simpl. f_equal.
      apply retention_cases; [|done]. by rewrite Hd, bool_decide_eq_true_2.
Qed.

(** The override and the hybrid overlay fit together: with the narrowed
    EAGLE set a valid override is accepted as soon as there is a drafter group,
    and lands on exactly the drafter groups; with the stock all-groups fallback
    next to a target group the boot refuses it. *)
Theorem override_needs_the_narrowing env groups glob sbs z j
    (Hs : 0 < sbs) (Hglob : valid_interval sbs glob = true)
    (Hz : _glm53_swa_retention_env env sbs 1000000 = Ok (Some z))
    (Hdraft : draft_ids groups <> ∅)
    (Htarget : (j < length groups)%nat /\ j ∉ draft_ids groups) :
  retention_init env groups (eagle_fallback_old true groups ∅) glob sbs = Raise ValueError /\
  exists v, retention_init env groups (eagle_fallback true groups ∅) glob sbs = Ok v /\
    forall i g, groups !! i = Some g ->
      v !! i = Some (if _glm53_is_draft_swa_spec (kv_cache_spec g) then Some z else glob).
Proof.
  destruct Htarget as [Hj Hjn]. split.
  - unfold retention_init. rewrite Hz. simpl. unfold _glm53_resolve_retention_by_group. cbv zeta.
    by rewrite (exempt_after_stock_fallback groups j Hj Hjn).
  - unfold retention_init. rewrite Hz. simpl. unfold _glm53_resolve_retention_by_group. cbv zeta.
    rewrite exempt_after_narrowing, (bool_decide_eq_false_2 _ Hdraft), andb_false_r. simpl.
    set (v := imap _ groups).
    assert (forall i g, groups !! i = Some g ->
      v !! i = Some (if _glm53_is_draft_swa_spec (kv_cache_spec g) then Some z else glob)) as Hv.
    { intros i g Hg. unfold v. rewrite list_lookup_imap, Hg. simpl. f_equal.
      unfold _glm53_retention_for_group.
      destruct (_glm53_is_draft_swa_spec (kv_cache_spec g)) eqn:E; simpl; [|done].
      rewrite bool_decide_eq_true_2; [done | by apply draft_ids_elem; eauto]. }
    unfold _glm53_validate_retention_intervals.
    destruct (forallb _ v) eqn:E; [by exists v |]. exfalso.
    apply not_true_iff_false in E. apply E, forallb_forall. intros x Hx%list_elem_of_In.
    apply list_elem_of_lookup in Hx as [i Hi].
    assert (i < length groups)%nat as Hlt.
    { apply lookup_lt_Some in Hi. unfold v in Hi. by rewrite length_imap in Hi. }
    destruct (lookup_lt_is_Some_2 groups i Hlt) as [g Hg]. rewrite (Hv i g Hg) in Hi.
    injection Hi as <-. case_if; [|done].
    destruct (swa_env_sound env sbs z Hz) as [? Hm]. apply valid_interval_mult; [lia | lia | apply Hm; lia].
Qed.

(** ** The hybrid minimum without the drafter *)

Section hybrid_facts.
Context {blk : Type} (lookup : agroup -> bool -> Z -> Z * list (list blk)).

Definition drafter (g : agroup) : bool := _glm53_is_draft_swa_spec (ag_spec g).
Definition targets (gs : list agroup) : list agroup := base.filter (fun g => drafter g = false) gs.

Lemma record_hits_frame ids (bs : list (list blk)) n h :
  curr_hit_length (record_hits ids bs n h) = curr_hit_length h /\
  longest_hit_length (record_hits ids bs n h) = longest_hit_length h /\
  eagle_verified (record_hits ids bs n h) = eagle_verified h.
Proof.
  unfold record_hits. revert h. induction (zip ids bs) as [|p l IH]; intros h; [done |].
  simpl. specialize (IH (Hits (curr_hit_length h) (eagle_verified h)
    (<[p.1 := p.2]> (hit_blocks_by_group h)) (<[p.1 := n]> (hit_length_by_group h))
    (longest_hit_length h))). exact IH.
Qed.

(** Recording touches the listed ids only, and there the new length. *)
Lemma record_hits_length ids (bs : list (list blk)) n h i :
  hit_length_by_group (record_hits ids bs n h) !! i = hit_length_by_group h !! i \/
  i ∈ ids /\ hit_length_by_group (record_hits ids bs n h) !! i = Some n.
Proof.
  unfold record_hits. revert bs h. induction ids as [|j ids IH]; intros bs h; [by left |].
  destruct bs as [|b bs]; [by left |]. simpl.
  match goal with |- context [fold_left _ _ ?h0] => set (h1 := h0) end.
  destruct (IH bs h1) as [E|[Hin E]]; [|right; split; [by constructor | done]].
  destruct (decide (i = j)) as [->|Hn]; [right; split; [constructor |] | left]; rewrite E; unfold h1; simpl.
  - by rewrite lookup_insert_eq.
  - by rewrite lookup_insert_ne.
Qed.

Lemma record_hits_other ids (bs : list (list blk)) n h i : i ∉ ids ->
  hit_length_by_group (record_hits ids bs n h) !! i = hit_length_by_group h !! i /\
  hit_blocks_by_group (record_hits ids bs n h) !! i = hit_blocks_by_group h !! i.
Proof.
  unfold record_hits. revert bs h. induction ids as [|j ids IH]; intros bs h Hi; [done |].
  destruct bs as [|b bs]; [done |]. apply not_elem_of_cons in Hi as [Hij Hi]. simpl.
  match goal with |- context [fold_left _ _ ?h0] => set (h1 := h0) end.
  destruct (IH bs h1 Hi) as [-> ->]. unfold h1. simpl. by rewrite !lookup_insert_ne by done.
Qed.

(** Two states agree on the reconciled length and on the target groups [Q]. *)
Definition agree (Q : nat -> Prop) (h1 h2 : @hits blk) : Prop :=
  curr_hit_length h1 = curr_hit_length h2 /\ longest_hit_length h1 = longest_hit_length h2 /\
  forall i, Q i -> hit_length_by_group h1 !! i = hit_length_by_group h2 !! i /\
                   hit_blocks_by_group h1 !! i = hit_blocks_by_group h2 !! i.

Lemma record_hits_agree Q ids bs n h1 h2 :
  agree Q h1 h2 -> agree Q (record_hits ids bs n h1) (record_hits ids bs n h2).
Proof.
  unfold record_hits. revert h1 h2. induction (zip ids bs) as [|p l IH]; intros h1 h2 Ha; [done |].
  simpl. apply IH. destruct Ha as (Hc & Hl & Hq). split; [done | split; [done |]]. simpl.
  intros i Hi. destruct (Hq i Hi) as [E1 E2].
  destruct (decide (i = p.1)) as [->|Hn]; [by rewrite !lookup_insert_eq | by rewrite !lookup_insert_ne].
Qed.

Lemma target_step Q g h1 h2 :
  drafter g = false -> ag_use_eagle g = false -> agree Q h1 h2 ->
  agree Q (min_step lookup h1 g) (min_step lookup h2 g).
Proof.
  unfold drafter. intros Hd He (Hc & Hl & Hq). unfold min_step, drop_eagle_block. rewrite Hd, He. simpl.
  rewrite Hc. destruct (lookup g false (curr_hit_length h2)) as [n bs].
  unfold take_hit.
  match goal with |- agree Q (Hits _ _ _ _ (_ _ (_ (record_hits _ _ _ ?x))))
                             (Hits _ _ _ _ (_ _ (_ (record_hits _ _ _ ?y)))) => set (a1 := x); set (a2 := y) end.
  assert (agree Q a1 a2) as Ha by (split; [done | split; [done | apply Hq]]).
  apply (record_hits_agree Q (ag_ids g) bs n) in Ha as (Hc' & Hl' & Hq').
  split; [done | split; [|done]]. simpl. by rewrite Hc', Hl'.
Qed.

Lemma drafter_step Q g h1 h2 :
  drafter g = true -> (forall i, i ∈ ag_ids g -> ~ Q i) -> agree Q h1 h2 ->
  agree Q (min_step lookup h1 g) h2.
Proof.
  unfold drafter. intros Hd Hi (Hc & Hl & Hq). unfold min_step. rewrite Hd.
  destruct (lookup g _ _) as [n bs]. case_if; [|done].
  set (a1 := note_verified _ _ _ _).
  destruct (record_hits_frame (ag_ids g) bs n a1) as (E1 & E2 & _).
  split; [by rewrite E1 | split; [by rewrite E2 |]]. intros i Hqi.
  destruct (record_hits_other (ag_ids g) bs n a1 i) as [-> ->]; [by intros ?%Hi |]. by apply Hq.
Qed.

Lemma pass_agree Q gs h1 h2 :
  Forall (fun g => drafter g = false -> ag_use_eagle g = false) gs ->
  Forall (fun g => drafter g = true -> forall i, i ∈ ag_ids g -> ~ Q i) gs ->
  agree Q h1 h2 -> agree Q (min_pass lookup gs h1) (min_pass lookup (targets gs) h2).
Proof.
  unfold targets. revert h1 h2. induction gs as [|g gs IH]; intros h1 h2 He Hd Ha; [done |].
  inversion He as [|? ? He1 He2]; subst. inversion Hd as [|? ? Hd1 Hd2]; subst.
  rewrite filter_cons. case_decide as E; simpl.
  - apply IH; auto. apply target_step; auto.
  - apply not_false_iff_true in E. apply IH; auto. apply drafter_step; auto.
Qed.

(** The reconciled length only goes down. *)
Lemma step_curr_le h g :
  (forall g d c, fst (lookup g d c) <= c) ->
  curr_hit_length (min_step lookup h g) <= curr_hit_length h.
Proof.
  intros Hle. unfold min_step. set (d := drop_eagle_block g _).
  pose proof (Hle g d (curr_hit_length h)) as Hn. destruct (lookup g d _) as [n bs]. simpl in Hn.
  case_if; [case_if; [|done] |].
  - by destruct (record_hits_frame (ag_ids g) bs n (note_verified g d n h)) as (-> & _ & _).
  - unfold take_hit. set (a := @Hits blk n _ _ _ _). simpl.
    by destruct (record_hits_frame (ag_ids g) bs n a) as (-> & _ & _).
Qed.

(** A length recorded for an id no target owns covers the reconciled hit. *)
Lemma pass_covers gs h i :
  (forall g d c, fst (lookup g d c) <= c) ->
  Forall (fun g => drafter g = false -> i ∉ ag_ids g) gs ->
  let h' := min_pass lookup gs h in
  curr_hit_length h' <= curr_hit_length h /\
  (hit_length_by_group h' !! i = hit_length_by_group h !! i \/
   exists L, hit_length_by_group h' !! i = Some L /\ curr_hit_length h' <= L).
Proof.
  intros Hle. cbv zeta. revert h. induction gs as [|g gs IH]; intros h Hf; [split; [done | by left] |].
  inversion Hf as [|? ? Hg Hf']; subst.
  change (min_pass lookup (g :: gs) h) with (min_pass lookup gs (min_step lookup h g)).
  pose proof (step_curr_le h g Hle) as Hstep. destruct (IH (min_step lookup h g) Hf') as [Hc Hi].
  split; [lia |]. destruct Hi as [Hi|Hi]; [|by right]. rewrite Hi.
  revert Hc. generalize (curr_hit_length (min_pass lookup gs (min_step lookup h g))). intros c.
  unfold min_step. set (d := drop_eagle_block g _).
  destruct (lookup g d (curr_hit_length h)) as [n bs]. fold (drafter g). destruct (drafter g) eqn:Ed.
  - case_if; [|by left]. bool_to_prop. set (a := note_verified g d n h) in *. intros Hc.
    destruct (record_hits_length (ag_ids g) bs n a i) as [E|[_ E]]; [left; exact E | right].
    exists n. split; [exact E |].
    destruct (record_hits_frame (ag_ids g) bs n a) as (E' & _ & _). lia.
  - intros _. left. unfold take_hit. simpl.
    match goal with |- context [record_hits ?x ?y ?z ?w] =>
      destruct (record_hits_other x y z w i) as [E _]; [by apply Hg | exact E] end.
Qed.

End hybrid_facts.

(** C20. With the EAGLE bit narrowed to the drafter, one pass of the patched
    hybrid loop reconciles exactly the hit of the target groups: the length,
    the longest length and every target group's blocks are those of the pass
    without the drafter groups; and a length recorded in the pass for a
    drafter-only group id is never shorter than the reconciled hit. *)
Theorem drafter_never_shrinks_hit {blk} (lookup : agroup -> bool -> Z -> Z * list (list blk)) gs h
    (Heagle : Forall (fun g => drafter g = false -> ag_use_eagle g = false) gs)
    (Hle : forall g d c, fst (lookup g d c) <= c)
    (Hdisj : forall g g' i, g ∈ gs -> g' ∈ gs -> drafter g = true -> drafter g' = false ->
       i ∈ ag_ids g -> i ∉ ag_ids g') :
  let h1 := min_pass lookup gs h in
  let h2 := min_pass lookup (targets gs) h in
  curr_hit_length h1 = curr_hit_length h2 /\ longest_hit_length h1 = longest_hit_length h2 /\
  (forall g i, g ∈ gs -> drafter g = false -> i ∈ ag_ids g ->
     hit_length_by_group h1 !! i = hit_length_by_group h2 !! i /\
     hit_blocks_by_group h1 !! i = hit_blocks_by_group h2 !! i) /\
  (forall g i, g ∈ gs -> drafter g = true -> i ∈ ag_ids g ->
     hit_length_by_group h1 !! i = hit_length_by_group h !! i \/
     exists L, hit_length_by_group h1 !! i = Some L /\ curr_hit_length h1 <= L).
Proof.
  cbv zeta. set (Q := fun i => exists g, g ∈ gs /\ drafter g = false /\ i ∈ ag_ids g).
  assert (agree Q (min_pass lookup gs h) (min_pass lookup (targets gs) h)) as (Hc & Hl & Hq).
  { apply pass_agree; [done | | done]. apply Forall_forall. intros g Hg Hd i Hi (g' & Hg' & Hd' & Hi').
    exact (Hdisj g g' i Hg Hg' Hd Hd' Hi Hi'). }
  split; [done | split; [done | split]].
  - intros g i Hg Hd Hi. apply Hq. by exists g.
  - intros g i Hg Hd Hi. apply (pass_covers lookup gs h i Hle). apply Forall_forall.
    intros g' Hg' Hd'. exact (Hdisj g g' i Hg Hg' Hd Hd' Hi).
Qed.

(** ** The drafter's block *)

(** The safe pages below [64 * (k + 1)]: multiples of 64 dividing the target
    block, fitting its page, that the backend runs whole. *)
Definition safe_page (accepts : Z -> bool) (steps mla_page draft_bytes j : Z) : Prop :=
  1 < j /\ steps mod j = 0 /\ 64 * j * draft_bytes <= mla_page /\ accepts (64 * j) = true.

Lemma draft_search_spec accepts steps mla_page draft_bytes k :
  let b := draft_search accepts steps mla_page draft_bytes k in
  (b = 64 /\ forall j, j <= Z.of_nat k -> ~ safe_page accepts steps mla_page draft_bytes j) \/
  exists j, b = 64 * j /\ j <= Z.of_nat k /\ safe_page accepts steps mla_page draft_bytes j /\
    forall j', j' <= Z.of_nat k -> safe_page accepts steps mla_page draft_bytes j' -> j' <= j.
Proof.
  cbv zeta. induction k as [|k IH]; [left; split; [done | intros j Hj [? _]; lia] |].
  cbn [draft_search]. case_if; [left; bool_to_prop; split; [done | intros j Hj [? _]; lia] |]. cbv zeta.
  bool_to_prop. set (s := Z.of_nat (S k)) in *.
  assert (forall P : Prop, (safe_page accepts steps mla_page draft_bytes s -> False) ->
    (let b := draft_search accepts steps mla_page draft_bytes k in
     (b = 64 /\ forall j, j <= s -> ~ safe_page accepts steps mla_page draft_bytes j) \/
     exists j, b = 64 * j /\ j <= s /\ safe_page accepts steps mla_page draft_bytes j /\
       forall j', j' <= s -> safe_page accepts steps mla_page draft_bytes j' -> j' <= j)) as Hskip.
  { intros _ Hn. cbv zeta. destruct IH as [[E IH]|(j & E & Hj & Hs & IH)]; [left | right].
    - split; [done |]. intros j Hj Hsf. destruct (Z.eq_dec j s) as [->|]; [by apply Hn |].
      apply (IH j); [lia | done].
    - exists j. split; [done | split; [lia | split; [done |]]]. intros j' Hj' Hsf.
      destruct (Z.eq_dec j' s) as [->|]; [by destruct (Hn Hsf) | apply IH; [lia | done]]. }
  case_if; [apply (Hskip True); intros (_ & Hm & _); bool_to_prop; done |].
  case_if; [apply (Hskip True); intros (_ & _ & Hp & _); bool_to_prop; lia |].
  destruct (accepts (64 * s)) eqn:Ea; [|apply (Hskip True); intros (_ & _ & _ & Hp); congruence].
  right. exists s. bool_to_prop. split; [done | split; [lia |]]. split; [|by intros].
  split; [lia | split; [done | split; [lia | done]]].
Qed.

(** The drafter's block: the inlined search of the installed code and the
    reference function agree on every input, and choose the largest multiple of
    64 that divides the target block, whose page fits the target page and which
    the backend runs unsplit; the padded validator accepts that page, so the
    scheduler's common block stays the target block. *)
Theorem compact_block_largest kernel names mla_block mla_page draft_bytes
    (Hb : 0 < mla_block) (Hm : mla_block mod 64 = 0) (Hp : 0 < mla_page) (Hd : 0 < draft_bytes)
    (Hn : names <> []) (Hl : existsb (str_in "language_model") names = false)
    (Hfloor : 64 * draft_bytes <= mla_page) :
  let b := compact_block kernel names mla_block mla_page draft_bytes in
  b = choose_draft_block (kernel_accepts kernel) names mla_block mla_page draft_bytes /\
  page_valid mla_block mla_page b mla_page (b * draft_bytes) = true /\
  (b <> 64 -> kernel b = Some b) /\
  (forall c, 64 < c -> c mod 64 = 0 -> mla_block mod c = 0 -> c * draft_bytes <= mla_page ->
     kernel c = Some c -> c <= b).
Proof.
  cbv zeta. unfold compact_block, choose_draft_block.
  rewrite Hl, (bool_decide_eq_true_2 _ Hn), (bool_decide_eq_false_2 _ Hn), Hm.
  apply Z.div_exact in Hm as E; [|lia]. set (st := mla_block / 64) in *.
  assert (0 < st) as Hst by lia.
  rewrite (proj2 (Z.ltb_ge mla_block 64)), (proj2 (Z.leb_gt mla_page 0)),
    (proj2 (Z.leb_gt draft_bytes 0)), (proj2 (Z.ltb_lt 0 draft_bytes)) by lia.
  cbn [negb andb orb Z.eqb]. split; [done |].
  assert (forall j, 0 < j -> 64 * j * draft_bytes <= mla_page -> st mod j = 0 ->
    page_valid mla_block mla_page (64 * j) mla_page (64 * j * draft_bytes) = true) as Hv.
  { intros j Hj Hf Hmod. unfold page_valid.
    rewrite Z.eqb_refl, (Z.mul_comm 64 j), Z.mod_mul, (Z.mul_comm j 64) by lia.
    rewrite (proj2 (Z.leb_gt (64 * j) 0)), (proj2 (Z.ltb_ge mla_page _)) by lia.
    cbn [negb andb orb Z.eqb]. apply Z.eqb_eq. rewrite E, Z.mul_mod_distr_l by lia. lia. }
  assert (forall c, 64 < c -> c mod 64 = 0 -> mla_block mod c = 0 -> c * draft_bytes <= mla_page ->
    kernel c = Some c -> exists j, c = 64 * j /\ j <= st /\
      safe_page (kernel_accepts kernel) st mla_page draft_bytes j) as Hsafe.
  { intros c Hc Hc64 Hmc Hpc Hk. apply Z.div_exact in Hc64; [|lia]. exists (c / 64).
    set (j := c / 64) in *. rewrite E, Hc64, Z.mul_mod_distr_l in Hmc by lia.
    assert (st mod j = 0) as Hmj by lia. apply Z.div_exact in Hmj as Ej; [|lia].
    assert (0 < st / j) by nia.
    split; [done | split; [nia |]]. split; [lia | split; [done | split; [by rewrite <- Hc64 |]]].
    unfold kernel_accepts. rewrite <- Hc64, Hk. apply Z.eqb_refl. }
  pose proof (draft_search_spec (kernel_accepts kernel) st mla_page draft_bytes (Z.to_nat st)) as Hs.
  cbv zeta in Hs. rewrite Z2Nat.id in Hs by lia.
  destruct Hs as [[Eb Hs]|(j & Eb & Hj & Hsf & Hs)]; rewrite Eb.
  - split; [apply (Hv 1); [lia | lia | apply Z.mod_1_r] |]. split; [done |].
    intros c H1 H2 H3 H4 H5. destruct (Hsafe c H1 H2 H3 H4 H5) as (j & -> & Hj & Hsj).
    by destruct (Hs j Hj).
  - pose proof Hsf as (Hj1 & Hmod & Hfit & Hacc). split; [apply Hv; [lia | lia | done] |]. split.
    + intros _. revert Hacc. unfold kernel_accepts. destruct (kernel (64 * j)) as [k|]; [|done].
      intros ->%Z.eqb_eq. done.
    + intros c H1 H2 H3 H4 H5. destruct (Hsafe c H1 H2 H3 H4 H5) as (j' & -> & Hj' & Hsj).
      specialize (Hs j' Hj' Hsj). lia.
Qed.

(** ** Witnesses: the served configuration *)

Definition mla_leaf : leaf := Leaf ["MLAAttentionSpec"; "FullAttentionSpec"; "KVCacheSpec"] (Some 3584) None None.
Definition mamba_leaf : leaf := Leaf ["MambaSpec"; "KVCacheSpec"] (Some 3584) None (Some "align"%string).
Definition swa_leaf : leaf := Leaf ["SlidingWindowSpec"; "KVCacheSpec"] (Some 64) (Some 2048) None.
Definition plain (l : leaf) (page usage : Z) : kvspec := KvSpec l None page usage None None.
Definition demo_groups : list group :=
  [Group (plain mla_leaf 100 400) false; Group (plain mamba_leaf 100 100) false;
   Group (KvSpec swa_leaf (Some [swa_leaf]) 10 330 None None) false].
Definition swa_env : environ :=
  {[ "VLLM_PREFIX_CACHE_RETENTION_INTERVAL_SWA"%string := "7168"%string ]}.

Lemma retention_vector_sound_witness :
  retention_init ∅ demo_groups (eagle_fallback true demo_groups ∅) None 3584 = Ok [None; None; Some 0] /\
  length [None; None; Some 0] = length demo_groups.
Proof.
  assert (retention_init ∅ demo_groups (eagle_fallback true demo_groups ∅) None 3584
    = Ok [None; None; Some 0]) as H by (vm_compute; reflexivity).
  split; [exact H |].
  apply (retention_vector_sound ∅ demo_groups (eagle_fallback true demo_groups ∅) None 3584); [lia | done | exact H].
Defined.

Lemma override_needs_the_narrowing_witness :
  retention_init swa_env demo_groups (eagle_fallback true demo_groups ∅) None 3584
    = Ok [None; None; Some 7168] /\
  retention_init swa_env demo_groups (eagle_fallback_old true demo_groups ∅) None 3584 = Raise ValueError.
Proof.
  split; [vm_compute; reflexivity |].
  apply (override_needs_the_narrowing swa_env demo_groups None 3584 7168 0%nat).
  - lia.
  - done.
  - vm_compute. reflexivity.
  - intros H. assert (2%nat ∈ (∅ : gset nat)) as Hf; [|by apply not_elem_of_empty in Hf].
    rewrite <- H. apply draft_ids_elem. eexists. split; [reflexivity | vm_compute; reflexivity].
  - split; [vm_compute; lia |]. intros (g & [= <-] & Hd)%draft_ids_elem. vm_compute in Hd. discriminate.
Defined.

(** A drafter whose cached window reaches one page less than the target hit. *)
Definition demo_agroups : list agroup :=
  [AGroup 0 (plain mla_leaf 100 400) [0%nat] false 3584; AGroup 1 (plain swa_leaf 10 330) [2%nat] true 64;
   AGroup 2 (plain mamba_leaf 100 100) [1%nat] false 3584].
Definition demo_lookup (g : agroup) (drop : bool) (c : Z) : Z * list (list nat) :=
  (if drop then Z.min c 3584 else Z.min c 7168, [[ag_idx g]]).
Definition demo_hits : @hits nat := Hits 10000 ∅ ∅ ∅ 0.

Lemma drafter_never_shrinks_hit_witness :
  curr_hit_length (min_pass demo_lookup demo_agroups demo_hits) = 7168 /\
  curr_hit_length (min_pass demo_lookup demo_agroups demo_hits)
    = curr_hit_length (min_pass demo_lookup (targets demo_agroups) demo_hits).
Proof.
  split; [vm_compute; reflexivity |].
  apply (drafter_never_shrinks_hit demo_lookup demo_agroups demo_hits).
  - repeat (constructor; [vm_compute; congruence |]). constructor.
  - intros g d c. unfold demo_lookup. simpl. case_if; lia.
  - intros g g' i Hg Hg' Hd Hd' Hi.
    repeat (apply elem_of_cons in Hg as [->|Hg]); try (by apply not_elem_of_nil in Hg);
    repeat (apply elem_of_cons in Hg' as [->|Hg']); try (by apply not_elem_of_nil in Hg');
    try (vm_compute in Hd; discriminate); try (vm_compute in Hd'; discriminate);
    simpl in *; apply list_elem_of_singleton in Hi as ->; by intros ?%list_elem_of_singleton.
Defined.

Lemma compact_block_largest_witness :
  compact_block (fun c => if c <=? 1792 then Some c else Some 64) ["model.layers.0"%string] 3584 1000000 200 = 1792 /\
  page_valid 3584 1000000 1792 1000000 (1792 * 200) = true.
Proof.
  split; [vm_compute; reflexivity |].
  apply (compact_block_largest (fun c => if c <=? 1792 then Some c else Some 64) ["model.layers.0"%string]
    3584 1000000 200); try lia; try done; vm_compute; reflexivity.
Defined.
