(* ===== verification/KvCapacity.v ===== *)
(** * The KV capacity log

    Model of the helpers that [overlay/patch_kv_capacity_log.py] installs in
    vLLM's [kv_cache_utils.py]: one row per KV-cache group, the block ids one
    aligned cached segment costs, and the capacity summary.  The formatting of
    the printed lines is left out. *)
From Stdlib Require Import ZArith Lia.
From stdpp Require Import base list gmap strings numbers sets.
From S2P Require Import Prelude KvGroups.
#[local] Open Scope string_scope.
#[local] Open Scope list_scope.
#[local] Open Scope Z_scope.

(** ** Data *)

(** What the helpers read of [VllmConfig]: [speculative_config.use_eagle()] and
    the context-parallel sizes; [None] is an absent attribute. *)
Record vllm_config := VllmConfig {
  use_eagle : option bool;
  decode_context_parallel_size : option Z;
  prefill_context_parallel_size : option Z
}.

Record row := Row {
  r_index : nat;
  r_spec : string;
  r_block_size : Z;
  r_blocks_per_request : Z;
  r_prefix_cacheable : bool;
  r_eagle : bool;
  r_sliding_window : option Z;
  r_mamba_cache_mode : option string
}.

Record summary := Summary {
  s_num_blocks : Z;
  s_usable : Z;
  s_blocks_per_request : Z;
  s_alignment : Z;
  s_per_group : list (option Z);
  s_unmodelled : list nat;
  s_withheld : bool;
  s_total : Z;
  s_segments : option Z;
  s_capacity_tokens : option Z
}.

(** ** Rows *)

(** [_glm53_kv_capacity_log_enabled]. *)
Definition _glm53_kv_capacity_log_enabled (env : environ) : res bool :=
  match env !! "GLM53_KV_CAPACITY_LOG" with
  | None => Ok true
  | Some raw =>
      if String.eqb raw "1" then Ok true
      else if String.eqb raw "0" then Ok false
      else Raise ValueError
  end.

(** [_glm53_spec_prefix_cacheable]. *)
Definition _glm53_spec_prefix_cacheable (s : kvspec) : bool :=
  match participates_in_prefix_caching s with
  | Some b => b
  | None => default true (prefix_cacheable_attr s)
  end.

(** [_glm53_eagle_group_ids]. *)
Definition _glm53_eagle_group_ids (cfg : vllm_config) (groups : list group) : gset nat :=
  let ids := indices is_eagle_group groups in
  if bool_decide (ids <> ∅) then ids
  else if negb (default false (use_eagle cfg)) then ∅
  else
    let swa := indices (fun g => String.eqb
                 (class_name (_glm53_inner_kv_spec (kv_cache_spec g))) "SlidingWindowSpec") groups in
    if bool_decide (swa = ∅) then all_ids groups else swa.

(** [_glm53_mamba_cache_mode]. *)
Definition _glm53_mamba_cache_mode (s : kvspec) : option string :=
  let specs := match kv_cache_specs s with Some (l :: ls) => l :: ls | _ => [own s] end in
  match remove_dups (map mamba_cache_mode specs) with
  | [m] => m
  | _ => Some "mixed"
  end.

(** The body of the loop of [_glm53_kv_capacity_rows]; a spec without a block
    size raises. *)
Definition capacity_row (eagle : gset nat) (index : nat) (g : group) : res row :=
  let spec := kv_cache_spec g in
  let inner := _glm53_inner_kv_spec spec in
  let kinds := mro inner in
  bs ← of_option AttributeError (block_size (own spec));
  if page_size_bytes spec =? 0 then Raise OtherException
  else
    mret (Row index (class_name inner) bs
      (cdiv (max_memory_usage_bytes spec) (page_size_bytes spec))
      (_glm53_spec_prefix_cacheable spec) (bool_decide (index ∈ eagle))
      (if existsb (String.eqb "SlidingWindowSpec") kinds then sliding_window inner else None)
      (if existsb (String.eqb "MambaSpec") kinds then _glm53_mamba_cache_mode spec else None)).

(** [_glm53_kv_capacity_rows]. *)
Definition _glm53_kv_capacity_rows (cfg : vllm_config) (groups : list group) : res (list row) :=
  let eagle := _glm53_eagle_group_ids cfg groups in
  mapM (fun p : nat * group => capacity_row eagle p.1 p.2) (imap pair groups).

(** ** Ids per segment *)

(** [_glm53_ids_per_segment]; [None] is "not modelled". *)
Definition _glm53_ids_per_segment (r : row) (alignment : Z) : option Z :=
  if negb (r_prefix_cacheable r) then Some 0
  else if (r_block_size r <=? 0) || negb (alignment mod r_block_size r =? 0) then None
  else
    let per_segment := alignment / r_block_size r in
    let kind := r_spec r in
    if String.eqb kind "MambaSpec" then
      if bool_decide (r_mamba_cache_mode r = Some "align" \/ r_mamba_cache_mode r = Some "all")
      then Some per_segment else None
    else if existsb (String.eqb kind) ["SlidingWindowSpec"; "SlidingWindowMLASpec"] then
      if falsy (r_sliding_window r) then None
      else
        let window := default 0 (r_sliding_window r) in
        let need := cdiv (window - 1) (r_block_size r) + (if r_eagle r then 1 else 0) in
        Some (Z.min need per_segment)
    else if existsb (String.eqb kind) ["FullAttentionSpec"; "MLAAttentionSpec"] then Some per_segment
    else None.

(** ** Summary *)

(** [int(v or 1)]. *)
Definition int_or_one (v : option Z) : Z := if falsy v then 1 else default 1 v.

(** [_glm53_context_parallel_sizes]. *)
Definition _glm53_context_parallel_sizes (cfg : vllm_config) : Z * Z :=
  (int_or_one (decode_context_parallel_size cfg), int_or_one (prefill_context_parallel_size cfg)).

(** The common alignment of the groups. *)
Definition alignment_of (rows : list row) : Z :=
  fold_left (fun a r => Z.lcm a (Z.max (r_block_size r) 1)) rows 1.

(** [_glm53_kv_capacity_summary]. *)
Definition _glm53_kv_capacity_summary (rows : list row) (num_blocks : Z) (cfg : vllm_config) : summary :=
  let usable := Z.max (num_blocks - 1) 0 in
  let blocks_per_request := Zsum (map r_blocks_per_request rows) in
  let alignment := alignment_of rows in
  let per_group := map (fun r => _glm53_ids_per_segment r alignment) rows in
  let unmodelled := omap (fun p : row * option Z =>
                       match p.2 with None => Some (r_index p.1) | Some _ => None end)
                     (zip rows per_group) in
  let '(dcp, pcp) := _glm53_context_parallel_sizes cfg in
  let withheld := (1 <? dcp) || (1 <? pcp) in
  let total := Zsum (omap id per_group) in
  let go := bool_decide (rows <> []) && bool_decide (unmodelled = []) && negb withheld && (0 <? total) in
  let segments := if go then Some (usable / total) else None in
  Summary num_blocks usable blocks_per_request alignment per_group unmodelled withheld total
    segments ((fun s => s * alignment) <$> segments).

(** [_glm53_log_kv_capacity]: what is logged. *)
Inductive logged :=
  | LogDisabled
  | LogWarning
  | LogSummary (rows : list row) (s : summary).

Definition _glm53_log_kv_capacity (env : environ) (cfg : vllm_config) (groups : list group)
    (num_blocks : Z) : res logged :=
  on ← _glm53_kv_capacity_log_enabled env;
  if negb on then mret LogDisabled
  else
    mret match _glm53_kv_capacity_rows cfg groups with
         | Raise _ => LogWarning
         | Ok rows => LogSummary rows (_glm53_kv_capacity_summary rows num_blocks cfg)
         end.

(** ** Facts *)

Lemma alignment_fold rows a : 0 < a ->
  let m := fold_left (fun a r => Z.lcm a (Z.max (r_block_size r) 1)) rows a in
  0 < m /\ (a | m) /\ forall r, r ∈ rows -> (Z.max (r_block_size r) 1 | m).
Proof.
  cbv zeta. revert a. induction rows as [|r rows IH]; intros a Ha.
  { split; [done | split; [apply Z.divide_refl | by intros ? ?%not_elem_of_nil]]. }
  simpl. set (b := Z.lcm a (Z.max (r_block_size r) 1)).
  assert (0 < b) as Hb.
  { assert (b <> 0) by (intros [?|?]%Z.lcm_eq_0; lia). pose proof (Z.lcm_nonneg a (Z.max (r_block_size r) 1)). lia. }
  destruct (IH b Hb) as (Hm & Hd & Hr). split; [done | split].
  - eapply Z.divide_trans; [apply Z.divide_lcm_l | exact Hd].
  - intros q [->|Hq]%elem_of_cons; [|by apply Hr].
    eapply Z.divide_trans; [apply Z.divide_lcm_r | exact Hd].
Qed.

(** The alignment is positive and a multiple of every group's block. *)
Lemma alignment_divides rows r : r ∈ rows -> 0 < r_block_size r ->
  0 < alignment_of rows /\ (r_block_size r | alignment_of rows).
Proof.
  intros Hr Hb. destruct (alignment_fold rows 1 ltac:(lia)) as (Hm & _ & Hd). split; [done |].
  specialize (Hd r Hr). by rewrite Z.max_l in Hd by lia.
Qed.

Lemma alignment_pos rows : 0 < alignment_of rows.
Proof. by destruct (alignment_fold rows 1 ltac:(lia)) as (Hm & _ & _). Qed.

(** A segment never costs a group more than every block of the segment. *)
Lemma ids_per_segment_le r al v : 0 < al -> 0 < r_block_size r ->
  _glm53_ids_per_segment r al = Some v -> v <= al / r_block_size r.
Proof.
  unfold _glm53_ids_per_segment. intros Ha Hb.
  assert (0 <= al / r_block_size r) by (apply Z.div_pos; lia).
  cbv zeta. repeat case_if; intros [= <-]; lia.
Qed.

(** The index is reported exactly when the cost is not modelled. *)
Lemma unmodelled_nil (rows : list row) (costs : list (option Z)) : length rows = length costs ->
  omap (fun p : row * option Z => match p.2 with None => Some (r_index p.1) | Some _ => None end)
    (zip rows costs) = [] <-> forall c, c ∈ costs -> c <> None.
Proof.
  revert costs. induction rows as [|r rows IH]; intros [|c costs]; simpl; try done.
  { split; [intros _ c Hc; by apply not_elem_of_nil in Hc | done]. }
  intros [= Hl]. destruct c as [v|]; simpl.
  - rewrite IH by done. split; [intros H c [->|Hc]%elem_of_cons; [done | by apply H] |].
    intros H c Hc. apply H. by constructor.
  - split; [done |]. intros H. by destruct (H None ltac:(constructor)).
Qed.

(** ** Capacity *)


(** The log mirrors the coordinator: the EAGLE groups it derives are those
    of the coordinator patched by the hybrid overlay, for every configuration
    and every list of groups, so the drafter row it costs with the extra block
    is the group the coordinator pops a block from. *)
Theorem eagle_ids_mirror_coordinator cfg groups :
  _glm53_eagle_group_ids cfg groups =
    eagle_fallback (default false (use_eagle cfg)) groups (indices is_eagle_group groups).
Proof.
  unfold _glm53_eagle_group_ids, eagle_fallback, draft_ids, _glm53_is_draft_swa_spec. cbv zeta.
  destruct (decide (indices is_eagle_group groups = ∅)) as [E|E].
  - rewrite (bool_decide_eq_true_2 _ E), (bool_decide_eq_false_2 (_ <> ∅)) by auto.
    rewrite E. by destruct (default false (use_eagle cfg)).
  - by rewrite (bool_decide_eq_true_2 _ E), (bool_decide_eq_false_2 _ E), andb_false_r.
Qed.

(** ** The served configuration *)

(** Thirty-three drafter ids, four state snapshots and one MLA block per
    3,584-token segment; 643 blocks hold 16 segments. *)
Definition served_rows : list row :=
  [Row 0 "MLAAttentionSpec" 3584 293 true false None None;
   Row 1 "MambaSpec" 3584 4 true false None (Some "align");
   Row 2 "MambaSpec" 3584 4 true false None (Some "align");
   Row 3 "MambaSpec" 3584 4 true false None (Some "align");
   Row 4 "MambaSpec" 3584 4 true false None (Some "align");
   Row 5 "SlidingWindowSpec" 64 89 true true (Some 2048) None;
   Row 6 "KpoolTailSpec" 64 1 false false (Some 64) None].
Definition served_cfg : vllm_config := VllmConfig (Some true) None (Some 1).

Example served_costs :
  let s := _glm53_kv_capacity_summary served_rows 643 served_cfg in
  s_total s = 38 /\ s_segments s = Some 16 /\ s_capacity_tokens s = Some 57344.
Proof. vm_compute. done. Qed.

