(* ===== verification/Boundaries.v ===== *)
(** * Chunk and cache boundaries

    The arithmetic that two scheduler overlays install:
    [overlay/patch_align_floor.py] (where a prefill chunk of a block-aligned
    request may end) and [overlay/patch_apc_tail_boundary.py] (where the tail of
    a prompt is registered in the prefix cache). *)
From Stdlib Require Import ZArith Lia.
From stdpp Require Import base list gmap strings numbers.
From S2P Require Import Prelude.
#[local] Open Scope string_scope.
#[local] Open Scope Z_scope.

(** ** The align floor *)

(** [_glm53_align_floor]. *)
Definition _glm53_align_floor (env : environ) : bool :=
  let v := lower (strip (environ_get env "GLM53_ALIGN_FLOOR" "1")) in
  negb (existsb (String.eqb v) ["0"; "off"; "false"; "no"; ""]).

(** [SPLIT_OLD] and [SPLIT_NEW]: the end of a chunk [start, end]. *)
Definition split_old (block_size max_prefill_tokens start end_ : Z) : Z :=
  let aligned_end := end_ / block_size * block_size in
  if (start <? aligned_end) || (block_size <=? max_prefill_tokens) then aligned_end else end_.

Definition split_new (env : environ) (block_size max_prefill_tokens start end_ : Z) : Z :=
  let aligned_end := end_ / block_size * block_size in
  if (start <? aligned_end)
     || ((block_size <=? max_prefill_tokens) && negb (_glm53_align_floor env))
  then aligned_end else end_.

(** What the method returns to the scheduler: the tokens of the chunk. *)
Definition chunk_tokens (start end_ : Z) : Z := Z.max (end_ - start) 0.

(** The chunks of one request, each step asking for [want] more tokens, until
    the prompt is done or the steps run out: the positions reached. *)
Fixpoint crawl (split : Z -> Z -> Z) (want target start : Z) (steps : nat) : list Z :=
  match steps with
  | O => []
  | S n =>
      if target <=? start then []
      else
        let start' := start + chunk_tokens start (split start (Z.min (start + want) target)) in
        start' :: crawl split want target start' n
  end.

(** ** The cached tail *)

(** [SCHED_OLD] and [SCHED_NEW]; [FA_NEW] and [MAMBA_NEW] compute the same
    boundary. *)
Definition tail_boundary_old (partial : bool) (n hash_block_size : Z) : Z :=
  if partial then n / hash_block_size * hash_block_size else 0.
Definition tail_boundary (partial : bool) (n hash_block_size : Z) : Z :=
  if partial then (n - 1) / hash_block_size * hash_block_size else 0.

(** [FA_NEW]: the full-attention tail, or nothing to register. *)
Definition fa_tail_boundary (n hash_block_size num_tokens : Z) : option Z :=
  let boundary_tokens := (n - 1) / hash_block_size * hash_block_size in
  if (boundary_tokens =? 0) || (num_tokens <? boundary_tokens) then None else Some boundary_tokens.

(** [MAMBA_NEW]. *)
Definition latest_prompt_hash_boundary (n hash_block_size : Z) : Z :=
  (n - 1) / hash_block_size * hash_block_size.

(** ** Facts *)

(** With the floor on, a chunk that asks for something gets something, and its
    end is either on the block grid or short of the next boundary. *)
Lemma split_new_progress env bs mp start e :
  _glm53_align_floor env = true -> 0 < bs -> 0 <= start < e ->
  start < split_new env bs mp start e <= e /\
  ((bs | split_new env bs mp start e) \/ floor_to (split_new env bs mp start e) bs <= start).
Proof.
  intros Hon Hb Hs. unfold split_new. rewrite Hon, andb_false_r, orb_false_r. cbv zeta.
  change (e / bs * bs) with (floor_to e bs).
  pose proof (floor_to_le e bs Hb). case_if; bool_to_prop; split; auto; try lia.
  left. apply floor_to_divide.
Qed.


(** The knob is a rollback and, at the production cap, a no-op: with the
    floor off, or with a block larger than the long-prefill cap, the installed
    split is the stock one; where the two differ the stock split hands the
    request no token at all. *)
Theorem align_floor_differs_only_on_stalls env bs mp start e (Hb : 0 < bs) (Hs : 0 <= start < e) :
  (_glm53_align_floor env = false -> split_new env bs mp start e = split_old bs mp start e) /\
  (mp < bs -> split_new env bs mp start e = split_old bs mp start e) /\
  (split_new env bs mp start e <> split_old bs mp start e ->
     chunk_tokens start (split_old bs mp start e) = 0 /\
     chunk_tokens start (split_new env bs mp start e) = e - start).
Proof.
  unfold split_new, split_old, chunk_tokens. cbv zeta.
  split; [|split].
  - intros ->. by rewrite andb_true_r.
  - intros Hm. by rewrite (proj2 (Z.leb_gt bs mp)) by lia.
  - destruct (start <? e / bs * bs) eqn:E1; [done |]. simpl.
    destruct (bs <=? mp); [|done]. simpl. destruct (negb _); [done |]. bool_to_prop. lia.
Qed.

(** The tail of a prompt is registered exactly where a replay can look:
    the three patched sites agree, the boundary is the deepest multiple of the
    hash block within the [n - 1] tokens a lookup may reuse; and it differs from
    the stock boundary only when the hash block divides the prompt, where the
    stock boundary is out of reach. *)
Theorem tail_boundary_is_reachable n h (Hn : 0 < n) (Hh : 0 < h) :
  let b := tail_boundary true n h in
  b = latest_prompt_hash_boundary n h /\
  (forall t, b <> 0 -> b <= t -> fa_tail_boundary n h t = Some b) /\
  0 <= b <= n - 1 /\ (h | b) /\ (forall m, (h | m) -> m <= n - 1 -> m <= b) /\
  (~ (h | n) -> tail_boundary_old true n h = b) /\
  ((h | n) -> tail_boundary_old true n h = n /\ b = n - h).
Proof.
  cbv zeta. change (tail_boundary true n h) with (floor_to (n - 1) h).
  change (tail_boundary_old true n h) with (floor_to n h).
  split; [done |]. split.
  { intros t Hb Ht. unfold fa_tail_boundary. cbv zeta. change ((n - 1) / h * h) with (floor_to (n - 1) h).
    rewrite (proj2 (Z.eqb_neq _ 0) Hb), (proj2 (Z.ltb_ge t _)) by lia. done. }
  pose proof (floor_to_le (n - 1) h Hh). pose proof (floor_to_nonneg (n - 1) h Hh ltac:(lia)).
  split; [lia |]. split; [apply floor_to_divide |]. split; [intros m; by apply floor_to_greatest |].
  split.
  - intros Hnd. apply Z.le_antisymm.
    + apply floor_to_greatest; [done | apply floor_to_divide |]. pose proof (floor_to_le n h Hh).
      destruct (Z.eq_dec (floor_to n h) n) as [E|]; [|lia]. destruct Hnd. rewrite <- E. apply floor_to_divide.
    + apply floor_to_mono; lia.
  - intros Hd. rewrite floor_to_id by done. split; [done |]. apply Z.le_antisymm.
    + destruct (floor_to_divide (n - 1) h) as [k Hk]. destruct Hd as [m ->].
      rewrite Hk in *. assert (k < m) by nia. nia.
    + apply floor_to_greatest; [done | apply Z.divide_sub_r; [done | apply Z.divide_refl] | lia].
Qed.

(** ** Witnesses *)


Lemma align_floor_differs_only_on_stalls_witness :
  split_new ∅ 3584 3584 0 512 = 512 /\ chunk_tokens 0 (split_old 3584 3584 0 512) = 0.
Proof.
  split; [vm_compute; reflexivity |].
  apply (align_floor_differs_only_on_stalls ∅ 3584 3584 0 512); try lia. vm_compute. discriminate.
Defined.

Lemma tail_boundary_is_reachable_witness :
  tail_boundary true 10752 64 = 10688 /\ tail_boundary_old true 10752 64 = 10752 /\
  tail_boundary true 10752 64 = 10752 - 64.
Proof.
  split; [reflexivity | split; [reflexivity |]].
  apply (tail_boundary_is_reachable 10752 64); [lia | lia |]. by exists 168.
Defined.
