(* ===== verification/Installer.v ===== *)
(** * The patcher interface

    What every source patcher of [overlay/] promises to the start script that
    runs it: it either refuses and leaves the file alone, or finds its work
    done, or rewrites the file by exact replacements of known anchors, after
    which a second run finds its work done.  Python's own parser is a parameter:
    [parses] says whether [ast.parse] and [compile] accept a text, [os_import]
    whether its top level has a plain [import os]. *)
From Stdlib Require Import ZArith Lia String Ascii.
From stdpp Require Import base list strings gmap.
From S2P Require Import Prelude PyStr.
#[local] Open Scope string_scope.

(** ** The common operations *)

(** [replace_once]: exactly one occurrence, or the patcher exits. *)
Definition replace_once (text old new label : string) : res string :=
  if (str_count old text =? 1)%nat then Ok (replace_first old new text)
  else Raise (SystemExit label).

(** [if cond: raise SystemExit(msg)]. *)
Definition refuse_if (cond : bool) (msg : string) : res unit :=
  if cond then Raise (SystemExit msg) else Ok tt.

(** [compile(text, ...)] and [ast.parse(text)]. *)
Definition check_syntax (parses : string -> bool) (text : string) : res unit :=
  if parses text then Ok tt else Raise OtherException.

(** What a run on an existing file does: [Ok None] leaves it, [Ok (Some t)]
    replaces it by [t], [Raise] exits with an error and leaves it. *)
Abbreviation patch_run := (string -> res (option string)).

(** The file after a run, and whether the start script goes on. *)
Definition boot (run : patch_run) (text : string) : string * bool :=
  match run text with
  | Ok None => (text, true)
  | Ok (Some t) => (t, true)
  | Raise _ => (text, false)
  end.

(** ** The interface *)

Class Patcher (run : patch_run) (table : list (string * string)) : Prop := {
  patch_exact t t' : run t = Ok (Some t') -> edits table t t';
  patch_idem t t' : run t = Ok (Some t') -> run t' = Ok None
}.

(** Booting twice is booting once. *)
Lemma boot_idem run table `{!Patcher run table} t :
  snd (boot run t) = true -> boot run (fst (boot run t)) = boot run t.
Proof.
  unfold boot. destruct (run t) as [[t'|]|] eqn:E; simpl; [|by rewrite E |done].
  intros _. by rewrite (patch_idem t t' E).
Qed.

(** A failed run leaves the file as it was. *)
Lemma boot_fail_closed run t : snd (boot run t) = false -> fst (boot run t) = t.
Proof. unfold boot. by destruct (run t) as [[t'|]|]. Qed.

(** ** Lemmas for the instances *)

Lemma replace_once_Ok text old new label t' :
  replace_once text old new label = Ok t' -> str_count old text = 1 /\ t' = replace_first old new text.
Proof. unfold replace_once. destruct (Nat.eqb_spec (str_count old text) 1); [|done]. by intros [= <-]. Qed.

Lemma count_one_in n s : n <> "" -> str_count n s = 1 -> str_in n s = true.
Proof. intros Hn H. apply str_count_pos; [done |]. by rewrite H. Qed.

Lemma replace_once_edits table text old new label t' :
  old <> "" -> In (old, new) table -> replace_once text old new label = Ok t' -> edits table text t'.
Proof.
  intros Ho Ht [Hc ->]%replace_once_Ok. apply edits_one; [done |]. by apply count_one_in.
Qed.

(** A marker inside a text that occurs occurs. *)
Lemma mark_in mark new t : str_in mark new = true -> new <> "" -> str_count new t = 1 -> str_in mark t = true.
Proof. intros Hm Hn Hc. apply (str_in_trans mark new t Hm). by apply count_one_in. Qed.

Lemma refuse_if_Ok c m u : refuse_if c m = Ok u -> c = false.
Proof. unfold refuse_if. by destruct c. Qed.

Lemma check_syntax_Ok parses t u : check_syntax parses t = Ok u -> parses t = true.
Proof. unfold check_syntax. by destruct (parses t). Qed.

Lemma eqb_one (n : nat) : negb (n =? 1)%nat = false -> n = 1%nat.
Proof. intros H. bool_to_prop. done. Qed.

(** Take apart a successful sequence of steps. *)
Ltac step_ok H :=
  let x := fresh "x" in let E := fresh "E" in
  apply bind_Ok in H as (x & E & H).

(** Discharge the side conditions on concrete anchors. *)
Ltac anchor := first [by vm_compute | vm_compute; discriminate | simpl; tauto].

(** Steps shared by the instances. *)
Lemma refuse_unique_edits table text old new m u :
  old <> "" -> In (old, new) table -> refuse_if (negb (str_count old text =? 1)%nat) m = Ok u ->
  edits table text (replace_first old new text).
Proof.
  intros Ho Ht H%refuse_if_Ok%eqb_one. apply edits_one; [done |]. by apply count_one_in.
Qed.

(** Replacing a table entry is an edit, or nothing when the anchor is gone. *)
Lemma replace_first_edits table old new t : In (old, new) table -> edits table t (replace_first old new t).
Proof.
  intros Ht. destruct (str_in old t) eqn:E; [by apply edits_one |].
  rewrite replace_first_absent by done. constructor.
Qed.

(** Turn a successful [replace_once] into an edit of the table. *)
Ltac edit_step tb E :=
  match type of E with
  | replace_once ?t ?o ?n ?l = Ok ?u =>
      assert (edits tb t u) by
        (apply (replace_once_edits tb t o n l u); [by vm_compute | simpl; tauto | exact E])
  end.

(** Follow the edits of the context from the text the goal starts with. *)
Ltac chain_edits := repeat (eapply edits_trans; [eassumption |]); constructor.
