(* ===== verification/SitePatch.v ===== *)
(** * Patchers driven by a table of sites

    The installers that list their edits as (label, mark, anchor, patched)
    tuples and share one [verified_state] and one [prepare]:
    [overlay/patch_w28_correctness.py], [overlay/patch_indexer_workspace.py]
    ([_verified], [_prepare]) and [overlay/patch_kpool_tail_correctness.py],
    whose marks are optional; and the installers of several files, which stage
    every file before they write the first. *)
From Stdlib Require Import ZArith Lia String Ascii.
From stdpp Require Import base list strings gmap.
From S2P Require Import Prelude PyStr Installer.
#[local] Open Scope string_scope.

(** ** Sites *)

Record site := Site { label : string; mark : option string; anchor : string; patched : string }.

Definition site_table (sites : list site) : list (string * string) := map (fun s => (anchor s, patched s)) sites.

(** The body of [verified_state]'s loop. *)
Definition site_ok (text : string) (s : site) : bool :=
  (str_count (patched s) text =? 1)%nat
  && (str_count (anchor s) text =? str_count (anchor s) (patched s))%nat
  && match mark s with Some m => (str_count m text =? 1)%nat | None => true end.

Definition verified_state (text : string) (sites : list site) : bool := forallb (site_ok text) sites.

(** [sum(text.count(mark) for ... in sites)]. *)
Fixpoint mark_total (text : string) (sites : list site) : nat :=
  match sites with
  | [] => 0
  | s :: rest => match mark s with Some m => str_count m text | None => 0 end + mark_total text rest
  end.

(** The loop over the sites: each anchor must occur exactly once. *)
Fixpoint apply_sites (sites : list site) (out : string) : res string :=
  match sites with
  | [] => Ok out
  | s :: rest =>
      _ ← refuse_if (negb (str_count (anchor s) out =? 1)%nat) (label s);
      apply_sites rest (replace_first (anchor s) (patched s) out)
  end.

(** [prepare] of the W28 patcher and [_prepare] of the indexer patcher: every
    site has a mark, and all of them or none are in the file. *)
Definition prepare_marked (sites : list site) (text : string) : res string :=
  let marks := mark_total text sites in
  if negb (marks =? 0)%nat then
    _ ← refuse_if (negb (marks =? length sites)%nat || negb (verified_state text sites)) "partial";
    mret text
  else
    out ← apply_sites sites text;
    _ ← refuse_if (negb (verified_state out sites)) "post-patch verification failed";
    mret out.

(** [prepare] of the kpool tail patcher: the sites without a mark are told
    apart by their anchor and replacement alone. *)
Definition prepare_optional (sites : list site) (text : string) : res string :=
  if negb (mark_total text sites =? 0)%nat then
    _ ← refuse_if (negb (verified_state text sites)) "partial";
    mret text
  else if verified_state text sites then mret text
  else
    out ← apply_sites sites text;
    _ ← refuse_if (negb (verified_state out sites)) "post-patch verification failed";
    mret out.

(** What happens to one file: prepared, compiled, written when it changed. *)
Definition site_run (parses : string -> bool) (prepare : string -> res string) (text : string)
    : res (option string) :=
  out ← prepare text;
  _ ← check_syntax parses out;
  mret (if String.eqb out text then None else Some out).

(** ** One file *)

Lemma apply_sites_edits sites table t t' :
  incl (site_table sites) table -> apply_sites sites t = Ok t' -> edits table t t'.
Proof.
  revert t. induction sites as [|s rest IH]; intros t Hi H; simpl in H.
  - injection H as <-. constructor.
  - step_ok H. apply (edits_trans table t (replace_first (anchor s) (patched s) t)).
    + apply replace_first_edits, Hi. by left.
    + apply IH; [|exact H]. intros e He. apply Hi. by right.
Qed.

Lemma verified_mark_total text sites :
  verified_state text sites = true -> Forall (fun s => mark s <> None) sites -> mark_total text sites = length sites.
Proof.
  intros H. induction 1 as [|s rest Hs Hr IH]; simpl in *; [done |].
  apply andb_true_iff in H as [H1 H2]. rewrite IH by done. unfold site_ok in H1. bool_to_prop.
  destruct (mark s); [|done]. bool_to_prop. lia.
Qed.

(** What both variants of [prepare] promise about the text they return. *)
Class Preparer (prepare : string -> res string) (sites : list site) : Prop := {
  prepare_edits t t' : prepare t = Ok t' -> edits (site_table sites) t t';
  prepare_verified t t' : prepare t = Ok t' -> verified_state t' sites = true;
  prepare_idem t t' : prepare t = Ok t' -> prepare t' = Ok t'
}.

#[export] Instance prepare_marked_preparer sites :
  TCEq (forallb (fun s => bool_decide (mark s <> None)) sites) true -> TCEq (length sites =? 0)%nat false ->
  Preparer (prepare_marked sites) sites.
Proof.
  intros Hm%TCEq_eq Hn%TCEq_eq. apply Nat.eqb_neq in Hn.
  assert (Forall (fun s => mark s <> None) sites) as HM.
  { clear Hn. induction sites as [|s rest IH]; [constructor |]. simpl in Hm. apply andb_true_iff in Hm as [H1 H2].
    apply bool_decide_eq_true in H1. constructor; auto. }
  assert (forall t t', prepare_marked sites t = Ok t' -> edits (site_table sites) t t' /\ verified_state t' sites = true) as HP.
  { intros t t'. unfold prepare_marked. cbv zeta. destruct (negb (mark_total t sites =? 0)%nat); intros H; step_ok H.
    - injection H as <-. apply refuse_if_Ok, orb_false_iff in E as [_ E]. apply negb_false_iff in E.
      split; [constructor | done].
    - step_ok H. injection H as <-. apply refuse_if_Ok, negb_false_iff in E0. split; [|done].
      by apply (apply_sites_edits sites); [apply incl_refl |]. }
  split; intros t t' H; [by apply (HP t) | by apply (HP t) |].
  apply HP in H as [_ Hv]. unfold prepare_marked. cbv zeta. rewrite verified_mark_total by done.
  rewrite (proj2 (Nat.eqb_neq (length sites) 0)) by done. simpl. by rewrite Nat.eqb_refl, Hv.
Qed.

#[export] Instance prepare_optional_preparer sites : Preparer (prepare_optional sites) sites.
Proof.
  assert (forall t t', prepare_optional sites t = Ok t' -> edits (site_table sites) t t' /\ verified_state t' sites = true) as HP.
  { intros t t'. unfold prepare_optional.
    destruct (negb (mark_total t sites =? 0)%nat); [|destruct (verified_state t sites) eqn:Ev]; intros H.
    - step_ok H. injection H as <-. apply refuse_if_Ok, negb_false_iff in E. split; [constructor | done].
    - injection H as <-. split; [constructor | done].
    - step_ok H. step_ok H. injection H as <-. apply refuse_if_Ok, negb_false_iff in E0. split; [|done].
      by apply (apply_sites_edits sites); [apply incl_refl |]. }
  split; intros t t' H; [by apply (HP t) | by apply (HP t) |].
  apply HP in H as [_ Hv]. unfold prepare_optional. rewrite Hv. by destruct (negb _).
Qed.

(** A fixed point of [prepare] is a finished file. *)
Lemma site_run_patcher parses prepare table :
  (forall t t', prepare t = Ok t' -> edits table t t' /\ prepare t' = Ok t') -> Patcher (site_run parses prepare) table.
Proof.
  intros HP. split; unfold site_run; intros t t' H; step_ok H; step_ok H; (destruct (String.eqb x t); [done |]);
    injection H as <-; apply HP in E as [E1 E2]; [exact E1 |].
  rewrite E2. simpl. rewrite E0. simpl. by rewrite String.eqb_refl.
Qed.

#[export] Instance site_patcher parses prepare sites `{!Preparer prepare sites} :
  Patcher (site_run parses prepare) (site_table sites).
Proof. apply site_run_patcher. intros t t' H. split; [by apply prepare_edits | by apply (prepare_idem t)]. Qed.

(** ** Several files *)

(** Every file is staged; only then is the first one written. *)
Fixpoint stage (plan : list patch_run) (texts : list string) : res (list string) :=
  match plan, texts with
  | run :: plan', t :: texts' =>
      r ← run t;
      rest ← stage plan' texts';
      mret (default t r :: rest)
  | _, _ => Ok texts
  end.

(** The files after the run, and whether the start script goes on. *)
Definition boot_all (plan : list patch_run) (texts : list string) : list string * bool :=
  match stage plan texts with Ok texts' => (texts', true) | Raise _ => (texts, false) end.

Lemma stage_boot plan texts texts' :
  stage plan texts = Ok texts' -> length plan = length texts ->
  Forall2 (fun run p => boot run (fst p) = (snd p, true)) plan (zip texts texts').
Proof.
  revert texts texts'. induction plan as [|run plan IH]; intros [|t texts] texts' H Hl; try discriminate Hl.
  - constructor.
  - simpl in H. step_ok H. step_ok H. injection H as <-. constructor.
    + unfold boot. simpl. rewrite E. by destruct x.
    + apply IH; [done | by injection Hl].
Qed.

Lemma stage_idem plan texts texts' :
  Forall (fun run => exists table, Patcher run table) plan -> stage plan texts = Ok texts' ->
  stage plan texts' = Ok texts'.
Proof.
  intros Hp. revert texts texts'. induction Hp as [|run plan [table P] _ IH]; intros [|t texts] texts' H;
    simpl in H; try (injection H as <-; done).
  step_ok H. step_ok H. injection H as <-. simpl.
  assert (run (default t x) = Ok None) as ->.
  { destruct x as [t'|]; simpl; [by apply (patch_idem t t') | done]. }
  simpl. by rewrite (IH texts x0).
Qed.

Lemma stage_length plan texts texts' : stage plan texts = Ok texts' -> length texts' = length texts.
Proof.
  revert texts texts'. induction plan as [|run plan IH]; intros [|t texts] texts' H; simpl in H;
    try (injection H as <-; done).
  step_ok H. step_ok H. injection H as <-. simpl. f_equal. by apply IH.
Qed.

(** A refused installation was refused by one of its files. *)
Lemma stage_Raise plan texts e :
  stage plan texts = Raise e -> Exists (fun p => snd (boot (fst p) (snd p)) = false) (zip plan texts).
Proof.
  revert texts. induction plan as [|run plan IH]; intros [|t texts] H; try discriminate H. simpl in H |- *.
  destruct (run t) as [r|e'] eqn:E; simpl in H.
  - right. apply IH. destruct (stage plan texts); [discriminate H |]. by injection H as <-.
  - left. unfold boot. simpl. by rewrite E.
Qed.

Lemma default_changed (x t : string) : default t (if String.eqb x t then None else Some x) = x.
Proof. destruct (String.eqb_spec x t) as [->|]; done. Qed.

(** Preparing and compiling one file, as one run. *)
Lemma site_run_Ok parses prepare t x u :
  prepare t = Ok x -> check_syntax parses x = Ok u -> default t <$> site_run parses prepare t = Ok x.
Proof. intros H1 H2. unfold site_run. rewrite H1. simpl. rewrite H2. simpl. f_equal. apply default_changed. Qed.
