(* ===== verification/PyCount.v ===== *)
(** * Occurrences inside a replacement

    What [str.count] sees of a text [p] when an edit writes a replacement that
    contains [p], and what a sequence of edits keeps of the texts it does not
    touch. *)
From Stdlib Require Import ZArith Lia String Ascii.
From stdpp Require Import base list strings.
From S2P Require Import Prelude PyStr Installer.
#[local] Open Scope string_scope.

(** No occurrence of [p] can start inside [q] and run past its end. *)
Fixpoint ends_inside (p q : string) : bool :=
  match q with
  | EmptyString => true
  | String _ q' => negb (String.prefix q p && (String.length q <? String.length p)%nat) && ends_inside p q'
  end.

(** Neither can start before [q] and run into it. *)
Definition fenced (p q : string) : bool := starts_outside p q && ends_inside p q.

Lemma head_split p a z r : String.prefix p a = false -> p ++ z = a ++ r -> exists m, p = a ++ m /\ m ++ z = r.
Proof.
  revert p. induction a as [|c a IH]; intros p Hf He; [by exists p |].
  destruct p as [|c' p]; [by rewrite prefix_nil in Hf |]. injection He as -> He.
  change (String.prefix (String c p) (String c a)) with (if ascii_dec c c then String.prefix p a else false) in Hf.
  destruct (ascii_dec c c) as [_|]; [| done]. destruct (IH p Hf He) as (m & -> & Hm). by exists m.
Qed.

Lemma starts_outside_app a m q : starts_outside (a ++ m) q = true -> m <> "" -> compat m q = false.
Proof.
  intros Hs Hm. induction a as [|x a IH].
  - change ("" ++ m) with m in Hs. destruct m as [|y m]; [done |]. cbn [starts_outside] in Hs.
    apply andb_true_iff in Hs as [Hs _]. by apply negb_true_iff.
  - change (String x a ++ m) with (String x (a ++ m)) in Hs. cbn [starts_outside] in Hs. apply andb_true_iff in Hs as [_ Hs]. by apply IH.
Qed.

(** Nothing straddles the front: a prefix of the whole is a prefix of the part before. *)
Lemma prefix_before p q a b : a <> "" -> starts_outside p q = true -> String.prefix p (a ++ q ++ b) = String.prefix p a.
Proof.
  intros Ha Hs. destruct (String.prefix p a) eqn:E.
  - apply prefix_spec in E as [z ->]. apply prefix_spec. exists (z ++ q ++ b). by rewrite app_assoc_str.
  - apply not_true_iff_false. intros [z Hz]%prefix_spec. destruct (head_split p a z (q ++ b) E (eq_sym Hz)) as (m & -> & Hm).
    apply compat_app in Hm. rewrite (starts_outside_app a m q Hs) in Hm; [done |]. intros ->.
    rewrite app_nil_str in E. assert (String.prefix a a = true) as E' by (apply prefix_spec; exists ""; by rewrite app_nil_str).
    by rewrite E' in E.
Qed.

Lemma count_fenced_head p q a b : p <> "" -> starts_outside p q = true ->
  str_count p (a ++ q ++ b) = (str_count p a + str_count p (q ++ b))%nat.
Proof.
  intros Hp Hs. remember (String.length a) as n eqn:Hn. revert a Hn.
  induction n as [n IH] using lt_wf_ind. intros [|c a] ->; [done |].
  unfold str_count. pose proof (prefix_before p q (String c a) b ltac:(done) Hs) as Hpre.
  change (String c a ++ q ++ b) with (String c (a ++ q ++ b)) in *. cbn [count_from]. rewrite Hpre.
  destruct (String.prefix p (String c a)) eqn:E.
  - apply length_prefix in E. simpl in E. rewrite count_skip, drop_app_le, (count_skip p _ a) by lia.
    simpl. f_equal. refine (IH _ _ _ eq_refl). rewrite length_drop_str. simpl. lia.
  - refine (IH _ _ a eq_refl). simpl. lia.
Qed.

Lemma count_fenced_tail p q b : p <> "" -> ends_inside p q = true ->
  str_count p (q ++ b) = (str_count p q + str_count p b)%nat.
Proof.
  intros Hp He. remember (String.length q) as n eqn:Hn. revert q He Hn.
  induction n as [n IH] using lt_wf_ind. intros [|c q] He ->.
  - change ("" ++ b) with b. rewrite (proj2 (str_count_zero p "" Hp)); [done |]. by destruct p.
  - assert (forall k, (k <= String.length q)%nat -> ends_inside p (drop_str k q) = true) as Hdrop.
    { cbn [ends_inside] in He. apply andb_true_iff in He as [_ He]. clear -He. revert He. induction q as [|x q IHq]; intros He [|k] Hk; try done.
      cbn [ends_inside] in He. apply andb_true_iff in He as [_ He]. apply IHq; [done |]. simpl in Hk. lia. }
    unfold str_count. change (String c q ++ b) with (String c (q ++ b)). cbn [count_from].
    assert (String.prefix p (String c (q ++ b)) = String.prefix p (String c q)) as ->.
    { apply eq_true_iff_eq. split; intros [z Hz]%prefix_spec.
      - destruct (Nat.ltb_spec (String.length (String c q)) (String.length p)) as [Hlt | Hge].
        + exfalso. cbn [ends_inside] in He. apply andb_true_iff in He as [He _].
          change (String c (q ++ b)) with (String c q ++ b) in Hz.
          rewrite (prefix_of_longer (String c q) p b z) in He by (try done; lia). apply Nat.ltb_lt in Hlt. by rewrite Hlt in He.
        + change (String c (q ++ b)) with (String c q ++ b) in Hz. by apply (prefix_of_longer p (String c q) z b).
      - apply prefix_spec. exists (z ++ b). change (String c (q ++ b)) with (String c q ++ b). by rewrite Hz, app_assoc_str. }
    destruct (String.prefix p (String c q)) eqn:E.
    + apply length_prefix in E. simpl in E. rewrite !(count_skip p (_ - 1)), drop_app_le by lia. simpl. f_equal.
      refine (IH _ _ _ _ eq_refl); [rewrite length_drop_str; simpl; lia | apply Hdrop; lia].
    + refine (IH _ _ q _ eq_refl); [simpl; lia |]. apply (Hdrop 0%nat). lia.
Qed.

(** An edit adds the occurrences its replacement has. *)
Lemma count_replace_added p old new s : p <> "" -> apart p old = true -> fenced p new = true -> str_in old s = true ->
  str_count p (replace_first old new s) = (str_count p s + str_count p new)%nat.
Proof.
  intros Hp Hap [H1 H2]%andb_true_iff Ho. destruct (replace_first_spec old new s Ho) as (a & b & -> & ->).
  rewrite count_fenced_head, count_fenced_tail, count_apart by done. lia.
Qed.

(** A fenced text's count comes from the replacement alone. *)
Lemma count_replace_fenced p old new s : p <> "" -> fenced p new = true -> str_in p s = false -> str_in old s = true ->
  str_count p (replace_first old new s) = str_count p new.
Proof.
  intros Hp [H1 H2]%andb_true_iff Hs Ho. destruct (replace_first_spec old new s Ho) as (a & b & -> & ->).
  apply absent_app in Hs as [Ha [_ Hb]%absent_app]. rewrite count_fenced_head, count_fenced_tail by done.
  rewrite (proj2 (str_count_zero p a Hp) Ha), (proj2 (str_count_zero p b Hp) Hb). lia.
Qed.

(** ** Sequences of edits *)

Definition steps (edits : list (string * string)) (s : string) : string :=
  fold_left (fun s e => replace_first (fst e) (snd e) s) edits s.

(** Texts no edit can overlap keep their count; texts no anchor can overlap
    survive. *)
Lemma steps_count p edits s : p <> "" -> forallb (fun e => apart p (fst e) && apart p (snd e)) edits = true ->
  str_count p (steps edits s) = str_count p s.
Proof.
  intros Hp. revert s. induction edits as [|[old new] es IH]; intros s; [done |]. cbn [forallb fst snd].
  intros [[H1 H2]%andb_true_iff H]%andb_true_iff. unfold steps. simpl. fold (steps es (replace_first old new s)).
  rewrite (IH _ H). by apply count_replace_apart.
Qed.

Lemma steps_in p edits s : forallb (fun e => apart p (fst e)) edits = true -> str_in p s = true -> str_in p (steps edits s) = true.
Proof.
  revert s. induction edits as [|[old new] es IH]; intros s; [done |]. cbn [forallb fst].
  intros [H1 H]%andb_true_iff Hs. apply (IH _ H). by apply replace_survives.
Qed.

Lemma steps_app es fs s : steps (es ++ fs) s = steps fs (steps es s).
Proof. apply fold_left_app. Qed.

(** The edit that brings [p] in decides its count. *)
Lemma steps_fresh p pre old new post s : p <> "" ->
  forallb (fun e => apart p (fst e) && apart p (snd e)) (pre ++ post) = true -> fenced p new = true ->
  str_in p s = false -> str_in old (steps pre s) = true ->
  str_count p (steps (pre ++ (old, new) :: post) s) = str_count p new.
Proof.
  intros Hp H Hf Hs Ho. rewrite forallb_app in H. apply andb_true_iff in H as [Hpre Hpost].
  rewrite steps_app. unfold steps at 1. cbn [fold_left fst snd]. fold (steps post (replace_first old new (steps pre s))).
  rewrite steps_count by done. apply count_replace_fenced; [done | done | | done].
  apply str_count_zero; [done |]. rewrite steps_count by done. by apply str_count_zero.
Qed.
