(* ===== verification/PatchAlignFloor.v ===== *)
(** * Installing the align floor

    Model of [overlay/patch_align_floor.py].  The anchors and
    replacements are the source's, byte for byte. *)
From Stdlib Require Import ZArith Lia String Ascii.
From stdpp Require Import base list strings gmap.
From S2P Require Import Prelude PyStr Installer.
#[local] Open Scope string_scope.

(** ** The texts *)

Definition MARK : string := "# [glm53-align-floor]".
Definition IMPORT_OLD : string := "import itertools
import time
".
Definition IMPORT_NEW : string := "import itertools
import os
import time
".
Definition HELPER : string := unquote "
_GLM53_ALIGN_FLOOR = None


def _glm53_align_floor():
    ^^^True when the align-floor fix is enabled (default on).  # [glm53-align-floor]

    Off restores the exact upstream disjunct, so rollback is one env value with
    no kernel-shape change and therefore no JIT cache wipe.
    ^^^
    global _GLM53_ALIGN_FLOOR
    if _GLM53_ALIGN_FLOOR is None:
        v = os.environ.get(^GLM53_ALIGN_FLOOR^, ^1^).strip().lower()
        _GLM53_ALIGN_FLOOR = v not in (^0^, ^off^, ^false^, ^no^, ^^)
    return _GLM53_ALIGN_FLOOR

".
Definition SPLIT_OLD : string := "            aligned_end = end // block_size * block_size
            if aligned_end > start or block_size <= max_prefill_tokens:
                end = aligned_end
".
Definition SPLIT_NEW : string := "            aligned_end = end // block_size * block_size
            # [glm53-align-floor] Truncate to the block boundary only when that
            # leaves forward progress. With LPTT >= block_size the second
            # disjunct fired even when aligned_end <= start, zeroing any
            # sub-block chunk (notably the decode-floor late-admit ladder,
            # whose caps are all < block_size) and stalling the request for as
            # long as a peer decoded. Advancing sub-block and re-aligning at
            # the next boundary is what the LPTT < block_size regime already
            # does. Mandatory stops below are unaffected.
            if aligned_end > start or (
                block_size <= max_prefill_tokens and not _glm53_align_floor()
            ):
                end = aligned_end
".

(** ** The patcher *)

Section patcher.
Context (parses os_import : string -> bool).

(** [validate_installed]. *)
Definition validate_installed (text : string) : res unit :=
  _ ← check_syntax parses text;
  _ ← refuse_if (negb (str_count SPLIT_NEW text =? 1)%nat) "patched split block not present exactly once";
  _ ← refuse_if (negb (str_count SPLIT_OLD text =? 0)%nat) "upstream split block still present";
  _ ← refuse_if (negb (str_count HELPER text =? 1)%nat) "helper missing, duplicated, or drifted";
  refuse_if (negb (os_import text)) "helper requires a top-level plain import os".

Definition needle : string := "from vllm.compilation.cuda_graph import CUDAGraphStat" ++ newline.

(** [main], on the text of the scheduler. *)
Definition main (text : string) : res (option string) :=
  if str_in MARK text then _ ← validate_installed text; mret None
  else
    _ ← refuse_if (str_in SPLIT_NEW text || str_in "def _glm53_align_floor(" text) "partial install";
    text ← (if negb (str_in ("import os" ++ newline) (before ("import time" ++ newline) text))
            then replace_once text IMPORT_OLD IMPORT_NEW "import os" else mret text);
    text ← (if negb (str_in "def _glm53_align_floor(" text)
            then _ ← refuse_if (negb (str_count needle text =? 1)%nat) "helper insert point not unique";
                 mret (replace_first needle (HELPER ++ needle) text)
            else mret text);
    text ← replace_once text SPLIT_OLD SPLIT_NEW "mamba-align-split";
    _ ← validate_installed text;
    mret (Some text).

Definition table : list (string * string) :=
  [(IMPORT_OLD, IMPORT_NEW); (needle, HELPER ++ needle); (SPLIT_OLD, SPLIT_NEW)].

Lemma align_floor_marked text u : validate_installed text = Ok u -> str_in MARK text = true.
Proof.
  unfold validate_installed. intros H. step_ok H. step_ok H. apply refuse_if_Ok, eqb_one in E0.
  by apply (mark_in MARK SPLIT_NEW); [vm_compute | vm_compute |].
Qed.

#[export] Instance patcher : Patcher main table.
Proof.
  split.
  - unfold main. intros t t' H. destruct (str_in MARK t); [by step_ok H |].
    step_ok H. step_ok H. step_ok H. step_ok H. step_ok H. injection H as <-.
    assert (edits table t x0) as E1'.
    { destruct (negb _); [|injection E0 as <-; constructor].
      eapply replace_once_edits; [| |exact E0]; [by vm_compute | simpl; tauto]. }
    assert (edits table x0 x1) as E2'.
    { destruct (negb _) in E1; [|injection E1 as <-; constructor].
      step_ok E1. injection E1 as <-. apply refuse_if_Ok, eqb_one in E4.
      apply edits_one; [simpl; tauto | by apply count_one_in; [vm_compute |]]. }
    assert (edits table x1 x2) as E3'.
    { eapply replace_once_edits; [| |exact E2]; [by vm_compute | simpl; tauto]. }
    by eapply edits_trans; [|eapply edits_trans].
  - unfold main. intros t t' H. destruct (str_in MARK t); [by step_ok H |].
    step_ok H. step_ok H. step_ok H. step_ok H. step_ok H. injection H as <-.
    rewrite (align_floor_marked _ _ E3). by rewrite E3.
Qed.

End patcher.
