(* ===== verification/PatchDecodeFloor.v ===== *)
(** * Installing the decode floor

    Model of [overlay/patch_scheduler_decode_floor.py]: fresh install and the upgrades from the earlier helper versions.  The anchors and
    replacements are the source's, byte for byte. *)
From Stdlib Require Import ZArith Lia String Ascii.
From stdpp Require Import base list strings gmap.
From S2P Require Import Prelude PyStr Installer.
#[local] Open Scope string_scope.

(** ** The texts *)

Definition MARK : string := "# [glm53-decode-floor]".
Definition IMPORT_OLD : string := "import itertools
import time
".
Definition IMPORT_NEW : string := "import itertools
import os
import time
".
Definition HELPER_V2_ONLY : string := unquote "
_GLM53_GATE_CFG = None
_GLM53_FIRST_SEEN_FALLBACK = None   # WeakKeyDictionary used only if Request rejects attribute assignment


def _glm53_gate_config():
    ^^^Parse the v2 gate knobs once (validated; bad values fall back to defaults and are reported once).  [glm53-decode-floor-v2]^^^
    global _GLM53_GATE_CFG
    if _GLM53_GATE_CFG is not None:
        return _GLM53_GATE_CFG

    def _int(name, default, lo, hi):
        raw = os.environ.get(name)
        if raw is None or raw.strip() == ^^:
            return default
        try:
            v = int(raw.strip(), 10)
        except ValueError:
            print(f^[glm53-decode-floor-v2] {name}={raw!r} is not an integer; using {default}^, flush=True)
            return default
        if v < lo or v > hi:
            print(f^[glm53-decode-floor-v2] {name}={v} outside [{lo}, {hi}]; using {default}^, flush=True)
            return default
        return v

    cfg = {
        ^warm_tokens^: _int(^GLM53_MIXED_PREFILL_WARM_TOKENS^, 3584, 0, 1_000_000),
        ^max_wait_ms^: _int(^GLM53_MIXED_PREFILL_MAX_WAIT_MS^, 1500, 0, 600_000),
        ^late_cap^: _int(^GLM53_MIXED_PREFILL_LATE_CAP^, 512, 64, 8192),
    }
    print(f^[glm53-decode-floor-v2] gate config: {cfg}^, flush=True)
    _GLM53_GATE_CFG = cfg
    return cfg


def _glm53_mixed_prefill_gate(running, current, num_computed_tokens):
    ^^^Return (cap|None) for this prefill step: remaining-prefill threshold bypass + deadline.  [glm53-decode-floor-v2]

    Bypass: remaining uncached prefill <= GLM53_MIXED_PREFILL_WARM_TOKENS (default 3584 = one hybrid block) -> no policy
            (typically <= 2 MNBT steps). This is a size heuristic: it admits cached follow-up tails, short cold prompts
            (the 30-token chat that used to wait 15 s), and the last block of a late-capped prefill alike.
    Late:   waited >= GLM53_MIXED_PREFILL_MAX_WAIT_MS (default 1500) -> proceed under GLM53_MIXED_PREFILL_LATE_CAP
            (default 512) tokens per step -- a bound on time-to-first-service, NOT on TTFT or completion: the request
            then crawls like cap:N and slows running decodes for its duration. 0 ms = wait forever (v1 / issue #6).
    Mutates the Request (first-seen stamp); the decision itself has no other side effects.
    Remainder uses ``num_tokens`` (prompt + generated so far) like the base scheduler, so a preempted request that
    resumes with its prompt cached still replays its output under the policy.
    ^^^
    import time as _t
    cfg = _glm53_gate_config()
    remaining = current.num_tokens - num_computed_tokens
    if remaining <= 0:
        return None
    if remaining <= cfg[^warm_tokens^]:
        return None
    cap = _glm53_mixed_prefill_policy(running, current)
    if cap is None or cap > 0:
        return cap
    max_wait_ms = cfg[^max_wait_ms^]
    if max_wait_ms <= 0:
        return cap
    # First time this gate saw the request (monotonic; kept on the Request object so it survives chunking, preemption
    # and requeue). If the Request class ever rejects attribute assignment, fall back to a WeakKeyDictionary (entries
    # vanish with the request) and say so once -- never silently degrade to ^never late^.
    global _GLM53_FIRST_SEEN_FALLBACK
    first_seen = getattr(current, ^_glm53_gate_first_seen^, None)
    if first_seen is None and _GLM53_FIRST_SEEN_FALLBACK is not None:
        first_seen = _GLM53_FIRST_SEEN_FALLBACK.get(current)
    if first_seen is None:
        first_seen = _t.monotonic()
        try:
            current._glm53_gate_first_seen = first_seen
        except AttributeError:
            import weakref
            if _GLM53_FIRST_SEEN_FALLBACK is None:
                _GLM53_FIRST_SEEN_FALLBACK = weakref.WeakKeyDictionary()
                print(^[glm53-decode-floor-v2] Request rejects attributes; using a weak-keyed first-seen map^, flush=True)
            _GLM53_FIRST_SEEN_FALLBACK[current] = first_seen
    if (_t.monotonic() - first_seen) * 1000.0 >= max_wait_ms:
        return max(min(cfg[^late_cap^], remaining), 1)
    return cap


".
Definition HELPER_V3_ONLY : string := unquote "
_GLM53_GATE_CFG = None
_GLM53_FIRST_SEEN_FALLBACK = None   # WeakKeyDictionary used only if Request rejects attribute assignment


def _glm53_gate_config():
    ^^^Parse the gate knobs once (validated; bad values fall back to defaults and are reported once).  [glm53-decode-floor-v2] [glm53-decode-floor-v3]^^^
    global _GLM53_GATE_CFG
    if _GLM53_GATE_CFG is not None:
        return _GLM53_GATE_CFG

    def _int(name, default, lo, hi):
        raw = os.environ.get(name)
        if raw is None or raw.strip() == ^^:
            return default
        try:
            v = int(raw.strip(), 10)
        except ValueError:
            print(f^[glm53-decode-floor-v3] {name}={raw!r} is not an integer; using {default}^, flush=True)
            return default
        if v < lo or v > hi:
            print(f^[glm53-decode-floor-v3] {name}={v} outside [{lo}, {hi}]; using {default}^, flush=True)
            return default
        return v

    cfg = {
        ^warm_tokens^: _int(^GLM53_MIXED_PREFILL_WARM_TOKENS^, 3584, 0, 1_000_000),
        ^max_wait_ms^: _int(^GLM53_MIXED_PREFILL_MAX_WAIT_MS^, 1500, 0, 600_000),
        ^late_cap^: _int(^GLM53_MIXED_PREFILL_LATE_CAP^, 512, 64, 8192),
        # v3 aging: 0 = flat v2 crawl; N = the late cap doubles every N ms up to late_cap_max
        ^escalate_ms^: _int(^GLM53_MIXED_PREFILL_ESCALATE_MS^, 0, 0, 600_000),
        ^late_cap_max^: _int(^GLM53_MIXED_PREFILL_LATE_CAP_MAX^, 1792, 64, 8192),
    }
    if cfg[^late_cap_max^] < cfg[^late_cap^]:
        print(f^[glm53-decode-floor-v3] LATE_CAP_MAX {cfg['late_cap_max']} < LATE_CAP {cfg['late_cap']}; clamping to LATE_CAP^, flush=True)
        cfg[^late_cap_max^] = cfg[^late_cap^]
    print(f^[glm53-decode-floor-v3] gate config: {cfg}^, flush=True)
    _GLM53_GATE_CFG = cfg
    return cfg


def _glm53_fallback_get(current):
    ^^^Bounded id-keyed fallback map lookup; the stored request_id guards against id() reuse.  [glm53-decode-floor-v3]^^^
    m = _GLM53_FIRST_SEEN_FALLBACK
    if not m:
        return None
    ent = m.get(id(current))
    if ent is None:
        return None
    rid, st = ent
    if rid != getattr(current, ^request_id^, None):
        m.pop(id(current), None)
        return None
    return st


def _glm53_fallback_put(current, st):
    global _GLM53_FIRST_SEEN_FALLBACK
    if _GLM53_FIRST_SEEN_FALLBACK is None:
        _GLM53_FIRST_SEEN_FALLBACK = {}
        print(^[glm53-decode-floor-v3] Request rejects attributes; using a bounded id-keyed state map^, flush=True)
    m = _GLM53_FIRST_SEEN_FALLBACK
    if len(m) >= 4096:
        for k in list(m)[:1024]:
            m.pop(k, None)
    m[id(current)] = (getattr(current, ^request_id^, None), st)


def _glm53_gate_state(current, create=False):
    ^^^Per-request gate state (first_seen / late_at / cap / done / last_computed) kept on the Request so it
    survives chunking, preemption and requeue; bounded id-keyed fallback (request_id-checked) if the Request
    class rejects attributes -- no weakrefs, so slotted or unhashable Request types cannot raise here.  [glm53-decode-floor-v3]^^^
    st = getattr(current, ^_glm53_gate_state^, None)
    if st is None:
        st = _glm53_fallback_get(current)
    if st is None and create:
        st = {}
        try:
            current._glm53_gate_state = st
        except AttributeError:
            _glm53_fallback_put(current, st)
    return st


def _glm53_mixed_prefill_gate(running, current, num_computed_tokens):
    ^^^Return (cap|None) for this prefill step: remaining-prefill threshold bypass + deadline + aging.  [glm53-decode-floor-v2] [glm53-decode-floor-v3]

    Bypass: remaining uncached prefill <= GLM53_MIXED_PREFILL_WARM_TOKENS (default 3584 = one hybrid block) -> no policy
            (typically <= 2 MNBT steps): cached follow-up tails, short cold prompts, and the last block of a late crawl.
    Late:   waited >= GLM53_MIXED_PREFILL_MAX_WAIT_MS (default 1500) -> proceed under GLM53_MIXED_PREFILL_LATE_CAP
            (default 512) tokens per step -- a bound on time-to-first-service, NOT on TTFT or completion.
    Aging:  once late, the cap doubles every GLM53_MIXED_PREFILL_ESCALATE_MS (default 0 = flat v2 crawl) up to
            GLM53_MIXED_PREFILL_LATE_CAP_MAX (default 1792 = the long-prefill chunk ceiling), so a cold read behind a
            long generation converges toward full chunks instead of crawling at the floor for minutes. On this MoE the
            per-step cost is dominated by expert-weight streaming, so a small cap multiplies the number of expensive
            steps and taxes the running decodes for longer -- aging bounds the tax in time.
    Log:    one line per late admission, per escalation step, and when the crawl reaches its bypass tail (crawl_ms).
    Remainder uses ``num_tokens`` (prompt + generated so far) like the base scheduler.
    ^^^
    import time as _t
    cfg = _glm53_gate_config()
    remaining = current.num_tokens - num_computed_tokens
    if remaining <= 0:
        return None
    st = _glm53_gate_state(current)
    if st is not None:
        last = st.get(^last_computed^)
        if last is not None and num_computed_tokens < last:
            # preempted and rolled back: the hold age (first_seen) survives, the crawl episode does not,
            # so a resumed request re-admits at the base late cap and logs its own crawl.
            st.pop(^late_at^, None); st.pop(^cap^, None); st.pop(^done^, None)
        st[^last_computed^] = num_computed_tokens
    if remaining <= cfg[^warm_tokens^]:
        if st is not None and st.get(^late_at^) is not None and not st.get(^done^):
            st[^done^] = True
            print(f^[glm53-decode-floor-v3] late-done req={getattr(current, 'request_id', '?')} ^
                  f^crawl_ms={int((_t.monotonic() - st['late_at']) * 1000)} final_cap={st.get('cap')}^, flush=True)
        return None
    cap = _glm53_mixed_prefill_policy(running, current)
    if cap is None or cap > 0:
        return cap
    max_wait_ms = cfg[^max_wait_ms^]
    if max_wait_ms <= 0:
        return cap
    if st is None:
        st = _glm53_gate_state(current, create=True)
        st[^last_computed^] = num_computed_tokens
    now = _t.monotonic()
    if st.get(^first_seen^) is None:
        st[^first_seen^] = now
    waited_ms = (now - st[^first_seen^]) * 1000.0
    if waited_ms < max_wait_ms:
        return cap
    late_cap = cfg[^late_cap^]
    if st.get(^late_at^) is None:
        st[^late_at^] = now
        print(f^[glm53-decode-floor-v3] late-admit req={getattr(current, 'request_id', '?')} ^
              f^waited_ms={int(waited_ms)} remaining={remaining} cap={late_cap}^, flush=True)
    esc = cfg[^escalate_ms^]
    if esc > 0:
        doublings = min(int(((now - st[^late_at^]) * 1000.0) // esc), 8)
        late_cap = min(cfg[^late_cap_max^], late_cap << doublings)
    if late_cap != st.get(^cap^):
        if st.get(^cap^) is not None:
            print(f^[glm53-decode-floor-v3] late-escalate req={getattr(current, 'request_id', '?')} ^
                  f^cap={st['cap']}->{late_cap}^, flush=True)
        st[^cap^] = late_cap
    return max(min(late_cap, remaining), 1)


".
Definition HELPER_POLICY : string := unquote "def _glm53_mixed_prefill_policy(running, current):
    ^^^Mixed-step prefill policy when a peer in `running` is decoding.

    None = no extra policy. 0 = skip this prefill this step. N>0 = cap.
    ^^^
    raw = os.environ.get(^GLM53_MIXED_PREFILL_CHUNK^, ^skip^).strip().lower()
    if raw in (^0^, ^off^, ^no^):
        return None
    if raw in (^skip^, ^-1^):
        cap = 0
    else:
        try:
            cap = int(raw)
        except ValueError:
            cap = 0
        if cap <= 0:
            return None
    cur_id = getattr(current, ^request_id^, None)
    for r in running:
        if r is current or getattr(r, ^request_id^, None) == cur_id:
            continue
        if r.num_computed_tokens >= r.num_prompt_tokens:
            return cap
    return None


".
Definition RUNNING_OLD : string := "            if 0 < self.scheduler_config.long_prefill_token_threshold < num_new_tokens:
                num_new_tokens = self.scheduler_config.long_prefill_token_threshold
            num_new_tokens = min(
                num_new_tokens, token_budget, input_budget - draft_slots
            )

            # Make sure the input position does not exceed the max model len.
".
Definition RUNNING_NEW : string := "            if 0 < self.scheduler_config.long_prefill_token_threshold < num_new_tokens:
                num_new_tokens = self.scheduler_config.long_prefill_token_threshold
            num_new_tokens = min(
                num_new_tokens, token_budget, input_budget - draft_slots
            )
            mixed_cap = _glm53_mixed_prefill_gate(self.running, request, request.num_computed_tokens)  # [glm53-decode-floor] [glm53-decode-floor-v2]
            if mixed_cap is not None:
                num_new_tokens = min(num_new_tokens, mixed_cap)

            # Make sure the input position does not exceed the max model len.
".
Definition WAITING_OLD : string := "                    threshold = self.scheduler_config.long_prefill_token_threshold
                    if 0 < threshold < num_new_tokens:
                        num_new_tokens = threshold

                    # chunked prefill has to be enabled explicitly to allow
".
Definition WAITING_NEW : string := "                    threshold = self.scheduler_config.long_prefill_token_threshold
                    if 0 < threshold < num_new_tokens:
                        num_new_tokens = threshold
                    mixed_cap = _glm53_mixed_prefill_gate(self.running, request, num_computed_tokens)  # [glm53-decode-floor] [glm53-decode-floor-v2]
                    if mixed_cap is not None:
                        if mixed_cap <= 0:
                            request_queue.pop_request()
                            step_skipped_waiting.prepend_request(request)
                            continue
                        num_new_tokens = min(num_new_tokens, mixed_cap)

                    # chunked prefill has to be enabled explicitly to allow
".
Definition MARK_V2 : string := "[glm53-decode-floor-v2]".
Definition V1_RUNNING : string := "            mixed_cap = _glm53_mixed_prefill_policy(self.running, request)  # [glm53-decode-floor]
            if mixed_cap is not None and request.num_computed_tokens < request.num_prompt_tokens:
                num_new_tokens = min(num_new_tokens, mixed_cap)
".
Definition V2_RUNNING : string := "            mixed_cap = _glm53_mixed_prefill_gate(self.running, request, request.num_computed_tokens)  # [glm53-decode-floor] [glm53-decode-floor-v2]
            if mixed_cap is not None:
                num_new_tokens = min(num_new_tokens, mixed_cap)
".
Definition V1_WAITING : string := "                    mixed_cap = _glm53_mixed_prefill_policy(self.running, request)  # [glm53-decode-floor]
                    if mixed_cap is not None and num_computed_tokens < request.num_prompt_tokens:
".
Definition V2_WAITING : string := "                    mixed_cap = _glm53_mixed_prefill_gate(self.running, request, num_computed_tokens)  # [glm53-decode-floor] [glm53-decode-floor-v2]
                    if mixed_cap is not None:
".
Definition MARK_V3 : string := "[glm53-decode-floor-v3]".
Definition MARK_V31 : string := "[glm53-decode-floor-v3.1]".
Definition V31_OLD_1 : string := unquote "def _glm53_gate_state(current, create=False):
    ^^^Per-request gate state (first_seen / late_at / cap / done / last_computed) kept on the Request so it
    survives chunking, preemption and requeue; bounded id-keyed fallback (request_id-checked) if the Request
    class rejects attributes -- no weakrefs, so slotted or unhashable Request types cannot raise here.  [glm53-decode-floor-v3.1]^^^
    st = getattr(current, ^_glm53_gate_state^, None)
    if st is None:
        st = _glm53_fallback_get(current)
    if st is None and create:
        st = {}
        try:
            current._glm53_gate_state = st
        except AttributeError:
            _glm53_fallback_put(current, st)
    return st
".
Definition V31_NEW_1 : string := unquote "def _glm53_gate_state(current, create=False):
    ^^^Per-request gate state (first_seen / late_at / cap / done / last_computed) kept on the Request so it
    survives chunking, preemption and requeue; bounded id-keyed fallback (request_id-checked) if the Request
    class rejects attributes -- no weakrefs, so slotted or unhashable Request types cannot raise here.  [glm53-decode-floor-v3.1]^^^
    st = getattr(current, ^_glm53_gate_state^, None)
    if st is None:
        st = _glm53_fallback_get(current)
    if st is None and create:
        st = {}
        try:
            current._glm53_gate_state = st
        except AttributeError:
            _glm53_fallback_put(current, st)
    return st


def _glm53_set_capped(st, now, active):
    ^^^Accumulate only intervals where the late-admitted request is capped.^^^
    if st is None or st.get(^late_at^) is None:
        return
    capped_at = st.get(^capped_at^)
    if active:
        if capped_at is None:
            st[^capped_at^] = now
    elif capped_at is not None:
        st[^capped_s^] = st.get(^capped_s^, 0.0) + max(now - capped_at, 0.0)
        st[^capped_at^] = None
".
Definition V31_OLD_2 : string := "    import time as _t
    cfg = _glm53_gate_config()
    remaining = current.num_tokens - num_computed_tokens
".
Definition V31_NEW_2 : string := "    import time as _t
    cfg = _glm53_gate_config()
    now = _t.monotonic()
    remaining = current.num_tokens - num_computed_tokens
".
Definition V31_OLD_3 : string := unquote "            st.pop(^late_at^, None); st.pop(^cap^, None); st.pop(^done^, None)
".
Definition V31_NEW_3 : string := unquote "            st.pop(^late_at^, None); st.pop(^cap^, None); st.pop(^done^, None)
            st.pop(^capped_at^, None); st.pop(^capped_s^, None)
".
Definition V31_OLD_4 : string := unquote "        if st is not None and st.get(^late_at^) is not None and not st.get(^done^):
            st[^done^] = True
            print(f^[glm53-decode-floor-v3.1] late-done req={getattr(current, 'request_id', '?')} ^
                  f^crawl_ms={int((_t.monotonic() - st['late_at']) * 1000)} final_cap={st.get('cap')}^, flush=True)
".
Definition V31_NEW_4 : string := unquote "        if st is not None and st.get(^late_at^) is not None and not st.get(^done^):
            _glm53_set_capped(st, now, False)
            st[^done^] = True
            print(f^[glm53-decode-floor-v3.1] late-done req={getattr(current, 'request_id', '?')} ^
                  f^crawl_wall_ms={round((now - st['late_at']) * 1000)} ^
                  f^crawl_capped_ms={round(st.get('capped_s', 0.0) * 1000)} ^
                  f^final_cap={st.get('cap')}^, flush=True)
".
Definition V31_OLD_5 : string := "    cap = _glm53_mixed_prefill_policy(running, current)
    if cap is None or cap > 0:
        return cap
".
Definition V31_NEW_5 : string := "    cap = _glm53_mixed_prefill_policy(running, current)
    if cap is None or cap > 0:
        _glm53_set_capped(st, now, False)
        return cap
".
Definition V31_OLD_6 : string := unquote "    now = _t.monotonic()
    if st.get(^first_seen^) is None:
".
Definition V31_NEW_6 : string := unquote "    if st.get(^first_seen^) is None:
".
Definition V31_OLD_7 : string := unquote "        st[^cap^] = late_cap
    return max(min(late_cap, remaining), 1)
".
Definition V31_NEW_7 : string := unquote "        st[^cap^] = late_cap
    _glm53_set_capped(st, now, True)
    return max(min(late_cap, remaining), 1)
".

(** ** The v3.1 helper *)

(** [_build_v31_helper]: the v3 block with its tag and seven places replaced;
    an anchor that is not unique stops the module. *)
Fixpoint apply_pairs (pairs : list (string * string)) (text : string) : res string :=
  match pairs with
  | [] => Ok text
  | (old, new) :: ps =>
      if (str_count old text =? 1)%nat then apply_pairs ps (replace_first old new text)
      else Raise RuntimeError
  end.

Definition v31_pairs : list (string * string) :=
  [(V31_OLD_1, V31_NEW_1); (V31_OLD_2, V31_NEW_2); (V31_OLD_3, V31_NEW_3); (V31_OLD_4, V31_NEW_4);
   (V31_OLD_5, V31_NEW_5); (V31_OLD_6, V31_NEW_6); (V31_OLD_7, V31_NEW_7)].

Definition _build_v31_helper : res string :=
  apply_pairs v31_pairs
    (replace_all "[glm53-decode-floor-v3]" "[glm53-decode-floor-v3.1]" HELPER_V3_ONLY).

Definition HELPER_V31_ONLY : string :=
  match _build_v31_helper with Ok t => t | Raise _ => "" end.
Definition HELPER : string := HELPER_V31_ONLY ++ HELPER_POLICY.

(** The module loads: every anchor of the construction is unique. *)
Lemma build_v31_ok : is_ok _build_v31_helper = true.
Proof. vm_compute. reflexivity. Qed.

(** ** The patcher *)

Section patcher.
Context (parses os_import : string -> bool).

Definition policy_def : string := "def _glm53_mixed_prefill_policy(running, current):".
Definition needle : string := "from vllm.compilation.cuda_graph import CUDAGraphStat" ++ newline.

(** [upgrade_v1_to_v2]. *)
Definition upgrade_v1_to_v2 (text : string) : res string :=
  text ← replace_once text V1_RUNNING V2_RUNNING "v1 running call site";
  text ← replace_once text V1_WAITING V2_WAITING "v1 waiting call site";
  _ ← refuse_if (negb (str_count policy_def text =? 1)%nat) "expected one v1 helper def";
  mret (replace_first policy_def (HELPER_V2_ONLY ++ policy_def) text).

(** [upgrade_v2_to_v31] and [upgrade_v3_to_v31], for the predecessor's helper. *)
Definition upgrade_to_v31 (predecessor : string) (text : string) : res string :=
  text ← replace_once text predecessor HELPER_V31_ONLY "predecessor helper block";
  _ ← refuse_if (negb (str_in MARK_V31 text) || str_in predecessor text
                 || negb (str_count "def _glm53_mixed_prefill_gate(" text =? 1)%nat)
        "upgrade postcondition failed";
  mret text.
Definition upgrade_v2_to_v31 : string -> res string := upgrade_to_v31 HELPER_V2_ONLY.
Definition upgrade_v3_to_v31 : string -> res string := upgrade_to_v31 HELPER_V3_ONLY.

(** [validate_v31]. *)
Definition validate_v31 (text : string) : res unit :=
  _ ← refuse_if (negb (str_count HELPER_V31_ONLY text =? 1)%nat) "expected one v3.1 helper";
  _ ← refuse_if (negb (str_count HELPER_POLICY text =? 1)%nat) "expected one mixed-prefill policy";
  _ ← refuse_if (negb (str_count RUNNING_NEW text =? 1)%nat) "expected one complete running gate";
  _ ← refuse_if (negb (str_count WAITING_NEW text =? 1)%nat) "expected one complete waiting gate";
  _ ← refuse_if (str_in HELPER_V2_ONLY text || str_in HELPER_V3_ONLY text) "predecessor helper remains";
  _ ← check_syntax parses text;
  refuse_if (negb (os_import text)) "required top-level unaliased import os is missing".

(** The fresh-install branch of [main], before validation. *)
Definition fresh_install (text : string) : res string :=
  text ← (if negb (str_in ("import os" ++ newline) (before ("import time" ++ newline) text))
          then replace_once text IMPORT_OLD IMPORT_NEW "import os" else mret text);
  text ← (if negb (str_in "def _glm53_mixed_prefill_policy(" text)
          then _ ← refuse_if (negb (str_count needle text =? 1)%nat) "helper insert point not unique";
               mret (replace_first needle (HELPER ++ needle) text)
          else mret text);
  text ← replace_once text RUNNING_OLD RUNNING_NEW "running-prefill";
  replace_once text WAITING_OLD WAITING_NEW "waiting-prefill".

(** The branch [main] takes for a file without the v3.1 mark. *)
Definition new_text (text : string) : res string :=
  if str_in MARK_V3 text then upgrade_v3_to_v31 text
  else if str_in MARK_V2 text then upgrade_v2_to_v31 text
  else if str_in MARK text then (t ← upgrade_v1_to_v2 text; upgrade_v2_to_v31 t)
  else fresh_install text.

(** [main], on the text of the scheduler. *)
Definition main (text : string) : res (option string) :=
  if str_in MARK_V31 text then _ ← validate_v31 text; mret None
  else
    text ← new_text text;
    _ ← validate_v31 text;
    _ ← check_syntax parses text;
    mret (Some text).

Definition table : list (string * string) :=
  [(IMPORT_OLD, IMPORT_NEW); (needle, HELPER ++ needle); (RUNNING_OLD, RUNNING_NEW);
   (WAITING_OLD, WAITING_NEW); (V1_RUNNING, V2_RUNNING); (V1_WAITING, V2_WAITING);
   (policy_def, HELPER_V2_ONLY ++ policy_def); (HELPER_V2_ONLY, HELPER_V31_ONLY);
   (HELPER_V3_ONLY, HELPER_V31_ONLY)].

Lemma decode_floor_marked text u : validate_v31 text = Ok u -> str_in MARK_V31 text = true.
Proof.
  unfold validate_v31. intros H. step_ok H. apply refuse_if_Ok, eqb_one in E.
  by apply (mark_in MARK_V31 HELPER_V31_ONLY); [vm_compute | vm_compute |].
Qed.

Lemma upgrade_edits pred t t' : pred <> "" -> In (pred, HELPER_V31_ONLY) table ->
  upgrade_to_v31 pred t = Ok t' -> edits table t t'.
Proof.
  intros Hp Ht H. unfold upgrade_to_v31 in H. step_ok H. step_ok H. injection H as <-.
  by eapply replace_once_edits; [| |exact E].
Qed.

Lemma v2_in_table : In (HELPER_V2_ONLY, HELPER_V31_ONLY) table.
Proof. do 7 right. left. reflexivity. Qed.

Lemma v3_in_table : In (HELPER_V3_ONLY, HELPER_V31_ONLY) table.
Proof. do 8 right. left. reflexivity. Qed.

Lemma upgrade_v1_edits t t' : upgrade_v1_to_v2 t = Ok t' -> edits table t t'.
Proof.
  intros H. unfold upgrade_v1_to_v2 in H. step_ok H. step_ok H. step_ok H. injection H as <-.
  apply (edits_trans table t x); [by eapply replace_once_edits; [| |exact E]; [vm_compute | simpl; tauto] |].
  apply (edits_trans table x x0); [by eapply replace_once_edits; [| |exact E0]; [vm_compute | simpl; tauto] |].
  by eapply refuse_unique_edits; [| |exact E1]; [vm_compute | simpl; tauto].
Qed.

Lemma fresh_edits t t' : fresh_install t = Ok t' -> edits table t t'.
Proof.
  intros H. unfold fresh_install in H. step_ok H. step_ok H. step_ok H.
  apply (edits_trans table t x).
  { destruct (negb _); [|injection E as <-; constructor].
    by eapply replace_once_edits; [| |exact E]; [vm_compute | simpl; tauto]. }
  apply (edits_trans table x x0).
  { destruct (negb _) in E0; [|injection E0 as <-; constructor].
    step_ok E0. injection E0 as <-. by eapply refuse_unique_edits; [| |exact E2]; [vm_compute | simpl; tauto]. }
  apply (edits_trans table x0 x1); [by eapply replace_once_edits; [| |exact E1]; [vm_compute | simpl; tauto] |].
  by eapply replace_once_edits; [| |exact H]; [vm_compute | simpl; tauto].
Qed.

#[export] Instance patcher : Patcher main table.
Proof.
  split; unfold main; intros t t' H; (destruct (str_in MARK_V31 t); [by step_ok H |]);
    step_ok H; step_ok H; step_ok H; injection H as <-.
  - unfold new_text in E. destruct (str_in MARK_V3 t); [|destruct (str_in MARK_V2 t); [|destruct (str_in MARK t)]].
    + eapply upgrade_edits; [| |exact E]; [by vm_compute | exact v3_in_table].
    + eapply upgrade_edits; [| |exact E]; [by vm_compute | exact v2_in_table].
    + step_ok E. eapply edits_trans; [by apply upgrade_v1_edits |].
      eapply upgrade_edits; [| |exact E]; [by vm_compute | exact v2_in_table].
    + by apply fresh_edits.
  - rewrite (decode_floor_marked _ _ E0). by rewrite E0.
Qed.

End patcher.
