(* ===== verification/PatchPrefixAdmit.v ===== *)
(** * Installing the prefix admission hold

    Model of [overlay/patch_prefix_admit.py]; the helper text is the source of the two functions modelled in [PrefixAdmit].  The anchors and
    replacements are the source's, byte for byte. *)
From Stdlib Require Import ZArith Lia String Ascii.
From stdpp Require Import base list strings gmap.
From S2P Require Import Prelude PyStr Installer.
#[local] Open Scope string_scope.

(** ** The texts *)

Definition MARK : string := "[glm53-prefix-admit]".
Definition INSERT_AT : string := "logger = init_logger(__name__)


class Scheduler(SchedulerInterface):
".
Definition ANCHOR : string := "                # Get already-cached tokens.
                if request.num_computed_tokens == 0:
".
Definition CALL : string := unquote "                # [glm53-prefix-admit] Lookup below runs once. Wait until a
                # running partner has hashed the longest full page this
                # prompt shares, then admit. Pop so a different prefix
                # behind this waiter is still considered this step.
                if request.num_computed_tokens == 0:
                    _glm53_prefix_need = _glm53_hold_for_inflight_prefix(
                        request,
                        self.running,
                        self.block_size,
                        self.hash_block_size,
                    )
                    if _glm53_prefix_need:
                        if not getattr(
                            request, ^_glm53_prefix_admit_logged^, False
                        ):
                            logger.info(
                                ^[glm53-prefix-admit] holding %s for %s^
                                ^ published tokens^,
                                request.request_id,
                                _glm53_prefix_need,
                            )
                            request._glm53_prefix_admit_logged = True
                        request_queue.pop_request()
                        step_skipped_waiting.prepend_request(request)
                        continue

".
Definition SRC_glm53_aligned_prefix_tokens : string := unquote "def _glm53_aligned_prefix_tokens(mine, theirs, block: int) -> int:
    ^^^Block-aligned token LCP. ``block`` is the coarser of the two grids.

    Slices compare in C. A mismatch stops the scan, so a different prompt
    does not walk the whole running prefill.
    ^^^
    if block <= 0:
        return 0
    try:
        limit = min(len(mine), len(theirs))
    except TypeError:
        return 0
    matched = 0
    step = 256
    while matched < limit:
        nxt = matched + step
        if nxt > limit:
            nxt = limit
        try:
            same = mine[matched:nxt] == theirs[matched:nxt]
        except TypeError:
            return (matched // block) * block
        if same:
            matched = nxt
            continue
        while matched < nxt:
            try:
                if mine[matched] != theirs[matched]:
                    return (matched // block) * block
            except TypeError:
                return (matched // block) * block
            matched += 1
        break
    return (matched // block) * block
".
Definition SRC_glm53_hold_for_inflight_prefix : string := unquote "def _glm53_hold_for_inflight_prefix(request, running, block_size, hash_block_size):
    ^^^Tokens of shared prefix still unpublished, or 0 when the waiter can admit.

    0 means: no running partner shares a full page, or the partner with the
    longest share has already published it. A shorter partner that is ahead
    does not release a longer share that is still in flight.
    ^^^
    try:
        block = max(int(block_size), int(hash_block_size))
    except (TypeError, ValueError):
        return 0
    if block <= 0:
        return 0
    mine = getattr(request, ^prompt_token_ids^, None)
    if not mine:
        return 0
    shares = getattr(request, ^_glm53_prefix_shares^, None)
    if shares is None:
        shares = {}
        try:
            request._glm53_prefix_shares = shares
        except Exception:
            shares = {}
    own_id = getattr(request, ^request_id^, None)
    best = 0
    best_ready = False
    for partner in running:
        if partner is request:
            continue
        partner_id = getattr(partner, ^request_id^, None)
        if own_id is not None and partner_id == own_id:
            continue
        theirs = getattr(partner, ^prompt_token_ids^, None)
        if not theirs:
            continue
        shared = shares.get(partner_id) if partner_id is not None else None
        if shared is None:
            shared = _glm53_aligned_prefix_tokens(mine, theirs, block)
            if partner_id is not None:
                shares[partner_id] = shared
        if shared <= 0:
            continue
        try:
            computed = int(getattr(partner, ^num_computed_tokens^, 0) or 0)
        except (TypeError, ValueError):
            computed = 0
        if computed < 0:
            computed = 0
        published = (computed // block) * block
        ready = published >= shared
        if shared > best:
            best = shared
            best_ready = ready
        elif shared == best and ready:
            best_ready = True
    if best > 0 and not best_ready:
        return best
    return 0
".

(** [_helper_source]: the sources joined by blank lines. *)
Definition _helper_source : string :=
  SRC_glm53_aligned_prefix_tokens ++ newline ++ newline ++ SRC_glm53_hold_for_inflight_prefix
    ++ newline ++ newline ++ newline.

(** What [main] puts in place of [INSERT_AT]. *)
Definition INSERTED : string :=
  "logger = init_logger(__name__)" ++ newline ++ newline ++ newline ++ _helper_source
    ++ "class Scheduler(SchedulerInterface):" ++ newline.

(** ** The patcher *)

Section patcher.
Context (parses : string -> bool).

(** [_complete]. *)
Definition _complete (text : string) : bool :=
  (str_count MARK text =? 2)%nat
  && (str_count "def _glm53_aligned_prefix_tokens(" text =? 1)%nat
  && (str_count "def _glm53_hold_for_inflight_prefix(" text =? 1)%nat
  && (str_count CALL text =? 1)%nat
  && (str_count ANCHOR text =? 1)%nat.

(** [main], with the flag, on the text of the scheduler. *)
Definition main (env : environ) (text : string) : res (option string) :=
  let flag := strip (environ_get env "GLM53_PREFIX_ADMIT" "0") in
  if String.eqb flag "0" then Ok None
  else
    _ ← refuse_if (negb (String.eqb flag "1")) "GLM53_PREFIX_ADMIT must be exactly 0 or 1";
    if _complete text then mret None
    else
      _ ← refuse_if (str_in MARK text || str_in "def _glm53_hold_for_inflight_prefix(" text) "partial install";
      _ ← refuse_if (negb (str_count ANCHOR text =? 1)%nat) "anchor drift";
      _ ← refuse_if (negb (str_count INSERT_AT text =? 1)%nat) "anchor drift";
      let patched := replace_first INSERT_AT INSERTED text in
      let patched := replace_first ANCHOR (CALL ++ ANCHOR) patched in
      _ ← refuse_if (negb (_complete patched)) "patch did not land cleanly";
      _ ← check_syntax parses patched;
      mret (Some patched).

Definition table : list (string * string) := [(INSERT_AT, INSERTED); (ANCHOR, CALL ++ ANCHOR)].

#[export] Instance patcher env : Patcher (main env) table.
Proof.
  split; unfold main; cbv zeta; intros t t' H;
    (destruct (String.eqb _ "0"); [done |]); step_ok H;
    (destruct (_complete t) eqn:Ec; [discriminate H |]); step_ok H; step_ok H; step_ok H; step_ok H; step_ok H;
    injection H as <-.
  - eapply edits_trans; apply replace_first_edits; simpl; tauto.
  - apply refuse_if_Ok, negb_false_iff in E3. by rewrite E, E3.
Qed.

End patcher.
