(* ===== verification/PatchResidentTail.v ===== *)
(** * Installing the resident tail

    Model of [overlay/patch_resident_tail.py]; the helper text is the source of the twelve functions modelled in [ResidentTail].  The anchors and
    replacements are the source's, byte for byte. *)
From Stdlib Require Import ZArith Lia String Ascii.
From stdpp Require Import base list strings gmap.
From S2P Require Import Prelude PyStr Installer.
#[local] Open Scope string_scope.

(** ** The texts *)

Definition MARK : string := "[glm53-resident-tail]".
Definition CLASS_LINE : string := "class Scheduler(SchedulerInterface):
".
Definition RUN_ANCHOR : string := "            request = self.running[req_index]
            if input_budget <= draft_slots:
                break
".
Definition RUN_CALL : string := "            # [glm53-resident-tail] A cold prefill does not share this step
            # with a resident tail. The tail keeps the token budget until
            # its prefill is done, or until the step cap.
            if _glm53_defer_cold_for_resident_tail(self, request):
                req_index += 1
                continue

".
Definition RUN_LPTT : string := "            if 0 < self.scheduler_config.long_prefill_token_threshold < num_new_tokens:
                num_new_tokens = self.scheduler_config.long_prefill_token_threshold
            num_new_tokens = min(
                num_new_tokens, token_budget, input_budget - draft_slots
            )
".
Definition RUN_LPTT_NEW : string := "            if (
                0
                < self.scheduler_config.long_prefill_token_threshold
                < num_new_tokens
                and not _glm53_tail_still_open(
                    request, request.num_computed_tokens
                )
            ):
                num_new_tokens = self.scheduler_config.long_prefill_token_threshold
            num_new_tokens = min(
                num_new_tokens, token_budget, input_budget - draft_slots
            )
".
Definition WAIT_LPTT : string := "                    threshold = self.scheduler_config.long_prefill_token_threshold
                    if 0 < threshold < num_new_tokens:
                        num_new_tokens = threshold
".
Definition WAIT_LPTT_NEW : string := "                    _glm53_note_resident_tail(request, num_computed_tokens)
                    threshold = self.scheduler_config.long_prefill_token_threshold
                    if (
                        0 < threshold < num_new_tokens
                        and not _glm53_tail_still_open(
                            request, num_computed_tokens
                        )
                    ):
                        num_new_tokens = threshold
".
Definition SRC_glm53_resident_tail_limit : string := unquote "def _glm53_resident_tail_limit(name: str, default: int, lo: int, hi: int) -> int:
    ^^^Inclusive bound. A missing or unusable value falls back to ``default``.

    ``os`` is imported here because the installed scheduler does not have to
    import it. The function is copied into that file as text.
    ^^^
    import os

    raw = os.environ.get(name, str(default))
    try:
        value = int(str(raw).strip())
    except (TypeError, ValueError):
        return default
    if value < lo or value > hi:
        return default
    return value
".
Definition SRC_glm53_resident_tail_page : string := unquote "def _glm53_resident_tail_page() -> int:
    ^^^Cache-hit floor, in tokens. One MLA page on this deployment.^^^
    return _glm53_resident_tail_limit(^GLM53_RESIDENT_TAIL_PAGE^, 3584, 64, 65536)
".
Definition SRC_glm53_resident_tail_tokens : string := unquote "def _glm53_resident_tail_tokens() -> int:
    ^^^Largest uncached remainder that still counts as a resident tail.

    Matches the mixed-prefill warm bypass, so a tail that keeps the budget
    is also a tail the decode floor will share a step with.
    ^^^
    return _glm53_resident_tail_limit(^GLM53_RESIDENT_TAIL_TOKENS^, 3584, 1, 65536)
".
Definition SRC_glm53_resident_tail_steps : string := unquote "def _glm53_resident_tail_steps() -> int:
    ^^^How many steps one cold prefill may yield before it runs again.^^^
    return _glm53_resident_tail_limit(^GLM53_RESIDENT_TAIL_STEPS^, 4, 1, 32)
".
Definition SRC_glm53_is_resident_tail : string := unquote "def _glm53_is_resident_tail(computed, prompt, page, tail) -> bool:
    ^^^True when ``computed`` is a full page and the remainder fits in ``tail``.^^^
    try:
        computed_i = int(computed)
        prompt_i = int(prompt)
        page_i = int(page)
        tail_i = int(tail)
    except (TypeError, ValueError):
        return False
    if page_i <= 0 or tail_i <= 0:
        return False
    left = prompt_i - computed_i
    return computed_i >= page_i and 0 < left <= tail_i
".
Definition SRC_glm53_should_defer_cold : string := unquote "def _glm53_should_defer_cold(
    *,
    prefill_left: int,
    is_tail: bool,
    tail_waiting: bool,
    tail_running: bool,
    num_running: int,
    max_running: int,
    defer_count: int,
    step_cap: int,
) -> bool:
    ^^^True when this running cold prefill should leave the step to a tail.

    A running tail needs no free slot: it is already admitted. A waiting
    tail does, because deferring tokens does not free a sequence. Decodes
    and a prefill that is itself the tail are never deferred.
    ^^^
    try:
        left = int(prefill_left)
        running = int(num_running)
        limit = int(max_running)
        used = int(defer_count)
        cap = int(step_cap)
    except (TypeError, ValueError):
        return False
    if is_tail or left <= 64 or used >= cap or cap <= 0:
        return False
    if tail_running:
        return True
    if tail_waiting and running < limit:
        return True
    return False
".
Definition SRC_glm53_note_resident_tail : string := unquote "def _glm53_note_resident_tail(request, computed) -> None:
    ^^^Stamp a fresh admission. A request that already has computed tokens is left alone.

    ``computed`` is the local cache hit, which on this path is not yet
    copied onto ``request.num_computed_tokens``. A cold prefill's later
    chunks therefore cannot grow into a tail. A stale stamp is cleared
    when this admission does not qualify, so preemption cannot keep it.
    ^^^
    try:
        already = int(getattr(request, ^num_computed_tokens^, 0) or 0)
    except (TypeError, ValueError):
        return
    if already != 0:
        return
    try:
        prompt = int(request.num_prompt_tokens)
    except (TypeError, ValueError, AttributeError):
        return
    qualifies = _glm53_is_resident_tail(
        computed,
        prompt,
        _glm53_resident_tail_page(),
        _glm53_resident_tail_tokens(),
    )
    try:
        request._glm53_resident_tail = 1 if qualifies else 0
    except Exception:
        return
".
Definition SRC_glm53_tail_still_open : string := unquote "def _glm53_tail_still_open(request, computed) -> bool:
    ^^^The admission stamp still describes a short cached remainder.^^^
    try:
        stamp = int(getattr(request, ^_glm53_resident_tail^, 0) or 0)
    except (TypeError, ValueError):
        return False
    if stamp != 1:
        return False
    try:
        prompt = int(request.num_prompt_tokens)
    except (TypeError, ValueError, AttributeError):
        return False
    return _glm53_is_resident_tail(
        computed,
        prompt,
        _glm53_resident_tail_page(),
        _glm53_resident_tail_tokens(),
    )
".
Definition SRC_glm53_waiter_cache_hit : string := unquote "def _glm53_waiter_cache_hit(waiter, manager) -> int:
    ^^^Resident tokens for a not-yet-computed waiter. Negative when it cannot qualify.^^^
    try:
        computed = int(getattr(waiter, ^num_computed_tokens^, 0) or 0)
    except (TypeError, ValueError):
        return -1
    if computed != 0:
        return -1
    hashes = getattr(waiter, ^block_hashes^, None)
    if not hashes:
        return -1
    try:
        ntok = int(getattr(waiter, ^num_tokens^, 0) or 0)
    except (TypeError, ValueError):
        ntok = 0
    if ntok <= 1:
        try:
            ntok = int(getattr(waiter, ^num_prompt_tokens^, 0) or 0)
        except (TypeError, ValueError):
            return -1
    if ntok <= 1:
        return -1
    try:
        _blocks, hit, _uncached = manager.coordinator.find_longest_cache_hit(
            hashes, ntok - 1
        )
        return max(0, int(hit))
    except Exception:
        return -1
".
Definition SRC_glm53_waiter_is_blocked : string := unquote "def _glm53_waiter_is_blocked(hold, waiter, running, block_size, hash_block_size) -> bool:
    ^^^True when the in-flight prefix hold still wants this waiter to wait.

    A missing hold means nothing is blocking the waiter. An exception is
    fail-closed: the publisher of an unpublished page must not be deferred
    because the hold could not be read.
    ^^^
    if hold is None:
        return False
    try:
        return bool(hold(waiter, running, block_size, hash_block_size))
    except Exception:
        return True
".
Definition SRC_glm53_has_waiting_resident_tail : string := unquote "def _glm53_has_waiting_resident_tail(scheduler, page, tail) -> bool:
    ^^^True when one of the first four fresh waiters is an unblocked resident tail.^^^
    try:
        block_size = int(scheduler.block_size)
        hash_block_size = int(scheduler.hash_block_size)
        manager = scheduler.kv_cache_manager
        running = scheduler.running
    except (TypeError, ValueError, AttributeError):
        return False
    hold = globals().get(^_glm53_hold_for_inflight_prefix^)
    scanned = 0
    for name in (^waiting^, ^skipped_waiting^):
        queue = getattr(scheduler, name, None)
        if not queue:
            continue
        try:
            iterator = iter(queue)
        except TypeError:
            continue
        for waiter in iterator:
            if scanned >= 4:
                return False
            scanned += 1
            if _glm53_waiter_is_blocked(
                hold, waiter, running, block_size, hash_block_size
            ):
                continue
            hit = _glm53_waiter_cache_hit(waiter, manager)
            try:
                prompt = int(waiter.num_prompt_tokens)
            except (TypeError, ValueError, AttributeError):
                continue
            if _glm53_is_resident_tail(hit, prompt, page, tail):
                return True
    return False
".
Definition SRC_glm53_defer_cold_for_resident_tail : string := unquote "def _glm53_defer_cold_for_resident_tail(scheduler, request) -> bool:
    ^^^Defer one running cold prefill. The counter is stamped only on success.^^^
    try:
        prompt = int(request.num_prompt_tokens)
        computed = int(request.num_computed_tokens)
        num_running = len(scheduler.running)
        max_running = int(scheduler.max_num_running_reqs)
    except (TypeError, ValueError, AttributeError):
        return False
    left = prompt - computed
    is_tail = _glm53_tail_still_open(request, computed)
    try:
        defer_count = int(getattr(request, ^_glm53_resident_tail_defers^, 0) or 0)
    except (TypeError, ValueError):
        defer_count = 0
    step_cap = _glm53_resident_tail_steps()
    if is_tail or left <= 64 or defer_count >= step_cap:
        return False
    tail_running = False
    for other in scheduler.running:
        if other is request:
            continue
        try:
            other_computed = int(other.num_computed_tokens)
        except (TypeError, ValueError, AttributeError):
            continue
        if _glm53_tail_still_open(other, other_computed):
            tail_running = True
            break
    tail_waiting = False
    if not tail_running and num_running < max_running:
        tail_waiting = _glm53_has_waiting_resident_tail(
            scheduler,
            _glm53_resident_tail_page(),
            _glm53_resident_tail_tokens(),
        )
    if not _glm53_should_defer_cold(
        prefill_left=left,
        is_tail=is_tail,
        tail_waiting=tail_waiting,
        tail_running=tail_running,
        num_running=num_running,
        max_running=max_running,
        defer_count=defer_count,
        step_cap=step_cap,
    ):
        return False
    try:
        request._glm53_resident_tail_defers = defer_count + 1
    except Exception:
        return False
    try:
        log = globals().get(^logger^)
        if log is not None:
            log.info(
                ^[glm53-resident-tail] defer prefill %s remaining %s^,
                getattr(request, ^request_id^, ^?^),
                left,
            )
    except Exception:
        pass
    return True
".

Definition join_lines (parts : list string) : string :=
  String.concat (newline ++ newline) parts ++ newline ++ newline ++ newline.

(** [_helper_source]. *)
Definition _helper_source : string :=
  join_lines [SRC_glm53_resident_tail_limit; SRC_glm53_resident_tail_page; SRC_glm53_resident_tail_tokens;
    SRC_glm53_resident_tail_steps; SRC_glm53_is_resident_tail; SRC_glm53_should_defer_cold;
    SRC_glm53_note_resident_tail; SRC_glm53_tail_still_open; SRC_glm53_waiter_cache_hit;
    SRC_glm53_waiter_is_blocked; SRC_glm53_has_waiting_resident_tail;
    SRC_glm53_defer_cold_for_resident_tail].

(** ** The patcher *)

Section patcher.
Context (parses : string -> bool).

Definition defines (name text : string) : bool := (str_count ("def " ++ name ++ "(") text =? 1)%nat.

(** [_complete]. *)
Definition _complete (text : string) : bool :=
  (str_count MARK text =? 2)%nat
  && defines "_glm53_is_resident_tail" text
  && defines "_glm53_should_defer_cold" text
  && defines "_glm53_note_resident_tail" text
  && defines "_glm53_tail_still_open" text
  && defines "_glm53_defer_cold_for_resident_tail" text
  && defines "_glm53_has_waiting_resident_tail" text
  && (str_count RUN_CALL text =? 1)%nat
  && (str_count RUN_ANCHOR text =? 1)%nat
  && (str_count RUN_LPTT_NEW text =? 1)%nat
  && (str_count RUN_LPTT text =? 0)%nat
  && (str_count WAIT_LPTT_NEW text =? 1)%nat
  && (str_count WAIT_LPTT text =? 0)%nat
  && (str_count CLASS_LINE text =? 1)%nat.

(** The four replacements. *)
Definition patched_text (text : string) : string :=
  let patched := replace_first CLASS_LINE (_helper_source ++ CLASS_LINE) text in
  let patched := replace_first RUN_ANCHOR (RUN_ANCHOR ++ RUN_CALL) patched in
  let patched := replace_first RUN_LPTT RUN_LPTT_NEW patched in
  replace_first WAIT_LPTT WAIT_LPTT_NEW patched.

(** [main], with the flag, on the text of the scheduler. *)
Definition main (env : environ) (text : string) : res (option string) :=
  let flag := strip (environ_get env "GLM53_RESIDENT_TAIL" "0") in
  if String.eqb flag "0" then Ok None
  else
    _ ← refuse_if (negb (String.eqb flag "1")) "GLM53_RESIDENT_TAIL must be exactly 0 or 1";
    if _complete text then mret None
    else
      _ ← refuse_if (str_in MARK text || str_in "def _glm53_defer_cold_for_resident_tail(" text) "partial install";
      _ ← refuse_if (existsb (fun a => negb (str_count a text =? 1)%nat)
                       [RUN_ANCHOR; RUN_LPTT; WAIT_LPTT; CLASS_LINE]) "anchor drift";
      _ ← refuse_if (negb (_complete (patched_text text))) "patch did not land cleanly";
      _ ← check_syntax parses (patched_text text);
      mret (Some (patched_text text)).

Definition table : list (string * string) :=
  [(CLASS_LINE, _helper_source ++ CLASS_LINE); (RUN_ANCHOR, RUN_ANCHOR ++ RUN_CALL);
   (RUN_LPTT, RUN_LPTT_NEW); (WAIT_LPTT, WAIT_LPTT_NEW)].

Lemma patched_edits t : edits table t (patched_text t).
Proof.
  unfold patched_text. cbv zeta.
  eapply edits_trans; [apply (replace_first_edits table CLASS_LINE); simpl; tauto |].
  eapply edits_trans; [apply (replace_first_edits table RUN_ANCHOR); simpl; tauto |].
  eapply edits_trans; [apply (replace_first_edits table RUN_LPTT); simpl; tauto |].
  apply (replace_first_edits table WAIT_LPTT); simpl; tauto.
Qed.

(** A run that writes leaves a complete installation. *)
Lemma resident_tail_writes env t t' : main env t = Ok (Some t') ->
  t' = patched_text t /\ _complete t' = true /\
  strip (environ_get env "GLM53_RESIDENT_TAIL" "0") = "1".
Proof.
  unfold main. cbv zeta. intros H. destruct (String.eqb _ "0"); [done |]. step_ok H.
  destruct (_complete t); [discriminate H |]. step_ok H. step_ok H. step_ok H. step_ok H. injection H as <-.
  apply refuse_if_Ok, negb_false_iff in E2. apply refuse_if_Ok, negb_false_iff, String.eqb_eq in E. done.
Qed.

#[export] Instance patcher env : Patcher (main env) table.
Proof.
  split; intros t t' H; destruct (resident_tail_writes env t t' H) as (-> & Hc & Hf).
  - apply patched_edits.
  - unfold main. cbv zeta. by rewrite Hf, Hc.
Qed.

(** What completeness says of the two stock long-prefill blocks: gone. *)
Lemma complete_no_lptt text : _complete text = true ->
  str_count RUN_LPTT text = 0 /\ str_count WAIT_LPTT text = 0.
Proof. unfold _complete. intros H. bool_to_prop. done. Qed.

End patcher.
