(* ===== verification/PatchAdaptiveK.v ===== *)
(** * Installing the adaptive verification length

    Model of [overlay/patch_adaptive_k.py]: the scheduler and the CUDA-graph file.  The anchors and
    replacements are the source's, byte for byte. *)
From Stdlib Require Import ZArith Lia String Ascii.
From stdpp Require Import base list strings gmap.
From S2P Require Import Prelude PyStr Installer.
#[local] Open Scope string_scope.

(** ** The texts *)

Definition MARK : string := "# [glm53-adaptive-k]".
Definition DRAFT_HOOK : string := "_GLM53_ADAPTIVE_K.batch_k(".
Definition SCHED_HELPER : string := unquote "
class _Glm53AdaptiveK:  # [glm53-adaptive-k]
    ^^^CPU-only EMA policy for the *verified* draft prefix length.

    ``batch_k`` exists for unit tests and must not be wired into
    ``num_spec_tokens_to_schedule`` on this image (that field sizes the
    trained eight-row DFlash draft).
    ^^^

    def __init__(self) -> None:
        mode = os.environ.get(^GLM53_ADAPTIVE_K^, ^off^).strip().lower()
        capture = os.environ.get(^GLM53_ADAPTIVE_K_CAPTURE^, ^0^).strip().lower()
        self.enabled = mode in (^ema^, ^on^, ^1^)
        self.graphs_enabled = self.enabled or capture in (^1^, ^on^, ^true^, ^yes^)
        self.alpha = float(os.environ.get(^GLM53_ADAPTIVE_K_ALPHA^, ^0.25^))
        self.margin = float(os.environ.get(^GLM53_ADAPTIVE_K_MARGIN^, ^1.0^))
        self.min_steps = int(os.environ.get(^GLM53_ADAPTIVE_K_MIN_STEPS^, ^4^))
        raw = os.environ.get(^GLM53_ADAPTIVE_K_SET^, ^2,4,7^)
        self.k_set = sorted({int(x) for x in raw.split(^,^) if x.strip()})
        self.saturate = os.environ.get(^GLM53_ADAPTIVE_K_SATURATE^, ^max^).strip().lower()
        self.hist_every = int(os.environ.get(^GLM53_ADAPTIVE_K_HIST^, ^200^))
        self.batch_margin = os.environ.get(
            ^GLM53_ADAPTIVE_K_BATCH_MARGIN^, ^0^
        ).strip().lower() in (^1^, ^on^, ^true^, ^yes^)
        self.pos_trim = os.environ.get(
            ^GLM53_ADAPTIVE_K_POS_TRIM^, ^0^
        ).strip().lower() in (^1^, ^on^, ^true^, ^yes^)
        self.state: dict[str, list[float]] = {}  # req_id -> [ema, observed_steps]
        self.hist: dict[int, int] = {}
        self.steps = 0
        self.k_max = max(self.k_set) if self.k_set else 0
        self.boot_set = list(self.k_set)
        self.boot_enabled = self.enabled
        self.boot_graphs = self.graphs_enabled
        self.file = os.environ.get(
            ^GLM53_ADAPTIVE_K_FILE^, ^/root/.cache/vllm/glm53_adaptive_k.json^
        )
        self.file_mtime = None
        self._reload()
        if self.enabled:
            print(
                f^[glm53-adaptive-k] enabled set={self.k_set} alpha={self.alpha} ^
                f^margin={self.margin} min_steps={self.min_steps} ^
                f^saturate={self.saturate} graphs={self.graphs_enabled} ^
                f^batch_margin={int(self.batch_margin)} ^
                f^pos_trim={int(self.pos_trim)}^,
                flush=True,
            )
        elif self.graphs_enabled:
            print(
                f^[glm53-adaptive-k] capture-only graphs set={self.k_set} ^
                ^(policy off)^,
                flush=True,
            )

    def _reload(self) -> None:
        if not self.boot_enabled:
            return
        try:
            mtime = os.stat(self.file).st_mtime
        except OSError:
            mtime = None
        if mtime == self.file_mtime:
            return
        self.file_mtime = mtime
        if mtime is None:
            return
        try:
            import json

            with open(self.file) as fh:
                cfg = json.load(fh)
            mode = str(cfg.get(^mode^, ^ema^)).strip().lower()
            self.enabled = mode in (^ema^, ^on^, ^1^)
            self.alpha = float(cfg.get(^alpha^, self.alpha))
            self.margin = float(cfg.get(^margin^, self.margin))
            self.min_steps = int(cfg.get(^min_steps^, self.min_steps))
            self.saturate = str(cfg.get(^saturate^, self.saturate)).strip().lower()
            if ^set^ in cfg:
                want = {
                    int(x)
                    for x in (
                        cfg[^set^]
                        if isinstance(cfg[^set^], list)
                        else str(cfg[^set^]).split(^,^)
                    )
                }
                self.k_set = sorted(want & set(self.boot_set)) or list(self.boot_set)
            self.state.clear()
            self.hist.clear()
            print(
                f^[glm53-adaptive-k] reloaded {self.file}: enabled={self.enabled} ^
                f^set={self.k_set} alpha={self.alpha} margin={self.margin} ^
                f^min_steps={self.min_steps} saturate={self.saturate} ^
                f^batch_margin={int(self.batch_margin)} ^
                f^pos_trim={int(self.pos_trim)}^,
                flush=True,
            )
        except Exception as exc:  # noqa: BLE001
            print(f^[glm53-adaptive-k] override file ignored: {exc!r}^, flush=True)

    def observe(self, req_id: str, num_draft: int, num_accepted: int) -> None:
        if not self.enabled or num_draft <= 0:
            return
        if num_accepted >= num_draft and self.saturate != ^n^:
            obs = float(max(self.k_max, num_draft))
        else:
            obs = float(num_accepted)
        st = self.state.get(req_id)
        if st is None:
            self.state[req_id] = [
                obs * self.alpha + float(self.k_max) * (1.0 - self.alpha),
                1.0,
            ]
        else:
            st[0] = obs * self.alpha + st[0] * (1.0 - self.alpha)
            st[1] += 1.0

    def choose(self, req_id: str, k: int, structured: bool):
        ^^^Draft length for one request, or None when it must stay at full k.^^^
        if not self.enabled or structured or k <= 0:
            return None
        st = self.state.get(req_id)
        if st is None or st[1] < self.min_steps:
            return None
        import math

        target = int(math.ceil(st[0] + self.margin))
        cands = [v for v in self.k_set if v <= min(target, k)]
        n = max(cands) if cands else min(self.k_set)
        return max(1, min(n, k))

    def apply(self, reqs, live_ids) -> None:
        ^^^Trim spec_token_ids to a uniform verified prefix.

        All-observed batches take the min choice. Pinned batches stay at
        full k, except when the batch margin fires (see _margin_width):
        then the uniform row is the trimmed width, so one warmup-pinned
        request does not hold the target verify at k=7. Trimming only
        drops trailing (rejected or never-committed) rows; every
        request's accepted prefix is untouched. The concurrency-gated
        pos trim (see _pos_width) additionally clamps the row to the
        ladder floor, but only when 2+ observed requests share the
        batch; at C1 it is a no-op.
        ^^^
        if self.steps % 50 == 0:
            self._reload()
        if not self.enabled or not reqs:
            self.steps += 1
            return
        picks = [
            self.choose(r.request_id, len(r.spec_token_ids), s) for r, s in reqs
        ]
        if all(v is not None for v in picks):
            n = min(picks)
            gated = self._pos_width(reqs, picks, n)
            if gated is not None:
                n = gated
        else:
            n = self._margin_width(reqs, picks)
            if n is None:
                n = max(len(r.spec_token_ids) for r, _ in reqs)
        for r, _ in reqs:
            if len(r.spec_token_ids) > n:
                r.spec_token_ids = r.spec_token_ids[:n]
        self._count(n, live_ids)

    def _margin_width(self, reqs, picks) -> int | None:
        ^^^Trimmed uniform width when the batch margin fires, else None.

        Fires only when the margin knob is on and no request is
        structured: a structured pin keeps the batch at full k because
        its rows passed grammar validation. Policy-warmup pins
        (unseen, or under MIN_STEPS) hold only droppable
        tail, so the batch takes the min of the known choices. None
        when nothing is known (all requests unseen) — nothing to trim
        toward. Shorter rows are left alone. No draft execution changes.
        ^^^
        if not self.batch_margin or any(s for _, s in reqs):
            return None
        known = [v for v in picks if v is not None]
        return min(known) if known else None

    def _pos_width(self, reqs, picks, n: int) -> int | None:
        ^^^Concurrency-gated clamp of the uniform row to the ladder floor.

        Fires only when the pos-trim knob is on, the batch-margin knob is
        on (both or neither: a single verify-width policy), no request is
        structured, 2+ requests share the batch, and every request in the
        batch already has a known EMA choice (all-observed branch; any
        warmup pin leaves the batch-margin width untouched). Then the
        uniform row is min(n, ladder floor) where the ladder floor is
        min(k_set). C1 batches always return None (no-op), so lone
        requests keep the warm EMA choice. Shorter rows are left alone.
        No draft execution changes.
        ^^^
        if not (self.pos_trim and self.batch_margin):
            return None
        if any(s for _, s in reqs):
            return None
        if len(reqs) < 2:
            return None
        if any(v is None for v in picks):
            return None
        floor = min(self.k_set) if self.k_set else n
        return min(n, floor) if floor < n else None

    def batch_k(self, k: int, reqs, live_ids) -> int:
        ^^^Policy-only helper. Do not wire this into the drafter count.^^^
        if self.steps % 50 == 0:
            self._reload()
        if not self.enabled or k <= 0:
            self.steps += 1
            return k
        ns = []
        for r in reqs:
            if r is None or getattr(r, ^is_prefill_chunk^, False):
                continue
            n_i = self.choose(
                r.request_id, k, bool(getattr(r, ^use_structured_output^, False))
            )
            if n_i is None:
                ns = None
                break
            ns.append(n_i)
        n = k if not ns else min(ns)
        self._count(n, live_ids)
        return n

    def _count(self, n: int, live_ids) -> None:
        self.hist[n] = self.hist.get(n, 0) + 1
        self.steps += 1
        if self.hist_every > 0 and self.steps % self.hist_every == 0:
            total = sum(self.hist.values())
            parts = ^ ^.join(f^{k}:{v}^ for k, v in sorted(self.hist.items()))
            emas = ^ ^.join(
                f^{rid[:8]}={st[0]:.2f}/{int(st[1])}^
                for rid, st in list(self.state.items())[:4]
            )
            print(
                f^[glm53-adaptive-k] step {self.steps} chosen-length hist ^
                f^({total}): {parts} | ema {emas}^,
                flush=True,
            )
            self.state = {rid: st for rid, st in self.state.items() if rid in live_ids}


_GLM53_ADAPTIVE_K = _Glm53AdaptiveK()  # [glm53-adaptive-k]


".
Definition OBS_OLD : string := "                num_draft_tokens = len(scheduled_spec_token_ids)
                num_sampled = self.num_sampled_tokens_per_step
                num_accepted = max(len(generated_token_ids) - num_sampled, 0)
".
Definition OBS_NEW : string := "                num_draft_tokens = len(scheduled_spec_token_ids)
                num_sampled = self.num_sampled_tokens_per_step
                num_accepted = max(len(generated_token_ids) - num_sampled, 0)
                _GLM53_ADAPTIVE_K.observe(req_id, num_draft_tokens, num_accepted)  # [glm53-adaptive-k]
".
Definition UPD_OLD : string := "    def update_draft_token_ids(self, draft_token_ids: DraftTokenIds) -> None:
        for req_id, spec_token_ids in zip(
            draft_token_ids.req_ids,
            draft_token_ids.draft_token_ids,
        ):
            request = self.requests.get(req_id)
            if request is None or request.is_finished():
                # The request may have been finished. Skip.
                continue

            if request.is_prefill_chunk:
                # Ignore draft tokens for prefill chunks.
                if request.spec_token_ids:
                    request.spec_token_ids = []
                continue

            # Add newly generated spec token ids to the request.
            if self.structured_output_manager.should_advance(request):
                metadata = request.structured_output_request
                spec_token_ids = metadata.grammar.validate_tokens(spec_token_ids)  # type: ignore[union-attr]
            request.spec_token_ids = spec_token_ids
".
Definition UPD_NEW : string := "    def update_draft_token_ids(self, draft_token_ids: DraftTokenIds) -> None:
        _ak_reqs = []  # [glm53-adaptive-k]
        for req_id, spec_token_ids in zip(
            draft_token_ids.req_ids,
            draft_token_ids.draft_token_ids,
        ):
            request = self.requests.get(req_id)
            if request is None or request.is_finished():
                # The request may have been finished. Skip.
                continue

            if request.is_prefill_chunk:
                # Ignore draft tokens for prefill chunks.
                if request.spec_token_ids:
                    request.spec_token_ids = []
                continue

            # Add newly generated spec token ids to the request.
            _ak_structured = self.structured_output_manager.should_advance(request)  # [glm53-adaptive-k]
            if _ak_structured:
                metadata = request.structured_output_request
                spec_token_ids = metadata.grammar.validate_tokens(spec_token_ids)  # type: ignore[union-attr]
            request.spec_token_ids = spec_token_ids
            if _GLM53_ADAPTIVE_K.enabled and spec_token_ids:  # [glm53-adaptive-k]
                _ak_reqs.append((request, _ak_structured))
        if _ak_reqs:  # [glm53-adaptive-k]
            _GLM53_ADAPTIVE_K.apply(_ak_reqs, self.requests)
".
Definition SCHED_K_OLD : string := "        # Dynamic speculative decoding: compute optimal K
        num_spec_tokens_to_schedule = self.num_spec_tokens
        if self.dynamic_sd_lookup is not None and len(num_scheduled_tokens) > 0:
            num_spec_tokens_to_schedule = self.dynamic_sd_lookup[
                len(num_scheduled_tokens)
            ]
".
Definition CG_HELPER : string := unquote "
def _glm53_adaptive_k_query_lens(lens, decode_query_len):  # [glm53-adaptive-k]
    ^^^Extra *target* uniform decode graph lengths (k+1 for 2 and 4).

    Drafter graphs stay native query_len=8. Enable when the EMA policy is
    on or when GLM53_ADAPTIVE_K_CAPTURE=1 (B0 capture-only control).
    ^^^
    import os

    mode = os.environ.get(^GLM53_ADAPTIVE_K^, ^off^).strip().lower()
    capture = os.environ.get(^GLM53_ADAPTIVE_K_CAPTURE^, ^0^).strip().lower()
    graphs = mode in (^ema^, ^on^, ^1^) or capture in (^1^, ^on^, ^true^, ^yes^)
    if not graphs:
        return lens
    raw = os.environ.get(^GLM53_ADAPTIVE_K_SET^, ^2,4,7^)
    ks = {int(x) for x in raw.split(^,^) if x.strip()}
    extra = {k + 1 for k in ks if 0 < k + 1 <= decode_query_len}
    out = sorted(set(lens) | extra | {decode_query_len})
    print(f^[glm53-adaptive-k] uniform decode graph query lens: {out}^, flush=True)
    return out


".
Definition CG_ANCHOR : string := "@dataclass(frozen=True)
class BatchExecutionDescriptor:
".
Definition CG_OLD : string := "        else:
            decode_query_lens = [self.decode_query_len]
".
Definition CG_NEW : string := "        else:
            decode_query_lens = [self.decode_query_len]
        decode_query_lens = _glm53_adaptive_k_query_lens(decode_query_lens, self.decode_query_len)  # [glm53-adaptive-k]
".
Definition SCHED_NEEDLE : string := "from vllm.compilation.cuda_graph import CUDAGraphStat
".

(** ** The patcher *)

Section patcher.
Context (parses : string -> bool).

Definition import_os_line : string := "import os" ++ newline.
Definition import_time_line : string := "import time" ++ newline.

(** [_assert_no_draft_hook]. *)
Definition _assert_no_draft_hook (text : string) : res unit :=
  _ ← refuse_if (str_in DRAFT_HOOK text) "refused draft-facing wiring into num_spec_tokens_to_schedule";
  refuse_if (negb (str_count SCHED_K_OLD text =? 1)%nat) "num_spec_tokens_to_schedule anchor drifted".

(** [validate_scheduler]. *)
Definition validate_scheduler (text : string) : res unit :=
  _ ← check_syntax parses text;
  _ ← refuse_if (str_count MARK text <? 4)%nat "adaptive-k marker incomplete";
  _ ← refuse_if (negb (str_count SCHED_HELPER text =? 1)%nat) "helper missing, duplicated, or drifted";
  _ ← refuse_if (negb (str_in "_GLM53_ADAPTIVE_K.observe(" text)) "observe hook missing";
  _ ← refuse_if (negb (str_in "_GLM53_ADAPTIVE_K.apply(" text)) "apply hook missing";
  _ ← _assert_no_draft_hook text;
  refuse_if (negb (str_in import_os_line (before import_time_line text))) "helper requires a top-level import os".

(** [validate_cudagraph]. *)
Definition validate_cudagraph (text : string) : res unit :=
  _ ← check_syntax parses text;
  _ ← refuse_if (str_count MARK text <? 2)%nat "adaptive-k graph marker incomplete";
  _ ← refuse_if (negb (str_count CG_HELPER text =? 1)%nat) "graph helper missing, duplicated, or drifted";
  refuse_if (negb (str_in "_glm53_adaptive_k_query_lens(decode_query_lens" text)) "decode_query_lens hook missing".

(** [patch_scheduler], on the text of the scheduler. *)
Definition patch_scheduler (text : string) : res (option string) :=
  if str_in MARK text then _ ← validate_scheduler text; mret None
  else
    _ ← refuse_if (str_in "def _Glm53AdaptiveK" text || str_in "_GLM53_ADAPTIVE_K" text) "partial install";
    _ ← _assert_no_draft_hook text;
    _ ← refuse_if (negb (str_count OBS_OLD text =? 1)%nat) "observe target not unique";
    _ ← refuse_if (negb (str_count UPD_OLD text =? 1)%nat) "update_draft_token_ids target not unique";
    _ ← refuse_if (negb (str_count SCHED_NEEDLE text =? 1)%nat) "helper insert point not unique";
    _ ← refuse_if (negb (str_in import_os_line (before import_time_line text))) "missing top-level import os";
    let text := replace_first SCHED_NEEDLE (SCHED_HELPER ++ SCHED_NEEDLE) text in
    text ← replace_once text OBS_OLD OBS_NEW "observe";
    text ← replace_once text UPD_OLD UPD_NEW "update_draft_token_ids";
    _ ← validate_scheduler text;
    mret (Some text).

(** [patch_cudagraph_utils], on the text of [cudagraph_utils.py]. *)
Definition patch_cudagraph_utils (text : string) : res (option string) :=
  if str_in MARK text then _ ← validate_cudagraph text; mret None
  else
    _ ← refuse_if (str_in "_glm53_adaptive_k_query_lens" text) "partial install";
    _ ← refuse_if (negb (str_count CG_ANCHOR text =? 1)%nat) "helper insert point not unique";
    _ ← refuse_if (negb (str_count CG_OLD text =? 1)%nat) "decode_query_lens target not unique";
    let text := replace_first CG_ANCHOR (CG_HELPER ++ CG_ANCHOR) text in
    text ← replace_once text CG_OLD CG_NEW "decode_query_lens";
    _ ← validate_cudagraph text;
    mret (Some text).

Definition sched_table : list (string * string) :=
  [(SCHED_NEEDLE, SCHED_HELPER ++ SCHED_NEEDLE); (OBS_OLD, OBS_NEW); (UPD_OLD, UPD_NEW)].
Definition graph_table : list (string * string) :=
  [(CG_ANCHOR, CG_HELPER ++ CG_ANCHOR); (CG_OLD, CG_NEW)].

Lemma sched_marked text u : validate_scheduler text = Ok u -> str_in MARK text = true.
Proof.
  unfold validate_scheduler. intros H. step_ok H. step_ok H. step_ok H. apply refuse_if_Ok, eqb_one in E1.
  by apply (mark_in MARK SCHED_HELPER); [vm_compute | vm_compute |].
Qed.

Lemma graph_marked text u : validate_cudagraph text = Ok u -> str_in MARK text = true.
Proof.
  unfold validate_cudagraph. intros H. step_ok H. step_ok H. step_ok H. apply refuse_if_Ok, eqb_one in E1.
  by apply (mark_in MARK CG_HELPER); [vm_compute | vm_compute |].
Qed.

#[export] Instance sched_patcher : Patcher patch_scheduler sched_table.
Proof.
  split; unfold patch_scheduler; intros t t' H; (destruct (str_in MARK t); [by step_ok H |]);
    do 9 step_ok H; injection H as <-.
  - eapply edits_trans; [apply (replace_first_edits sched_table SCHED_NEEDLE); simpl; tauto |].
    eapply edits_trans; [by eapply replace_once_edits; [| |exact E5]; [vm_compute | simpl; tauto] |].
    by eapply replace_once_edits; [| |exact E6]; [vm_compute | simpl; tauto].
  - rewrite (sched_marked _ _ E7). by rewrite E7.
Qed.

#[export] Instance graph_patcher : Patcher patch_cudagraph_utils graph_table.
Proof.
  split; unfold patch_cudagraph_utils; intros t t' H; (destruct (str_in MARK t); [by step_ok H |]);
    do 5 step_ok H; injection H as <-.
  - eapply edits_trans; [apply (replace_first_edits graph_table CG_ANCHOR); simpl; tauto |].
    by eapply replace_once_edits; [| |exact E2]; [vm_compute | simpl; tauto].
  - rewrite (graph_marked _ _ E3). by rewrite E3.
Qed.

End patcher.
