(* ===== verification/PatchHybridHit.v ===== *)
(** * Installing the hybrid prefix hit

    Model of [overlay/patch_hybrid_prefix_hit.py].  The anchors and
    replacements are the source's, byte for byte. *)
From Stdlib Require Import ZArith Lia String Ascii.
From stdpp Require Import base list strings gmap.
From S2P Require Import Prelude PyStr Installer.
#[local] Open Scope string_scope.

(** ** The texts *)

Definition MARK : string := "# [glm53-hybrid-apc]".
Definition HELPER : string := unquote "
def _glm53_inner_kv_spec(spec):
    specs = getattr(spec, ^kv_cache_specs^, None)
    if isinstance(specs, dict) and specs:
        return next(iter(specs.values()))
    return spec


def _glm53_is_draft_swa_spec(spec) -> bool:
    ^^^DFlash2 drafter: exact SlidingWindowSpec, not KpoolTailSpec.^^^
    return type(_glm53_inner_kv_spec(spec)).__name__ == ^SlidingWindowSpec^


".
Definition EAGLE_OLD : string := "        # Conservatively fall back to flag all groups when no group is flagged.
        if use_eagle and not self.eagle_group_ids:
            self.eagle_group_ids = set(range(len(kv_cache_config.kv_cache_groups)))
".
Definition EAGLE_NEW : string := "        # Conservatively fall back to flag all groups when no group is flagged.
        if use_eagle and not self.eagle_group_ids:
            # [glm53-hybrid-apc] dflash is use_eagle(); GLM has no is_eagle_group
            # annotator. Flag only the drafter SlidingWindowSpec group so MLA /
            # mamba do not drop a whole scheduler page (~3584). MTP with no SWA
            # group keeps the upstream all-groups fallback.
            swa_ids = {
                i
                for i, g in enumerate(kv_cache_config.kv_cache_groups)
                if _glm53_is_draft_swa_spec(g.kv_cache_spec)
            }
            self.eagle_group_ids = swa_ids or set(
                range(len(kv_cache_config.kv_cache_groups))
            )
".
Definition MIN_OLD : string := "                if drop_eagle_block:
                    eagle_verified.add(idx)
                elif _new_hit_length < curr_hit_length:
                    # length shrunk; invalidate previous eagle verifications
                    eagle_verified.clear()
                curr_hit_length = _new_hit_length
                for group_id, blocks in zip(group_ids, hit_blocks):
                    hit_blocks_by_group[group_id] = blocks
                    hit_length_by_group[group_id] = _new_hit_length

                longest_hit_length = max(longest_hit_length, curr_hit_length)
".
Definition MIN_NEW : string := "                if drop_eagle_block:
                    eagle_verified.add(idx)
                elif _new_hit_length < curr_hit_length:
                    # length shrunk; invalidate previous eagle verifications
                    eagle_verified.clear()
                if _glm53_is_draft_swa_spec(spec):  # [glm53-hybrid-apc]
                    # Drafter SWA must not min() the hybrid hit. Its EAGLE pop
                    # re-aligns by LCM(window block, MLA page) = 3584. If the
                    # cached window does not cover the MLA/mamba hit, leave
                    # blocks empty so a fresh window is allocated; do not
                    # reseed the indexer tail here (KpoolTail already opted out).
                    if _new_hit_length >= curr_hit_length:
                        for group_id, blocks in zip(group_ids, hit_blocks):
                            hit_blocks_by_group[group_id] = blocks
                            hit_length_by_group[group_id] = _new_hit_length
                    continue
                curr_hit_length = _new_hit_length
                for group_id, blocks in zip(group_ids, hit_blocks):
                    hit_blocks_by_group[group_id] = blocks
                    hit_length_by_group[group_id] = _new_hit_length

                longest_hit_length = max(longest_hit_length, curr_hit_length)
".
Definition LOG_OLD : string := "        # Propagate the eagle bit to each manager (default to ``use_eagle=False``).
        for group in self.attention_groups:
            if group.use_eagle:
                for gid in group.group_ids:
                    self.single_type_managers[gid].use_eagle = True
".
Definition LOG_NEW : string := unquote "        # Propagate the eagle bit to each manager (default to ``use_eagle=False``).
        for group in self.attention_groups:
            if group.use_eagle:
                for gid in group.group_ids:
                    self.single_type_managers[gid].use_eagle = True
        logger.info(  # [glm53-hybrid-apc]
            ^hybrid APC groups: %s; eagle_group_ids=%s^,
            [
                (
                    type(_glm53_inner_kv_spec(g.spec)).__name__,
                    g.group_ids,
                    getattr(g.manager_cls, ^__name__^, type(g.manager_cls).__name__),
                    g.use_eagle,
                )
                for g in self.attention_groups
            ],
            sorted(self.eagle_group_ids),
        )
".

(** ** The patcher *)

Section patcher.
Context (parses : string -> bool).

Definition needle : string := "def _validate_prefix_cache_retention_interval(" ++ newline.

(** [verified_state]. *)
Definition verified_state (text : string) : bool :=
  str_in MARK text
  && str_in "def _glm53_is_draft_swa_spec(" text
  && str_in "swa_ids or set(" text
  && (str_count EAGLE_NEW text =? 1)%nat
  && (str_count MIN_NEW text =? 1)%nat
  && (str_count LOG_NEW text =? 1)%nat
  && (str_count EAGLE_OLD text =? 0)%nat
  && (str_count MIN_OLD text =? 0)%nat.

(** [main], on the text of the coordinator. *)
Definition main (text : string) : res (option string) :=
  if str_in MARK text then
    _ ← refuse_if (negb (verified_state text)) "hybrid APC patch is incomplete"; mret None
  else
    _ ← refuse_if (negb (str_count needle text =? 1)%nat) "helper insert point not unique";
    let text := if negb (str_in "def _glm53_inner_kv_spec(" text)
                then replace_first needle (HELPER ++ needle) text else text in
    text ← replace_once text EAGLE_OLD EAGLE_NEW "eagle-fallback";
    text ← replace_once text MIN_OLD MIN_NEW "hybrid-min";
    text ← replace_once text LOG_OLD LOG_NEW "group-log";
    _ ← refuse_if (negb (verified_state text)) "hybrid APC post-patch verification failed";
    _ ← check_syntax parses text;
    mret (Some text).

Definition table : list (string * string) :=
  [(needle, HELPER ++ needle); (EAGLE_OLD, EAGLE_NEW); (MIN_OLD, MIN_NEW); (LOG_OLD, LOG_NEW)].

#[export] Instance patcher : Patcher main table.
Proof.
  split; unfold main; intros t t' H; (destruct (str_in MARK t); [by step_ok H |]);
    do 6 step_ok H; injection H as <-.
  - edit_step table E0. edit_step table E1. edit_step table E2.
    apply (edits_trans table t (if negb (str_in "def _glm53_inner_kv_spec(" t)
      then replace_first needle (HELPER ++ needle) t else t)); [|chain_edits].
    destruct (negb (str_in "def _glm53_inner_kv_spec(" t)); [|constructor].
    apply replace_first_edits. simpl. tauto.
  - pose proof (refuse_if_Ok _ _ _ E3) as Hv. apply negb_false_iff in Hv.
    assert (str_in MARK x2 = true) as -> by (unfold verified_state in Hv; by bool_to_prop).
    by rewrite Hv.
Qed.

End patcher.
