(* ===== verification/PatchTailBoundary.v ===== *)
(** * Installing the tail boundary

    Model of [overlay/patch_apc_tail_boundary.py]: the scheduler and the cache-manager file.  The anchors and
    replacements are the source's, byte for byte. *)
From Stdlib Require Import ZArith Lia String Ascii.
From stdpp Require Import base list strings gmap.
From S2P Require Import Prelude PyStr Installer.
#[local] Open Scope string_scope.

(** ** The texts *)

Definition MARKER : string := "[glm53-apc-tail-floor]".
Definition SCHED_OLD : string := "        tail_boundary = (
            request.num_prompt_tokens // self.hash_block_size * self.hash_block_size
            if self.mamba_partial_cache_hit
            else 0
        )
".
Definition SCHED_NEW : string := "        tail_boundary = (
            # [glm53-apc-tail-floor] Floor from (n - 1): the finder is capped at
            # `num_tokens - 1` (the last token is recomputed for logits), so a
            # boundary registered at `n` is one unit above anything a lookup can
            # request and never serves a hit.
            (request.num_prompt_tokens - 1) // self.hash_block_size
            * self.hash_block_size
            if self.mamba_partial_cache_hit
            else 0
        )
".
Definition FA_OLD : string := "        hash_block_size = self.block_pool.hash_block_size
        boundary_tokens = request.num_prompt_tokens // hash_block_size * hash_block_size
        if boundary_tokens == 0 or boundary_tokens > num_tokens:
".
Definition FA_NEW : string := "        hash_block_size = self.block_pool.hash_block_size
        # [glm53-apc-tail-floor] Same (n - 1) floor as the mamba tail: with
        # fine-grained hashing this is the deepest tail a replay can reach, and
        # it is the position the hybrid intersection needs to meet.
        boundary_tokens = (
            (request.num_prompt_tokens - 1) // hash_block_size * hash_block_size
        )
        if boundary_tokens == 0 or boundary_tokens > num_tokens:
".
Definition MAMBA_OLD : string := "        latest_prompt_hash_boundary = (
            request.num_prompt_tokens // hash_block_size
        ) * hash_block_size
".
Definition MAMBA_NEW : string := "        latest_prompt_hash_boundary = (  # [glm53-apc-tail-floor]
            (request.num_prompt_tokens - 1) // hash_block_size
        ) * hash_block_size
".

(** ** The patcher *)

Section patcher.
Context (parses : string -> bool).

(** [patch_text]. *)
Fixpoint patch_text (text : string) (edits : list (string * string)) : res string :=
  match edits with
  | [] => Ok text
  | (old, new) :: es =>
      if (str_count old text =? 1)%nat then patch_text (replace_first old new text) es
      else Raise (SystemExit "expected exactly one anchor")
  end.

(** [patch_file], on the text of one target. *)
Definition patch_file (es : list (string * string)) (text : string) : res (option string) :=
  if str_in MARKER text then
    if forallb (fun e => str_in (snd e) text) es then _ ← check_syntax parses text; mret None
    else Raise AssertionError
  else
    text ← patch_text text es;
    if parses text then mret (Some text) else Raise AssertionError.

Definition sched_edits : list (string * string) := [(SCHED_OLD, SCHED_NEW)].
Definition mgr_edits : list (string * string) := [(FA_OLD, FA_NEW); (MAMBA_OLD, MAMBA_NEW)].

(** [main]: nothing unless armed, then each target. *)
Definition main (env : environ) (es : list (string * string)) (text : string) : res (option string) :=
  if negb (String.eqb (environ_get env "GLM53_APC_TAIL_FLOOR" "0") "1") then Ok None
  else patch_file es text.

Lemma patch_text_edits es table t t' :
  Forall (fun e => fst e <> "") es -> incl es table -> patch_text t es = Ok t' -> edits table t t'.
Proof.
  revert t. induction es as [|[old new] es IH]; intros t Hne Hi H; simpl in H.
  { injection H as <-. constructor. }
  inversion Hne as [|? ? H1 H2]; subst. simpl in H1.
  destruct (Nat.eqb_spec (str_count old t) 1) as [Hc|]; [|done].
  eapply edits_trans; [|apply (IH _ H2); [intros e He; apply Hi; by right | exact H]].
  apply edits_one; [apply Hi; by left | by apply count_one_in].
Qed.

(** The replacements carry the mark and do not disturb each other: each new
    form is there afterwards. *)
Lemma sched_present t t' : patch_text t sched_edits = Ok t' -> str_in SCHED_NEW t' = true.
Proof.
  simpl. destruct (Nat.eqb_spec (str_count SCHED_OLD t) 1) as [Hc|]; [|done]. intros [= <-].
  apply replace_first_in. by apply count_one_in; [vm_compute |].
Qed.

Lemma mgr_present t t' : patch_text t mgr_edits = Ok t' ->
  str_in FA_NEW t' = true /\ str_in MAMBA_NEW t' = true.
Proof.
  cbn [patch_text mgr_edits]. destruct (Nat.eqb_spec (str_count FA_OLD t) 1) as [Hf|]; [|done].
  destruct (Nat.eqb_spec (str_count MAMBA_OLD (replace_first FA_OLD FA_NEW t)) 1) as [Hm|]; [|done].
  intros [= <-]. split; [|apply replace_first_in; by apply count_one_in; [vm_compute |]].
  apply replace_survives; [by vm_compute |]. apply replace_first_in. by apply count_one_in; [vm_compute |].
Qed.

Lemma patch_file_patcher env es :
  es <> [] -> Forall (fun e => fst e <> "") es -> Forall (fun e => str_in MARKER (snd e) = true) es ->
  (forall t t', patch_text t es = Ok t' -> Forall (fun e => str_in (snd e) t' = true) es) ->
  Patcher (main env es) es.
Proof.
  intros Hne Hold Hmark Hpres.
  split; unfold main, patch_file; intros t t' H; (destruct (negb _) eqn:Ef; [done |]);
    (destruct (str_in MARKER t); [destruct (forallb _ _); [by step_ok H | done] |]);
    step_ok H; destruct (parses x) eqn:Ep; try discriminate H; injection H as <-.
  - eapply patch_text_edits; [done | | exact E]. apply incl_refl.
  - pose proof (Hpres t x E) as Hn.
    assert (str_in MARKER x = true) as ->.
    { destruct es as [|e es]; [done |]. inversion Hmark; subst. inversion Hn; subst.
      by eapply str_in_trans. }
    assert (forallb (fun e => str_in (snd e) x) es = true) as ->.
    { apply forallb_forall. intros e He. rewrite List.Forall_forall in Hn. by apply Hn. }
    unfold check_syntax. by rewrite Ep.
Qed.

#[export] Instance sched_patcher env : Patcher (main env sched_edits) sched_edits.
Proof.
  apply patch_file_patcher; [done | by repeat constructor; vm_compute | by repeat constructor; vm_compute |].
  intros t t' H%sched_present. by repeat constructor.
Qed.

#[export] Instance mgr_patcher env : Patcher (main env mgr_edits) mgr_edits.
Proof.
  apply patch_file_patcher; [done | by repeat constructor; vm_compute | by repeat constructor; vm_compute |].
  intros t t' [H1 H2]%mgr_present. by repeat constructor.
Qed.

End patcher.
