(* ===== verification/PatchCache.v ===== *)
(** * Installing the prefix cache's changes

    The patchers of the block pool and of the routes that reset it. *)
From Stdlib Require Import ZArith Lia String Ascii.
From stdpp Require Import base list strings gmap.
From S2P Require Import Prelude PyStr Installer.
#[local] Open Scope string_scope.

(** * Installing the tail-first eviction

    Model of [overlay/patch_cache_tail_evict.py].  The anchors and
    replacements are the source's, byte for byte. *)
Module PatchTailEvict.

(** ** The texts *)

Definition MARK : string := "[glm53-cache-tail-evict]".
Definition POP_OLD : string := "        ret: list[KVCacheBlock] = self.free_block_queue.popleft_n(num_blocks)
".
Definition POP_NEW : string := "        ret: list[KVCacheBlock] = self._glm53_tail_first_blocks(num_blocks)  # [glm53-cache-tail-evict]
".
Definition DEF_OLD : string := "    def get_new_blocks(self, num_blocks: int) -> list[KVCacheBlock]:
".
Definition DEF_NEW : string := unquote "    def _glm53_tail_first_blocks(self, num_blocks: int) -> list[KVCacheBlock]:
        ^^^[glm53-cache-tail-evict] Deepest cached block first. See cache_tail_evict.py.^^^
        import sys as _glm53_sys

        if ^/opt/glm53^ not in _glm53_sys.path:
            _glm53_sys.path.insert(0, ^/opt/glm53^)
        from cache_tail_evict import select_blocks as _glm53_select_blocks

        return _glm53_select_blocks(self.free_block_queue, num_blocks)

    def get_new_blocks(self, num_blocks: int) -> list[KVCacheBlock]:
".

(** ** The patcher *)

(** [main], with the flag, on the text of [block_pool.py]. *)
Definition main (env : environ) (text : string) : res (option string) :=
  let flag := strip (environ_get env "GLM53_CACHE_TAIL_EVICT" "0") in
  if negb (String.eqb flag "1") then Ok None
  else if str_in MARK text then Ok None
  else
    _ ← refuse_if (negb (str_count POP_OLD text =? 1)%nat || negb (str_count DEF_OLD text =? 1)%nat) "anchor drift";
    let updated := replace_first POP_OLD POP_NEW (replace_first DEF_OLD DEF_NEW text) in
    _ ← refuse_if ((str_count MARK updated <? 2)%nat || str_in POP_OLD updated) "replacement did not apply cleanly";
    mret (Some updated).

Definition table : list (string * string) := [(DEF_OLD, DEF_NEW); (POP_OLD, POP_NEW)].

#[export] Instance patcher env : Patcher (main env) table.
Proof.
  split; unfold main; cbv zeta; intros t t' H; (destruct (negb _) eqn:Ef; [done |]);
    (destruct (str_in MARK t); [done |]); step_ok H; step_ok H; injection H as <-.
  - eapply edits_trans; apply replace_first_edits; simpl; tauto.
  - apply refuse_if_Ok, orb_false_iff in E0 as [Hm _]. apply Nat.ltb_ge in Hm.
    rewrite (str_count_pos MARK); [done | by vm_compute | lia].
Qed.

End PatchTailEvict.

(** * Installing the cache-reset routes

    Model of [overlay/patch_cache_reset.py].  The anchors and
    replacements are the source's, byte for byte. *)
Module PatchCacheReset.

(** ** The texts *)

Definition MARK : string := "# [glm53-cache-reset]".
Definition DEV_OLD : string := "    if envs.VLLM_SERVER_DEV_MODE:
        from vllm.entrypoints.serve import register_vllm_dev_api_routers

        register_vllm_dev_api_routers(app)
".
Definition DEV_NEW : string := unquote "    if envs.VLLM_SERVER_DEV_MODE:
        from vllm.entrypoints.serve import register_vllm_dev_api_routers

        register_vllm_dev_api_routers(app)
    elif os.getenv(^GLM53_EXPOSE_CACHE_RESET^, ^0^) == ^1^:
        # [glm53-cache-reset] Expose only the cache-reset dev routes (issue
        # #31): /reset_prefix_cache, /reset_mm_cache, /reset_encoder_cache.
        # The rest of the dev surface (sleep / rlhf / rpc / server_info)
        # stays off; VLLM_SERVER_DEV_MODE=1 keeps mounting everything.
        from vllm.entrypoints.serve.dev.cache.api_router import (
            attach_router as attach_cache_reset_router,
        )

        attach_cache_reset_router(app)
".

(** ** The patcher *)

Section patcher.
Context (parses : string -> bool).

(** [main], on the text of [api_server.py]. *)
Definition main (text : string) : res (option string) :=
  let n_old := str_count DEV_OLD text in
  let n_new := str_count DEV_NEW text in
  let n_mark := str_count MARK text in
  if (n_new =? 1)%nat && (n_mark <=? 1)%nat then Ok None
  else
    _ ← refuse_if (negb (n_mark =? 0)%nat || negb (n_new =? 0)%nat) "partial/inconsistent cache-reset patch";
    _ ← refuse_if (negb (n_old =? 1)%nat) "expected exactly one pristine dev-mode block";
    let text := replace_first DEV_OLD DEV_NEW text in
    _ ← refuse_if (negb (str_count DEV_NEW text =? 1)%nat || negb (str_count MARK text =? 1)%nat)
          "cache-reset post-patch verification failed";
    _ ← check_syntax parses text;
    mret (Some text).

Definition table : list (string * string) := [(DEV_OLD, DEV_NEW)].

#[export] Instance patcher : Patcher main table.
Proof.
  split; unfold main; cbv zeta; intros t t' H; (destruct (_ && _); [done |]);
    do 4 step_ok H; injection H as <-.
  - apply replace_first_edits. simpl. tauto.
  - apply refuse_if_Ok, orb_false_iff in E1 as [Hn%eqb_one Hm%eqb_one]. by rewrite Hn, Hm.
Qed.

End patcher.

End PatchCacheReset.

(** * Installing the hot-block protection

    Model of [overlay/patch_cache_hot_protect.py], which edits two files or none.  The anchors and
    replacements are the source's, byte for byte. *)
Module PatchHotProtect.

(** ** The texts *)

Definition MARK : string := "[glm53-cache-hot-protect]".
Definition TAIL : string := "[glm53-cache-tail-evict]".
Definition HIT_OLD : string := "        # Touch the computed blocks to make sure they won't be evicted.
        if self.enable_caching:
            self.block_pool.touch(new_computed_blocks)
".
Definition HIT_NEW : string := unquote "        # Touch the computed blocks to make sure they won't be evicted.
        if self.enable_caching:
            self.block_pool.touch(new_computed_blocks)
            # [glm53-cache-hot-protect] a hit is a reuse; one-shot blocks stay cold
            import sys as _glm53_sys
            if ^/opt/glm53^ not in _glm53_sys.path:
                _glm53_sys.path.insert(0, ^/opt/glm53^)
            from cache_tail_evict import mark_reused as _glm53_mark_reused
            for _glm53_block in new_computed_blocks:
                if _glm53_block.block_hash is not None:
                    _glm53_mark_reused(_glm53_block.block_id)
".
Definition RESET_OLD : string := unquote "    def reset_hash(self):
        ^^^Reset the block hash when the block is evicted.^^^
        self._block_hash = None
        self._block_hash_num_tokens = None
".
Definition RESET_NEW : string := unquote "    def reset_hash(self):
        ^^^Reset the block hash when the block is evicted.^^^
        # [glm53-cache-hot-protect] the block is about to hold new tokens
        import sys as _glm53_sys
        if ^/opt/glm53^ not in _glm53_sys.path:
            _glm53_sys.path.insert(0, ^/opt/glm53^)
        from cache_tail_evict import clear_reused as _glm53_clear_reused
        _glm53_clear_reused(self.block_id)
        self._block_hash = None
        self._block_hash_num_tokens = None
".

(** ** The patcher *)

(** [main], with the flag, on the texts of [block_pool.py] (when it is there),
    of the cache manager and of the cache utilities: the new texts of the last
    two, or nothing to write. *)
Definition main (env : environ) (pool : option string) (manager utils : string)
  : res (option (string * string)) :=
  let flag := strip (environ_get env "GLM53_CACHE_HOT_PROTECT" "0") in
  if negb (String.eqb flag "1") then Ok None
  else
    _ ← refuse_if (negb (from_option (str_in TAIL) false pool)) "needs the tail-first marker";
    if str_in MARK manager && str_in MARK utils then mret None
    else
      _ ← refuse_if (str_in MARK manager || str_in MARK utils) "partial install";
      _ ← refuse_if (negb (str_count HIT_OLD manager =? 1)%nat || negb (str_count RESET_OLD utils =? 1)%nat)
            "anchor drift";
      let new_manager := replace_first HIT_OLD HIT_NEW manager in
      let new_utils := replace_first RESET_OLD RESET_NEW utils in
      _ ← refuse_if (negb (str_in MARK new_manager) || negb (str_in MARK new_utils))
            "replacement did not apply cleanly";
      mret (Some (new_manager, new_utils)).

(** A run that writes edits each file once, and a second run finds both done. *)
Lemma hot_protect_writes env pool m u m' u' : main env pool m u = Ok (Some (m', u')) ->
  edited (HIT_OLD, HIT_NEW) m m' /\ edited (RESET_OLD, RESET_NEW) u u' /\
  from_option (str_in TAIL) false pool = true /\ main env pool m' u' = Ok None.
Proof.
  unfold main at 1. cbv zeta. destruct (negb _) eqn:Ef; [done |]. intros H. step_ok H.
  destruct (str_in MARK m && str_in MARK u); [done |]. step_ok H. step_ok H. step_ok H.
  injection H as <- <-. pose proof (refuse_if_Ok _ _ _ E) as Ht. apply negb_false_iff in Ht.
  apply refuse_if_Ok, orb_false_iff in E1 as [Hh%eqb_one Hr%eqb_one].
  apply refuse_if_Ok, orb_false_iff in E2 as [Hm%negb_false_iff Hu%negb_false_iff].
  split; [|split; [|split; [exact Ht |]]].
  - by apply replace_first_spec, count_one_in; [vm_compute |].
  - by apply replace_first_spec, count_one_in; [vm_compute |].
  - unfold main. cbv zeta. by rewrite Ef, Ht, Hm, Hu.
Qed.

End PatchHotProtect.

(** * Installing the fine-grained prefix cache

    Model of [patch_file] and [main] of [overlay/patch_fine_grained_apc.py].  The anchors and
    replacements are the source's, byte for byte. *)
Module PatchFineGrained.

(** ** The texts *)

Definition MARKER : string := "[glm53-fgapc]".
Definition VETO_OLD : string := "            unsupported_partial_hit_managers = {
                type(manager).__name__
                for manager in self.single_type_managers
                if not manager.supports_fine_grained_hash_lookup
                and manager.block_size != hash_block_size
            }".
Definition VETO_NEW : string := "            unsupported_partial_hit_managers = {
                type(manager).__name__
                for manager, group in zip(
                    self.single_type_managers, kv_cache_config.kv_cache_groups
                )
                # [glm53-fgapc] A transient/non-shareable manager cannot
                # constrain prefix-hit granularity because it never
                # participates in the lookup.
                if group.kv_cache_spec.participates_in_prefix_caching
                and not manager.supports_fine_grained_hash_lookup
                and manager.block_size != hash_block_size
            }".
Definition DIAG_OLD : string := "        self.verify_and_split_kv_cache_groups()".
Definition DIAG_NEW : string := unquote "        logger.info(
            # [glm53-fgapc]
            ^[glm53-fgapc] partial_hash=%s hash_block=%s managers=%s^,
            self.enable_partial_hash_hits,
            hash_block_size,
            sorted(
                (
                    type(manager).__name__,
                    manager.block_size,
                    bool(group.kv_cache_spec.participates_in_prefix_caching),
                    bool(
                        getattr(
                            manager, ^supports_fine_grained_hash_lookup^, False
                        )
                    ),
                )
                for manager, group in zip(
                    self.single_type_managers, kv_cache_config.kv_cache_groups
                )
            ),
        )
        self.verify_and_split_kv_cache_groups()".

(** ** The patcher *)

Section patcher.
Context (parses : string -> bool).

(** [patch_file], outside of a dry run, on the text of the coordinator. *)
Definition patch_file (text : string) : res (option string) :=
  if str_in MARKER text then
    if str_in VETO_NEW text && str_in DIAG_NEW text
    then _ ← check_syntax parses text; mret None
    else Raise AssertionError
  else if negb (str_in VETO_OLD text) then Raise AssertionError
  else
    let text := replace_first VETO_OLD VETO_NEW text in
    if negb (str_count DIAG_OLD text =? 1)%nat then Raise AssertionError
    else
      let text := replace_first DIAG_OLD DIAG_NEW text in
      if parses text then mret (Some text) else Raise AssertionError.

(** [main]: nothing unless armed; a dry run writes nothing. *)
Definition main (env : environ) (text : string) : res (option string) :=
  if negb (String.eqb (environ_get env "GLM53_FINE_GRAINED_APC" "0") "1") then Ok None
  else
    r ← patch_file text;
    mret (if String.eqb (environ_get env "DRY_RUN" "") "1" then None else r).

Definition table : list (string * string) := [(VETO_OLD, VETO_NEW); (DIAG_OLD, DIAG_NEW)].

Lemma patch_file_writes t t' : patch_file t = Ok (Some t') ->
  edits table t t' /\ parses t' = true /\ str_in VETO_NEW t' = true /\ str_in DIAG_NEW t' = true.
Proof.
  unfold patch_file. cbv zeta. destruct (str_in MARKER t).
  { destruct (_ && _); [|done]. unfold check_syntax. by destruct (parses t). }
  destruct (str_in VETO_OLD t) eqn:Ev; [|done]. simpl.
  destruct (Nat.eqb_spec (str_count DIAG_OLD (replace_first VETO_OLD VETO_NEW t)) 1) as [Hd|]; [|done].
  destruct (parses _) eqn:Ep; [|done]. intros [= <-].
  assert (str_in DIAG_OLD (replace_first VETO_OLD VETO_NEW t) = true) as Hi
    by (by apply count_one_in; [vm_compute |]).
  split; [eapply edits_trans; apply replace_first_edits; simpl; tauto |]. split; [done |].
  split; [|by apply replace_first_in]. apply replace_survives; [by vm_compute | by apply replace_first_in].
Qed.

#[export] Instance patcher env : Patcher (main env) table.
Proof.
  split; unfold main; intros t t' H; (destruct (negb _) eqn:Ef; [done |]); step_ok H;
    (destruct (String.eqb (environ_get env "DRY_RUN" "") "1") eqn:Ed; [done |]); injection H as ->;
    destruct (patch_file_writes t t' E) as (He & Hp & Hv & Hd); [done |].
  unfold patch_file. rewrite Hv, Hd. rewrite (str_in_trans MARKER VETO_NEW t') by (first [done | by vm_compute]).
  unfold check_syntax. by rewrite Hp.
Qed.

End patcher.

End PatchFineGrained.
