(* ===== verification/PatchKvCapacity.v ===== *)
(** * Installing the KV capacity log

    Model of [prepare] and [main] of [overlay/patch_kv_capacity_log.py].  The anchors and
    replacements are the source's, byte for byte. *)
From Stdlib Require Import ZArith Lia String Ascii.
From stdpp Require Import base list strings gmap.
From S2P Require Import Prelude PyStr Installer.
#[local] Open Scope string_scope.

(** ** The texts *)

Definition HELPERS_SRC : string := unquote "# [glm53-kv-capacity-log] helpers -- log-only; see overlay/patch_kv_capacity_log.py
_GLM53_KV_CAPACITY_ENV = ^GLM53_KV_CAPACITY_LOG^
_GLM53_KV_CAPACITY_TAG = ^[glm53-kv-capacity-log]^


def _glm53_kv_capacity_log_enabled() -> bool:
    ^^^Exactly ^0^ or ^1^; an UNSET var means ^1^ (log).

    Same contract as the launcher's start/restart validation: no strip,
    no lower, ^^ is a value and not an absence. A typo'd knob raises rather
    than silently choosing.
    ^^^
    raw = os.environ.get(_GLM53_KV_CAPACITY_ENV)
    if raw is None or raw == ^1^:
        return True
    if raw == ^0^:
        return False
    raise ValueError(
        f^{_GLM53_KV_CAPACITY_ENV} must be exactly 0 or 1 (got: {raw!r})^
    )


def _glm53_inner_kv_spec(spec):
    ^^^Unwrap a UniformTypeKVCacheSpecs so the group's real spec class is named.^^^
    specs = getattr(spec, ^kv_cache_specs^, None)
    if isinstance(specs, dict) and specs:
        return next(iter(specs.values()))
    return spec


def _glm53_spec_kind_names(spec) -> tuple:
    return tuple(c.__name__ for c in type(spec).__mro__)


def _glm53_spec_prefix_cacheable(spec) -> bool:
    ^^^Fork flag first, then upstream's, else True (legacy specs cache).^^^
    for name in (^participates_in_prefix_caching^, ^prefix_cacheable^):
        value = getattr(spec, name, None)
        if callable(value):
            value = value()
        if isinstance(value, bool):
            return value
    return True


def _glm53_eagle_group_ids(vllm_config, kv_cache_config) -> set:
    ^^^Mirror of KVCacheCoordinator.__init__ (with patch_hybrid_prefix_hit.py).

    ``is_eagle_group`` is authoritative when any group carries it. Otherwise,
    when the speculative config is EAGLE-like, the exact-``SlidingWindowSpec``
    groups are flagged (the DFlash2 drafter), else every group.
    ^^^
    groups = list(kv_cache_config.kv_cache_groups)
    ids = {i for i, g in enumerate(groups) if bool(getattr(g, ^is_eagle_group^, False))}
    if ids:
        return ids
    spec_cfg = getattr(vllm_config, ^speculative_config^, None)
    use_eagle = getattr(spec_cfg, ^use_eagle^, None) if spec_cfg is not None else None
    if callable(use_eagle):
        use_eagle = use_eagle()
    if not use_eagle:
        return set()
    swa = {
        i
        for i, g in enumerate(groups)
        if type(_glm53_inner_kv_spec(g.kv_cache_spec)).__name__ == ^SlidingWindowSpec^
    }
    return swa or set(range(len(groups)))


def _glm53_kv_capacity_rows(vllm_config, kv_cache_config) -> list:
    ^^^One dict per KV-cache group, from the same objects the stock line uses.

    ``blocks_per_request`` is deliberately the same expression as the
    comprehension in ``get_max_concurrency_for_kv_cache_config``: the sum of
    this column IS that function's denominator.
    ^^^
    eagle = _glm53_eagle_group_ids(vllm_config, kv_cache_config)
    rows = []
    for index, group in enumerate(kv_cache_config.kv_cache_groups):
        spec = group.kv_cache_spec
        inner = _glm53_inner_kv_spec(spec)
        kinds = _glm53_spec_kind_names(inner)
        row = {
            ^index^: index,
            ^spec^: kinds[0],
            ^kinds^: kinds,
            ^layers^: len(getattr(group, ^layer_names^, ()) or ()),
            ^block_size^: int(spec.block_size),
            ^page_size_bytes^: int(spec.page_size_bytes),
            ^blocks_per_request^: cdiv(
                spec.max_memory_usage_bytes(vllm_config),
                spec.page_size_bytes,
            ),
            ^prefix_cacheable^: _glm53_spec_prefix_cacheable(spec),
            ^eagle^: index in eagle,
            ^sliding_window^: None,
            ^mamba_cache_mode^: None,
        }
        if ^SlidingWindowSpec^ in kinds:
            window = getattr(inner, ^sliding_window^, None)
            row[^sliding_window^] = int(window) if window is not None else None
        if ^MambaSpec^ in kinds:
            row[^mamba_cache_mode^] = _glm53_mamba_cache_mode(spec)
        rows.append(row)
    return rows


def _glm53_mamba_cache_mode(spec):
    ^^^The mode the managers act on: each resolved MambaSpec's own field
    (set from cache_config at spec creation, but the spec is what the manager
    reads). A uniform group whose members disagree is reported as ^mixed^ and
    left unmodelled.
    ^^^
    members = getattr(spec, ^kv_cache_specs^, None)
    specs = list(members.values()) if isinstance(members, dict) and members else [spec]
    modes = {getattr(s, ^mamba_cache_mode^, None) for s in specs}
    if len(modes) != 1:
        return ^mixed^
    return modes.pop()


def _glm53_ids_per_segment(row: dict, alignment: int):
    ^^^Block ids one aligned cached segment costs in this group under DENSE
    retention with block-aligned hits (what ``reachable_block_mask`` hashes
    when no retention interval is set). ``None`` = not modelled: the summary
    then withholds the capacity figure instead of guessing.
    ^^^
    if not row[^prefix_cacheable^]:
        return 0
    block_size = row[^block_size^]
    if block_size <= 0 or alignment % block_size:
        return None
    per_segment = alignment // block_size
    # EXACT class names only. A subclass may come with its own manager and its
    # own reservation rule (SinkFullAttentionSpec keeps permanent sink blocks,
    # KpoolTailSpec is a scratch buffer, TQ/RSWA/HiddenState carry other
    # semantics), so anything not listed is unmodelled, never costed by its
    # base class.
    kind = row[^spec^]
    if kind == ^MambaSpec^:
        # align: one state snapshot per block position; all: every block.
        return per_segment if row[^mamba_cache_mode^] in (^align^, ^all^) else None
    if kind in (^SlidingWindowSpec^, ^SlidingWindowMLASpec^):
        window = row[^sliding_window^]
        if not window:
            return None
        # SlidingWindowManager._contiguous_blocks_for_hit: the run a hit needs,
        # +1 when the EAGLE last-block drop applies. reachable_block_mask
        # caches every block once need >= per_segment.
        need = cdiv(window - 1, block_size) + (1 if row[^eagle^] else 0)
        return min(need, per_segment)
    if kind in (^FullAttentionSpec^, ^MLAAttentionSpec^):
        # FullAttentionManager keeps the base reachable_block_mask (None):
        # every block is hashed.
        return per_segment
    return None


def _glm53_context_parallel_sizes(vllm_config) -> tuple:
    pc = getattr(vllm_config, ^parallel_config^, None)
    dcp = int(getattr(pc, ^decode_context_parallel_size^, 1) or 1)
    pcp = int(getattr(pc, ^prefill_context_parallel_size^, 1) or 1)
    return dcp, pcp


def _glm53_kv_capacity_summary(rows: list, num_blocks: int, vllm_config=None) -> dict:
    num_blocks = int(num_blocks)
    usable = max(num_blocks - 1, 0)  # block id 0 is BlockPool's null block
    blocks_per_request = sum(int(r[^blocks_per_request^]) for r in rows)
    # lcm of the raw group block sizes == the coordinator's scheduler block
    # size when no context parallelism scales the per-rank block sizes.
    alignment = 1
    for r in rows:
        alignment = math.lcm(alignment, max(int(r[^block_size^]), 1))
    per_group = [_glm53_ids_per_segment(r, alignment) for r in rows]
    unmodelled = [r[^index^] for r, v in zip(rows, per_group) if v is None]
    withheld = None
    dcp, pcp = _glm53_context_parallel_sizes(vllm_config) if vllm_config is not None else (1, 1)
    if dcp > 1 or pcp > 1:
        withheld = f^context parallelism (dcp={dcp}, pcp={pcp}) rescales block sizes; alignment not derived here^
    total = sum(v for v in per_group if v)
    capacity = None
    segments = None
    if rows and not unmodelled and withheld is None and total > 0:
        segments = usable // total
        capacity = segments * alignment
    return {
        ^num_blocks^: num_blocks,
        ^usable^: usable,
        ^blocks_per_request^: blocks_per_request,
        ^alignment^: alignment,
        ^per_group^: per_group,
        ^unmodelled^: unmodelled,
        ^withheld^: withheld,
        ^total^: total,
        ^segments^: segments,
        ^capacity_tokens^: capacity,
    }


def _glm53_kv_capacity_lines(rows: list, summary: dict, max_model_len: int) -> list:
    ^^^Preformatted lines (info_once caches on its arguments: pass strings).^^^
    tag = _GLM53_KV_CAPACITY_TAG
    lines = []
    for r in rows:
        extra = ^^
        if r[^sliding_window^] is not None:
            extra += f^ window={r['sliding_window']} eagle={'yes' if r['eagle'] else 'no'}^
        if r[^mamba_cache_mode^] is not None:
            extra += f^ mamba_cache_mode={r['mamba_cache_mode']}^
        cacheable = ^yes^ if r[^prefix_cacheable^] else ^no (scratch)^
        lines.append(
            f^{tag} group {r['index']}: {r['spec']} layers={r['layers']} ^
            f^block_size={r['block_size']} page_size={r['page_size_bytes']:,} B ^
            f^blocks/request@{int(max_model_len):,}={r['blocks_per_request']} ^
            f^prefix_caching={cacheable}{extra}^
        )
    bpr = summary[^blocks_per_request^]
    ratio = f^{summary['num_blocks'] / bpr:.2f}x^ if bpr else ^n/a^
    head = (
        f^{tag} usable block ids: {summary['usable']} ^
        f^(num_blocks={summary['num_blocks']} incl. the null block; ^
        f^{bpr} ids per {int(max_model_len):,}-token request => {ratio})^
    )
    if summary[^capacity_tokens^] is None:
        if summary[^unmodelled^]:
            why = ^unmodelled: ^ + ^, ^.join(
                f^group {r['index']} {r['spec']}^ for r in rows if r[^index^] in summary[^unmodelled^]
            )
        elif summary.get(^withheld^):
            why = summary[^withheld^]
        else:
            why = ^no prefix-cacheable group costs ids^
        lines.append(
            f^{head}; ids per {summary['alignment']}-token cached segment across groups: ^
            f^not derived ({why}; per group: {summary['per_group']}); ^
            ^cached-conversation capacity at this alignment: not derived^
        )
    else:
        lines.append(
            f^{head}; ids per {summary['alignment']}-token cached segment across groups: ^
            f^{summary['total']} (per group: {summary['per_group']}); ^
            f^cached-conversation capacity at this alignment ≈ {summary['capacity_tokens']:,} tokens ^
            f^= {summary['segments']} segments (aligned dense-retention prefix-cache upper bound: ^
            ^nothing running, every reachable block hashed, block-aligned hits). ^
            ^The 'GPU KV cache size' line above is max_concurrency x max_model_len, not this figure.^
        )
    return lines


def _glm53_log_kv_capacity(vllm_config, kv_cache_config, max_model_len) -> None:
    ^^^Called right after the stock 'GPU KV cache size' line. Log-only.^^^
    # The knob is validated OUTSIDE the try: a malformed value must raise.
    if not _glm53_kv_capacity_log_enabled():
        logger.info_once(
            f^{_GLM53_KV_CAPACITY_TAG} disabled ({_GLM53_KV_CAPACITY_ENV}=0)^
        )
        return
    try:
        rows = _glm53_kv_capacity_rows(vllm_config, kv_cache_config)
        summary = _glm53_kv_capacity_summary(rows, kv_cache_config.num_blocks, vllm_config)
        lines = _glm53_kv_capacity_lines(rows, summary, max_model_len)
    except Exception as exc:  # diagnostic only: never take the server down
        logger.warning_once(
            f^{_GLM53_KV_CAPACITY_TAG} could not derive the block-level KV ^
            f^capacity (log-only; serving unaffected): {type(exc).__name__}: {exc}^
        )
        return
    for line in lines:
        logger.info_once(line)


".
Definition MARK_HELPERS : string := "# [glm53-kv-capacity-log] helpers -- log-only; see overlay/patch_kv_capacity_log.py
".
Definition ANCHOR_HELPERS : string := "def get_max_concurrency_for_kv_cache_config(
    vllm_config: VllmConfig, kv_cache_config: KVCacheConfig
) -> float:
".
Definition MARK_CALL : string := "    _glm53_log_kv_capacity(vllm_config, kv_cache_config, max_model_len)  # [glm53-kv-capacity-log]
".
Definition ANCHOR_CALL : string := unquote "    logger.info_once(
        ^GPU KV cache size: %s tokens, ^
        ^Maximum concurrency for %s tokens per request: %.2fx^,
        f^{num_tokens:,}^,
        f^{max_model_len:,}^,
        max_concurrency,
    )
".

Definition PATCHED_HELPERS : string := HELPERS_SRC ++ ANCHOR_HELPERS.
Definition PATCHED_CALL : string := ANCHOR_CALL ++ MARK_CALL.

(** [SITES]: mark, anchor and replacement. *)
Definition SITES : list (string * string * string) :=
  [(MARK_HELPERS, ANCHOR_HELPERS, PATCHED_HELPERS); (MARK_CALL, ANCHOR_CALL, PATCHED_CALL)].

(** [REQUIRED_BINDINGS]. *)
Definition REQUIRED_BINDINGS : list string :=
  ["from vllm.utils.math_utils import cdiv"; "import math" ++ newline; "import os" ++ newline;
   "logger = init_logger(__name__)" ++ newline].

(** ** The patcher *)

Section patcher.
Context (parses : string -> bool).

(** [text.index(needle)] of a text that occurs. *)
Definition str_index (needle text : string) : nat := String.length (before needle text).

Definition site_ok (text : string) (site : string * string * string) : bool :=
  let '(mark, anchor, patched) := site in
  (str_count mark text =? 1)%nat && (str_count patched text =? 1)%nat
  && (str_count anchor text =? str_count anchor patched)%nat.

(** [verified_state]. *)
Definition verified_state (text : string) : bool :=
  forallb (site_ok text) SITES
  && (str_index MARK_HELPERS text <? str_index ANCHOR_HELPERS text)%nat
  && (str_index ANCHOR_HELPERS text <? str_index MARK_CALL text)%nat.

Definition marks (text : string) : nat :=
  fold_right Nat.add 0 (map (fun site => str_count site.1.1 text) SITES).

(** [prepare]. *)
Definition prepare (source : string) : res string :=
  if negb (marks source =? 0)%nat then
    if negb (marks source =? length SITES)%nat || negb (verified_state source)
    then Raise ValueError else Ok source
  else
    let head := if str_in ANCHOR_HELPERS source then before ANCHOR_HELPERS source else source in
    if existsb (fun b => negb (str_in b head)) REQUIRED_BINDINGS then Raise ValueError
    else if existsb (fun site => negb (str_count site.1.2 source =? 1)%nat) SITES then Raise ValueError
    else
      let out := fold_left (fun o (site : string * string * string) => replace_first site.1.2 site.2 o) SITES source in
      if verified_state out then Ok out else Raise ValueError.

(** [main], outside of a preflight, on the text of [kv_cache_utils.py]. *)
Definition main (preflight_only : bool) (source : string) : res (option string) :=
  match prepare source with
  | Raise ValueError => Raise (SystemExit "kv-capacity-log preflight failed")
  | Raise e => Raise e
  | Ok patched =>
      _ ← check_syntax parses patched;
      if preflight_only then mret None
      else mret (if String.eqb patched source then None else Some patched)
  end.

Definition table : list (string * string) := map (fun site => (site.1.2, site.2)) SITES.

Lemma verified_marks text : verified_state text = true -> marks text = length SITES.
Proof.
  unfold verified_state, marks, SITES. cbn [forallb site_ok map fold_right length fst snd].
  intros H. bool_to_prop. lia.
Qed.

Lemma prepare_done s t : prepare s = Ok t -> edits table s t /\ prepare t = Ok t.
Proof.
  unfold prepare at 1. cbv zeta. destruct (negb (marks s =? 0)%nat) eqn:Em.
  { destruct (negb (marks s =? length SITES)%nat || negb (verified_state s)) eqn:Ev; [discriminate |].
    intros [= <-]. split; [apply edits_nil |]. unfold prepare. by rewrite Em, Ev. }
  destruct (existsb _ REQUIRED_BINDINGS); [discriminate |].
  destruct (existsb _ SITES); [discriminate |].
  set (out := fold_left _ SITES s). destruct (verified_state out) eqn:Ev; [|discriminate].
  intros [= <-]. split.
  - unfold out. simpl. eapply edits_trans; apply replace_first_edits; simpl; tauto.
  - unfold prepare. by rewrite (verified_marks out Ev), Ev.
Qed.

#[export] Instance patcher pre : Patcher (main pre) table.
Proof.
  split; unfold main; intros t t' H; destruct (prepare t) as [p|[]] eqn:Ep; try done;
    step_ok H; (destruct pre; [done |]); (destruct (String.eqb p t) eqn:Et; [done |]); injection H as <-;
    apply prepare_done in Ep as [He Hd]; [done |].
  rewrite Hd, E. simpl. by rewrite String.eqb_refl.
Qed.

End patcher.
