(* ===== verification/PatchKvConfig.v ===== *)
(** * Installing the KV configuration's changes

    The patchers of quantization overrides, of the merge assertion and of the drafter's page. *)
From Stdlib Require Import ZArith Lia String Ascii.
From stdpp Require Import base list strings gmap.
From S2P Require Import Prelude PyStr Installer.
#[local] Open Scope string_scope.

(** * Installing the exl3 quantization override

    Model of [prepare] and [main] of [overlay/patch_model_overrides.py].  The anchors and
    replacements are the source's, byte for byte. *)
Module PatchModelOverrides.

(** ** The texts *)

Definition OLD : string := unquote "            overrides = [
                ^auto_gptq^,
".
Definition NEW : string := unquote "            overrides = [
                ^exl3^,
                ^auto_gptq^,
".

(** ** The patcher *)

Section patcher.
Context (parses : string -> bool).

Definition exl3_quoted : string := unquote "^exl3^".

(** [prepare]; its [ValueError] becomes [SystemExit] in [main]. *)
Definition prepare (source : string) : res string :=
  if str_in NEW source then
    _ ← refuse_if (negb (str_count NEW source =? 1)%nat || negb (str_count OLD source =? 0)%nat) "partial override";
    mret source
  else
    _ ← refuse_if (negb (str_count OLD source =? 1)%nat) "overrides list missing or not unique";
    let patched := replace_first OLD NEW source in
    _ ← refuse_if (negb (str_count NEW patched =? 1)%nat || negb (str_in exl3_quoted patched)) "post-patch verification failed";
    mret patched.

(** [main] on the text of [config/model.py]. *)
Definition main (source : string) : res (option string) :=
  patched ← prepare source;
  _ ← check_syntax parses patched;
  mret (if String.eqb patched source then None else Some patched).

Definition table : list (string * string) := [(OLD, NEW)].

Lemma old_not_empty : OLD <> "".
Proof. by vm_compute. Qed.

(** An installed text: the new list once, the old one gone. *)
Lemma prepare_installed t t' : prepare t = Ok t' -> str_count NEW t' = 1 /\ str_count OLD t' = 0 /\ edits table t t'.
Proof.
  unfold prepare. destruct (str_in NEW t); intros H; step_ok H.
  - injection H as <-. apply refuse_if_Ok, orb_false_iff in E as [E1 E2].
    apply eqb_one in E1. apply negb_false_iff, Nat.eqb_eq in E2. repeat split; [done | done | constructor].
  - step_ok H. injection H as <-. apply refuse_if_Ok, eqb_one in E. apply refuse_if_Ok, orb_false_iff in E0 as [E1 _].
    apply eqb_one in E1. split; [done |]. split.
    + apply str_count_zero; [apply old_not_empty |]. apply replace_unique_gone; [apply old_not_empty | by vm_compute | done].
    + apply replace_first_edits. by left.
Qed.

#[export] Instance patcher : Patcher main table.
Proof.
  split; unfold main; intros t t' H; step_ok H; step_ok H;
    (destruct (String.eqb x t); [done |]); injection H as <-; apply prepare_installed in E as (E1 & E2 & E3); [exact E3 |].
  unfold prepare. rewrite (str_count_pos NEW x), E1, E2; [|by vm_compute | by rewrite E1]. simpl. rewrite E0. simpl.
  by rewrite String.eqb_refl.
Qed.
End patcher.

End PatchModelOverrides.

(** * Installing the explicit merge check

    Model of [overlay/patch_kv_merge_assert.py].  The anchors and
    replacements are the source's, byte for byte. *)
Module PatchKvMergeAssert.

(** ** The texts *)

Definition MARK : string := "# [glm53-kv-merge-assert]".
Definition ANCHOR : string := unquote "        assert all(spec == specs[0] for spec in specs[1:]), (
            ^All layers in the same KV cache group must be the same.^
        )
        return copy.deepcopy(specs[0])
".
Definition PATCHED : string := unquote "        if not all(spec == specs[0] for spec in specs[1:]):
            raise AssertionError(  # [glm53-kv-merge-assert]
                ^All layers in the same KV cache group must be the same.^
            )
        return copy.deepcopy(specs[0])
".

(** ** The patcher *)

Section patcher.
Context (parses : string -> bool).

Definition verified_state (source : string) : bool :=
  negb (str_in ANCHOR source) && str_in PATCHED source && (str_count MARK source =? 1)%nat
  && (1 <=? str_count "raise AssertionError(" source)%nat.

(** [prepare]; its [ValueError] becomes [SystemExit] in [main]. *)
Definition prepare (source : string) : res string :=
  if str_in MARK source then
    _ ← refuse_if (negb (verified_state source)) "the patched merge is incomplete";
    mret source
  else if verified_state source then mret source
  else
    _ ← refuse_if (negb (str_count ANCHOR source =? 1)%nat) "merge assert drifted";
    let patched := replace_first ANCHOR PATCHED source in
    _ ← refuse_if (negb (verified_state patched)) "post-patch verification failed";
    mret patched.

(** [inherited_merge_state]. *)
Definition inherited_merge_state (source : string) : string :=
  if verified_state source then "raise"
  else match prepare source with
       | Raise _ => "unknown"
       | Ok patched => if negb (String.eqb patched source) && (str_count ANCHOR source =? 1)%nat then "assert" else "unknown"
       end.

(** [main] on the text of [kv_cache_interface.py]. *)
Definition main (source : string) : res (option string) :=
  patched ← prepare source;
  _ ← check_syntax parses patched;
  mret (if String.eqb patched source then None else Some patched).

Definition table : list (string * string) := [(ANCHOR, PATCHED)].

Lemma prepare_verified t t' : prepare t = Ok t' -> verified_state t' = true /\ edits table t t'.
Proof.
  unfold prepare. destruct (str_in MARK t); [|destruct (verified_state t) eqn:Ev]; intros H.
  - step_ok H. injection H as <-. apply refuse_if_Ok, negb_false_iff in E. split; [done | constructor].
  - injection H as <-. split; [done | constructor].
  - step_ok H. step_ok H. injection H as <-. apply refuse_if_Ok, negb_false_iff in E0. split; [done |].
    apply replace_first_edits. by left.
Qed.

#[export] Instance patcher : Patcher main table.
Proof.
  split; unfold main; intros t t' H; step_ok H; step_ok H;
    (destruct (String.eqb x t); [done |]); injection H as <-; apply prepare_verified in E as [E1 E2]; [exact E2 |].
  unfold prepare. rewrite E1. destruct (str_in MARK x); simpl; rewrite E0; simpl; by rewrite String.eqb_refl.
Qed.
End patcher.

End PatchKvMergeAssert.

(** * Installing the compact drafter page

    Model of [overlay/patch_draft_compact_page.py]: the KV-cache utilities and the coordinator.  The anchors and
    replacements are the source's, byte for byte. *)
Module PatchDraftPage.

(** ** The texts *)

Definition MARK : string := "[glm53-draft-page]".
Definition BLOCK_OLD : string := "            compact_block = 64
".
Definition BLOCK_NEW : string := unquote "            compact_block = 64
            # [glm53-draft-page] One id per compact page. Floor 64 is today's
            # reservation. A larger page has to divide the MLA block, fit in
            # the MLA page, and be accepted whole by FlashAttention (the
            # drafter backend). A padded page that the backend would split
            # walks off the tensor, so those candidates stay at the floor.
            # Drafter layers are not tagged eagle_head: get_model() is called
            # with an empty prefix. Target layers live under language_model
            # and are MLA, so a sliding-window name that contains that path
            # is not this drafter and stays at the floor.
            _glm53_names = list(draft_specs)
            _glm53_reason = ^floor^
            if any(^language_model^ in str(n) for n in _glm53_names):
                _glm53_reason = ^non-drafter sliding-window layer^
            elif (
                _glm53_names
                and mla_block % 64 == 0
                and draft_bytes_per_token > 0
            ):
                _glm53_steps = mla_block // 64
                for _glm53_k in range(_glm53_steps, 1, -1):
                    if _glm53_steps % _glm53_k != 0:
                        continue
                    _glm53_cand = 64 * _glm53_k
                    if _glm53_cand * draft_bytes_per_token > mla_page:
                        continue
                    try:
                        from vllm.v1.attention.backends.flash_attn import (
                            FlashAttentionBackend as _GLM53FA,
                        )
                        from vllm.v1.worker.utils import (
                            select_common_block_size as _glm53_sel,
                        )
                        _glm53_kernel = _glm53_sel(_glm53_cand, [_GLM53FA])
                        _glm53_ok = _glm53_kernel == _glm53_cand
                    except Exception as _glm53_exc:
                        _glm53_kernel = None
                        _glm53_ok = False
                        _glm53_reason = f^backend check failed: {_glm53_exc}^
                    if not _glm53_ok:
                        if _glm53_reason == ^floor^:
                            _glm53_reason = (
                                f^backend would split {_glm53_cand} ^
                                f^into {_glm53_kernel}^
                            )
                        continue
                    compact_block = _glm53_cand
                    _glm53_reason = ^unsplit^
                    break
            logger.info(
                ^DFlash2 drafter KV: compact page chose block=%d (%s) ^
                ^draft_bytes/token=%d mla_block=%d layers=%s^,
                compact_block,
                _glm53_reason,
                draft_bytes_per_token,
                mla_block,
                _glm53_names,
            )
".
Definition VALID_OLD : string := "            if any(
                s.block_size != 64 or s.page_size_padded != mla_page
                for s in draft_inner.values()
            ):
                return None
".
Definition VALID_NEW : string := "            # [glm53-draft-page] Padded slot-share may use the compact page.
            # The page still has to be the MLA page, a multiple of the
            # 64-token floor, no bigger than that page, and a divisor of the
            # MLA block (scheduler LCM).
            if any(
                s.page_size_padded != mla_page
                or s.block_size % 64 != 0
                or s.block_size <= 0
                or s.unpadded_page_size_bytes > mla_page
                for s in draft_inner.values()
            ):
                return None
            _glm53_mla_block = 0
            if attn_group is not None:
                _glm53_mla_block = next(
                    iter(
                        cast(
                            UniformTypeKVCacheSpecs, attn_group.kv_cache_spec
                        ).kv_cache_specs.values()
                    )
                ).block_size
            if any(
                _glm53_mla_block % s.block_size != 0
                for s in draft_inner.values()
            ):
                return None
".
Definition DROP_OLD : string := "                drop_eagle_block = use_eagle and idx not in eagle_verified
".
Definition DROP_NEW : string := "                drop_eagle_block = use_eagle and idx not in eagle_verified
                if (
                    _glm53_is_draft_swa_spec(spec)
                    and self.single_type_managers[first_group_id].block_size > 64
                ):  # [glm53-draft-page]
                    # Context KV is a projection of the target hidden state.
                    # Dropping one compact page empties the drafter hit. The
                    # 64-token floor keeps the drop. This group stays out of
                    # the hybrid min().
                    drop_eagle_block = False
".

(** ** The patcher *)

Section patcher.
Context (parses : string -> bool).

(** [patch_kv], on the text of [kv_cache_utils.py]. *)
Definition patch_kv (text : string) : res string :=
  if str_in MARK text && str_in "compact page chose block=%d" text && str_in "unpadded_page_size_bytes" text
  then Ok text
  else
    text ← replace_once text BLOCK_OLD BLOCK_NEW "compact-block";
    text ← replace_once text VALID_OLD VALID_NEW "padded-validator";
    _ ← check_syntax parses text;
    mret text.

(** [patch_coord], on the text of the coordinator. *)
Definition patch_coord (text : string) : res string :=
  if str_in MARK text && str_in "block_size > 64" text then Ok text
  else
    _ ← refuse_if (negb (str_in "def _glm53_is_draft_swa_spec(" text)) "hybrid drafter helper is missing";
    text ← replace_once text DROP_OLD DROP_NEW "eagle-drop";
    _ ← check_syntax parses text;
    mret text.

(** [main]: both new texts are computed before either file is written; a file
    whose text did not change is left alone. *)
Definition changed (old new : string) : option string := if String.eqb old new then None else Some new.

Definition main (env : environ) (kv coord : string) : res (option string * option string) :=
  if negb (String.eqb (environ_get env "GLM53_DRAFT_COMPACT_PAGE" "0") "1") then Ok (None, None)
  else
    kv_out ← patch_kv kv;
    coord_out ← patch_coord coord;
    mret (changed kv kv_out, changed coord coord_out).

Definition kv_run (text : string) : res (option string) := t ← patch_kv text; mret (changed text t).
Definition coord_run (text : string) : res (option string) := t ← patch_coord text; mret (changed text t).

Definition kv_table : list (string * string) := [(BLOCK_OLD, BLOCK_NEW); (VALID_OLD, VALID_NEW)].
Definition coord_table : list (string * string) := [(DROP_OLD, DROP_NEW)].

Lemma changed_Some a b c : changed a b = Some c -> c = b.
Proof. unfold changed. destruct (String.eqb a b); [done | by intros [= ->]]. Qed.

Lemma changed_same a : changed a a = None.
Proof. unfold changed. by rewrite String.eqb_refl. Qed.

(** What a successful run leaves: all the parts a second run looks for. *)
Lemma patch_kv_done t t' : patch_kv t = Ok t' -> edits kv_table t t' /\ patch_kv t' = Ok t'.
Proof.
  unfold patch_kv at 1. case_if.
  { intros [= <-]. split; [apply edits_nil |]. unfold patch_kv. by rewrite Heqb. }
  intros H. step_ok H. step_ok H. step_ok H. injection H as <-.
  edit_step kv_table E. edit_step kv_table E0. split; [chain_edits |].
  apply replace_once_Ok in E as [Hb ->]. apply replace_once_Ok in E0 as [Hv ->].
  set (u := replace_first VALID_OLD VALID_NEW _).
  assert (str_in BLOCK_NEW u = true) as Hbn.
  { apply replace_survives; [by vm_compute |]. apply replace_first_in. by apply count_one_in; [vm_compute |]. }
  assert (str_in VALID_NEW u = true) as Hvn
    by (apply replace_first_in; by apply count_one_in; [vm_compute |]).
  unfold patch_kv. rewrite (str_in_trans MARK BLOCK_NEW u) by (first [done | by vm_compute]).
  rewrite (str_in_trans "compact page chose block=%d" BLOCK_NEW u) by (first [done | by vm_compute]).
  by rewrite (str_in_trans "unpadded_page_size_bytes" VALID_NEW u) by (first [done | by vm_compute]).
Qed.

Lemma patch_coord_done t t' : patch_coord t = Ok t' -> edits coord_table t t' /\ patch_coord t' = Ok t'.
Proof.
  unfold patch_coord at 1. case_if.
  { intros [= <-]. split; [apply edits_nil |]. unfold patch_coord. by rewrite Heqb. }
  intros H. step_ok H. step_ok H. step_ok H. injection H as <-.
  edit_step coord_table E0. split; [chain_edits |]. apply replace_once_Ok in E0 as [Hd ->].
  set (u := replace_first DROP_OLD DROP_NEW t).
  assert (str_in DROP_NEW u = true) as Hn
    by (apply replace_first_in; by apply count_one_in; [vm_compute |]).
  unfold patch_coord. rewrite (str_in_trans MARK DROP_NEW u) by (first [done | by vm_compute]).
  by rewrite (str_in_trans "block_size > 64" DROP_NEW u) by (first [done | by vm_compute]).
Qed.

#[export] Instance kv_patcher : Patcher kv_run kv_table.
Proof.
  split; unfold kv_run; intros t t' H; step_ok H; injection H as Hc; apply changed_Some in Hc as ->;
    apply patch_kv_done in E as [He Hd]; [done |]. rewrite Hd. simpl. by rewrite changed_same.
Qed.

#[export] Instance coord_patcher : Patcher coord_run coord_table.
Proof.
  split; unfold coord_run; intros t t' H; step_ok H; injection H as Hc; apply changed_Some in Hc as ->;
    apply patch_coord_done in E as [He Hd]; [done |]. rewrite Hd. simpl. by rewrite changed_same.
Qed.

End patcher.

End PatchDraftPage.
