(* ===== verification/PatchRouter.v ===== *)
(** * Installing the router's changes

    The two patchers of the mixture's router: routing once per layer, and the router's GEMM. *)
From Stdlib Require Import ZArith Lia String Ascii.
From stdpp Require Import base list strings gmap.
From S2P Require Import Prelude PyStr Installer.
#[local] Open Scope string_scope.

(** * Installing the single router GEMM

    Model of [overlay/patch_router_once.py].  The anchors and
    replacements are the source's, byte for byte. *)
Module PatchRouterOnce.

(** ** The texts *)

Definition MARK : string := "[glm53-router-once]".
Definition OLD : string := "        # The router is always external (self.gate); main's MoERunner expects
        # pre-computed router_logits, so compute them here unconditionally.
        router_logits, _ = self.gate(hidden_states)
        final_hidden_states = self.experts(
            hidden_states=hidden_states, router_logits=router_logits
        )
".
Definition NEW : string := unquote "        # [glm53-router-once] The runner overwrites router_logits when it
        # holds this gate (MoERunner._forward_impl). The GEMM here is then
        # a discarded 288x4096 bf16 read on every MoE layer. Pass the hidden
        # state through in that case. A runner without this gate still
        # consumes the logits computed here.
        if getattr(self.experts, ^gate^, None) is self.gate:
            router_logits = hidden_states
        else:
            router_logits, _ = self.gate(hidden_states)
        final_hidden_states = self.experts(
            hidden_states=hidden_states, router_logits=router_logits
        )
".

(** ** The patcher *)

Section patcher.
Context (parses : string -> bool).

Definition _already_once (text : string) : bool :=
  if str_in "self.gate(hidden_states)" text then false
  else str_in "router_logits=hidden_states" text || str_in "router_logits = hidden_states" text.

(** [main], with the flag, on the text of the model file. *)
Definition main (env : environ) (text : string) : res (option string) :=
  let flag := strip (environ_get env "GLM53_ROUTER_ONCE" "0") in
  if String.eqb flag "0" then Ok None
  else
    _ ← refuse_if (negb (String.eqb flag "1")) "GLM53_ROUTER_ONCE must be exactly 0 or 1";
    if str_in MARK text && (str_count NEW text =? 1)%nat && (str_count OLD text =? 0)%nat then mret None
    else
      _ ← refuse_if (str_in MARK text || (str_in NEW text && str_in OLD text)) "partial install";
      if (str_count OLD text =? 1)%nat then
        let patched := replace_first OLD NEW text in
        _ ← check_syntax parses patched;
        mret (Some patched)
      else if _already_once text then mret None
      else Raise (SystemExit "anchor drift").

Definition table : list (string * string) := [(OLD, NEW)].

#[export] Instance patcher env : Patcher (main env) table.
Proof.
  split; unfold main; cbv zeta; intros t t' H;
    (destruct (String.eqb _ "0"); [done |]); step_ok H;
    (destruct (str_in MARK t && _ && _); [done |]); step_ok H;
    (destruct (Nat.eqb_spec (str_count OLD t) 1) as [Ho|_]; [|by destruct (_already_once t)]);
    step_ok H; injection H as <-.
  - apply replace_first_edits. by left.
  - apply refuse_if_Ok, orb_false_iff in E0 as [Hm _]. rewrite E. simpl.
    assert (str_in OLD t = true) as Hin by (apply count_one_in; [by vm_compute | done]).
    rewrite (str_in_trans MARK NEW); [|by vm_compute | by apply replace_first_in].
    rewrite replace_fresh_once; [|by vm_compute | by apply (absent_super MARK) | done].
    assert (OLD <> "") as Hne by (by vm_compute). rewrite (proj2 (str_count_zero OLD _ Hne)); [done |].
    apply replace_unique_gone; [by vm_compute | by vm_compute | done].
Qed.
End patcher.

End PatchRouterOnce.

(** * Installing the cuBLAS router GEMM

    Model of [overlay/patch_router_gemm_gb10.py].  The anchors and
    replacements are the source's, byte for byte. *)
Module PatchRouterGemm.

(** ** The texts *)

Definition MARK : string := "# [glm53-router-gemm-gb10]".
Definition INIT_OLD : string := "        self._router_gemm_no_bias = not bias
        self.allow_cublas_router_gemm = (
            (
                self.allow_specialized_router_gemm
                or (current_platform.is_rocm() and self._router_gemm_no_bias)
            )
            and self.weight.dtype == torch.bfloat16
            and self.out_dtype == torch.float32
        )
".
Definition INIT_NEW : string := unquote "        self._router_gemm_no_bias = not bias
        # [glm53-router-gemm-gb10] vLLM #54048 backport: the cuBLAS out_dtype
        # epilogue is arch-agnostic; do not gate it on the SM90/SM100-only
        # specialized-kernel predicate (family-120/GB10 was losing this tier
        # and bf16-rounding router logits through the copy-kernel fallback).
        # GLM53_ROUTER_GEMM_CUBLAS=0 restores stock eligibility exactly.
        import os as _glm53_os
        self._router_gemm_cublas_capable = (
            self.allow_specialized_router_gemm
            or (current_platform.is_rocm() and self._router_gemm_no_bias)
            or (
                _glm53_os.getenv(^GLM53_ROUTER_GEMM_CUBLAS^, ^1^) == ^1^
                and (current_platform.is_cuda() or current_platform.is_rocm())
                and self._router_gemm_no_bias
            )
        )
        self.allow_cublas_router_gemm = (
            self._router_gemm_cublas_capable
            and self.weight.dtype == torch.bfloat16
            and self.out_dtype == torch.float32
        )
        if self.allow_cublas_router_gemm and not (
            self.allow_specialized_router_gemm
            or (current_platform.is_rocm() and self._router_gemm_no_bias)
        ):
            logger.info_once(
                ^GB10 cuBLAS out_dtype router GEMM enabled (#54048 overlay).^
            )
".
Definition SETDTYPE_OLD : string := "        if (
            not self.allow_cublas_router_gemm
            and (
                self.allow_specialized_router_gemm
                or (current_platform.is_rocm() and self._router_gemm_no_bias)
            )
            and out_dtype == torch.float32
        ):
            self.allow_cublas_router_gemm = self.weight.dtype == torch.bfloat16
".
Definition SETDTYPE_NEW : string := "        if (
            not self.allow_cublas_router_gemm
            and self._router_gemm_cublas_capable  # [glm53-router-gemm-gb10]
            and out_dtype == torch.float32
        ):
            self.allow_cublas_router_gemm = self.weight.dtype == torch.bfloat16
".

(** ** The patcher *)

Section patcher.
Context (parses : string -> bool).

(** [main] on the text of [gate_linear.py]. *)
Definition main (text : string) : res (option string) :=
  if (str_count INIT_NEW text =? 1)%nat && (str_count SETDTYPE_NEW text =? 1)%nat then mret None
  else
    _ ← refuse_if (negb (str_count MARK text =? 0)%nat) "partial/inconsistent";
    _ ← refuse_if (negb (str_count INIT_OLD text =? 1)%nat) "expected exactly one pristine init block";
    _ ← refuse_if (negb (str_count SETDTYPE_OLD text =? 1)%nat) "expected exactly one pristine set_out_dtype block";
    let text := replace_first SETDTYPE_OLD SETDTYPE_NEW (replace_first INIT_OLD INIT_NEW text) in
    _ ← refuse_if (negb (str_count MARK text =? 2)%nat) "post-patch verification failed";
    _ ← check_syntax parses text;
    mret (Some text).

Definition table : list (string * string) := [(INIT_OLD, INIT_NEW); (SETDTYPE_OLD, SETDTYPE_NEW)].

(** Both replacements are there exactly once: the marker was absent, so each was
    new, and neither replacement can hide or duplicate the other. *)
Lemma installed_once t :
  str_count MARK t = 0 -> str_count INIT_OLD t = 1 -> str_count SETDTYPE_OLD t = 1 ->
  let t' := replace_first SETDTYPE_OLD SETDTYPE_NEW (replace_first INIT_OLD INIT_NEW t) in
  str_count INIT_NEW t' = 1 /\ str_count SETDTYPE_NEW t' = 1.
Proof.
  intros Hm Hi Hs. cbv zeta. assert (str_in MARK t = false) as Hmark by (apply str_count_zero; [by vm_compute | done]).
  assert (str_in INIT_OLD t = true) as Hio by (apply count_one_in; [by vm_compute | done]).
  split.
  - rewrite count_replace_apart by (by vm_compute). apply replace_fresh_once; [by vm_compute | | done].
    by apply (absent_super MARK).
  - apply replace_fresh_once; [by vm_compute | |].
    + assert (SETDTYPE_NEW <> "") as Hne by (by vm_compute). apply str_count_zero; [done |].
      rewrite count_replace_apart by (by vm_compute). apply str_count_zero; [done |]. by apply (absent_super MARK).
    + apply replace_survives; [by vm_compute |]. apply count_one_in; [by vm_compute | done].
Qed.

#[export] Instance patcher : Patcher main table.
Proof.
  split; unfold main; cbv zeta; intros t t' H;
    (destruct ((str_count INIT_NEW t =? 1)%nat && (str_count SETDTYPE_NEW t =? 1)%nat); [done |]);
    do 5 step_ok H; injection H as <-.
  - eapply edits_trans; [| apply replace_first_edits; simpl; tauto]. apply replace_first_edits. simpl. tauto.
  - apply refuse_if_Ok in E, E0, E1. apply eqb_one in E0, E1. bool_to_prop.
    destruct (installed_once t E E0 E1) as [-> ->]. done.
Qed.
End patcher.

End PatchRouterGemm.
