(* ===== verification/PatchSuppressStops.v ===== *)
(** * Installing the reasoning stop guard

    Model of [overlay/patch_suppress_stops_in_reasoning.py].  The anchors and
    replacements are the source's, byte for byte. *)
From Stdlib Require Import ZArith Lia String Ascii.
From stdpp Require Import base list strings gmap.
From S2P Require Import Prelude PyStr Installer.
#[local] Open Scope string_scope.

(** ** The texts *)

Definition MARK : string := "# [suppress-stops-in-reasoning]".
Definition IMPORT_OLD : string := "import sys
from abc import ABC, abstractmethod
".
Definition IMPORT_NEW : string := "import os
import sys
from abc import ABC, abstractmethod
".
Definition FACTORY_OLD : string := "        if USE_FAST_DETOKENIZER and isinstance(tokenizer, TokenizersBackend):
            # Fast tokenizer => use tokenizers library DecodeStream.
            return FastIncrementalDetokenizer(tokenizer, request)

        # Fall back to slow python-based incremental detokenization.
        return SlowIncrementalDetokenizer(tokenizer, request)
".
Definition FACTORY_NEW : string := unquote "        if USE_FAST_DETOKENIZER and isinstance(tokenizer, TokenizersBackend):
            # Fast tokenizer => use tokenizers library DecodeStream.
            detok = FastIncrementalDetokenizer(tokenizer, request)
        else:
            # Fall back to slow python-based incremental detokenization.
            detok = SlowIncrementalDetokenizer(tokenizer, request)
        IncrementalDetokenizer._maybe_enable_reasoning_stop_guard(
            detok, tokenizer, request
        )
        return detok

    @staticmethod
    def _reasoning_stop_markers() -> tuple[str, str]:
        # [suppress-stops-in-reasoning] prefer reasoning_config markers.
        start, end = ^<think>^, ^</think>^
        try:
            from vllm.config import get_current_vllm_config_or_none

            cfg = get_current_vllm_config_or_none()
            rc = getattr(cfg, ^reasoning_config^, None) if cfg else None
            if rc is not None:
                start = getattr(rc, ^reasoning_start_str^, ^^) or start
                end = getattr(rc, ^reasoning_end_str^, ^^) or end
        except Exception as e:
            logger.debug(
                ^suppress-stops-in-reasoning: no reasoning config (%s); using %r / %r^,
                e,
                start,
                end,
            )
        return start, end

    @staticmethod
    def _suppress_stops_enabled() -> bool:
        for key in (
            ^GLM53_SUPPRESS_STOPS_IN_REASONING^,
            ^VLLM_SUPPRESS_STOPS_IN_REASONING^,
        ):
            if key in os.environ:
                return os.environ.get(key) != ^0^
        return True

    @staticmethod
    def _maybe_enable_reasoning_stop_guard(detok, tokenizer, request) -> None:
        # [suppress-stops-in-reasoning] last prompt token == <think> →
        # keep client stop strings dormant until </think>.
        if not IncrementalDetokenizer._suppress_stops_enabled():
            return
        try:
            stop = getattr(detok, ^stop^, None)
            ptids = getattr(request, ^prompt_token_ids^, None)
            if not stop or not ptids:
                return
            start_str, end_str = IncrementalDetokenizer._reasoning_stop_markers()
            think_id = None
            convert = getattr(tokenizer, ^convert_tokens_to_ids^, None)
            if callable(convert):
                think_id = convert(start_str)
            if think_id is None or think_id < 0:
                encode = getattr(tokenizer, ^encode^, None)
                if callable(encode):
                    try:
                        ids = encode(start_str, add_special_tokens=False)
                    except TypeError:
                        ids = encode(start_str)
                    if isinstance(ids, list) and len(ids) == 1:
                        think_id = ids[0]
            if think_id is not None and think_id >= 0 and ptids[-1] == think_id:
                detok._reasoning_stop_guard = True
                detok._reasoning_end_str = end_str
        except Exception as e:
            logger.debug(^suppress-stops-in-reasoning: guard not armed (%s)^, e)
".
Definition INIT_OLD : string := unquote "        self._last_output_text_offset: int = 0

        # Generation data
        self.output_text = ^^
".
Definition INIT_NEW : string := unquote "        self._last_output_text_offset: int = 0

        # [suppress-stops-in-reasoning] client stops stay dormant while
        # generation is still inside <think> (think-in-prompt).
        self._reasoning_stop_guard: bool = False
        self._reasoning_closed: bool = False
        self._reasoning_end_str: str = ^</think>^

        # Generation data
        self.output_text = ^^
".
Definition STOP_OLD : string := "        # 2) Evaluate stop strings.
        stop_string = None
        if self.stop and self.num_output_tokens() > self.min_tokens:
            stop = check_stop_strings(
".
Definition STOP_NEW : string := "        # 2) Evaluate stop strings.
        # [suppress-stops-in-reasoning] keep stops dormant while reasoning
        # is open. Advance stop_check_offset past </think> so a speculative
        # chunk that also carries the last think tokens cannot fire.
        if self._reasoning_stop_guard and not self._reasoning_closed:
            marker = self._reasoning_end_str
            window = max(0, stop_check_offset - (len(marker) - 1))
            idx = self.output_text.find(marker, window)
            if idx != -1:
                self._reasoning_closed = True
                stop_check_offset = max(stop_check_offset, idx + len(marker))
        stop_string = None
        if (
            self.stop
            and self.num_output_tokens() > self.min_tokens
            and (not self._reasoning_stop_guard or self._reasoning_closed)
        ):
            stop = check_stop_strings(
".

(** ** The patcher *)

Section patcher.
Context (parses : string -> bool).

Definition GUARD : string := "_maybe_enable_reasoning_stop_guard".

Definition verified_installed (src : string) : bool :=
  str_in MARK src && str_in GUARD src && str_in IMPORT_NEW src && str_in FACTORY_NEW src && str_in INIT_NEW src
  && str_in STOP_NEW src && negb (str_in FACTORY_OLD src) && negb (str_in INIT_OLD src) && negb (str_in STOP_OLD src).

(** [apply_text]: the new source, or the ["missing:"] status as a refusal. *)
Definition apply_text (src : string) : res (option string) :=
  if verified_installed src then mret None
  else
    _ ← refuse_if (str_in MARK src || str_in GUARD src || str_in IMPORT_NEW src || str_in FACTORY_NEW src
                   || str_in INIT_NEW src || str_in STOP_NEW src) "missing:partial";
    _ ← refuse_if (negb (str_in IMPORT_OLD src)) "missing:import";
    _ ← refuse_if (negb (str_in FACTORY_OLD src)) "missing:factory";
    _ ← refuse_if (negb (str_in INIT_OLD src)) "missing:init";
    _ ← refuse_if (negb (str_in STOP_OLD src)) "missing:stop";
    let out := replace_first IMPORT_OLD IMPORT_NEW src in
    let out := replace_first FACTORY_OLD FACTORY_NEW out in
    let out := replace_first INIT_OLD INIT_NEW out in
    let out := replace_first STOP_OLD STOP_NEW out in
    _ ← refuse_if (negb (verified_installed out)) "missing:post-patch";
    mret (Some out).

(** [apply_file] on the text of [detokenizer.py]; [main] exits 1 on a missing
    status. *)
Definition main (src : string) : res (option string) :=
  r ← apply_text src;
  match r with
  | None => mret None
  | Some new => _ ← check_syntax parses new; mret (Some new)
  end.

Definition table : list (string * string) :=
  [(IMPORT_OLD, IMPORT_NEW); (FACTORY_OLD, FACTORY_NEW); (INIT_OLD, INIT_NEW); (STOP_OLD, STOP_NEW)].

Lemma apply_text_spec t t' : apply_text t = Ok (Some t') -> verified_installed t' = true /\ edits table t t'.
Proof.
  unfold apply_text. cbv zeta. destruct (verified_installed t); [done |]. intros H. do 6 step_ok H. injection H as <-.
  apply refuse_if_Ok, negb_false_iff in E4. split; [done |].
  do 3 (eapply edits_trans; [| apply replace_first_edits; simpl; tauto]). apply replace_first_edits. simpl. tauto.
Qed.

#[export] Instance patcher : Patcher main table.
Proof.
  split; unfold main; intros t t' H; apply bind_Ok in H as ([new|] & E & H); try discriminate H;
    step_ok H; injection H as <-; apply apply_text_spec in E as [E1 E2]; [exact E2 |].
  unfold apply_text. by rewrite E1.
Qed.
End patcher.
