(* ===== verification/PatchMamba.v ===== *)
(** * Installing the state-space changes

    The patchers of retired states and of the recurrent kernel. *)
From Stdlib Require Import ZArith Lia String Ascii.
From stdpp Require Import base list strings gmap.
From S2P Require Import Prelude PyStr Installer.
#[local] Open Scope string_scope.

(** * Installing the null-gap retirement

    Model of [overlay/patch_mamba_null_gap_retirement.py].  The anchors and
    replacements are the source's, byte for byte. *)
Module PatchMambaGap.

(** ** The texts *)

Definition MARK : string := "# [glm53-mamba-null-gap]".
Definition INIT_OLD : string := "            self.last_state_block_idx: dict[str, int] = {}
            # The set of the requests that have been allocated blocks
".
Definition INIT_NEW : string := "            self.last_state_block_idx: dict[str, int] = {}
            # Highest align-mode block prefix already scanned for retirement.
            self._num_retired_blocks: dict[str, int] = {}  # [glm53-mamba-null-gap]
            # The set of the requests that have been allocated blocks
".
Definition REMOVE_ANCHOR : string := "    def remove_skipped_blocks(
        self,
        request_id: str,
".
Definition REMOVE_OVERRIDE : string := unquote "    def _remove_blocks_in_range(
        self, request_id: str, first_block: int, last_block: int
    ) -> None:
        if self.mamba_cache_mode != ^align^:
            return super()._remove_blocks_in_range(
                request_id, first_block, last_block
            )
        blocks = self.req_to_blocks.get(request_id, [])
        first_block = max(
            first_block, self._num_retired_blocks.get(request_id, 0)
        )
        last_block = min(last_block, len(blocks))
        if first_block >= last_block:
            return
        freed: list[KVCacheBlock] = []
        # Align-mode prefill can leave null gaps between state checkpoints.
        for i in range(last_block - 1, first_block - 1, -1):
            if blocks[i].is_null:
                continue
            freed.append(blocks[i])
            blocks[i] = self._null_block
        if freed:
            self.block_pool.free_blocks(freed)
        self._num_retired_blocks[request_id] = last_block

".
Definition FREE_OLD : string := "            self.last_state_block_idx.pop(request_id, None)
            self._producer_partial_tail_reqs.pop(request_id, None)
".
Definition FREE_NEW : string := "            self.last_state_block_idx.pop(request_id, None)
            self._num_retired_blocks.pop(request_id, None)  # [glm53-mamba-null-gap]
            self._producer_partial_tail_reqs.pop(request_id, None)
".

(** ** The patcher *)

(** [text.find(needle)]: the text before and from the match, [None] for -1. *)
Fixpoint find_split (needle s : string) : option (string * string) :=
  if String.prefix needle s then Some ("", s)
  else match s with
       | EmptyString => None
       | String c s' => match find_split needle s' with Some (a, b) => Some (String c a, b) | None => None end
       end.

Lemma find_split_Some needle s a b : find_split needle s = Some (a, b) -> s = a ++ b /\ exists c, b = needle ++ c.
Proof.
  revert a. induction s as [|x s IH]; intros a; cbn [find_split].
  - destruct (String.prefix needle "") eqn:E; [|done]. intros [= <- <-]. split; [done |]. by apply prefix_spec.
  - destruct (String.prefix needle (String x s)) eqn:E.
    + intros [= <- <-]. split; [done |]. by apply prefix_spec.
    + destruct (find_split needle s) as [[a' b']|] eqn:Ef; [|done]. intros [= <- <-].
      destruct (IH a' eq_refl) as [-> H]. by split.
Qed.

Section patcher.
Context (parses : string -> bool).

Definition CLASS : string := "class MambaManager(".
Definition next_class : string := newline ++ "class ".

(** [text[class_pos:next_class]], to the end without a next class; a missing
    class is position -1, the last character. *)
Definition class_text (text : string) : string :=
  match find_split CLASS text with
  | Some (_, String c rest) => match find_split next_class rest with
                               | Some (a, _) => String c a
                               | None => String c rest
                               end
  | Some (_, EmptyString) => ""
  | None => match find_split next_class text with
            | Some _ => ""
            | None => drop_str (String.length text - 1) text
            end
  end.

Definition expected : list (string * string) :=
  [("Mamba retirement init", INIT_NEW); ("Mamba retirement override", REMOVE_OVERRIDE);
   ("Mamba retirement cleanup", FREE_NEW)].

Fixpoint refuse_any (test : string -> bool) (l : list (string * string)) : res unit :=
  match l with
  | [] => Ok tt
  | (lab, snippet) :: rest => _ ← refuse_if (test snippet) lab; refuse_any test rest
  end.

Definition validate (text : string) : res unit :=
  _ ← check_syntax parses text;
  _ ← refuse_any (fun snippet => negb (str_count snippet text =? 1)%nat) expected;
  _ ← refuse_any (fun snippet => negb (str_in snippet (class_text text))) expected;
  refuse_if (negb (str_count MARK text =? 2)%nat) "markers missing or duplicated".

(** The override goes in front of the first [remove_skipped_blocks] after the
    class line. *)
Definition insert_override (text : string) : res string :=
  match find_split CLASS text with
  | Some (a, b) => match find_split REMOVE_ANCHOR b with
                   | Some (c, d) => Ok (a ++ c ++ REMOVE_OVERRIDE ++ d)
                   | None => Raise (SystemExit "anchor missing")
                   end
  | None => Raise (SystemExit "anchor missing")
  end.

(** [main] on the text of [single_type_kv_cache_manager.py]. *)
Definition main (text : string) : res (option string) :=
  if str_in MARK text then
    _ ← validate text;
    mret None
  else
    text ← replace_once text INIT_OLD INIT_NEW "MambaManager init";
    text ← insert_override text;
    text ← replace_once text FREE_OLD FREE_NEW "MambaManager cleanup";
    _ ← validate text;
    mret (Some text).

Definition table : list (string * string) :=
  [(INIT_OLD, INIT_NEW); (REMOVE_ANCHOR, REMOVE_OVERRIDE ++ REMOVE_ANCHOR); (FREE_OLD, FREE_NEW)].

Lemma insert_override_edits t t' : insert_override t = Ok t' -> edits table t t'.
Proof.
  unfold insert_override. destruct (find_split CLASS t) as [[a b]|] eqn:E1; [|done].
  destruct (find_split REMOVE_ANCHOR b) as [[c d]|] eqn:E2; [|done]. intros [= <-].
  apply find_split_Some in E1 as [-> _]. apply find_split_Some in E2 as [-> [z ->]].
  apply (edits_cons table (REMOVE_ANCHOR, REMOVE_OVERRIDE ++ REMOVE_ANCHOR) _ (a ++ c ++ REMOVE_OVERRIDE ++ REMOVE_ANCHOR ++ z));
    [simpl; tauto | | constructor].
  exists (a ++ c), z. simpl. by rewrite !app_assoc_str.
Qed.

Lemma validate_marked t u : validate t = Ok u -> str_in MARK t = true.
Proof.
  unfold validate. intros H. do 3 step_ok H. apply refuse_if_Ok in H. bool_to_prop.
  apply str_count_pos; [by vm_compute | by rewrite H].
Qed.

#[export] Instance patcher : Patcher main table.
Proof.
  split; unfold main; intros t t' H; (destruct (str_in MARK t); [by step_ok H |]); do 4 step_ok H; injection H as <-.
  - edit_step table E. apply insert_override_edits in E0. edit_step table E1. chain_edits.
  - rewrite (validate_marked x1 x2) by done. by rewrite E2.
Qed.
End patcher.

End PatchMambaGap.

(** * Installing the recurrent-kernel knobs

    Model of [overlay/patch_kda_recurrent.py].  The anchors and
    replacements are the source's, byte for byte. *)
Module PatchKdaRecurrent.

(** ** The texts *)

Definition MARK : string := "# [glm53-kda-recurrent]".
Definition LAUNCH_OLD : string := unquote "    BK, BV = next_power_of_2(K), min(next_power_of_2(V), 8)
    NK, NV = cdiv(K, BK), cdiv(V, BV)
    assert NK == 1, ^NK > 1 is not supported yet^
    num_stages = 3
    num_warps = 1
".
Definition LAUNCH_NEW : string := unquote "    BK, BV = next_power_of_2(K), min(next_power_of_2(V), _glm53_kda_bv_cap())  # [glm53-kda-recurrent]
    NK, NV = cdiv(K, BK), cdiv(V, BV)
    assert NK == 1, ^NK > 1 is not supported yet^
    num_stages = _glm53_kda_num_stages()
    num_warps = _glm53_kda_num_warps()
".
Definition HELPER : string := unquote "
def _glm53_kda_rec_int(name: str, default: int, allowed: set[int]) -> int:  # [glm53-kda-recurrent]
    raw = os.environ.get(name, ^^).strip()
    if raw == ^^:
        return default
    try:
        value = int(raw, 10)
    except ValueError as exc:
        raise SystemExit(f^{name} must be an int in {sorted(allowed)} (got {raw!r})^) from exc
    if value not in allowed:
        raise SystemExit(f^{name} must be one of {sorted(allowed)} (got {value})^)
    return value


def _glm53_kda_num_warps() -> int:  # [glm53-kda-recurrent]
    return _glm53_kda_rec_int(^GLM53_KDA_REC_WARPS^, 1, {1, 2, 4, 8})


def _glm53_kda_num_stages() -> int:  # [glm53-kda-recurrent]
    return _glm53_kda_rec_int(^GLM53_KDA_REC_STAGES^, 3, {1, 2, 3, 4, 5})


def _glm53_kda_bv_cap() -> int:  # [glm53-kda-recurrent]
    return _glm53_kda_rec_int(^GLM53_KDA_REC_BV_CAP^, 8, {8, 16, 32})

".
Definition INSERT_AFTER : string := "NUM_WARPS_AUTOTUNE = [2, 4, 8, 16] if is_amd else [4, 8, 16, 32]
".

(** ** The patcher *)

Section patcher.
Context (parses : string -> bool) (env : environ).

Definition knobs_armed : bool :=
  existsb (fun k => negb (String.eqb (strip (environ_get env k "")) ""))
    ["GLM53_KDA_REC_WARPS"; "GLM53_KDA_REC_STAGES"; "GLM53_KDA_REC_BV_CAP"].

Definition import_os : string := "import os" ++ newline.
Definition import_torch : string := "import torch" ++ newline.

(** The line test on the text before the kernel. *)
Definition _need_os_import (text : string) : bool :=
  let head := before "def fused_recurrent_kda_fwd" text in
  negb (str_in import_os head) && negb (str_in (newline ++ import_os) (newline ++ head)).

Definition validate (text : string) : res unit :=
  _ ← check_syntax parses text;
  _ ← refuse_if (str_count MARK text <? 5)%nat "marker incomplete";
  _ ← refuse_if (negb (str_count "def _glm53_kda_num_warps()" text =? 1)%nat) "helper missing or duplicated";
  _ ← refuse_if (str_in LAUNCH_OLD text) "stock launch block still present";
  _ ← refuse_if (negb (str_in LAUNCH_NEW text)) "patched launch block missing";
  refuse_if (negb (str_in "num_warps = _glm53_kda_num_warps()" text)) "launch does not call warps helper".

(** [patch_one] on the text of an existing file. *)
Definition patch_one (text : string) : res (option string) :=
  if str_in MARK text then
    _ ← validate text;
    mret None
  else if negb knobs_armed then mret None
  else
    _ ← refuse_if (negb (str_count LAUNCH_OLD text =? 1)%nat) "launch anchor";
    _ ← refuse_if (negb (str_count INSERT_AFTER text =? 1)%nat) "helper insert point";
    text ← (if _need_os_import text then
              _ ← refuse_if (negb (str_in import_torch text)) "cannot insert import os";
              mret (replace_first import_torch (import_os ++ import_torch) text)
            else mret text);
    let text := replace_first INSERT_AFTER (INSERT_AFTER ++ HELPER) text in
    let text := replace_first LAUNCH_OLD LAUNCH_NEW text in
    _ ← validate text;
    mret (Some text).

(** [main]'s guard: nothing happens to either file while no knob is set. *)
Definition main (text : string) : res (option string) := if negb knobs_armed then mret None else patch_one text.

Definition table : list (string * string) :=
  [(import_torch, import_os ++ import_torch); (INSERT_AFTER, INSERT_AFTER ++ HELPER); (LAUNCH_OLD, LAUNCH_NEW)].

Lemma patch_one_spec t t' : patch_one t = Ok (Some t') -> edits table t t' /\ validate t' = Ok tt.
Proof.
  unfold patch_one. cbv zeta. destruct (str_in MARK t); [intros H; by step_ok H |].
  destruct (negb knobs_armed); [done |]. intros H. do 4 step_ok H. injection H as <-.
  split; [|by destruct x2].
  apply (edits_trans table t x1).
  - destruct (_need_os_import t); [|injection E1 as <-; constructor]. step_ok E1. injection E1 as <-.
    apply replace_first_edits. by left.
  - eapply edits_trans; [| apply replace_first_edits; simpl; tauto]. apply replace_first_edits. simpl. tauto.
Qed.

#[export] Instance patcher : Patcher main table.
Proof.
  split; unfold main; intros t t' H; (destruct (negb knobs_armed) eqn:Ek; [done |]);
    apply patch_one_spec in H as [H1 H2]; [exact H1 |].
  unfold patch_one. pose proof H2 as Hm. unfold validate in H2. do 2 step_ok H2.
  apply refuse_if_Ok in E0. bool_to_prop. rewrite (str_count_pos MARK t'); [by rewrite Hm | by vm_compute | lia].
Qed.
End patcher.

End PatchKdaRecurrent.
