(* ===== verification/PatchIpc.v ===== *)
(** * Installing the shared-memory waits

    The patchers of vLLM's shared-memory broadcast and of its spin window. *)
From Stdlib Require Import ZArith Lia String Ascii.
From stdpp Require Import base list strings gmap.
From S2P Require Import Prelude PyStr Installer.
#[local] Open Scope string_scope.

(** * Installing the shared-memory recheck interval

    Model of [overlay/patch_shm_recheck.py].  The anchors and
    replacements are the source's, byte for byte. *)
Module PatchShmRecheck.

(** ** The texts *)

Definition OLD : string := "SHM_READER_RECHECK_INTERVAL_MS = 5000
".
Definition NEW : string := "SHM_READER_RECHECK_INTERVAL_MS = 50
".

(** ** The patcher *)

(** [rewrite]; its [ValueError] makes [main] return 1. *)
Definition rewrite (src : string) : res string :=
  if str_in NEW src then mret src
  else
    _ ← refuse_if (negb (str_count OLD src =? 1)%nat) "anchor";
    mret (replace_all OLD NEW src).

(** [main] on the text of [shm_broadcast.py]. *)
Definition main (env : environ) (src : string) : res (option string) :=
  if negb (String.eqb (environ_get env "GLM53_SHM_RECHECK_50MS" "0") "1") then mret None
  else
    out ← rewrite src;
    mret (if String.eqb out src then None else Some out).

Definition table : list (string * string) := [(OLD, NEW)].

Lemma rewrite_spec t t' : rewrite t = Ok t' -> edits table t t' /\ str_in NEW t' = true.
Proof.
  unfold rewrite. destruct (str_in NEW t) eqn:E; intros H.
  - injection H as <-. split; [constructor | done].
  - step_ok H. injection H as <-. apply refuse_if_Ok, eqb_one in E0.
    rewrite replace_all_unique by (by vm_compute || exact E0).
    split; [apply replace_first_edits; by left |]. apply replace_first_in, count_one_in; [by vm_compute | done].
Qed.

#[export] Instance patcher env : Patcher (main env) table.
Proof.
  split; unfold main; intros t t' H; (destruct (negb _); [done |]); step_ok H; (destruct (String.eqb x t); [done |]);
    injection H as <-; apply rewrite_spec in E as [E1 E2]; [exact E1 |].
  unfold rewrite. rewrite E2. simpl. by rewrite String.eqb_refl.
Qed.

End PatchShmRecheck.

(** * Installing the shorter spin window

    Model of [overlay/patch_spinwait_gb10.py].  The anchors and
    replacements are the source's, byte for byte. *)
Module PatchSpinwait.

(** ** The texts *)

Definition OLD : string := "busy_loop_s: float = 1,".
Definition NEW : string := "busy_loop_s: float = 0.002,".

(** ** The patcher *)

(** The script on the text of [shm_broadcast.py]; it exits 1 on drift. *)
Definition main (env : environ) (src : string) : res (option string) :=
  if negb (String.eqb (environ_get env "GLM53_SPINWAIT_2MS" "0") "1") then mret None
  else if str_in NEW src then mret None
  else
    _ ← refuse_if (negb (str_count OLD src =? 1)%nat) "anchor";
    mret (Some (replace_all OLD NEW src)).

Definition table : list (string * string) := [(OLD, NEW)].

#[export] Instance patcher env : Patcher (main env) table.
Proof.
  split; unfold main; intros t t' H; (destruct (negb _); [done |]); (destruct (str_in NEW t); [done |]);
    step_ok H; injection H as <-; apply refuse_if_Ok, eqb_one in E;
    (rewrite replace_all_unique; [| by vm_compute | exact E]).
  - apply replace_first_edits. by left.
  - rewrite replace_first_in; [done |]. apply count_one_in; [by vm_compute | done].
Qed.

End PatchSpinwait.
