(* ===== verification/PatchXGrammar.v ===== *)
(** * Installing the grammar termination fixes

    Model of [overlay/patch_xgrammar_termination.py]: two files or none.  The anchors and
    replacements are the source's, byte for byte. *)
From Stdlib Require Import ZArith Lia String Ascii.
From stdpp Require Import base list strings gmap.
From S2P Require Import Prelude PyStr Installer SitePatch.
#[local] Open Scope string_scope.

(** ** The texts *)

Definition BACKEND_MARK : string := "    # [glm53-xgrammar-termination] Source-exact vLLM 12f64b39 backport.
".
Definition MANAGER_MARK : string := "                    # [glm53-xgrammar-reasoning] Source-exact vLLM c6e19b3 backport.
".
Definition ACCEPT_OLD : string := unquote "    def accept_tokens(self, request_id: str, tokens: list[int]) -> bool:
        ^^^Accepts a list of tokens and advances the FSM.

        Returns True if the FSM was advanced successfully.
        Returns False if the FSM failed to advance.
        ^^^
        if self._is_terminated:
            return False
        for token in tokens:
            if not self.matcher.accept_token(token):
                logger.error(
                    ^Failed to advance FSM for request %s ^
                    ^for tokens %s. Please file an issue.^,
                    request_id,
                    token,
                )
                return False
            self.num_processed_tokens += 1
        self._is_terminated = self.matcher.is_terminated()
        return True
".
Definition ACCEPT_UPSTREAM : string := unquote "    def accept_tokens(self, request_id: str, tokens: list[int]) -> bool:
        ^^^Accepts a list of tokens and advances the FSM.

        Returns True if all grammar-constrained tokens were accepted.
        Tokens after termination are ignored. Returns False if the FSM
        failed to advance.
        ^^^
        if self._is_terminated:
            return True
        for token in tokens:
            if not self.matcher.accept_token(token):
                logger.error(
                    ^Failed to advance FSM for request %s ^
                    ^for tokens %s. Please file an issue.^,
                    request_id,
                    token,
                )
                return False
            self.num_processed_tokens += 1
            self._is_terminated = self.matcher.is_terminated()
            if self._is_terminated:
                break
        return True
".
Definition VALIDATE_OLD : string := unquote "    def validate_tokens(self, tokens: list[int]) -> list[int]:
        ^^^Checks if the list of tokens are accepted by the FSM in sequence.
        Will not advance the FSM.

        Returns the prefix list of tokens that are accepted by the FSM.
        ^^^
        accepted_tokens = []
        for token in tokens:
            if self.matcher.accept_token(token):
                accepted_tokens.append(token)
            else:
                break
        if len(accepted_tokens) > 0:
            # Rollback the FSM to the initial state
            self.matcher.rollback(len(accepted_tokens))
        return accepted_tokens
".
Definition VALIDATE_UPSTREAM : string := unquote "    def validate_tokens(self, tokens: list[int]) -> list[int]:
        ^^^Checks if the list of tokens are accepted by the FSM in sequence.
        Will not advance the FSM.

        Returns the prefix list of tokens that are accepted by the FSM.
        ^^^
        if self._is_terminated:
            return []

        accepted_tokens = []
        for token in tokens:
            if self.matcher.accept_token(token):
                accepted_tokens.append(token)
                if self.matcher.is_terminated():
                    break
            else:
                break
        if len(accepted_tokens) > 0:
            # Rollback the FSM to the initial state
            self.matcher.rollback(len(accepted_tokens))
        return accepted_tokens
".
Definition RESET_OLD : string := "    def reset(self):
        self.num_processed_tokens = 0
        self.matcher.reset()
".
Definition RESET_UPSTREAM : string := "    def reset(self):
        self.matcher.reset()
        self.num_processed_tokens = 0
        self._is_terminated = False
".
Definition MANAGER_OLD : string := "                    if advance_grammar and not grammar.is_terminated():
                        accepted = grammar.accept_tokens(req_id, [token])
                        if accepted:
                            state_advancements += 1
                        elif not post_reasoning_end_in_window:
                            raise AssertionError(
                                (token, req_id, scheduled_spec_decode_tokens)
                            )
".
Definition MANAGER_UPSTREAM : string := "                    if advance_grammar and not grammar.is_terminated():
                        if post_reasoning_end_in_window:
                            accepted = bool(grammar.validate_tokens([token]))
                            if accepted:
                                accepted = grammar.accept_tokens(req_id, [token])
                        else:
                            accepted = grammar.accept_tokens(req_id, [token])
                        if accepted:
                            state_advancements += 1
                        elif not post_reasoning_end_in_window:
                            raise AssertionError(
                                (token, req_id, scheduled_spec_decode_tokens)
                            )
".

(** ** The patcher *)

(** [backend_counts]. *)
Definition backend_counts (text : string) : list nat * list nat :=
  (map (fun x => str_count x text) [ACCEPT_OLD; VALIDATE_OLD; RESET_OLD],
   [str_count ACCEPT_UPSTREAM text; str_count VALIDATE_UPSTREAM text; str_count RESET_UPSTREAM text]).

Definition verified_backend_state (text : string) : bool :=
  let '(old, new) := backend_counts text in
  bool_decide (old = [0; 0; 0]) && bool_decide (new = [1; 1; 1]).

Definition verified_manager_state (text : string) : bool :=
  (str_count MANAGER_OLD text =? 0)%nat && (str_count MANAGER_UPSTREAM text =? 1)%nat.

Definition prepare_backend (source : string) : res string :=
  let '(old, new) := backend_counts source in
  let marker_count := str_count BACKEND_MARK source in
  if negb (marker_count =? 0)%nat then
    _ ← refuse_if (negb (marker_count =? 1)%nat || negb (verified_backend_state source)) "partial";
    mret source
  else if verified_backend_state source then mret source
  else
    _ ← refuse_if (negb (bool_decide (old = [1; 1; 1])) || negb (bool_decide (new = [0; 0; 0]))) "anchors drifted";
    let patched := replace_first ACCEPT_OLD (BACKEND_MARK ++ ACCEPT_UPSTREAM) source in
    let patched := replace_first VALIDATE_OLD VALIDATE_UPSTREAM patched in
    let patched := replace_first RESET_OLD RESET_UPSTREAM patched in
    _ ← refuse_if (negb (verified_backend_state patched) || negb (str_count BACKEND_MARK patched =? 1)%nat)
          "post-patch verification failed";
    mret patched.

Definition prepare_manager (source : string) : res string :=
  let old := str_count MANAGER_OLD source in
  let new := str_count MANAGER_UPSTREAM source in
  let marker_count := str_count MANAGER_MARK source in
  if negb (marker_count =? 0)%nat then
    _ ← refuse_if (negb (marker_count =? 1)%nat || negb (verified_manager_state source)) "partial";
    mret source
  else if verified_manager_state source then mret source
  else
    _ ← refuse_if (negb (old =? 1)%nat || negb (new =? 0)%nat) "anchor drifted";
    let patched := replace_first MANAGER_OLD (MANAGER_MARK ++ MANAGER_UPSTREAM) source in
    _ ← refuse_if (negb (verified_manager_state patched) || negb (str_count MANAGER_MARK patched =? 1)%nat)
          "post-patch verification failed";
    mret patched.

(** [main] on the texts of the two targets. *)
Definition main (parses : string -> bool) (backend manager : string) : res (list string) :=
  b ← prepare_backend backend;
  m ← prepare_manager manager;
  _ ← check_syntax parses b;
  _ ← check_syntax parses m;
  mret [b; m].

(** What [main] does to each file, alone. *)
Definition backend_run (parses : string -> bool) : patch_run := site_run parses prepare_backend.
Definition manager_run (parses : string -> bool) : patch_run := site_run parses prepare_manager.

Definition backend_table : list (string * string) :=
  [(ACCEPT_OLD, BACKEND_MARK ++ ACCEPT_UPSTREAM); (VALIDATE_OLD, VALIDATE_UPSTREAM); (RESET_OLD, RESET_UPSTREAM)].
Definition manager_table : list (string * string) := [(MANAGER_OLD, MANAGER_MARK ++ MANAGER_UPSTREAM)].

Lemma prepare_backend_spec t t' :
  prepare_backend t = Ok t' -> edits backend_table t t' /\ verified_backend_state t' = true /\
    (str_count BACKEND_MARK t' = 1 \/ str_count BACKEND_MARK t' = 0).
Proof.
  unfold prepare_backend. cbv zeta. destruct (backend_counts t) as [old new].
  destruct (Nat.eqb_spec (str_count BACKEND_MARK t) 0) as [Hm|Hm]; simpl negb; cbv iota;
    [destruct (verified_backend_state t) eqn:Ev |]; intros H.
  - injection H as <-. split; [constructor |]. by split; [| right].
  - step_ok H. step_ok H. injection H as <-. apply refuse_if_Ok, orb_false_iff in E0 as [E0 E1]. bool_to_prop.
    split; [|by split; [| left]]. do 2 (eapply edits_trans; [| apply replace_first_edits; simpl; tauto]).
    apply replace_first_edits. simpl. tauto.
  - step_ok H. injection H as <-. apply refuse_if_Ok, orb_false_iff in E as [E1 E2]. bool_to_prop.
    split; [constructor |]. by split; [| left].
Qed.

Lemma prepare_manager_spec t t' :
  prepare_manager t = Ok t' -> edits manager_table t t' /\ verified_manager_state t' = true /\
    (str_count MANAGER_MARK t' = 1 \/ str_count MANAGER_MARK t' = 0).
Proof.
  unfold prepare_manager. cbv zeta.
  destruct (Nat.eqb_spec (str_count MANAGER_MARK t) 0) as [Hm|Hm]; simpl negb; cbv iota;
    [destruct (verified_manager_state t) eqn:Ev |]; intros H.
  - injection H as <-. split; [constructor |]. by split; [| right].
  - step_ok H. step_ok H. injection H as <-. apply refuse_if_Ok, orb_false_iff in E0 as [E0 E1]. bool_to_prop.
    split; [|by split; [| left]]. apply replace_first_edits. by left.
  - step_ok H. injection H as <-. apply refuse_if_Ok, orb_false_iff in E as [E1 E2]. bool_to_prop.
    split; [constructor |]. by split; [| left].
Qed.

#[export] Instance backend_patcher parses : Patcher (backend_run parses) backend_table.
Proof.
  apply site_run_patcher. intros t t' (He & Hv & Hm)%prepare_backend_spec. split; [done |].
  unfold prepare_backend. cbv zeta. destruct (backend_counts t'). rewrite Hv. by destruct Hm as [-> | ->].
Qed.

#[export] Instance manager_patcher parses : Patcher (manager_run parses) manager_table.
Proof.
  apply site_run_patcher. intros t t' (He & Hv & Hm)%prepare_manager_spec. split; [done |].
  unfold prepare_manager. cbv zeta. rewrite Hv. by destruct Hm as [-> | ->].
Qed.

Definition plan (parses : string -> bool) : list patch_run := [backend_run parses; manager_run parses].

(** Preparing both before compiling either stages the same texts. *)
Lemma grammar_main_stages parses b m l : main parses b m = Ok l <-> stage (plan parses) [b; m] = Ok l.
Proof.
  unfold main, plan, backend_run, manager_run. simpl. unfold site_run.
  destruct (prepare_backend b) as [x|], (prepare_manager m) as [y|]; simpl; unfold check_syntax;
    try destruct (parses x); try destruct (parses y); simpl; try done.
  by rewrite !default_changed.
Qed.

Lemma grammar_plan_patchers parses : Forall (fun run => exists table, Patcher run table) (plan parses).
Proof. repeat constructor; eexists; [apply backend_patcher | apply manager_patcher]. Qed.
