(* ===== verification/PatchKpool.v ===== *)
(** * Installing the pooled indexer's changes

    The patchers of the slot mapping's clamp and of the pooled tail. *)
From Stdlib Require Import ZArith Lia String Ascii.
From stdpp Require Import base list strings gmap.
From S2P Require Import Prelude PyStr Installer SitePatch.
#[local] Open Scope string_scope.

(** * Installing the slot-map clamp

    Model of the installer of [overlay/patch_kpool_tail_slotmap.py].  The anchors and
    replacements are the source's, byte for byte. *)
Module PatchKpoolSlotmap.

(** ** The texts *)

Definition MARK : string := "    # [glm53-kpool-tail-slotmap] Never index past the request's
".
Definition ANCHOR : string := "        block_indices = (
            virtual_block_indices * BLOCKS_PER_KV_BLOCK
            + local_block_offsets // block_size
        )
        block_numbers = tl.load(
            block_table_ptr + row_offset + block_indices,
            mask=mask & is_local,
            other=0,
        ).to(tl.int64)
".
Definition PATCHED : string := "        block_indices = (
            virtual_block_indices * BLOCKS_PER_KV_BLOCK
            + local_block_offsets // block_size
        )
        # [glm53-kpool-tail-slotmap] Never index past the request's
        # block-table row. KpoolTailSpec is a one-block circular scratch
        # whose row is a single entry; without this clamp every token at
        # pos >= block_size reads adjacent memory and the kpool kernels
        # write through garbage. Clamping pins that group to entry 0:
        # block_table[req, 0] * block_size + pos % block_size.
        # For every other group this is identity.
        block_indices = tl.minimum(block_indices, block_table_stride - 1)
        block_numbers = tl.load(
            block_table_ptr + row_offset + block_indices,
            mask=mask & is_local,
            other=0,
        ).to(tl.int64)
".

(** ** The patcher *)

Definition CLAMP : string := "tl.minimum(block_indices, block_table_stride - 1)".

Definition verified_state (text : string) : bool :=
  (str_count ANCHOR text =? 0)%nat && (str_count PATCHED text =? 1)%nat && (str_count MARK text =? 1)%nat
  && str_in CLAMP text.

Definition prepare (source : string) : res string :=
  let marker_count := str_count MARK source in
  if negb (marker_count =? 0)%nat then
    _ ← refuse_if (negb (marker_count =? 1)%nat || negb (verified_state source)) "partial";
    mret source
  else if verified_state source then mret source
  else
    _ ← refuse_if (negb (str_count ANCHOR source =? 1)%nat) "anchor drifted";
    _ ← refuse_if (str_in CLAMP source) "already clamps";
    let patched := replace_first ANCHOR PATCHED source in
    _ ← refuse_if (negb (verified_state patched)) "post-patch verification failed";
    mret patched.

(** [main] on the text of [v1/worker/block_table.py]. *)
Definition main (parses : string -> bool) : patch_run := site_run parses prepare.

Definition table : list (string * string) := [(ANCHOR, PATCHED)].

Lemma prepare_spec t t' : prepare t = Ok t' -> edits table t t' /\ verified_state t' = true.
Proof.
  unfold prepare. cbv zeta. destruct (negb (str_count MARK t =? 0)%nat); [|destruct (verified_state t) eqn:Ev]; intros H.
  - step_ok H. injection H as <-. apply refuse_if_Ok, orb_false_iff in E as [_ E]. bool_to_prop. split; [constructor | done].
  - injection H as <-. split; [constructor | done].
  - do 3 step_ok H. injection H as <-. apply refuse_if_Ok, negb_false_iff in E1. split; [|done].
    apply replace_first_edits. by left.
Qed.

#[export] Instance patcher parses : Patcher (main parses) table.
Proof.
  apply site_run_patcher. intros t t' [He Hv]%prepare_spec. split; [done |].
  unfold prepare. cbv zeta. rewrite Hv. assert (str_count MARK t' = 1) as -> by (unfold verified_state in Hv; by bool_to_prop).
  done.
Qed.

End PatchKpoolSlotmap.

(** * Installing the kpool tail fixes

    Model of [overlay/patch_kpool_tail_correctness.py]: four files or none.  The anchors and
    replacements are the source's, byte for byte. *)
Module PatchKpoolTail.

(** ** The texts *)

Definition KPOOL_DOC_MARK : string := "    stride, so blocks are addressed through ``TAIL_BLOCK_ELEMS`` /".
Definition KPOOL_DOC_ANCHOR : string := unquote "    ``tail[block, {0:K, 1:score}, pos % KPOOL, :]``.
    ^^^
".
Definition KPOOL_DOC_PATCHED : string := unquote "    ``tail[block, {0:K, 1:score}, pos % KPOOL, :]``.

    The tail cache aliases the indexer cache with the indexer's (padded) block
    stride, so blocks are addressed through ``TAIL_BLOCK_ELEMS`` /
    ``KPOOL_HEAD`` (``tail.stride(0)`` / ``tail.stride(1)``), never as a dense
    ``[num_blocks, 2, KPOOL, HEAD_DIM]`` array.
    ^^^
".
Definition KPOOL_SIG_ANCHOR : string := "    tslot_ptr,
    tail_ptr,
    n_tokens,
    HEAD_DIM: tl.constexpr,
    KPOOL: tl.constexpr,
    BLOCK_D: tl.constexpr,
):
".
Definition KPOOL_SIG_PATCHED : string := "    tslot_ptr,
    tail_ptr,
    n_tokens,
    TAIL_BLOCK_ELEMS: tl.constexpr,
    KPOOL_HEAD: tl.constexpr,
    HEAD_DIM: tl.constexpr,
    KPOOL: tl.constexpr,
    BLOCK_D: tl.constexpr,
):
".
Definition KPOOL_BODY_ANCHOR : string := "    base = (blk * 2 * KPOOL + t % KPOOL) * HEAD_DIM
    k = tl.load(key_ptr + i * HEAD_DIM + offs, mask=m)
    s = tl.load(score_ptr + i * HEAD_DIM + offs, mask=m)
    tl.store(tail_ptr + base + offs, k, mask=m)
    tl.store(tail_ptr + base + KPOOL * HEAD_DIM + offs, s, mask=m)
".
Definition KPOOL_BODY_PATCHED : string := "    base = blk * TAIL_BLOCK_ELEMS + (t % KPOOL) * HEAD_DIM
    k = tl.load(key_ptr + i * HEAD_DIM + offs, mask=m)
    s = tl.load(score_ptr + i * HEAD_DIM + offs, mask=m)
    tl.store(tail_ptr + base + offs, k, mask=m)
    tl.store(tail_ptr + base + KPOOL_HEAD + offs, s, mask=m)
".
Definition KPOOL_HOST_MARK : string := "    assert tail_kv_cache.ndim == 4 and tail_kv_cache.shape[1] == 2
".
Definition KPOOL_HOST_ANCHOR : string := unquote "    ^^^Seed the paged tail cache from a prefill batch (see the kernel).^^^
    assert tail_kv_cache.dtype == torch.bfloat16
    assert key.dtype == torch.bfloat16
".
Definition KPOOL_HOST_PATCHED : string := unquote "    ^^^Seed the paged tail cache from a prefill batch (see the kernel).^^^
    assert tail_kv_cache.dtype == torch.bfloat16
    assert tail_kv_cache.ndim == 4 and tail_kv_cache.shape[1] == 2
    assert tail_kv_cache.stride(3) == 1 and tail_kv_cache.stride(2) == head_dim
    assert key.dtype == torch.bfloat16
".
Definition KPOOL_CALL_ANCHOR : string := "    _kpool_tail_seed_kernel[(n,)](
        key,
        gate_score,
        tslot,
        tail_kv_cache,
        n,
        HEAD_DIM=head_dim,
".
Definition KPOOL_CALL_PATCHED : string := "    _kpool_tail_seed_kernel[(n,)](
        key,
        gate_score,
        tslot,
        tail_kv_cache,
        n,
        TAIL_BLOCK_ELEMS=tail_kv_cache.stride(0),
        KPOOL_HEAD=tail_kv_cache.stride(1),
        HEAD_DIM=head_dim,
".
Definition MAMBA_MARK : string := "            positions=input_batch.positions,
".
Definition MAMBA_ANCHOR : string := "            dcp_local_seq_lens=input_batch.dcp_local_seq_lens,
            model_specific_attn_metadata=mamba_attn_metadata,
".
Definition MAMBA_PATCHED : string := "            dcp_local_seq_lens=input_batch.dcp_local_seq_lens,
            positions=input_batch.positions,
            model_specific_attn_metadata=mamba_attn_metadata,
".
Definition INDEXER_SIG_MARK : string := "    out: torch.Tensor | None = None,
".
Definition INDEXER_SIG_ANCHOR : string := "    num_actual_tokens: int,
    num_reqs: int,
    kpool: int,
) -> torch.Tensor:
".
Definition INDEXER_SIG_PATCHED : string := "    num_actual_tokens: int,
    num_reqs: int,
    kpool: int,
    out: torch.Tensor | None = None,
) -> torch.Tensor:
".
Definition INDEXER_DOC_ANCHOR : string := unquote "    Pure torch (no Triton, no device sync): the indexer op consumes the tail
    slot mapping on its eager break, so the returned tensor need not be the
    persistent ``BlockTables`` buffer.
    ^^^
".
Definition INDEXER_DOC_PATCHED : string := unquote "    Pure torch (no Triton, no device sync): the indexer op consumes the tail
    slot mapping on its eager break. When ``out`` is supplied the mapping is
    written into that caller-owned buffer, whose address must stay stable
    across CUDA graph replays; otherwise a fresh clone is returned.
    ^^^
".
Definition INDEXER_OUT_MARK : string := "    # [glm53-kpool-tail-correctness] Write into caller-owned persistent
".
Definition INDEXER_OUT_ANCHOR : string := "    out = slot_mapping.clone()
    if num_actual_tokens == 0:
        return out
".
Definition INDEXER_OUT_PATCHED : string := unquote "    # [glm53-kpool-tail-correctness] Write into caller-owned persistent
    # storage. A fresh clone() per step is recorded by CUDA graph capture; on
    # replay the tail kernels read a buffer that has since been freed or
    # reused, which dies with Xid 13 Out Of Range Address right after capture.
    # The buffer is passed pre-viewed to this tensor's exact shape, so the
    # exported metadata is shape-identical to the clone() it replaces.
    if out is None:
        out = slot_mapping.clone()
    else:
        if out.shape != slot_mapping.shape:
            raise ValueError(
                ^kpool tail slot-mapping buffer shape mismatch ^
                f^({tuple(out.shape)} != {tuple(slot_mapping.shape)})^
            )
        out.copy_(slot_mapping)
    if num_actual_tokens == 0:
        return out
".
Definition INDEXER_INIT_MARK : string := "        self._tail_slot_mapping = torch.empty(
".
Definition INDEXER_INIT_ANCHOR : string := "        # No indexer-builder buffers (expanded_block_table / scheduler_metadata /
        # compressed_slot_mapping) -- the tail is storage-only and exports only
        # slot_mapping, which is rebuilt per step from the group's block table.
        super().__init__(kv_cache_spec, layer_names, vllm_config, device)
".
Definition INDEXER_INIT_PATCHED : string := "        # No indexer-builder buffers (expanded_block_table / scheduler_metadata /
        # compressed_slot_mapping) -- the tail is storage-only and exports only
        # slot_mapping, which is rebuilt per step from the group's block table.
        super().__init__(kv_cache_spec, layer_names, vllm_config, device)
        # [glm53-kpool-tail-correctness] Builder-owned persistent output. CUDA
        # graph replay retains the slot-mapping address, so returning a fresh
        # clone() every step leaves the captured kernels reading freed memory.
        self._tail_slot_mapping = torch.empty(
            vllm_config.scheduler_config.max_num_batched_tokens,
            dtype=torch.int64,
            device=device,
        )
".
Definition INDEXER_CALL_MARK : string := "            tail_slot_mapping = self._tail_slot_mapping[
".
Definition INDEXER_CALL_ANCHOR : string := "            slot_mapping = compute_kpool_tail_slot_mapping(
                slot_mapping,
                common_attn_metadata.block_table_tensor,
                common_attn_metadata.query_start_loc,
                positions,
                common_attn_metadata.num_actual_tokens,
                common_attn_metadata.num_reqs,
                self.kv_cache_spec.block_size,
            )
".
Definition INDEXER_CALL_PATCHED : string := "            # [glm53-kpool-tail-correctness] Builder-owned persistent storage,
            # viewed to the batch shape so the exported metadata is unchanged.
            # ``view_as`` never copies, so the address captured by CUDA graphs
            # is the stable buffer base, not a per-step allocation.
            tail_slot_mapping = self._tail_slot_mapping[
                : slot_mapping.numel()
            ].view_as(slot_mapping)
            slot_mapping = compute_kpool_tail_slot_mapping(
                slot_mapping,
                common_attn_metadata.block_table_tensor,
                common_attn_metadata.query_start_loc,
                positions,
                common_attn_metadata.num_actual_tokens,
                common_attn_metadata.num_reqs,
                self.kv_cache_spec.block_size,
                out=tail_slot_mapping,
            )
".
Definition BLOCKTABLE_MARK : string := "        in_range = block_indices < block_table_stride
".
Definition BLOCKTABLE_ANCHOR : string := "        block_indices = positions // (block_size * CP_SIZE)
        block_offsets = positions % (block_size * CP_SIZE)
        block_numbers = tl.load(
            block_table_ptr + req_state_idx * block_table_stride + block_indices
        )

        if CP_SIZE == 1:
            # Common case: Context parallelism is not used.
            slot_ids = block_numbers * block_size + block_offsets
        else:
            # Context parallelism is used.
            is_local = block_offsets // CP_INTERLEAVE % CP_SIZE == cp_rank
            rounds = block_offsets // (CP_INTERLEAVE * CP_SIZE)
            remainder = block_offsets % CP_INTERLEAVE
            local_offsets = rounds * CP_INTERLEAVE + remainder
            slot_ids = block_numbers * block_size + local_offsets
            slot_ids = tl.where(is_local, slot_ids, PAD_ID)
".
Definition BLOCKTABLE_PATCHED : string := "        block_indices = positions // (block_size * CP_SIZE)
        block_offsets = positions % (block_size * CP_SIZE)
        # [glm53-kpool-tail-correctness] The kpool tail group's block-table row
        # is one block wide (padded to the block-table alignment), so its column
        # index runs off the end of the row -- and of the whole allocation for
        # the last request -- for every pos >= block_size * alignment. Bound the
        # column index; for any group whose row spans the sequence this is
        # identity, and the tail group's own builder supplies the real mapping.
        in_range = block_indices < block_table_stride
        block_numbers = tl.load(
            block_table_ptr + req_state_idx * block_table_stride + block_indices,
            mask=in_range,
            other=0,
        )

        if CP_SIZE == 1:
            # Common case: Context parallelism is not used.
            slot_ids = block_numbers * block_size + block_offsets
            slot_ids = tl.where(in_range, slot_ids, PAD_ID)
        else:
            # Context parallelism is used.
            is_local = block_offsets // CP_INTERLEAVE % CP_SIZE == cp_rank
            rounds = block_offsets // (CP_INTERLEAVE * CP_SIZE)
            remainder = block_offsets % CP_INTERLEAVE
            local_offsets = rounds * CP_INTERLEAVE + remainder
            slot_ids = block_numbers * block_size + local_offsets
            slot_ids = tl.where(is_local & in_range, slot_ids, PAD_ID)
".

(** ** The sites *)

Definition kpool_sites : list site :=
  [Site "seed docstring" (Some KPOOL_DOC_MARK) KPOOL_DOC_ANCHOR KPOOL_DOC_PATCHED;
   Site "seed constexprs" None KPOOL_SIG_ANCHOR KPOOL_SIG_PATCHED;
   Site "seed addressing" None KPOOL_BODY_ANCHOR KPOOL_BODY_PATCHED;
   Site "seed layout asserts" (Some KPOOL_HOST_MARK) KPOOL_HOST_ANCHOR KPOOL_HOST_PATCHED;
   Site "seed stride args" None KPOOL_CALL_ANCHOR KPOOL_CALL_PATCHED].
Definition mamba_sites : list site := [Site "forward positions" (Some MAMBA_MARK) MAMBA_ANCHOR MAMBA_PATCHED].
Definition indexer_sites : list site :=
  [Site "mapping out param" (Some INDEXER_SIG_MARK) INDEXER_SIG_ANCHOR INDEXER_SIG_PATCHED;
   Site "mapping docstring" None INDEXER_DOC_ANCHOR INDEXER_DOC_PATCHED;
   Site "in-place write" (Some INDEXER_OUT_MARK) INDEXER_OUT_ANCHOR INDEXER_OUT_PATCHED;
   Site "persistent buffer" (Some INDEXER_INIT_MARK) INDEXER_INIT_ANCHOR INDEXER_INIT_PATCHED;
   Site "pass out buffer" (Some INDEXER_CALL_MARK) INDEXER_CALL_ANCHOR INDEXER_CALL_PATCHED].
Definition blocktable_sites : list site :=
  [Site "bound column index" (Some BLOCKTABLE_MARK) BLOCKTABLE_ANCHOR BLOCKTABLE_PATCHED].

(** [SITES], in the order of [TARGETS]. *)
Definition SITES : list (list site) := [kpool_sites; mamba_sites; indexer_sites; blocktable_sites].

(** [main] on the texts of the four targets. *)
Definition plan (parses : string -> bool) : list patch_run :=
  map (fun sites => site_run parses (prepare_optional sites)) SITES.
Definition main (parses : string -> bool) (texts : list string) : res (list string) := stage (plan parses) texts.

Lemma kpool_plan_patchers parses : Forall (fun run => exists table, Patcher run table) (plan parses).
Proof. repeat constructor; eexists; apply site_patcher, prepare_optional_preparer. Qed.

End PatchKpoolTail.
