(* ===== verification/PatchW28.v ===== *)
(** * Installing the KV-config and capability fixes

    Model of [overlay/patch_w28_correctness.py]: four files or none.  The anchors and
    replacements are the source's, byte for byte. *)
From Stdlib Require Import ZArith Lia String Ascii.
From stdpp Require Import base list strings gmap.
From S2P Require Import Prelude PyStr Installer SitePatch.
#[local] Open Scope string_scope.

(** ** The texts *)

Definition INTERFACE_MARK : string := "    def set_kv_cache_config(  # [glm53-w28-correctness]
".
Definition INTERFACE_ANCHOR : string := "    def apply_staged_writes(self) -> None:
        return None

    def get_additional_cg_support(self) -> tuple[AttentionCGSupport, str | None]:
".
Definition INTERFACE_PATCHED : string := unquote "    def apply_staged_writes(self) -> None:
        return None

    def set_kv_cache_config(  # [glm53-w28-correctness]
        self, kv_cache_config: KVCacheConfig
    ) -> None:
        ^^^Bind the resolved KV cache config before requests are admitted.^^^
        return None

    def get_additional_cg_support(self) -> tuple[AttentionCGSupport, str | None]:
".
Definition RUNNER_MARK : string := "        self.model_state.set_kv_cache_config(  # [glm53-w28-correctness]
".
Definition RUNNER_ANCHOR : string := "        self.attn_groups, attn_cg_support, self.kernel_block_sizes = init_attn_backend(
            self.kv_cache_config, self.vllm_config, self.device
        )
        attn_cg_support = attn_cg_support.narrow(
".
Definition RUNNER_PATCHED : string := "        self.attn_groups, attn_cg_support, self.kernel_block_sizes = init_attn_backend(
            self.kv_cache_config, self.vllm_config, self.device
        )
        self.model_state.set_kv_cache_config(  # [glm53-w28-correctness]
            self.kv_cache_config
        )
        attn_cg_support = attn_cg_support.narrow(
".
Definition MAMBA_BIND_MARK : string := "    def set_kv_cache_config(  # [glm53-w28-correctness]
".
Definition MAMBA_BIND_ANCHOR : string := "    def add_request(self, req_index: int, new_req_data: NewRequestData) -> None:
        super().add_request(req_index, new_req_data)
".
Definition MAMBA_BIND_PATCHED : string := unquote "    def set_kv_cache_config(  # [glm53-w28-correctness]
        self, kv_cache_config: KVCacheConfig
    ) -> None:
        if not self._align_mode:
            return
        group_ids: list[int] = []
        specs: list[MambaSpec] = []
        for group_id, group in enumerate(kv_cache_config.kv_cache_groups):
            spec = group.kv_cache_spec
            if isinstance(spec, MambaSpec):
                group_ids.append(group_id)
                specs.append(spec)
        assert specs, ^no mamba layers in the model^
        representative = specs[0]
        assert all(
            spec.block_size == representative.block_size
            and spec.num_speculative_blocks
            == representative.num_speculative_blocks
            and spec.mamba_cache_mode == representative.mamba_cache_mode
            for spec in specs
        ), ^all mamba groups must share cache scheduling parameters^
        self._mamba_group_ids = group_ids
        self._mamba_spec = representative

    def add_request(self, req_index: int, new_req_data: NewRequestData) -> None:
        super().add_request(req_index, new_req_data)
".
Definition MAMBA_SEED_MARK : string := "            # [glm53-w28-correctness] The align table is in Mamba blocks.
".
Definition MAMBA_SEED_ANCHOR : string := unquote "        if self._align_mode:
            # Seed the running state block from the resumed/prefilled position.
            self._mamba_state_idx_gpu[req_index].fill_(
                (new_req_data.num_computed_tokens - 1) // self.cache_config.block_size
            )

    def _get_mamba_group_info(
        self, kv_cache_config: KVCacheConfig
    ) -> tuple[list[int], MambaSpec]:
        if self._mamba_spec is None:
            group_ids: list[int] = []
            specs: list[MambaSpec] = []
            for i, group in enumerate(kv_cache_config.kv_cache_groups):
                spec = group.kv_cache_spec
                if isinstance(spec, MambaSpec):
                    group_ids.append(i)
                    specs.append(spec)
            assert specs, ^no mamba layers in the model^
            assert all(specs[0] == s for s in specs)
            self._mamba_group_ids = group_ids
            self._mamba_spec = specs[0]
        return self._mamba_group_ids, self._mamba_spec
".
Definition MAMBA_SEED_PATCHED : string := unquote "        if self._align_mode:
            # Seed the running state block from the resumed/prefilled position.
            # [glm53-w28-correctness] The align table is in Mamba blocks.
            _, mamba_spec = self._get_mamba_group_info()
            self._mamba_state_idx_gpu[req_index].fill_(
                (new_req_data.num_computed_tokens - 1) // mamba_spec.block_size
            )

    def _get_mamba_group_info(self) -> tuple[list[int], MambaSpec]:
        assert self._mamba_spec is not None, ^KV cache config not bound^
        return self._mamba_group_ids, self._mamba_spec
".
Definition MAMBA_CALLS_MARK : string := "        mamba_group_ids, mamba_spec = self._get_mamba_group_info()  # [glm53-w28-correctness]
".
Definition MAMBA_CALLS_ANCHOR : string := "        mamba_group_ids, mamba_spec = self._get_mamba_group_info(kv_cache_config)
        ctx = self._ensure_align_ctx(kv_cache_config, mamba_group_ids, block_tables)
".
Definition MAMBA_CALLS_PATCHED : string := "        mamba_group_ids, mamba_spec = self._get_mamba_group_info()  # [glm53-w28-correctness]
        ctx = self._ensure_align_ctx(kv_cache_config, mamba_group_ids, block_tables)
".
Definition SM120_MARK : string := "    masked_mha_available = False  # [glm53-w28-correctness]
".
Definition SM120_ANCHOR : string := "    is_sparse = True
    supports_dense_mha_prefill = False

    def __init__(
".
Definition SM120_PATCHED : string := "    is_sparse = True
    supports_dense_mha_prefill = False
    # The sparse-MQA-only SM120 implementation does not define this
    # capability, but the prefill dispatcher reads it for every sparse backend
    # once num_mha_tokens > 0.
    masked_mha_available = False  # [glm53-w28-correctness]

    def __init__(
".

(** ** The sites *)

Definition interface_sites : list site := [Site "KV config hook" (Some INTERFACE_MARK) INTERFACE_ANCHOR INTERFACE_PATCHED].
Definition runner_sites : list site := [Site "bind KV config" (Some RUNNER_MARK) RUNNER_ANCHOR RUNNER_PATCHED].
Definition mamba_sites : list site :=
  [Site "resolve Mamba groups" (Some MAMBA_BIND_MARK) MAMBA_BIND_ANCHOR MAMBA_BIND_PATCHED;
   Site "Mamba-block seed" (Some MAMBA_SEED_MARK) MAMBA_SEED_ANCHOR MAMBA_SEED_PATCHED;
   Site "bound group lookup" (Some MAMBA_CALLS_MARK) MAMBA_CALLS_ANCHOR MAMBA_CALLS_PATCHED].
Definition sm120_sites : list site := [Site "masked MHA capability" (Some SM120_MARK) SM120_ANCHOR SM120_PATCHED].

(** [SITES], in the order of [TARGETS]. *)
Definition SITES : list (list site) := [interface_sites; runner_sites; mamba_sites; sm120_sites].

(** [main] on the texts of the four targets. *)
Definition plan (parses : string -> bool) : list patch_run :=
  map (fun sites => site_run parses (prepare_marked sites)) SITES.
Definition main (parses : string -> bool) (texts : list string) : res (list string) := stage (plan parses) texts.

(** Every site has a mark and no file is without sites. *)
Lemma w28_plan_patchers parses : Forall (fun run => exists table, Patcher run table) (plan parses).
Proof. repeat constructor; eexists; apply site_patcher, prepare_marked_preparer; constructor. Qed.
