(* ===== verification/PatchIndexerWorkspace.v ===== *)
(** * Installing the right-sized indexer workspace

    Model of the installer of [overlay/patch_indexer_workspace.py]: three files or none.  The anchors and
    replacements are the source's, byte for byte. *)
From Stdlib Require Import ZArith Lia String Ascii.
From stdpp Require Import base list strings gmap.
From S2P Require Import Prelude PyStr Installer SitePatch.
#[local] Open Scope string_scope.

(** ** The texts *)

Definition HELPERS_SRC : string := unquote "

# [glm53-indexer-workspace] GLM-5.3-only prefill gather sizing.
_GLM53_WORKSPACE_ENV = ^GLM53_INDEXER_WORKSPACE^


def _glm53_workspace_mode() -> str:
    ^^^Return the literal workspace mode; only an unset value defaults.^^^
    raw = os.environ.get(_GLM53_WORKSPACE_ENV)
    if raw is None:
        return ^stock^
    if raw not in (^stock^, ^rightsize^):
        raise ValueError(
            f^{_GLM53_WORKSPACE_ENV} must be exactly one of: stock rightsize ^
            f^(got: {raw!r})^
        )
    return raw


def _glm53_glm5next_workspace_entries(
    vllm_config: VllmConfig,
    index_kpool: int,
) -> int:
    ^^^Return the GLM kpool workspace, never a generic model workspace.^^^
    stock = get_max_prefill_buffer_size(vllm_config)
    if _glm53_workspace_mode() == ^stock^:
        return stock

    ratio = int(index_kpool)
    if ratio <= 1:
        raise ValueError(
            ^[glm53-indexer-workspace] rightsize requires GLM index_kpool > 1 ^
            f^(got {ratio})^
        )
    max_model_len = int(vllm_config.model_config.max_model_len)
    max_num_seqs = int(vllm_config.scheduler_config.max_num_seqs)
    if max_model_len <= 0 or max_num_seqs <= 0:
        raise ValueError(
            ^[glm53-indexer-workspace] rightsize requires positive ^
            f^max_model_len/max_num_seqs (got {max_model_len}/{max_num_seqs})^
        )
    spec_cfg = getattr(vllm_config, ^speculative_config^, None)
    num_spec = int(getattr(spec_cfg, ^num_speculative_tokens^, 0) or 0)
    span = max_model_len + max(0, num_spec)
    per_req = -(-span // ratio)
    entries = per_req * max_num_seqs

    # A rightsize arm that silently kept stock would produce a false-positive
    # deployment receipt. Fail readiness instead.
    if entries >= stock:
        raise ValueError(
            ^[glm53-indexer-workspace] rightsize does not narrow the stock ^
            f^workspace: computed={entries}, stock={stock}, ^
            f^index_kpool={ratio}, max_num_seqs={max_num_seqs}^
        )

    rank = (
        torch.distributed.get_rank()
        if torch.distributed.is_available()
        and torch.distributed.is_initialized()
        else -1
    )
    logger.info(
        ^[glm53-indexer-workspace] role=target rank=%d mode=rightsize ^
        ^index_kpool=%d max_num_seqs=%d entries=%d stock=%d bytes=%d ^
        ^reclaimed_mib=%.1f^,
        rank,
        ratio,
        max_num_seqs,
        entries,
        stock,
        entries * 132,
        (stock - entries) * 132 / (1024 * 1024),
    )
    return entries
".
Definition MARK_HELPERS : string := "# [glm53-indexer-workspace] GLM-5.3-only prefill gather sizing.
".
Definition MARK_IMPORT : string := "import os  # [glm53-indexer-workspace]
".
Definition ANCHOR_IMPORT : string := "from dataclasses import dataclass

import torch
".
Definition PATCHED_IMPORT : string := "from dataclasses import dataclass

import os  # [glm53-indexer-workspace]
import torch
".
Definition ANCHOR_HELPERS : string := "def get_max_prefill_buffer_size(vllm_config: VllmConfig):
    max_model_len = vllm_config.model_config.max_model_len
    # NOTE(Chen): 40 is a magic number for controlling the prefill buffer size.
    # Each entry is 128 fp8 bytes and 4 scale bytes for a total of 132 bytes.
    # The flashmla_sparse backend uses a workspace size of 5 * max_model_len.
    # The memory usage of the workspace there is 576 * 2 bytes; so we size this as
    # (576 * 2 // 132) * 5 = 40 to maximize this workspace size while still fitting
    # within the flashmla_sparse workspace.
    # For DeepSeek-V3.2, the max_model_len is 163840.
    #   40 * 163840 * 132 = 865075200 bytes = 825 MB
    return max_model_len * 40
".
Definition MARK_SPLITTER : string := "            # [glm53-indexer-workspace] N cannot be sub-chunked.
".
Definition ANCHOR_SPLITTER : string := "        # A single request can exceed the budget, requiring sub-chunking
        # on the query dimension.
        if end == start:
            chunk_m, chunk_n = query_lens_cpu[end].item(), seq_lens_cpu[end].item()
            end += 1

        req_slice = slice(start + request_offset, end + request_offset)
".
Definition PATCHED_SPLITTER : string := unquote "        # A single request can exceed the logits budget, requiring
        # sub-chunking on the query dimension. N cannot be sub-chunked: the
        # stock fail-open admitted the oversized row anyway, so right-sizing
        # could overrun the locked gather workspace.
        if end == start:
            chunk_m, chunk_n = query_lens_cpu[end].item(), seq_lens_cpu[end].item()
            # [glm53-indexer-workspace] N cannot be sub-chunked.
            if chunk_n > workspace_size:
                raise ValueError(
                    ^[glm53-indexer-workspace] sparse-indexer row exceeds ^
                    f^workspace: row={chunk_n}, workspace={workspace_size}, ^
                    f^request={end + request_offset}^
                )
            end += 1

        if chunk_n > workspace_size:
            raise AssertionError(
                ^[glm53-indexer-workspace] emitted chunk exceeds workspace: ^
                f^chunk={chunk_n}, workspace={workspace_size}, ^
                f^requests={start + request_offset}:{end + request_offset}^
            )
        req_slice = slice(start + request_offset, end + request_offset)
".
Definition MARK_CHUNK_ASSERT : string := "                # [glm53-indexer-workspace] Final guard before GPU gather.
".
Definition ANCHOR_CHUNK_ASSERT : string := "                # Skip when total_seq_lens is 0 (i.e., no compressed token).
                if metadata is not None:
                    chunks.append(metadata)
".
Definition PATCHED_CHUNK_ASSERT : string := unquote "                # Skip when total_seq_lens is 0 (i.e., no compressed token).
                if metadata is not None:
                    # [glm53-indexer-workspace] Final guard before GPU gather.
                    if metadata.total_seq_lens > self.max_prefill_buffer_size:
                        raise AssertionError(
                            ^[glm53-indexer-workspace] metadata chunk exceeds ^
                            f^workspace: chunk={metadata.total_seq_lens}, ^
                            f^workspace={self.max_prefill_buffer_size}^
                        )
                    chunks.append(metadata)
".
Definition MARK_GLM_IMPORT : string := "            _glm53_glm5next_workspace_entries,  # [glm53-indexer-workspace]
".
Definition ANCHOR_GLM_IMPORT : string := "        from vllm.v1.attention.backends.mla.indexer import get_max_prefill_buffer_size

        self.max_total_seq_len = get_max_prefill_buffer_size(vllm_config)
".
Definition PATCHED_GLM_IMPORT : string := "        from vllm.v1.attention.backends.mla.indexer import (
            _glm53_glm5next_workspace_entries,  # [glm53-indexer-workspace]
        )

        # GLM-scoped by construction: the generic helper remains untouched,
        # and the authoritative kpool value is the same instance value used
        # to build the compressed KV-cache spec above.
        self.max_total_seq_len = _glm53_glm5next_workspace_entries(
            vllm_config,
            self.index_kpool,
        )
".
Definition MARK_KPOOL_CAP : string := "            # [glm53-indexer-workspace] Guard the actual GLM allocation.
".
Definition ANCHOR_KPOOL_CAP : string := "        for chunk in prefill_metadata.chunks if not short_prefill else ():
            k_quant = k_quant_full[: chunk.total_seq_lens]
            k_scale = k_scale_full[: chunk.total_seq_lens]
".
Definition PATCHED_KPOOL_CAP : string := unquote "        for chunk in prefill_metadata.chunks if not short_prefill else ():
            # [glm53-indexer-workspace] Guard the actual GLM allocation.
            if index_kpool > 1 and chunk.total_seq_lens > total_seq_lens:
                raise ValueError(
                    ^[glm53-indexer-workspace] gather chunk exceeds allocated ^
                    f^workspace: chunk={chunk.total_seq_lens}, ^
                    f^allocated={total_seq_lens}^
                )
            k_quant = k_quant_full[: chunk.total_seq_lens]
            k_scale = k_scale_full[: chunk.total_seq_lens]
".

Definition PATCHED_HELPERS : string := ANCHOR_HELPERS ++ HELPERS_SRC.

(** ** The sites *)

Definition INDEXER_SITES : list site :=
  [Site "workspace environment import" (Some MARK_IMPORT) ANCHOR_IMPORT PATCHED_IMPORT;
   Site "helpers" (Some MARK_HELPERS) ANCHOR_HELPERS PATCHED_HELPERS;
   Site "splitter fail-closed" (Some MARK_SPLITTER) ANCHOR_SPLITTER PATCHED_SPLITTER;
   Site "pre-gather chunk assertion" (Some MARK_CHUNK_ASSERT) ANCHOR_CHUNK_ASSERT PATCHED_CHUNK_ASSERT].
Definition glm_sites : list site := [Site "GLM call site" (Some MARK_GLM_IMPORT) ANCHOR_GLM_IMPORT PATCHED_GLM_IMPORT].
Definition kpool_sites : list site :=
  [Site "actual allocation guard" (Some MARK_KPOOL_CAP) ANCHOR_KPOOL_CAP PATCHED_KPOOL_CAP].

Definition prepare_indexer : string -> res string := prepare_marked INDEXER_SITES.
Definition prepare_glm : string -> res string := prepare_marked glm_sites.
Definition prepare_kpool : string -> res string := prepare_marked kpool_sites.

(** [main] on the texts of the three targets: all are prepared, then all are
    compiled, then the changed ones are written. *)
Definition main (parses : string -> bool) (indexer glm kpool : string) : res (list string) :=
  i ← prepare_indexer indexer;
  g ← prepare_glm glm;
  k ← prepare_kpool kpool;
  _ ← check_syntax parses i;
  _ ← check_syntax parses g;
  _ ← check_syntax parses k;
  mret [i; g; k].

(** What [main] does to each file, alone. *)
Definition plan (parses : string -> bool) : list patch_run :=
  [site_run parses prepare_indexer; site_run parses prepare_glm; site_run parses prepare_kpool].

Lemma indexer_plan_patchers parses : Forall (fun run => exists table, Patcher run table) (plan parses).
Proof. repeat constructor; eexists; apply site_patcher, prepare_marked_preparer; constructor. Qed.

(** Preparing all before compiling any stages the same texts. *)
Lemma indexer_main_stages parses i g k l : main parses i g k = Ok l <-> stage (plan parses) [i; g; k] = Ok l.
Proof.
  unfold main, plan. simpl. unfold site_run.
  destruct (prepare_indexer i) as [x|], (prepare_glm g) as [y|], (prepare_kpool k) as [z|]; simpl; unfold check_syntax;
    try destruct (parses x); try destruct (parses y); try destruct (parses z); simpl; try done.
  by rewrite !default_changed.
Qed.
