(* ===== verification/PatchSharedExperts.v ===== *)
(** * Installing the early launch

    Model of [_state] and [main] of [overlay/patch_shared_experts_overlap.py].  The anchors and
    replacements are the source's, byte for byte. *)
From Stdlib Require Import ZArith Lia String Ascii.
From stdpp Require Import base list strings gmap.
From S2P Require Import Prelude PyStr Installer PyCount.
#[local] Open Scope string_scope.

(** ** The texts *)

Definition MARK : string := "[glm53-shared-experts-early]".
Definition INIT_OLD : string := unquote "            self._stream = aux_stream()
            if self._stream is not None:
                logger.debug_once(^Enabled separate cuda stream for MoE shared_experts^)

    # TODO(bnell): Hack for elastic_ep. Get rid of this
".
Definition INIT_NEW : string := unquote "            self._stream = aux_stream()
            if self._stream is not None:
                logger.debug_once(^Enabled separate cuda stream for MoE shared_experts^)
        # [glm53-shared-experts-early] One event pair and one in-flight flag per
        # DBO ubatch id, allocated unconditionally: forward() reads the flag even
        # when the aux stream is disabled (VLLM_DISABLE_SHARED_EXPERTS_STREAM) or
        # unavailable on a non-cuda-alike platform, where stock runs the layer
        # inline. Allocated at init, so nothing is created inside a captured
        # region.
        self._early_input_ready = [torch.cuda.Event(), torch.cuda.Event()]
        self._early_output_ready = [torch.cuda.Event(), torch.cuda.Event()]
        self._early_pending = [False, False]

    # TODO(bnell): Hack for elastic_ep. Get rid of this
".
Definition SYNC_OLD : string := "            shared_experts_input.record_stream(self._stream)

            # Mark sync start point for the aux stream since we will
            # run in parallel with router/gate.
            self._stream.wait_stream(current_stream())
".
Definition SYNC_NEW : string := "            shared_experts_input.record_stream(self._stream)

            # [glm53-shared-experts-early] Launch here, at the sync point
            # before the gate and the routed dispatch, instead of in forward()
            # after the routed experts. Enqueued last, this work arrives on the
            # aux stream only once the routed experts are already enqueued, so
            # the two do not overlap on a CPU-bound decode step. The events
            # carry the real dependency: the aux stream waits for this tensor,
            # not for the gate or the routed experts.
            _early_idx = self._output_idx
            assert self._output[_early_idx] is None
            self._early_input_ready[_early_idx].record(current_stream())
            with torch.cuda.stream(self._stream):
                self._early_input_ready[_early_idx].wait(self._stream)
                self._output[_early_idx] = self._layer(shared_experts_input)
                self._early_output_ready[_early_idx].record(self._stream)
            self._early_pending[_early_idx] = True
".
Definition FORWARD_OLD : string := "        if order != experts_order:
            return None

        assert self._output[self._output_idx] is None

        if order == SharedExpertsOrder.MULTI_STREAM_OVERLAPPED:
            self._output[self._output_idx] = self._run_in_aux_stream(
                shared_experts_input
            )
        else:
            self._output[self._output_idx] = self._layer(shared_experts_input)
".
Definition FORWARD_NEW : string := "        if order != experts_order:
            return None

        if self._early_pending[self._output_idx]:
            # [glm53-shared-experts-early] Already enqueued on the aux stream at
            # the sync point. Only join it here: the output slot is filled and
            # re-running the layer would duplicate the work.
            self._early_pending[self._output_idx] = False
            self._early_output_ready[self._output_idx].wait(current_stream())
            assert self._output[self._output_idx] is not None
            return

        assert self._output[self._output_idx] is None

        if order == SharedExpertsOrder.MULTI_STREAM_OVERLAPPED:
            self._output[self._output_idx] = self._run_in_aux_stream(
                shared_experts_input
            )
        else:
            self._output[self._output_idx] = self._layer(shared_experts_input)
".

Definition EDITS : list (string * string * string) :=
  [("init", INIT_OLD, INIT_NEW); ("sync", SYNC_OLD, SYNC_NEW); ("forward", FORWARD_OLD, FORWARD_NEW)].

(** ** The patcher *)

(** [_state]; a refusal carries no reason here. *)
Inductive file_state := clean | applied | refuse.
Definition _state (text : string) : file_state :=
  let marks := str_count MARK text in
  if negb ((marks =? 0) || (marks =? length EDITS))%nat then refuse
  else if (marks =? 0)%nat then
    if forallb (fun e => (str_count e.1.2 text =? 1) && (str_count e.2 text =? 0))%nat EDITS then clean else refuse
  else
    if forallb (fun e => (str_count e.1.2 text =? 0) && (str_count e.2 text =? 1))%nat EDITS then applied else refuse.

Section patcher.
Context (parses : string -> bool) (env : environ).

(** [main], on the text of the target. *)
Definition main (text : string) : res (option string) :=
  let flag := environ_get env "GLM53_SHARED_EXPERTS_EARLY" "0" in
  if String.eqb flag "0" then Ok None
  else if negb (String.eqb flag "1") then Raise (SystemExit "must be exactly 0 or 1")
  else
    match _state text with
    | refuse => Raise (SystemExit "refusing to patch")
    | applied => Ok None
    | clean =>
        let patched := fold_left (fun t e => replace_first e.1.2 e.2 t) EDITS text in
        if parses patched then Ok (Some patched) else Raise (SystemExit "patched source does not compile")
    end.

Definition table : list (string * string) := map (fun e => (e.1.2, e.2)) EDITS.

Lemma table_steps text : fold_left (fun t e => replace_first e.1.2 e.2 t) EDITS text = steps table text.
Proof. reflexivity. Qed.

Lemma clean_counts text : _state text = clean ->
  str_count MARK text = 0 /\ str_count INIT_OLD text = 1 /\ str_count SYNC_OLD text = 1 /\ str_count FORWARD_OLD text = 1 /\
  str_in INIT_NEW text = false /\ str_in SYNC_NEW text = false /\ str_in FORWARD_NEW text = false.
Proof.
  unfold _state. destruct (str_count MARK text =? 0)%nat eqn:Em; [| by repeat case_match].
  cbn [orb negb]. destruct (forallb _ _) eqn:E; [| done]. intros _. unfold EDITS in E. cbn [forallb fst snd] in E.
  bool_to_prop. repeat split; try assumption; by apply str_count_zero.
Qed.

(** What the three edits leave is the applied state. *)
Lemma patched_applied text : _state text = clean -> _state (steps table text) = applied.
Proof.
  intros Hc. destruct (clean_counts text Hc) as (Hm & Hi & Hs & Hf & Hi' & Hs' & Hf').
  set (t1 := replace_first INIT_OLD INIT_NEW text). set (t2 := replace_first SYNC_OLD SYNC_NEW t1).
  change (steps table text) with (replace_first FORWARD_OLD FORWARD_NEW t2).
  assert (str_count SYNC_OLD t1 = 1) as Hs1 by (unfold t1; rewrite count_replace_apart; by first [vm_compute | done]).
  assert (str_count FORWARD_OLD t2 = 1) as Hf2
    by (unfold t2, t1; rewrite !count_replace_apart; by first [vm_compute | done]).
  assert (str_in INIT_OLD text = true) as Ii by (by apply count_one_in).
  assert (str_in SYNC_OLD t1 = true) as Is by (by apply count_one_in).
  assert (str_in FORWARD_OLD t2 = true) as If by (by apply count_one_in).
  set (t3 := replace_first FORWARD_OLD FORWARD_NEW t2).
  assert (str_count MARK t3 = 3) as Hmark.
  { unfold t3, t2, t1. rewrite !count_replace_added by first [done | by vm_compute]. by rewrite Hm. }
  assert (str_count INIT_OLD t3 = 0) as Oi.
  { unfold t3, t2. rewrite !count_replace_apart by first [done | by vm_compute].
    apply str_count_zero; [done |]. apply replace_unique_gone; first [done | by vm_compute]. }
  assert (str_count SYNC_OLD t3 = 0) as Os.
  { unfold t3. rewrite count_replace_apart by first [done | by vm_compute].
    apply str_count_zero; [done |]. apply replace_unique_gone; first [done | by vm_compute]. }
  assert (str_count FORWARD_OLD t3 = 0) as Of
    by (apply str_count_zero; [done |]; apply replace_unique_gone; first [done | by vm_compute]).
  assert (str_count INIT_NEW t3 = 1) as Ni.
  { unfold t3, t2. rewrite !count_replace_apart by first [done | by vm_compute]. by apply replace_fresh_once; [by vm_compute | |]. }
  assert (str_count SYNC_NEW t3 = 1) as Ns.
  { unfold t3. rewrite count_replace_apart by first [done | by vm_compute]. apply replace_fresh_once; [by vm_compute | | done].
    apply str_count_zero; [done |]. unfold t1. rewrite count_replace_apart by first [done | by vm_compute]. by apply str_count_zero. }
  assert (str_count FORWARD_NEW t3 = 1) as Nf.
  { apply replace_fresh_once; [by vm_compute | | done]. apply str_count_zero; [done |]. unfold t2, t1.
    rewrite !count_replace_apart by first [done | by vm_compute]. by apply str_count_zero. }
  unfold _state. rewrite Hmark. unfold EDITS. cbn [forallb fst snd length]. by rewrite Oi, Os, Of, Ni, Ns, Nf.
Qed.

#[export] Instance patcher : Patcher main table.
Proof.
  split; unfold main; cbv zeta; intros t t' H; (destruct (String.eqb _ "0") eqn:E0; [done |]);
    (destruct (negb _) eqn:E1; [done |]); (destruct (_state t) eqn:Es; [| done | done]); rewrite table_steps in H;
    (destruct (parses (steps table t)); [| done]); assert (t' = steps table t) as -> by congruence.
  - unfold steps, table, EDITS. cbn [map fold_left fst snd].
    eapply edits_trans; [apply (replace_first_edits table); simpl; tauto |].
    eapply edits_trans; apply (replace_first_edits table); simpl; tauto.
  - by rewrite patched_applied.
Qed.
End patcher.
