(* ===== verification/Overlays.v ===== *)
(** * The overlay stack

    The patchers together, as [start.sh] runs them over the installed vLLM
    sources: every one is idempotent, fails closed and edits exactly its
    anchors; the six that share the scheduler compose in the script's order; and
    the one pair that does not survive a second boot of the same container. *)
From Stdlib Require Import ZArith Lia String Ascii.
From stdpp Require Import base list strings gmap.
From S2P Require Import Prelude PyStr Installer.
From S2P Require Import SitePatch.
From S2P Require Import PatchCache PatchKvConfig PatchRouter PatchKpool PatchMamba PatchIpc.
From S2P Require Import PatchAlignFloor.
From S2P Require Import PatchDecodeFloor.
From S2P Require Import PatchPrefixAdmit.
From S2P Require Import PatchResidentTail.
From S2P Require Import PatchAdaptiveK.
From S2P Require Import PatchHybridHit.
From S2P Require Import PatchRetention.
From S2P Require Import PatchTailBoundary.
Import PatchTailEvict.
Import PatchCacheReset.
Import PatchFineGrained.
Import PatchDraftPage.
Import PatchHotProtect.
From S2P Require Import PatchKvCapacity.
Import PatchModelOverrides.
Import PatchKvMergeAssert.
Import PatchRouterOnce.
From S2P Require Import PatchSharedExperts.
Import PatchRouterGemm.
From S2P Require Import PatchSuppressStops.
Import PatchKpoolSlotmap.
Import PatchMambaGap.
Import PatchKdaRecurrent.
Import PatchShmRecheck.
Import PatchSpinwait.
From S2P Require Import PatchXGrammar.
Import PatchKpoolTail.
From S2P Require Import PatchW28.
From S2P Require Import PatchIndexerWorkspace.
#[local] Open Scope string_scope.

(** ** The stack *)

(** One entry per patched file. *)
Inductive overlay :=
  | DecodeFloorO | AlignFloorO | TailBoundarySchedO | TailBoundaryMgrO | AdaptiveKSchedO | AdaptiveKGraphO
  | PrefixAdmitO | ResidentTailO | HybridHitO | RetentionO | FineGrainedO | DraftPageKvO | DraftPageCoordO
  | TailEvictO | CacheResetO | KvCapacityO
  | ModelOverridesO | KvMergeO | RouterOnceO | SharedExpertsO | RouterGemmO | SuppressStopsO | KpoolSlotmapO | MambaGapO
  | KdaRecurrentO | ShmRecheckO | SpinwaitO | XgBackendO | XgManagerO
  | KpoolKernelO | KpoolHybridO | KpoolIndexerO | KpoolBlockTableO
  | W28InterfaceO | W28RunnerO | W28MambaO | W28Sm120O | WsIndexerO | WsGlmO | WsKpoolO.

Section stack.
Context (parses os_import : string -> bool) (env : environ).

Definition run_overlay (o : overlay) : patch_run :=
  match o with
  | DecodeFloorO => PatchDecodeFloor.main parses os_import
  | AlignFloorO => PatchAlignFloor.main parses os_import
  | TailBoundarySchedO => PatchTailBoundary.main parses env PatchTailBoundary.sched_edits
  | TailBoundaryMgrO => PatchTailBoundary.main parses env PatchTailBoundary.mgr_edits
  | AdaptiveKSchedO => PatchAdaptiveK.patch_scheduler parses
  | AdaptiveKGraphO => PatchAdaptiveK.patch_cudagraph_utils parses
  | PrefixAdmitO => PatchPrefixAdmit.main parses env
  | ResidentTailO => PatchResidentTail.main parses env
  | HybridHitO => PatchHybridHit.main parses
  | RetentionO => PatchRetention.main
  | FineGrainedO => PatchFineGrained.main parses env
  | DraftPageKvO => PatchDraftPage.kv_run parses
  | DraftPageCoordO => PatchDraftPage.coord_run parses
  | TailEvictO => PatchTailEvict.main env
  | CacheResetO => PatchCacheReset.main parses
  | KvCapacityO => PatchKvCapacity.main parses false
  | ModelOverridesO => PatchModelOverrides.main parses
  | KvMergeO => PatchKvMergeAssert.main parses
  | RouterOnceO => PatchRouterOnce.main parses env
  | SharedExpertsO => PatchSharedExperts.main parses env
  | RouterGemmO => PatchRouterGemm.main parses
  | SuppressStopsO => PatchSuppressStops.main parses
  | KpoolSlotmapO => PatchKpoolSlotmap.main parses
  | MambaGapO => PatchMambaGap.main parses
  | KdaRecurrentO => PatchKdaRecurrent.main parses env
  | ShmRecheckO => PatchShmRecheck.main env
  | SpinwaitO => PatchSpinwait.main env
  | XgBackendO => PatchXGrammar.backend_run parses
  | XgManagerO => PatchXGrammar.manager_run parses
  | KpoolKernelO => site_run parses (prepare_optional PatchKpoolTail.kpool_sites)
  | KpoolHybridO => site_run parses (prepare_optional PatchKpoolTail.mamba_sites)
  | KpoolIndexerO => site_run parses (prepare_optional PatchKpoolTail.indexer_sites)
  | KpoolBlockTableO => site_run parses (prepare_optional PatchKpoolTail.blocktable_sites)
  | W28InterfaceO => site_run parses (prepare_marked PatchW28.interface_sites)
  | W28RunnerO => site_run parses (prepare_marked PatchW28.runner_sites)
  | W28MambaO => site_run parses (prepare_marked PatchW28.mamba_sites)
  | W28Sm120O => site_run parses (prepare_marked PatchW28.sm120_sites)
  | WsIndexerO => site_run parses PatchIndexerWorkspace.prepare_indexer
  | WsGlmO => site_run parses PatchIndexerWorkspace.prepare_glm
  | WsKpoolO => site_run parses PatchIndexerWorkspace.prepare_kpool
  end.

Definition overlay_table (o : overlay) : list (string * string) :=
  match o with
  | DecodeFloorO => PatchDecodeFloor.table
  | AlignFloorO => PatchAlignFloor.table
  | TailBoundarySchedO => PatchTailBoundary.sched_edits
  | TailBoundaryMgrO => PatchTailBoundary.mgr_edits
  | AdaptiveKSchedO => PatchAdaptiveK.sched_table
  | AdaptiveKGraphO => PatchAdaptiveK.graph_table
  | PrefixAdmitO => PatchPrefixAdmit.table
  | ResidentTailO => PatchResidentTail.table
  | HybridHitO => PatchHybridHit.table
  | RetentionO => PatchRetention.table
  | FineGrainedO => PatchFineGrained.table
  | DraftPageKvO => PatchDraftPage.kv_table
  | DraftPageCoordO => PatchDraftPage.coord_table
  | TailEvictO => PatchTailEvict.table
  | CacheResetO => PatchCacheReset.table
  | KvCapacityO => PatchKvCapacity.table
  | ModelOverridesO => PatchModelOverrides.table
  | KvMergeO => PatchKvMergeAssert.table
  | RouterOnceO => PatchRouterOnce.table
  | SharedExpertsO => PatchSharedExperts.table
  | RouterGemmO => PatchRouterGemm.table
  | SuppressStopsO => PatchSuppressStops.table
  | KpoolSlotmapO => PatchKpoolSlotmap.table
  | MambaGapO => PatchMambaGap.table
  | KdaRecurrentO => PatchKdaRecurrent.table
  | ShmRecheckO => PatchShmRecheck.table
  | SpinwaitO => PatchSpinwait.table
  | XgBackendO => PatchXGrammar.backend_table
  | XgManagerO => PatchXGrammar.manager_table
  | KpoolKernelO => site_table PatchKpoolTail.kpool_sites
  | KpoolHybridO => site_table PatchKpoolTail.mamba_sites
  | KpoolIndexerO => site_table PatchKpoolTail.indexer_sites
  | KpoolBlockTableO => site_table PatchKpoolTail.blocktable_sites
  | W28InterfaceO => site_table PatchW28.interface_sites
  | W28RunnerO => site_table PatchW28.runner_sites
  | W28MambaO => site_table PatchW28.mamba_sites
  | W28Sm120O => site_table PatchW28.sm120_sites
  | WsIndexerO => site_table PatchIndexerWorkspace.INDEXER_SITES
  | WsGlmO => site_table PatchIndexerWorkspace.glm_sites
  | WsKpoolO => site_table PatchIndexerWorkspace.kpool_sites
  end.

#[export] Instance overlay_patcher o : Patcher (run_overlay o) (overlay_table o).
Proof.
  destruct o.
  - apply PatchDecodeFloor.patcher.
  - apply PatchAlignFloor.patcher.
  - apply PatchTailBoundary.sched_patcher.
  - apply PatchTailBoundary.mgr_patcher.
  - apply PatchAdaptiveK.sched_patcher.
  - apply PatchAdaptiveK.graph_patcher.
  - apply PatchPrefixAdmit.patcher.
  - apply PatchResidentTail.patcher.
  - apply PatchHybridHit.patcher.
  - apply PatchRetention.patcher.
  - apply PatchFineGrained.patcher.
  - apply PatchDraftPage.kv_patcher.
  - apply PatchDraftPage.coord_patcher.
  - apply PatchTailEvict.patcher.
  - apply PatchCacheReset.patcher.
  - apply PatchKvCapacity.patcher.
  - apply PatchModelOverrides.patcher.
  - apply PatchKvMergeAssert.patcher.
  - apply PatchRouterOnce.patcher.
  - apply PatchSharedExperts.patcher.
  - apply PatchRouterGemm.patcher.
  - apply PatchSuppressStops.patcher.
  - apply PatchKpoolSlotmap.patcher.
  - apply PatchMambaGap.patcher.
  - apply PatchKdaRecurrent.patcher.
  - apply PatchShmRecheck.patcher.
  - apply PatchSpinwait.patcher.
  - apply PatchXGrammar.backend_patcher.
  - apply PatchXGrammar.manager_patcher.
  - apply site_patcher, prepare_optional_preparer.
  - apply site_patcher, prepare_optional_preparer.
  - apply site_patcher, prepare_optional_preparer.
  - apply site_patcher, prepare_optional_preparer.
  - apply site_patcher, prepare_marked_preparer; constructor.
  - apply site_patcher, prepare_marked_preparer; constructor.
  - apply site_patcher, prepare_marked_preparer; constructor.
  - apply site_patcher, prepare_marked_preparer; constructor.
  - apply site_patcher, prepare_marked_preparer; constructor.
  - apply site_patcher, prepare_marked_preparer; constructor.
  - apply site_patcher, prepare_marked_preparer; constructor.
Qed.

(** The start script stops at the first failure. *)
Fixpoint boot_stack (os : list overlay) (text : string) : res string :=
  match os with
  | [] => Ok text
  | o :: os' =>
      r ← run_overlay o text;
      boot_stack os' (default text r)
  end.


(** Whatever version of the helper a scheduler carries - none, the v1, v2
    or v3 of an older image, or v3.1 - a decode-floor run that goes on leaves
    the whole v3.1 installation: the helper, the policy and both gates exactly
    once each, no predecessor helper, a text that parses and imports [os]. *)
Theorem decode_floor_converges text after
    (Hgo : boot (run_overlay DecodeFloorO) text = (after, true)) :
  str_count PatchDecodeFloor.HELPER_V31_ONLY after = 1 /\ str_count PatchDecodeFloor.HELPER_POLICY after = 1 /\
  str_count PatchDecodeFloor.RUNNING_NEW after = 1 /\ str_count PatchDecodeFloor.WAITING_NEW after = 1 /\
  str_in PatchDecodeFloor.HELPER_V2_ONLY after = false /\ str_in PatchDecodeFloor.HELPER_V3_ONLY after = false /\
  parses after = true /\ os_import after = true.
Proof.
  assert (exists u, PatchDecodeFloor.validate_v31 parses os_import after = Ok u) as [u H].
  { revert Hgo. unfold boot, run_overlay, PatchDecodeFloor.main. destruct (str_in PatchDecodeFloor.MARK_V31 text).
    - destruct (PatchDecodeFloor.validate_v31 parses os_import text) as [[]|] eqn:E; simpl; [|done].
      intros [= <-]. by exists tt.
    - destruct (PatchDecodeFloor.new_text text) as [t|]; simpl; [|done].
      destruct (PatchDecodeFloor.validate_v31 parses os_import t) as [[]|] eqn:E; simpl; [|done].
      destruct (check_syntax parses t); simpl; [|done]. intros [= <-]. by exists tt. }
  unfold PatchDecodeFloor.validate_v31 in H. do 6 step_ok H.
  apply refuse_if_Ok in E, E0, E1, E2, E3, H. apply check_syntax_Ok in E4.
  apply orb_false_iff in E3 as [? ?]. apply negb_false_iff in H. repeat split; first [assumption | by apply eqb_one].
Qed.

(** The resident tail breaks the decode floor's promise that a v3.1 file is
    a no-op: on every scheduler that carries v3.1 and on which the resident
    tail installs, the next decode-floor run refuses, because the long-prefill
    block its validation looks for has been rewritten.  A second boot of the
    same container therefore stops. *)
Theorem resident_tail_blocks_second_boot text after
    (Hv31 : str_in PatchDecodeFloor.MARK_V31 text = true)
    (Hrt : run_overlay ResidentTailO text = Ok (Some after)) :
  exists e, run_overlay DecodeFloorO after = Raise e.
Proof.
  destruct (PatchResidentTail.resident_tail_writes parses env text after Hrt) as (Hp & Hc & _).
  apply PatchResidentTail.complete_no_lptt in Hc as [Hl _].
  assert (str_in PatchDecodeFloor.MARK_V31 after = true) as Hm.
  { rewrite Hp. unfold PatchResidentTail.patched_text. cbv zeta.
    do 4 (apply replace_survives; [by vm_compute |]). exact Hv31. }
  unfold run_overlay, PatchDecodeFloor.main. rewrite Hm.
  destruct (PatchDecodeFloor.validate_v31 parses os_import after) as [u|e] eqn:E; [exfalso | by exists e].
  unfold PatchDecodeFloor.validate_v31 in E. step_ok E. step_ok E. step_ok E.
  apply refuse_if_Ok, eqb_one in E2.
  rewrite (count_super PatchResidentTail.RUN_LPTT) in E2; [done | by vm_compute | by vm_compute | done].
Qed.

(** ** The patchers of several files *)

Inductive staged := KpoolTailS | W28S | IndexerWorkspaceS | XGrammarS.

(** What each does to its files one by one. *)
Definition staged_plan (s : staged) : list patch_run :=
  match s with
  | KpoolTailS => PatchKpoolTail.plan parses
  | W28S => PatchW28.plan parses
  | IndexerWorkspaceS => PatchIndexerWorkspace.plan parses
  | XGrammarS => PatchXGrammar.plan parses
  end.

(** Their [main]s; a missing target is an error before anything is read. *)
Definition run_staged (s : staged) (texts : list string) : res (list string) :=
  match s, texts with
  | KpoolTailS, [_; _; _; _] => PatchKpoolTail.main parses texts
  | W28S, [_; _; _; _] => PatchW28.main parses texts
  | IndexerWorkspaceS, [indexer; glm; kpool] => PatchIndexerWorkspace.main parses indexer glm kpool
  | XGrammarS, [backend; manager] => PatchXGrammar.main parses backend manager
  | _, _ => Raise (SystemExit "missing")
  end.

Lemma run_staged_stage s texts l :
  length texts = length (staged_plan s) -> run_staged s texts = Ok l <-> stage (staged_plan s) texts = Ok l.
Proof.
  destruct s; destruct texts as [|? [|? [|? [|? [|]]]]]; intros Hl; try discriminate Hl; try done.
  - apply PatchIndexerWorkspace.indexer_main_stages.
  - apply PatchXGrammar.grammar_main_stages.
Qed.

Lemma staged_plan_patchers s : Forall (fun run => exists table, Patcher run table) (staged_plan s).
Proof.
  destruct s; [apply PatchKpoolTail.kpool_plan_patchers | apply PatchW28.w28_plan_patchers
              | apply PatchIndexerWorkspace.indexer_plan_patchers | apply PatchXGrammar.grammar_plan_patchers].
Qed.


End stack.

(** ** A scheduler with the stock anchors *)

(** The anchors of the six scheduler patchers, in the order of the file. *)
Definition pristine : string :=
  PatchDecodeFloor.IMPORT_OLD ++ newline ++ PatchDecodeFloor.needle ++ newline
  ++ PatchPrefixAdmit.INSERT_AT ++ PatchTailBoundary.SCHED_OLD ++ PatchAlignFloor.SPLIT_OLD ++ newline
  ++ PatchResidentTail.RUN_ANCHOR ++ newline ++ PatchDecodeFloor.RUNNING_OLD ++ newline
  ++ PatchPrefixAdmit.ANCHOR ++ newline ++ PatchDecodeFloor.WAITING_OLD ++ newline
  ++ PatchAdaptiveK.SCHED_K_OLD ++ newline ++ PatchAdaptiveK.OBS_OLD ++ newline ++ PatchAdaptiveK.UPD_OLD.

Definition armed : environ :=
  {[ "GLM53_APC_TAIL_FLOOR" := "1"; "GLM53_PREFIX_ADMIT" := "1"; "GLM53_RESIDENT_TAIL" := "1" ]}.

(** The order of [start.sh]. *)
Definition scheduler_stack : list overlay :=
  [DecodeFloorO; AlignFloorO; TailBoundarySchedO; AdaptiveKSchedO; PrefixAdmitO; ResidentTailO].

Definition yes (_ : string) : bool := true.
Definition result_text (r : res string) : string := match r with Ok t => t | Raise _ => "" end.

Definition installed_forms : list string :=
  [PatchDecodeFloor.HELPER_V31_ONLY; PatchDecodeFloor.HELPER_POLICY; PatchAlignFloor.SPLIT_NEW;
   PatchAlignFloor.HELPER; PatchTailBoundary.SCHED_NEW; PatchAdaptiveK.SCHED_HELPER; PatchAdaptiveK.OBS_NEW;
   PatchAdaptiveK.UPD_NEW; PatchPrefixAdmit.CALL; PatchResidentTail.RUN_CALL; PatchResidentTail.RUN_LPTT_NEW;
   PatchResidentTail.WAIT_LPTT_NEW].

(** Every form is in the text exactly once. *)
Definition each_once (forms : list string) (text : string) : bool :=
  forallb (fun f => str_count f text =? 1)%nat forms.

(** The six scheduler patchers compose in the order of the start script: on
    a scheduler holding each stock anchor once, one armed boot succeeds and
    every installed form is in the result exactly once; with the resident tail
    run before the decode floor instead, the boot is refused. *)
Theorem scheduler_stack_composes :
  (each_once installed_forms <$> boot_stack yes yes armed scheduler_stack pristine) = Ok true /\
  is_ok (boot_stack yes yes armed [ResidentTailO; DecodeFloorO] pristine) = false.
Proof. split; vm_compute; reflexivity. Qed.

(** ** Witnesses *)

(** The stock anchors after the decode floor. *)
Definition floored : string := result_text (boot_stack yes yes armed [DecodeFloorO] pristine).

Definition writes (r : res (option string)) : bool :=
  match r with Ok (Some _) => true | _ => false end.

Lemma floor_boots : snd (boot (run_overlay yes yes armed DecodeFloorO) pristine) = true.
Proof. vm_compute. reflexivity. Qed.
Lemma floored_marked : str_in PatchDecodeFloor.MARK_V31 floored = true.
Proof. vm_compute. reflexivity. Qed.
Lemma tail_installs : writes (run_overlay yes yes armed ResidentTailO floored) = true.
Proof. vm_compute. reflexivity. Qed.

Lemma decode_floor_converges_witness :
  exists after, boot (run_overlay yes yes armed DecodeFloorO) pristine = (after, true) /\
    str_count PatchDecodeFloor.HELPER_V31_ONLY after = 1.
Proof.
  pose proof floor_boots as Hgo.
  destruct (boot (run_overlay yes yes armed DecodeFloorO) pristine) as [after go] eqn:E.
  simpl in Hgo. subst go. exists after. split; [reflexivity |].
  exact (proj1 (decode_floor_converges yes yes armed pristine after E)).
Defined.

Lemma resident_tail_blocks_second_boot_witness :
  exists after, run_overlay yes yes armed ResidentTailO floored = Ok (Some after) /\
    exists e, run_overlay yes yes armed DecodeFloorO after = Raise e.
Proof.
  pose proof tail_installs as Hw.
  destruct (run_overlay yes yes armed ResidentTailO floored) as [[after|]|] eqn:E;
    [|discriminate Hw | discriminate Hw].
  exists after. split; [reflexivity |].
  exact (resident_tail_blocks_second_boot yes yes armed floored after floored_marked E).
Defined.

(** The four files of the kpool fixes, each with its stock anchors. *)
Definition kpool_texts : list string :=
  map (fun sites => foldr (fun s t => anchor s ++ newline ++ t) "" sites) PatchKpoolTail.SITES.

