(* ===== verification/RoleTokenCache.v ===== *)
(** * The role token cache

    Model of [overlay/role_token_cache.py]: the segment cache that tokenizes a
    prompt piece by piece between added tokens and remembers the long pieces.
    The Hugging Face tokenizer is a parameter: [tok] is its encoding without
    special tokens and truncation, [stock] the full call of the renderer.
    [sizeof] stands for the sum of [sys.getsizeof] the cache charges an entry.
    The lock is not modelled: calls are atomic. *)
From Stdlib Require Import ZArith Lia Ascii String.
From stdpp Require Import base list gmap strings.
From S2P Require Import Prelude PyStr.
#[local] Open Scope string_scope.
#[local] Open Scope list_scope.
#[local] Open Scope Z_scope.

(** ** Qualification *)

Record added_token := AddedToken {
  content : string;
  single_word : bool;
  at_lstrip : bool;
  at_rstrip : bool;
  normalized : bool
}.

(** One pre-tokenizer: its type and its [add_prefix_space]. *)
Record pre_part := PrePart { pp_type : string; add_prefix_space : option bool }.

Inductive pre_tokenizer :=
  | PreSequence (parts : list pre_part)
  | PreOne (p : pre_part)
  | PreNull.

(** The parts of the backend's JSON the qualification reads; [None] is a null
    [post_processor] or an absent [dropout]. *)
Record tok_config := TokConfig {
  normalizer_null : bool;
  model_type : string;
  dropout : option string;
  pre : pre_tokenizer;
  post_processor : option string;
  added_tokens : list added_token
}.

(** The tokenizer object: [is_fast], its backend's JSON when there is one and it
    parses, and the two switches read on each call. *)
Record tokenizer := Tokenizer {
  is_fast : bool;
  backend : option tok_config;
  split_special_tokens : bool;
  encode_special_tokens : bool
}.

Definition bad_part (p : pre_part) : bool :=
  negb (existsb (String.eqb (pp_type p)) ["Split"; "ByteLevel"])
  || (String.eqb (pp_type p) "ByteLevel" && bool_decide (add_prefix_space p <> Some false)).

Definition bad_token (t : added_token) : bool :=
  String.eqb (content t) "" || single_word t || at_lstrip t || at_rstrip t || normalized t.

(** [sorted(added, key=lambda t: -len(t["content"]))], stable. *)
Fixpoint insert_long (s : string) (l : list string) : list string :=
  match l with
  | [] => [s]
  | x :: l' => if (String.length s <=? String.length x)%nat then x :: insert_long s l' else s :: l
  end.
Definition sort_long (l : list string) : list string := fold_left (fun acc s => insert_long s acc) l [].

(** [_qualify]: the alternatives of the pattern, longest first. *)
Definition _qualify (t : tokenizer) : option (list string) :=
  match backend t with
  | None => None
  | Some c =>
      if negb (is_fast t) then None
      else if negb (normalizer_null c) || negb (String.eqb (model_type c) "BPE")
              || bool_decide (dropout c <> None) then None
      else
        match (match pre c with PreSequence ps => Some ps | PreOne p => Some [p] | PreNull => None end) with
        | None => None
        | Some parts =>
            if bool_decide (parts = []) || existsb bad_part parts then None
            else if from_option (fun p => negb (String.eqb p "ByteLevel")) false (post_processor c) then None
            else if bool_decide (added_tokens c = []) || existsb bad_token (added_tokens c) then None
            else Some (sort_long (map content (added_tokens c)))
        end
  end.

(** ** Segments *)

Section pattern.
Variable pats : list string.

(** The alternative the pattern takes at the head of a text. *)
Definition match_at (s : string) : option string := find (fun p => String.prefix p s) pats.

(** [pattern.finditer(text)]: the text before the first match, then each match
    with the text up to the next one; [skip] is what is left of the last
    match. *)
Fixpoint segments (skip : nat) (s : string) : string * list (string * string) :=
  match s with
  | EmptyString => (EmptyString, [])
  | String c s' =>
      match skip with
      | S k => segments k s'
      | O =>
          match match_at s with
          | Some p => let '(ch, r) := segments (String.length p - 1) s' in (EmptyString, (p, ch) :: r)
          | None => let '(ch, r) := segments 0 s' in (String c ch, r)
          end
      end
  end.

(** The iterations of the loop: each match with the chunk before it; and the
    text after the last match. *)
Fixpoint iterations (ch : string) (r : list (string * string)) : list (string * string) * string :=
  match r with
  | [] => ([], ch)
  | (p, ch') :: r' => let '(its, tail) := iterations ch' r' in ((ch, p) :: its, tail)
  end.
End pattern.

(** ** The cache *)

(** A key is the salt and the chunk. *)
Abbreviation ckey := (option string * string)%type.

(** The ordered dict, oldest first, and the counters. *)
Record cache := Cache {
  entries : list (ckey * (list Z * Z));
  cbytes : Z;
  hits : Z;
  misses : Z
}.

Definition empty_cache : cache := Cache [] 0 0 0.

Definition MIN_CHARS : Z := 1024.
Definition MAX_BYTES : Z := 33554432.
Definition MAX_ENTRIES : nat := 128.

Fixpoint lookup_entry (k : ckey) (l : list (ckey * (list Z * Z))) : option (list Z * Z) :=
  match l with
  | [] => None
  | (k', v) :: l' => if decide (k' = k) then Some v else lookup_entry k l'
  end.

Definition delete_entry (k : ckey) (l : list (ckey * (list Z * Z))) : list (ckey * (list Z * Z)) :=
  base.filter (fun e => e.1 <> k) l.

(** [entries.move_to_end(key)]. *)
Definition move_to_end (k : ckey) (v : list Z * Z) (l : list (ckey * (list Z * Z))) :=
  delete_entry k l ++ [(k, v)].

(** What the caller passes: [add_special_tokens is False], the truncation flag
    and the length limit as given, and whether other keywords are present. *)
Record kwargs := Kwargs {
  add_special_false : bool;
  truncation : option pyval;
  max_length : option pyval;
  other_keys : bool
}.

(** [kwargs.get("truncation", False) not in (False, True)]. *)
Definition bad_truncation (v : option pyval) : bool :=
  match getattr v (VBool false) with
  | VBool _ => false
  | VInt z => negb ((z =? 0) || (z =? 1))
  | _ => true
  end.

(** The limit: [Some None] is no limit, [None] is an unusable one. *)
Definition limit_of (k : kwargs) : option (option Z) :=
  match getattr (max_length k) VNone with
  | VNone => Some None
  | VInt z => if z <? 1 then None else Some (Some z)
  | _ => None
  end.

Section cache_ops.
Context (pattern : option (list string)) (tok : string -> list Z) (sizeof : ckey -> list Z -> Z).
Context (max_bytes : Z) (max_entries : nat).

(** The [while] loop after an insertion: drop the oldest entries. *)
Fixpoint evict (l : list (ckey * (list Z * Z))) (b : Z) : res (list (ckey * (list Z * Z)) * Z) :=
  if (max_bytes <? b) || (max_entries <? length l)%nat then
    match l with
    | [] => Raise KeyError
    | (_, (_, removed)) :: l' => evict l' (b - removed)
    end
  else Ok (l, b).

(** The insertion of one pending entry. *)
Definition store_pending (c : cache) (e : ckey * list Z) : res cache :=
  let '(k, tokens) := e in
  let size := sizeof k tokens in
  if max_bytes <? size then Ok c
  else
    let b := match lookup_entry k (entries c) with
             | Some previous => cbytes c - previous.2 | None => cbytes c end in
    lb ← evict (delete_entry k (entries c) ++ [(k, (tokens, size))]) (b + size);
    mret (Cache lb.1 lb.2 (hits c) (misses c)).

Fixpoint store_all (c : cache) (pending : list (ckey * list Z)) : res cache :=
  match pending with
  | [] => Ok c
  | e :: es => c' ← store_pending c e; store_all c' es
  end.

(** One iteration of the loop over the matches: the chunk through the cache,
    then the separator. *)
Definition step (salt : option string) (acc : cache * list Z * list (ckey * list Z)) (it : string * string)
  : cache * list Z * list (ckey * list Z) :=
  let '(c, ids, pending) := acc in
  let '(chunk, sep) := it in
  let '(c, ids, pending) :=
    if String.eqb chunk "" then (c, ids, pending)
    else
      let k := (salt, chunk) in
      match lookup_entry k (entries c) with
      | None =>
          let tokens := tok chunk in
          (Cache (entries c) (cbytes c) (hits c) (misses c + 1), ids ++ tokens,
           if MIN_CHARS <=? Z.of_nat (String.length chunk) then pending ++ [(k, tokens)] else pending)
      | Some cached =>
          (Cache (move_to_end k cached (entries c)) (cbytes c) (hits c + 1) (misses c),
           ids ++ cached.1, pending)
      end in
  (c, ids ++ tok sep, pending).

(** The admission test at the head of [encode]. *)
Definition inadmissible (t : tokenizer) (text : string) (k : kwargs) : bool :=
  (Z.of_nat (String.length text) <? MIN_CHARS)
  || negb (add_special_false k) || other_keys k || bad_truncation (truncation k)
  || split_special_tokens t || encode_special_tokens t
  || bool_decide (limit_of k = None).

(** [encode]: the ids, or [None] for the stock path; and the cache after. *)
Definition encode (t : tokenizer) (c : cache) (text : string) (k : kwargs) (salt : option string)
  : res (option (list Z) * cache) :=
  match pattern with
  | None => Ok (None, c)
  | Some pats =>
  if inadmissible t text k then Ok (None, c)
  else
    let '(its, tail) := (let '(ch, r) := segments pats 0 text in iterations ch r) in
    match its with
    | [] => Ok (None, c)
    | _ =>
        let '(c1, ids, pending) := fold_left (step salt) its (c, [], []) in
        let ids := if String.eqb tail "" then ids else ids ++ tok tail in
        if truthy (getattr (truncation k) VNone)
           && match limit_of k with Some (Some l) => l <? Z.of_nat (length ids) | _ => false end
        then Ok (None, c1)
        else c2 ← store_all c1 pending; mret (Some ids, c2)
    end
  end.

Context (stock : string -> kwargs -> list Z).

(** [tokenize]. *)
Definition tokenize (t : tokenizer) (c : cache) (text : string) (k : kwargs) (salt : option string)
  : res (list Z * cache) :=
  r ← encode t c text k salt;
  mret (default (stock text k) r.1, r.2).

(** A sequence of requests. *)
Fixpoint serve (t : tokenizer) (c : cache) (reqs : list (string * kwargs * option string))
  : res (list (list Z) * cache) :=
  match reqs with
  | [] => Ok ([], c)
  | (text, k, salt) :: rs =>
      r ← tokenize t c text k salt;
      rest ← serve t r.2 rs;
      mret (r.1 :: rest.1, rest.2)
  end.
End cache_ops.

(** ** Construction and salts *)

(** [make_cache]: the pattern the cache works with ([None] inside: a cache that
    never applies), or no cache at all. *)
Definition make_cache (env : environ) (t : option tokenizer) : res (option (option (list string))) :=
  let raw := environ_get env "GLM53_ROLE_TOKEN_CACHE" "0" in
  if negb (existsb (String.eqb raw) ["0"; "1"]) then Raise RuntimeError
  else match t with
       | None => Ok None
       | Some t => if String.eqb raw "0" then Ok None else Ok (Some (_qualify t))
       end.

(** [with_request_salt]. *)
Definition with_request_salt (prompts : list (gmap string string)) (extras : option (gmap string string))
  : list (gmap string string) :=
  match extras with
  | None => prompts
  | Some e => match e !! "cache_salt" with
              | None => prompts
              | Some salt => map (fun p => <["cache_salt" := salt]> p) prompts
              end
  end.

(** ** Segments and tokens *)

Section segment_facts.
Context (pats : list string) (tok : string -> list Z).
Hypothesis Hpats : Forall (fun p => p <> "") pats.

Lemma match_at_spec s p : match_at pats s = Some p -> p <> "" /\ exists b, s = (p ++ b)%string.
Proof.
  intros [Hin Hp]%find_some. split; [|by apply prefix_spec].
  rewrite List.Forall_forall in Hpats. by apply Hpats.
Qed.

Lemma segments_skip x b : segments pats (String.length x) (x ++ b)%string = segments pats 0 b.
Proof. induction x as [|c x IH]; [by destruct b | exact IH]. Qed.

(** The first match splits the text, and the rest is segmented on its own. *)
Lemma segments_cons s ch p ch' r : segments pats 0 s = (ch, (p, ch') :: r) ->
  p <> "" /\ exists b, s = (ch ++ p ++ b)%string /\ segments pats 0 b = (ch', r).
Proof.
  revert ch. induction s as [|c s IH]; intros ch H; [done |]. cbn [segments] in H.
  destruct (match_at pats (String c s)) as [q|] eqn:E.
  - destruct (match_at_spec _ _ E) as (Hq & b & Hs). destruct q as [|c' q]; [done |].
    injection Hs as -> ->. revert H. replace (String.length (String c' q) - 1)%nat with (String.length q) by (simpl; lia).
    rewrite segments_skip. destruct (segments pats 0 b) as [ch0 r0] eqn:Eb. intros [= <- <- <- <-].
    split; [done |]. exists b. done.
  - destruct (segments pats 0 s) as [ch0 r0] eqn:Es. injection H as <- ->.
    destruct (IH ch0 eq_refl) as (Hp & b & -> & Hb). split; [done |]. by exists b.
Qed.

Lemma segments_nil s ch : segments pats 0 s = (ch, []) -> ch = s.
Proof.
  revert ch. induction s as [|c s IH]; intros ch H; [by injection H |]. cbn [segments] in H.
  destruct (match_at pats (String c s)) as [q|].
  - by destruct (segments pats (String.length q - 1) s).
  - destruct (segments pats 0 s) as [ch0 r0] eqn:Es. injection H as <- ->. f_equal. by apply IH.
Qed.

(** The tokenizer extracts added tokens first: the leftmost match of the pattern
    separates what is before it from what is after. *)
Hypothesis added_tokens_split : forall a p b,
  segments pats 0 (a ++ p ++ b)%string = (a, (p, (segments pats 0 b).1) :: (segments pats 0 b).2) ->
  tok (a ++ p ++ b)%string = tok a ++ tok p ++ tok b.

Definition ids_of (its : list (string * string)) (tail : string) : list Z :=
  flat_map (fun it => tok it.1 ++ tok it.2) its ++ tok tail.

Lemma tok_iterations r s ch : segments pats 0 s = (ch, r) ->
  let '(its, tail) := iterations ch r in tok s = ids_of its tail.
Proof.
  revert s ch. induction r as [|[p ch'] r IH]; intros s ch H; simpl.
  - by rewrite (segments_nil s ch H).
  - pose proof (segments_cons s ch p ch' r H) as (_ & b & -> & Hb).
    specialize (IH b ch' Hb). destruct (iterations ch' r) as [its tail]. unfold ids_of in *. simpl.
    rewrite <- !app_assoc, <- IH. rewrite (app_assoc (tok ch)), <- app_assoc.
    apply added_tokens_split. rewrite Hb. exact H.
Qed.
End segment_facts.

(** ** The cache invariant *)

Section cache_facts.
Context (tok : string -> list Z) (sizeof : ckey -> list Z -> Z).
Context (max_bytes : Z) (max_entries : nat).
Hypothesis Hsize : forall k ts, 0 <= sizeof k ts.
Hypothesis Hmax : 0 <= max_bytes.

Definition sum_sizes (l : list (ckey * (list Z * Z))) : Z := Zsum (map (fun e => e.2.2) l).

(** The entries, their byte count and the two budgets; every entry holds the
    tokens of its chunk. *)
Record cache_ok (c : cache) : Prop := {
  ok_keys : NoDup (entries c).*1;
  ok_bytes : cbytes c = sum_sizes (entries c);
  ok_max : cbytes c <= max_bytes;
  ok_len : (length (entries c) <= max_entries)%nat;
  ok_tok : Forall (fun e => e.2.1 = tok e.1.2 /\ 0 <= e.2.2) (entries c)
}.

Lemma sum_sizes_app l1 l2 : sum_sizes (l1 ++ l2) = sum_sizes l1 + sum_sizes l2.
Proof. unfold sum_sizes. induction l1 as [|e l IH]; simpl; [done |]. lia. Qed.

Lemma sum_sizes_one k v : sum_sizes [(k, v)] = v.2.
Proof. unfold sum_sizes. simpl. lia. Qed.

Lemma lookup_delete k l : NoDup l.*1 ->
  sum_sizes (delete_entry k l) = sum_sizes l - from_option snd 0 (lookup_entry k l).
Proof.
  unfold sum_sizes, delete_entry. induction l as [|[k' v] l IH]; [done |]. simpl.
  intros [Hk Hnd]%list.NoDup_cons. rewrite filter_cons. simpl.
  destruct (decide (k' = k)) as [->|Hn].
  - rewrite decide_False by auto. simpl. rewrite list_filter_all; [lia |].
    intros e He Hek. apply Hk. subst k. by apply list_elem_of_fmap_2.
  - rewrite decide_True by done. simpl. rewrite IH by done. lia.
Qed.

Lemma lookup_entry_in k l v : lookup_entry k l = Some v -> (k, v) ∈ l.
Proof.
  induction l as [|[k' v'] l IH]; simpl; [done |]. case_decide as E.
  - intros [= ->]. subst. constructor.
  - intros H. constructor. by apply IH.
Qed.

Lemma delete_app_NoDup k v l : NoDup l.*1 -> NoDup (delete_entry k l ++ [(k, v)]).*1.
Proof.
  intros Hnd. rewrite fmap_app. apply list.NoDup_app. split; [by apply NoDup_fmap_filter |]. split.
  - intros x (e & -> & He)%list_elem_of_fmap. apply list_elem_of_filter in He as [He _]. simpl.
    by intros ?%list_elem_of_singleton.
  - apply NoDup_singleton.
Qed.

Lemma delete_Forall (P : ckey * (list Z * Z) -> Prop) k l : Forall P l -> Forall P (delete_entry k l).
Proof.
  intros H. apply Forall_forall. intros e [_ He]%list_elem_of_filter. by apply (proj1 (Forall_forall _ _) H).
Qed.

(** The eviction loop ends without emptying an empty dict, on a suffix. *)
Lemma evict_spec l :
  Forall (fun e : ckey * (list Z * Z) => 0 <= e.2.2) l ->
  exists l1 l2, l = l1 ++ l2 /\ evict max_bytes max_entries l (sum_sizes l) = Ok (l2, sum_sizes l2) /\
    sum_sizes l2 <= max_bytes /\ (length l2 <= max_entries)%nat.
Proof.
  induction l as [|[k [ts sz]] l IH]; intros Hf.
  - exists [], []. cbn [evict]. change (sum_sizes []) with 0.
    rewrite (proj2 (Z.ltb_ge max_bytes 0)) by lia. simpl. repeat split; lia.
  - inversion Hf as [|? ? Hsz Hf']; subst. cbn [evict]. case_if.
    + replace (sum_sizes ((k, (ts, sz)) :: l) - sz) with (sum_sizes l) by (unfold sum_sizes; simpl; lia).
      destruct (IH Hf') as (l1 & l2 & -> & He & Hb & Hl). exists ((k, (ts, sz)) :: l1), l2. done.
    + bool_to_prop. exists [], ((k, (ts, sz)) :: l). repeat split; lia.
Qed.

Lemma store_pending_ok c k :
  cache_ok c -> exists c', store_pending sizeof max_bytes max_entries c (k, tok k.2) = Ok c' /\ cache_ok c'.
Proof.
  intros [Hk Hb Hm Hl Ht]. unfold store_pending. cbv zeta. case_if; [by exists c |].
  set (sz := sizeof k (tok k.2)). set (l := delete_entry k (entries c) ++ [(k, (tok k.2, sz))]).
  assert (Forall (fun e : ckey * (list Z * Z) => e.2.1 = tok e.1.2 /\ 0 <= e.2.2) l) as Hlt.
  { apply List.Forall_app. split; [by apply delete_Forall |]. repeat constructor. apply Hsize. }
  assert ((match lookup_entry k (entries c) with Some previous => cbytes c - previous.2
           | None => cbytes c end) + sz = sum_sizes l) as ->.
  { unfold l. rewrite sum_sizes_app, sum_sizes_one, (lookup_delete k _ Hk), Hb. simpl.
    destruct (lookup_entry k (entries c)) as [[ts z]|]; simpl; lia. }
  destruct (evict_spec l) as (l1 & l2 & El & He & Hb2 & Hl2).
  { eapply Forall_impl; [exact Hlt |]. by intros e [_ ?]. }
  rewrite He. simpl. eexists. split; [reflexivity |].
  pose proof (delete_app_NoDup k (tok k.2, sz) (entries c) Hk) as Hnd. fold l in Hnd.
  rewrite El in Hnd, Hlt. rewrite fmap_app in Hnd. apply list.NoDup_app in Hnd as (_ & _ & Hnd).
  apply List.Forall_app in Hlt as [_ Hlt]. by split.
Qed.

Lemma store_all_ok c pending :
  Forall (fun e : ckey * list Z => e.2 = tok e.1.2) pending -> cache_ok c ->
  exists c', store_all sizeof max_bytes max_entries c pending = Ok c' /\ cache_ok c'.
Proof.
  revert c. induction pending as [|[k ts] es IH]; intros c Hf Hc; [by exists c |].
  inversion Hf as [|? ? H1 H2]; subst. simpl in H1. subst ts. cbn [store_all].
  destruct (store_pending_ok c k Hc) as (c1 & -> & Hc1). by apply IH.
Qed.

(** A hit moves the entry to the young end. *)
Lemma move_to_end_ok c k v h m : cache_ok c -> lookup_entry k (entries c) = Some v ->
  cache_ok (Cache (move_to_end k v (entries c)) (cbytes c) h m).
Proof.
  intros [Hk Hb Hm Hl Ht] Hv. pose proof (lookup_delete k _ Hk) as Hd. rewrite Hv in Hd. simpl in Hd.
  assert ((length (delete_entry k (entries c)) < length (entries c))%nat) as Hlen.
  { unfold delete_entry. apply (length_filter_lt _ _ (k, v)); [by apply lookup_entry_in |]. simpl. auto. }
  pose proof (lookup_entry_in _ _ _ Hv) as Hin%list_elem_of_In.
  split; simpl; unfold move_to_end.
  - by apply delete_app_NoDup.
  - rewrite sum_sizes_app, sum_sizes_one, Hd, Hb. lia.
  - done.
  - rewrite length_app. simpl. lia.
  - apply List.Forall_app. split; [by apply delete_Forall |]. repeat constructor;
      rewrite List.Forall_forall in Ht; apply (Ht _ Hin).
Qed.

(** The loop over the matches, on any cache that satisfies the invariant. *)
Hypothesis Htok : tok "" = [].

Lemma steps_ok salt its : forall c ids pending,
  cache_ok c -> Forall (fun e : ckey * list Z => e.2 = tok e.1.2) pending ->
  exists c1 pending1,
    fold_left (step tok salt) its (c, ids, pending)
      = (c1, ids ++ flat_map (fun it => tok it.1 ++ tok it.2) its, pending1) /\
    cache_ok c1 /\ Forall (fun e : ckey * list Z => e.2 = tok e.1.2) pending1.
Proof.
  induction its as [|[chunk sep] its IH]; intros c ids pending Hc Hp.
  { exists c, pending. simpl. by rewrite app_nil_r. }
  cbn [fold_left flat_map fst snd].
  assert (exists c1 pending1, step tok salt (c, ids, pending) (chunk, sep) = (c1, ids ++ tok chunk ++ tok sep, pending1)
    /\ cache_ok c1 /\ Forall (fun e : ckey * list Z => e.2 = tok e.1.2) pending1) as (c1 & p1 & -> & Hc1 & Hp1).
  { unfold step. destruct (String.eqb_spec chunk "") as [->|_]; [by exists c, pending; rewrite Htok |].
    destruct (lookup_entry (salt, chunk) (entries c)) as [v|] eqn:E.
    - eexists _, pending. split; [|split; [by apply move_to_end_ok | done]].
      rewrite <- app_assoc. repeat f_equal.
      destruct (proj1 (Forall_forall _ _) (ok_tok _ Hc) _ (lookup_entry_in _ _ _ E)) as [Ht _]. exact Ht.
    - eexists _, _. split; [by rewrite <- app_assoc |]. split; [by destruct Hc |].
      case_if; [|done]. apply List.Forall_app. by repeat constructor. }
  destruct (IH c1 (ids ++ tok chunk ++ tok sep) p1 Hc1 Hp1) as (c2 & p2 & -> & H2).
  exists c2, p2. by rewrite <- !app_assoc.
Qed.
End cache_facts.

(** ** Qualification gives usable alternatives *)

Lemma insert_long_perm x l : insert_long x l ≡ₚ x :: l.
Proof. induction l as [|y l IH]; simpl; [done |]. case_if; [|done]. rewrite IH. constructor. Qed.

Lemma sort_long_perm l : sort_long l ≡ₚ l.
Proof.
  unfold sort_long. enough (H : forall acc, fold_left (fun a s => insert_long s a) l acc ≡ₚ acc ++ l) by apply (H []).
  induction l as [|x l IH]; intros acc; simpl; [by rewrite app_nil_r |].
  rewrite IH, insert_long_perm. apply Permutation_middle.
Qed.

Lemma _qualify_nonempty t pats : _qualify t = Some pats -> Forall (fun p => p <> "") pats.
Proof.
  unfold _qualify. destruct (backend t) as [c|]; [|done]. case_if; [done |]. case_if; [done |].
  destruct (match pre c with PreSequence ps => _ | _ => _ end) as [ps|]; [|done].
  case_if; [done |]. case_if; [done |].
  destruct (bool_decide (added_tokens c = []) || existsb bad_token (added_tokens c)) eqn:E; [done |]. intros [= <-].
  apply orb_false_iff in E as [_ E]. rewrite sort_long_perm. apply Forall_forall.
  intros x (tk & -> & Ht)%list_elem_of_fmap. apply not_true_iff_false in E. intros Hx. apply E.
  apply existsb_exists. exists tk. split; [by apply list_elem_of_In |]. unfold bad_token. by rewrite Hx.
Qed.

(** ** The whole cache *)

Section serving.
Context (t : tokenizer) (tok : string -> list Z) (sizeof : ckey -> list Z -> Z).
Context (max_bytes : Z) (max_entries : nat) (stock : string -> kwargs -> list Z).

(** What the cache relies on in the Hugging Face tokenizer: nothing encodes to
    nothing; the added tokens of a qualified pipeline are cut out before the
    rest is encoded; and the renderer's call, without special tokens and short
    enough not to be truncated, is the plain encoding. *)
Record hf_tokenizer : Prop := {
  hf_nil : tok "" = [];
  hf_split : forall pats a p b, _qualify t = Some pats ->
    segments pats 0 (a ++ p ++ b)%string = (a, (p, (segments pats 0 b).1) :: (segments pats 0 b).2) ->
    tok (a ++ p ++ b)%string = tok a ++ tok p ++ tok b;
  hf_stock : forall text k limit, add_special_false k = true -> other_keys k = false ->
    limit_of k = Some limit ->
    (truthy (getattr (truncation k) VNone) && match limit with Some l => l <? Z.of_nat (length (tok text)) | None => false end) = false ->
    stock text k = tok text
}.

(** One call: the answer is the stock answer, and the cache stays within its
    budgets. *)
Lemma tokenize_ok c text k salt :
  hf_tokenizer -> (forall k ts, 0 <= sizeof k ts) -> 0 <= max_bytes -> cache_ok tok max_bytes max_entries c ->
  exists c', tokenize (_qualify t) tok sizeof max_bytes max_entries stock t c text k salt = Ok (stock text k, c')
    /\ cache_ok tok max_bytes max_entries c'.
Proof.
  intros [Hnil Hsplit Hstock] Hsize Hmax Hc. unfold tokenize, encode.
  destruct (_qualify t) as [pats|] eqn:Eq; [|by exists c].
  destruct (inadmissible t text k) eqn:Ead; [by exists c |].
  pose proof (_qualify_nonempty t pats Eq) as Hp.
  destruct (segments pats 0 text) as [ch r] eqn:Es.
  pose proof (tok_iterations pats tok Hp (fun a p b => Hsplit pats a p b eq_refl) r text ch Es) as Hids.
  destruct (iterations ch r) as [its tail].
  destruct its as [|it its]; [by exists c |].
  destruct (steps_ok tok max_bytes max_entries Hnil salt (it :: its) c [] []) as (c1 & p1 & -> & Hc1 & Hp1);
    [done | constructor |].
  rewrite app_nil_l.
  assert ((if String.eqb tail "" then flat_map (fun it => tok it.1 ++ tok it.2) (it :: its)
           else flat_map (fun it => tok it.1 ++ tok it.2) (it :: its) ++ tok tail) = tok text) as ->.
  { rewrite Hids. unfold ids_of. destruct (String.eqb_spec tail "") as [->|_]; [|done]. by rewrite Hnil, app_nil_r. }
  destruct (limit_of k) as [limit|] eqn:El; [|by unfold inadmissible in Ead; rewrite El, bool_decide_true, orb_true_r in Ead].
  match goal with |- context [if ?b then _ else _] => destruct b eqn:Eo end; [by exists c1 |].
  destruct (store_all_ok tok sizeof max_bytes max_entries Hsize Hmax c1 p1 Hp1 Hc1) as (c2 & -> & Hc2).
  exists c2. split; [|done]. simpl. rewrite (Hstock text k limit); [done | | | done |].
  1-2: unfold inadmissible in Ead; bool_to_prop; tauto || congruence.
  destruct limit; exact Eo.
Qed.

Lemma serve_ok reqs : hf_tokenizer -> (forall k ts, 0 <= sizeof k ts) -> 0 <= max_bytes -> forall c,
  cache_ok tok max_bytes max_entries c ->
  exists c', serve (_qualify t) tok sizeof max_bytes max_entries stock t c reqs
      = Ok (map (fun r => stock r.1.1 r.1.2) reqs, c') /\ cache_ok tok max_bytes max_entries c'.
Proof.
  intros Hhf Hsize Hmax. induction reqs as [|[[text k] salt] rs IH]; intros c Hc; [by exists c |].
  destruct (tokenize_ok c text k salt Hhf Hsize Hmax Hc) as (c1 & E1 & Hc1).
  destruct (IH c1 Hc1) as (c2 & E2 & Hc2). exists c2. split; [|done].
  cbn [serve]. rewrite E1. cbn [mbind res_bind fst snd]. rewrite E2. done.
Qed.

Lemma empty_cache_ok : 0 <= max_bytes -> cache_ok tok max_bytes max_entries empty_cache.
Proof. split; simpl; [constructor | done | done | lia | constructor]. Qed.
End serving.


(** Budgets: after any requests the byte counter is the sum of the sizes of
    the entries, within the byte budget; there are at most [max_entries] entries,
    with pairwise different keys, each holding the tokens of its own chunk; and the
    eviction loop never pops from an empty dict. *)
Theorem role_cache_bounded t tok sizeof max_bytes max_entries stock reqs :
  hf_tokenizer t tok stock -> (forall k ts, 0 <= sizeof k ts) -> 0 <= max_bytes ->
  exists out c, serve (_qualify t) tok sizeof max_bytes max_entries stock t empty_cache reqs = Ok (out, c) /\
    cbytes c = sum_sizes (entries c) /\ cbytes c <= max_bytes /\ (length (entries c) <= max_entries)%nat /\
    NoDup (entries c).*1 /\ Forall (fun e => e.2.1 = tok e.1.2) (entries c).
Proof.
  intros Hhf Hsize Hmax.
  destruct (serve_ok t tok sizeof max_bytes max_entries stock reqs Hhf Hsize Hmax _
    (empty_cache_ok tok max_bytes max_entries Hmax)) as (c & H & [? ? ? ? Ht]).
  eexists _, c. repeat (split; [eassumption |]). eapply Forall_impl; [exact Ht |]. by intros ? [? _].
Qed.

(** ** A concrete tokenizer: bytes without merges *)

Fixpoint codes (s : string) : list Z :=
  match s with EmptyString => [] | String c s' => Z.of_nat (nat_of_ascii c) :: codes s' end.
Lemma codes_app a b : codes (a ++ b)%string = codes a ++ codes b.
Proof. induction a as [|c a IH]; simpl; [done |]. by rewrite IH. Qed.
Fixpoint rep_char (n : nat) (c : ascii) : string :=
  match n with O => EmptyString | S n' => String c (rep_char n' c) end.

Definition byte_tokenizer : tokenizer := Tokenizer true
  (Some (TokConfig true "BPE" None (PreSequence [PrePart "Split" None; PrePart "ByteLevel" (Some false)])
    (Some "ByteLevel") [AddedToken "<u>" false false false false; AddedToken "<user>" false false false false]))
  false false.
Definition byte_stock (text : string) (k : kwargs) : list Z :=
  if truthy (getattr (truncation k) VNone)
  then match limit_of k with Some (Some l) => firstn (Z.to_nat l) (codes text) | _ => codes text end
  else codes text.
Definition byte_size (k : ckey) (ts : list Z) : Z := 256 + 28 * Z.of_nat (length ts).

Lemma byte_hf : hf_tokenizer byte_tokenizer codes byte_stock.
Proof.
  split; [done | intros; by rewrite !codes_app |].
  intros text k limit _ _ Hl Ho. unfold byte_stock. rewrite Hl.
  destruct (truthy (getattr (truncation k) VNone)); [|done]. destruct limit as [l|]; [|done].
  simpl in Ho. apply Z.ltb_ge in Ho. apply firstn_all2. lia.
Qed.

Definition plain_kwargs : kwargs := Kwargs true (Some (VBool true)) (Some (VInt 4000)) false.
Definition two_requests : list (string * kwargs * option string) :=
  let body := rep_char 1100 "a"%char in
  [(("<user>" ++ body ++ "<u>hi")%string, plain_kwargs, Some "s"); (("<user>" ++ body ++ "<u>there")%string, plain_kwargs, Some "s")].


Lemma role_cache_bounded_witness :
  exists out c, serve (_qualify byte_tokenizer) codes byte_size 40000 1 byte_stock byte_tokenizer empty_cache two_requests = Ok (out, c) /\
    cbytes c = sum_sizes (entries c) /\ cbytes c <= 40000 /\ (length (entries c) <= 1)%nat /\
    NoDup (entries c).*1 /\ Forall (fun e => e.2.1 = codes e.1.2) (entries c).
Proof. apply role_cache_bounded; [exact byte_hf | intros; unfold byte_size; lia | by vm_compute]. Defined.
