(* ===== verification/Stats.v ===== *)
(** * Order statistics and exact binomial counting

    What the measurement scripts use of Python's standard library: [sorted] and
    [statistics.median] on floats (here exact rationals), [math.comb]; and the facts
    behind a distribution-free interval for a median: the order statistics of a
    sample are decided by how many observations lie below a point, and the number
    of sign patterns with at most [k] of them is a partial sum of binomials. *)
From Stdlib Require Import ZArith Lia QArith Lqa Sorted.
From stdpp Require Import base list sorting numbers.
From S2P Require Import Prelude.
#[local] Open Scope Q_scope.
#[local] Open Scope Z_scope.

(** ** Sorting and medians *)

#[export] Instance Qle_decision : RelDecision Qle.
Proof.
  refine (fun x y => match Qle_bool x y as b return Qle_bool x y = b -> _ with
                     | true => fun H => left _ | false => fun H => right _ end eq_refl).
  - by apply Qle_bool_iff.
  - intros Hle%Qle_bool_iff. congruence.
Defined.

#[export] Instance Qle_total : Total Qle.
Proof. intros x y. destruct (Qlt_le_dec x y); [left; by apply Qlt_le_weak | by right]. Qed.

#[export] Instance Qle_transitive : Transitive Qle.
Proof. intros x y z. apply Qle_trans. Qed.

(** [sorted(values)]. *)
Definition sorted (l : list Q) : list Q := merge_sort Qle l.

(** [statistics.median]: its error on no data is a [ValueError]. *)
Definition median (l : list Q) : res Q :=
  let s := sorted l in
  let n := length s in
  if (n =? 0)%nat then Raise ValueError
  else if Nat.odd n then Ok (nth (n / 2) s 0%Q)
  else Ok ((nth (n / 2 - 1) s 0 + nth (n / 2) s 0) / 2)%Q.

(** Strict comparison as the code computes it. *)
Definition Qltb (x y : Q) : bool := negb (Qle_bool y x).

Lemma Qltb_lt x y : Qltb x y = true <-> (x < y)%Q.
Proof.
  unfold Qltb. rewrite negb_true_iff, <- not_true_iff_false, Qle_bool_iff. split.
  - apply Qnot_le_lt.
  - apply Qlt_not_le.
Qed.

Lemma Qltb_ge x y : Qltb x y = false <-> (y <= x)%Q.
Proof. unfold Qltb. rewrite negb_false_iff. apply Qle_bool_iff. Qed.

(** ** Counting *)

Section counting.
Context {A : Type}.

Fixpoint count_if (f : A -> bool) (l : list A) : Z :=
  match l with
  | [] => 0
  | x :: l' => (if f x then 1 else 0) + count_if f l'
  end.

Lemma count_if_app f l1 l2 : count_if f (l1 ++ l2) = count_if f l1 + count_if f l2.
Proof. induction l1 as [|x l IH]; simpl; [done |]. lia. Qed.

Lemma count_if_bounds f l : 0 <= count_if f l <= Z.of_nat (length l).
Proof. induction l as [|x l IH]; simpl; [lia |]. destruct (f x); lia. Qed.

Lemma count_if_ext (f g : A -> bool) l : (forall x, x ∈ l -> f x = g x) -> count_if f l = count_if g l.
Proof.
  induction l as [|x l IH]; intros H; simpl; [done |].
  rewrite (H x), IH; [done | | apply list_elem_of_here]. intros y Hy. apply H. by apply list_elem_of_further.
Qed.

Lemma count_if_mono (f g : A -> bool) l : (forall x, x ∈ l -> f x = true -> g x = true) -> count_if f l <= count_if g l.
Proof.
  induction l as [|x l IH]; intros H; simpl; [done |].
  pose proof (H x (list_elem_of_here x l)) as Hx.
  assert (count_if f l <= count_if g l) by (apply IH; intros y Hy; apply H; by apply list_elem_of_further).
  destruct (f x); [rewrite Hx by done |]; destruct (g x); lia.
Qed.

Lemma count_if_or f g l : count_if (fun x => f x || g x) l <= count_if f l + count_if g l.
Proof. induction l as [|x l IH]; simpl; [done |]. destruct (f x), (g x); simpl; lia. Qed.

Lemma count_if_neg f l : count_if (fun x => negb (f x)) l = Z.of_nat (length l) - count_if f l.
Proof. induction l as [|x l IH]; simpl; [done |]. destruct (f x); simpl; lia. Qed.

Lemma count_if_const (b : bool) l : count_if (fun _ => b) l = if b then Z.of_nat (length l) else 0.
Proof. destruct b; induction l; simpl; lia. Qed.

(** Three classes that share the list out. *)
Lemma count_if_split3 (f g h : A -> bool) l :
  (forall x, x ∈ l -> (if f x then 1 else 0) + (if g x then 1 else 0) + (if h x then 1 else 0) = 1) ->
  count_if f l + count_if g l + count_if h l = Z.of_nat (length l).
Proof.
  induction l as [|x l IH]; intros H; simpl; [done |].
  pose proof (H x (list_elem_of_here x l)).
  assert (count_if f l + count_if g l + count_if h l = Z.of_nat (length l))
    by (apply IH; intros y Hy; apply H; by apply list_elem_of_further). lia.
Qed.

#[export] Instance count_if_perm (f : A -> bool) : Proper (Permutation ==> eq) (count_if f).
Proof. intros l1 l2. induction 1; simpl; lia. Qed.
End counting.

Lemma count_if_map {A B} (g : A -> B) f l : count_if f (map g l) = count_if (fun x => f (g x)) l.
Proof. induction l as [|x l IH]; simpl; [done |]. by rewrite IH. Qed.

(** Pairs, first components outermost. *)
Definition pairs {A B} (l1 : list A) (l2 : list B) : list (A * B) :=
  flat_map (fun a => map (pair a) l2) l1.

Lemma pairs_elem {A B} (l1 : list A) (l2 : list B) p : p ∈ pairs l1 l2 -> p.1 ∈ l1 /\ p.2 ∈ l2.
Proof.
  unfold pairs. intros (a & Ha & Hp)%list_elem_of_In%in_flat_map. apply in_map_iff in Hp as (b & <- & Hb).
  split; by apply list_elem_of_In.
Qed.

Lemma count_pairs_fst {A B} (f : A -> bool) (l1 : list A) (l2 : list B) :
  count_if (fun p => f p.1) (pairs l1 l2) = count_if f l1 * Z.of_nat (length l2).
Proof.
  unfold pairs. induction l1 as [|a l IH]; simpl; [done |].
  rewrite count_if_app, IH, count_if_map. simpl. rewrite count_if_const. destruct (f a); lia.
Qed.

Lemma count_pairs_snd {A B} (f : B -> bool) (l1 : list A) (l2 : list B) :
  count_if (fun p => f p.2) (pairs l1 l2) = Z.of_nat (length l1) * count_if f l2.
Proof.
  unfold pairs. induction l1 as [|a l IH]; simpl; [done |].
  rewrite count_if_app, IH, count_if_map. change (fun x => f (a, x).2) with f. lia.
Qed.

(** ** Order statistics *)

(** The [i]-th smallest value lies below [m] exactly when more than [i] values
    do. *)
Lemma order_statistic_lt s m i : StronglySorted Qle s -> (i < length s)%nat ->
  (nth i s 0 < m)%Q <-> Z.of_nat i < count_if (fun x => Qltb x m) s.
Proof.
  intros Hs. revert i. induction Hs as [|x s Hs IH Hx]; intros i Hi; [simpl in Hi; lia |].
  assert ((m <= x)%Q -> count_if (fun y => Qltb y m) s = 0) as Hnone.
  { intros Hm. rewrite (count_if_ext _ (fun _ => false)); [by rewrite count_if_const |].
    intros y Hy. apply Qltb_ge. rewrite List.Forall_forall in Hx.
    eapply Qle_trans; [exact Hm | apply Hx; by apply list_elem_of_In]. }
  cbn [count_if]. destruct (Qltb x m) eqn:E.
  - apply Qltb_lt in E. pose proof (count_if_bounds (fun y => Qltb y m) s). destruct i as [|i]; simpl.
    + split; [lia | done].
    + simpl in Hi. rewrite IH by lia. lia.
  - apply Qltb_ge in E. rewrite (Hnone E). split; [|lia]. intros Hlt. exfalso.
    destruct i as [|i]; simpl in Hlt; [by apply Qle_not_lt in E |].
    simpl in Hi. apply IH in Hlt; [|lia]. rewrite (Hnone E) in Hlt. lia.
Qed.

Lemma sorted_strongly l : StronglySorted Qle (sorted l).
Proof. apply Sorted_StronglySorted; [apply _ |]. apply (Sorted_merge_sort Qle). Qed.

Lemma sorted_perm l : sorted l ≡ₚ l.
Proof. apply merge_sort_Permutation. Qed.

Lemma sorted_length l : length (sorted l) = length l.
Proof. by rewrite sorted_perm. Qed.

Lemma sorted_Forall (P : Q -> Prop) l : Forall P l -> Forall P (sorted l).
Proof. by rewrite sorted_perm. Qed.

Lemma sorted_nth_lt l m i : (i < length l)%nat ->
  (nth i (sorted l) 0 < m)%Q <-> Z.of_nat i < count_if (fun x => Qltb x m) l.
Proof.
  intros Hi. rewrite order_statistic_lt; [|apply sorted_strongly | by rewrite sorted_length].
  by rewrite (count_if_perm _ _ _ (sorted_perm l)).
Qed.

(** ** Binomial coefficients and sign patterns *)

(** One row of Pascal's triangle from the one before. *)
Fixpoint zip_add (l1 l2 : list Z) : list Z :=
  match l1, l2 with
  | x :: l1', y :: l2' => x + y :: zip_add l1' l2'
  | _, _ => []
  end.
Fixpoint pascal (n : nat) : list Z :=
  match n with O => [1] | S n' => let r := pascal n' in zip_add (0 :: r) (r ++ [0]) end.

(** [math.comb(n, i)]. *)
Definition comb (n i : nat) : Z := nth i (pascal n) 0.

(** [sum(math.comb(n, i) for i in range(k + 1))]. *)
Fixpoint sum_comb (n k : nat) : Z :=
  match k with O => comb n 0 | S k' => sum_comb n k' + comb n (S k') end.

Lemma zip_add_nth l1 l2 i : length l1 = length l2 ->
  nth i (zip_add l1 l2) 0 = nth i l1 0 + nth i l2 0.
Proof.
  revert l2 i. induction l1 as [|x l1 IH]; intros [|y l2] i H; try discriminate H; [by destruct i |].
  destruct i; simpl; [done |]. apply IH. simpl in H. lia.
Qed.

Lemma nth_snoc_zero (l : list Z) i : nth i (l ++ [0]) 0 = nth i l 0.
Proof. revert i. induction l as [|x l IH]; intros [|i]; simpl; try done; by destruct i. Qed.

Lemma comb_0 n : comb n 0 = 1.
Proof.
  unfold comb. induction n as [|n IH]; [done |]. cbn [pascal]. cbv zeta.
  rewrite zip_add_nth by (rewrite length_app; simpl; lia). rewrite nth_snoc_zero, IH. done.
Qed.

Lemma comb_S n i : comb (S n) (S i) = comb n i + comb n (S i).
Proof.
  unfold comb. cbn [pascal]. cbv zeta. rewrite zip_add_nth by (rewrite length_app; simpl; lia).
  by rewrite nth_snoc_zero.
Qed.

Lemma sum_comb_S n k : sum_comb (S n) (S k) = sum_comb n k + sum_comb n (S k).
Proof.
  induction k as [|k IH]; cbn [sum_comb]; rewrite ?comb_S, ?comb_0; [lia |].
  cbn [sum_comb] in IH. rewrite comb_S in IH. lia.
Qed.

(** All sign patterns of [n] observations; [true] is an observation below the
    point of interest. *)
Fixpoint patterns (n : nat) : list (list bool) :=
  match n with
  | O => [[]]
  | S n' => map (cons true) (patterns n') ++ map (cons false) (patterns n')
  end.

Definition occ (b : bool) (p : list bool) : Z := count_if (Bool.eqb b) p.

Lemma patterns_length n : Z.of_nat (length (patterns n)) = 2 ^ Z.of_nat n.
Proof.
  induction n as [|n IH]; [done |]. cbn [patterns]. rewrite length_app, !length_map, !Nat2Z.inj_add, IH.
  rewrite Nat2Z.inj_succ, Z.pow_succ_r by lia. lia.
Qed.

Lemma patterns_elem n p : p ∈ patterns n -> length p = n.
Proof.
  revert p. induction n as [|n IH]; intros p; simpl.
  - by intros ->%list_elem_of_singleton.
  - rewrite list_elem_of_In, in_app_iff, !in_map_iff.
    intros [(q & <- & Hq)|(q & <- & Hq)]; simpl; f_equal; apply IH; by apply list_elem_of_In.
Qed.

Lemma occ_sum p : occ true p + occ false p = Z.of_nat (length p).
Proof. unfold occ. induction p as [|[] p IH]; simpl; lia. Qed.

(** How many patterns have at most [k] signs of one kind. *)
Lemma patterns_at_most b n k :
  count_if (fun p => occ b p <=? Z.of_nat k) (patterns n) = sum_comb n k.
Proof.
  revert k. induction n as [|n IH]; intros k.
  - cbn [patterns count_if]. unfold occ. simpl. rewrite (proj2 (Z.leb_le 0 _)) by lia.
    induction k as [|k IHk]; [done |]. cbn [sum_comb]. rewrite <- IHk. by destruct k.
  - cbn [patterns]. rewrite count_if_app, !count_if_map.
    assert (count_if (fun p => occ b (b :: p) <=? Z.of_nat k) (patterns n)
            = match k with O => 0 | S k' => sum_comb n k' end) as Hin.
    { destruct k as [|k].
      - rewrite (count_if_ext _ (fun _ => false)); [by rewrite count_if_const |].
        intros p _. apply Z.leb_gt. unfold occ. simpl. rewrite eqb_reflx.
        pose proof (count_if_bounds (Bool.eqb b) p). lia.
      - rewrite <- IH. apply count_if_ext. intros p _. unfold occ. simpl. rewrite eqb_reflx.
        destruct (Z.leb_spec (count_if (Bool.eqb b) p) (Z.of_nat k)); [apply Z.leb_le | apply Z.leb_gt]; lia. }
    assert (count_if (fun p => occ b (negb b :: p) <=? Z.of_nat k) (patterns n) = sum_comb n k) as Hout.
    { rewrite <- IH. apply count_if_ext. intros p _. unfold occ. simpl. by destruct b. }
    assert (sum_comb (S n) k = match k with O => 0 | S k' => sum_comb n k' end + sum_comb n k) as ->.
    { destruct k; [cbn [sum_comb]; by rewrite !comb_0 | apply sum_comb_S]. }
    destruct b; simpl in Hout; lia.
Qed.

(** Two observations: the median is their mean. *)
Lemma median_two x y : exists q, median [x; y] = Ok q /\ (q == (x + y) / 2)%Q.
Proof.
  unfold median. rewrite !sorted_length. simpl. eexists. split; [reflexivity |].
  unfold sorted, merge_sort. simpl. destruct (decide (x <= y)%Q); simpl; unfold Qdiv; ring.
Qed.
