(* ===== verification/AuditV149.v ===== *)
(** * The qualification window's judge

    Model of [scripts/audit_v149_qualification.py]: the pre-registered contract, the
    stages of [judge] in their order with every error they append, the per-lane
    medians, spreads and drifts, and the verdict. A receipt is the parsed JSON; the
    probe receipts it names are an argument [fs] from path to content. Floats are
    exact rationals, with the non-finite ones apart; the rounding of the reported
    numbers and the texts of the messages are not modelled. *)
From Stdlib Require Import ZArith Lia QArith Qabs Lqa String.
From stdpp Require Import base list strings numbers.
From S2P Require Import Prelude PyStr Stats.
#[local] Open Scope string_scope.
#[local] Open Scope list_scope.
#[local] Open Scope Q_scope.
#[local] Open Scope Z_scope.

(** ** The registered contract *)

Definition ARMS : list string := ["a"; "b"; "b2"; "a2"].
Definition LANES : list string := ["structured"; "essay"; "hashmap"; "prefill60k"; "prefill240k"].
Definition REQUIRED_RUNS : list (string * Z) :=
  [("structured", 9); ("essay", 9); ("hashmap", 9); ("prefill60k", 5); ("prefill240k", 5)].

(** Non-inferiority floor: the candidate's median over the control's. *)
Definition BANDS : list (string * Q) :=
  [("structured", 97 # 100); ("essay", 95 # 100); ("hashmap", 95 # 100);
   ("prefill60k", 95 # 100); ("prefill240k", 95 # 100)]%Q.
Definition DRIFT_MAX : Q := 5 # 100.
Definition VARIABILITY_MAX : Q := 30 # 100.
Definition ARM_IMAGE : list (string * string) :=
  [("a", "glm53-selfbuild:e3-w3-zfill"); ("b", "glm53-selfbuild:e3-w3-zfill-v149");
   ("b2", "glm53-selfbuild:e3-w3-zfill-v149"); ("a2", "glm53-selfbuild:e3-w3-zfill")].
Definition ARM_EXLLAMAV3 : list (string * string) :=
  [("a", "1.4.7"); ("b", "1.4.9"); ("b2", "1.4.9"); ("a2", "1.4.7")].

(** [d.get(key)] and [d[key]] on a table in insertion order. *)
Fixpoint table_find {A} (k : string) (l : list (string * A)) : option A :=
  match l with
  | [] => None
  | (k', v) :: l' => if String.eqb k' k then Some v else table_find k l'
  end.
Definition table_get {A} (k : string) (l : list (string * A)) : res A :=
  match table_find k l with Some v => Ok v | None => Raise KeyError end.

(** ** The receipt *)

(** A JSON number: finite, or one Python's [json] reads as NaN or infinity;
    [NOther] is a value that is no number. *)
Inductive num := NFin (q : Q) | NNonFinite | NOther.

Record arm_record := ArmRecord {
  image_tag : pyval;
  exllamav3_version : pyval;
  worker_image_tag : pyval;
  worker_exllamav3_version : pyval;
  pool_capacity : pyval;
  preemptions_delta : pyval;
  jit_stamp : pyval
}.

(** A registered block; [b_path] is [None] when it is absent or empty. *)
Record block := Block { b_ok : pyval; b_path : option string }.

Record gates := Gates {
  acceptance_rc : pyval;
  memfree_head_gib : num;
  memfree_worker_gib : num;
  g_capacity_before : pyval;
  g_capacity : pyval;
  jit_stamp_before : pyval;
  g_jit_stamp : pyval
}.

(** The window receipt. An arm whose record is absent or empty is not in [arms];
    [probe_blocks] is [None] when it is absent or no list. *)
Record receipt := Receipt {
  arms : list (string * arm_record);
  probe_blocks : option (list block);
  pool_capacity_before : pyval;
  r_gates : gates;
  probes : list (string * list (string * string))
}.

Record invalid_run := InvalidRun { ir_nan : bool; invalid_reason : string }.
Record probe_run := ProbeRun { tok_s : option num; prefill_tok_s : option num }.

(** A probe receipt. *)
Record probe := Probe {
  kind : pyval;
  any_nan : bool;
  any_cache_hit : bool;
  invalid_runs : list invalid_run;
  p_valid_runs : pyval;
  runs : list probe_run
}.

(** Reading a path: [None] when the file is missing or is no JSON. *)
Abbreviation files := (string -> option probe).

(** One constructor for each message the judge can append. *)
Inductive err :=
  | ArmMissing (arm : string) | WrongImage (arm : string) | WrongVersion (arm : string)
  | WrongWorkerImage (arm : string) | WrongWorkerVersion (arm : string)
  | NoBlocks | BlockIncomplete | BlockFailed | BlockCorrupted
  | NoCapacityBefore | NoArmCapacity (arm : string) | ArmCapacityDiffers (arm : string)
  | NoPreemptionDelta (arm : string) | Preempted (arm : string) | NoArmStamp (arm : string)
  | AcceptanceFailed | MemNotFinite | MemBelowTripwire
  | GateNoCapacityBefore | GateNoCapacity | GateCapacityChanged
  | NoStampBefore | NoStampAfter | StampDiffers
  | ProbeNotRecorded (arm lane : string) | ProbeUnreadable (arm lane : string)
  | WrongKind (arm lane : string) | NaNMarker (arm lane : string) | CacheHit (arm lane : string)
  | ExcludedCorrupted (arm lane : string) | TooFewRuns (arm lane : string) | TooFewValues (arm lane : string)
  | LaneRegressed | WindowUndecided.

(** [v == z] for a JSON value and an integer constant. *)
Definition py_eq_int (v : pyval) (z : Z) : bool :=
  match v with VInt y => y =? z | VBool b => Z.b2z b =? z | _ => false end.

(** [x or ""]. *)
Definition or_empty (v : pyval) : pyval := py_or v (VStr "").

Definition say (b : bool) (e : err) : list err := if b then [e] else [].

(** ** The stages before the lanes *)

(** Arm identity, one arm. *)
Definition identity_errors (r : receipt) (arm : string) : list err :=
  match table_find arm (arms r) with
  | None => [ArmMissing arm]
  | Some record =>
      let image := VStr (default "" (table_find arm ARM_IMAGE)) in
      let version := VStr (default "" (table_find arm ARM_EXLLAMAV3)) in
      say (bool_decide (image_tag record <> image)) (WrongImage arm)
      ++ say (bool_decide (exllamav3_version record <> version)) (WrongVersion arm)
      ++ say (bool_decide (worker_image_tag record <> image)) (WrongWorkerImage arm)
      ++ say (bool_decide (worker_exllamav3_version record <> version)) (WrongWorkerVersion arm)
  end.

(** A registered attempt: its own outcome, and what a failed one left behind. *)
Definition block_errors (fs : files) (b : block) : list err :=
  match b_ok b with
  | VBool true => []
  | ok =>
      (if bool_decide (ok = VNone) then [BlockIncomplete] else [BlockFailed])
      ++ match b_path b with
         | None => []
         | Some path =>
             match fs path with
             | None => []
             | Some payload => map (fun _ => BlockCorrupted) (List.filter ir_nan (invalid_runs payload))
             end
         end
  end.

Definition attempt_errors (fs : files) (r : receipt) : list err :=
  match probe_blocks r with
  | None | Some [] => [NoBlocks]
  | Some bs => flat_map (block_errors fs) bs
  end.

(** Pool, preemptions and stamp of one arm; a missing record reads as empty. *)
Definition empty_arm : arm_record := ArmRecord VNone VNone VNone VNone VNone VNone VNone.
Definition pool_errors (r : receipt) (arm : string) : list err :=
  let record := default empty_arm (table_find arm (arms r)) in
  let before := or_empty (pool_capacity_before r) in
  (if truthy (pool_capacity record)
   then say (truthy before && bool_decide (pool_capacity record <> before)) (ArmCapacityDiffers arm)
   else [NoArmCapacity arm])
  ++ (if bool_decide (preemptions_delta record = VNone) then [NoPreemptionDelta arm]
      else say (negb (py_eq_int (preemptions_delta record) 0)) (Preempted arm))
  ++ say (negb (truthy (jit_stamp record))) (NoArmStamp arm).

Definition window_pool_errors (r : receipt) : list err :=
  say (negb (truthy (or_empty (pool_capacity_before r)))) NoCapacityBefore
  ++ flat_map (pool_errors r) ARMS.

Definition memory_errors (v : num) : list err :=
  match v with
  | NFin q => say (Qltb q (5 # 2)) MemBelowTripwire
  | _ => [MemNotFinite]
  end.

(** A value that must be recorded on both sides and not change. *)
Definition stable_errors (before after : pyval) (nb na changed : err) : list err :=
  say (negb (truthy (or_empty before))) nb
  ++ (if truthy (or_empty after)
      then say (truthy (or_empty before) && bool_decide (or_empty after <> or_empty before)) changed
      else [na]).

Definition gate_errors (g : gates) : list err :=
  say (negb (py_eq_int (acceptance_rc g) 0)) AcceptanceFailed
  ++ memory_errors (memfree_head_gib g) ++ memory_errors (memfree_worker_gib g)
  ++ stable_errors (g_capacity_before g) (g_capacity g) GateNoCapacityBefore GateNoCapacity GateCapacityChanged
  ++ stable_errors (jit_stamp_before g) (g_jit_stamp g) NoStampBefore NoStampAfter StampDiffers.

(** ** One arm on one lane *)

(** [lane_values]: the finite throughputs; [float()] rejects what is no
    number. *)
Fixpoint finite_values (l : list (option num)) : res (list Q) :=
  match l with
  | [] => Ok []
  | None :: l' | Some NNonFinite :: l' => finite_values l'
  | Some (NFin q) :: l' => vs ← finite_values l'; mret (q :: vs)
  | Some NOther :: _ => Raise ValueError
  end.
Definition lane_values (p : probe) (lane : string) : res (list Q) :=
  finite_values (map (if existsb (String.eqb lane) ["structured"; "essay"; "hashmap"] then tok_s else prefill_tok_s) (runs p)).

(** An excluded run that was excluded for its correctness. *)
Definition corrupted (bad : invalid_run) : bool :=
  ir_nan bad || str_in "NaN" (invalid_reason bad) || str_in "locklock" (invalid_reason bad).

Inductive arm_number := NoNumber | NotSettled | Settled (med spread : Q).

Definition Qmaxb (x y : Q) : Q := if Qle_bool y x then x else y.

(** [max(values)] and [min(values)] of sorted data. *)
Definition range_over_median (values : list Q) : res Q :=
  med ← median values;
  let s := sorted values in
  mret (if Qeq_bool med 0 then 0%Q else ((nth (length s - 1) s 0 - nth 0 s 0) / med)%Q).

(** The body of the loop over the arms of a lane: the messages and the number. *)
Definition arm_evidence (fs : files) (r : receipt) (lane arm : string) : res (list err * arm_number) :=
  match table_find lane (default [] (table_find arm (probes r))) with
  | None | Some "" => Ok ([ProbeNotRecorded arm lane], NoNumber)
  | Some path =>
      match fs path with
      | None => Ok ([ProbeUnreadable arm lane], NoNumber)
      | Some p =>
          if bool_decide (kind p <> VStr lane) then Ok ([WrongKind arm lane], NoNumber)
          else if any_nan p then Ok ([NaNMarker arm lane], NoNumber)
          else if any_cache_hit p then Ok ([CacheHit arm lane], NoNumber)
          else
            let bad := map (fun _ => ExcludedCorrupted arm lane) (List.filter corrupted (invalid_runs p)) in
            valid ← py_int (py_or (p_valid_runs p) (VInt 0));
            required ← table_get lane REQUIRED_RUNS;
            if valid <? required then Ok (bad ++ [TooFewRuns arm lane], NoNumber)
            else
              values ← lane_values p lane;
              if Z.of_nat (length values) <? required then Ok (bad ++ [TooFewValues arm lane], NoNumber)
              else
                spread ← range_over_median values;
                med ← median values;
                Ok (bad, if Qltb VARIABILITY_MAX spread then NotSettled else Settled med spread)
      end
  end.

(** The loop over the arms. *)
Fixpoint arms_evidence (fs : files) (r : receipt) (lane : string) (l : list string)
  : res (list err * list (string * arm_number)) :=
  match l with
  | [] => Ok ([], [])
  | arm :: l' =>
      e ← arm_evidence fs r lane arm;
      rest ← arms_evidence fs r lane l';
      mret (e.1 ++ rest.1, (arm, e.2) :: rest.2)
  end.

(** The medians of the arms that settled. *)
Definition settled (l : list (string * arm_number)) : list (string * Q) :=
  omap (fun e => match e.2 with Settled m _ => Some (e.1, m) | _ => None end) l.
Definition unsettled (l : list (string * arm_number)) : list string :=
  omap (fun e => match e.2 with NotSettled => Some e.1 | _ => None end) l.

Fixpoint lanes_evidence (fs : files) (r : receipt) (l : list string)
  : res (list err * list (string * list (string * arm_number))) :=
  match l with
  | [] => Ok ([], [])
  | lane :: l' =>
      e ← arms_evidence fs r lane ARMS;
      rest ← lanes_evidence fs r l';
      mret (e.1 ++ rest.1, (lane, e.2) :: rest.2)
  end.

(** ** Verdicts *)

Inductive lane_verdict := PASS | FAIL | LANE_INCONCLUSIVE.
Inductive verdict := ADOPT | REVERT | INCONCLUSIVE | ABORT.
#[export] Instance lane_verdict_eq_dec : EqDecision lane_verdict.
Proof. solve_decision. Defined.
#[export] Instance verdict_eq_dec : EqDecision verdict.
Proof. solve_decision. Defined.

(** What the judge reports of a lane. *)
Inductive lane_row :=
  | RowUnsettled (arms : list string)
  | RowJudged (control candidate drift b_drift ratio : Q) (v : lane_verdict).

Definition row_verdict (r : lane_row) : lane_verdict :=
  match r with RowUnsettled _ => LANE_INCONCLUSIVE | RowJudged _ _ _ _ _ v => v end.

(** [x / y] on floats. *)
Definition qdiv (x y : Q) : res Q := if Qeq_bool y 0 then Raise ZeroDivisionError else Ok (x / y)%Q.

Definition drift_of (x y : Q) : res Q := qdiv (Qabs (x - y)) (Qmaxb x y).

(** One lane of the last loop. *)
Definition judge_lane (lane : string) (nums : list (string * arm_number)) : res lane_row :=
  let per_arm := settled nums in
  if negb (length per_arm =? length ARMS)%nat then Ok (RowUnsettled (unsettled nums))
  else
    a ← table_get "a" per_arm; a2 ← table_get "a2" per_arm;
    b ← table_get "b" per_arm; b2 ← table_get "b2" per_arm;
    control ← median [a; a2];
    candidate ← median [b; b2];
    drift ← drift_of a a2;
    b_drift ← drift_of b b2;
    ratio ← qdiv candidate control;
    band ← table_get lane BANDS;
    let v := if Qltb DRIFT_MAX drift || Qltb DRIFT_MAX b_drift then LANE_INCONCLUSIVE
             else if Qltb ratio band then FAIL else PASS in
    Ok (RowJudged control candidate drift b_drift ratio v).

(** [worst]: a failed lane wins over an undecided one. *)
Definition worsen (worst : verdict) (v : lane_verdict) : verdict :=
  match v with
  | PASS => worst
  | FAIL => REVERT
  | LANE_INCONCLUSIVE => if bool_decide (worst = REVERT) then worst else INCONCLUSIVE
  end.

Fixpoint judge_lanes (worst : verdict) (l : list (string * list (string * arm_number)))
  : res (verdict * list (string * lane_row)) :=
  match l with
  | [] => Ok (worst, [])
  | (lane, nums) :: l' =>
      row ← judge_lane lane nums;
      rest ← judge_lanes (worsen worst (row_verdict row)) l';
      mret (rest.1, (lane, row) :: rest.2)
  end.

(** [judge]: the verdict, the errors and the lanes. *)
Definition judge (fs : files) (r : receipt) : res (verdict * list err * list (string * lane_row)) :=
  let e1 := flat_map (identity_errors r) ARMS in
  if bool_decide (e1 <> []) then Ok (ABORT, e1, [])
  else
    let e2 := attempt_errors fs r in
    if bool_decide (e2 <> []) then Ok (ABORT, e2, [])
    else
      let e3 := window_pool_errors r in
      if bool_decide (e3 <> []) then Ok (ABORT, e3, [])
      else
        lanes ← lanes_evidence fs r LANES;
        let e4 := gate_errors (r_gates r) ++ lanes.1 in
        if bool_decide (e4 <> []) then Ok (ABORT, e4, [])
        else
          j ← judge_lanes ADOPT lanes.2;
          Ok (j.1, match j.1 with REVERT => [LaneRegressed] | INCONCLUSIVE => [WindowUndecided] | _ => [] end, j.2).

(** [main]'s exit status. *)
Definition exit_status (v : verdict) : Z := if bool_decide (v = ADOPT) then 0 else 1.

(** ** What an ADOPT certifies *)

(** An arm that ran what it was registered to run, on both nodes, on the window's
    own pool, without preemption. *)
Record arm_ready (r : receipt) (arm : string) (rec : arm_record) : Prop := {
  ar_image : image_tag rec = VStr (default "" (table_find arm ARM_IMAGE));
  ar_version : exllamav3_version rec = VStr (default "" (table_find arm ARM_EXLLAMAV3));
  ar_worker_image : worker_image_tag rec = VStr (default "" (table_find arm ARM_IMAGE));
  ar_worker_version : worker_exllamav3_version rec = VStr (default "" (table_find arm ARM_EXLLAMAV3));
  ar_capacity : pool_capacity rec = pool_capacity_before r;
  ar_preemptions : py_eq_int (preemptions_delta rec) 0 = true;
  ar_stamp : truthy (jit_stamp rec) = true
}.

(** The whole window: every arm, every registered attempt, the gates. *)
Record window_ready (r : receipt) : Prop := {
  wr_arms : forall arm, In arm ARMS -> exists rec, table_find arm (arms r) = Some rec /\ arm_ready r arm rec;
  wr_blocks : exists bs, probe_blocks r = Some bs /\ bs <> [] /\ forall b, In b bs -> b_ok b = VBool true;
  wr_capacity : truthy (pool_capacity_before r) = true;
  wr_acceptance : py_eq_int (acceptance_rc (r_gates r)) 0 = true;
  wr_memory : exists q1 q2, memfree_head_gib (r_gates r) = NFin q1 /\ memfree_worker_gib (r_gates r) = NFin q2 /\
    (5 # 2 <= q1)%Q /\ (5 # 2 <= q2)%Q;
  wr_pool : truthy (g_capacity_before (r_gates r)) = true /\ g_capacity (r_gates r) = g_capacity_before (r_gates r);
  wr_stamp : truthy (jit_stamp_before (r_gates r)) = true /\ g_jit_stamp (r_gates r) = jit_stamp_before (r_gates r)
}.

(** A clean probe receipt: right lane, no NaN, no cache hit, no corrupted exclusion,
    enough runs and enough finite values, a settled spread; [m] is its median. *)
Definition arm_clean (fs : files) (r : receipt) (lane arm : string) (m : Q) : Prop :=
  exists path p valid required values sp,
    table_find lane (default [] (table_find arm (probes r))) = Some path /\ path <> "" /\ fs path = Some p /\
    kind p = VStr lane /\ any_nan p = false /\ any_cache_hit p = false /\
    (forall bad, In bad (invalid_runs p) -> corrupted bad = false) /\
    table_find lane REQUIRED_RUNS = Some required /\
    py_int (py_or (p_valid_runs p) (VInt 0)) = Ok valid /\ required <= valid /\
    lane_values p lane = Ok values /\ required <= Z.of_nat (length values) /\
    range_over_median values = Ok sp /\ (sp <= VARIABILITY_MAX)%Q /\ median values = Ok m.

Definition drift_ok (x y : Q) : Prop := ~ (Qmaxb x y == 0)%Q /\ (Qabs (x - y) / Qmaxb x y <= DRIFT_MAX)%Q.

(** A lane whose four arms are clean, whose two arms of each kind agree, and whose
    candidate is not below the band. *)
Definition lane_passes (fs : files) (r : receipt) (lane : string) : Prop :=
  exists a b b2 a2 band,
    arm_clean fs r lane "a" a /\ arm_clean fs r lane "b" b /\
    arm_clean fs r lane "b2" b2 /\ arm_clean fs r lane "a2" a2 /\
    drift_ok a a2 /\ drift_ok b b2 /\ table_find lane BANDS = Some band /\
    ~ ((a + a2) / 2 == 0)%Q /\ (band <= ((b + b2) / 2) / ((a + a2) / 2))%Q.

(** ** Lemmas *)

Lemma flat_map_nil {A B} (f : A -> list B) l : flat_map f l = [] <-> forall x, In x l -> f x = [].
Proof.
  induction l as [|x l IH]; simpl; [by split |]. rewrite app_nil, IH.
  split; [intros [H1 H2] y [<-|Hy]; auto | intros H; split; auto].
Qed.

Lemma say_nil b e : say b e = [] <-> b = false.
Proof. by destruct b. Qed.

Lemma identity_nil r arm : identity_errors r arm = [] <->
  exists rec, table_find arm (arms r) = Some rec /\
    image_tag rec = VStr (default "" (table_find arm ARM_IMAGE)) /\
    exllamav3_version rec = VStr (default "" (table_find arm ARM_EXLLAMAV3)) /\
    worker_image_tag rec = VStr (default "" (table_find arm ARM_IMAGE)) /\
    worker_exllamav3_version rec = VStr (default "" (table_find arm ARM_EXLLAMAV3)).
Proof.
  unfold identity_errors. destruct (table_find arm (arms r)) as [rec|]; [|by split; [|intros (? & ? & _)]].
  rewrite !app_nil, !say_nil, !bool_decide_eq_false. split.
  - intros (H1 & H2 & H3 & H4). exists rec. repeat split; by apply dec_stable.
  - intros (? & [= <-] & H). tauto.
Qed.

Lemma attempts_nil fs r : attempt_errors fs r = [] <->
  exists bs, probe_blocks r = Some bs /\ bs <> [] /\ forall b, In b bs -> b_ok b = VBool true.
Proof.
  unfold attempt_errors. destruct (probe_blocks r) as [[|b bs]|].
  - by split; [|intros (? & [= <-] & ? & _)].
  - rewrite flat_map_nil. split.
    + intros H. exists (b :: bs). split; [done |]. split; [done |]. intros c Hc. specialize (H c Hc).
      unfold block_errors in H. destruct (b_ok c) as [|[]| | |]; try done; exfalso; by destruct (bool_decide _) in H.
    + intros (? & [= <-] & _ & H) c Hc. unfold block_errors. by rewrite (H c Hc).
  - by split; [|intros (? & ? & _)].
Qed.

Lemma or_empty_truthy v : truthy (or_empty v) = truthy v.
Proof. unfold or_empty, py_or. by destruct (truthy v) eqn:E. Qed.
Lemma or_empty_eq v : truthy v = true -> or_empty v = v.
Proof. unfold or_empty, py_or. by intros ->. Qed.

Lemma stable_nil before after nb na changed : stable_errors before after nb na changed = [] <->
  truthy before = true /\ after = before.
Proof.
  unfold stable_errors. rewrite app_nil, say_nil, negb_false_iff, !or_empty_truthy.
  destruct (truthy after) eqn:Ea.
  - rewrite say_nil. split.
    + intros [Hb H]. rewrite Hb, !or_empty_eq in H by done. simpl in H. split; [done |].
      by apply bool_decide_eq_false, dec_stable in H.
    + intros [Hb ->]. split; [done |]. rewrite Hb. simpl. apply bool_decide_eq_false. tauto.
  - split; [by intros [_ ?] | intros [Hb ->]; congruence].
Qed.

Lemma memory_nil v : memory_errors v = [] <-> exists q, v = NFin q /\ (5 # 2 <= q)%Q.
Proof.
  unfold memory_errors. destruct v as [q| |].
  - rewrite say_nil, Qltb_ge. split; [by exists q | by intros (? & [= <-] & ?)].
  - by split; [|intros (? & ? & _)].
  - by split; [|intros (? & ? & _)].
Qed.

Lemma pool_nil r : window_pool_errors r = [] <->
  truthy (pool_capacity_before r) = true /\
  forall arm, In arm ARMS -> let rec := default empty_arm (table_find arm (arms r)) in
    pool_capacity rec = pool_capacity_before r /\ py_eq_int (preemptions_delta rec) 0 = true /\ truthy (jit_stamp rec) = true.
Proof.
  unfold window_pool_errors. rewrite app_nil, say_nil, negb_false_iff, or_empty_truthy, flat_map_nil.
  assert (truthy (pool_capacity_before r) = true -> forall arm, pool_errors r arm = [] <->
    let rec := default empty_arm (table_find arm (arms r)) in
    pool_capacity rec = pool_capacity_before r /\ py_eq_int (preemptions_delta rec) 0 = true /\ truthy (jit_stamp rec) = true) as H.
  { intros Hb arm. unfold pool_errors. cbv zeta. set (rec := default empty_arm (table_find arm (arms r))).
    rewrite !app_nil, say_nil, negb_false_iff, or_empty_truthy, or_empty_eq, Hb by done. simpl.
    destruct (truthy (pool_capacity rec)) eqn:Ec.
    - rewrite say_nil, bool_decide_eq_false. case_bool_decide as Ep.
      + rewrite Ep. split; [by intros (_ & ? & _) | by intros (_ & ? & _)].
      + rewrite say_nil, negb_false_iff. split; [intros (H1 & H2 & H3) | tauto].
        split; [by apply dec_stable | done].
    - split; [by intros [? _] | intros [H _]; congruence]. }
  split; intros [Hb Ha]; (split; [done |]); intros arm Hin; by apply (H Hb), Ha.
Qed.

Lemma gates_nil g : gate_errors g = [] <->
  py_eq_int (acceptance_rc g) 0 = true /\
  (exists q, memfree_head_gib g = NFin q /\ (5 # 2 <= q)%Q) /\ (exists q, memfree_worker_gib g = NFin q /\ (5 # 2 <= q)%Q) /\
  (truthy (g_capacity_before g) = true /\ g_capacity g = g_capacity_before g) /\
  (truthy (jit_stamp_before g) = true /\ g_jit_stamp g = jit_stamp_before g).
Proof. unfold gate_errors. by rewrite !app_nil, say_nil, negb_false_iff, !memory_nil, !stable_nil. Qed.

Lemma table_get_ok {A} k (l : list (string * A)) v : table_get k l = Ok v <-> table_find k l = Some v.
Proof. unfold table_get. destruct (table_find k l); split; congruence. Qed.

(** No message and a number: the receipt is clean. *)
Lemma arm_evidence_clean fs r lane arm m sp :
  arm_evidence fs r lane arm = Ok ([], Settled m sp) -> arm_clean fs r lane arm m.
Proof.
  unfold arm_evidence. destruct (table_find lane _) as [path|] eqn:Epath; [|done].
  destruct path as [|c path]; [done |].
  destruct (fs (String c path)) as [p|] eqn:Efs; [|done].
  case_bool_decide as Ek; [done |]. case_if; [done |]. case_if; [done |].
  intros (valid & Hv & H)%bind_Ok. apply bind_Ok in H as (required & Hr%table_get_ok & H).
  revert H. case_if; [by intros [= ? ?] |]. intros (values & Hvals & H)%bind_Ok.
  revert H. case_if; [by intros [= ? ?] |]. intros (sp' & Hsp & H)%bind_Ok. apply bind_Ok in H as (med & Hmed & H).
  injection H as Hbad H. revert H. case_if; [done |]. intros [= -> ->]. bool_to_prop.
  exists (String c path), p, valid, required, values, sp. repeat (split; [done |]). split.
  - intros bad Hin. apply not_true_iff_false. intros Hc. apply map_eq_nil in Hbad.
    assert (In bad (List.filter corrupted (invalid_runs p))) as Hf by (by apply filter_In). by rewrite Hbad in Hf.
  - repeat (split; [done || lia |]). split; [by apply Qltb_ge | done].
Qed.

Lemma arm_clean_evidence fs r lane arm m :
  arm_clean fs r lane arm m -> exists sp, arm_evidence fs r lane arm = Ok ([], Settled m sp).
Proof.
  intros (path & p & valid & required & values & sp & Hpath & Hne & Hfs & Hk & Hn & Hc & Hbad & Hreq & Hv & Hle & Hvals & Hle2 & Hsp & Hmax & Hmed).
  exists sp. unfold arm_evidence. rewrite Hpath. destruct path as [|c path]; [done |]. rewrite Hfs.
  rewrite bool_decide_eq_false_2 by tauto. rewrite Hn, Hc, Hv. simpl.
  rewrite (proj2 (table_get_ok _ _ _) Hreq). simpl. rewrite (proj2 (Z.ltb_ge _ _) Hle), Hvals. simpl.
  rewrite (proj2 (Z.ltb_ge _ _) Hle2), Hsp. simpl. rewrite Hmed. simpl. rewrite (proj2 (Qltb_ge _ _) Hmax).
  assert (List.filter corrupted (invalid_runs p) = []) as ->; [|done].
  destruct (List.filter corrupted (invalid_runs p)) as [|bad l] eqn:E; [done |]. exfalso.
  assert (In bad (List.filter corrupted (invalid_runs p))) as Hin by (rewrite E; by left).
  apply filter_In in Hin as [Hin Hbc]. rewrite (Hbad bad Hin) in Hbc. done.
Qed.

Lemma arms_evidence_four fs r lane es nums : arms_evidence fs r lane ARMS = Ok (es, nums) <->
  exists e1 e2 e3 e4, arm_evidence fs r lane "a" = Ok e1 /\ arm_evidence fs r lane "b" = Ok e2 /\
    arm_evidence fs r lane "b2" = Ok e3 /\ arm_evidence fs r lane "a2" = Ok e4 /\
    es = e1.1 ++ e2.1 ++ e3.1 ++ e4.1 /\ nums = [("a", e1.2); ("b", e2.2); ("b2", e3.2); ("a2", e4.2)].
Proof.
  unfold ARMS. cbn [arms_evidence]. split.
  - destruct (arm_evidence fs r lane "a") as [e1|]; [|done]. destruct (arm_evidence fs r lane "b") as [e2|]; [|done].
    destruct (arm_evidence fs r lane "b2") as [e3|]; [|done]. destruct (arm_evidence fs r lane "a2") as [e4|]; [|done].
    simpl. rewrite app_nil_r. intros [= <- <-]. by exists e1, e2, e3, e4.
  - intros (e1 & e2 & e3 & e4 & -> & -> & -> & -> & -> & ->). simpl. by rewrite app_nil_r.
Qed.

Lemma qdiv_spec x y q : qdiv x y = Ok q <-> ~ (y == 0)%Q /\ q = (x / y)%Q.
Proof.
  unfold qdiv. destruct (Qeq_bool y 0) eqn:E.
  - apply Qeq_bool_eq in E. by split; [|intros [? _]].
  - apply Qeq_bool_neq in E. split; [intros [= <-]; done | by intros [_ ->]].
Qed.

Lemma drift_of_ok x y : (exists d, drift_of x y = Ok d /\ Qltb DRIFT_MAX d = false) <-> drift_ok x y.
Proof.
  unfold drift_of, drift_ok. split.
  - intros (d & [Hz ->]%qdiv_spec & Hd%Qltb_ge). done.
  - intros [Hz Hd]. eexists. split; [by apply qdiv_spec | by apply Qltb_ge].
Qed.

(** A lane passes exactly when its four arms settled, agree and clear the band. *)
Lemma judge_lane_pass lane x1 x2 x3 x4 :
  (exists row, judge_lane lane [("a", x1); ("b", x2); ("b2", x3); ("a2", x4)] = Ok row /\ row_verdict row = PASS) <->
  exists a b b2 a2 s1 s2 s3 s4 band,
    x1 = Settled a s1 /\ x2 = Settled b s2 /\ x3 = Settled b2 s3 /\ x4 = Settled a2 s4 /\
    drift_ok a a2 /\ drift_ok b b2 /\ table_find lane BANDS = Some band /\
    ~ ((a + a2) / 2 == 0)%Q /\ (band <= ((b + b2) / 2) / ((a + a2) / 2))%Q.
Proof.
  split.
  - intros (row & H & Hv). destruct x1 as [| |a s1], x2 as [| |b s2], x3 as [| |b2 s3], x4 as [| |a2 s4];
      try (injection H as <-; done).
    unfold judge_lane in H. cbn [settled length ARMS] in H.
    destruct (median_two a a2) as (c & Ec & Qc), (median_two b b2) as (k & Ek & Qk).
    change (table_get "a" _) with (Ok a) in H. cbv beta zeta in H. simpl in H.
    rewrite Ec, Ek in H. simpl in H.
    apply bind_Ok in H as (d1 & E1 & H). apply bind_Ok in H as (d2 & E2 & H).
    apply bind_Ok in H as (ratio & [Hz ->]%qdiv_spec & H). apply bind_Ok in H as (band & Hb%table_get_ok & H).
    injection H as <-. simpl in Hv. case_if_in Hv; [done |]. case_if_in Hv; [done |]. bool_to_prop.
    exists a, b, b2, a2, s1, s2, s3, s4, band. repeat (split; [done |]).
    split; [apply drift_of_ok; by exists d1 |]. split; [apply drift_of_ok; by exists d2 |]. split; [done |].
    rewrite <- Qc, <- Qk. split; [done | by apply Qltb_ge].
  - intros (a & b & b2 & a2 & s1 & s2 & s3 & s4 & band & -> & -> & -> & -> & D1 & D2 & Hb & Hz & Hr).
    apply drift_of_ok in D1 as (d1 & E1 & F1). apply drift_of_ok in D2 as (d2 & E2 & F2).
    destruct (median_two a a2) as (c & Ec & Qc), (median_two b b2) as (k & Ek & Qk).
    rewrite <- Qc in Hz. rewrite <- Qc, <- Qk in Hr.
    unfold judge_lane. simpl. rewrite Ec, Ek. simpl. rewrite E1, E2. simpl.
    rewrite (proj2 (qdiv_spec k c _) (conj Hz eq_refl)). simpl. rewrite (proj2 (table_get_ok _ _ _) Hb). simpl.
    eexists. split; [reflexivity |]. simpl. rewrite F1, F2, (proj2 (Qltb_ge _ _) Hr). done.
Qed.

Lemma one_lane_pass fs r lane :
  (exists nums row, arms_evidence fs r lane ARMS = Ok ([], nums) /\ judge_lane lane nums = Ok row /\ row_verdict row = PASS)
  <-> lane_passes fs r lane.
Proof.
  split.
  - intros (nums & row & (e1 & e2 & e3 & e4 & H1 & H2 & H3 & H4 & Hes & ->)%arms_evidence_four & Hj & Hv).
    symmetry in Hes. rewrite !app_nil in Hes. destruct Hes as (N1 & N2 & N3 & N4).
    destruct e1 as [? x1], e2 as [? x2], e3 as [? x3], e4 as [? x4]. simpl in *. subst.
    destruct (proj1 (judge_lane_pass lane x1 x2 x3 x4)) as
      (a & b & b2 & a2 & s1 & s2 & s3 & s4 & band & -> & -> & -> & -> & Hrest); [by exists row |].
    exists a, b, b2, a2, band. split; [|split; [|split; [|split; [|exact Hrest]]]]; by eapply arm_evidence_clean.
  - intros (a & b & b2 & a2 & band & C1 & C2 & C3 & C4 & Hrest).
    apply arm_clean_evidence in C1 as [s1 C1], C2 as [s2 C2], C3 as [s3 C3], C4 as [s4 C4].
    destruct (proj2 (judge_lane_pass lane (Settled a s1) (Settled b s2) (Settled b2 s3) (Settled a2 s4))) as (row & Hj & Hv).
    { by exists a, b, b2, a2, s1, s2, s3, s4, band. }
    eexists _, row. split; [|split; [exact Hj | exact Hv]]. apply arms_evidence_four.
    by exists ([], Settled a s1), ([], Settled b s2), ([], Settled b2 s3), ([], Settled a2 s4).
Qed.

(** A verdict other than ADOPT is never taken back. *)
Lemma judge_lanes_adopt w l rows : judge_lanes w l = Ok (ADOPT, rows) -> w = ADOPT.
Proof.
  revert w rows. induction l as [|[lane nums] l IH]; intros w rows; simpl; [by intros [= ->] |].
  intros (row & _ & H)%bind_Ok. apply bind_Ok in H as ([w' rows'] & H & E). injection E as -> _.
  apply IH in H. destruct (row_verdict row); simpl in H; [done | done |]. by case_bool_decide.
Qed.

Lemma lanes_pass fs r l :
  (exists ls rows, lanes_evidence fs r l = Ok ([], ls) /\ judge_lanes ADOPT ls = Ok (ADOPT, rows))
  <-> forall lane, In lane l -> lane_passes fs r lane.
Proof.
  induction l as [|lane l IH].
  - split; [done |]. intros _. by exists [], [].
  - split.
    + intros (ls & rows & H & Hj). cbn [lanes_evidence] in H.
      apply bind_Ok in H as ([es nums] & H1 & H). apply bind_Ok in H as ([es' ls'] & H2 & H).
      simpl in H. apply Ok_inj in H. injection H as Hes <-. apply app_nil in Hes as [-> ->].
      cbn [judge_lanes] in Hj. apply bind_Ok in Hj as (row & Hrow & Hj). apply bind_Ok in Hj as ([w rows'] & Hj & E).
      injection E as -> <-. pose proof (judge_lanes_adopt _ _ _ Hj) as Hw. rewrite Hw in Hj.
      assert (row_verdict row = PASS) as Hp by (by destruct (row_verdict row)).
      intros lane' [<-|Hin]; [apply one_lane_pass; by exists nums, row |]. apply IH; [by exists ls', rows' | done].
    + intros H. destruct (proj2 IH) as (ls & rows & H2 & Hj2); [intros; apply H; by right |].
      destruct (proj2 (one_lane_pass fs r lane) (H lane (or_introl eq_refl))) as (nums & row & H1 & Hrow & Hp).
      exists ((lane, nums) :: ls), ((lane, row) :: rows). split.
      * cbn [lanes_evidence]. rewrite H1. simpl. rewrite H2. done.
      * cbn [judge_lanes]. rewrite Hrow. simpl. rewrite Hp. simpl. rewrite Hj2. done.
Qed.

Lemma window_ready_nil fs r : window_ready r <->
  flat_map (identity_errors r) ARMS = [] /\ attempt_errors fs r = [] /\ window_pool_errors r = [] /\ gate_errors (r_gates r) = [].
Proof.
  rewrite flat_map_nil, attempts_nil, pool_nil, gates_nil. split.
  - intros [Ha Hb Hc Hacc (q1 & q2 & M1 & M2 & L1 & L2) Hp Hs]. split; [|split; [done |split; [split; [done |] |]]].
    + intros arm Hin. apply identity_nil. destruct (Ha arm Hin) as (rec & Hf & []). by exists rec.
    + intros arm Hin. destruct (Ha arm Hin) as (rec & Hf & []). by rewrite Hf.
    + split; [done |]. split; [by exists q1 |]. split; [by exists q2 | done].
  - intros (Ha & Hb & (Hc & Hpool) & Hacc & (q1 & M1 & L1) & (q2 & M2 & L2) & Hp & Hs). split; try done.
    + intros arm Hin. pose proof (Ha arm Hin) as Hid. apply identity_nil in Hid. destruct Hid as (rec & Hf & H1 & H2 & H3 & H4).
      exists rec. split; [done |]. specialize (Hpool arm Hin). rewrite Hf in Hpool. simpl in Hpool. split; tauto.
    + by exists q1, q2.
Qed.

(** What ADOPT certifies: the judge returns it exactly when every arm ran the
    registered image and version on both nodes on the window's pool without
    preemption, every registered attempt completed, the gates hold after the
    restore, and every lane has four clean, settled arms that agree pairwise and a
    candidate at or above its band. *)
Theorem adopt_iff fs r :
  (exists rows, judge fs r = Ok (ADOPT, [], rows)) <->
  window_ready r /\ forall lane, In lane LANES -> lane_passes fs r lane.
Proof.
  rewrite (window_ready_nil fs r), <- lanes_pass. unfold judge. split.
  - intros (rows & H). case_bool_decide as E1; [done |].
    revert H. case_bool_decide as E2; [done |].
    case_bool_decide as E3; [done |]. intros ([es ls] & Hl & H)%bind_Ok. simpl in H.
    revert H. case_bool_decide as E4; [done |]. apply app_nil in E4 as [E4 ->].
    intros ([w rows'] & Hj & H)%bind_Ok. simpl in H. injection H as -> _ ->.
    split; [done | by exists ls, rows].
  - intros ((E1 & E2 & E3 & E4) & ls & rows & Hl & Hj). exists rows.
    rewrite E1, E2, E3, Hl. simpl. rewrite E4. simpl. rewrite Hj. done.
Qed.

(** ** A window that adopts, and what undoes it *)

Definition good_arm (arm : string) : arm_record :=
  let image := VStr (default "" (table_find arm ARM_IMAGE)) in
  let version := VStr (default "" (table_find arm ARM_EXLLAMAV3)) in
  ArmRecord image version image version (VStr "2,345,678 tokens") (VInt 0) (VStr "f00d").
Definition good_window : receipt :=
  Receipt (map (fun arm => (arm, good_arm arm)) ARMS) (Some [Block (VBool true) None]) (VStr "2,345,678 tokens")
    (Gates (VInt 0) (NFin (31 # 10)) (NFin (3 # 1)) (VStr "2,345,678 tokens") (VStr "2,345,678 tokens") (VStr "f00d") (VStr "f00d"))
    (map (fun arm => (arm, map (fun lane => (lane, arm ++ ":" ++ lane)%string) LANES)) ARMS).

(** Nine runs of each lane: candidate arms read [c], control arms 40 tok/s. *)
Definition window_files (c : Q) : files := fun path =>
  let lane := default "" (find (fun l => str_in (":" ++ l) path) LANES) in
  let q := if str_in "b" (substring 0 1 path) then c else 40 # 1 in
  Some (Probe (VStr lane) false false [] (VInt 9) (repeat (ProbeRun (Some (NFin q)) (Some (NFin q))) 9)).

Definition verdict_of (r : res (verdict * list err * list (string * lane_row))) : option (verdict * list err) :=
  match r with Ok (v, e, _) => Some (v, e) | Raise _ => None end.

Example window_adopts : verdict_of (judge (window_files (39 # 1)) good_window) = Some (ADOPT, []).
Proof. vm_compute. reflexivity. Qed.
Example window_reverts : verdict_of (judge (window_files (37 # 1)) good_window) = Some (REVERT, [LaneRegressed]).
Proof. vm_compute. reflexivity. Qed.

(** A failed attempt aborts the window though its clean retry is the one selected. *)
Example failed_attempt_aborts :
  verdict_of (judge (window_files (39 # 1))
    (Receipt (arms good_window) (Some [Block (VBool false) None; Block (VBool true) None]) (pool_capacity_before good_window)
      (r_gates good_window) (probes good_window))) = Some (ABORT, [BlockFailed]).
Proof. vm_compute. reflexivity. Qed.

(** Control arms whose medians are 0 tok/s: no verdict, a division by zero. *)
Example zero_control_raises :
  judge (fun path => if str_in "b" (substring 0 1 path) then window_files (39 # 1) path
    else match window_files (39 # 1) path with
         | Some p => Some (Probe (kind p) false false [] (VInt 9) (repeat (ProbeRun (Some (NFin 0)) (Some (NFin 0))) 9))
         | None => None end) good_window = Raise ZeroDivisionError.
Proof. vm_compute. reflexivity. Qed.
