(* ===== verification/DiagnoseV149.v ===== *)
(** * The paired diagnostic's statistics

    Model of the statistics and the verdicts of [scripts/diagnose_v149_ab.py], with
    the bands of [scripts/audit_v149_qualification.py]: the distribution-free
    interval for a median, the ratio of two medians, the verdict of a lane and of
    the whole diagnostic. Floats are exact rationals. *)
From Stdlib Require Import ZArith Lia QArith Lqa Qabs String.
From stdpp Require Import base list strings numbers.
From S2P Require Import Prelude Stats AuditV149.
#[local] Open Scope string_scope.
#[local] Open Scope list_scope.
#[local] Open Scope Q_scope.
#[local] Open Scope Z_scope.

(** ** The requested levels *)

Definition MIN_LEVEL : Q := 95 # 100.
Definition ARM_LEVEL : Q := (1 - (1 - MIN_LEVEL) / 2)%Q.
Definition STALL_FRACTION : Q := 1 # 2.

(** ** The interval *)

(** [_binomial_cdf]. *)
Definition _binomial_cdf (k : Z) (n : nat) : Q :=
  if k <? 0 then 0%Q
  else if Z.of_nat n <=? k then 1%Q
  else (inject_Z (sum_comb n (Z.to_nat k)) / inject_Z (2 ^ Z.of_nat n))%Q.

(** What [median_ci] returns; [None] is Python's [None] or an absent key. *)
Record ci := Ci {
  low : option Q;
  high : option Q;
  level : option Q;
  ci_n : nat;
  order_statistic : option nat
}.

(** The loop [for candidate in range(n)]: [left] candidates remain. *)
Fixpoint tail_index (n : nat) (alpha : Q) (left candidate k : nat) : nat :=
  match left with
  | O => k
  | S left' =>
      if Qle_bool (_binomial_cdf (Z.of_nat candidate) n) alpha
      then tail_index n alpha left' (S candidate) candidate
      else k
  end.

(** [median_ci]. *)
Definition median_ci (values : list Q) (lvl : Q) : ci :=
  let clean := sorted values in
  let n := length clean in
  if (n =? 0)%nat then Ci None None None 0 None
  else if (n =? 1)%nat then Ci (Some (nth 0 clean 0%Q)) (Some (nth 0 clean 0%Q)) None 1 None
  else
    let alpha := ((1 - lvl) / 2)%Q in
    let k := tail_index n alpha n 0 0 in
    let achieved := (1 - 2 * _binomial_cdf (Z.of_nat k) n)%Q in
    Ci (Some (nth k clean 0%Q)) (Some (nth (n - 1 - k) clean 0%Q)) (Some achieved) n (Some (S k)).

(** [min_runs_for_level]: the loop over [range(2, 128)]. *)
Fixpoint min_runs_loop (lvl : Q) (left n : nat) : nat :=
  match left with
  | O => 128
  | S left' =>
      let arm_level := (1 - (1 - lvl) / 2)%Q in
      match level (median_ci (map (fun i => inject_Z (Z.of_nat i)) (seq 0 n)) arm_level) with
      | Some l => if Qle_bool lvl (2 * l - 1) then n else min_runs_loop lvl left' (S n)
      | None => min_runs_loop lvl left' (S n)
      end
  end.
Definition min_runs_for_level (lvl : Q) : nat := min_runs_loop lvl 126 2.

(** ** A lane *)

(** The descriptive fields of a lane with a median. *)
Record spread := Spread {
  s_min : Q;
  s_max : Q;
  mad : Q;
  mad_over_median : Q;
  stall_threshold : Q;
  stall_count : nat;
  stall_fraction : Q;
  registered_spread : Q;
  registered_settled : bool
}.

Record lane := Lane {
  valid_runs : nat;
  l_median : option Q;
  descr : option spread;
  l_ci : ci
}.

(** [lane_stats]. *)
Definition lane_stats (values : list Q) (lvl : Q) : res lane :=
  let clean := sorted values in
  let n := length clean in
  if (n =? 0)%nat then Ok (Lane 0 None None (median_ci [] (95 # 100)))
  else
    med ← median clean;
    if Qeq_bool med 0 then Ok (Lane n None None (median_ci clean (95 # 100)))
    else
      mad ← median (map (fun v => Qabs (v - med)) clean);
      let stalls := base.filter (fun v => Is_true (Qltb v (STALL_FRACTION * med))) clean in
      let first := nth 0 clean 0%Q in
      let last := nth (n - 1) clean 0%Q in
      let sp := ((last - first) / med)%Q in
      mret (Lane n (Some med)
        (Some (Spread first last mad (mad / med) (STALL_FRACTION * med) (length stalls)
          (inject_Z (Z.of_nat (length stalls)) / inject_Z (Z.of_nat n)) sp (Qle_bool sp VARIABILITY_MAX)))
        (median_ci clean lvl)).

(** One run of a probe receipt. *)
Record run := Run { tok_s : option Q; prefill_tok_s : option Q }.

(** [run_values]. *)
Definition run_values (kind : string) (runs : list run) : list Q :=
  omap (if String.prefix "prefill" kind then prefill_tok_s else tok_s) runs.

(** ** Verdicts *)

Inductive verdict := NonInferior | Regressed | Inconclusive | Unmeasurable.
#[export] Instance verdict_eq_dec : EqDecision verdict.
Proof. solve_decision. Defined.

Record row := Row {
  r_lane : string;
  band : Q;
  ratio : option Q;
  ratio_ci_low : option Q;
  ratio_ci_high : option Q;
  ratio_ci_level : option Q;
  r_verdict : verdict
}.

(** [not x] for [x : float | None]. *)
Definition falsy (x : option Q) : bool := from_option (fun q => Qeq_bool q 0) true x.

Definition Qminb (x y : Q) : Q := if Qle_bool x y then x else y.

(** [compare_lane]. *)
Definition compare_lane (l : string) (control candidate : lane) : res row :=
  band ← table_get l BANDS;
  match l_median control, l_median candidate with
  | Some a, Some b =>
      if falsy (Some a) || falsy (Some b) then Ok (Row l band None None None None Unmeasurable)
      else
        ratio ← qdiv b a;
        match level (l_ci control), level (l_ci candidate),
              low (l_ci control), high (l_ci control), low (l_ci candidate), high (l_ci candidate) with
        | Some la, Some lb, Some alo, Some ahi, Some blo, Some bhi =>
            let composed := (2 * Qminb la lb - 1)%Q in
            lo ← qdiv blo ahi;
            hi ← qdiv bhi alo;
            let v := if Qltb composed MIN_LEVEL then Inconclusive
                     else if Qle_bool band lo then NonInferior
                     else if Qltb hi band then Regressed
                     else Inconclusive in
            Ok (Row l band (Some ratio) (Some lo) (Some hi) (Some composed) v)
        | _, _, _, _, _, _ => Ok (Row l band (Some ratio) None None None Inconclusive)
        end
  | _, _ => Ok (Row l band None None None None Unmeasurable)
  end.

Inductive overall := REGRESSION | INCONCLUSIVE | NO_REGRESSION_DETECTED.

(** [overall_verdict]. *)
Definition overall_verdict (rows : list row) : overall :=
  if existsb (fun r => bool_decide (r_verdict r = Regressed)) rows then REGRESSION
  else if existsb (fun r => bool_decide (r_verdict r = Inconclusive) || bool_decide (r_verdict r = Unmeasurable)) rows
  then INCONCLUSIVE
  else NO_REGRESSION_DETECTED.

(** With the registered level a lane needs seven observations per arm. *)
Example seven_runs : min_runs_for_level MIN_LEVEL = 7%nat.
Proof. vm_compute. reflexivity. Qed.

(** ** The sign test *)

(** The interval holds the point [m]. *)
Definition covers (m : Q) (c : ci) : bool :=
  match low c, high c with Some l, Some h => Qle_bool l m && Qle_bool m h | _, _ => false end.

(** Samples given by their sign pattern: the [i]-th observation lies below [m]
    exactly when the [i]-th sign is [true], and none equals [m]. Under independent
    observations of a continuous quantity with median [m] the patterns are
    equally likely. *)
Definition signed_sample (n : nat) (m : Q) (obs : list bool -> list Q) : Prop :=
  forall p, length p = n -> Forall2 (fun b x => if b : bool then (x < m)%Q else (m < x)%Q) p (obs p).

Lemma tail_index_spec n alpha left c k0 :
  tail_index n alpha left c k0 = k0 \/
  (c <= tail_index n alpha left c k0 < c + left)%nat /\
  (_binomial_cdf (Z.of_nat (tail_index n alpha left c k0)) n <= alpha)%Q.
Proof.
  revert c k0. induction left as [|left IH]; intros c k0; cbn [tail_index]; [by left |].
  destruct (Qle_bool (_binomial_cdf (Z.of_nat c) n) alpha) eqn:E; [|by left]. right.
  apply Qle_bool_iff in E. destruct (IH (S c) c) as [Hk|[Hk Hc]].
  - rewrite Hk. split; [lia | done].
  - split; [lia | done].
Qed.

Lemma pow2_pos n : 0 < 2 ^ Z.of_nat n.
Proof. apply Z.pow_pos_nonneg; lia. Qed.

Lemma binomial_cdf_eq k n : (k < n)%nat ->
  (_binomial_cdf (Z.of_nat k) n == inject_Z (sum_comb n k) / inject_Z (2 ^ Z.of_nat n))%Q.
Proof.
  intros H. unfold _binomial_cdf. rewrite (proj2 (Z.ltb_ge _ 0)), (proj2 (Z.leb_gt _ _)), Nat2Z.id by lia.
  reflexivity.
Qed.

(** Half of the patterns or more have at most [k] signs of one kind when [k] is
    the middle or above. *)
Lemma sum_comb_half n k : (n <= 2 * k + 1)%nat -> 2 ^ Z.of_nat n <= 2 * sum_comb n k.
Proof.
  intros H. rewrite <- patterns_length.
  pose proof (count_if_or (fun p => occ true p <=? Z.of_nat k) (fun p => occ false p <=? Z.of_nat k) (patterns n)) as Hor.
  rewrite !patterns_at_most in Hor. rewrite (count_if_ext _ (fun _ => true)), count_if_const in Hor; [lia |].
  intros p Hp%patterns_elem. pose proof (occ_sum p). apply orb_true_iff. rewrite !Z.leb_le. lia.
Qed.

(** The tail the loop settles on leaves a non-empty middle. *)
Lemma tail_index_half n alpha : (2 <= n)%nat -> (alpha < 1 # 2)%Q ->
  (2 * tail_index n alpha n 0 0 < n)%nat.
Proof.
  intros Hn Ha. destruct (tail_index_spec n alpha n 0 0) as [Hk|[Hk Hc]]; [rewrite Hk; lia |].
  set (k := tail_index n alpha n 0 0) in *. destruct (Nat.lt_ge_cases (2 * k) n) as [|Hge]; [done |]. exfalso.
  rewrite binomial_cdf_eq in Hc by lia. pose proof (sum_comb_half n k ltac:(lia)) as Hs. pose proof (pow2_pos n) as Hp.
  assert ((1 # 2) <= inject_Z (sum_comb n k) / inject_Z (2 ^ Z.of_nat n))%Q.
  { apply Qle_shift_div_l; [change 0%Q with (inject_Z 0); by rewrite <- Zlt_Qlt |].
    rewrite Zle_Qle, inject_Z_mult in Hs. change (inject_Z 2) with 2%Q in Hs. lra. }
  lra.
Qed.

Definition sign_of (m : Q) (b : bool) (x : Q) : Prop := if b then (x < m)%Q else (m < x)%Q.

Lemma signs_below m p l : Forall2 (sign_of m) p l -> count_if (fun x => Qltb x m) l = occ true p.
Proof.
  unfold occ. induction 1 as [|b x p l Hb _ IH]; [done |]. cbn [count_if]. rewrite IH. f_equal.
  destruct b; simpl in Hb.
  - apply Qltb_lt in Hb. by rewrite Hb.
  - apply Qlt_le_weak, Qltb_ge in Hb. by rewrite Hb.
Qed.

Lemma signs_apart m p l : Forall2 (sign_of m) p l -> Forall (fun x => ~ x == m)%Q l.
Proof. induction 1 as [|b x p l Hb _ IH]; constructor; [|done]. destruct b; simpl in Hb; lra. Qed.

(** What the interval needs of a sample with pattern [p], whatever its order. *)
Definition pattern_of (m : Q) (p : list bool) (l : list Q) : Prop :=
  count_if (fun x => Qltb x m) l = occ true p /\ Forall (fun x => ~ x == m)%Q l /\ length l = length p.

Lemma signs_pattern m p l : Forall2 (sign_of m) p l -> pattern_of m p l.
Proof.
  intros H. split; [by apply signs_below | split; [by eapply signs_apart |]]. symmetry. exact (Forall2_length H).
Qed.

Lemma sorted_pattern m p l : pattern_of m p l -> pattern_of m p (sorted l).
Proof.
  intros (H1 & H2 & H3). split; [by rewrite (count_if_perm _ _ _ (sorted_perm l)) |].
  split; [by apply sorted_Forall | by rewrite sorted_length].
Qed.

(** The interval at tail [k] holds [m] exactly when more than [k] observations lie
    on each side. *)
Lemma covers_signs m p l k : pattern_of m p l -> (2 * k < length l)%nat ->
  Qle_bool (nth k (sorted l) 0%Q) m && Qle_bool m (nth (length l - 1 - k) (sorted l) 0%Q)
  = (Z.of_nat k <? occ true p) && (Z.of_nat k <? occ false p).
Proof.
  intros (Hc & Hf & Hlen) Hk. pose proof (occ_sum p) as Hsum.
  assert (forall i, (i < length l)%nat -> ~ (nth i (sorted l) 0%Q == m)%Q) as Hne.
  { intros i Hi. apply sorted_Forall in Hf. rewrite List.Forall_forall in Hf.
    apply Hf. apply nth_In. by rewrite sorted_length. }
  pose proof (sorted_nth_lt l m k ltac:(lia)) as H1. rewrite Hc in H1.
  pose proof (sorted_nth_lt l m (length l - 1 - k) ltac:(lia)) as H2. rewrite Hc in H2.
  pose proof (Hne k ltac:(lia)). f_equal; apply eq_bool_prop_intro; rewrite !Is_true_true, Qle_bool_iff, Z.ltb_lt.
  - rewrite <- H1. split; [intros; lra | apply Qlt_le_weak].
  - split.
    + intros Hle%Qle_not_lt. rewrite H2 in Hle. lia.
    + intros Hlt. apply Qnot_lt_le. rewrite H2. lia.
Qed.

Lemma median_ci_sample values lvl n : length values = n -> (2 <= n)%nat ->
  let k := tail_index n ((1 - lvl) / 2) n 0 0 in
  median_ci values lvl = Ci (Some (nth k (sorted values) 0%Q)) (Some (nth (n - 1 - k) (sorted values) 0%Q))
    (Some (1 - 2 * _binomial_cdf (Z.of_nat k) n)%Q) n (Some (S k)).
Proof.
  intros Hl Hn. unfold median_ci. rewrite sorted_length, Hl.
  rewrite (proj2 (Nat.eqb_neq n 0)), (proj2 (Nat.eqb_neq n 1)) by lia. reflexivity.
Qed.

(** The patterns with more than [k] signs of each kind. *)
Lemma count_middle n k : (2 * k < n)%nat ->
  count_if (fun p => (Z.of_nat k <? occ true p) && (Z.of_nat k <? occ false p)) (patterns n)
  = 2 ^ Z.of_nat n - 2 * sum_comb n k.
Proof.
  intros Hk. rewrite <- patterns_length.
  rewrite <- (count_if_split3 (fun p => occ true p <=? Z.of_nat k)
    (fun p => (Z.of_nat k <? occ true p) && (Z.of_nat k <? occ false p)) (fun p => occ false p <=? Z.of_nat k) (patterns n)).
  - rewrite !patterns_at_most. lia.
  - intros p Hp%patterns_elem. pose proof (occ_sum p). rewrite Hp in *.
    destruct (Z.leb_spec (occ true p) (Z.of_nat k)), (Z.leb_spec (occ false p) (Z.of_nat k)),
      (Z.ltb_spec (Z.of_nat k) (occ true p)), (Z.ltb_spec (Z.of_nat k) (occ false p)); simpl; lia.
Qed.

(** The level [median_ci] reports for [n] observations. *)
Definition achieved (n : nat) (lvl : Q) : Q :=
  (1 - 2 * _binomial_cdf (Z.of_nat (tail_index n ((1 - lvl) / 2) n 0 0)) n)%Q.

Lemma half_alpha lvl : (0 < lvl)%Q -> ((1 - lvl) / 2 < 1 # 2)%Q.
Proof. intros. unfold Qdiv. change (/ 2)%Q with (1 # 2)%Q. lra. Qed.

Lemma coverage n m (obs : list bool -> list Q) lvl : (2 <= n)%nat -> (0 < lvl)%Q ->
  (forall p, length p = n -> pattern_of m p (obs p)) ->
  (inject_Z (count_if (fun p => covers m (median_ci (obs p) lvl)) (patterns n))
   == achieved n lvl * inject_Z (2 ^ Z.of_nat n))%Q.
Proof.
  intros Hn Hl Hobs. unfold achieved. set (k := tail_index n ((1 - lvl) / 2) n 0 0).
  assert (2 * k < n)%nat as Hk by (apply tail_index_half; [done | by apply half_alpha]).
  rewrite (count_if_ext _ (fun p => (Z.of_nat k <? occ true p) && (Z.of_nat k <? occ false p))).
  - rewrite count_middle, binomial_cdf_eq by lia. unfold Z.sub. rewrite inject_Z_plus, inject_Z_opp, inject_Z_mult.
    change (inject_Z 2) with 2%Q. field. change 0%Q with (inject_Z 0). rewrite inject_Z_injective. pose proof (pow2_pos n). lia.
  - intros p Hp%patterns_elem. destruct (Hobs p Hp) as (H1 & H2 & H3).
    rewrite (median_ci_sample (obs p) lvl n) by lia. unfold covers. cbn [low high].
    rewrite <- (covers_signs m p (obs p) k); [|done | lia]. by rewrite H3, Hp.
Qed.

Lemma achieved_level n lvl : (1 <= n)%nat -> (2 / inject_Z (2 ^ Z.of_nat n) <= 1 - lvl)%Q -> (lvl <= achieved n lvl)%Q.
Proof.
  intros Hn Ha. unfold achieved. set (alpha := ((1 - lvl) / 2)%Q). pose proof (pow2_pos n) as Hp.
  assert (_binomial_cdf (Z.of_nat (tail_index n alpha n 0 0)) n <= alpha)%Q as Hc.
  { destruct (tail_index_spec n alpha n 0 0) as [Hk|[_ Hc]]; [|done]. rewrite Hk, binomial_cdf_eq by lia.
    cbn [sum_comb]. rewrite comb_0. unfold alpha. unfold Qdiv in *. change (inject_Z 1) with 1%Q. change (/ 2)%Q with (1 # 2)%Q. lra. }
  unfold alpha, Qdiv in *. change (/ 2)%Q with (1 # 2)%Q in *. lra.
Qed.

(** C26. The interval is distribution-free: whatever the observations are, as long as
    none equals [m], the sign patterns for which [median_ci] holds [m] are exactly
    the reported level's share of all [2^n]; and that level reaches the requested
    one as soon as the sample is large enough for its two extremes to do so. *)
Theorem median_ci_coverage n m obs lvl :
  (2 <= n)%nat -> (0 < lvl)%Q -> signed_sample n m obs ->
  (forall p, length p = n -> level (median_ci (obs p) lvl) = Some (achieved n lvl)) /\
  (inject_Z (count_if (fun p => covers m (median_ci (obs p) lvl)) (patterns n))
   == achieved n lvl * inject_Z (2 ^ Z.of_nat n))%Q /\
  ((2 / inject_Z (2 ^ Z.of_nat n) <= 1 - lvl)%Q -> (lvl <= achieved n lvl)%Q).
Proof.
  intros Hn Hl Hobs. assert (forall p, length p = n -> pattern_of m p (obs p)) as Hpat.
  { intros p Hp. apply signs_pattern. by apply Hobs. }
  split; [|split; [by apply coverage | apply achieved_level; lia]].
  intros p Hp. destruct (Hpat p Hp) as (_ & _ & H3). rewrite (median_ci_sample (obs p) lvl n) by lia. done.
Qed.

(** A sample for every pattern: 40 below the point, 60 above. *)
Definition two_values (p : list bool) : list Q := map (fun b : bool => if b then 40 # 1 else 60 # 1)%Q p.

Lemma median_ci_coverage_witness :
  ((97 # 100) <= achieved 11 (97 # 100))%Q /\
  (inject_Z (count_if (fun p => covers (50 # 1) (median_ci (two_values p) (97 # 100))) (patterns 11))
   == achieved 11 (97 # 100) * inject_Z (2 ^ 11))%Q.
Proof.
  assert (signed_sample 11 (50 # 1) two_values) as H.
  { intros p _. unfold two_values. induction p as [|[] p IH]; constructor; done. }
  destruct (median_ci_coverage 11 (50 # 1) two_values (97 # 100) ltac:(lia) ltac:(done) H) as (_ & H2 & H3).
  split; [apply H3; by vm_compute | exact H2].
Defined.

(** ** The verdict of a lane *)

Lemma table_find_in {A} k (l : list (string * A)) v : table_find k l = Some v -> In (k, v) l.
Proof.
  induction l as [|[k' v'] l IH]; simpl; [done |].
  destruct (String.eqb_spec k' k) as [->|_]; [intros [= ->]; by left | right; by apply IH].
Qed.

Lemma bands_nonneg l b : table_get l BANDS = Ok b -> (0 <= b)%Q.
Proof.
  intros H%table_get_ok%table_find_in. assert (Forall (fun e => 0 <= e.2)%Q BANDS) as Hf by (by repeat constructor).
  rewrite List.Forall_forall in Hf. exact (Hf _ H).
Qed.

(** A verdict that contradicts the true medians [mA] and [mB]. *)
Definition wrong (mA mB : Q) (r : res row) : bool :=
  match r with
  | Ok r => if Qltb mB (band r * mA) then bool_decide (r_verdict r = NonInferior)
            else bool_decide (r_verdict r = Regressed)
  | Raise _ => false
  end.

(** The two samples through [lane_stats] and [compare_lane]. *)
Definition judged (l : string) (va vb : list Q) : res row :=
  a ← lane_stats va ARM_LEVEL; b ← lane_stats vb ARM_LEVEL; compare_lane l a b.

Definition composed_level (nA nB : nat) : Q :=
  (2 * Qminb (achieved nA ARM_LEVEL) (achieved nB ARM_LEVEL) - 1)%Q.

Lemma lane_stats_ci values L : lane_stats values ARM_LEVEL = Ok L -> l_median L <> None ->
  l_ci L = median_ci (sorted values) ARM_LEVEL.
Proof.
  unfold lane_stats. case_if; [by intros [= <-] |]. destruct (median (sorted values)) as [med|]; [|done]. simpl.
  case_if; [by intros [= <-] |]. destruct (median _) as [md|]; [|done]. by intros [= <-].
Qed.

Lemma median_ci_short values lvl : (length values < 2)%nat -> level (median_ci values lvl) = None.
Proof.
  intros H. unfold median_ci. rewrite sorted_length.
  destruct (length values) as [|[|]]; simpl; [done | done | lia].
Qed.

(** What a decided lane says about its intervals. *)
Lemma compare_lane_decided l A B r :
  compare_lane l A B = Ok r -> r_verdict r = NonInferior \/ r_verdict r = Regressed ->
  l_median A <> None /\ l_median B <> None /\ (0 <= band r)%Q /\
  exists la lb alo ahi blo bhi,
    level (l_ci A) = Some la /\ level (l_ci B) = Some lb /\
    low (l_ci A) = Some alo /\ high (l_ci A) = Some ahi /\ low (l_ci B) = Some blo /\ high (l_ci B) = Some bhi /\
    (MIN_LEVEL <= 2 * Qminb la lb - 1)%Q /\
    (r_verdict r = NonInferior -> (band r <= blo / ahi)%Q) /\ (r_verdict r = Regressed -> (bhi / alo < band r)%Q).
Proof.
  unfold compare_lane. intros (bd & Hb & H)%bind_Ok Hv. apply bands_nonneg in Hb.
  destruct (l_median A) as [a|]; [|injection H as <-; by destruct Hv].
  destruct (l_median B) as [b|]; [|injection H as <-; by destruct Hv].
  revert H. case_if; [intros [= <-]; by destruct Hv |]. intros (rt & _ & H)%bind_Ok.
  destruct (level (l_ci A)) as [la|], (level (l_ci B)) as [lb|], (low (l_ci A)) as [alo|], (high (l_ci A)) as [ahi|],
    (low (l_ci B)) as [blo|], (high (l_ci B)) as [bhi|]; try (injection H as <-; by destruct Hv).
  apply bind_Ok in H as (lo & [_ ->]%qdiv_spec & H). apply bind_Ok in H as (hi & [_ ->]%qdiv_spec & H).
  injection H as <-. cbn [r_verdict band] in *. split; [done |]. split; [done |]. split; [done |].
  exists la, lb, alo, ahi, blo, bhi. repeat (split; [done |]).
  destruct (Qltb (2 * Qminb la lb - 1) MIN_LEVEL) eqn:E1; [by destruct Hv |]. apply Qltb_ge in E1.
  split; [done |]. destruct (Qle_bool bd (blo / ahi)) eqn:E2.
  - apply Qle_bool_iff in E2. by split.
  - destruct (Qltb (bhi / alo) bd) eqn:E3; [|by destruct Hv]. apply Qltb_lt in E3. by split.
Qed.

(** Intervals that hold the true medians do not lead to a wrong verdict. *)
Lemma compare_lane_sound l va vb mA mB :
  Forall (fun x => 0 < x)%Q va ->
  covers mA (median_ci (sorted va) ARM_LEVEL) = true -> covers mB (median_ci (sorted vb) ARM_LEVEL) = true ->
  wrong mA mB (judged l va vb) = false.
Proof.
  intros Hpos Ha Hb. destruct (judged l va vb) as [r|e] eqn:E; [|done]. unfold judged in E.
  apply bind_Ok in E as (A & EA & E). apply bind_Ok in E as (B & EB & E).
  destruct (decide (r_verdict r = NonInferior \/ r_verdict r = Regressed)) as [Hv|Hv].
  2: { simpl. case_if; apply bool_decide_eq_false; tauto. }
  destruct (compare_lane_decided _ _ _ _ E Hv)
    as (HmA & HmB & Hband & la & lb & alo & ahi & blo & bhi & _ & _ & E1 & E2 & E3 & E4 & _ & Hn & Hr).
  rewrite (lane_stats_ci va A EA HmA) in E1, E2. rewrite (lane_stats_ci vb B EB HmB) in E3, E4.
  unfold covers in Ha, Hb. rewrite E1, E2 in Ha. rewrite E3, E4 in Hb. bool_to_prop.
  rewrite Qle_bool_iff in *.
  assert (0 < alo)%Q as Halo.
  { unfold median_ci in E1. revert E1. case_if; [done |]. bool_to_prop.
    assert (Forall (fun x => 0 < x)%Q (sorted (sorted va))) as Hs by (by apply sorted_Forall, sorted_Forall).
    rewrite List.Forall_forall in Hs. case_if; intros [= <-]; apply Hs, nth_In; bool_to_prop; [lia |].
    destruct (tail_index_spec (length (sorted (sorted va))) ((1 - ARM_LEVEL) / 2) (length (sorted (sorted va))) 0 0)
      as [Hk|[Hk _]]; [rewrite Hk |]; lia. }
  simpl. destruct (Qltb mB (band r * mA)) eqn:Em; apply bool_decide_eq_false; intros Hw.
  - apply Hn in Hw. apply Qltb_lt in Em. assert (0 < ahi)%Q by lra.
    assert (band r * ahi <= blo)%Q as Hq.
    { rewrite <- (Qmult_div_r blo ahi) by lra. rewrite (Qmult_comm ahi). apply Qmult_le_compat_r; lra. }
    assert (band r * mA <= band r * ahi)%Q.
    { rewrite !(Qmult_comm (band r)). apply Qmult_le_compat_r; lra. }
    lra.
  - apply Hr in Hw. apply Qltb_ge in Em.
    assert (bhi < band r * alo)%Q as Hq.
    { rewrite <- (Qmult_div_r bhi alo) by lra. rewrite (Qmult_comm alo). apply Qmult_lt_compat_r; lra. }
    assert (band r * alo <= band r * mA)%Q.
    { rewrite !(Qmult_comm (band r)). apply Qmult_le_compat_r; lra. }
    lra.
Qed.

(** A decided lane has at least two observations per arm and reaches the registered
    level. *)
Lemma wrong_decided l va vb mA mB : wrong mA mB (judged l va vb) = true ->
  (2 <= length va)%nat /\ (2 <= length vb)%nat /\ (MIN_LEVEL <= composed_level (length va) (length vb))%Q.
Proof.
  intros Hw. destruct (judged l va vb) as [r|e] eqn:E; [|done]. unfold judged in E.
  apply bind_Ok in E as (A & EA & E). apply bind_Ok in E as (B & EB & E).
  assert (r_verdict r = NonInferior \/ r_verdict r = Regressed) as Hv.
  { simpl in Hw. destruct (Qltb mB _) in Hw; apply bool_decide_eq_true in Hw; tauto. }
  destruct (compare_lane_decided _ _ _ _ E Hv)
    as (HmA & HmB & _ & la & lb & alo & ahi & blo & bhi & E1 & E2 & _ & _ & _ & _ & Hc & _).
  rewrite (lane_stats_ci va A EA HmA) in E1. rewrite (lane_stats_ci vb B EB HmB) in E2.
  assert (forall v x, level (median_ci (sorted v) ARM_LEVEL) = Some x ->
    (2 <= length v)%nat /\ x = achieved (length v) ARM_LEVEL) as Hlev.
  { intros v x Hx. destruct (Nat.lt_ge_cases (length v) 2) as [Hs|Hs].
    - rewrite median_ci_short in Hx; [done | by rewrite sorted_length].
    - split; [done |]. rewrite (median_ci_sample _ _ (length v)) in Hx; [by injection Hx | by apply sorted_length | done]. }
  apply Hlev in E1 as [H1 ->]. apply Hlev in E2 as [H2 ->]. done.
Qed.

Lemma min_complement x y z : (z <= 2 * Qminb x y - 1)%Q -> ((1 - x) + (1 - y) <= 1 - z)%Q.
Proof.
  unfold Qminb. destruct (Qle_bool x y) eqn:E; [apply Qle_bool_iff in E |].
  - lra.
  - assert (y < x)%Q by (apply Qltb_lt; unfold Qltb; by rewrite E). lra.
Qed.

(** How many patterns miss the point. *)
Lemma miss_count n m (obs : list bool -> list Q) : (2 <= n)%nat -> signed_sample n m obs ->
  (inject_Z (count_if (fun p => negb (covers m (median_ci (sorted (obs p)) ARM_LEVEL))) (patterns n))
   == (1 - achieved n ARM_LEVEL) * inject_Z (2 ^ Z.of_nat n))%Q.
Proof.
  intros Hn Hobs. rewrite count_if_neg, patterns_length. unfold Z.sub. rewrite inject_Z_plus, inject_Z_opp.
  rewrite (coverage n m (fun p => sorted (obs p))); [ring | done | by vm_compute |].
  intros p Hp. apply sorted_pattern, signs_pattern. by apply Hobs.
Qed.

(** The registered error rate: whatever the two samples are (positive, none
    equal to its arm's true median), at most one in twenty of all pairs of sign
    patterns makes [compare_lane] contradict the true ratio of the medians, calling
    a candidate below the band non-inferior or one at or above it regressed. *)
Theorem compare_lane_error_rate l nA nB mA mB obsA obsB :
  signed_sample nA mA obsA -> signed_sample nB mB obsB ->
  (forall p, length p = nA -> Forall (fun x => 0 < x)%Q (obsA p)) ->
  (inject_Z (count_if (fun pq => wrong mA mB (judged l (obsA pq.1) (obsB pq.2))) (pairs (patterns nA) (patterns nB)))
   <= (1 - MIN_LEVEL) * (inject_Z (2 ^ Z.of_nat nA) * inject_Z (2 ^ Z.of_nat nB)))%Q.
Proof.
  intros HA HB Hpos.
  assert (forall n m obs p, signed_sample n m obs -> length p = n -> length (obs p) = n) as Hlen.
  { intros n m obs p Ho Hp. destruct (signs_pattern m p _ (Ho p Hp)) as (_ & _ & H). lia. }
  set (f := fun pq => wrong mA mB _). set (ps := pairs _ _).
  pose proof (pow2_pos nA) as HpA. pose proof (pow2_pos nB) as HpB. rewrite Zlt_Qlt in HpA, HpB.
  destruct (decide ((2 <= nA)%nat /\ (2 <= nB)%nat /\ (MIN_LEVEL <= composed_level nA nB)%Q)) as [(H1 & H2 & Hc)|Hno].
  - apply min_complement in Hc.
    eapply (Qle_trans _ (inject_Z (count_if (fun pq => negb (covers mA (median_ci (sorted (obsA pq.1)) ARM_LEVEL))
       || negb (covers mB (median_ci (sorted (obsB pq.2)) ARM_LEVEL))) ps))).
    { rewrite <- Zle_Qle. apply count_if_mono. intros [p q] [Hp Hq]%pairs_elem. simpl in Hp, Hq. unfold f. simpl.
      intros Hw. destruct (covers mA _) eqn:EA; [|done]. destruct (covers mB _) eqn:EB; [|done].
      rewrite compare_lane_sound in Hw; [done | | done | done]. apply Hpos. by apply patterns_elem. }
    eapply Qle_trans; [rewrite <- Zle_Qle; apply count_if_or |]. unfold ps.
    rewrite (count_pairs_fst (fun p => negb (covers mA (median_ci (sorted (obsA p)) ARM_LEVEL)))).
    rewrite (count_pairs_snd (fun q => negb (covers mB (median_ci (sorted (obsB q)) ARM_LEVEL)))).
    rewrite inject_Z_plus, !inject_Z_mult, !patterns_length, (miss_count nA mA obsA), (miss_count nB mB obsB) by done.
    set (a := achieved nA ARM_LEVEL) in *. set (b := achieved nB ARM_LEVEL) in *.
    set (x := inject_Z (2 ^ Z.of_nat nA)) in *. set (y := inject_Z (2 ^ Z.of_nat nB)) in *.
    assert ((1 - a) * x * y + x * ((1 - b) * y) == ((1 - a) + (1 - b)) * (x * y))%Q as -> by ring.
    apply Qmult_le_compat_r; [done |]. apply Qlt_le_weak. by apply Qmult_lt_0_compat.
  - rewrite (count_if_ext f (fun _ => false)), count_if_const.
    + apply Qmult_le_0_compat; [by vm_compute |]. apply Qlt_le_weak. by apply Qmult_lt_0_compat.
    + intros [p q] [Hp%patterns_elem Hq%patterns_elem]%pairs_elem. unfold f. apply not_true_iff_false.
      intros Hw%wrong_decided. simpl in Hw, Hp, Hq. apply Hno.
      by rewrite (Hlen nA mA obsA p HA Hp), (Hlen nB mB obsB q HB Hq) in Hw.
Qed.

Definition shifted (p : list bool) : list Q := map (fun b : bool => if b then 30 # 1 else 55 # 1)%Q p.

(** Seven observations per arm decide; the true ratio is 45/50. *)
Lemma compare_lane_error_rate_witness :
  (inject_Z (count_if (fun pq => wrong (50 # 1) (45 # 1) (judged "essay" (two_values pq.1) (shifted pq.2)))
     (pairs (patterns 7) (patterns 7))) <= (1 - MIN_LEVEL) * (inject_Z (2 ^ 7) * inject_Z (2 ^ 7)))%Q.
Proof.
  apply (compare_lane_error_rate "essay" 7 7 (50 # 1) (45 # 1) two_values shifted).
  - intros p _. unfold two_values. induction p as [|[] p IH]; constructor; done.
  - intros p _. unfold shifted. induction p as [|[] p IH]; constructor; done.
  - intros p _. unfold two_values. induction p as [|[] p IH]; constructor; done.
Defined.

(** Fewer than seven observations in an arm never decide a lane, and the wrong
    verdicts do occur. *)
Example six_undecided :
  match judged "essay" (two_values [true; true; true; false; false; false]) (two_values [true; true; true; false; false; false]) with
  | Ok r => r_verdict r | Raise _ => Regressed end = Inconclusive.
Proof. vm_compute. reflexivity. Qed.
Example all_above_regressed :
  match judged "essay" (repeat (60 # 1) 7) (repeat (40 # 1) 7) with Ok r => r_verdict r | Raise _ => Inconclusive end = Regressed.
Proof. vm_compute. reflexivity. Qed.
(** A control arm with a run of 0 tok/s at its low order statistic is not judged:
    the division raises. *)
Example zero_low_raises : judged "essay" [0; 1; 1; 1; 1; 1; 1]%Q (repeat (1 # 1) 7) = Raise ZeroDivisionError.
Proof. vm_compute. reflexivity. Qed.
