(* ===== verification/WindowEnv.v ===== *)
(** * The [.env] file of a guarded window

    Model of [effective_env_all] and [set_image] of
    [scripts/run_v149_qualification_window.py]: the last-wins reading of a [.env]
    text and the line a window appends to it. Text is what Python's text mode
    returns, ASCII, with [\r] already translated to a newline. *)
From Stdlib Require Import ZArith Lia Ascii String.
From stdpp Require Import base list gmap strings.
From S2P Require Import Prelude PyStr.
#[local] Open Scope string_scope.
#[local] Open Scope list_scope.

(** ** Reading *)

(** The characters [str.splitlines] breaks at. *)
Definition is_break (c : ascii) : bool :=
  let n := nat_of_ascii c in ((10 <=? n) && (n <=? 13) || (28 <=? n) && (n <=? 30))%nat.

(** [text.splitlines()]; [cur] is the line being read. *)
Fixpoint splitlines (cur s : string) : list string :=
  match s with
  | EmptyString => if String.eqb cur "" then [] else [cur]
  | String c s' => if is_break c then cur :: splitlines "" s' else splitlines (cur ++ String c "") s'
  end.

(** [line.partition] at the first equals sign: [None] when there is no equals sign. *)
Fixpoint partition_eq (s : string) : option (string * string) :=
  match s with
  | EmptyString => None
  | String c s' =>
      if Ascii.eqb c "=" then Some ("", s')
      else match partition_eq s' with Some (k, v) => Some (String c k, v) | None => None end
  end.

(** A shell identifier: the pattern a key must match in full. *)
Definition is_alpha (c : ascii) : bool :=
  let n := nat_of_ascii c in ((65 <=? n) && (n <=? 90) || (97 <=? n) && (n <=? 122) || (n =? 95))%nat.
Definition is_word (c : ascii) : bool :=
  is_alpha c || (let n := nat_of_ascii c in (48 <=? n) && (n <=? 57))%nat.
Fixpoint all_word (s : string) : bool :=
  match s with EmptyString => true | String c s' => is_word c && all_word s' end.
Definition is_key (s : string) : bool :=
  match s with EmptyString => false | String c s' => is_alpha c && all_word s' end.

(** Stripping both kinds of quote at both ends. *)
Definition is_quote (c : ascii) : bool :=
  let n := nat_of_ascii c in ((n =? 34) || (n =? 39))%nat.
Fixpoint lquote (s : string) : string :=
  match s with EmptyString => EmptyString | String c s' => if is_quote c then lquote s' else s end.
Fixpoint rquote (s : string) : string :=
  match s with
  | EmptyString => EmptyString
  | String c s' =>
      match rquote s' with
      | EmptyString => if is_quote c then EmptyString else String c EmptyString
      | r => String c r
      end
  end.
Definition clean_value (s : string) : string := rquote (lquote (strip s)).

(** One line of the loop. *)
Definition read_line (line : string) (out : environ) : environ :=
  if String.prefix "#" line then out
  else match partition_eq line with
       | None => out
       | Some (key, value) =>
           let key := strip key in
           if is_key key then <[key := clean_value value]> out else out
       end.

(** [effective_env_all]. *)
Definition effective_env_all (text : string) : environ :=
  fold_left (fun out line => read_line line out) (splitlines "" text) ∅.

(** ** Writing *)

Fixpoint ends_newline (s : string) : bool :=
  match s with
  | EmptyString => false
  | String c EmptyString => Ascii.eqb c (ascii_of_nat 10)
  | String _ s' => ends_newline s'
  end.

(** The comment above the appended line. *)
Definition comment : string := "# task35b qualification window: arm image (removed by restore)".

(** [set_image] on the text of the file. *)
Definition set_image (tag text : string) : string :=
  (if ends_newline text then text else text ++ newline)
  ++ newline ++ comment ++ newline ++ "IMAGE=" ++ tag ++ newline.

(** ** Lemmas *)

Lemma cons_app c (s t : string) : (String c s ++ t)%string = String c (s ++ t).
Proof. done. Qed.

Lemma splitlines_app s t cur :
  splitlines cur (s ++ newline ++ t) = splitlines cur (s ++ newline) ++ splitlines "" t.
Proof.
  revert cur. induction s as [|c s IH]; intros cur; [done |].
  rewrite !cons_app. cbn [splitlines].
  destruct (is_break c); [|apply IH]. rewrite <- app_comm_cons. f_equal. apply IH.
Qed.

(** A final newline adds at most an empty line. *)
Lemma splitlines_newline s cur :
  splitlines cur (s ++ newline) = splitlines cur s \/ splitlines cur (s ++ newline) = splitlines cur s ++ [""].
Proof.
  revert cur. induction s as [|c s IH]; intros cur.
  - cbn. destruct (String.eqb_spec cur "") as [->|Hc]; [by right |]. left. done.
  - rewrite cons_app. cbn [splitlines]. destruct (is_break c); [|apply IH]. destruct (IH "") as [-> | ->]; [by left | by right].
Qed.

Lemma ends_newline_split s : ends_newline s = true -> exists a, s = (a ++ newline)%string.
Proof.
  induction s as [|c s IH]; [done |]. destruct s as [|d s].
  - intros ->%Ascii.eqb_eq. by exists "".
  - intros H. destruct (IH H) as [a ->]. by exists (String c a).
Qed.

Lemma effective_env_newline s : effective_env_all (s ++ newline) = effective_env_all s.
Proof.
  unfold effective_env_all. destruct (splitlines_newline s "") as [-> | ->]; [done |].
  by rewrite fold_left_app.
Qed.

(** A character that neither ends a line nor is stripped or unquoted. *)
Definition plain_char (c : ascii) : bool := negb (is_break c) && negb (is_space c) && negb (is_quote c).
Fixpoint plain (s : string) : bool :=
  match s with EmptyString => true | String c s' => plain_char c && plain s' end.

Lemma plain_line tag cur t : plain tag = true ->
  splitlines cur (tag ++ newline ++ t) = (cur ++ tag)%string :: splitlines "" t.
Proof.
  revert cur. induction tag as [|c tag IH]; intros cur H; [by rewrite app_nil_str |].
  rewrite cons_app. cbn [splitlines].
  cbn [plain] in H. apply andb_true_iff in H as [Hc Ht]. unfold plain_char in Hc.
  apply andb_true_iff in Hc as [Hc _]. apply andb_true_iff in Hc as [Hb _]. apply negb_true_iff in Hb. rewrite Hb.
  rewrite IH by done. by rewrite app_assoc_str.
Qed.

Lemma clean_plain tag : plain tag = true -> clean_value tag = tag.
Proof.
  intros H. unfold clean_value, strip.
  assert (lstrip tag = tag) as ->.
  { destruct tag as [|c tag]; [done |]. cbn [plain lstrip] in *. unfold plain_char in H.
    destruct (is_space c); [|done]. by rewrite andb_false_r in H. }
  assert (rstrip tag = tag) as ->.
  { induction tag as [|c tag IH]; [done |]. cbn [plain rstrip] in *. apply andb_true_iff in H as [Hc Ht].
    rewrite IH by done. destruct tag; [|done]. unfold plain_char in Hc. destruct (is_space c); [|done].
    by rewrite andb_false_r in Hc. }
  assert (lquote tag = tag) as ->.
  { destruct tag as [|c tag]; [done |]. cbn [plain lquote] in *. unfold plain_char in H.
    destruct (is_quote c); [|done]. by rewrite andb_false_r in H. }
  induction tag as [|c tag IH]; [done |]. cbn [plain rquote] in *. apply andb_true_iff in H as [Hc Ht].
  rewrite IH by done. destruct tag; [|done]. unfold plain_char in Hc. destruct (is_quote c); [|done].
  by rewrite andb_false_r in Hc.
Qed.

Lemma partition_image tag : partition_eq ("IMAGE=" ++ tag) = Some ("IMAGE", tag).
Proof. done. Qed.

(** ** The appended line *)

(** Write then read: after [set_image] the effective image is the arm's tag and
    every other key reads as before, whatever the file held (no final newline,
    earlier [IMAGE] lines, comments); appending another arm's tag overrides it. *)
Theorem set_image_effective tag text :
  plain tag = true -> effective_env_all (set_image tag text) = <["IMAGE" := tag]> (effective_env_all text).
Proof.
  intros Ht. unfold set_image.
  assert (exists a : string, (if ends_newline text then text else text ++ newline)%string = (a ++ newline)%string
    /\ effective_env_all (a ++ newline) = effective_env_all text) as (a & -> & Ha).
  { destruct (ends_newline text) eqn:E.
    - destruct (ends_newline_split _ E) as [a ->]. by exists a.
    - exists text. split; [done | apply effective_env_newline]. }
  rewrite <- Ha. unfold effective_env_all. rewrite app_assoc_str, splitlines_app, fold_left_app.
  generalize (fold_left (fun out line => read_line line out) (splitlines "" (a ++ newline)) ∅). intros out.
  change (splitlines "" (newline ++ comment ++ newline ++ "IMAGE=" ++ tag ++ newline))
    with ("" :: comment :: splitlines "IMAGE=" (tag ++ newline ++ "")).
  rewrite plain_line by done. cbn [fold_left splitlines String.eqb].
  unfold read_line at 1. rewrite partition_image.
  change (String.prefix "#" ("IMAGE=" ++ tag)) with false. cbv iota beta zeta.
  change (is_key (strip "IMAGE")) with true. cbv iota. rewrite clean_plain by done. done.
Qed.

Lemma set_image_effective_witness :
  effective_env_all (set_image "glm53-selfbuild:e3-w3-zfill" ("A=1" ++ newline ++ "IMAGE='old'")%string) !! "IMAGE"
    = Some "glm53-selfbuild:e3-w3-zfill".
Proof. rewrite set_image_effective by reflexivity. vm_compute. reflexivity. Defined.
