(* ===== verification/WindowRun.v ===== *)
(** * The qualification window's runner

    Model of [scripts/run_v149_qualification_window.py]: the phases, the receipt they
    write, the recovery and the [main] loop. Everything outside the script (docker,
    systemd, ssh, curl, the probes, the clock, the disk) is an oracle: every call
    takes the next answer, which may be a failure, a time-out or a
    [KeyboardInterrupt] at any point, and may or may not have had its effect. What
    is kept of the world is what the recovery is about: the text of [.env], the
    backup file, the two timers. The receipt's descriptive fields (hashes of the
    scripts, log lines, tails of outputs, time stamps) are not modelled. *)
From Stdlib Require Import ZArith Lia QArith String.
From stdpp Require Import base list gmap strings.
From S2P Require Import Prelude PyStr Stats WindowEnv.
#[local] Open Scope string_scope.
#[local] Open Scope list_scope.
#[local] Open Scope Z_scope.

(** ** Constants *)

Definition WATCHDOG : string := "vllm-glm53exl3-watchdog.timer".
Definition METRICS : string := "glm53exl3-metrics-alert.timer".
Definition TIMERS : list string := [WATCHDOG; METRICS].
Definition TIMER_SERVICES : list string := ["vllm-glm53exl3-watchdog.service"; "glm53exl3-metrics-alert.service"].

(** An arm: its image tag and its exllamav3 version. *)
Definition arm_spec (arm : string) : string * string :=
  if existsb (String.eqb arm) ["a"; "a2"] then ("glm53-selfbuild:e3-w3-zfill", "1.4.7")
  else ("glm53-selfbuild:e3-w3-zfill-v149", "1.4.9").
Definition ARMS : list string := ["a"; "b"; "b2"; "a2"].
Definition PRODUCTION_IMAGE : string := (arm_spec "b").1.

(** Lane and number of runs. *)
Definition LANES : list (string * Z) :=
  [("structured", 9); ("essay", 9); ("hashmap", 9); ("prefill60k", 5); ("prefill240k", 5)].
Definition TRIPWIRE_GIB : Q := 5 # 2.

Definition PHASES : list string :=
  ["preflight"; "disarm"; "arm_a"; "measure_a"; "arm_b"; "measure_b"; "arm_b2"; "measure_b2"; "arm_a2"; "measure_a2";
   "restore"; "gates"; "rearm"; "judge"].

(** ** The world *)

(** What interrupts an outside call: an error of its own (a time-out, a missing file)
    or a signal, which the script turns into [KeyboardInterrupt]. *)
Inductive interruption := Error | Signal.
Definition exn_of (i : interruption) : exn := match i with Error => OtherException | Signal => KeyboardInterrupt end.

(** What an outside call answers: an exception it raises, or a return code, its
    output, a number it reports; and whether it had its effect. *)
Record answer := Answer {
  a_exn : option interruption;
  a_rc : Z;
  a_out : string;
  a_num : option Q;
  a_effect : bool
}.

(** A registered measurement block. *)
Record block := Block { b_arm : string; b_lane : string; b_runs : Z; b_attempt : Z; b_ok : option bool }.

(** What the receipt records of an arm. *)
Record arm_rec := ArmRec {
  r_image : string;
  r_version : string;
  r_worker_image : string;
  r_worker_version : string;
  r_stamp : string;
  r_pool : string;
  r_boot : string;
  r_worker_boot : string;
  preemptions_before : option Q;
  preemptions_delta : option Q
}.
Definition no_arm : arm_rec := ArmRec "" "" "" "" "" "" "" "" None None.

(** The outcome of a recovery step: ["not needed"], ["ok"] or ["FAILED: ..."]. *)
Inductive outcome := NotNeeded | RestoreOk | RestoreFailed.

(** The receipt. *)
Record state := State {
  backup : bool;
  env_sha256 : string;
  env_touched : bool;
  disarm_attempted : bool;
  auto_restore : option outcome;
  timer_restore : option outcome;
  arms : gmap string arm_rec;
  measure_attempts : Z;
  probe_blocks : list block;
  probes : list (string * string * Z);
  phases : list (string * bool);
  phase_in_progress : option string;
  gates : option (Z * Q * Q);
  verdict : option string
}.

Record world := World {
  env_text : option string;
  backup_text : option string;
  timers : gmap string bool;
  clock : nat;
  st : state
}.

(** ** The monad: changes of the world outlive an exception *)

Definition M (A : Type) : Type := world -> res A * world.
#[export] Instance M_ret : MRet M := fun A a w => (Ok a, w).
#[export] Instance M_bind : MBind M := fun A B k m w =>
  match m w with (Ok a, w') => k a w' | (Raise e, w') => (Raise e, w') end.

Definition raise {A} (e : exn) : M A := fun w => (Raise e, w).
Definition get {A} (f : world -> A) : M A := fun w => (Ok (f w), w).
Definition modify (f : world -> world) : M unit := fun w => (Ok tt, f w).

(** [try ... except]: the exception when [caught] holds of it. *)
Definition attempt {A} (caught : exn -> bool) (m : M A) : M (A + exn) := fun w =>
  match m w with
  | (Ok a, w') => (Ok (inl a), w')
  | (Raise e, w') => if caught e then (Ok (inr e), w') else (Raise e, w')
  end.

(** [except Exception] and [except (Exception, KeyboardInterrupt)]. *)
Definition is_exception (e : exn) : bool := match e with SystemExit _ | KeyboardInterrupt => false | _ => true end.
Definition is_handled (e : exn) : bool := match e with SystemExit _ => false | _ => true end.

Definition set_env (t : option string) (w : world) : world := World t (backup_text w) (timers w) (clock w) (st w).
Definition set_timer (u : string) (b : bool) (w : world) : world :=
  World (env_text w) (backup_text w) (<[u := b]> (timers w)) (clock w) (st w).
Definition set_st (f : state -> state) (w : world) : world :=
  World (env_text w) (backup_text w) (timers w) (clock w) (f (st w)).
Definition timer_on (u : string) (w : world) : bool := default false (timers w !! u).

Definition put_backup (sha : string) (s : state) : state :=
  State true sha (env_touched s) (disarm_attempted s) (auto_restore s) (timer_restore s) (arms s) (measure_attempts s)
    (probe_blocks s) (probes s) (phases s) (phase_in_progress s) (gates s) (verdict s).
Definition put_touched (b : bool) (s : state) : state :=
  State (backup s) (env_sha256 s) b (disarm_attempted s) (auto_restore s) (timer_restore s) (arms s) (measure_attempts s)
    (probe_blocks s) (probes s) (phases s) (phase_in_progress s) (gates s) (verdict s).
Definition put_disarm (s : state) : state :=
  State (backup s) (env_sha256 s) (env_touched s) true (auto_restore s) (timer_restore s) (arms s) (measure_attempts s)
    (probe_blocks s) (probes s) (phases s) (phase_in_progress s) (gates s) (verdict s).
Definition put_auto (o : outcome) (s : state) : state :=
  State (backup s) (env_sha256 s) (env_touched s) (disarm_attempted s) (Some o) (timer_restore s) (arms s) (measure_attempts s)
    (probe_blocks s) (probes s) (phases s) (phase_in_progress s) (gates s) (verdict s).
Definition put_timer (o : outcome) (s : state) : state :=
  State (backup s) (env_sha256 s) (env_touched s) (disarm_attempted s) (auto_restore s) (Some o) (arms s) (measure_attempts s)
    (probe_blocks s) (probes s) (phases s) (phase_in_progress s) (gates s) (verdict s).
Definition put_arm (arm : string) (f : arm_rec -> arm_rec) (s : state) : state :=
  State (backup s) (env_sha256 s) (env_touched s) (disarm_attempted s) (auto_restore s) (timer_restore s)
    (<[arm := f (default no_arm (arms s !! arm))]> (arms s)) (measure_attempts s)
    (probe_blocks s) (probes s) (phases s) (phase_in_progress s) (gates s) (verdict s).
Definition put_measure (n : Z) (bs : list block) (ps : list (string * string * Z)) (s : state) : state :=
  State (backup s) (env_sha256 s) (env_touched s) (disarm_attempted s) (auto_restore s) (timer_restore s) (arms s) n
    bs ps (phases s) (phase_in_progress s) (gates s) (verdict s).
Definition put_phase (ps : list (string * bool)) (p : option string) (s : state) : state :=
  State (backup s) (env_sha256 s) (env_touched s) (disarm_attempted s) (auto_restore s) (timer_restore s) (arms s)
    (measure_attempts s) (probe_blocks s) (probes s) ps p (gates s) (verdict s).
Definition put_gates (g : Z * Q * Q) (s : state) : state :=
  State (backup s) (env_sha256 s) (env_touched s) (disarm_attempted s) (auto_restore s) (timer_restore s) (arms s)
    (measure_attempts s) (probe_blocks s) (probes s) (phases s) (phase_in_progress s) (Some g) (verdict s).
Definition put_verdict (v : option string) (s : state) : state :=
  State (backup s) (env_sha256 s) (env_touched s) (disarm_attempted s) (auto_restore s) (timer_restore s) (arms s)
    (measure_attempts s) (probe_blocks s) (probes s) (phases s) (phase_in_progress s) (gates s) v.

Create HintDb quiet.

Section runner.
(** [sha256] of a text, and the answers of everything outside the script. *)
Context (sha256 : string -> string) (oracle : nat -> answer).

(** The next answer, consumed. *)
Definition next : M answer := fun w =>
  (Ok (oracle (clock w)), World (env_text w) (backup_text w) (timers w) (S (clock w)) (st w)).

(** An outside call: its answer, or the exception it raises. *)
Definition ask : M answer := a ← next; match a_exn a with Some e => raise (exn_of e) | None => mret a end.

(** [save]: a failed write is swallowed; a signal is not. *)
Definition save : M unit :=
  a ← next; match a_exn a with Some Signal => raise KeyboardInterrupt | _ => mret tt end.

Definition update (f : state -> state) : M unit := modify (set_st f).
Definition fail_if (b : bool) : M unit := if b then raise RuntimeError else mret tt.

(** ** Reading the cluster *)

(** [container_image], [exllamav3_version], [container_started_at], [jit_stamp],
    [pool_capacity]: a command's output. *)
Definition output : M string := a ← ask; mret (a_out a).

(** [preemptions]: [None] when the counter cannot be read. *)
Definition preemptions : M (option Q) := a ← ask; mret (if a_rc a =? 0 then a_num a else None).

(** [memfree_gib]: a number, or the parse raises. *)
Definition memfree_gib : M Q := a ← ask; match a_num a with Some q => mret q | None => raise ValueError end.

(** [check_tripwire]. *)
Definition check_tripwire : M (Q * Q) :=
  head ← memfree_gib; worker ← memfree_gib;
  _ ← fail_if (Qltb head TRIPWIRE_GIB || Qltb worker TRIPWIRE_GIB);
  mret (head, worker).

(** [verify_arm] on one node: the image and the version it runs. *)
Definition verify_arm (arm : string) : M (string * string) :=
  image ← output;
  _ ← fail_if (negb (String.eqb image (arm_spec arm).1));
  version ← output;
  _ ← fail_if (negb (String.eqb version (arm_spec arm).2));
  mret (image, version).

(** [guarded_start]; and [wait_health], a poll each 15 s: at most 161 before its
    deadline of 2400 s. *)
Definition guarded_start : M unit := a ← ask; fail_if (negb (a_rc a =? 0)).
Fixpoint wait_health (polls : nat) : M bool :=
  match polls with
  | O => mret false
  | S polls' =>
      in_time ← next;
      if negb (a_effect in_time) then mret false
      else
        a ← ask;
        if a_rc a =? 200 then mret true else _ ← ask; wait_health polls'
  end.

(** [drain]: nothing serves, or no request is running or waiting. *)
Fixpoint drain (polls : nat) : M bool :=
  match polls with
  | O => mret false
  | S polls' =>
      in_time ← next;
      if negb (a_effect in_time) then mret false
      else
        a ← ask;
        if negb (a_rc a =? 200) then mret true
        else
          running ← (match a_num a with Some q => mret q | None => raise ValueError end);
          if Qeq_bool running 0 then mret true else _ ← ask; drain polls'
  end.

(** ** Timers *)

(** [systemctl --user is-active]: a trustworthy answer (return code 0 or 3 with one
    of the two words) is the truth; any other answer is as it came. *)
Definition is_active (u : string) : M (Z * string) :=
  a ← ask; on ← get (timer_on u);
  mret (if ((a_rc a =? 0) || (a_rc a =? 3)) && (String.eqb (a_out a) "active" || String.eqb (a_out a) "inactive")
        then (if on : bool then (0, "active") else (3, "inactive")) else (a_rc a, a_out a)).

(** [timer_states], one unit. *)
Definition timer_state (u : string) : M string :=
  r ← attempt is_exception (is_active u);
  mret (match r with
        | inr _ => "unknown"
        | inl (rc, status) => if ((rc =? 0) || (rc =? 3)) && negb (String.eqb status "") then status else "unknown"
        end).

Fixpoint timer_states (us : list string) : M (list (string * string)) :=
  match us with
  | [] => mret []
  | u :: us' => s ← timer_state u; rest ← timer_states us'; mret ((u, s) :: rest)
  end.

(** [systemctl --user stop] and [start]: the timer may end in either state, only
    moved towards [target]. *)
Definition systemctl (target : bool) (u : string) : M Z :=
  a ← next;
  _ ← (if a_effect a then modify (set_timer u target) else mret tt);
  match a_exn a with Some e => raise (exn_of e) | None => mret (a_rc a) end.

(** The loops over [TIMERS] of [phase_disarm] and [phase_rearm]: every unit is
    tried, failures are collected. *)
Fixpoint each_timer (target : bool) (us : list string) : M (list string) :=
  match us with
  | [] => mret []
  | u :: us' =>
      r ← attempt is_exception (systemctl target u);
      rest ← each_timer target us';
      mret (match r with inl rc => if rc =? 0 then rest else u :: rest | inr _ => u :: rest end)
  end.

(** [_active_services], one unit: whether it is busy. *)
Definition service_busy : M bool :=
  r ← attempt is_exception ask;
  mret (match r with
        | inl a => negb (((a_rc a =? 0) || (a_rc a =? 3)) && String.eqb (a_out a) "inactive")
        | inr _ => true
        end).

(** [_pending_jobs] is [0]. *)
Definition no_jobs : M bool :=
  a ← ask; mret ((a_rc a =? 0) && match a_num a with Some q => Qeq_bool q 0 | None => false end).

(** [wait_quiescent]: at most [polls] polls fit before the deadline; a poll may
    also be the last by the clock. *)
Fixpoint wait_quiescent (polls : nat) : M bool :=
  b1 ← service_busy; b2 ← service_busy; quiet ← no_jobs;
  if negb b1 && negb b2 && quiet then mret true
  else
    expired ← next;
    match polls with
    | O => mret false
    | S polls' => if a_effect expired then mret false else _ ← ask; wait_quiescent polls'
    end.

(** [require_disarmed]. *)
Definition require_disarmed : M unit :=
  states ← timer_states TIMERS;
  _ ← fail_if (existsb (fun p => negb (String.eqb p.2 "inactive")) states);
  quiet ← wait_quiescent 25;
  fail_if (negb quiet).

(** ** Phases *)

Fixpoint images_present (l : list string) : M unit :=
  match l with
  | [] => mret tt
  | _ :: l' => head ← ask; worker ← ask; _ ← fail_if (negb ((a_rc head =? 0) && (a_rc worker =? 0))); images_present l'
  end.

(** [effective_env_all] of the file; a missing file raises. *)
Definition read_env : M environ :=
  t ← get env_text; match t with Some t => mret (effective_env_all t) | None => raise OtherException end.

(** The copy of [.env] to its new backup file. *)
Definition copy_to_backup : M unit :=
  _ ← ask;
  t ← get env_text;
  match t with
  | None => raise OtherException
  | Some t => modify (fun w => World (env_text w) (Some t) (timers w) (clock w) (put_backup (sha256 t) (st w)))
  end.

Definition phase_preflight : M unit :=
  t ← get env_text;
  _ ← fail_if (match t with None => true | _ => false end);
  probe ← ask; auditor ← ask;
  _ ← fail_if (negb (a_effect probe && a_effect auditor));
  _ ← output;
  _ ← copy_to_backup;
  _ ← save;
  env ← read_env;
  _ ← fail_if (bool_decide (env !! "IMAGE" <> Some PRODUCTION_IMAGE));
  health ← ask;
  _ ← fail_if (negb (a_rc health =? 200));
  drained ← drain 31;
  _ ← fail_if (negb drained);
  _ ← images_present ARMS;
  _ ← output;
  mret tt.

Definition phase_disarm : M unit :=
  _ ← update put_disarm;
  _ ← save;
  failures ← each_timer false TIMERS;
  _ ← attempt is_exception ask;
  states ← timer_states TIMERS;
  _ ← fail_if (existsb (fun p => negb (String.eqb p.2 "inactive")) states || bool_decide (failures <> []));
  quiet ← wait_quiescent 60;
  _ ← save;
  fail_if (negb quiet).

(** [set_image]: read, append, write back; a failed write may leave any text. *)
Definition set_image_file (tag : string) : M unit :=
  _ ← ask;
  t ← get env_text;
  match t with
  | None => raise OtherException
  | Some t =>
      a ← next;
      match a_exn a with
      | None => modify (set_env (Some (set_image tag t)))
      | Some e => _ ← (if a_effect a then modify (set_env (Some (a_out a))) else mret tt); raise (exn_of e)
      end
  end.

Definition phase_arm (arm : string) : M unit :=
  _ ← update (fun s => put_touched true (put_arm arm (fun r => r) s));
  _ ← save;
  _ ← set_image_file (arm_spec arm).1;
  _ ← guarded_start;
  healthy ← wait_health 161;
  _ ← fail_if (negb healthy);
  head ← verify_arm arm;
  worker ← verify_arm arm;
  _ ← check_tripwire;
  warm ← ask;
  _ ← fail_if (negb (a_rc warm =? 0));
  stamp ← output; pool ← output; boot ← output; worker_boot ← output;
  before ← preemptions;
  _ ← update (put_arm arm (fun r => ArmRec head.1 head.2 worker.1 worker.2 stamp pool boot worker_boot before (preemptions_delta r)));
  save.

(** Set the outcome of the last registered block. *)
Definition close_block (ok : bool) (bs : list block) : list block :=
  match rev bs with
  | [] => []
  | b :: r => rev (Block (b_arm b) (b_lane b) (b_runs b) (b_attempt b) (Some ok) :: r)
  end.

(** One lane: the block is registered before the probe runs. *)
Definition measure_lane (arm : string) (attempt_no : Z) (lane : string * Z) : M unit :=
  _ ← check_tripwire;
  _ ← update (fun s => put_measure (measure_attempts s)
        (probe_blocks s ++ [Block arm lane.1 lane.2 attempt_no None]) (probes s) s);
  _ ← save;
  proc ← ask;
  _ ← check_tripwire;
  if negb (a_rc proc =? 0) then
    _ ← update (fun s => put_measure (measure_attempts s) (close_block false (probe_blocks s)) (probes s) s);
    _ ← save;
    raise RuntimeError
  else
    _ ← update (fun s => put_measure (measure_attempts s) (close_block true (probe_blocks s))
          (probes s ++ [(arm, lane.1, attempt_no)]) s);
    save.

Fixpoint measure_lanes (arm : string) (attempt_no : Z) (l : list (string * Z)) : M unit :=
  match l with
  | [] => mret tt
  | lane :: l' => _ ← measure_lane arm attempt_no lane; measure_lanes arm attempt_no l'
  end.

Definition phase_measure (arm : string) : M unit :=
  _ ← verify_arm arm;
  _ ← verify_arm arm;
  boot ← output; worker_boot ← output;
  _ ← fail_if (String.eqb boot "" || String.eqb worker_boot "");
  record ← get (fun w => default no_arm (arms (st w) !! arm));
  _ ← fail_if (String.eqb (r_boot record) "" || String.eqb (r_worker_boot record) "");
  _ ← fail_if (negb (String.eqb boot (r_boot record)) || negb (String.eqb worker_boot (r_worker_boot record)));
  n ← get (fun w => measure_attempts (st w) + 1);
  _ ← update (fun s => put_measure n (probe_blocks s) (probes s) s);
  _ ← save;
  _ ← measure_lanes arm n LANES;
  after ← preemptions;
  let delta := match preemptions_before record, after with Some x, Some y => Some (y - x)%Q | _, _ => None end in
  _ ← update (put_arm arm (fun r => ArmRec (r_image r) (r_version r) (r_worker_image r) (r_worker_version r)
        (r_stamp r) (r_pool r) (r_boot r) (r_worker_boot r) (preemptions_before r) delta));
  _ ← save;
  fail_if (match delta with None => true | Some d => negb (Qeq_bool d 0) end).

(** The copy of the backup over [.env]; a failed copy may leave any text. *)
Definition copy_from_backup : M unit :=
  s ← get st;
  _ ← (if backup s then mret tt else raise KeyError);
  a ← next;
  b ← get backup_text;
  match a_exn a, b with
  | None, Some t => modify (set_env (Some t))
  | None, None => raise OtherException
  | Some e, _ => _ ← (if a_effect a then modify (set_env (Some (a_out a))) else mret tt); raise (exn_of e)
  end.

Definition phase_restore : M unit :=
  _ ← copy_from_backup;
  t ← get env_text;
  _ ← ask;
  s ← get st;
  _ ← fail_if (match t with Some t => negb (String.eqb (sha256 t) (env_sha256 s)) | None => true end);
  _ ← save;
  _ ← guarded_start;
  healthy ← wait_health 161;
  _ ← fail_if (negb healthy);
  _ ← verify_arm "b";
  _ ← verify_arm "b";
  _ ← update (put_touched false);
  save.

Definition phase_gates : M unit :=
  acc ← ask;
  mem ← check_tripwire;
  _ ← output; _ ← output;
  _ ← update (put_gates (a_rc acc, mem.1, mem.2));
  _ ← save;
  fail_if (negb (a_rc acc =? 0)).

Definition phase_rearm : M unit :=
  failures ← each_timer true TIMERS;
  states ← timer_states TIMERS;
  _ ← save;
  fail_if (bool_decide (failures <> []) || existsb (fun p => negb (String.eqb p.2 "active")) states).

Definition phase_judge : M unit :=
  a ← ask;
  let v := if a_effect a then Some (a_out a) else None in
  _ ← update (put_verdict v);
  _ ← save;
  fail_if (match v with None => true | Some _ => false end).

(** [HANDLERS]. *)
Definition HANDLERS (name : string) : M unit :=
  if String.eqb name "preflight" then phase_preflight
  else if String.eqb name "disarm" then phase_disarm
  else if String.eqb name "restore" then phase_restore
  else if String.eqb name "gates" then phase_gates
  else if String.eqb name "rearm" then phase_rearm
  else if String.eqb name "judge" then phase_judge
  else if String.prefix "arm_" name then phase_arm (drop_str 4 name)
  else phase_measure (drop_str 8 name).

(** ** Recovery *)

Definition needs_env_restore : M bool :=
  s ← get st;
  if negb (backup s) then mret false
  else if env_touched s then mret true
  else
    t ← get env_text;
    let env := match t with Some t => effective_env_all t | None => ∅ end in
    mret (bool_decide (env !! "IMAGE" <> Some PRODUCTION_IMAGE)).

Definition needs_timer_restore : M bool := s ← get st; mret (disarm_attempted s).

Definition recover_timers : M unit :=
  n ← needs_timer_restore;
  if negb n then mret tt
  else
    r ← attempt is_exception (_ ← phase_rearm; update (put_timer RestoreOk));
    _ ← (match r with inl _ => mret tt | inr _ => update (put_timer RestoreFailed) end);
    save.

Definition restore_production : M unit :=
  n ← needs_env_restore;
  if negb n then update (put_auto NotNeeded)
  else
    r ← attempt is_exception (_ ← phase_restore; update (put_auto RestoreOk));
    match r with inl _ => mret tt | inr _ => update (put_auto RestoreFailed) end.

Definition failed (o : option outcome) : bool := match o with Some RestoreFailed => true | _ => false end.

(** [_recovery_ok]. *)
Definition _recovery_ok (s : state) : bool := negb (failed (auto_restore s)) && negb (failed (timer_restore s)).

(** [emergency_restore], the exit hook; [done] is [_RESTORE_DONE]. *)
Definition emergency_restore (done keep_armed : bool) : M unit :=
  if done || keep_armed then mret tt
  else
    n1 ← needs_env_restore; n2 ← needs_timer_restore;
    if negb (n1 || n2) then mret tt
    else _ ← restore_production; _ ← recover_timers; save.

(** ** Main *)

(** The loop over the phases: whether one failed. *)
Fixpoint run_phases (l : list string) : M bool :=
  match l with
  | [] => mret false
  | name :: l' =>
      _ ← update (fun s => put_phase (phases s) (Some name) s);
      _ ← save;
      r ← attempt is_handled (HANDLERS name);
      match r with
      | inr _ =>
          _ ← update (fun s => put_phase (phases s ++ [(name, false)]) None s);
          _ ← save;
          mret true
      | inl _ =>
          _ ← update (fun s => put_phase (phases s ++ [(name, true)]) None s);
          _ ← save;
          run_phases l'
      end
  end.

(** The [try] around the loop, and its [finally]: the failure and whether the exit
    hook is disarmed. *)
Definition guarded (keep_armed : bool) (l : list string) : M (bool * bool) :=
  r ← attempt is_handled (run_phases l);
  let failure := match r with inl b => b | inr _ => true end in
  finished ← (if failure && negb keep_armed
              then _ ← restore_production; _ ← recover_timers; s ← get st; mret (_recovery_ok s)
              else mret true);
  _ ← save;
  mret (failure, finished).

(** The whole process: [main] from phase [lo] to phase [hi], then the exit hook. An
    exception that leaves [main] leaves [_RESTORE_DONE] unset. *)
Definition process (lo hi : nat) (keep_armed : bool) : M Z :=
  if (hi <? lo)%nat then mret 2
  else
    s ← get st;
    if negb (lo =? 0)%nat && negb (backup s) then mret 2
    else
      let l := firstn (S hi - lo) (skipn lo PHASES) in
      ready ← (match l with
               | name :: _ =>
                   if String.prefix "arm_" name || String.prefix "measure_" name
                   then r ← attempt (fun e => bool_decide (e = RuntimeError)) require_disarmed; mret (match r with inl _ => true | inr _ => false end)
                   else mret true
               | [] => mret true
               end);
      if negb ready then mret 2
      else
        r ← attempt (fun _ => true) (_ ← save; guarded keep_armed l);
        match r with
        | inl (failure, finished) =>
            _ ← emergency_restore finished keep_armed;
            mret (if failure : bool then 1 else 0)
        | inr _ => _ ← emergency_restore false keep_armed; mret 1
        end.

(** ** A small program logic *)

(** From [P], a normal end satisfies [Q] and an exception leaves [E]. *)
Definition triple {A} (P : world -> Prop) (m : M A) (Q : A -> world -> Prop) (E : world -> Prop) : Prop :=
  forall w, P w -> match m w with (Ok a, w') => Q a w' | (Raise _, w') => E w' end.

Lemma triple_bind {A B} P (m : M A) (k : A -> M B) R Q E :
  triple P m R E -> (forall a, triple (R a) (k a) Q E) -> triple P (m ≫= k) Q E.
Proof.
  intros Hm Hk w Hw. specialize (Hm w Hw). unfold mbind, M_bind. destruct (m w) as [[a|e] w']; [|done].
  by apply Hk.
Qed.

Lemma triple_conseq {A} P P' (m : M A) Q Q' E E' : triple P' m Q' E' ->
  (forall w, P w -> P' w) -> (forall a w, Q' a w -> Q a w) -> (forall w, E' w -> E w) -> triple P m Q E.
Proof. intros Hm HP HQ HE w Hw. specialize (Hm w (HP w Hw)). destruct (m w) as [[a|e] w']; auto. Qed.

Lemma triple_attempt {A} P c (m : M A) Q E : triple P m Q E ->
  triple P (attempt c m) (fun r w => match r with inl a => Q a w | inr _ => E w end) E.
Proof.
  intros Hm w Hw. specialize (Hm w Hw). unfold attempt. destruct (m w) as [[a|e] w']; [done |]. by destruct (c e).
Qed.

Lemma triple_ret {A} (Q : A -> world -> Prop) a E : triple (Q a) (mret a) Q E.
Proof. by intros w Hw. Qed.

Lemma triple_get {A} P (f : world -> A) E : triple P (get f) (fun a w => P w /\ a = f w) E.
Proof. by intros w Hw. Qed.

Lemma triple_modify P f E : triple (fun w => P (f w)) (modify f) (fun _ => P) E.
Proof. by intros w Hw. Qed.

(** What the recovery is about is untouched. *)
Definition same (w w' : world) : Prop :=
  env_text w' = env_text w /\ backup_text w' = backup_text w /\ timers w' = timers w /\
  backup (st w') = backup (st w) /\ env_touched (st w') = env_touched (st w) /\
  disarm_attempted (st w') = disarm_attempted (st w) /\
  auto_restore (st w') = auto_restore (st w) /\ timer_restore (st w') = timer_restore (st w).

Definition quiet {A} (m : M A) : Prop := forall w, same w (m w).2.
Definition framed (P : world -> Prop) : Prop := forall w w', same w w' -> P w -> P w'.

Lemma triple_quiet {A} P (m : M A) : quiet m -> framed P -> triple P m (fun _ => P) P.
Proof. intros Hm HP w Hw. specialize (Hm w). destruct (m w) as [[a|e] w']; by apply (HP w). Qed.

Lemma same_trans w1 w2 w3 : same w1 w2 -> same w2 w3 -> same w1 w3.
Proof. unfold same. intuition congruence. Qed.

Lemma quiet_bind {A B} (m : M A) (k : A -> M B) : quiet m -> (forall a, quiet (k a)) -> quiet (m ≫= k).
Proof.
  intros Hm Hk w. unfold mbind, M_bind. specialize (Hm w). destruct (m w) as [[a|e] w']; [|done].
  eapply same_trans; [exact Hm | apply Hk].
Qed.
Lemma quiet_attempt {A} c (m : M A) : quiet m -> quiet (attempt c m).
Proof. intros Hm w. specialize (Hm w). unfold attempt. destruct (m w) as [[a|e] w']; [done |]. by destruct (c e). Qed.
Lemma quiet_ret {A} (a : A) : quiet (mret a).
Proof. done. Qed.
Lemma quiet_raise {A} e : quiet (@raise A e).
Proof. done. Qed.
Lemma quiet_get {A} (f : world -> A) : quiet (get f).
Proof. done. Qed.
Lemma quiet_next : quiet next.
Proof. done. Qed.

(** An update of the receipt's other fields. *)
Lemma quiet_update f : (forall s, backup (f s) = backup s /\ env_touched (f s) = env_touched s /\
    disarm_attempted (f s) = disarm_attempted s /\ auto_restore (f s) = auto_restore s /\ timer_restore (f s) = timer_restore s) ->
  quiet (update f).
Proof. intros H w. destruct (H (st w)) as (? & ? & ? & ? & ?). by repeat split. Qed.

Ltac quiet_step := first
  [ apply quiet_next | apply quiet_raise | apply quiet_ret | apply quiet_get
  | assumption | solve [auto with quiet nocore]
  | apply quiet_attempt | apply quiet_update; by intros | apply quiet_bind; [|intros ?]
  | match goal with |- quiet (match ?x with _ => _ end) => destruct x end
  | match goal with |- quiet (let _ := _ in _) => cbv zeta end ].


(** Reading the cluster, saving the receipt and measuring are quiet. *)
Lemma quiet_ask : quiet ask.
Proof. unfold ask. repeat quiet_step. Qed.
#[local] Hint Resolve quiet_ask : quiet.
Lemma quiet_save : quiet save.
Proof. unfold save. repeat quiet_step. Qed.
#[local] Hint Resolve quiet_save : quiet.
Lemma quiet_fail_if b : quiet (fail_if b).
Proof. unfold fail_if. repeat quiet_step. Qed.
#[local] Hint Resolve quiet_fail_if : quiet.
Lemma quiet_output : quiet output.
Proof. unfold output. repeat quiet_step. Qed.
#[local] Hint Resolve quiet_output : quiet.
Lemma quiet_preemptions : quiet preemptions.
Proof. unfold preemptions. repeat quiet_step. Qed.
#[local] Hint Resolve quiet_preemptions : quiet.
Lemma quiet_memfree : quiet memfree_gib.
Proof. unfold memfree_gib. repeat quiet_step. Qed.
#[local] Hint Resolve quiet_memfree : quiet.
Lemma quiet_tripwire : quiet check_tripwire.
Proof. unfold check_tripwire. repeat quiet_step. Qed.
#[local] Hint Resolve quiet_tripwire : quiet.
Lemma quiet_verify arm : quiet (verify_arm arm).
Proof. unfold verify_arm. repeat quiet_step. Qed.
#[local] Hint Resolve quiet_verify : quiet.
Lemma quiet_start : quiet guarded_start.
Proof. unfold guarded_start. repeat quiet_step. Qed.
#[local] Hint Resolve quiet_start : quiet.
Lemma quiet_health n : quiet (wait_health n).
Proof. induction n; simpl; repeat quiet_step. Qed.
#[local] Hint Resolve quiet_health : quiet.
Lemma quiet_drain n : quiet (drain n).
Proof. induction n; simpl; repeat quiet_step. Qed.
#[local] Hint Resolve quiet_drain : quiet.
Lemma quiet_is_active u : quiet (is_active u).
Proof. unfold is_active. repeat quiet_step. Qed.
#[local] Hint Resolve quiet_is_active : quiet.
Lemma quiet_timer_state u : quiet (timer_state u).
Proof. unfold timer_state. repeat quiet_step. Qed.
#[local] Hint Resolve quiet_timer_state : quiet.
Lemma quiet_timer_states us : quiet (timer_states us).
Proof. induction us; simpl; repeat quiet_step. Qed.
#[local] Hint Resolve quiet_timer_states : quiet.
Lemma quiet_busy : quiet service_busy.
Proof. unfold service_busy. repeat quiet_step. Qed.
#[local] Hint Resolve quiet_busy : quiet.
Lemma quiet_jobs : quiet no_jobs.
Proof. unfold no_jobs. repeat quiet_step. Qed.
#[local] Hint Resolve quiet_jobs : quiet.
Lemma quiet_wait n : quiet (wait_quiescent n).
Proof. induction n; simpl; repeat quiet_step. Qed.
#[local] Hint Resolve quiet_wait : quiet.
Lemma quiet_images l : quiet (images_present l).
Proof. induction l; simpl; repeat quiet_step. Qed.
#[local] Hint Resolve quiet_images : quiet.
Lemma quiet_read_env : quiet read_env.
Proof. unfold read_env. repeat quiet_step. Qed.
#[local] Hint Resolve quiet_read_env : quiet.
Lemma quiet_require : quiet require_disarmed.
Proof. unfold require_disarmed. repeat quiet_step. Qed.
#[local] Hint Resolve quiet_require : quiet.
Lemma quiet_measure_lane arm n l : quiet (measure_lane arm n l).
Proof. unfold measure_lane. repeat quiet_step. Qed.
#[local] Hint Resolve quiet_measure_lane : quiet.
Lemma quiet_measure_lanes arm n l : quiet (measure_lanes arm n l).
Proof. induction l; simpl; repeat quiet_step. Qed.
#[local] Hint Resolve quiet_measure_lanes : quiet.
Lemma quiet_measure arm : quiet (phase_measure arm).
Proof. unfold phase_measure. repeat quiet_step. Qed.
#[local] Hint Resolve quiet_measure : quiet.
Lemma quiet_gates : quiet phase_gates.
Proof. unfold phase_gates. repeat quiet_step. Qed.
#[local] Hint Resolve quiet_gates : quiet.
Lemma quiet_judge : quiet phase_judge.
Proof. unfold phase_judge. repeat quiet_step. Qed.
#[local] Hint Resolve quiet_judge : quiet.
Lemma quiet_needs_env : quiet needs_env_restore.
Proof. unfold needs_env_restore. repeat quiet_step. Qed.
#[local] Hint Resolve quiet_needs_env : quiet.
Lemma quiet_needs_timer : quiet needs_timer_restore.
Proof. unfold needs_timer_restore. repeat quiet_step. Qed.
#[local] Hint Resolve quiet_needs_timer : quiet.

(** ** The recovery invariant *)

Context (orig : string).

(** [.env] is the pre-window text, or the receipt says it was touched and the backup
    holds that text; a timer is up, or the receipt says disarming was attempted. *)
Record inv (w : world) : Prop := {
  inv_backup : backup (st w) = true -> backup_text w = Some orig;
  inv_env : env_text w = Some orig \/ (backup (st w) = true /\ env_touched (st w) = true);
  inv_timer : (forall u, In u TIMERS -> timer_on u w = true) \/ disarm_attempted (st w) = true
}.

Definition env_safe (w : world) : Prop := env_text w = Some orig \/ auto_restore (st w) = Some RestoreFailed.
Definition timers_on (w : world) : Prop := forall u, In u TIMERS -> timer_on u w = true.
Definition timers_safe (w : world) : Prop := timers_on w \/ timer_restore (st w) = Some RestoreFailed.

Lemma timer_on_same u w w' : timers w' = timers w -> timer_on u w' = timer_on u w.
Proof. unfold timer_on. by intros ->. Qed.

Lemma framed_inv : framed inv.
Proof.
  intros w w' (H1 & H2 & H3 & H4 & H5 & H6 & _ & _) [B E T].
  split; rewrite ?H1, ?H2, ?H4, ?H5, ?H6; [done | done |]. destruct T as [T|T]; [left | by right].
  intros u Hu. rewrite (timer_on_same u w w' H3). by apply T.
Qed.
Lemma framed_env_safe : framed env_safe.
Proof. intros w w' (H1 & _ & _ & _ & _ & _ & H7 & _). unfold env_safe. by rewrite H1, H7. Qed.
Lemma framed_env : framed (fun w => env_text w = Some orig).
Proof. intros w w' (H1 & _). by rewrite H1. Qed.
Lemma framed_timers_on : framed timers_on.
Proof. intros w w' (_ & _ & H3 & _) H u Hu. rewrite (timer_on_same u w w' H3). by apply H. Qed.
Lemma framed_timers_safe : framed timers_safe.
Proof.
  intros w w' H [T|T]; [left; by eapply framed_timers_on | right]. by destruct H as (_ & _ & _ & _ & _ & _ & _ & ->).
Qed.
Lemma framed_and P Q : framed P -> framed Q -> framed (fun w => P w /\ Q w).
Proof. intros HP HQ w w' H [? ?]. split; [by eapply HP | by eapply HQ]. Qed.
Lemma framed_true : framed (fun _ => True).
Proof. done. Qed.

#[local] Hint Resolve framed_inv framed_env_safe framed_env framed_timers_on framed_timers_safe framed_and framed_true : quiet.

(** One quiet step at the head of a sequence. *)
Lemma triple_bind_quiet {A B} P (m : M A) (k : A -> M B) Q E :
  quiet m -> framed P -> (forall w, P w -> E w) -> (forall a, triple P (k a) Q E) -> triple P (m ≫= k) Q E.
Proof.
  intros Hm HP HE Hk. eapply triple_bind; [|exact Hk].
  eapply triple_conseq; [by apply triple_quiet | done | done | done].
Qed.

Lemma triple_quiet_end {A} P (m : M A) E :
  quiet m -> framed P -> (forall w, P w -> E w) -> triple P m (fun _ => P) E.
Proof. intros Hm HP HE. eapply triple_conseq; [by apply triple_quiet | done | done | done]. Qed.

Ltac quiet_bind := apply triple_bind_quiet; [solve [repeat quiet_step] | auto 6 with quiet | tauto | intros ?].

(** ** Phases keep the invariant *)

(** After the preflight there is a backup to go back to. *)
Definition backed (w : world) : Prop := inv w /\ backup (st w) = true.
Lemma framed_backed : framed backed.
Proof. apply framed_and; [apply framed_inv |]. by intros w w' (_ & _ & _ & -> & _). Qed.
#[local] Hint Resolve framed_backed : quiet.

Lemma preflight_ok : triple (fun w => inv w /\ env_text w = Some orig) phase_preflight
  (fun _ w => backed w /\ env_text w = Some orig) (fun w => inv w /\ env_text w = Some orig).
Proof.
  unfold phase_preflight. do 6 quiet_bind.
  eapply (triple_bind _ _ _ (fun _ w => backed w /\ env_text w = Some orig)).
  - unfold copy_to_backup. quiet_bind. intros w [[B E T] He]. unfold mbind, M_bind, get. rewrite He. simpl.
    split; [|done]. split; [|done]. split; simpl; [done | by left | exact T].
  - intros ?. repeat (apply triple_bind_quiet; [solve [repeat quiet_step] | auto 6 with quiet | by intros w [[? ?] ?] | intros ?]).
    by intros w Hw.
Qed.

(** A loop over the timers leaves the rest alone and moves each one towards the
    target. *)
Lemma each_timer_rest target us : forall w, let w' := (each_timer target us w).2 in
  env_text w' = env_text w /\ backup_text w' = backup_text w /\ st w' = st w /\
  forall u, timer_on u w = target -> timer_on u w' = target.
Proof.
  induction us as [|u us IH]; intros w; [done |]. cbn [each_timer].
  unfold mbind, M_bind, attempt.
  assert (let w1 := (systemctl target u w).2 in env_text w1 = env_text w /\ backup_text w1 = backup_text w /\ st w1 = st w /\
    forall v, timer_on v w = target -> timer_on v w1 = target) as H1.
  { unfold systemctl, mbind, M_bind, next. set (a := oracle (clock w)).
    assert (forall x, timer_on x w = target -> timer_on x (set_timer u target w) = target) as Ht.
    { intros v Hv. unfold timer_on, set_timer. simpl. destruct (decide (u = v)) as [->|Hn].
      - by rewrite lookup_insert_eq.
      - by rewrite lookup_insert_ne. }
    destruct (a_effect a); simpl; destruct (a_exn a); simpl; (split; [done |]; split; [done |]; split; [done |]; exact Ht || done). }
  destruct (systemctl target u w) as [[rc|e] w1]; simpl in H1; [|destruct (is_exception e)].
  1-2: specialize (IH w1); destruct (each_timer target us w1) as [[r|e'] w2]; simpl in *;
    destruct IH as (I1 & I2 & I3 & I4), H1 as (J1 & J2 & J3 & J4);
    (split; [congruence |]); (split; [congruence |]); (split; [congruence |]); auto.
  exact H1.
Qed.

(** Once disarming is on record the timers do not matter. *)
Definition timer_blind (P : world -> Prop) : Prop := forall w w',
  env_text w' = env_text w -> backup_text w' = backup_text w -> st w' = st w -> P w -> P w'.

Lemma disarm_gen P P' : framed P' -> timer_blind P' -> (forall w, P w -> P' (set_st put_disarm w)) ->
  triple P phase_disarm (fun _ => P') P'.
Proof.
  intros Hf Hb Hd. unfold phase_disarm. eapply (triple_bind _ _ _ (fun _ => P')); [intros w Hw; by apply Hd |]. intros _.
  apply triple_bind_quiet; [apply quiet_save | done | done | intros ?].
  eapply (triple_bind _ _ _ (fun _ => P')).
  - intros w Hw. pose proof (each_timer_rest false TIMERS w) as H. cbv zeta in H.
    destruct (each_timer false TIMERS w) as [[fl|e] w']; simpl in H; destruct H as (H1 & H2 & H3 & _); by apply (Hb w).
  - intros ?. repeat (apply triple_bind_quiet; [solve [repeat quiet_step] | done | done | intros ?]).
    apply triple_quiet_end; [solve [repeat quiet_step] | done | done].
Qed.

Definition touched (w : world) : Prop :=
  inv w /\ backup (st w) = true /\ env_touched (st w) = true.
Lemma framed_touched : framed touched.
Proof.
  apply framed_and; [apply framed_inv |]. intros w w' (_ & _ & _ & -> & -> & _) H. exact H.
Qed.
#[local] Hint Resolve framed_touched : quiet.

(** Once touched, any text may be in the file. *)
Lemma touched_set_env t w : touched w -> touched (set_env t w).
Proof. intros ([B E T] & Hb & Ht). repeat split; simpl; try done. by right. Qed.

Lemma set_image_ok tag : triple touched (set_image_file tag) (fun _ => touched) touched.
Proof.
  unfold set_image_file. apply triple_bind_quiet; [solve [repeat quiet_step] | auto with quiet | done | intros ?].
  intros w Hw. unfold mbind, M_bind, get. destruct (env_text w) as [t|]; [|done]. unfold next.
  set (ans := oracle (clock w)).
  assert (touched (World (env_text w) (backup_text w) (timers w) (S (clock w)) (st w))) as Hw' by (by apply (framed_touched w)).
  destruct (a_exn ans) as [e|]; [|by apply touched_set_env]. destruct (a_effect ans); [by apply touched_set_env | done].
Qed.

Lemma arm_ok arm : triple backed (phase_arm arm) (fun _ => touched) touched.
Proof.
  unfold phase_arm. eapply (triple_bind _ _ _ (fun _ => touched)).
  { intros w [[B E T] Hb]. simpl. repeat split; simpl; try done. by right. }
  intros _. apply triple_bind_quiet; [apply quiet_save | auto with quiet | done | intros ?].
  eapply (triple_bind _ _ _ (fun _ => touched)); [apply set_image_ok |]. intros _.
  repeat (apply triple_bind_quiet; [solve [repeat quiet_step] | auto with quiet | done | intros ?]).
  apply triple_quiet_end; [solve [repeat quiet_step] | auto with quiet | done].
Qed.

(** ** Restoring and re-arming *)

Lemma inv_touched_false w : inv w -> env_text w = Some orig -> inv (set_st (put_touched false) w).
Proof. intros [B E T] He. split; simpl; [done | by left | done]. Qed.

(** The copy of the backup: done, or the file stays marked as touched. *)
Lemma copy_ok : triple touched copy_from_backup (fun _ w => touched w /\ env_text w = Some orig) touched.
Proof.
  unfold copy_from_backup. intros w Hw. destruct Hw as ([B E T] & Hb & Ht). pose proof (B Hb) as Hbt.
  unfold mbind, M_bind, get. rewrite Hb. unfold mret, M_ret, next. cbn [backup_text]. rewrite Hbt.
  set (ans := oracle (clock w)).
  assert (touched (World (env_text w) (Some orig) (timers w) (S (clock w)) (st w))) as Hw'.
  { split; [|done]. split; simpl; [done | by right | done]. }
  destruct (a_exn ans) as [e|].
  - destruct (a_effect ans); [by apply touched_set_env | done].
  - split; [by apply touched_set_env | done].
Qed.

Lemma restore_ok : triple touched phase_restore (fun _ w => backed w /\ env_text w = Some orig) backed.
Proof.
  unfold phase_restore. assert (forall w, touched w -> backed w) as Hw by (by intros w (? & ? & ?)).
  eapply (triple_bind _ _ _ (fun _ w => touched w /\ env_text w = Some orig)).
  { eapply triple_conseq; [apply copy_ok | done | done | done]. }
  intros _. assert (framed (fun w => touched w /\ env_text w = Some orig)) as Hf by (auto with quiet).
  repeat (apply triple_bind_quiet; [solve [repeat quiet_step] | done | intros w [? _]; by apply Hw | intros ?]).
  eapply (triple_bind _ _ _ (fun _ w => backed w /\ env_text w = Some orig)).
  { intros w [(I & Hb & Ht) He]. simpl. split; [|done]. split; [by apply inv_touched_false | done]. }
  intros _. apply triple_quiet_end; [apply quiet_save | auto with quiet | by intros w [? _]].
Qed.

(** A state read as active is the timer's state. *)
Lemma timer_state_active u w s w' : timer_state u w = (Ok s, w') -> s = "active" -> timer_on u w = true.
Proof.
  unfold timer_state, is_active, ask, attempt, mbind, M_bind, get, next, mret, M_ret. intros H ->.
  destruct (a_exn (oracle (clock w))) as [e|]; simpl in H; [destruct (is_exception (exn_of e)); done |].
  set (a := oracle (clock w)) in *.
  destruct (((a_rc a =? 0) || (a_rc a =? 3)) && (String.eqb (a_out a) "active" || String.eqb (a_out a) "inactive")) eqn:E.
  - destruct (timer_on u _) eqn:Eon; simpl in H; done.
  - destruct (((a_rc a =? 0) || (a_rc a =? 3)) && negb (String.eqb (a_out a) "")) eqn:E2; [|done].
    injection H as Ha _. rewrite Ha in E. apply andb_true_iff in E2 as [E2 _]. by rewrite E2 in E.
Qed.

Lemma timer_states_active us : forall w l w', timer_states us w = (Ok l, w') ->
  existsb (fun p => negb (String.eqb p.2 "active")) l = false -> forall u, In u us -> timer_on u w = true.
Proof.
  induction us as [|u us IH]; intros w l w' H Hl v Hv; [done |]. cbn [timer_states] in H.
  unfold mbind, M_bind in H. pose proof (quiet_timer_state u w) as Hq.
  destruct (timer_state u w) as [[s|e] w1] eqn:Es; [|done]. simpl in Hq.
  destruct (timer_states us w1) as [[rest|e] w2] eqn:Er; [|done]. injection H as <- <-.
  simpl in Hl. apply orb_false_iff in Hl as [Hs Hl]. apply negb_false_iff, String.eqb_eq in Hs.
  destruct Hv as [<-|Hv]; [by eapply timer_state_active |].
  rewrite <- (timer_on_same v w w1); [by eapply IH | apply Hq].
Qed.

(** Re-arming that reports success leaves both timers up; it never takes one
    down. *)
Lemma rearm_on P : framed P -> (forall w w', env_text w' = env_text w -> backup_text w' = backup_text w -> st w' = st w ->
    (forall u, timer_on u w = true -> timer_on u w' = true) -> P w -> P w') ->
  triple P phase_rearm (fun _ w => P w /\ timers_on w) P.
Proof.
  intros Hf Hstep. unfold phase_rearm. eapply (triple_bind _ _ _ (fun _ => P)).
  { intros w Hw. pose proof (each_timer_rest true TIMERS w) as H. cbv zeta in H.
    destruct (each_timer true TIMERS w) as [[fl|e] w']; simpl in H; destruct H as (H1 & H2 & H3 & H4); by apply (Hstep w). }
  intros fl w Hw. unfold mbind, M_bind. pose proof (quiet_timer_states TIMERS w) as Hq.
  destruct (timer_states TIMERS w) as [[states|e] w1] eqn:Es; simpl in Hq; [|by apply (Hf w)].
  pose proof (quiet_save w1) as Hq2. destruct (save w1) as [[u|e] w2]; simpl in Hq2.
  2: { eapply Hf; [exact Hq2 |]. by apply (Hf w). }
  assert (P w2) as Hw2 by (eapply Hf; [exact Hq2 |]; by apply (Hf w)).
  unfold fail_if. destruct (bool_decide (fl <> []) || existsb _ states) eqn:E; [done |]. split; [done |].
  apply orb_false_iff in E as [_ E]. intros v Hv.
  rewrite (timer_on_same v w1 w2) by apply Hq2. rewrite (timer_on_same v w w1) by apply Hq.
  by eapply timer_states_active.
Qed.

Lemma inv_step w w' : env_text w' = env_text w -> backup_text w' = backup_text w -> st w' = st w ->
  (forall u, timer_on u w = true -> timer_on u w' = true) -> inv w -> inv w'.
Proof.
  intros H1 H2 H3 H4 [B E T]. split; rewrite ?H1, ?H2, ?H3; [done | done |].
  destruct T as [T|T]; [left | by right]. intros u Hu. by apply H4, T.
Qed.
Lemma backed_step w w' : env_text w' = env_text w -> backup_text w' = backup_text w -> st w' = st w ->
  (forall u, timer_on u w = true -> timer_on u w' = true) -> backed w -> backed w'.
Proof. intros H1 H2 H3 H4 [I Hb]. split; [by apply (inv_step w) | by rewrite H3]. Qed.

(** ** Recovery *)

Hypothesis orig_production : effective_env_all orig !! "IMAGE" = Some PRODUCTION_IMAGE.

Lemma needs_env_spec w : inv w -> exists b w', needs_env_restore w = (Ok b, w') /\ w' = w /\
  (if b : bool then touched w else env_text w = Some orig).
Proof.
  intros I. pose proof I as [B E T]. unfold needs_env_restore, mbind, M_bind, get, mret, M_ret.
  destruct (backup (st w)) eqn:Hb; simpl.
  - destruct (env_touched (st w)) eqn:Ht; [by eexists true, w |].
    assert (env_text w = Some orig) as He by (destruct E as [E|[_ E]]; [done | congruence]).
    rewrite He, bool_decide_eq_false_2; [by eexists false, w | by rewrite orig_production; intros []].
  - eexists false, w. split; [done |]. split; [done |]. destruct E as [E|[E _]]; [done | congruence].
Qed.

Lemma inv_put_auto o w : inv w -> inv (set_st (put_auto o) w).
Proof. intros [B E T]. by split. Qed.
Lemma inv_put_timer o w : inv w -> inv (set_st (put_timer o) w).
Proof. intros [B E T]. by split. Qed.

Lemma restore_production_ok : triple inv restore_production (fun _ w => inv w /\ env_safe w) inv.
Proof.
  unfold restore_production.
  eapply (triple_bind _ _ _ (fun (b : bool) w => inv w /\ if b then touched w else env_text w = Some orig)).
  { intros w I. destruct (needs_env_spec w I) as (b & w' & -> & -> & Hb). done. }
  intros [|]; simpl.
  2: { intros w [I He]. split; [by apply inv_put_auto | by left]. }
  eapply (triple_bind _ _ _ (fun r w => match r with inl _ => inv w /\ env_safe w | inr _ => inv w end)).
  - apply (triple_attempt _ _ _ (fun _ w => inv w /\ env_safe w)). eapply (triple_bind _ _ _ (fun _ w => backed w /\ env_text w = Some orig)).
    + eapply triple_conseq; [apply restore_ok | by intros w [_ ?] | done | by intros w [? _]].
    + intros _ w [[I _] He]. split; [by apply inv_put_auto | by left].
  - intros [a|e] w H; simpl; [exact H |]. split; [by apply inv_put_auto | by right].
Qed.

Lemma env_safe_step w w' : env_text w' = env_text w -> st w' = st w -> env_safe w -> env_safe w'.
Proof. unfold env_safe. by intros -> ->. Qed.

Lemma recover_timers_ok : triple (fun w => inv w /\ env_safe w) recover_timers
  (fun _ w => inv w /\ env_safe w /\ timers_safe w) inv.
Proof.
  unfold recover_timers. set (P := fun v => inv v /\ env_safe v).
  eapply (triple_bind _ _ _ (fun (b : bool) w => P w /\ disarm_attempted (st w) = b)); [by intros w Hw |].
  intros [|]; simpl.
  2: { intros w [[I S] Hd]. split; [done |]. split; [done |]. left. destruct I as [_ _ [T|T]]; [exact T | congruence]. }
  eapply (triple_bind _ _ _ (fun r w => match r with inl _ => P w /\ timers_on w | inr _ => P w end)).
  - eapply triple_conseq; [apply (triple_attempt P _ _ (fun _ v => P v /\ timers_on v) P) | by intros w [? _] | done | by intros w [? _]].
    eapply (triple_bind _ _ _ (fun _ v => P v /\ timers_on v)).
    + apply rearm_on; [unfold P; auto with quiet |]. intros v v' H1 H2 H3 H4 [Iv Sv].
      split; [by apply (inv_step v) | by apply (env_safe_step v)].
    + intros _ v [[Iv Sv] Tv]. split; [split; [by apply inv_put_timer | exact Sv] | exact Tv].
  - intros r. eapply (triple_bind _ _ _ (fun _ w => inv w /\ env_safe w /\ timers_safe w)).
    + destruct r as [a|e]; intros w H; simpl.
      * destruct H as [[I S] T]. split; [done |]. split; [done | by left].
      * destruct H as [I S]. split; [by apply inv_put_timer |]. split; [exact S | by right].
    + intros _. apply triple_quiet_end; [apply quiet_save | auto 7 with quiet | by intros w [? _]].
Qed.

(** Both recovery steps together. *)
Lemma recovery_ok : triple inv (_ ← restore_production; recover_timers) (fun _ w => inv w /\ env_safe w /\ timers_safe w) inv.
Proof.
  eapply triple_bind; [apply restore_production_ok |]. intros ?. apply recover_timers_ok.
Qed.

(** ** The run *)

(** What is known before a phase: a backup; the file is marked as touched ([b]), is
    the original ([e]); the timers are up ([t]). *)
Definition stage (b e t : bool) (w : world) : Prop :=
  backed w /\ (b = true -> touched w) /\ (e = true -> env_text w = Some orig) /\ (t = true -> timers_on w).

Lemma framed_imp (b : bool) P : framed P -> framed (fun w => b = true -> P w).
Proof. intros HP w w' H Hw Hb. by eapply HP; [|apply Hw]. Qed.
#[local] Hint Resolve framed_imp : quiet.
Lemma framed_stage b e t : framed (stage b e t).
Proof. unfold stage. auto 8 with quiet. Qed.
#[local] Hint Resolve framed_stage : quiet.

(** How a phase changes what is known. *)
Definition after (n : string) (k : bool * bool * bool) : bool * bool * bool :=
  let '(b, e, t) := k in
  if String.eqb n "disarm" then (b, e, false)
  else if String.eqb n "restore" then (false, true, t)
  else if String.eqb n "rearm" then (b, e, true)
  else if String.prefix "arm_" n then (true, false, t)
  else k.

(** A list of phases that starts the restore only on a touched file. *)
Fixpoint fine (k : bool * bool * bool) (l : list string) : bool :=
  match l with
  | [] => true
  | n :: l' => negb (String.eqb n "preflight") && (negb (String.eqb n "restore") || k.1.1) && fine (after n k) l'
  end.

Definition stage_of (k : bool * bool * bool) : world -> Prop := stage k.1.1 k.1.2 k.2.

Lemma timers_on_step w w' : (forall u, timer_on u w = true -> timer_on u w' = true) -> timers_on w -> timers_on w'.
Proof. intros H T u Hu. by apply H, T. Qed.

Lemma stage_step b e t w w' : env_text w' = env_text w -> backup_text w' = backup_text w -> st w' = st w ->
  (forall u, timer_on u w = true -> timer_on u w' = true) -> stage b e t w -> stage b e t w'.
Proof.
  intros H1 H2 H3 H4 (B & T & E & U). split; [by apply (backed_step w) |]. split; [|split].
  - intros Hb. destruct (T Hb) as (I & ? & ?). split; [by apply (inv_step w) | by rewrite H3].
  - intros He. rewrite H1. by apply E.
  - intros Ht. apply (timers_on_step w); auto.
Qed.

(** The timers are not read or written by the phases between the two timer
    phases. *)
Definition timers_kept {A} (m : M A) : Prop := forall w, timers (m w).2 = timers w.
Lemma kept_quiet {A} (m : M A) : quiet m -> timers_kept m.
Proof. intros H w. by destruct (H w) as (_ & _ & -> & _). Qed.
Lemma kept_bind {A B} (m : M A) (k : A -> M B) : timers_kept m -> (forall a, timers_kept (k a)) -> timers_kept (m ≫= k).
Proof.
  intros Hm Hk w. unfold mbind, M_bind. specialize (Hm w). destruct (m w) as [[a|e] w']; [|done]. simpl in Hm.
  by rewrite (Hk a w').
Qed.
Lemma kept_modify f : (forall w, timers (f w) = timers w) -> timers_kept (modify f).
Proof. intros H w. apply H. Qed.

Ltac kept := first
  [ apply kept_quiet; solve [repeat quiet_step]
  | apply kept_modify; by intros | apply kept_bind; [|intros ?]
  | match goal with |- timers_kept (match ?x with _ => _ end) => destruct x end ].

Lemma kept_arm arm : timers_kept (phase_arm arm).
Proof. unfold phase_arm, set_image_file. repeat kept. Qed.
Lemma kept_restore : timers_kept phase_restore.
Proof. unfold phase_restore, copy_from_backup. repeat kept. Qed.
Lemma kept_timers_on {A} (m : M A) w : timers_kept m -> timers_on w -> timers_on (m w).2.
Proof. intros Hk T u Hu. rewrite (timer_on_same u w); [by apply T | apply Hk]. Qed.

(** Each phase, from what is known to what is known after it. *)
Lemma stage_inv k w : stage_of k w -> inv w.
Proof. by intros [[? _] _]. Qed.

Lemma disarm_stage b e t : triple (stage b e t) phase_disarm (fun _ => stage b e false) inv.
Proof.
  eapply triple_conseq; [apply (disarm_gen (stage b e t) (fun w => stage b e false w /\ disarm_attempted (st w) = true)) | done | |].
  - intros w w' H [S D]. split; [by eapply framed_stage |]. by destruct H as (_ & _ & _ & _ & _ & -> & _).
  - intros w w' H1 H2 H3 [(([B E T] & Hb) & Ht & He & _) D].
    assert (inv w') as I by (split; rewrite ?H1, ?H2, ?H3; [done | done | by right]).
    split; [|by rewrite H3]. split; [split; [done | by rewrite H3] |]. split; [|split; [|done]].
    + intros Hbt. destruct (Ht Hbt) as (_ & ? & ?). split; [done | by rewrite H3].
    + intros Het. rewrite H1. by apply He.
  - intros w (([B E T] & Hb) & Ht & He & _).
    assert (inv (set_st put_disarm w)) as I by (split; simpl; [done | done | by right]).
    split; [|done]. split; [done |]. split; [|split; [|done]].
    + intros Hbt. by destruct (Ht Hbt) as (_ & ? & ?).
    + intros Het. by apply He.
  - intros ? w [S _]. done.
  - intros w [[[? _] _] _]. done.
Qed.

Lemma arm_stage b e t arm : triple (stage b e t) (phase_arm arm) (fun _ => stage true false t) inv.
Proof.
  intros w ((I & Hb) & _ & _ & U). pose proof (arm_ok arm w (conj I Hb)) as H. pose proof (kept_timers_on (phase_arm arm) w (kept_arm arm)) as K.
  destruct (phase_arm arm w) as [[a|x] w']; simpl in K; [|exact (proj1 H)].
  split; [by destruct H as (? & ? & _) |]. split; [by intros _ |]. split; [done |]. intros Ht. by apply K, U.
Qed.

Lemma restore_stage e t : triple (stage true e t) phase_restore (fun _ => stage false true t) inv.
Proof.
  intros w (_ & T & _ & U). pose proof (restore_ok w (T eq_refl)) as H. pose proof (kept_timers_on phase_restore w kept_restore) as K.
  destruct (phase_restore w) as [[a|x] w']; simpl in K; [|by destruct H].
  destruct H as [B E]. split; [done |]. split; [done |]. split; [done |]. intros Ht. by apply K, U.
Qed.

Lemma rearm_stage b e t : triple (stage b e t) phase_rearm (fun _ => stage b e true) inv.
Proof.
  eapply triple_conseq; [apply (rearm_on (stage b e t)) | done | |].
  - apply framed_stage.
  - intros w w' H1 H2 H3 H4 S. by apply (stage_step b e t w).
  - intros ? w [(B & T & E & _) U]. split; [done |]. split; [done |]. by split.
  - by intros w [[? _] _].
Qed.

Lemma handler_ok n k : fine k [n] = true -> triple (stage_of k) (HANDLERS n) (fun _ => stage_of (after n k)) inv.
Proof.
  destruct k as [[b e] t]. unfold stage_of, fine, HANDLERS, after. cbn [fst snd].
  destruct (String.eqb_spec n "preflight") as [->|_]; [done |].
  destruct (String.eqb_spec n "disarm") as [->|_]; [intros _; apply disarm_stage |].
  destruct (String.eqb_spec n "restore") as [->|_].
  { intros H. simpl in H. rewrite andb_true_r in H. subst b. apply restore_stage. }
  intros _. assert (forall m : M unit, quiet m -> triple (stage b e t) m (fun _ => stage b e t) inv) as Hq.
  { intros m Hm. apply triple_quiet_end; [done | apply framed_stage | apply (stage_inv (b, e, t))]. }
  destruct (String.eqb_spec n "gates") as [->|_]; [apply Hq, quiet_gates |].
  destruct (String.eqb_spec n "rearm") as [->|_]; [apply rearm_stage |].
  destruct (String.eqb_spec n "judge") as [->|_]; [apply Hq, quiet_judge |].
  destruct (String.prefix "arm_" n); [apply arm_stage | apply Hq, quiet_measure].
Qed.

Lemma fine_cons n l k : fine k (n :: l) = true -> fine k [n] = true /\ fine (after n k) l = true.
Proof. cbn [fine]. rewrite !andb_true_iff. tauto. Qed.

(** The loop: the invariant always, and what is known at the end when no phase
    failed. *)
Lemma run_phases_ok l : forall k, fine k l = true ->
  triple (stage_of k) (run_phases l) (fun failure w => inv w /\ (failure = false -> stage_of (fold_left (fun k n => after n k) l k) w)) inv.
Proof.
  induction l as [|n l IH]; intros k Hk; cbn [run_phases].
  { intros w Hw. split; [by apply (stage_inv k) | by intros _]. }
  apply fine_cons in Hk as [Hn Hl]. assert (framed (stage_of k)) as Hf by apply framed_stage.
  repeat (apply triple_bind_quiet; [solve [repeat quiet_step] | done | by apply stage_inv | intros ?]).
  eapply triple_bind; [apply triple_attempt, (handler_ok n k Hn) |]. intros [u|x]; cbv beta iota.
  - assert (framed (stage_of (after n k))) as Hf' by apply framed_stage.
    repeat (apply triple_bind_quiet; [solve [repeat quiet_step] | done | apply stage_inv | intros ?]).
    apply IH. exact Hl.
  - repeat (apply triple_bind_quiet; [solve [repeat quiet_step] | auto with quiet | done | intros ?]).
    intros w Hw. split; [exact Hw | discriminate].
Qed.

(** ** The process *)

(** The pre-window text and the timers are back, or the receipt says which of the
    two recovery steps failed. *)
Definition recovered (w : world) : Prop := env_safe w /\ timers_safe w.

Lemma emergency_ok keep : triple inv (emergency_restore false keep)
  (fun _ w => inv w /\ (keep = false -> recovered w)) inv.
Proof.
  unfold emergency_restore. destruct keep; simpl; [by intros w Hw |].
  eapply (triple_bind _ _ _ (fun (b : bool) w => inv w /\ if b then touched w else env_text w = Some orig)).
  { intros w I. destruct (needs_env_spec w I) as (b & w' & -> & -> & Hb). done. }
  intros n1. eapply (triple_bind _ _ _ (fun (n2 : bool) w => (inv w /\ if n1 : bool then touched w else env_text w = Some orig)
    /\ disarm_attempted (st w) = n2)); [by intros w Hw |].
  intros n2. destruct (n1 || n2) eqn:En; simpl.
  - eapply (triple_conseq _ inv _ _ (fun _ w => inv w /\ env_safe w /\ timers_safe w)); [| by intros w [[I _] _] | intros ? w (I & S & T); split; [exact I | intros _; exact (conj S T)] | done].
    eapply triple_bind; [apply restore_production_ok |]. intros ?. eapply triple_bind; [apply recover_timers_ok |]. intros ?.
    apply triple_quiet_end; [apply quiet_save | auto 7 with quiet | by intros w [? _]].
  - apply orb_false_iff in En as [-> ->]. intros w [[I He] Hd]. split; [done |]. intros _. split; [by left |].
    left. destruct I as [_ _ [T|T]]; [exact T | congruence].
Qed.

Lemma guarded_ok P keep l post : framed post ->
  triple P (run_phases l) (fun failure w => inv w /\ (failure = false -> post w)) inv ->
  triple P (guarded keep l)
    (fun r w => inv w /\ (r.1 = true -> keep = false -> recovered w) /\
       (r.1 = false -> post w) /\ (r.1 = false -> r.2 = true)) inv.
Proof.
  intros Hpost Hrun. unfold guarded. eapply triple_bind; [apply triple_attempt, Hrun |]. intros r.
  set (failure := match r with inl b => b | inr _ => true end).
  eapply (triple_conseq _ (fun w => inv w /\ (failure = false -> post w))); [|destruct r; [done |] | intros ? ? H; exact H | done].
  2: { intros w I. split; [exact I | done]. }
  eapply (triple_bind _ _ _ (fun finished w => inv w /\ (failure = true -> keep = false -> recovered w) /\
     (failure = false -> post w) /\ (failure = false -> finished = true))).
  - destruct (failure && negb keep) eqn:E.
    + apply andb_true_iff in E as [-> ->%negb_true_iff].
      eapply (triple_bind _ _ _ (fun _ w => inv w /\ env_safe w)); [eapply triple_conseq; [apply restore_production_ok | by intros w [? _] | done | done] |].
      intros ?. eapply triple_bind; [apply recover_timers_ok |]. intros ?.
      intros w (I & S & T). split; [exact I |]. split; [done | done].
    + intros w [I Hp]. split; [exact I |]. split; [|done]. intros -> ->. done.
  - intros finished. apply triple_bind_quiet; [apply quiet_save | | by intros w [? _] | intros ?; by intros w H].
    apply framed_and; [auto with quiet |]. apply framed_and; [|apply framed_and].
    + intros w w' H R Hf Hk'. destruct (R Hf Hk') as [S T]. split; [by eapply framed_env_safe | by eapply framed_timers_safe].
    + intros ? ? H Hp Hf. eapply Hpost; [exact H | by apply Hp].
    + by intros ? ? _ ?.
Qed.

(** A run that starts with the preflight. *)
Lemma run_from_preflight l : fine (false, true, false) l = true ->
  triple (fun w => inv w /\ env_text w = Some orig) (run_phases ("preflight" :: l))
    (fun failure w => inv w /\ (failure = false -> stage_of (fold_left (fun k n => after n k) l (false, true, false)) w)) inv.
Proof.
  intros Hl. cbn [run_phases]. assert (framed (fun w => inv w /\ env_text w = Some orig)) as Hf by auto with quiet.
  repeat (apply triple_bind_quiet; [solve [repeat quiet_step] | done | by intros w [? _] | intros ?]).
  change (HANDLERS "preflight") with phase_preflight.
  eapply (triple_bind _ _ _ (fun r w => match r with inl _ => stage_of (false, true, false) w | inr _ => inv w end)).
  - eapply triple_conseq; [apply triple_attempt, preflight_ok | done | | by intros w [? _]].
    intros [u|x] w; [intros [[I Hb] He] | by intros [? _]]. split; [by split |]. by split.
  - intros [u|x]; cbv beta iota.
    + assert (framed (stage_of (false, true, false))) as Hs by apply framed_stage.
      repeat (apply triple_bind_quiet; [solve [repeat quiet_step] | done | apply stage_inv | intros ?]).
      apply run_phases_ok. exact Hl.
    + repeat (apply triple_bind_quiet; [solve [repeat quiet_step] | auto with quiet | done | intros ?]).
      intros w Hw. split; [exact Hw | discriminate].
Qed.

(** The main part of the process. *)
Lemma process_body P l post : framed post -> framed P -> (forall w, P w -> inv w) ->
  triple P (run_phases l) (fun failure w => inv w /\ (failure = false -> post w)) inv ->
  triple P (r ← attempt (fun _ => true) (_ ← save; guarded false l);
            match r with
            | inl (failure, finished) => _ ← emergency_restore finished false; mret (if failure : bool then 1 else 0)
            | inr _ => _ ← emergency_restore false false; mret 1
            end)
    (fun code w => inv w /\ (code = 1 -> recovered w) /\ (code = 0 -> post w) /\ code <> 2) inv.
Proof.
  intros Hpost HP HI Hrun. eapply triple_bind.
  { apply triple_attempt. apply triple_bind_quiet; [apply quiet_save | done | done | intros ?].
    by apply (guarded_ok P false l post). }
  intros [[failure finished]|x]; cbv beta iota.
  - destruct finished.
    + intros w (I & R & Hp & _). simpl in *. split; [exact I |]. destruct failure; split; try done; [by intros _; apply R | by split; [intros _; apply Hp |]].
    + destruct failure.
      * eapply triple_bind; [eapply triple_conseq; [apply (emergency_ok false) | by intros w [? _] | done | done] |].
        intros ? w [I R]. simpl. split; [exact I |]. split; [by intros _; apply R | done].
      * intros w (_ & _ & _ & Hx). discriminate (Hx eq_refl).
  - eapply triple_bind; [apply (emergency_ok false) |]. intros ? w [I R]. simpl. split; [exact I |]. split; [by intros _; apply R | done].
Qed.

(** The ranges of phases that start the restore on a touched file only. *)
Lemma ranges_fine :
  forallb (fun hi => fine (false, true, false) (firstn hi (skipn 1 PHASES))) (seq 0 14) = true /\
  forallb (fun lo => forallb (fun hi => fine (false, false, false) (firstn (S hi - lo) (skipn lo PHASES))) (seq 0 14)) (seq 1 8) = true /\
  forallb (fun lo => forallb (fun hi => fine (true, false, false) (firstn (S hi - lo) (skipn lo PHASES))) (seq 0 14)) (seq 1 13) = true.
Proof. by vm_compute. Qed.

(** What the process guarantees of the world it ends in. *)
Definition guarantee (lo hi : nat) (w0 : world) (code : Z) (w : world) : Prop :=
  inv w /\ (code = 1 -> recovered w) /\
  (code = 0 -> lo = 0%nat -> hi = 13%nat -> env_text w = Some orig /\ timers_on w) /\
  (code = 2 -> env_text w = env_text w0 /\ timers w = timers w0).

Lemma process_fresh hi w0 : (hi < length PHASES)%nat -> inv w0 -> env_text w0 = Some orig ->
  match process 0 hi false w0 with (Ok code, w) => guarantee 0 hi w0 code w | (Raise _, w) => inv w end.
Proof.
  intros Hhi I H0. destruct ranges_fine as (F & _). rewrite forallb_forall in F.
  specialize (F hi ltac:(apply in_seq; simpl in Hhi; lia)).
  pose proof (process_body (fun w => inv w /\ env_text w = Some orig) ("preflight" :: firstn hi (skipn 1 PHASES)) _
    (framed_stage _ _ _) (framed_and _ _ framed_inv framed_env) (fun w H => proj1 H) (run_from_preflight _ F) w0 (conj I H0)) as H.
  cbv beta in H. change (process 0 hi false w0) with
    ((r ← attempt (fun _ => true) (_ ← save; guarded false ("preflight" :: firstn hi (skipn 1 PHASES)));
      match r with
      | inl (failure, finished) => _ ← emergency_restore finished false; mret (if failure : bool then 1 else 0)
      | inr _ => _ ← emergency_restore false false; mret 1
      end) w0).
  match type of H with match ?x with _ => _ end => destruct x as [[code|e] w] end; [|exact H].
  destruct H as (I' & R & S & N). split; [exact I' |]. split; [exact R |]. split; [|by intros ->].
  intros Hc _ ->. destruct (S Hc) as (_ & _ & E & T). by split; [apply E | apply T].
Qed.

Lemma process_resumed lo hi w0 : (0 < lo <= hi)%nat -> (hi < length PHASES)%nat -> inv w0 -> backup (st w0) = true ->
  ((lo <= 8)%nat \/ env_touched (st w0) = true) ->
  match process lo hi false w0 with (Ok code, w) => guarantee lo hi w0 code w | (Raise _, w) => inv w end.
Proof.
  intros [Hlo Hle] Hhi I Hb Ht. destruct ranges_fine as (_ & F2 & F3). rewrite !forallb_forall in F2, F3. simpl in Hhi.
  set (l := firstn (S hi - lo) (skipn lo PHASES)).
  assert (exists k, fine k l = true /\ forall w, same w0 w -> stage_of k w) as (k & Hk & Hs).
  { destruct Ht as [Ht|Ht].
    - exists (false, false, false). split.
      + specialize (F2 lo ltac:(apply in_seq; lia)). rewrite forallb_forall in F2. apply F2, in_seq. lia.
      + intros w Hw. eapply framed_stage; [exact Hw |]. split; [exact (conj I Hb) | by split].
    - exists (true, false, false). split.
      + specialize (F3 lo ltac:(apply in_seq; lia)). rewrite forallb_forall in F3. apply F3, in_seq. lia.
      + intros w Hw. eapply framed_stage; [exact Hw |]. split; [exact (conj I Hb) |]. by split. }
  unfold process. rewrite (proj2 (Nat.ltb_ge hi lo)) by lia.
  unfold mbind at 1, M_bind at 1, get at 1. rewrite (proj2 (Nat.eqb_neq lo 0)), Hb by lia. cbn [negb andb].
  fold l. cbv zeta.
  match goal with |- context [mbind _ ?ready w0] => set (m := ready) end.
  assert (quiet m) as Hm.
  { unfold m. destruct l as [|n l']; [apply quiet_ret |]. destruct (String.prefix "arm_" n || String.prefix "measure_" n); repeat quiet_step. }
  specialize (Hm w0). unfold mbind at 1, M_bind at 1. destruct (m w0) as [[ready|e] w1]; cbn [snd] in Hm; [|by apply (framed_inv w0)].
  destruct ready; cbn [negb].
  - pose proof (process_body (stage_of k) l _ (framed_stage _ _ _) (framed_stage _ _ _) (stage_inv k) (run_phases_ok l k Hk) w1 (Hs w1 Hm)) as H.
    cbv beta in H. match type of H with match ?x with _ => _ end => destruct x as [[code|e] w] end; [|exact H].
    destruct H as (I' & R & S & N). split; [exact I' |]. split; [exact R |]. split; [intros _ ->; lia | by intros ->].
  - split; [by apply (framed_inv w0) |]. split; [done |]. split; [done |]. intros _. by destruct Hm as (? & _ & ? & _).
Qed.

(** Where a window may start: the invariant, an untouched file for the preflight,
    and a resumed restore only where an arm was booted before it. *)
Definition window_start (lo : nat) (w : world) : Prop :=
  inv w /\ (lo = 0%nat -> env_text w = Some orig) /\ ((lo <= 8)%nat \/ env_touched (st w) = true).

End runner.

(** ** A signal while an arm boots *)

(** Answers by tick, with an agreeable default. *)
Fixpoint answers (l : list (nat * answer)) (n : nat) : answer :=
  match l with
  | [] => Answer None 0 "inactive" (Some 0%Q) true
  | (k, a) :: l' => if (k =? n)%nat then a else answers l' n
  end.

Definition healthy : answer := Answer None 200 "" None true.
Definition says (s : string) : answer := Answer None 0 s None true.
Definition killed : answer := Answer (Some Signal) 0 "" None true.

(** The watchdog kills the runner while arm A boots; the restore then comes up. *)
Definition killed_window : nat -> answer :=
  answers [(7%nat, healthy); (36%nat, killed); (43%nat, healthy); (44%nat, says PRODUCTION_IMAGE); (45%nat, says "1.4.9");
           (46%nat, says PRODUCTION_IMAGE); (47%nat, says "1.4.9")].

Definition production_env : string := "MODEL=glm" ++ newline ++ "IMAGE=" ++ PRODUCTION_IMAGE ++ newline.
Definition fresh_world : world :=
  World (Some production_env) None (<[WATCHDOG := true]> (<[METRICS := true]> ∅)) 0
    (State false "" false false None None ∅ 0 [] [] [] None None None).

Example killed_window_result :
  let r := process (fun s => s) killed_window 0 13 false fresh_world in
  r.1 = Ok 1 /\ phases (st r.2) = [("preflight", true); ("disarm", true); ("arm_a", false)] /\
  auto_restore (st r.2) = Some RestoreOk /\ timer_restore (st r.2) = Some RestoreOk.
Proof. vm_compute. repeat split. Qed.


(** A window whose preflight refuses because production is not on the expected image
    has already saved a backup: the recovery copies it back and restarts the pair,
    though nothing was touched, and then fails the image check. *)
Definition other_env : string := "IMAGE=some-other-tag" ++ newline.
Example refused_preflight_restarts :
  let w0 := World (Some other_env) None (timers fresh_world) 0 (st fresh_world) in
  let r := process (fun s => s) (answers [(7%nat, healthy)]) 0 13 false w0 in
  r.1 = Ok 1 /\ phases (st r.2) = [("preflight", false)] /\ auto_restore (st r.2) = Some RestoreFailed.
Proof. vm_compute. repeat split. Qed.

(** A second preflight on the receipt of a window that could not restore points the
    receipt at a backup of the touched file before it checks the image. *)
Example second_preflight_loses_backup :
  let touched_env := set_image (arm_spec "a").1 production_env in
  let w0 := World (Some touched_env) (Some production_env) (timers fresh_world) 0
    (State true production_env true true (Some RestoreFailed) None ∅ 0 [] [] [] None None None) in
  let r := process (fun s => s) (answers []) 0 13 false w0 in
  r.1 = Ok 1 /\ backup_text r.2 = Some touched_env.
Proof. vm_compute. split; reflexivity. Qed.
