(* ===== verification/IndexerWorkspace.v ===== *)
(** * The right-sized indexer workspace

    Model of the code of [overlay/patch_indexer_workspace.py] that runs: the
    sizing helper it installs ([_glm53_workspace_mode],
    [_glm53_glm5next_workspace_entries]), the fail-closed chunk splitter and the
    guards in front of the gather.  [split_prefill_chunks] is the module's own
    host replica of the splitter.  Python integers are unbounded, so [Z]. *)
From Stdlib Require Import ZArith Lia.
From stdpp Require Import base list strings gmap.
From S2P Require Import Prelude.
#[local] Open Scope Z_scope.

(** ** The workspace size *)

Inductive mode := Stock | Rightsize.

(** [_glm53_workspace_mode]. *)
Definition _glm53_workspace_mode (env : environ) : res mode :=
  match env !! "GLM53_INDEXER_WORKSPACE" with
  | None => Ok Stock
  | Some raw => if String.eqb raw "stock" then Ok Stock
                else if String.eqb raw "rightsize" then Ok Rightsize
                else Raise ValueError
  end.

(** The fields of the configuration that are read; [num_spec] is [None] without
    a speculative config or with a null token count. *)
Record config := Config { max_model_len : Z; max_num_seqs : Z; num_spec : option Z }.

Definition STOCK_MULTIPLIER : Z := 40.
Definition get_max_prefill_buffer_size (c : config) : Z := max_model_len c * STOCK_MULTIPLIER.

(** The longest sequence the indexer can see. *)
Definition span (c : config) : Z := max_model_len c + Z.max 0 (default 0 (num_spec c)).

(** [_glm53_glm5next_workspace_entries]. *)
Definition _glm53_glm5next_workspace_entries (env : environ) (c : config) (index_kpool : Z) : res Z :=
  let stock := get_max_prefill_buffer_size c in
  m ← _glm53_workspace_mode env;
  match m with
  | Stock => Ok stock
  | Rightsize =>
      if index_kpool <=? 1 then Raise ValueError
      else if (max_model_len c <=? 0) || (max_num_seqs c <=? 0) then Raise ValueError
      else
        let per_req := cdiv (span c) index_kpool in
        let entries := per_req * max_num_seqs c in
        if stock <=? entries then Raise ValueError else Ok entries
  end.

(** ** The splitter *)

(** A slice of requests and a slice of their query rows. *)
Abbreviation chunk := ((nat * nat) * (Z * Z))%type.

(** The sum over [a..b) of a list. *)
Definition sum_slice (l : list Z) (a b : nat) : Z := Zsum (take (b - a) (drop a l)).

Section splitter.
Context (compressed_seq_lens query_lens : list Z) (workspace_size max_logits_bytes : Z).

Definition max_logits_elems : Z := max_logits_bytes / 4.
Definition nreq : nat := length compressed_seq_lens.

(** [query_lens[end], compressed_seq_lens[end]]. *)
Definition row (e : nat) : res (Z * Z) :=
  match query_lens !! e, compressed_seq_lens !! e with
  | Some q, Some s => Ok (q, s)
  | _, _ => Raise IndexError
  end.

(** The inner loop from [end]; [left] is how many requests are left. *)
Fixpoint grow (left e : nat) (chunk_m chunk_n : Z) : res (nat * Z * Z) :=
  match left with
  | O => Ok (e, chunk_m, chunk_n)
  | S k =>
      '(q, s) ← row e;
      let new_m := chunk_m + q in
      let new_n := chunk_n + s in
      if (new_n <=? workspace_size) && (new_m * new_n <=? max_logits_elems) then grow k (S e) new_m new_n
      else Ok (e, chunk_m, chunk_n)
  end.

(** One chunk from [start]: a request that fits nowhere goes alone. *)
Definition one_chunk (start : nat) : res (nat * Z * Z) :=
  '(e, chunk_m, chunk_n) ← grow (nreq - start) start 0 0;
  '(e, chunk_m, chunk_n) ←
    (if (e =? start)%nat then
       '(q, s) ← row e;
       if workspace_size <? s then Raise ValueError else Ok (S e, q, s)
     else Ok (e, chunk_m, chunk_n));
  if workspace_size <? chunk_n then Raise AssertionError else Ok (e, chunk_m, chunk_n).

(** [range(0, stop, step)] for a positive step. *)
Definition range_step (stop step : Z) : list Z :=
  map (fun i => Z.of_nat i * step) (seq 0 (Z.to_nat (cdiv stop step))).

(** How many query rows a slice may hold. *)
Definition max_q (chunk_m chunk_n : Z) : Z :=
  if 0 <? chunk_n then Z.max 1 (max_logits_elems / chunk_n) else Z.max 1 chunk_m.

(** The inner [for]: the query rows of one chunk, sliced. *)
Definition slices (start e : nat) (chunk_m chunk_n : Z) : list chunk :=
  let mq := max_q chunk_m chunk_n in
  map (fun q_off => ((start, e), (q_off, q_off + Z.min mq (chunk_m - q_off)))) (range_step chunk_m mq).

(** The outer loop; [fuel] counts its rounds. *)
Fixpoint split_from (fuel start : nat) : res (list chunk) :=
  if (nreq <=? start)%nat then Ok []
  else match fuel with
       | O => Raise OtherException
       | S k =>
           '(e, chunk_m, chunk_n) ← one_chunk start;
           rest ← split_from k e;
           Ok (slices start e chunk_m chunk_n ++ rest)
       end.

(** [split_prefill_chunks]: every round takes at least one request, so as
    many rounds as requests are enough. *)
Definition split_prefill_chunks : res (list chunk) := split_from nreq 0.

(** ** What one round takes *)

Definition queries : nat -> nat -> Z := sum_slice query_lens.
Definition entries : nat -> nat -> Z := sum_slice compressed_seq_lens.

(** A batch as vLLM builds it: as many query lengths as sequence lengths, none
    negative. *)
Definition well_formed : Prop :=
  length query_lens = nreq /\ Forall (fun q => 0 <= q) query_lens /\ Forall (fun s => 0 <= s) compressed_seq_lens.

(** No request is wider than the workspace. *)
Definition rows_fit : Prop := Forall (fun s => s <= workspace_size) compressed_seq_lens.
End splitter.

(** ** Guards in front of the gather *)

(** The patched kpool operator, for one chunk against the allocation. *)
Definition gather_guard (index_kpool chunk_entries allocated : Z) : res unit :=
  if (1 <? index_kpool) && (allocated <? chunk_entries) then Raise ValueError else Ok tt.

(** The patched metadata builder, for one chunk. *)
Definition metadata_guard (chunk_entries max_prefill_buffer_size : Z) : res unit :=
  if max_prefill_buffer_size <? chunk_entries then Raise AssertionError else Ok tt.

(** ** Sums over slices *)

Lemma Zsum_nonneg l : Forall (fun x => 0 <= x) l -> 0 <= Zsum l.
Proof. unfold Zsum. induction 1; simpl; lia. Qed.

Lemma Zsum_bound l b : Forall (fun x => x <= b) l -> Zsum l <= Z.of_nat (length l) * b.
Proof. unfold Zsum. induction 1; simpl; lia. Qed.

Lemma sum_slice_nil l a : sum_slice l a a = 0.
Proof. unfold sum_slice. by rewrite Nat.sub_diag. Qed.

Lemma sum_slice_snoc l a b x : (a <= b)%nat -> l !! b = Some x -> sum_slice l a (S b) = sum_slice l a b + x.
Proof.
  intros Hab Hb. unfold sum_slice. replace (S b - a)%nat with (S (b - a)) by lia.
  rewrite (take_S_r _ _ x); [by rewrite Zsum_app; unfold Zsum; simpl; rewrite Z.add_0_r |].
  rewrite lookup_drop. by replace (a + (b - a))%nat with b by lia.
Qed.

Lemma sum_slice_app l a b c : (a <= b <= c)%nat -> sum_slice l a c = sum_slice l a b + sum_slice l b c.
Proof.
  intros H. unfold sum_slice. rewrite <- Zsum_app. f_equal.
  replace (c - a)%nat with ((b - a) + (c - b))%nat by lia. rewrite <- take_take_drop. f_equal.
  by rewrite drop_drop; replace (a + (b - a))%nat with b by lia.
Qed.

Lemma sum_slice_nonneg l a b : Forall (fun x => 0 <= x) l -> 0 <= sum_slice l a b.
Proof. intros H. apply Zsum_nonneg. by apply Forall_take, Forall_drop. Qed.

Lemma sum_slice_bound l a b c :
  Forall (fun x => x <= c) l -> 0 <= c -> sum_slice l a b <= Z.of_nat (length l) * c.
Proof.
  intros H Hc. unfold sum_slice. etransitivity; [by apply Zsum_bound, Forall_take, Forall_drop |].
  rewrite length_take, length_drop. nia.
Qed.

(** ** One round *)

Section facts.
Context (compressed_seq_lens query_lens : list Z) (workspace_size max_logits_bytes : Z).
Context (Hwf : well_formed compressed_seq_lens query_lens) (Hlogits : 0 <= max_logits_bytes).

Abbreviation S_ := (entries compressed_seq_lens).
Abbreviation Q_ := (queries query_lens).
Abbreviation N_ := (nreq compressed_seq_lens).
Abbreviation E_ := (max_logits_elems max_logits_bytes).
Abbreviation grow_ := (grow compressed_seq_lens query_lens workspace_size max_logits_bytes).
Abbreviation one_chunk_ := (one_chunk compressed_seq_lens query_lens workspace_size max_logits_bytes).
Abbreviation split_from_ := (split_from compressed_seq_lens query_lens workspace_size max_logits_bytes).

Lemma row_ok e : (e < N_)%nat -> exists q s, row compressed_seq_lens query_lens e = Ok (q, s) /\
  query_lens !! e = Some q /\ compressed_seq_lens !! e = Some s.
Proof.
  intros He. destruct Hwf as (Hl & _ & _).
  destruct (lookup_lt_is_Some_2 query_lens e) as [q Hq]; [lia |].
  destruct (lookup_lt_is_Some_2 compressed_seq_lens e) as [s Hs]; [done |].
  exists q, s. unfold row. by rewrite Hq, Hs.
Qed.

Lemma S_nonneg a b : 0 <= S_ a b.
Proof. apply sum_slice_nonneg, Hwf. Qed.

Lemma Q_nonneg a b : 0 <= Q_ a b.
Proof. apply sum_slice_nonneg, Hwf. Qed.

(** A slice within the budgets. *)
Definition within (a b : nat) : Prop := S_ a b <= workspace_size /\ Q_ a b * S_ a b <= E_.

Lemma grow_spec left start e :
  (start <= e)%nat -> (e + left)%nat = N_ -> e = start \/ within start e ->
  exists e', grow_ left e (Q_ start e) (S_ start e) = Ok (e', Q_ start e', S_ start e') /\
    (start <= e' <= N_)%nat /\ (e' = start \/ within start e').
Proof.
  revert e. induction left as [|k IH]; intros e He Hl Hw; simpl.
  - exists e. split; [done |]. split; [lia | done].
  - destruct (row_ok e) as (q & s & -> & Hq & Hs); [lia |]. simpl.
    case_if; [|exists e; split; [done | split; [lia | done]]]. bool_to_prop.
    unfold queries, entries in *. rewrite <- !sum_slice_snoc by done. apply IH; [lia | lia |].
    right. unfold within, queries, entries. by rewrite !(sum_slice_snoc _ _ _ _ He) by done.
Qed.

Lemma entries_ge a b i s : (a <= i < b)%nat -> compressed_seq_lens !! i = Some s -> s <= S_ a b.
Proof.
  intros Hi Hs. unfold entries. rewrite (sum_slice_app _ a i b), (sum_slice_app _ i (S i) b) by lia.
  rewrite (sum_slice_snoc _ i i s), sum_slice_nil by done.
  pose proof (S_nonneg a i). pose proof (S_nonneg (S i) b). unfold entries in *. lia.
Qed.

(** A round takes a non-empty slice within the workspace, or meets a request
    wider than the workspace. *)
Lemma one_chunk_spec start : (start < N_)%nat ->
  (exists e, one_chunk_ start = Ok (e, Q_ start e, S_ start e) /\ (start < e <= N_)%nat /\ S_ start e <= workspace_size) \/
  (one_chunk_ start = Raise ValueError /\ exists s, compressed_seq_lens !! start = Some s /\ workspace_size < s).
Proof.
  intros Hs. unfold one_chunk.
  destruct (grow_spec (N_ - start) start start) as (e & Hg & He & Hw); [lia | lia | by left |].
  assert (Q_ start start = 0) as HQ0 by apply sum_slice_nil. assert (S_ start start = 0) as HS0 by apply sum_slice_nil.
  rewrite HQ0, HS0 in Hg. rewrite Hg. simpl.
  destruct (Nat.eqb_spec e start) as [->|Hne].
  - destruct (row_ok start Hs) as (q & s & -> & Hq & Hss). simpl.
    assert (S_ start (S start) = s /\ Q_ start (S start) = q) as [HS HQ].
    { unfold queries, entries.
      rewrite (sum_slice_snoc query_lens start start q), (sum_slice_snoc compressed_seq_lens start start s) by done.
      rewrite !sum_slice_nil. split; lia. }
    destruct (Z.ltb_spec workspace_size s) as [Hw'|Hw']; simpl; [right; split; [done |]; by exists s |].
    left. exists (S start). rewrite HS, HQ. case_if; bool_to_prop; [lia |]. split; [done | split; lia].
  - simpl. destruct Hw as [->|[Hw _]]; [done |]. left. exists e. case_if; bool_to_prop; [lia |].
    split; [done | split; [lia | done]].
Qed.

(** ** The query rows of a chunk *)

Lemma max_q_pos m w : 1 <= max_q max_logits_bytes m w.
Proof. unfold max_q. case_if; lia. Qed.

(** Slicing [0, m) by steps of [mq]. *)
Lemma slices_cover m mq off : 0 <= m -> 1 <= mq ->
  concat (map (fun q_off => seqZ (off + q_off) (Z.min mq (m - q_off))) (range_step m mq)) = seqZ off m.
Proof.
  intros Hm Hq. unfold range_step. rewrite map_map.
  assert (forall k, (k <= Z.to_nat (cdiv m mq))%nat ->
    concat (map (fun i => seqZ (off + Z.of_nat i * mq) (Z.min mq (m - Z.of_nat i * mq))) (seq 0 k))
    = seqZ off (Z.min (Z.of_nat k * mq) m)) as H.
  { induction k as [|k IH]; intros Hk; [by replace (Z.min _ m) with 0 by lia |].
    rewrite seq_S, map_app, concat_app, IH by lia. simpl. rewrite app_nil_r.
    assert (Z.of_nat k * mq < m) as Hlt.
    { apply Z.nle_gt. intros Hx. assert (cdiv m mq <= Z.of_nat k) by (apply cdiv_le_iff; lia). lia. }
    replace (Z.min (Z.of_nat k * mq) m) with (Z.of_nat k * mq) by lia.
    replace (Z.min (Z.of_nat (S k) * mq) m) with (Z.of_nat k * mq + Z.min mq (m - Z.of_nat k * mq)) by lia.
    rewrite <- seqZ_app by lia. done. }
  rewrite H by lia. f_equal. assert (m <= Z.of_nat (Z.to_nat (cdiv m mq)) * mq); [|lia].
  rewrite Z2Nat.id; [apply cdiv_le_iff; lia |]. unfold cdiv. div_lia.
Qed.

(** Every slice of a chunk is non-empty, inside the chunk, and within the logits
    budget unless it is a single row. *)
Lemma slices_fit start e c :
  c ∈ slices max_logits_bytes start e (Q_ start e) (S_ start e) ->
  exists lo hi, c = ((start, e), (lo, hi)) /\ 0 <= lo < hi /\ hi <= Q_ start e /\
    ((hi - lo) * S_ start e <= E_ \/ hi = lo + 1).
Proof.
  unfold slices. intros (q_off & -> & Hin)%list_elem_of_fmap.
  unfold range_step in Hin. apply list_elem_of_fmap in Hin as (i & -> & [_ Hi]%elem_of_seq).
  set (m := Q_ start e) in *. set (w := S_ start e) in *. set (mq := max_q max_logits_bytes m w) in *.
  pose proof (max_q_pos m w) as Hq. fold mq in Hq.
  assert (Z.of_nat i * mq < m) as Hlt.
  { apply Z.nle_gt. intros Hx. assert (cdiv m mq <= Z.of_nat i) by (apply cdiv_le_iff; lia). lia. }
  eexists _, _. split; [done |]. split; [lia |]. split; [lia |].
  set (len := Z.min mq (m - Z.of_nat i * mq)) in *. replace (_ + len - _) with len by lia.
  assert (len <= mq) as Hlen by lia. assert (0 <= E_) as HE by (unfold max_logits_elems; by apply Z.div_pos).
  assert (1 <= len) as Hpos by lia. clearbody len. unfold mq, max_q in Hlen. destruct (Z.ltb_spec 0 w) as [Hw|Hw].
  - destruct (Z.le_gt_cases 1 (E_ / w)) as [Hd|Hd]; [left | right; lia].
    assert (w * (E_ / w) <= E_) by (by apply Z.mul_div_le). nia.
  - left. assert (w = 0) as -> by (pose proof (S_nonneg start e); subst w; lia). lia.
Qed.

(** ** The whole split *)

(** The query rows of a list of chunks, numbered over the batch. *)
Definition rows_of (chunks : list chunk) : list Z :=
  concat (map (fun '((a, _), (lo, hi)) => seqZ (Q_ 0 a + lo) (hi - lo)) chunks).

(** What a chunk promises to the gather. *)
Definition fits (c : chunk) : Prop :=
  let '((a, b), (lo, hi)) := c in
  (a < b <= N_)%nat /\ S_ a b <= workspace_size /\ 0 <= lo < hi /\ hi <= Q_ a b /\
  ((hi - lo) * S_ a b <= E_ \/ hi = lo + 1).

Lemma rows_of_slices start e :
  rows_of (slices max_logits_bytes start e (Q_ start e) (S_ start e)) = seqZ (Q_ 0 start) (Q_ start e).
Proof.
  unfold rows_of, slices. rewrite map_map. rewrite <- (slices_cover _ (max_q max_logits_bytes (Q_ start e) (S_ start e)));
    [|apply Q_nonneg | apply max_q_pos].
  f_equal. apply map_ext. intros x. f_equal. lia.
Qed.

Lemma split_from_spec fuel start : (start <= N_)%nat -> (N_ - start <= fuel)%nat ->
  match split_from_ fuel start with
  | Ok chunks => Forall (fun s => s <= workspace_size) (drop start compressed_seq_lens) /\
      rows_of chunks = seqZ (Q_ 0 start) (Q_ start N_) /\ Forall fits chunks
  | Raise e => e = ValueError /\ exists i s, compressed_seq_lens !! i = Some s /\ workspace_size < s
  end.
Proof.
  revert start. induction fuel as [|k IH]; intros start Hs Hf; simpl; (case_if; bool_to_prop; [|try lia]).
  1, 2: assert (start = N_) as -> by lia; unfold nreq; rewrite drop_all; split; [done | split; [|done]];
    unfold queries; by rewrite sum_slice_nil.
  destruct (one_chunk_spec start) as [(e & -> & He & Hw)|[-> (s & Hss)]]; [lia | | simpl; eauto].
  simpl. specialize (IH e ltac:(lia) ltac:(lia)). destruct (split_from_ k e) as [rest|]; [|done].
  destruct IH as (Hfit & Hrows & Hall). simpl. split; [|split].
  - apply Forall_lookup. intros i s Hi. rewrite lookup_drop in Hi.
    destruct (decide (start + i < e)%nat) as [Hl|Hl].
    + etransitivity; [|exact Hw]. by apply (entries_ge start e (start + i)); [lia |].
    + rewrite Forall_lookup in Hfit. apply (Hfit (start + i - e)%nat). rewrite lookup_drop.
      by replace (e + (start + i - e))%nat with (start + i)%nat by lia.
  - unfold rows_of in *. rewrite map_app, concat_app. fold (rows_of (slices max_logits_bytes start e (Q_ start e) (S_ start e))).
    rewrite rows_of_slices, Hrows. unfold queries. rewrite (sum_slice_app _ 0 start e), (sum_slice_app _ start e N_) by lia.
    symmetry. apply seqZ_app; apply Q_nonneg.
  - apply Forall_app. split; [|done]. apply Forall_forall. intros c Hc.
    apply slices_fit in Hc as (lo & hi & -> & Hlh & Hhi & Hb). by split; [lia | split].
Qed.
End facts.

(** The splitter loses nothing and duplicates nothing: on a well-formed
    batch it fails exactly when one request is wider than the workspace, with
    [ValueError]; otherwise its chunks, in order, hold every query row of the
    batch exactly once, each gathers at most the workspace, and each stays
    within the logits budget unless it is a single query row. *)
Theorem split_covers (seq_lens query_lens : list Z) (workspace_size max_logits_bytes : Z)
    (Hwf : well_formed seq_lens query_lens) (Hlogits : 0 <= max_logits_bytes) :
  match split_prefill_chunks seq_lens query_lens workspace_size max_logits_bytes with
  | Ok chunks => rows_fit seq_lens workspace_size /\ rows_of query_lens chunks = seqZ 0 (Zsum query_lens) /\
      Forall (fits seq_lens query_lens workspace_size max_logits_bytes) chunks
  | Raise e => e = ValueError /\ ~ rows_fit seq_lens workspace_size
  end.
Proof.
  pose proof (split_from_spec seq_lens query_lens workspace_size max_logits_bytes Hwf Hlogits (nreq seq_lens) 0) as H.
  unfold split_prefill_chunks. destruct (split_from _ _ _ _ _ _) as [chunks|e].
  - destruct H as (Hf & Hr & Ha); [lia | lia |]. split; [exact Hf |]. split; [|done]. rewrite Hr.
    unfold queries, sum_slice. rewrite Nat.sub_0_r, !drop_0, take_0, take_ge; [done |]. destruct Hwf as [Hl _]. lia.
  - destruct H as (-> & i & s & Hi & Hs); [lia | lia |]. split; [done |]. intros Hf.
    unfold rows_fit in Hf. rewrite Forall_lookup in Hf. specialize (Hf i s Hi). lia.
Qed.

(** ** The right-sized workspace *)

(** A batch the scheduler can build under the configuration: no more requests
    than [max_num_seqs], each a compressed view of at most [span] positions. *)
Definition admissible (c : config) (index_kpool : Z) (seq_lens : list Z) : Prop :=
  Z.of_nat (length seq_lens) <= max_num_seqs c /\
  Forall (fun s => exists l, 0 <= s <= cdiv l index_kpool /\ l <= span c) seq_lens.

Lemma cdiv_mono a b k : 0 < k -> a <= b -> cdiv a k <= cdiv b k.
Proof. intros Hk H. apply cdiv_le_iff; [done |]. unfold cdiv. div_lia. Qed.

Lemma rightsize_entries env c kpool w :
  env !! "GLM53_INDEXER_WORKSPACE" = Some "rightsize" -> _glm53_glm5next_workspace_entries env c kpool = Ok w ->
  1 < kpool /\ 0 < max_num_seqs c /\ 0 < span c /\ w = cdiv (span c) kpool * max_num_seqs c /\
  w < get_max_prefill_buffer_size c.
Proof.
  intros He. unfold _glm53_glm5next_workspace_entries, _glm53_workspace_mode. rewrite He. simpl.
  repeat (case_if; [done |]). intros [= <-]. bool_to_prop.
  assert (0 < span c) by (unfold span; lia). repeat split; try lia.
Qed.

(** C28. In rightsize mode a workspace that boots is smaller than the stock one
    and still large enough: no batch the scheduler can build makes the splitter
    raise, no chunk trips a guard in front of the gather, and the whole batch
    fits at once. *)
Theorem rightsize_never_overflows env c kpool w seq_lens query_lens max_logits_bytes
    (Hmode : env !! "GLM53_INDEXER_WORKSPACE" = Some "rightsize")
    (Hw : _glm53_glm5next_workspace_entries env c kpool = Ok w)
    (Hwf : well_formed seq_lens query_lens) (Hlogits : 0 <= max_logits_bytes)
    (Hbatch : admissible c kpool seq_lens) :
  w < get_max_prefill_buffer_size c /\ Zsum seq_lens <= w /\
  exists chunks, split_prefill_chunks seq_lens query_lens w max_logits_bytes = Ok chunks /\
    Forall (fun '((a, b), _) => gather_guard kpool (entries seq_lens a b) w = Ok tt /\
                               metadata_guard (entries seq_lens a b) w = Ok tt) chunks.
Proof.
  destruct (rightsize_entries env c kpool w Hmode Hw) as (Hk & Hn & Hsp & Hwe & Hlt). split; [done |].
  destruct Hbatch as [Hlen Hall].
  set (per := cdiv (span c) kpool) in *.
  assert (0 < per) as Hper by (subst per; unfold cdiv; div_lia).
  assert (Forall (fun s => s <= per) seq_lens) as Hrows.
  { eapply Forall_impl; [exact Hall |]. intros s (l & [_ Hs] & Hl). etransitivity; [exact Hs |]. subst per. apply cdiv_mono; lia. }
  split; [etransitivity; [by apply Zsum_bound | nia] |].
  pose proof (split_covers seq_lens query_lens w max_logits_bytes Hwf Hlogits) as H.
  destruct (split_prefill_chunks _ _ _ _) as [chunks|].
  - exists chunks. split; [done |]. destruct H as (_ & _ & H). eapply Forall_impl; [exact H |].
    intros [[a b] [lo hi]] (_ & Hs & _). unfold gather_guard, metadata_guard.
    destruct (Z.ltb_spec w (entries seq_lens a b)); [lia |]. by rewrite andb_false_r.
  - destruct H as [_ H]. contradict H. unfold rows_fit. eapply Forall_impl; [exact Hrows |]. intros s Hs. cbn beta in *. rewrite Hwe. transitivity per; [exact Hs | nia].
Qed.

(** ** Witnesses *)

(** Three requests over a workspace of 6, four logits per entry. *)
Lemma split_covers_witness :
  split_prefill_chunks [4; 2; 5] [3; 0; 2] 6 32 =
    Ok [((0, 1)%nat, (0, 2)); ((0, 1)%nat, (2, 3)); ((2, 3)%nat, (0, 1)); ((2, 3)%nat, (1, 2))] /\
  rows_of [3; 0; 2] [((0, 1)%nat, (0, 2)); ((0, 1)%nat, (2, 3)); ((2, 3)%nat, (0, 1)); ((2, 3)%nat, (1, 2))] = seqZ 0 5.
Proof.
  assert (well_formed [4; 2; 5] [3; 0; 2]) as Hwf.
  { split; [reflexivity | split]; repeat (constructor; [lia |]); constructor. }
  pose proof (split_covers [4; 2; 5] [3; 0; 2] 6 32 Hwf ltac:(lia)) as H.
  split; [vm_compute; reflexivity |].
  destruct (split_prefill_chunks [4; 2; 5] [3; 0; 2] 6 32) as [chunks|] eqn:E; vm_compute in E; [|discriminate E].
  injection E as <-. exact (proj1 (proj2 H)).
Defined.

(** The production window: one million tokens, four requests, pool of four. *)
Definition production : config := Config 1048576 4 (Some 7).
Definition rightsize_env : environ := {[ "GLM53_INDEXER_WORKSPACE" := "rightsize" ]}.

Lemma rightsize_never_overflows_witness :
  _glm53_glm5next_workspace_entries rightsize_env production 4 = Ok 1048584 /\
  1048584 < get_max_prefill_buffer_size production.
Proof.
  assert (_glm53_glm5next_workspace_entries rightsize_env production 4 = Ok 1048584) as Hw by (vm_compute; reflexivity).
  split; [exact Hw |].
  refine (proj1 (rightsize_never_overflows rightsize_env production 4 1048584 [262144; 5] [8; 1] 1024 _ Hw _ _ _)).
  - vm_compute. reflexivity.
  - split; [reflexivity | split]; repeat (constructor; [lia |]); constructor.
  - lia.
  - split; [vm_compute; discriminate |]. constructor; [exists 1048576 | constructor; [exists 20 | constructor]];
      (split; [split |]; vm_compute; discriminate).
Defined.
