(* ===== verification/Grammar.v ===== *)
(** * The XGrammar backend after the termination fixes

    Model of the code [overlay/patch_xgrammar_termination.py] installs
    ([ACCEPT_UPSTREAM], [VALIDATE_UPSTREAM], [RESET_UPSTREAM] and the manager's
    speculative advance, [MANAGER_UPSTREAM]) and of the code it replaces
    ([ACCEPT_OLD], [VALIDATE_OLD], [RESET_OLD], [MANAGER_OLD]).  The unchanged
    methods are those of the fixture in [tests/test_xgrammar_termination.py].
    The matcher itself is XGrammar's: a class of operations, with a class of the
    laws its documentation gives. *)
From Stdlib Require Import ZArith Lia.
From stdpp Require Import base list.
From S2P Require Import Prelude.

(** ** The matcher interface *)

Class MatcherOps (M token : Type) := {
  accept_token : token -> M -> bool * M;
  matcher_terminated : M -> bool;
  matcher_rollback : nat -> M -> M;
  matcher_reset : M -> M
}.

(** [m'] is [m] after accepting the tokens. *)
Inductive accepts `{MatcherOps M token} : list token -> M -> M -> Prop :=
  | accepts_nil m : accepts [] m m
  | accepts_cons t ts m m1 m2 : accept_token t m = (true, m1) -> accepts ts m1 m2 -> accepts (t :: ts) m m2.

Class MatcherLaws (M token : Type) `{MatcherOps M token} : Prop := {
  (** A rejected token leaves the matcher where it was. *)
  reject_unchanged t m m' : accept_token t m = (false, m') -> m' = m;
  (** Rolling back as many tokens as were accepted undoes them. *)
  rollback_undoes ts m m' : accepts ts m m' -> matcher_rollback (length ts) m' = m;
  (** A terminated matcher rejects every token. *)
  terminated_rejects t m : matcher_terminated m = true -> accept_token t m = (false, m);
  (** A reset matcher is back at its root, where it is not terminated. *)
  reset_root m m' : matcher_reset m = matcher_reset m';
  reset_open m : matcher_terminated (matcher_reset m) = false
}.

(** ** The grammar *)

Section grammar.
Context {M token : Type} `{MatcherOps M token}.

(** [XgrammarGrammar]; [logged] counts its [logger.error] calls. *)
Record grammar := Grammar { matcher : M; num_processed_tokens : nat; _is_terminated : bool; logged : nat }.

Definition init (m : M) : grammar := Grammar m 0 false 0.

(** The body of the patched [accept_tokens]' loop. *)
Fixpoint accept_loop (tokens : list token) (g : grammar) : bool * grammar :=
  match tokens with
  | [] => (true, g)
  | t :: rest =>
      let '(ok, m) := accept_token t (matcher g) in
      if negb ok then (false, Grammar m (num_processed_tokens g) (_is_terminated g) (S (logged g)))
      else
        let g := Grammar m (S (num_processed_tokens g)) (matcher_terminated m) (logged g) in
        if _is_terminated g then (true, g) else accept_loop rest g
  end.

Definition accept_tokens (tokens : list token) (g : grammar) : bool * grammar :=
  if _is_terminated g then (true, g) else accept_loop tokens g.

(** The accepted prefix and the matcher after it. *)
Fixpoint validate_loop (tokens : list token) (m : M) : list token * M :=
  match tokens with
  | [] => ([], m)
  | t :: rest =>
      let '(ok, m) := accept_token t m in
      if negb ok then ([], m)
      else if matcher_terminated m then ([t], m)
      else let '(acc, m) := validate_loop rest m in (t :: acc, m)
  end.

Definition set_matcher (m : M) (g : grammar) : grammar :=
  Grammar m (num_processed_tokens g) (_is_terminated g) (logged g).

Definition validate_tokens (tokens : list token) (g : grammar) : list token * grammar :=
  if _is_terminated g then ([], g)
  else
    let '(accepted, m) := validate_loop tokens (matcher g) in
    (accepted, set_matcher (if (0 <? length accepted)%nat then matcher_rollback (length accepted) m else m) g).

Definition reset (g : grammar) : grammar := Grammar (matcher_reset (matcher g)) 0 false (logged g).

(** The unchanged methods. *)
Definition rollback (num_tokens : nat) (g : grammar) : grammar :=
  let m := matcher_rollback num_tokens (matcher g) in
  Grammar m (num_processed_tokens g - num_tokens) (matcher_terminated m) (logged g).
Definition is_terminated (g : grammar) : bool := _is_terminated g.

(** The manager's speculative advance for one token; it counts advancements. *)
Definition advance (advance_grammar post_reasoning_end_in_window : bool) (t : token) (s : grammar * nat)
    : res (grammar * nat) :=
  let '(g, state_advancements) := s in
  if advance_grammar && negb (is_terminated g) then
    let '(accepted, g) :=
      if post_reasoning_end_in_window then
        let '(v, g) := validate_tokens [t] g in
        if (0 <? length v)%nat then accept_tokens [t] g else (false, g)
      else accept_tokens [t] g in
    if accepted then Ok (g, S state_advancements)
    else if negb post_reasoning_end_in_window then Raise AssertionError
    else Ok (g, state_advancements)
  else Ok (g, state_advancements).

(** ** The code before the fixes *)

Fixpoint accept_loop_old (tokens : list token) (g : grammar) : bool * grammar :=
  match tokens with
  | [] => (true, Grammar (matcher g) (num_processed_tokens g) (matcher_terminated (matcher g)) (logged g))
  | t :: rest =>
      let '(ok, m) := accept_token t (matcher g) in
      if negb ok then (false, Grammar m (num_processed_tokens g) (_is_terminated g) (S (logged g)))
      else accept_loop_old rest (Grammar m (S (num_processed_tokens g)) (_is_terminated g) (logged g))
  end.

Definition accept_tokens_old (tokens : list token) (g : grammar) : bool * grammar :=
  if _is_terminated g then (false, g) else accept_loop_old tokens g.

Fixpoint validate_loop_old (tokens : list token) (m : M) : list token * M :=
  match tokens with
  | [] => ([], m)
  | t :: rest =>
      let '(ok, m) := accept_token t m in
      if negb ok then ([], m) else let '(acc, m) := validate_loop_old rest m in (t :: acc, m)
  end.

Definition validate_tokens_old (tokens : list token) (g : grammar) : list token * grammar :=
  let '(accepted, m) := validate_loop_old tokens (matcher g) in
  (accepted, set_matcher (if (0 <? length accepted)%nat then matcher_rollback (length accepted) m else m) g).

Definition reset_old (g : grammar) : grammar := Grammar (matcher_reset (matcher g)) 0 (_is_terminated g) (logged g).

Definition advance_old (advance_grammar post_reasoning_end_in_window : bool) (t : token) (s : grammar * nat)
    : res (grammar * nat) :=
  let '(g, state_advancements) := s in
  if advance_grammar && negb (is_terminated g) then
    let '(accepted, g) := accept_tokens_old [t] g in
    if accepted then Ok (g, S state_advancements)
    else if negb post_reasoning_end_in_window then Raise AssertionError
    else Ok (g, state_advancements)
  else Ok (g, state_advancements).

(** ** Runs *)

(** The calls on a grammar.  The engine rolls back tokens it has advanced by. *)
Inductive step : grammar -> grammar -> Prop :=
  | step_accept tokens g : step g (snd (accept_tokens tokens g))
  | step_validate tokens g : step g (snd (validate_tokens tokens g))
  | step_rollback k g : k <= num_processed_tokens g -> step g (rollback k g)
  | step_reset g : step g (reset g)
  | step_advance adv post t g n g' n' : advance adv post t (g, n) = Ok (g', n') -> step g g'.

Inductive reachable (m : M) : grammar -> Prop :=
  | reachable_init : reachable m (init (matcher_reset m))
  | reachable_step g g' : reachable m g -> step g g' -> reachable m g'.

(** The two cached fields agree with the matcher: it is where the counted tokens
    lead from its root, and the flag is its own. *)
Definition coherent (m : M) (g : grammar) : Prop :=
  _is_terminated g = matcher_terminated (matcher g) /\
  exists ts, accepts ts (matcher_reset m) (matcher g) /\ num_processed_tokens g = length ts.
End grammar.
Arguments grammar : clear implicits.

(** ** Facts *)

Section facts.
Context {M token : Type} `{MatcherLaws M token}.

Lemma accepts_app ts us m m1 m2 : accepts ts m m1 -> accepts us m1 m2 -> accepts (ts ++ us) m m2.
Proof. induction 1; [done |]. intros. simpl. econstructor; eauto. Qed.

Lemma accepts_split ts us m m2 : accepts (ts ++ us) m m2 -> exists m1, accepts ts m m1 /\ accepts us m1 m2.
Proof.
  revert m. induction ts as [|t ts IH]; simpl; intros m Ha; [exists m; split; [constructor | done] |].
  inversion Ha as [|? ? ? m1 ? Ht Hr]; subst. destruct (IH m1 Hr) as (m3 & H1 & H2). exists m3. split; [|done].
  by econstructor.
Qed.

(** The validated prefix is what the matcher accepts; whatever the loop ends in
    is undone by the rollback. *)
Lemma validate_loop_accepts tokens m v m' : validate_loop tokens m = (v, m') -> accepts v m m'.
Proof.
  revert m v m'. induction tokens as [|t rest IH]; simpl; intros m v m'; [intros [= <- <-]; constructor |].
  destruct (accept_token t m) as [[] m1] eqn:Et; simpl.
  - destruct (matcher_terminated m1); [intros [= <- <-]; econstructor; [exact Et | constructor] |].
    destruct (validate_loop rest m1) as [acc m2] eqn:Er. intros [= <- <-]. econstructor; [exact Et | by apply IH].
  - intros [= <- <-]. apply reject_unchanged in Et as ->. constructor.
Qed.

Lemma validate_unchanged tokens g : snd (validate_tokens tokens g) = g.
Proof.
  unfold validate_tokens. destruct g as [m k b l]; simpl. destruct b; [done |].
  destruct (validate_loop tokens m) as [v m'] eqn:E. apply validate_loop_accepts in E. simpl. unfold set_matcher. simpl.
  destruct (Nat.ltb_spec 0 (length v)); [by rewrite (rollback_undoes v m m') |].
  destruct v; [by inversion E | simpl in *; lia].
Qed.

(** One pass of the acceptance loop against one pass of the validation loop. *)
Lemma accept_loop_spec tokens g v m' : validate_loop tokens (matcher g) = (v, m') -> _is_terminated g = false ->
  v `prefix_of` tokens /\
  exists ok b l, accept_loop tokens g = (ok, Grammar m' (num_processed_tokens g + length v) b l) /\
    (0 < length v -> b = matcher_terminated m') /\ (length v = 0 -> b = false) /\
    (ok = true <-> v = tokens \/ (0 < length v /\ matcher_terminated m' = true)) /\
    (ok = true -> l = logged g).
Proof.
  revert g v m'. induction tokens as [|t rest IH]; intros g v m'; simpl.
  - intros [= <- <-] Hf. split; [done |]. exists true, false, (logged g). destruct g as [m k b l]; simpl in *. subst b.
    rewrite Nat.add_0_r. split_and!; [done | simpl; lia | done | naive_solver | done].
  - destruct (accept_token t (matcher g)) as [[] m1] eqn:Et; simpl.
    + destruct (matcher_terminated m1) eqn:Em.
      * intros [= <- <-] Hf. split; [by exists rest |]. exists true, true, (logged g). rewrite Nat.add_1_r.
        split_and!; [done | by rewrite Em | done | | done]. split; [|done]. intros _. right. split; [simpl; lia | done].
      * destruct (validate_loop rest m1) as [acc m2] eqn:Er. intros [= <- <-] Hf.
        destruct (IH (Grammar m1 (S (num_processed_tokens g)) false (logged g)) acc m2 Er eq_refl)
          as (Hp & ok & b & l & Hl & Hb & Hb0 & Hok & Hlog).
        split; [by apply prefix_cons |]. exists ok, b, l. rewrite Hl. simpl in *.
        split; [f_equal; f_equal; lia |]. split.
        { intros _. destruct acc as [|a acc]; [|apply Hb; simpl; lia].
          rewrite Hb0 by done. apply validate_loop_accepts in Er. inversion Er; subst. by rewrite Em. }
        split; [lia |]. split; [|done]. rewrite Hok. split.
        { intros [-> | [? ?]]; [by left | right; split; [lia | done]]. }
        { intros [[= ->] | [_ Ht]]; [by left |]. destruct acc as [|a acc]; [|right; split; [simpl; lia | done]].
          apply validate_loop_accepts in Er. inversion Er; subst. by rewrite Em in Ht. }
    + intros [= <- <-] Hf. split; [apply prefix_nil |]. exists false, false, (S (logged g)). rewrite Nat.add_0_r, Hf.
      split_and!; [done | simpl; lia | done | | done]. split; [done |]. intros [|[? _]]; [done | simpl in *; lia].
Qed.

Lemma accept_loop_trailing tokens rest g ok g' : _is_terminated g = false ->
  accept_loop tokens g = (ok, g') -> _is_terminated g' = true -> accept_loop (tokens ++ rest) g = (true, g').
Proof.
  revert g. induction tokens as [|t tokens IH]; simpl; intros g Hf; [intros [= <- <-] Ht; by rewrite Hf in Ht |].
  destruct (accept_token t (matcher g)) as [[] m]; simpl; [|intros [= <- <-]; simpl; by rewrite Hf].
  destruct (matcher_terminated m) eqn:Em; [by intros [= <- <-] |]. apply IH. done.
Qed.

(** Acceptance against validation, on a grammar whose flag is its matcher's. *)
Lemma accept_tokens_spec tokens g : _is_terminated g = matcher_terminated (matcher g) ->
  let '(v, g1) := validate_tokens tokens g in
  let '(ok, g2) := accept_tokens tokens g in
  g1 = g /\ v `prefix_of` tokens /\ accepts v (matcher g) (matcher g2) /\
  num_processed_tokens g2 = num_processed_tokens g + length v /\
  _is_terminated g2 = matcher_terminated (matcher g2) /\
  (ok = true <-> v = tokens \/ _is_terminated g2 = true) /\ (ok = true -> logged g2 = logged g).
Proof.
  intros Hc.
  pose proof (validate_unchanged tokens g) as Hu. destruct (validate_tokens tokens g) as [v g1] eqn:Ev. simpl in Hu. subst g1.
  unfold accept_tokens, validate_tokens in *. destruct (_is_terminated g) eqn:Hf.
  - injection Ev as <-. rewrite Nat.add_0_r. split_and!; [done | apply prefix_nil | apply accepts_nil | lia | congruence | | done].
    split; [by right | done].
  - destruct (validate_loop tokens (matcher g)) as [v' m'] eqn:El. injection Ev as -> _.
    destruct (accept_loop_spec tokens g v m' El Hf) as (Hp & ok & b & l & Hl & Hb & Hb0 & Hok & Hlog). rewrite Hl. simpl.
    apply validate_loop_accepts in El as Ha.
    assert (b = matcher_terminated m') as ->.
    { destruct v as [|t v]; [|apply Hb; simpl; lia]. inversion Ha; subst. by rewrite Hb0, <- Hc. }
    split_and!; try done. rewrite Hok. split; [intros [->|[_ Ht]]; [by left | by right] |]. intros [->|Ht]; [by left |].
    destruct v as [|t v]; [|right; split; [simpl; lia | done]]. inversion Ha; subst. by rewrite <- Hc in Ht.
Qed.

(** An advance leaves the grammar alone or is one [accept_tokens]. *)
Lemma advance_cases adv post t g n g' n' : advance adv post t (g, n) = Ok (g', n') ->
  g' = g \/ g' = snd (accept_tokens [t] g).
Proof.
  unfold advance. destruct (adv && negb (is_terminated g)); [|intros [= -> _]; by left].
  destruct post.
  - pose proof (validate_unchanged [t] g) as Hu. destruct (validate_tokens [t] g) as [v g1]. simpl in Hu. subst g1.
    destruct (0 <? length v)%nat; [|intros [= -> _]; by left].
    destruct (accept_tokens [t] g) as [[] g2]; intros [= -> _]; by right.
  - destruct (accept_tokens [t] g) as [[] g2]; simpl; [|done]. intros [= -> _]. by right.
Qed.

Lemma accept_coherent m tokens g : coherent m g -> coherent m (snd (accept_tokens tokens g)).
Proof.
  intros (Hf & ts & Ha & Hn). pose proof (accept_tokens_spec tokens g Hf) as H1.
  destruct (validate_tokens tokens g) as [v g1], (accept_tokens tokens g) as [ok g2]. simpl.
  destruct H1 as (_ & _ & Hv & Hnum & Hfl & _). split; [done |]. exists (ts ++ v). split; [by eapply accepts_app |].
  rewrite length_app. lia.
Qed.

Lemma advance_coherent m adv post t g n g' n' :
  coherent m g -> advance adv post t (g, n) = Ok (g', n') -> coherent m g'.
Proof. intros Hc [-> | ->]%advance_cases; [done | by apply accept_coherent]. Qed.

Lemma step_coherent m g g' : coherent m g -> step g g' -> coherent m g'.
Proof.
  intros Hc. destruct 1 as [tokens g|tokens g|k g Hk|g|adv post t g n g' n' Hadv].
  - by apply accept_coherent.
  - by rewrite validate_unchanged.
  - destruct Hc as (_ & ts & Ha & Hn). split; [done |].
    rewrite <- (take_drop (length ts - k) ts) in Ha. apply accepts_split in Ha as (m1 & H1 & H2).
    exists (take (length ts - k) ts). unfold rollback. simpl.
    assert (matcher_rollback k (matcher g) = m1) as ->.
    { rewrite <- (rollback_undoes _ _ _ H2). f_equal. rewrite length_drop. lia. }
    split; [done |]. rewrite length_take. lia.
  - split; [simpl; by rewrite reset_open |]. exists []. simpl. rewrite (reset_root (matcher g) m). split; [constructor | done].
  - by apply (advance_coherent m adv post t g n g' n').
Qed.

(** C29. Validation is an exact dry run of acceptance.  On a grammar whose flag
    is its matcher's, [validate_tokens] changes nothing and returns the prefix
    that [accept_tokens] would consume: the matcher ends where that prefix
    leads, the token count grows by its length, the flag stays the matcher's,
    the answer is true exactly when everything was consumed or the grammar
    terminated, and tokens after the termination are ignored. *)
Theorem validate_predicts_accept tokens g (Hc : _is_terminated g = matcher_terminated (matcher g)) :
  let '(v, g1) := validate_tokens tokens g in
  let '(ok, g2) := accept_tokens tokens g in
  g1 = g /\ v `prefix_of` tokens /\ accepts v (matcher g) (matcher g2) /\
  num_processed_tokens g2 = num_processed_tokens g + length v /\
  _is_terminated g2 = matcher_terminated (matcher g2) /\
  (ok = true <-> v = tokens \/ _is_terminated g2 = true) /\
  (_is_terminated g2 = true -> forall rest, accept_tokens (tokens ++ rest) g = (true, g2)).
Proof.
  pose proof (accept_tokens_spec tokens g Hc) as Hs.
  destruct (validate_tokens tokens g) as [v g1], (accept_tokens tokens g) as [ok g2] eqn:Ea.
  destruct Hs as (-> & Hp & Ha & Hn & Ht & Hok & _). split_and!; try done. intros Hterm rest.
  unfold accept_tokens in *. destruct (_is_terminated g) eqn:Hf; [by injection Ea as _ <- |].
  by apply (accept_loop_trailing tokens rest g ok).
Qed.

(** Whatever calls are made on a grammar - batches that run past the end,
    validations, rollbacks within what was consumed, resets, advances of the
    manager - its cached flag is the matcher's and its token count is the
    distance of the matcher from its root. *)
Theorem grammar_stays_coherent m g (Hr : reachable m g) : coherent m g.
Proof.
  induction Hr as [|g g' _ IH Hs]; [|by apply (step_coherent m g)].
  split; [simpl; by rewrite reset_open |]. exists []. split; [constructor | done].
Qed.

(** The manager's fix changes the logging and nothing else.  On a coherent
    grammar the patched advance and the stock one answer alike, count alike and
    leave the same matcher, count and flag; they raise together, only outside a
    window that began with the end of reasoning, and inside such a window the
    patched one never logs a failed advance. *)
Theorem advance_equiv adv post t g n (Hc : _is_terminated g = matcher_terminated (matcher g)) :
  match advance adv post t (g, n), advance_old adv post t (g, n) with
  | Ok (g1, n1), Ok (g2, n2) => n1 = n2 /\ matcher g1 = matcher g2 /\ _is_terminated g1 = _is_terminated g2 /\
      num_processed_tokens g1 = num_processed_tokens g2 /\ logged g1 = logged g
  | Raise e1, Raise e2 => e1 = AssertionError /\ e2 = AssertionError /\ post = false
  | _, _ => False
  end.
Proof.
  unfold advance, advance_old, is_terminated. destruct (adv && negb (_is_terminated g)) eqn:Ea; [|by split_and!].
  apply andb_true_iff in Ea as [_ Ef%negb_true_iff].
  pose proof (validate_unchanged [t] g) as Hu. destruct (validate_tokens [t] g) as [v g1] eqn:Ev. simpl in Hu. subst g1.
  unfold accept_tokens, accept_tokens_old, validate_tokens in *. rewrite Ef in *. simpl in *.
  destruct (accept_token t (matcher g)) as [[] m1] eqn:Et; simpl in *.
  - assert (v = [t]) as -> by (destruct (matcher_terminated m1); by injection Ev). simpl.
    destruct (matcher_terminated m1) eqn:Em, post; simpl; by split_and!.
  - injection Ev as <- _. apply reject_unchanged in Et as ->. simpl. destruct post; simpl; by split_and!.
Qed.
End facts.

(** ** A concrete matcher *)

(** The matcher of the tests: it ends with token 99, rejects token 0 and keeps
    what it accepted, last first. *)
#[export] Instance fake_ops : MatcherOps (list nat) nat := {
  accept_token t m :=
    if (t =? 0)%nat || match m with x :: _ => (x =? 99)%nat | [] => false end then (false, m) else (true, t :: m);
  matcher_terminated m := match m with x :: _ => (x =? 99)%nat | [] => false end;
  matcher_rollback k m := drop k m;
  matcher_reset _ := []
}.

Lemma fake_accepts ts (m m' : list nat) : accepts ts m m' -> m' = rev ts ++ m.
Proof.
  induction 1 as [|t ts m m1 m2 Ht _ IH]; [done |]. simpl in *. destruct (_ || _); [done |]. injection Ht as <-.
  by rewrite IH, <- app_assoc.
Qed.

#[export] Instance fake_laws : MatcherLaws (list nat) nat.
Proof.
  split; simpl.
  - intros t m m'. destruct (_ || _); congruence.
  - intros ts m m' ->%fake_accepts. by rewrite drop_app_length' by (by rewrite length_rev).
  - intros t m ->. by rewrite orb_true_r.
  - done.
  - done.
Qed.

Definition fresh : grammar (list nat) := init [].

Lemma validate_predicts_accept_witness :
  fst (validate_tokens [5; 99; 7] fresh) = [5; 99] /\
  accept_tokens ([5; 99; 7] ++ [8]) fresh = (true, Grammar [99; 5] 2 true 0).
Proof.
  pose proof (validate_predicts_accept [5; 99; 7] fresh eq_refl) as H. split; [reflexivity |].
  destruct (validate_tokens [5; 99; 7] fresh) as [v g1] eqn:Ev.
  destruct (accept_tokens [5; 99; 7] fresh) as [ok g2] eqn:Ea. vm_compute in Ea. injection Ea as <- <-.
  exact (proj2 (proj2 (proj2 (proj2 (proj2 (proj2 H))))) eq_refl [8]).
Defined.

Lemma grammar_stays_coherent_witness :
  _is_terminated (reset (snd (accept_tokens [5; 99; 7] fresh))) = false /\
  coherent [] (reset (snd (accept_tokens [5; 99; 7] fresh))).
Proof.
  split; [reflexivity |]. apply (grammar_stays_coherent []).
  apply (reachable_step _ (snd (accept_tokens [5; 99; 7] fresh))); [|apply step_reset].
  apply (reachable_step _ fresh); [exact (reachable_init (token := nat) []) | apply step_accept].
Defined.

(** An invalid draft before a mid-window end of reasoning: the stock advance logs
    a failure, the patched one does not. *)
Lemma advance_equiv_witness :
  advance true true 0 (fresh, 3) = Ok (fresh, 3) /\
  advance_old true true 0 (fresh, 3) = Ok (Grammar [] 0 false 1, 3).
Proof.
  pose proof (advance_equiv true true 0 fresh 3 eq_refl) as H.
  split; [| reflexivity]. destruct (advance true true 0 (fresh, 3)) as [[g1 n1]|] eqn:E1.
  - vm_compute in E1. injection E1 as <- <-. exact (f_equal (fun k => Ok (fresh, k)) (proj1 H)).
  - destruct (advance_old true true 0 (fresh, 3)) as [[g2 n2]|]; [destruct H | vm_compute in E1; discriminate E1].
Defined.

(** Before the fixes a reset kept the flag: the grammar refused every later
    batch, and a batch with a token after the end was reported as failed. *)
Lemma old_reset_stays_terminated :
  fst (accept_tokens_old [5] (reset_old (snd (accept_tokens_old [5; 99] fresh)))) = false /\
  fst (accept_tokens [5] (reset (snd (accept_tokens [5; 99] fresh)))) = true /\
  fst (accept_tokens_old [5; 99; 7] fresh) = false /\ fst (accept_tokens [5; 99; 7] fresh) = true.
Proof. by vm_compute. Qed.
