(* ===== verification/StopGuard.v ===== *)
(** * Stop strings while the model is reasoning

    Model of the code [overlay/patch_suppress_stops_in_reasoning.py] installs in
    the detokenizer: the guard's switch and arming ([FACTORY_NEW]) and the stop
    check of [update] ([STOP_NEW]).  The tokenizer, vLLM's configuration lookup
    and [check_stop_strings] are arguments; what the check is called with is the
    result.  Texts are byte strings: a UTF-8 match is a byte match. *)
From Stdlib Require Import ZArith Lia String Ascii.
From stdpp Require Import base list strings gmap.
From S2P Require Import Prelude PyStr.
#[local] Open Scope string_scope.

(** ** Arming *)

(** [_suppress_stops_enabled]: the first of the two variables that is set. *)
Definition _suppress_stops_enabled (env : environ) : bool :=
  match env !! "GLM53_SUPPRESS_STOPS_IN_REASONING" with
  | Some v => negb (String.eqb v "0")
  | None => match env !! "VLLM_SUPPRESS_STOPS_IN_REASONING" with
            | Some v => negb (String.eqb v "0")
            | None => true
            end
  end.

(** [s or d] on an attribute that may be missing, null or empty. *)
Definition str_or (s : option string) (d : string) : string :=
  match s with Some (String c r) => String c r | _ => d end.

(** [_reasoning_stop_markers]; the argument is the reasoning configuration, with
    its two attributes, or the exception its lookup raised. *)
Definition _reasoning_stop_markers (rc : res (option (option string * option string))) : string * string :=
  match rc with
  | Ok (Some (s, e)) => (str_or s "<think>", str_or e "</think>")
  | _ => ("<think>", "</think>")
  end.

(** The two methods of a tokenizer the guard calls, where it has them.  [encode]
    takes the keyword or not, and may return something that is not a list. *)
Record tokenizer := Tokenizer {
  convert_tokens_to_ids : option (string -> res (option Z));
  encode : option (bool -> string -> res (option (list Z)))
}.

Record detok := Detok {
  output_text : string;
  stop : list string;
  min_tokens : nat;
  _reasoning_stop_guard : bool;
  _reasoning_closed : bool;
  _reasoning_end_str : string
}.

(** The detokenizer as the patched constructor leaves it. *)
Definition new_detok (stop : list string) (min_tokens : nat) : detok := Detok "" stop min_tokens false false "</think>".

(** [ids = encode(start_str, add_special_tokens=False)], without the keyword
    after a [TypeError]. *)
Definition encode_start (f : bool -> string -> res (option (list Z))) (s : string) : res (option (list Z)) :=
  match f true s with Raise TypeError => f false s | r => r end.

(** The [try] block of the guard: the reasoning token of the prompt. *)
Definition think_id (tok : tokenizer) (start_str : string) : res (option Z) :=
  id ← match convert_tokens_to_ids tok with Some f => f start_str | None => Ok None end;
  if match id with Some z => (z <? 0)%Z | None => true end then
    match encode tok with
    | Some f =>
        ids ← encode_start f start_str;
        Ok (match ids with Some [z] => Some z | _ => id end)
    | None => Ok id
    end
  else Ok id.

(** [_maybe_enable_reasoning_stop_guard]: any exception leaves it unarmed. *)
Definition _maybe_enable_reasoning_stop_guard (env : environ) (rc : res (option (option string * option string)))
    (tok : tokenizer) (prompt_token_ids : list Z) (d : detok) : detok :=
  if negb (_suppress_stops_enabled env) then d
  else match stop d, last prompt_token_ids with
       | [], _ | _, None => d
       | _, Some lst =>
           let '(start_str, end_str) := _reasoning_stop_markers rc in
           match think_id tok start_str with
           | Ok (Some z) =>
               if (0 <=? z)%Z && (lst =? z)%Z then
                 Detok (output_text d) (stop d) (min_tokens d) true (_reasoning_closed d) end_str
               else d
           | _ => d
           end
       end.

(** ** The stop check of [update] *)

(** [text.find(marker)]: the first occurrence. *)
Fixpoint find (marker text : string) : option nat :=
  if String.prefix marker text then Some O
  else match text with EmptyString => None | String _ rest => S <$> find marker rest end.

(** [text.find(marker, start)]. *)
Definition find_from (marker : string) (start : nat) (text : string) : option nat :=
  if (String.length text <? start)%nat then None
  else (fun i => (start + i)%nat) <$> find marker (drop_str start text).

Definition set_text (t : string) (d : detok) : detok :=
  Detok t (stop d) (min_tokens d) (_reasoning_stop_guard d) (_reasoning_closed d) (_reasoning_end_str d).
Definition close (d : detok) : detok :=
  Detok (output_text d) (stop d) (min_tokens d) (_reasoning_stop_guard d) true (_reasoning_end_str d).

(** The patched block: the new state, the offset, and whether
    [check_stop_strings] is called. *)
Definition check_stop (num_output_tokens stop_check_offset : nat) (d : detok) : detok * nat * bool :=
  let '(d, offset) :=
    if _reasoning_stop_guard d && negb (_reasoning_closed d) then
      let marker := _reasoning_end_str d in
      let window := Z.to_nat (Z.max 0 (Z.of_nat stop_check_offset - (Z.of_nat (String.length marker) - 1))) in
      match find_from marker window (output_text d) with
      | Some idx => (close d, Nat.max stop_check_offset (idx + String.length marker))
      | None => (d, stop_check_offset)
      end
    else (d, stop_check_offset) in
  (d, offset, negb (match stop d with [] => true | _ => false end) && (min_tokens d <? num_output_tokens)%nat
              && (negb (_reasoning_stop_guard d) || _reasoning_closed d)).

(** Successive updates: each appends a chunk and checks from where the text
    ended before; the calls of [check_stop_strings] are collected. *)
Fixpoint updates (steps : list (string * nat)) (d : detok) : detok * list (string * nat) :=
  match steps with
  | [] => (d, [])
  | (chunk, num_output_tokens) :: rest =>
      let before := String.length (output_text d) in
      let '(d, offset, called) := check_stop num_output_tokens before (set_text (output_text d ++ chunk) d) in
      let '(d', calls) := updates rest d in
      (d', if called then (output_text d, offset) :: calls else calls)
  end.

(** The texts the unpatched [update] would check, of those that satisfy [P]. *)
Fixpoint checked_texts (P : string -> bool) (stop : list string) (min_tokens : nat) (text : string)
    (steps : list (string * nat)) : list string :=
  match steps with
  | [] => []
  | (chunk, num_output_tokens) :: rest =>
      let text := (text ++ chunk)%string in
      ((if negb (match stop with [] => true | _ => false end) && (min_tokens <? num_output_tokens)%nat && P text
       then [text] else []) ++ checked_texts P stop min_tokens text rest)%list
  end.

(** ** First occurrences *)

Lemma find_None m s : find m s = None <-> str_in m s = false.
Proof.
  induction s as [|c s IH]; cbn [find str_in]; destruct (String.prefix m _) eqn:E; simpl; try done.
  destruct (find m s); simpl; [|by apply IH]. split; [done |]. intros H. by apply IH in H.
Qed.

Lemma find_bound m s i : find m s = Some i -> (i + String.length m <= String.length s)%nat.
Proof.
  revert i. induction s as [|c s IH]; cbn [find]; intros i; destruct (String.prefix m _) eqn:E.
  1, 3: intros [= <-]; by apply length_prefix in E.
  - done.
  - destruct (find m s) as [j|]; [|done]. intros [= <-]. specialize (IH j eq_refl). simpl. lia.
Qed.

(** What follows does not change the first occurrence. *)
Lemma find_app m s t i : find m s = Some i -> find m (s ++ t) = Some i.
Proof.
  revert i. induction s as [|c s IH]; intros i H.
  - cbn [find] in H. destruct (String.prefix m "") eqn:E; [|done]. injection H as <-.
    apply prefix_spec in E as [z Hz]. destruct m; [|discriminate Hz]. by destruct t.
  - change (String c s ++ t) with (String c (s ++ t)). cbn [find] in H |- *.
    destruct (String.prefix m (String c s)) eqn:E.
    + injection H as <-. apply prefix_spec in E as [z Hz].
      rewrite (proj2 (prefix_spec m (String c (s ++ t)))); [done |]. exists (z ++ t).
      change (String c (s ++ t)) with (String c s ++ t). by rewrite Hz, app_assoc_str.
    + destruct (find m s) as [j|] eqn:Ej; [|done]. injection H as <-. rewrite (IH j eq_refl).
      destruct (String.prefix m (String c (s ++ t))) eqn:E'; [|done]. exfalso. apply find_bound in Ej.
      apply prefix_spec in E' as [z Hz]. change (String c (s ++ t)) with (String c s ++ t) in Hz.
      assert (String.prefix m (String c s) = true) as Hp; [|by rewrite Hp in E].
      apply (prefix_of_longer m (String c s) z t); [by symmetry | simpl; lia].
Qed.

Lemma drop_str_0 s : drop_str 0 s = s.
Proof. by destruct s. Qed.

(** An occurrence at a position is an occurrence. *)
Lemma prefix_drop_in m k s : String.prefix m (drop_str k s) = true -> str_in m s = true.
Proof.
  revert k. induction s as [|c s IH]; intros [|k] H.
  1, 3: rewrite drop_str_0 in H; cbn [str_in]; by rewrite H.
  - cbn [str_in drop_str] in *. by rewrite H.
  - cbn [str_in]. rewrite (IH k H). apply orb_true_r.
Qed.

(** Positions without an occurrence can be skipped. *)
Lemma find_skip m w s : (forall j, (j < w)%nat -> String.prefix m (drop_str j s) = false) -> (w <= String.length s)%nat ->
  find m s = (fun i => (w + i)%nat) <$> find m (drop_str w s).
Proof.
  revert s. induction w as [|w IH]; intros s Hj Hw.
  - rewrite drop_str_0. by destruct (find m s).
  - destruct s as [|c s]; [simpl in Hw; lia |]. pose proof (Hj 0%nat ltac:(lia)) as H0. rewrite drop_str_0 in H0.
    change (drop_str (S w) (String c s)) with (drop_str w s). cbn [find]. rewrite H0, (IH s); [by destruct (find m (drop_str w s)) | | simpl in Hw; lia].
    intros j Hlt. exact (Hj (S j) ltac:(lia)).
Qed.

(** Nothing is missed by starting at the window. *)
Lemma find_window m old chunk : m <> "" -> str_in m old = false ->
  find_from m (String.length old + 1 - String.length m) (old ++ chunk) = find m (old ++ chunk).
Proof.
  intros Hm Ho. assert (1 <= String.length m)%nat by (destruct m; [done | simpl; lia]). unfold find_from.
  rewrite length_app_str. case_if; bool_to_prop; [lia |]. symmetry. apply find_skip; [|rewrite length_app_str; lia].
  intros j Hj. apply not_true_iff_false. intros Hp. rewrite drop_app_le in Hp by lia.
  apply prefix_spec in Hp as [z Hz]. apply not_true_iff_false in Ho. apply Ho. apply (prefix_drop_in m j).
  apply (prefix_of_longer m _ z chunk); [by symmetry |]. rewrite length_drop_str. lia.
Qed.

(** ** The updates of an armed detokenizer *)

(** The cached flag says whether the reasoning has ended in the text so far. *)
Definition tracked (m : string) (d : detok) : Prop :=
  _reasoning_stop_guard d = true /\ _reasoning_end_str d = m /\ _reasoning_closed d = str_in m (output_text d).

Lemma tracked_step m n chunk d d' off called : m <> "" -> tracked m d ->
  check_stop n (String.length (output_text d)) (set_text (output_text d ++ chunk) d) = (d', off, called) ->
  tracked m d' /\ output_text d' = output_text d ++ chunk /\ stop d' = stop d /\ min_tokens d' = min_tokens d /\
  called = negb (match stop d with [] => true | _ => false end) && (min_tokens d <? n)%nat && str_in m (output_text d') /\
  (called = true -> exists i, find m (output_text d') = Some i /\ (i + String.length m <= off)%nat).
Proof.
  intros Hm (Hg & He & Hc). destruct d as [t sp mn g cl en]. simpl in *. subst g en cl.
  unfold check_stop, set_text. simpl. destruct (str_in m t) eqn:Ht; simpl.
  - intros [= <- <- <-]. destruct (find m t) as [i|] eqn:Ei; [|apply find_None in Ei; by rewrite Ht in Ei].
    apply find_app with (t := chunk) in Ei as Ei'. simpl.
    assert (str_in m (t ++ chunk) = true) as Htc by (by apply str_in_app_l).
    split_and!; try done; [by rewrite Htc |].
    intros _. exists i. split; [done |]. by apply find_bound.
  - replace (Z.to_nat (Z.max 0 (Z.of_nat (String.length t) - (Z.of_nat (String.length m) - 1))))
      with (String.length t + 1 - String.length m)%nat by (destruct m; [done | simpl; lia]).
    rewrite find_window by done. destruct (find m (t ++ chunk)) as [i|] eqn:Ei; simpl; intros [= <- <- <-]; simpl.
    + assert (str_in m (t ++ chunk) = true) as Htc.
      { apply not_false_iff_true. intros Hx. apply find_None in Hx. by rewrite Ei in Hx. }
      split_and!; try done; [by rewrite Htc |]. intros _. exists i. split; [done | lia].
    + apply find_None in Ei. split_and!; try done; [by rewrite Ei |]. by rewrite andb_false_r.
Qed.

(** While the guard is armed no stop string is looked for before the
    reasoning has ended, and nothing is missed: however the output is cut into
    chunks - the end marker split over several, or several tokens in one - the
    check is called on exactly the texts stock would check that contain the
    marker, and never from before the end of its first occurrence. *)
Theorem reasoning_stops_dormant m steps d (Hm : m <> "") (Ht : tracked m d) :
  let '(d', calls) := updates steps d in
  tracked m d' /\
  map fst calls = checked_texts (str_in m) (stop d) (min_tokens d) (output_text d) steps /\
  Forall (fun '(text, offset) => exists i, find m text = Some i /\ (i + String.length m <= offset)%nat) calls.
Proof.
  revert d Ht. induction steps as [|[chunk n] rest IH]; intros d Ht; simpl; [done |].
  destruct (check_stop n _ _) as [[d1 off] called] eqn:E.
  destruct (tracked_step m n chunk d d1 off called Hm Ht E) as (Ht1 & Htext & Hs & Hmn & Hcalled & Hoff).
  specialize (IH d1 Ht1). destruct (updates rest d1) as [d2 calls]. destruct IH as (Ht2 & Hmap & Hall).
  rewrite Hs, Hmn, Htext in Hmap. rewrite Htext in Hcalled. split; [done |]. rewrite <- Hcalled.
  destruct called; simpl; rewrite ?Htext, Hmap; split; try done. constructor; [by rewrite <- Htext; apply Hoff | done].
Qed.

(** A detokenizer the guard did not arm checks exactly what stock checks,
    from the same offsets. *)
Theorem unarmed_is_stock steps d (Hg : _reasoning_stop_guard d = false) :
  map fst (snd (updates steps d)) = checked_texts (fun _ => true) (stop d) (min_tokens d) (output_text d) steps.
Proof.
  revert d Hg. induction steps as [|[chunk n] rest IH]; intros d Hg; simpl; [done |].
  unfold check_stop. simpl. rewrite Hg. simpl. specialize (IH (set_text (output_text d ++ chunk) d) Hg).
  destruct (updates rest (set_text (output_text d ++ chunk) d)) as [d' calls]. simpl in *.
  rewrite Hg. simpl. rewrite !andb_true_r. destruct (_ && _); simpl; by rewrite IH.
Qed.

(** The guard arms only on a prompt that ends in the reasoning start token, for a
    request with stop strings; it changes nothing else. *)
Lemma arming env rc tok prompt sp mn :
  let d := _maybe_enable_reasoning_stop_guard env rc tok prompt (new_detok sp mn) in
  output_text d = "" /\ stop d = sp /\ min_tokens d = mn /\ _reasoning_closed d = false /\
  (_reasoning_stop_guard d = true <->
     _suppress_stops_enabled env = true /\ sp <> [] /\
     exists z, think_id tok (fst (_reasoning_stop_markers rc)) = Ok (Some z) /\ (0 <= z)%Z /\ last prompt = Some z) /\
  (_reasoning_stop_guard d = true -> _reasoning_end_str d = snd (_reasoning_stop_markers rc)).
Proof.
  cbv zeta. unfold _maybe_enable_reasoning_stop_guard, new_detok. simpl.
  destruct (_suppress_stops_enabled env); simpl; [|split_and!; naive_solver].
  destruct sp as [|s sp]; [split_and!; naive_solver |]. destruct (last prompt) as [lst|]; [|split_and!; naive_solver].
  destruct (_reasoning_stop_markers rc) as [st en]. simpl. destruct (think_id tok st) as [[z|]|]; try (split_and!; naive_solver).
  destruct (Z.leb_spec 0 z), (Z.eqb_spec lst z); simpl; split_and!; naive_solver lia.
Qed.

(** ** Witness *)

Definition armed : detok := Detok "" ["Question:"] 0 true false "</think>".

(** The marker split over two chunks; the stop string before it is not looked
    for. *)
Lemma reasoning_stops_dormant_witness :
  map fst (snd (updates [("Question: a</th", 4); ("ink>b", 5); ("c", 6)] armed)) =
    ["Question: a</think>b"; "Question: a</think>bc"].
Proof.
  assert (tracked "</think>" armed) as Ht by (split; [reflexivity | split; reflexivity]).
  assert ("</think>" <> "") as Hm by discriminate.
  pose proof (reasoning_stops_dormant "</think>" [("Question: a</th", 4); ("ink>b", 5); ("c", 6)] armed Hm Ht) as H.
  destruct (updates [("Question: a</th", 4); ("ink>b", 5); ("c", 6)] armed) as [d' calls].
  exact (proj1 (proj2 H)).
Defined.

Lemma unarmed_is_stock_witness :
  map fst (snd (updates [("Question: a</th", 4); ("ink>b", 5)] (new_detok ["Question:"] 0))) =
    ["Question: a</th"; "Question: a</think>b"].
Proof. exact (unarmed_is_stock [("Question: a</th", 4); ("ink>b", 5)] (new_detok ["Question:"] 0) eq_refl). Defined.
