(* ===== verification/NoStore.v ===== *)
(** * The per-request no-store flag

    Model of the code [overlay/patch_apc_no_store.py] installs: the strict parser
    and the kill switch, the validation in [SamplingParams.__post_init__], the
    resolution in [Request] ([SP_HELPERS], [REQ_METHOD_NEW]), and the two guards
    in the block pool ([BP_FULL_NEW], [BP_PARTIAL_NEW]).  A float, a list or any
    other object is [VObj]. *)
From Stdlib Require Import ZArith Lia.
From stdpp Require Import base list strings gmap.
From S2P Require Import Prelude.

(** ** Parsing *)

(** [_glm53_parse_no_store]. *)
Definition _glm53_parse_no_store (value : pyval) : res bool :=
  match value with
  | VBool b => Ok b
  | VInt z => if (z =? 0)%Z || (z =? 1)%Z then Ok (negb (z =? 0)%Z) else Raise ValueError
  | VStr s => if String.eqb s "0" || String.eqb s "1" then Ok (String.eqb s "1") else Raise ValueError
  | VNone | VObj => Raise ValueError
  end.

(** [_glm53_no_store_env], evaluated when the module is imported. *)
Definition _glm53_no_store_env (env : environ) : res bool :=
  match env !! "GLM53_APC_NO_STORE" with
  | None => Ok true
  | Some raw => if String.eqb raw "0" || String.eqb raw "1" then Ok (String.eqb raw "1") else Raise ValueError
  end.

Definition _GLM53_NO_STORE_KEY : string := "skip_writing_prefix_cache".

(** The fields of [SamplingParams] that are read; [extra_args] is [None] when it
    is null. *)
Record params := Params { skip_writing_prefix_cache : pyval; extra_args : option (gmap string pyval) }.

(** [extra_args[key]] when the mapping is there and has it. *)
Definition extra_flag (p : params) : option pyval := e ← extra_args p; e !! _GLM53_NO_STORE_KEY.

(** [_glm53_validate_no_store_params]: the typed field becomes a bool. *)
Definition _glm53_validate_no_store_params (p : params) : res params :=
  p ← (if decide (skip_writing_prefix_cache p = VNone) then Ok p
       else
         b ← _glm53_parse_no_store (skip_writing_prefix_cache p);
         Ok (Params (VBool b) (extra_args p)));
  match extra_flag p with
  | Some v => _ ← _glm53_parse_no_store v; Ok p
  | None => Ok p
  end.

(** ** Resolution *)

(** The log lines of a resolution. *)
Inductive receipt := Warned | Ignored | Resolved.

Section resolve.
(** [_GLM53_NO_STORE_ENABLED]. *)
Context (enabled : bool).

(** [_glm53_resolve_no_store]: the answer and what was logged. *)
Definition _glm53_resolve_no_store (sampling_params : option params) : bool * list receipt :=
  match sampling_params with
  | None => (false, [])
  | Some p =>
      let raw := if decide (skip_writing_prefix_cache p = VNone) then extra_flag p
                 else Some (skip_writing_prefix_cache p) in
      match raw with
      | None => (false, [])
      | Some v =>
          match _glm53_parse_no_store v with
          | Raise _ => (false, [Warned])
          | Ok false => (false, [])
          | Ok true => if enabled then (true, [Resolved]) else (false, [Ignored])
          end
      end
  end.
End resolve.

(** ** The reference *)

(** What a client may send and what it asks for. *)
Definition well_formed (v : pyval) : bool :=
  bool_decide (v ∈ [VBool true; VBool false; VInt 0; VInt 1; VStr "0"; VStr "1"]).
Definition wants (v : pyval) : bool := bool_decide (v ∈ [VBool true; VInt 1; VStr "1"]).

(** A request is well-formed when both routes are; the typed field wins. *)
Definition params_ok (p : params) : bool :=
  (bool_decide (skip_writing_prefix_cache p = VNone) || well_formed (skip_writing_prefix_cache p))
  && match extra_flag p with Some v => well_formed v | None => true end.
Definition asked (p : params) : bool :=
  if decide (skip_writing_prefix_cache p = VNone) then match extra_flag p with Some v => wants v | None => false end
  else wants (skip_writing_prefix_cache p).

Lemma parse_spec v :
  _glm53_parse_no_store v = if well_formed v then Ok (wants v) else Raise ValueError.
Proof.
  destruct v as [|b|z|s|]; [by vm_compute | by destruct b; vm_compute | | | by vm_compute]; simpl.
  - destruct (Z.eqb_spec z 0) as [->|H0]; [by vm_compute |]. destruct (Z.eqb_spec z 1) as [->|H1]; [by vm_compute |].
    unfold well_formed. simpl. rewrite bool_decide_false; [done |]. rewrite !elem_of_cons, elem_of_nil. naive_solver.
  - destruct (String.eqb_spec s "0") as [->|H0]; [by vm_compute |]. destruct (String.eqb_spec s "1") as [->|H1]; [by vm_compute |].
    unfold well_formed. simpl. rewrite bool_decide_false; [done |]. rewrite !elem_of_cons, elem_of_nil. naive_solver.
Qed.

(** The flag means the same at both ends.  Validation at the API accepts
    exactly the well-formed requests, whatever the kill switch says, and raises
    [ValueError] on the others; a request it has normalised resolves in the
    engine without a warning, to true exactly when the client asked for it and
    the switch is on, with one receipt exactly when it asked. *)
Theorem validated_flag_is_honoured enabled p :
  match _glm53_validate_no_store_params p with
  | Ok p' => params_ok p = true /\
      _glm53_resolve_no_store enabled (Some p') =
        (asked p && enabled, if asked p then [if enabled then Resolved else Ignored] else [])
  | Raise e => e = ValueError /\ params_ok p = false
  end.
Proof.
  destruct p as [typed extra]. assert (forall t, extra_flag (Params t extra) = extra_flag (Params VNone extra)) as Hx by done.
  unfold _glm53_validate_no_store_params, params_ok, asked, _glm53_resolve_no_store. simpl.
  destruct (decide (typed = VNone)) as [->|Ht]; simpl.
  - destruct (extra_flag (Params VNone extra)) as [v|] eqn:Ee; simpl; [|by rewrite Ee].
    rewrite parse_spec. destruct (well_formed v) eqn:Hv; simpl; [|done]. split; [done |].
    rewrite Ee, parse_spec, Hv. by destruct (wants v), enabled.
  - rewrite (bool_decide_false (typed = VNone)) by done. rewrite !Hx. simpl. rewrite parse_spec.
    destruct (well_formed typed); simpl; [|done]. rewrite !Hx.
    destruct (extra_flag (Params VNone extra)) as [v|]; simpl; [|by destruct (wants typed), enabled].
    rewrite parse_spec. destruct (well_formed v); simpl; [|done]. by destruct (wants typed), enabled.
Qed.

(** ** The block pool *)

Section pool.
Context {pool : Type}.
(** The rest of [cache_full_blocks] and [cache_partial_block], which insert
    hashes. *)
Context (insert_full : pool -> pool) (insert_partial : pool -> pool * option Z).

(** [cache_full_blocks] with the guard after its early return. *)
Definition cache_full_blocks (no_store : bool) (num_cached_blocks num_full_blocks : Z) (p : pool) : pool :=
  if (num_full_blocks <=? num_cached_blocks)%Z then p else if no_store then p else insert_full p.

(** [cache_partial_block]: the entry's hash, or none. *)
Definition cache_partial_block (no_store is_null : bool) (p : pool) : pool * option Z :=
  if is_null then (p, None) else if no_store then (p, None) else insert_partial p.
End pool.
