(* ===== verification/MambaRetire.v ===== *)
(** * Retiring Mamba states across null gaps

    Model of the code [overlay/patch_mamba_null_gap_retirement.py] installs in
    [MambaManager]: the counter ([INIT_NEW]), the override of
    [_remove_blocks_in_range] ([REMOVE_OVERRIDE]) and its cleanup ([FREE_NEW]).
    A null block is [None]; the list of a request is updated in place, as the
    code does through the dictionary. *)
From Stdlib Require Import ZArith Lia.
From stdpp Require Import base list strings gmap.
From S2P Require Import Prelude.

Record manager := Manager {
  mamba_cache_mode : string;
  req_to_blocks : gmap string (list (option Z));
  _num_retired_blocks : gmap string Z
}.

(** The loop [for i in range(first + k - 1, first - 1, -1)]: the blocks after it
    and what was collected in [freed]. *)
Fixpoint retire_range (k first : nat) (blocks : list (option Z)) : list (option Z) * list Z :=
  match k with
  | O => (blocks, [])
  | S k' =>
      let i := (first + k')%nat in
      match blocks !! i with
      | Some (Some b) =>
          let '(blocks, freed) := retire_range k' first (<[i := None]> blocks) in (blocks, b :: freed)
      | _ => retire_range k' first blocks
      end
  end.

(** [_remove_blocks_in_range]: the manager and the argument of [free_blocks].
    [super_remove] is the stock method. *)
Definition _remove_blocks_in_range (super_remove : manager -> string -> Z -> Z -> manager * list Z)
    (s : manager) (request_id : string) (first_block last_block : Z) : manager * list Z :=
  if negb (String.eqb (mamba_cache_mode s) "align") then super_remove s request_id first_block last_block
  else
    let blocks := default [] (req_to_blocks s !! request_id) in
    let first_block := Z.max first_block (default 0%Z (_num_retired_blocks s !! request_id)) in
    let last_block := Z.min last_block (Z.of_nat (length blocks)) in
    if (last_block <=? first_block)%Z then (s, [])
    else
      let '(blocks, freed) := retire_range (Z.to_nat (last_block - first_block)) (Z.to_nat first_block) blocks in
      (Manager (mamba_cache_mode s) (<[request_id := blocks]> (req_to_blocks s))
         (<[request_id := last_block]> (_num_retired_blocks s)), freed).

(** The patched line of [free]. *)
Definition free_retired (s : manager) (request_id : string) : manager :=
  Manager (mamba_cache_mode s) (req_to_blocks s) (delete request_id (_num_retired_blocks s)).

(** What vLLM does in between: append blocks, null ones included. *)
Definition append_blocks (s : manager) (request_id : string) (new : list (option Z)) : manager :=
  Manager (mamba_cache_mode s)
    (<[request_id := default [] (req_to_blocks s !! request_id) ++ new]> (req_to_blocks s)) (_num_retired_blocks s).

(** ** Runs *)

Inductive event := Append (r : string) (new : list (option Z)) | Remove (r : string) (first last : Z).

Section runs.
Context (super_remove : manager -> string -> Z -> Z -> manager * list Z).

(** The manager after the events, and the frees, each with its request. *)
Fixpoint run (events : list event) (s : manager) : manager * list (string * list Z) :=
  match events with
  | [] => (s, [])
  | Append r new :: rest => run rest (append_blocks s r new)
  | Remove r first last :: rest =>
      let '(s, freed) := _remove_blocks_in_range super_remove s r first last in
      let '(s, log) := run rest s in (s, (r, freed) :: log)
  end.

(** Every range starts no later than where the request's last one ended. *)
Fixpoint contiguous (events : list event) (s : manager) : Prop :=
  match events with
  | [] => True
  | Append r new :: rest => contiguous rest (append_blocks s r new)
  | Remove r first last :: rest =>
      (first <= default 0%Z (_num_retired_blocks s !! r))%Z /\
      contiguous rest (fst (_remove_blocks_in_range super_remove s r first last))
  end.
End runs.

Definition blocks_of (s : manager) (r : string) : list (option Z) := default [] (req_to_blocks s !! r).
Definition retired_of (s : manager) (r : string) : Z := default 0%Z (_num_retired_blocks s !! r).

(** The block ids a request holds, was given and gave back. *)
Definition held (s : manager) (r : string) : list Z := omap id (blocks_of s r).
Definition given (r : string) (events : list event) : list Z :=
  concat (map (fun e => match e with Append r' new => if String.eqb r' r then omap id new else [] | _ => [] end) events).
Definition returned (r : string) (log : list (string * list Z)) : list Z :=
  concat (map (fun p => if String.eqb (fst p) r then snd p else []) log).

(** ** One range *)

Lemma retire_range_spec k first blocks : (first + k <= length blocks)%nat ->
  let '(blocks', freed) := retire_range k first blocks in
  length blocks' = length blocks /\ freed ++ omap id blocks' ≡ₚ omap id blocks /\
  (forall i, (first <= i < first + k)%nat -> blocks' !! i = Some None) /\
  (forall i, ~ (first <= i < first + k)%nat -> blocks' !! i = blocks !! i).
Proof.
  revert blocks. induction k as [|k IH]; intros blocks Hl; simpl; [split_and!; try done; lia |].
  destruct (lookup_lt_is_Some_2 blocks (first + k)) as [o Ho]; [lia |]. rewrite Ho. destruct o as [b|].
  - specialize (IH (<[(first + k)%nat := None]> blocks)). rewrite length_insert in IH. specialize (IH ltac:(lia)).
    destruct (retire_range k first _) as [bs fr]. destruct IH as (H1 & H2 & H3 & H4). split_and!; [done | | |].
    + simpl. rewrite H2. rewrite <- (take_drop_middle blocks _ _ Ho) at 2.
      rewrite insert_take_drop by lia. rewrite !omap_app. simpl. by rewrite Permutation_middle.
    + intros i Hi. destruct (decide (i = first + k)%nat) as [->|Hne]; [|apply H3; lia].
      rewrite H4 by lia. apply list_lookup_insert_eq. lia.
    + intros i Hi. rewrite H4 by lia. apply list_lookup_insert_ne. lia.
  - specialize (IH blocks ltac:(lia)). destruct (retire_range k first blocks) as [bs fr].
    destruct IH as (H1 & H2 & H3 & H4). split_and!; [done | done | |].
    + intros i Hi. destruct (decide (i = first + k)%nat) as [->|Hne]; [by rewrite H4 by lia | apply H3; lia].
    + intros i Hi. apply H4. lia.
Qed.

(** The counter never passes the end of the list. *)
Definition counted (s : manager) : Prop :=
  mamba_cache_mode s = "align" /\ forall r, (0 <= retired_of s r <= Z.of_nat (length (blocks_of s r)))%Z.

(** The retired prefix holds no block. *)
Definition prefix_null (s : manager) (r : string) : Prop :=
  forall i, (Z.of_nat i < retired_of s r)%Z -> blocks_of s r !! i = Some None.

Lemma remove_spec sup s r f l : counted s ->
  let '(s', freed) := _remove_blocks_in_range sup s r f l in
  counted s' /\ freed ++ held s' r ≡ₚ held s r /\
  (forall r', r' <> r -> blocks_of s' r' = blocks_of s r' /\ retired_of s' r' = retired_of s r') /\
  ((f <= retired_of s r)%Z -> prefix_null s r -> prefix_null s' r /\
     (Z.min l (Z.of_nat (length (blocks_of s r))) <= retired_of s' r)%Z).
Proof.
  intros [Hm Hc]. unfold _remove_blocks_in_range. rewrite Hm. simpl negb. cbv iota. cbv zeta.
  fold (blocks_of s r). fold (retired_of s r). pose proof (Hc r) as Hr.
  destruct (Z.leb_spec (Z.min l (Z.of_nat (length (blocks_of s r)))) (Z.max f (retired_of s r))) as [Hle|Hlt].
  - split_and!; [done | done | done |]. intros Hf Hn. split; [done | lia].
  - set (lo := Z.max f (retired_of s r)) in *. set (hi := Z.min l (Z.of_nat (length (blocks_of s r)))) in *.
    pose proof (retire_range_spec (Z.to_nat (hi - lo)) (Z.to_nat lo) (blocks_of s r) ltac:(lia)) as H.
    destruct (retire_range _ _ _) as [bs fr]. destruct H as (H1 & H2 & H3 & H4).
    assert (forall m, blocks_of (Manager m (<[r := bs]> (req_to_blocks s)) (<[r := hi]> (_num_retired_blocks s))) r = bs
      /\ retired_of (Manager m (<[r := bs]> (req_to_blocks s)) (<[r := hi]> (_num_retired_blocks s))) r = hi) as Hsame.
    { intros m. unfold blocks_of, retired_of. simpl. by rewrite !lookup_insert_eq. }
    assert (forall m r', r' <> r ->
      blocks_of (Manager m (<[r := bs]> (req_to_blocks s)) (<[r := hi]> (_num_retired_blocks s))) r' = blocks_of s r' /\
      retired_of (Manager m (<[r := bs]> (req_to_blocks s)) (<[r := hi]> (_num_retired_blocks s))) r' = retired_of s r') as Hother.
    { intros m r' Hne. unfold blocks_of, retired_of. simpl. by rewrite !lookup_insert_ne by done. }
    destruct (Hsame "align") as [Hb Hq]. split_and!.
    + split; [done |]. intros r'. destruct (decide (r' = r)) as [->|Hne]; [rewrite Hb, Hq; lia |].
      destruct (Hother "align" r' Hne) as [-> ->]. apply Hc.
    + unfold held. by rewrite Hb.
    + intros r' Hne. by apply Hother.
    + intros Hf Hn. rewrite Hq. split; [|lia]. intros i Hi. rewrite Hq in Hi. rewrite Hb.
      destruct (decide (Z.to_nat lo <= i)%nat) as [Hge|Hlt']; [apply H3; lia |]. rewrite H4 by lia. apply Hn. lia.
Qed.

Lemma append_spec s r new : counted s ->
  counted (append_blocks s r new) /\ blocks_of (append_blocks s r new) r = blocks_of s r ++ new /\
  (forall r', r' <> r -> blocks_of (append_blocks s r new) r' = blocks_of s r') /\
  (forall r', retired_of (append_blocks s r new) r' = retired_of s r').
Proof.
  intros [Hm Hc]. unfold append_blocks. unfold blocks_of, retired_of. simpl. split_and!.
  - split; [done |]. intros r'. specialize (Hc r'). unfold blocks_of, retired_of in *. simpl.
    destruct (decide (r' = r)) as [->|Hne]; [rewrite lookup_insert_eq; simpl; rewrite length_app; lia |].
    by rewrite lookup_insert_ne.
  - by rewrite lookup_insert_eq.
  - intros r' Hne. by rewrite lookup_insert_ne.
  - done.
Qed.

Lemma append_prefix_null s r new r' : counted s -> prefix_null s r' -> prefix_null (append_blocks s r new) r'.
Proof.
  intros Hc Hn i Hi. destruct (append_spec s r new Hc) as (_ & Hb & Ho & Hr). rewrite Hr in Hi. specialize (Hn i Hi).
  destruct (decide (r' = r)) as [->|Hne]; [|by rewrite Ho]. rewrite Hb. by apply lookup_app_l_Some.
Qed.

(** ** Runs *)

Lemma run_conserves sup events s r : counted s ->
  let '(s', log) := run sup events s in
  counted s' /\ returned r log ++ held s' r ≡ₚ held s r ++ given r events /\
  ((forall r', prefix_null s r') -> contiguous sup events s -> forall r', prefix_null s' r').
Proof.
  revert s. induction events as [|[r1 new|r1 f l] rest IH]; intros s Hc; simpl.
  - split_and!; [done | unfold given, returned; simpl; by rewrite app_nil_r | done].
  - destruct (append_spec s r1 new Hc) as (Hc' & Hb & Ho & Hr). specialize (IH _ Hc').
    destruct (run sup rest (append_blocks s r1 new)) as [s' log]. destruct IH as (IH0 & IH1 & IH2). split_and!; [done | |].
    + rewrite IH1. unfold given. simpl. unfold held. destruct (String.eqb_spec r1 r) as [->|Hne].
      * by rewrite Hb, omap_app, <- app_assoc.
      * by rewrite Ho by congruence.
    + intros Hn Hcon. apply IH2; [|done]. intros r'. by apply append_prefix_null.
  - pose proof (remove_spec sup s r1 f l Hc) as Hrem.
    destruct (_remove_blocks_in_range sup s r1 f l) as [s1 fr]. destruct Hrem as (Hc1 & Hp & Ho & Hn1).
    specialize (IH s1 Hc1). destruct (run sup rest s1) as [s' log]. destruct IH as (IH0 & IH1 & IH2). split_and!; [done | |].
    + unfold returned. simpl. fold (returned r log). change (given r (Remove r1 f l :: rest)) with (given r rest).
      destruct (String.eqb_spec r1 r) as [->|Hne].
      * rewrite <- app_assoc, IH1, app_assoc. by rewrite Hp.
      * simpl. rewrite IH1. unfold held. destruct (Ho r ltac:(congruence)) as [-> _]. done.
    + intros Hn [Hf Hcon]. apply IH2; [|done]. intros r'. destruct (decide (r' = r1)) as [->|Hne]; [by apply Hn1 |].
      intros i. destruct (Ho r' Hne) as [-> ->]. apply Hn.
Qed.

(** C30. Retirement neither leaks nor frees twice.  Whatever blocks the requests
    are given, null gaps included, and whatever ranges are removed in whatever
    order, the ids a request still holds and the ids freed on its account are
    together the ids it was given; and while its ranges are contiguous a removal
    leaves no block referenced below its end, gaps or not. *)
Theorem retirement_conserves_blocks sup events r :
  let '(s, log) := run sup events (Manager "align" ∅ ∅) in
  returned r log ++ held s r ≡ₚ given r events /\
  (contiguous sup events (Manager "align" ∅ ∅) -> forall first last, (first <= retired_of s r)%Z ->
     forall i, (i < length (blocks_of s r))%nat -> (Z.of_nat i < last)%Z ->
       blocks_of (fst (_remove_blocks_in_range sup s r first last)) r !! i = Some None).
Proof.
  assert (counted (Manager "align" ∅ ∅)) as Hc.
  { split; [done |]. intros r'. unfold retired_of, blocks_of. simpl. rewrite !lookup_empty. simpl. lia. }
  pose proof (run_conserves sup events _ r Hc) as H. destruct (run sup events _) as [s log]. destruct H as (Hs & H1 & H2).
  split.
  - rewrite H1. unfold held, blocks_of. simpl. by rewrite lookup_empty.
  - intros Hcon f l Hf i Hi Hl. pose proof (remove_spec sup s r f l Hs) as H.
    destruct (_remove_blocks_in_range sup s r f l) as [s' fr]. simpl. destruct H as (_ & _ & _ & Hn).
    destruct (Hn Hf) as [Hp Hr]; [|apply Hp; lia]. apply H2; [|done].
    intros r' j. unfold retired_of. simpl. rewrite lookup_empty. simpl. lia.
Qed.

(** After a free the id starts over: the next range of a reused request id is
    not cut by the count of its previous life. *)
Lemma free_restarts s r : retired_of (free_retired s r) r = 0%Z.
Proof. unfold retired_of, free_retired. simpl. by rewrite lookup_delete_eq. Qed.
