(* ===== verification/KpoolTail.v ===== *)
(** * The kpool tail: slot mapping and seed addressing

    Model of the address arithmetic of [overlay/patch_kpool_tail_slotmap.py]
    (its host functions [count_overruns] and [circular_slot_ids]) and of
    [overlay/patch_kpool_tail_correctness.py]: one lane of the V2 slot-mapping
    kernel before and after [BLOCKTABLE_PATCHED], and the seed kernel's
    addresses before and after [KPOOL_BODY_PATCHED].  Kernel addresses are
    mathematical integers. *)
From Stdlib Require Import ZArith Lia.
From stdpp Require Import base list.
From S2P Require Import Prelude.
#[local] Open Scope Z_scope.

(** ** The host functions *)

(** [count_overruns]. *)
Definition count_overruns (positions : list Z) (block_size stride : Z) : res Z :=
  if (block_size <? 1) || (stride <? 1) then Raise ValueError
  else Ok (Zsum (map (fun pos => if stride <=? pos / block_size then 1 else 0) positions)).

(** [l[i]], a negative index counting from the end. *)
Definition py_index (l : list Z) (i : Z) : res Z :=
  let j := if i <? 0 then i + Z.of_nat (length l) else i in
  if j <? 0 then Raise IndexError else match l !! Z.to_nat j with Some x => Ok x | None => Raise IndexError end.

(** One round of the loop of [circular_slot_ids]. *)
Definition slot_id (block_table_row : list Z) (block_size : Z) (clamp : bool) (pos : Z) : res Z :=
  let stride := Z.of_nat (length block_table_row) in
  let idx := pos / block_size in
  idx ← (if clamp then Ok (Z.min idx (stride - 1))
         else if (idx <? 0) || (stride <=? idx) then Raise IndexError else Ok idx);
  entry ← py_index block_table_row idx;
  Ok (entry * block_size + pos mod block_size).

(** [circular_slot_ids]. *)
Definition circular_slot_ids (positions block_table_row : list Z) (block_size : Z) (clamp : bool) : res (list Z) :=
  match block_table_row with
  | [] => Raise ValueError
  | _ => mapM (slot_id block_table_row block_size clamp) positions
  end.

(** ** The V2 slot-mapping kernel *)

Record geometry := Geometry {
  block_size : Z; CP_SIZE : Z; CP_INTERLEAVE : Z; cp_rank : Z; block_table_stride : Z; PAD_ID : Z
}.

Definition block_indices (g : geometry) (pos : Z) : Z := pos / (block_size g * CP_SIZE g).
Definition address (g : geometry) (req pos : Z) : Z := req * block_table_stride g + block_indices g pos.
Definition in_range (g : geometry) (pos : Z) : bool := block_indices g pos <? block_table_stride g.

(** The masked load, [None] when the lane is off, and the stock one. *)
Definition loaded (g : geometry) (req pos : Z) : option Z := if in_range g pos then Some (address g req pos) else None.
Definition loaded_old (g : geometry) (req pos : Z) : option Z := Some (address g req pos).

(** The slot of a lane from its block number; [ok] is the extra condition of the
    patched kernel. *)
Definition slot_of (g : geometry) (ok : bool) (block_number pos : Z) : Z :=
  let block_offsets := pos mod (block_size g * CP_SIZE g) in
  if CP_SIZE g =? 1 then
    let slot_ids := block_number * block_size g + block_offsets in
    if ok then slot_ids else PAD_ID g
  else
    let is_local := block_offsets / CP_INTERLEAVE g mod CP_SIZE g =? cp_rank g in
    let rounds := block_offsets / (CP_INTERLEAVE g * CP_SIZE g) in
    let remainder := block_offsets mod CP_INTERLEAVE g in
    let local_offsets := rounds * CP_INTERLEAVE g + remainder in
    let slot_ids := block_number * block_size g + local_offsets in
    if is_local && ok then slot_ids else PAD_ID g.

(** One lane over the block-table memory. *)
Definition slot (g : geometry) (memory : Z -> Z) (req pos : Z) : Z :=
  slot_of g (in_range g pos) (match loaded g req pos with Some a => memory a | None => 0 end) pos.
Definition slot_old (g : geometry) (memory : Z -> Z) (req pos : Z) : Z :=
  slot_of g true (memory (address g req pos)) pos.

(** ** The seed kernel *)

(** Where the seed kernel writes element [d] of the key, or of the score. *)
Definition seed (TAIL_BLOCK_ELEMS KPOOL_HEAD HEAD_DIM KPOOL : Z) (score : bool) (blk t d : Z) : Z :=
  blk * TAIL_BLOCK_ELEMS + t mod KPOOL * HEAD_DIM + (if score then KPOOL_HEAD else 0) + d.
Definition seed_old (HEAD_DIM KPOOL : Z) (score : bool) (blk t d : Z) : Z :=
  (blk * 2 * KPOOL + t mod KPOOL) * HEAD_DIM + (if score then KPOOL * HEAD_DIM else 0) + d.

(** ** The clamp *)

Lemma slot_id_clamped row bs pos : row <> [] -> 1 <= bs -> 0 <= pos ->
  exists entry, row !! Z.to_nat (Z.min (pos / bs) (Z.of_nat (length row) - 1)) = Some entry /\
    slot_id row bs true pos = Ok (entry * bs + pos mod bs).
Proof.
  intros Hr Hb Hp. assert (0 < length row)%nat by (destruct row; [done | simpl; lia]).
  assert (0 <= pos / bs) by (apply Z.div_pos; lia). set (i := Z.min _ _) in *.
  destruct (lookup_lt_is_Some_2 row (Z.to_nat i)) as [e He]; [lia |]. exists e. split; [done |].
  unfold slot_id, py_index. simpl. fold i. destruct (Z.ltb_spec i 0); [lia |]. simpl.
  destruct (Z.ltb_spec i 0); [lia |]. by rewrite He.
Qed.

Lemma slot_id_unclamped row bs pos : row <> [] -> 1 <= bs -> 0 <= pos ->
  slot_id row bs false pos = if Z.of_nat (length row) <=? pos / bs then Raise IndexError else slot_id row bs true pos.
Proof.
  intros Hr Hb Hp. assert (0 <= pos / bs) by (apply Z.div_pos; lia). unfold slot_id.
  destruct (Z.ltb_spec (pos / bs) 0); [lia |]. simpl. destruct (Z.leb_spec (Z.of_nat (length row)) (pos / bs)); [done |].
  simpl. by rewrite Z.min_l by lia.
Qed.

Lemma overruns_nonneg (P : Z -> bool) l : 0 <= Zsum (map (fun x => if P x then 1 else 0) l).
Proof. induction l as [|y l IH]; [done |]. unfold Zsum in *. simpl. destruct (P y); lia. Qed.

(** The clamp is a bounds guard.  On non-negative positions the clamped
    mapping always answers, the unclamped one raises [IndexError] exactly when
    [count_overruns] counts something, and where nothing overruns the two
    agree; but a position that overruns is sent to the last entry of the row,
    which is the request's own block only when the row has one entry. *)
Theorem clamp_is_a_guard positions row bs (Hr : row <> []) (Hb : 1 <= bs) (Hp : Forall (fun pos => 0 <= pos) positions) :
  exists ids k, circular_slot_ids positions row bs true = Ok ids /\ length ids = length positions /\
    count_overruns positions bs (Z.of_nat (length row)) = Ok k /\
    circular_slot_ids positions row bs false = (if k =? 0 then Ok ids else Raise IndexError) /\
    (length row = 1%nat -> ids = map (fun pos => default 0 (head row) * bs + pos mod bs) positions).
Proof.
  assert (circular_slot_ids positions row bs true = mapM (slot_id row bs true) positions) as -> by (by destruct row).
  assert (circular_slot_ids positions row bs false = mapM (slot_id row bs false) positions) as -> by (by destruct row).
  assert (0 < length row)%nat by (destruct row; [done | simpl; lia]).
  unfold count_overruns. destruct (Z.ltb_spec bs 1); [lia |]. destruct (Z.ltb_spec (Z.of_nat (length row)) 1); [lia |]. simpl.
  induction Hp as [|pos positions Hpos Hps IH]; [exists [], 0; by split_and! |].
  destruct IH as (ids & k & Hc & Hlen & [= Hk] & Hu & Hone). destruct (slot_id_clamped row bs pos Hr Hb Hpos) as (e & He & Hs).
  exists ((e * bs + pos mod bs) :: ids), ((if Z.of_nat (length row) <=? pos / bs then 1 else 0) + k).
  assert (0 <= k) as Hk0 by (rewrite <- Hk; apply overruns_nonneg).
  simpl. rewrite Hs, Hc. simpl. split_and!; [done | lia | f_equal; unfold Zsum in *; simpl; lia | |].
  - rewrite (slot_id_unclamped row bs pos Hr Hb Hpos), Hs. destruct (Z.of_nat (length row) <=? pos / bs); simpl.
    + destruct (Z.eqb_spec (1 + k) 0); [lia | done].
    + rewrite Hu. rewrite Z.add_0_l. by destruct (k =? 0).
  - intros H1r. rewrite Hone by done. destruct row as [|e0 [|]]; [done | | done]. simpl in He.
    assert (0 <= pos / bs) by (apply Z.div_pos; lia). rewrite Z.min_r in He by lia. injection He as <-. done.
Qed.

(** ** The patched kernels *)

(** A usable geometry. *)
Definition usable (g : geometry) : Prop := 0 < block_size g /\ 0 < CP_SIZE g /\ 0 < block_table_stride g.

(** Every load of the patched slot-mapping kernel is inside the row of its
    own request.  A lane whose position the row spans computes the stock slot; a
    lane past the row loads nothing and writes the padding id, where the stock
    kernel reads the row of a later request. *)
Theorem slot_mapping_stays_in_row g memory req pos (Hg : usable g) (Hp : 0 <= pos) :
  match loaded g req pos with
  | Some a => req * block_table_stride g <= a < (req + 1) * block_table_stride g /\
      slot g memory req pos = slot_old g memory req pos
  | None => slot g memory req pos = PAD_ID g /\
      exists a, loaded_old g req pos = Some a /\ (req + 1) * block_table_stride g <= a
  end.
Proof.
  destruct Hg as (Hb & Hc & Hs). unfold loaded, slot, slot_old, loaded, loaded_old, in_range, address.
  assert (0 <= block_indices g pos) by (unfold block_indices; apply Z.div_pos; nia).
  destruct (Z.ltb_spec (block_indices g pos) (block_table_stride g)).
  - split; [nia | done].
  - split; [|eexists; split; [done | nia]]. unfold slot_of. destruct (CP_SIZE g =? 1); [done |]. by rewrite andb_false_r.
Qed.

(** A tail tensor as the patched host function asserts it: rows of [HEAD_DIM]
    within a half, two halves within a block. *)
Definition tail_layout (TAIL_BLOCK_ELEMS KPOOL_HEAD HEAD_DIM KPOOL : Z) : Prop :=
  0 < HEAD_DIM /\ 0 < KPOOL /\ KPOOL * HEAD_DIM <= KPOOL_HEAD /\ KPOOL_HEAD + KPOOL * HEAD_DIM <= TAIL_BLOCK_ELEMS.

Lemma seed_offset HD K t d : 0 < HD -> 0 < K -> 0 <= d < HD -> 0 <= t mod K * HD + d < K * HD.
Proof. intros Hh Hk Hd. pose proof (Z.mod_pos_bound t K Hk). nia. Qed.

(** Two digits in a mixed radix are unique. *)
Lemma radix_inj b q1 r1 q2 r2 : 0 <= r1 < b -> 0 <= r2 < b -> q1 * b + r1 = q2 * b + r2 -> q1 = q2 /\ r1 = r2.
Proof. intros H1 H2 H. assert (q1 = q2) by nia. subst. lia. Qed.

(** The patched seed kernel writes inside the tail block it was given and
    never to one address twice: block, half, row and element are recovered from
    the address.  On a padded tail, twice the dense block or more, the stock
    kernel writes every block but the first one into another block; on a dense
    tail the two agree. *)
Theorem seed_addresses TBE KH HD K score blk t d (Hl : tail_layout TBE KH HD K) (Hd : 0 <= d < HD) :
  blk * TBE <= seed TBE KH HD K score blk t d < (blk + 1) * TBE /\
  (forall score' blk' t' d', 0 <= d' < HD -> seed TBE KH HD K score blk t d = seed TBE KH HD K score' blk' t' d' ->
     blk = blk' /\ score = score' /\ t mod K = t' mod K /\ d = d') /\
  (4 * (K * HD) <= TBE -> 1 <= blk -> seed_old HD K score blk t d < blk * TBE) /\
  (KH = K * HD -> TBE = 2 * (K * HD) -> seed_old HD K score blk t d = seed TBE KH HD K score blk t d).
Proof.
  destruct Hl as (Hh & Hk & H1 & H2). pose proof (seed_offset HD K t d Hh Hk Hd) as Ho.
  set (half (b : bool) := if b then KH else 0).
  assert (forall b o, 0 <= o < K * HD -> 0 <= half b + o < TBE) as Hb by (intros [] o ?; unfold half; lia).
  split; [| split; [| split]].
  - unfold seed. fold (half score). specialize (Hb score _ Ho). lia.
  - intros score' blk' t' d' Hd' He. pose proof (seed_offset HD K t' d' Hh Hk Hd') as Ho'.
    unfold seed in He. fold (half score) in He. fold (half score') in He.
    destruct (radix_inj TBE blk (half score + (t mod K * HD + d)) blk' (half score' + (t' mod K * HD + d'))) as [-> He'];
      [by apply Hb | by apply Hb | lia |].
    assert (score = score' /\ t mod K * HD + d = t' mod K * HD + d') as [-> He''].
    { unfold half in He'. destruct score, score'; split; try done; lia. }
    destruct (radix_inj HD (t mod K) d (t' mod K) d' Hd Hd' He'') as [-> ->]. done.
  - intros Hpad Hblk. unfold seed_old. destruct score; nia.
  - intros -> ->. unfold seed_old, seed. destruct score; ring.
Qed.

(** ** Witnesses *)

Lemma clamp_is_a_guard_witness :
  circular_slot_ids [3; 6; 9] [7; 5] 4 true = Ok [31; 22; 21] /\
  exists k, count_overruns [3; 6; 9] 4 2 = Ok k.
Proof.
  assert (Forall (fun pos => 0 <= pos) [3; 6; 9]) as Hp by (repeat (constructor; [lia |]); constructor).
  split; [vm_compute; reflexivity |].
  destruct (clamp_is_a_guard [3; 6; 9] [7; 5] 4 ltac:(discriminate) ltac:(lia) Hp) as (ids & k & _ & _ & Hk & _).
  exists k. exact Hk.
Defined.

(** The tail group of the production image: blocks of 4, rows of 32. *)
Definition tail_group : geometry := Geometry 4 1 1 0 32 (-1).

Lemma slot_mapping_stays_in_row_witness :
  slot tail_group (fun a => a) 3 128 = -1 /\ exists a, loaded_old tail_group 3 128 = Some a /\ 4 * 32 <= a.
Proof.
  assert (usable tail_group) as Hg by (split; [| split]; reflexivity).
  exact (slot_mapping_stays_in_row tail_group (fun a => a) 3 128 Hg ltac:(lia)).
Defined.

(** GLM-5.3-Flash: head dimension 128, pool of 4, a block of 38016 bytes. *)
Lemma seed_addresses_witness :
  seed_old 128 4 true 5 6 1 < 5 * 19008 /\ 5 * 19008 <= seed 19008 512 128 4 true 5 6 1 < 6 * 19008.
Proof.
  assert (tail_layout 19008 512 128 4) as Hl by (split; [| split; [| split]]; lia).
  assert (0 <= 1 < 128) as Hd by lia.
  pose proof (seed_addresses 19008 512 128 4 true 5 6 1 Hl Hd) as H.
  split; [exact (proj1 (proj2 (proj2 H)) ltac:(lia) ltac:(lia)) | exact (proj1 H)].
Defined.
