(* ===== verification/Segments.v ===== *)
(** * Spans, prefix sums and grouping

    Facts about lists cut into consecutive spans, for code that sorts rows by a
    key and addresses each group through prefix sums: where a span starts, which
    span an index lies in, tiling a span, and what a sort by key leaves. *)
From Stdlib Require Import Lia.
From stdpp Require Import base list sorting.
Open Scope nat_scope.

(** ** Sums and offsets *)

Fixpoint sum (l : list nat) : nat := match l with [] => 0 | x :: l => x + sum l end.

(** Where span [e] starts when span [i] has [c i] elements. *)
Definition offset (c : nat -> nat) (e : nat) : nat := sum (map c (seq 0 e)).

(** The concatenation of the first [n] groups. *)
Definition groups {A} (g : nat -> list A) (n : nat) : list A := concat (map g (seq 0 n)).

Lemma sum_app l k : sum (l ++ k) = sum l + sum k.
Proof. induction l; simpl; lia. Qed.

Lemma sum_Permutation l k : l ≡ₚ k -> sum l = sum k.
Proof. induction 1; simpl; lia. Qed.

Lemma offset_S c e : offset c (S e) = offset c e + c e.
Proof. unfold offset. rewrite seq_S, map_app, sum_app. simpl. lia. Qed.

Lemma offset_mono c e e' : e <= e' -> offset c e <= offset c e'.
Proof. induction 1; [done |]. rewrite offset_S. lia. Qed.

Lemma offset_next c e e' : e < e' -> offset c e + c e <= offset c e'.
Proof. intros. rewrite <- offset_S. by apply offset_mono. Qed.

Lemma offset_ext c d e : (forall i, i < e -> c i = d i) -> offset c e = offset d e.
Proof.
  induction e as [|e IH]; intros Hc; [done |]. rewrite !offset_S, IH by (intros; apply Hc; lia).
  by rewrite (Hc e) by lia.
Qed.

Lemma offset_le c d e : (forall i, i < e -> c i <= d i) -> offset c e <= offset d e.
Proof.
  induction e as [|e IH]; intros Hc; [done |]. rewrite !offset_S. pose proof (Hc e ltac:(lia)).
  specialize (IH ltac:(intros; apply Hc; lia)). lia.
Qed.

Lemma groups_S {A} (g : nat -> list A) n : groups g (S n) = groups g n ++ g n.
Proof. unfold groups. rewrite seq_S, map_app, concat_app. simpl. by rewrite app_nil_r. Qed.

Lemma groups_ext {A} (g h : nat -> list A) n : (forall e, e < n -> g e = h e) -> groups g n = groups h n.
Proof.
  induction n as [|n IH]; intros Hg; [done |]. rewrite !groups_S, IH by (intros; apply Hg; lia).
  by rewrite Hg by lia.
Qed.

Lemma groups_map {A B} (f : A -> B) g n : map f (groups g n) = groups (fun e => map f (g e)) n.
Proof. induction n as [|n IH]; [done |]. by rewrite !groups_S, map_app, IH. Qed.

Lemma groups_length {A} (g : nat -> list A) n : length (groups g n) = offset (fun e => length (g e)) n.
Proof. induction n as [|n IH]; [done |]. by rewrite groups_S, offset_S, length_app, IH. Qed.

Lemma groups_nil {A} n : groups (fun _ => @nil A) n = [].
Proof. induction n as [|n IH]; [done |]. by rewrite groups_S, IH. Qed.

Lemma groups_Permutation {A} (g h : nat -> list A) n :
  (forall e, e < n -> g e ≡ₚ h e) -> groups g n ≡ₚ groups h n.
Proof.
  induction n as [|n IH]; intros Hg; [done |]. rewrite !groups_S.
  apply Permutation_app; [apply IH; intros; apply Hg | apply Hg]; lia.
Qed.

(** Two families side by side. *)
Lemma groups_app {A} (g h : nat -> list A) n : groups g n ++ groups h n ≡ₚ groups (fun e => g e ++ h e) n.
Proof.
  induction n as [|n IH]; [done |]. rewrite !groups_S, <- IH, <- !(assoc (++)).
  apply Permutation_app_head. rewrite !(assoc (++)). apply Permutation_app_tail, Permutation_app_comm.
Qed.

(** Either side of a condition. *)
Lemma groups_split {A} (b : nat -> bool) (g : nat -> list A) n :
  groups (fun e => if b e then [] else g e) n ++ groups (fun e => if b e then g e else []) n ≡ₚ groups g n.
Proof.
  rewrite groups_app. apply groups_Permutation. intros e _. destruct (b e); [done |]. by rewrite app_nil_r.
Qed.

(** The order of two nested loops does not matter. *)
Lemma groups_swap {A} (f : nat -> nat -> list A) n m :
  groups (fun t => groups (f t) n) m ≡ₚ groups (fun e => groups (fun t => f t e) m) n.
Proof.
  induction m as [|m IH]; [by rewrite (groups_nil n : groups (fun e => groups (fun t => f t e) 0) n = []) |].
  rewrite groups_S, IH, groups_app.
  apply groups_Permutation. intros. by rewrite groups_S.
Qed.

(** ** Enumerating the elements of spans *)

(** A loop over all indices is a loop over the spans, when [g] at index
    [offset c e + j] is [h e j]. *)
Lemma enum_spans {A} (c : nat -> nat) n (g : nat -> A) (h : nat -> nat -> A) :
  (forall e j, e < n -> j < c e -> g (offset c e + j) = h e j) ->
  map g (seq 0 (offset c n)) = groups (fun e => map (h e) (seq 0 (c e))) n.
Proof.
  induction n as [|n IH]; intros Hg; [done |].
  rewrite offset_S, seq_app, map_app, groups_S, IH by (intros; apply Hg; lia). f_equal. simpl.
  apply list_eq. intros i. rewrite !list_lookup_fmap.
  destruct (decide (i < c n)) as [Hi|Hi]; [|by rewrite !lookup_seq_ge by lia].
  rewrite !lookup_seq_lt by done. simpl. f_equal. apply Hg; lia.
Qed.

Lemma enum_concat {A} (c : nat -> nat) n (g : nat -> list A) (h : nat -> nat -> list A) :
  (forall e j, e < n -> j < c e -> g (offset c e + j) = h e j) ->
  concat (map g (seq 0 (offset c n))) = groups (fun e => groups (h e) (c e)) n.
Proof.
  intros Hg. rewrite (enum_spans c n g h Hg). clear Hg. induction n as [|n IH]; [done |].
  by rewrite !groups_S, concat_app, IH.
Qed.

(** Element [j] of group [e]. *)
Lemma groups_lookup {A} (g : nat -> list A) n e j : e < n -> j < length (g e) ->
  groups g n !! (offset (fun e => length (g e)) e + j) = g e !! j.
Proof.
  induction n as [|n IH]; [lia |]. intros He Hj. rewrite groups_S.
  pose proof (groups_length g n) as Hl. destruct (decide (e = n)) as [->|Hne].
  - rewrite lookup_app_r by lia. f_equal. lia.
  - pose proof (offset_next (fun e => length (g e)) e n ltac:(lia)). rewrite lookup_app_l by lia. apply IH; lia.
Qed.

Lemma groups_lookup_app {A} (g : nat -> list A) n k e j : e < n -> j < length (g e) ->
  (groups g n ++ k) !! (offset (fun e => length (g e)) e + j) = g e !! j.
Proof.
  intros He Hj. pose proof (offset_next (fun e => length (g e)) e n He). rewrite lookup_app_l.
  - by apply groups_lookup.
  - rewrite groups_length. lia.
Qed.

(** ** Tiles of a span *)

Lemma ceil_mul a b : 0 < b -> a <= (a + (b - 1)) / b * b.
Proof.
  intros Hb. pose proof (Nat.div_mod_eq (a + (b - 1)) b). pose proof (Nat.mod_upper_bound (a + (b - 1)) b). nia.
Qed.

Lemma ceil_mul_lt a b : 0 < b -> (a + (b - 1)) / b * b < a + b.
Proof. intros Hb. pose proof (Nat.div_mod_eq (a + (b - 1)) b). nia. Qed.

(** The first [n] tiles of width [w] cover a span of [f], if [n] are enough. *)
Lemma tiles_cover b f w n : f <= n * w ->
  groups (fun t => seq (b + t * w) (Nat.min (f - t * w) w)) n = seq b f.
Proof.
  intros Hn. assert (Hk : forall k, groups (fun t => seq (b + t * w) (Nat.min (f - t * w) w)) k = seq b (Nat.min f (k * w))).
  { induction k as [|k IH]; [by rewrite Nat.min_0_r |]. rewrite groups_S, IH.
    destruct (decide (f <= k * w)).
    - replace (f - k * w) with 0 by lia. simpl. rewrite app_nil_r. f_equal. nia.
    - replace (Nat.min f (k * w)) with (k * w) by lia. rewrite <- seq_app. f_equal. nia. }
  rewrite Hk. f_equal. lia.
Qed.

Lemma tiles_of_list {A} (l : list A) w n : length l <= n * w ->
  groups (fun t => take w (drop (t * w) l)) n = l.
Proof.
  intros Hn. assert (Hk : forall k, groups (fun t => take w (drop (t * w) l)) k = take (k * w) l).
  { induction k as [|k IH]; [done |]. rewrite groups_S, IH.
    rewrite take_take_drop. f_equal. lia. }
  rewrite Hk, take_ge; [done | lia].
Qed.

(** ** Groups by key *)

Lemma filter_all {A} (P : A -> Prop) `{forall x, Decision (P x)} l : Forall P l -> base.filter P l = l.
Proof. induction 1; [done |]. rewrite filter_cons_True by done. by f_equal. Qed.

Lemma filter_none {A} (P : A -> Prop) `{forall x, Decision (P x)} l : Forall (fun x => ~ P x) l -> base.filter P l = [].
Proof. induction 1; [done |]. by rewrite filter_cons_False by done. Qed.

(** A list sorted by key, with keys from [lo], is its groups in key order. *)
Lemma sorted_by_key {A} (key : A -> nat) (l : list A) m : StronglySorted (fun a b => key a <= key b) l ->
  Forall (fun a => key a < m) l ->
  groups (fun e => base.filter (fun a => key a = e) l) m = l.
Proof.
  intros Hs Hm. revert l Hs Hm. induction m as [|m IH]; intros l Hs Hm.
  { destruct Hm; [done | lia]. }
  rewrite groups_S. set (P := fun a => key a < m).
  assert (Hl : l = base.filter P l ++ base.filter (fun a => key a = m) l).
  { clear IH. subst P. induction l as [|a l IHl]; [done |].
    apply Forall_cons in Hm as [Ha Hm]. apply StronglySorted_inv in Hs as [Hs Hall].
    destruct (decide (key a < m)).
    - rewrite filter_cons_True by done. rewrite (filter_cons_False (fun a => key a = m)) by lia.
      simpl. f_equal. by apply IHl.
    - assert (key a = m) by lia. rewrite filter_cons_False by done. rewrite filter_cons_True by done.
      rewrite filter_none; [simpl; f_equal; symmetry; apply filter_all | ];
        (eapply Forall_impl; [apply Forall_and; split; [exact Hm | exact Hall] | simpl; intros; lia]). }
  etransitivity; [|symmetry; exact Hl]. f_equal. rewrite <- (IH (base.filter P l)).
  - apply groups_ext. intros e He. rewrite list_filter_filter. apply list_filter_iff. subst P. simpl. naive_solver lia.
  - clear -Hs. induction Hs as [|a l Hs IH Ha]; [constructor |]. rewrite filter_cons. case_decide; [|done].
    constructor; [done |]. rewrite Forall_forall in *. intros b [_ Hb]%list_elem_of_filter. by apply Ha.
  - subst P. apply Forall_forall. by intros a [Ha _]%list_elem_of_filter.
Qed.

(** A list regrouped by the elements of a duplicate-free list of its keys. *)
Lemma group_unique {A K} `{EqDecision K} (key : A -> K) (u : list K) (l : list A) : NoDup u ->
  (forall a, a ∈ l -> key a ∈ u) -> concat (map (fun x => base.filter (fun a => key a = x) l) u) ≡ₚ l.
Proof.
  revert l. induction u as [|x u IH]; intros l Hnd Hin; simpl.
  { destruct l as [|a l]; [done |]. exfalso. by apply (not_elem_of_nil (key a)), Hin, list_elem_of_here. }
  apply NoDup_cons in Hnd as [Hx Hnd].
  etransitivity; [|apply (filter_app_complement (fun a => key a = x) l)]. apply Permutation_app_head.
  rewrite <- (IH (base.filter (fun a => ~ key a = x) l)); [|done |].
  - apply reflexive_eq. f_equal. apply map_ext_in. intros y Hy%list_elem_of_In.
    rewrite list_filter_filter. apply list_filter_iff. intros a. split; [|naive_solver]. intros <-. split; [done |].
    intros E. apply Hx. by rewrite <- E.
  - intros a [Ha Hl]%list_elem_of_filter. apply Hin in Hl. apply elem_of_cons in Hl as [?|?]; done.
Qed.

(** Writing at distinct places. *)
Lemma fold_insert_lookup {A} (l : list (nat * A)) (k : list A) i a : NoDup (map fst l) -> (i, a) ∈ l ->
  i < length k -> fold_left (fun k p => <[fst p := snd p]> k) l k !! i = Some a.
Proof.
  assert (Hother : forall (l : list (nat * A)) (k : list A), i ∉ map fst l ->
            fold_left (fun k p => <[fst p := snd p]> k) l k !! i = k !! i).
  { clear. induction l as [|[j b] l IH]; intros k Hi; [done |]. simpl in *. apply not_elem_of_cons in Hi as [Hj Hi].
    rewrite IH by done. by rewrite list_lookup_insert_ne. }
  revert k. induction l as [|[j b] l IH]; intros k Hnd Hin Hi; simpl in *; [by apply not_elem_of_nil in Hin |].
  apply NoDup_cons in Hnd as [Hj Hnd]. apply elem_of_cons in Hin as [[= -> ->]|Hin].
  - rewrite Hother by done. by apply list_lookup_insert_eq.
  - apply IH; [done | done | by rewrite length_insert].
Qed.

Lemma fold_insert_length {A} (l : list (nat * A)) (k : list A) :
  length (fold_left (fun k p => <[fst p := snd p]> k) l k) = length k.
Proof. revert k. induction l as [|p l IH]; intros k; [done |]. simpl. by rewrite IH, length_insert. Qed.

(** ** Strided addresses *)

Lemma row_address stride r c r' c' : c < stride -> c' < stride -> r * stride + c = r' * stride + c' -> r = r' /\ c = c'.
Proof.
  intros Hc Hc' E.
  assert (H1 : r = (r * stride + c) / stride) by (apply (Nat.div_unique _ _ _ c); lia).
  assert (H2 : r' = (r' * stride + c') / stride) by (apply (Nat.div_unique _ _ _ c'); lia).
  rewrite E in H1. lia.
Qed.
