(* ===== verification/Exl3Tier.v ===== *)
(** * The EXL3 expert tiers: switches, eligibility, resolution, diagnostics

    Model of the first part of [overlay/exl3.py]: the environment switches, what
    the image offers, which fat-expert tier a layer may run
    ([grouped_fat_eligibility], [resolve_exl3_fat_tier]) and the counters the
    module keeps ([_EXL3_FAT_DIAG], [_FAT_STATS]).  Of a tensor only its
    identity is kept, as an integer.  The image, the device and vLLM's
    distributed state are the record [image]; log lines are not modelled. *)
From Stdlib Require Import ZArith Lia.
From stdpp Require Import base list strings gmap pretty.
From S2P Require Import Prelude PyStr.

(** ** Packed matrices and layers *)

(** A [LinearEXL3] handle. *)
Record linear := Linear {
  trellis : Z; suh : Z; svh : Z;
  K : Z; mcg : bool; mul1 : bool;
  in_features : Z; out_features : Z
}.

(** One local expert: [pack["gate"]], [pack["up"]], [pack["down"]]. *)
Record pack := Pack { gate : linear; up : linear; down : linear }.

Record device := Device { dev_type : string; dev_index : option Z }.
#[export] Instance device_eq_dec : EqDecision device.
Proof. solve_decision. Defined.

(** What the tier code reads of a layer.  [None]: the attribute is absent. *)
Record layer := Layer {
  _exl3_bits : option Z;
  _exl3_k_words : option Z;
  _exl3_inners : list pack;
  _exl3_shared_w13_suh : bool;
  _exl3_hidden_size : option Z;
  _exl3_intermediate_local : option Z;
  param_device : string -> device
}.

(** ** Switches *)

Section env.
Context (env : environ).

(** [os.environ.get(name, d) != "0"]. *)
Definition switch (name d : string) : bool := negb (String.eqb (environ_get env name d) "0").

Definition fused_moe_row_tile_enabled : bool := switch "EXL3_MOE_ROW_TILE" "0".

Definition TEMP_ROWS_FUSED : Z := 128.

Definition temp_rows_fused : res Z :=
  let raw := strip (environ_get env "EXL3_TEMP_ROWS_FUSED" "") in
  if String.eqb raw "" then Ok TEMP_ROWS_FUSED
  else match parse_int raw with Some n => Ok (Z.max 1 n) | None => Raise ValueError end.

Definition sorted_fat_fallback_enabled : bool := switch "EXL3_FAT_SORTED" "0".
Definition batched_fat_fallback_enabled : bool := switch "EXL3_FAT_BATCHED" "0".
Definition fat_kernel_enabled : bool := switch "EXL3_FAT_KERNEL" "0".
Definition grouped_fat_enabled : bool := switch "EXL3_FAT_GROUPED" "0".

Definition fat_expert_log_enabled : bool :=
  switch "EXL3_FAT_EXPERT_LOG" (if grouped_fat_enabled then "0" else "1").

Definition configured_fat_tier : string :=
  if grouped_fat_enabled then "grouped"
  else if fat_kernel_enabled then "kernel"
  else if batched_fat_fallback_enabled then "batched"
  else if sorted_fat_fallback_enabled then "sorted"
  else "legacy".

Definition fused_moe_enabled : bool := switch "EXL3_FUSED_MOE" "1".

(** Strict: unset and empty are off, anything but 0 and 1 is refused. *)
Definition fused_moe_reuse_enabled : res bool :=
  match env !! "GLM53_EXL3_MOE_REUSE" with
  | None => Ok false
  | Some raw =>
      if String.eqb raw "" then Ok false
      else if String.eqb raw "1" then Ok true
      else if String.eqb raw "0" then Ok false
      else Raise RuntimeError
  end.

Definition pipeline_enabled : bool :=
  match env !! "GLM53_EXL3_MOE_PIPELINE" with Some v => String.eqb v "1" | None => false end.

Definition _grouped_scratch_rows_env : res Z :=
  let raw := strip (environ_get env "EXL3_FAT_SCRATCH_ROWS" "") in
  if String.eqb raw "" then Ok 0%Z
  else match parse_int raw with Some n => Ok (Z.max 0 n) | None => Raise ValueError end.
End env.

(** ** The decode-skip arithmetic *)

Definition fused_temp_rows_decode_floor (max_num_seqs dflash_tokens : Z) : Z :=
  (max_num_seqs * (dflash_tokens + 1))%Z.

(** One row: negative ids are skipped, [seen] is the set of the others. *)
Fixpoint unique_row (seen : list Z) (row : list Z) : bool :=
  match row with
  | [] => true
  | e :: row =>
      if (e <? 0)%Z then unique_row seen row
      else if bool_decide (e ∈ seen) then false
      else unique_row (e :: seen) row
  end.
Definition unique_per_token_topk_ids (rows : list (list Z)) : bool := forallb (unique_row []) rows.

Definition unique_topk_hottest_upper_bound (tokens : Z) : Z := Z.max 0 tokens.

Definition fused_moe_decode_skips_fat (tokens hottest_expert_count cap : Z) : bool :=
  if (cap <? tokens)%Z then false else (cap <? hottest_expert_count)%Z.

Definition fused_moe_decode_skips_unique_topk (tokens cap : Z) : bool :=
  fused_moe_decode_skips_fat tokens (unique_topk_hottest_upper_bound tokens) cap.

Definition w2_trf32_no_fallback_skip (tokens : Z) (unique_topk : bool)
    (hottest_expert_count : option Z) (cap : Z) : bool :=
  if unique_topk then fused_moe_decode_skips_fat tokens (unique_topk_hottest_upper_bound tokens) cap
  else match hottest_expert_count with
       | None => true
       | Some hottest => fused_moe_decode_skips_fat tokens hottest cap
       end.

(** ** What the image offers *)

(** An extension module: its attributes, and the tile sizes it answers. *)
Record extension := Extension {
  symbols : list string;
  tile_rows_gateup : nat;
  tile_rows_down : nat;
  moe_max_concurrency : Z
}.
Definition hasattr (ext : extension) (name : string) : bool := bool_decide (name ∈ symbols ext).

Record image := Image {
  exllamav3_ext : option extension;       (** [None]: the import fails *)
  exl3_fat_moe_ext : option extension;
  device_capability : option (Z * Z);     (** [None]: no GPU, or torch raises *)
  tp_rank_size : option (Z * Z);          (** [None]: outside vLLM *)
  stream_capturing : bool                 (** a CUDA graph is being captured *)
}.

Definition exl3_fat_symbols (img : image) : bool * bool * bool :=
  match exllamav3_ext img with
  | None => (false, false, false)
  | Some ext => (hasattr ext "exl3_moe", hasattr ext "exl3_fat_gemm", hasattr ext "exl3_fat_gemm_scatter")
  end.

Definition EXL3_FAT_MOE_SYMBOLS : list string :=
  ["exl3_fat_moe_gather"; "exl3_fat_moe_gateup"; "exl3_fat_moe_down";
   "exl3_fat_moe_tile_rows_gateup"; "exl3_fat_moe_tile_rows_down"].
Definition EXL3_FAT_MOE_MIN_CAPABILITY : Z * Z := (9, 0)%Z.
Definition EXL3_FAT_MOE_MIN_K : Z := 128.

Definition has_all (ext : extension) : bool := forallb (hasattr ext) EXL3_FAT_MOE_SYMBOLS.

(** The module with the grouped kernels; [cache] is [_FAT_MOE_EXT_CACHE]. *)
Definition load_fat_moe_ext (img : image) (cache : list (option extension))
    : option extension * list (option extension) :=
  match cache with
  | found :: _ => (found, cache)
  | [] =>
      let found := match exllamav3_ext img with
                   | Some ext => if has_all ext then Some ext else None
                   | None => None end in
      let found := match found with
                   | Some _ => found
                   | None => match exl3_fat_moe_ext img with
                             | Some ext => if has_all ext then Some ext else None
                             | None => None end
                   end in
      (found, cache ++ [found])
  end.

Definition exl3_device_capability (img : image) : Z * Z := default (-1, -1)%Z (device_capability img).
Definition _exl3_tp_rank_size (img : image) : Z * Z := default (-1, 1)%Z (tp_rank_size img).

(** Python's [<] on pairs. *)
Definition pair_lt (a b : Z * Z) : bool :=
  ((fst a <? fst b) || ((fst a =? fst b) && (snd a <? snd b)))%Z.

(** ** Eligibility for the grouped kernels *)

Definition show (n : Z) : string := pretty n.

(** The loop over the handles; [inr]: the smallest [in_features]. *)
Fixpoint check_inners (l : list linear) (min_k : option Z) : string + option Z :=
  match l with
  | [] => inr min_k
  | inner :: l =>
      if negb (K inner =? 4)%Z then inl ("K_" ++ show (K inner))%string
      else if negb (mcg inner) then inl "not_mcg"%string
      else if mul1 inner then inl "mul1"%string
      else check_inners l (match min_k with
                           | None => Some (in_features inner)
                           | Some k => if (in_features inner <? k)%Z then Some (in_features inner) else min_k
                           end)
  end.

Definition handles (inners : list pack) : list linear :=
  concat (map (fun p => [gate p; up p; down p]) inners).

Definition PARAM_NAMES : list string :=
  ["w13_trellis"; "w13_suh"; "w13_svh"; "w2_trellis"; "w2_suh"; "w2_svh"].

Definition grouped_fat_eligibility (img : image) (l : layer) : bool * string :=
  let bits := default 0%Z (_exl3_bits l) in
  if negb (bits =? 4)%Z then (false, "bits_" ++ show bits)%string else
  let k_words := default 0%Z (_exl3_k_words l) in
  if negb (k_words =? 64)%Z then (false, "k_words_" ++ show k_words)%string else
  if bool_decide (_exl3_inners l = []) then (false, "no_inners"%string) else
  match check_inners (handles (_exl3_inners l)) None with
  | inl why => (false, why)
  | inr min_k =>
      if match min_k with None => true | Some k => (k <? EXL3_FAT_MOE_MIN_K)%Z end
      then (false, "k_in_" ++ match min_k with None => "None" | Some k => show k end)%string else
      if negb (_exl3_shared_w13_suh l) then (false, "shared_suh_absent"%string) else
      let hidden := default 0%Z (_exl3_hidden_size l) in
      let inter := default 0%Z (_exl3_intermediate_local l) in
      if ((hidden <=? 0) || negb (hidden mod 256 =? 0))%Z then (false, "hidden_" ++ show hidden)%string else
      if ((inter <=? 0) || negb (inter mod 128 =? 0))%Z then (false, "intermediate_" ++ show inter)%string else
      let dev := param_device l "w13_trellis" in
      if negb (String.eqb (dev_type dev) "cuda") then (false, "device_" ++ dev_type dev)%string else
      match List.find (fun name => negb (bool_decide (param_device l name = dev))) PARAM_NAMES with
      | Some name => (false, "device_mismatch_" ++ name)%string
      | None =>
          let cap := exl3_device_capability img in
          if pair_lt cap EXL3_FAT_MOE_MIN_CAPABILITY
          then (false, "capability_" ++ show (fst cap) ++ "." ++ show (snd cap))%string
          else (true, "eligible"%string)
      end
  end.

(** ** Resolution *)

(** The E2 symbols a kernel tier misses. *)
Definition missing_symbols (symbols : bool * bool * bool) : list string :=
  (if snd (fst symbols) then [] else ["exl3_fat_gemm"%string]) ++
  (if snd symbols then [] else ["exl3_fat_gemm_scatter"%string]).

(** From [symbols is None] on: the tier left after the downgrades. *)
Definition resolve_rest (img : image) (symbols : option (bool * bool * bool)) (configured reason_prefix : string)
    : res (string * string) :=
  let symbols := default (exl3_fat_symbols img) symbols in
  if String.eqb configured "kernel" && negb (bool_decide (missing_symbols symbols = [])) then Raise RuntimeError
  else Ok (configured, (reason_prefix ++ configured ++ "_ok")%string).

Definition resolve_exl3_fat_tier (env : environ) (img : image) (cache : list (option extension))
    (shared_suh : bool) (symbols : option (bool * bool * bool)) (fat_moe_symbols : option bool)
    (grouped_eligible : option (bool * string)) : res (string * string) * list (option extension) :=
  let configured := configured_fat_tier env in
  if String.eqb configured "legacy" then (Ok (configured, "none_requested"%string), cache) else
  let grouped := String.eqb configured "grouped" in
  let '(have, cache) :=
    if grouped then
      match fat_moe_symbols with
      | Some b => (b, cache)
      | None => let '(found, cache) := load_fat_moe_ext img cache in (bool_decide (found <> None), cache)
      end
    else (true, cache) in
  if negb have then (Raise RuntimeError, cache) else
  if negb shared_suh && bool_decide (configured ∈ ["grouped"; "kernel"; "batched"]%string)
  then (Ok ("sorted", "shared_suh_absent")%string, cache) else
  if grouped then
    let eligible := default (true, "eligible"%string) grouped_eligible in
    if fst eligible then (Ok (configured, "grouped_ok"%string), cache)
    else (resolve_rest img symbols "kernel" ("grouped_ineligible_" ++ snd eligible ++ ":"), cache)
  else (resolve_rest img symbols configured "", cache).

(** ** The diagnostics *)

Definition _FAT_TIERS : list string := ["grouped"; "kernel"; "batched"; "sorted"; "legacy"]%string.

(** [_EXL3_FAT_DIAG]. *)
Record fat_diag := Diag {
  configured_tier : string; effective_tier : string; tier_reason : string;
  shared_suh : bool; shared_suh_layers : nat; moe_layers_loaded : nat;
  sym_exl3_moe : bool; sym_fat_gemm : bool; sym_fat_gemm_scatter : bool; sym_fat_moe : bool;
  grouped_calls : nat; grouped_scratch_bytes : Z; grouped_scratch_growths : nat; grouped_eligible : bool;
  cap_major : Z; cap_minor : Z; cap_ok : bool; tp_rank : Z; tp_size : Z;
  prefill_layer_calls : nat; thin_calls : nat; row_tile_calls : nat;
  fallback_calls : gmap string nat; fallback_reasons : gmap string nat
}.

Definition zero_tiers : gmap string nat := list_to_map (map (fun tier => (tier, O)) _FAT_TIERS).

Definition initial_diag : fat_diag :=
  Diag "legacy" "legacy" "unresolved" false 0 0 false false false false 0 0%Z 0 false
    (-1)%Z (-1)%Z false (-1)%Z 1%Z 0 0 0 zero_tiers ∅.

(** [_FAT_STATS]. *)
Record fat_stats := Stats {
  st_layers : nat; st_fat_layers : nat; st_fat_experts : nat;
  st_max_rows : nat; st_sum_max_rows : nat; st_hist : list nat
}.

Definition _FAT_BUCKET_EDGES : list nat := [16; 32; 64; 128; 256; 512; 1024; 2048]%nat.
Definition initial_stats : fat_stats := Stats 0 0 0 0 0 (replicate (S (length _FAT_BUCKET_EDGES)) 0).

(** [enumerate] from [i]. *)
Fixpoint bucket_from (i : nat) (edges : list nat) (n : nat) : nat :=
  match edges with
  | [] => i
  | edge :: edges => if n <=? edge then i else bucket_from (S i) edges n
  end.
Definition _fat_bucket (n : nat) : nat := bucket_from 0 _FAT_BUCKET_EDGES n.

Definition list_max (l : list nat) : nat := fold_right Nat.max 0 l.

(** What [record_exl3_fat_expert_stats] adds; [cap] is [temp_rows_fused()]. *)
Definition add_stats (st : fat_stats) (max_rows n_fat : nat) : fat_stats :=
  Stats (S (st_layers st))
    (if 0 <? n_fat then S (st_fat_layers st) else st_fat_layers st)
    (if 0 <? n_fat then st_fat_experts st + n_fat else st_fat_experts st)
    (if st_max_rows st <? max_rows then max_rows else st_max_rows st)
    (st_sum_max_rows st + max_rows)
    (alter S (_fat_bucket max_rows) (st_hist st)).

(** The module's mutable state; [w_last] is what a layer remembers of its last
    call, by the layer's identity. *)
Record world := World {
  w_diag : fat_diag;
  w_stats : fat_stats;
  w_ext_cache : list (option extension);
  w_grouped_bytes : gmap (string * nat * nat) Z;    (** [_FAT_GROUPED_BYTES] *)
  w_last : gmap Z (string * string)
}.

Definition initial_world : world := World initial_diag initial_stats [] ∅ ∅.

Definition set_diag (f : fat_diag -> fat_diag) (w : world) : world :=
  World (f (w_diag w)) (w_stats w) (w_ext_cache w) (w_grouped_bytes w) (w_last w).
Definition set_stats (f : fat_stats -> fat_stats) (w : world) : world :=
  World (w_diag w) (f (w_stats w)) (w_ext_cache w) (w_grouped_bytes w) (w_last w).
Definition set_ext_cache (c : list (option extension)) (w : world) : world :=
  World (w_diag w) (w_stats w) c (w_grouped_bytes w) (w_last w).
Definition set_grouped_bytes (b : gmap (string * nat * nat) Z) (w : world) : world :=
  World (w_diag w) (w_stats w) (w_ext_cache w) b (w_last w).
Definition set_last (id : Z) (last : string * string) (w : world) : world :=
  World (w_diag w) (w_stats w) (w_ext_cache w) (w_grouped_bytes w) (<[id := last]> (w_last w)).

Definition sum_bytes (b : gmap (string * nat * nat) Z) : Z := map_fold (fun _ => Z.add) 0%Z b.

(** *** The updates of single fields *)

Definition diag_load (d : fat_diag) (env : environ) (img : image) (shared : bool) (sym_moe : bool)
    (eligible : bool) (bytes : Z) : fat_diag :=
  let loaded := S (moe_layers_loaded d) in
  let shared_layers := if shared then S (shared_suh_layers d) else shared_suh_layers d in
  let '(sym, gemm, scatter) := exl3_fat_symbols img in
  let cap := exl3_device_capability img in
  Diag (configured_fat_tier env) (effective_tier d) (tier_reason d)
    (shared_layers =? loaded) shared_layers loaded sym gemm scatter sym_moe
    (grouped_calls d) bytes (grouped_scratch_growths d) eligible
    (fst cap) (snd cap) (negb (pair_lt cap (8, 0)%Z))
    (fst (_exl3_tp_rank_size img)) (snd (_exl3_tp_rank_size img))
    (prefill_layer_calls d) (thin_calls d) (row_tile_calls d) (fallback_calls d) (fallback_reasons d).

Definition diag_tier (tier reason : string) (d : fat_diag) : fat_diag :=
  Diag (configured_tier d) tier reason (shared_suh d) (shared_suh_layers d) (moe_layers_loaded d)
    (sym_exl3_moe d) (sym_fat_gemm d) (sym_fat_gemm_scatter d) (sym_fat_moe d)
    (grouped_calls d) (grouped_scratch_bytes d) (grouped_scratch_growths d) (grouped_eligible d)
    (cap_major d) (cap_minor d) (cap_ok d) (tp_rank d) (tp_size d)
    (prefill_layer_calls d) (thin_calls d) (row_tile_calls d) (fallback_calls d) (fallback_reasons d).

Definition diag_calls (prefill thin row_tile grouped : nat -> nat) (calls reasons : gmap string nat -> gmap string nat)
    (bytes : Z -> Z) (growths : nat -> nat) (d : fat_diag) : fat_diag :=
  Diag (configured_tier d) (effective_tier d) (tier_reason d) (shared_suh d) (shared_suh_layers d)
    (moe_layers_loaded d) (sym_exl3_moe d) (sym_fat_gemm d) (sym_fat_gemm_scatter d) (sym_fat_moe d)
    (grouped (grouped_calls d)) (bytes (grouped_scratch_bytes d)) (growths (grouped_scratch_growths d))
    (grouped_eligible d) (cap_major d) (cap_minor d) (cap_ok d) (tp_rank d) (tp_size d)
    (prefill (prefill_layer_calls d)) (thin (thin_calls d)) (row_tile (row_tile_calls d))
    (calls (fallback_calls d)) (reasons (fallback_reasons d)).

Definition count_prefill : fat_diag -> fat_diag := diag_calls S id id id id id id id.
Definition count_thin : fat_diag -> fat_diag := diag_calls id S id id id id id id.
Definition count_row_tile : fat_diag -> fat_diag := diag_calls id id S id id id id id.
Definition count_grouped : fat_diag -> fat_diag := diag_calls id id id S id id id id.
Definition grow_bytes (bytes : Z) : fat_diag -> fat_diag := diag_calls id id id id id id (const bytes) S.

Definition _record_exl3_fat_reason (reason : string) (w : world) : world :=
  set_diag (diag_calls id id id id id (fun m => <[reason := S (default 0 (m !! reason))]> m) id id) w.

Definition _record_exl3_fat_tier (layer_id : Z) (tier reason : string) (w : world) : world :=
  let w := match fallback_calls (w_diag w) !! tier with
           | Some n => set_diag (diag_calls id id id id (<[tier := S n]>) id id id) w
           | None => w end in
  set_last layer_id (tier, reason) (_record_exl3_fat_reason reason w).

Definition reset_exl3_fat_diag_counters (w : world) : world :=
  set_diag (diag_calls (const 0) (const 0) (const 0) (const 0) (const zero_tiers) (const ∅)
              (const (sum_bytes (w_grouped_bytes w))) id) w.

Definition reset_exl3_fat_expert_stats (w : world) : world := set_stats (const initial_stats) w.

(** What a layer keeps of the resolution. *)
Record resolution := Resolution {
  _exl3_grouped_eligible : bool * string;
  _exl3_fat_effective_tier : string;
  _exl3_fat_tier_reason : string
}.

(** Once per layer, at weight load.  A raise aborts the load. *)
Definition _record_exl3_fat_resolution (env : environ) (img : image) (l : layer) (w : world)
    : res resolution * world :=
  let shared := _exl3_shared_w13_suh l in
  let eligible := if grouped_fat_enabled env then grouped_fat_eligibility img l
                  else (false, "grouped_off"%string) in
  let '(resolved, cache) := resolve_exl3_fat_tier env img (w_ext_cache w) shared None None (Some eligible) in
  let w := set_ext_cache cache w in
  match resolved with
  | Raise e => (Raise e, w)
  | Ok (tier, reason) =>
      let '(sym_moe, cache) :=
        if grouped_fat_enabled env
        then let '(found, cache) := load_fat_moe_ext img (w_ext_cache w) in (bool_decide (found <> None), cache)
        else (false, w_ext_cache w) in
      let w := set_ext_cache cache w in
      let w := set_diag (fun d => diag_load d env img shared sym_moe (fst eligible)
                                    (sum_bytes (w_grouped_bytes w))) w in
      let w := if String.eqb (tier_reason (w_diag w)) "unresolved" then set_diag (diag_tier tier reason) w
               else if negb (String.eqb (effective_tier (w_diag w)) tier) then set_diag (diag_tier tier reason) w
               else w in
      (Ok (Resolution eligible tier reason), w)
  end.

(** [record_exl3_fat_expert_stats]: [counts] is the counts tensor or its host
    copy, [max_rows] is given except by the grouped branch. *)
Definition record_exl3_fat_expert_stats (env : environ) (counts : list nat) (max_rows : option nat) (w : world)
    : res unit * world :=
  match temp_rows_fused env with
  | Raise e => (Raise e, w)
  | Ok cap =>
      let max_rows := default (list_max counts) max_rows in
      let n_fat := length (base.filter (fun n => cap < Z.of_nat n)%Z counts) in
      (Ok tt, set_stats (fun st => add_stats st max_rows n_fat) w)
  end.

(** ** What the resolution promises *)

(** The module [load_fat_moe_ext] finds on a fresh process. *)
Definition fresh_ext (img : image) : option extension := fst (load_fat_moe_ext img []).

(** The cache is empty or holds that module. *)
Definition cache_ok (img : image) (cache : list (option extension)) : Prop :=
  cache = [] \/ cache = [fresh_ext img].

Lemma load_fresh img cache : cache_ok img cache -> load_fat_moe_ext img cache = (fresh_ext img, [fresh_ext img]).
Proof. by intros [->| ->]. Qed.

Lemma fresh_has_all img ext : fresh_ext img = Some ext -> has_all ext = true.
Proof. unfold fresh_ext, load_fat_moe_ext. simpl. repeat case_match; naive_solver. Qed.

(** The tier the environment and the checkpoint allow, without the image: what
    the run-time switches of the dispatch amount to. *)
Definition allowed_tier (env : environ) (shared eligible : bool) : string :=
  if grouped_fat_enabled env && shared && eligible then "grouped"
  else if (fat_kernel_enabled env || grouped_fat_enabled env) && shared then "kernel"
  else if batched_fat_fallback_enabled env && shared then "batched"
  else if sorted_fat_fallback_enabled env || batched_fat_fallback_enabled env
          || fat_kernel_enabled env || grouped_fat_enabled env then "sorted"
  else "legacy".

(** What the image must offer for it. *)
Definition has_kernel (img : image) : bool := snd (fst (exl3_fat_symbols img)) && snd (exl3_fat_symbols img).

Definition refuses (env : environ) (img : image) (shared eligible : bool) : bool :=
  (grouped_fat_enabled env && bool_decide (fresh_ext img = None))
  || (String.eqb (allowed_tier env shared eligible) "kernel" && negb (has_kernel img)).

Lemma missing_nil img : bool_decide (missing_symbols (exl3_fat_symbols img) = []) = has_kernel img.
Proof.
  unfold missing_symbols, has_kernel. destruct (snd (fst (exl3_fat_symbols img))), (snd (exl3_fat_symbols img)); done.
Qed.

(** Case analysis on the four switches. *)
Ltac tier_cases env :=
  destruct (grouped_fat_enabled env), (fat_kernel_enabled env), (batched_fat_fallback_enabled env),
    (sorted_fat_fallback_enabled env); simpl.

Lemma resolve_spec env img cache shared eligible why : cache_ok img cache ->
  let answer := resolve_exl3_fat_tier env img cache shared None None (Some (eligible, why)) in
  cache_ok img (snd answer) /\
  (if refuses env img shared eligible then fst answer = Raise RuntimeError
   else exists reason, fst answer = Ok (allowed_tier env shared eligible, reason) /\ reason <> "unresolved"%string).
Proof.
  intros Hc. unfold resolve_exl3_fat_tier, refuses, resolve_rest, allowed_tier, configured_fat_tier.
  pose proof (load_fresh img cache Hc) as Hload. simpl (default _ None). rewrite missing_nil.
  tier_cases env; rewrite ?Hload; destruct (fresh_ext img) as [ext|] eqn:Hf; destruct shared, eligible, (has_kernel img); simpl;
    (split; [first [exact Hc | right; by rewrite Hf] | first [done | eexists; split; [reflexivity |]; vm_compute; discriminate]]).
Qed.

Lemma has_kernel_spec img : has_kernel img = true -> exists ext, exllamav3_ext img = Some ext /\
  hasattr ext "exl3_fat_gemm" = true /\ hasattr ext "exl3_fat_gemm_scatter" = true.
Proof.
  unfold has_kernel, exl3_fat_symbols. destruct (exllamav3_ext img) as [ext|]; [|done]. simpl.
  intros [E1 E2]%andb_true_iff. by exists ext.
Qed.

Definition eligibility_of (env : environ) (img : image) (l : layer) : bool * string :=
  if grouped_fat_enabled env then grouped_fat_eligibility img l else (false, "grouped_off"%string).

Lemma record_resolution_spec env img l w : cache_ok img (w_ext_cache w) ->
  let eligible := fst (eligibility_of env img l) in
  let answer := _record_exl3_fat_resolution env img l w in
  cache_ok img (w_ext_cache (snd answer)) /\
  (if refuses env img (_exl3_shared_w13_suh l) eligible then fst answer = Raise RuntimeError
   else exists r, fst answer = Ok r /\
          _exl3_fat_effective_tier r = allowed_tier env (_exl3_shared_w13_suh l) eligible).
Proof.
  intros Hc eligible. unfold _record_exl3_fat_resolution. fold (eligibility_of env img l).
  subst eligible. destruct (eligibility_of env img l) as [eligible why]. cbn [fst].
  pose proof (resolve_spec env img (w_ext_cache w) (_exl3_shared_w13_suh l) eligible why Hc) as Hspec.
  destruct (resolve_exl3_fat_tier _ _ _ _ _ _ _) as [resolved cache]. cbn [fst snd] in Hspec. destruct Hspec as [Hcache Hr].
  destruct (refuses _ _ _ _).
  - rewrite Hr. by split.
  - destruct Hr as (reason & -> & _). cbn [w_ext_cache set_ext_cache].
    assert (Hset : forall f w, w_ext_cache (set_diag f w) = w_ext_cache w) by done.
    destruct (grouped_fat_enabled env).
    + rewrite (load_fresh img cache Hcache). cbn [fst snd].
      repeat case_match; simpl; (split; [by right | by eexists]).
    + repeat case_match; simpl; (split; [done | by eexists]).
Qed.

(** The shape checks of the three grouped kernels. *)
Definition gather_checks (hidden : Z) : bool := (hidden mod 128 =? 0)%Z.
Definition gateup_checks (hidden inter : Z) : bool :=
  ((hidden mod 32 =? 0) && (32 <=? hidden) && (inter mod 128 =? 0))%Z.
Definition down_checks (inter hidden : Z) : bool :=
  ((inter mod 32 =? 0) && (32 <=? inter) && (hidden mod 128 =? 0) && (hidden mod 256 =? 0))%Z.

(** The matrices the grouped kernels can decode and feed. *)
Definition grouped_handle (l : linear) : Prop :=
  K l = 4%Z /\ mcg l = true /\ mul1 l = false /\ (EXL3_FAT_MOE_MIN_K <= in_features l)%Z.

Lemma check_inners_spec l min_k k : check_inners l min_k = inr (Some k) -> (EXL3_FAT_MOE_MIN_K <= k)%Z ->
  Forall grouped_handle l /\ match min_k with Some m => (k <= m)%Z | None => True end.
Proof.
  revert min_k. induction l as [|x l IH]; intros min_k Hc Hk; simpl in Hc.
  { injection Hc as ->. split; [constructor | done]. }
  destruct (Z.eqb_spec (K x) 4) as [HK|]; [|done]. destruct (mcg x) eqn:Hm; [|done].
  destruct (mul1 x) eqn:Hm1; [done |]. simpl in Hc.
  destruct (IH _ Hc Hk) as [Hf Hle]. split.
  - constructor; [|done]. split_and!; try done. destruct min_k as [m|]; [|lia].
    destruct (Z.ltb_spec (in_features x) m); lia.
  - destruct min_k as [m|]; [|done]. destruct (Z.ltb_spec (in_features x) m); lia.
Qed.

Lemma eligible_spec img l : fst (grouped_fat_eligibility img l) = true ->
  let hidden := default 0%Z (_exl3_hidden_size l) in
  let inter := default 0%Z (_exl3_intermediate_local l) in
  _exl3_shared_w13_suh l = true /\ _exl3_inners l <> [] /\ Forall grouped_handle (handles (_exl3_inners l)) /\
  gather_checks hidden = true /\ gateup_checks hidden inter = true /\ down_checks inter hidden = true /\
  dev_type (param_device l "w13_trellis") = "cuda"%string /\
  Forall (fun name => param_device l name = param_device l "w13_trellis") PARAM_NAMES /\
  pair_lt (exl3_device_capability img) EXL3_FAT_MOE_MIN_CAPABILITY = false.
Proof.
  intros He hidden inter. revert He. unfold grouped_fat_eligibility. fold hidden inter.
  destruct (negb (default 0 (_exl3_bits l) =? 4))%Z; [done |].
  destruct (negb (default 0 (_exl3_k_words l) =? 64))%Z; [done |].
  case_bool_decide as Hne; [done |]. destruct (check_inners _ _) as [why|min_k] eqn:Hci; [done |].
  destruct min_k as [k|]; [|done]. destruct (Z.ltb_spec k EXL3_FAT_MOE_MIN_K) as [|Hk]; [done |].
  destruct (_exl3_shared_w13_suh l); [|done]. simpl negb. cbv iota.
  destruct ((hidden <=? 0) || negb (hidden mod 256 =? 0))%Z eqn:Hh; [done |].
  destruct ((inter <=? 0) || negb (inter mod 128 =? 0))%Z eqn:Hi; [done |].
  destruct (String.eqb_spec (dev_type (param_device l "w13_trellis")) "cuda") as [Hd|]; [|done]. simpl negb. cbv iota.
  destruct (List.find _ _) as [name|] eqn:Hfind; [done |].
  destruct (pair_lt _ _); [done |]. intros _.
  apply orb_false_iff in Hh as [Hh0 Hh]. apply negb_false_iff, Z.eqb_eq in Hh. apply Z.leb_gt in Hh0.
  apply orb_false_iff in Hi as [Hi0 Hi]. apply negb_false_iff, Z.eqb_eq in Hi. apply Z.leb_gt in Hi0.
  apply Z.mod_divide in Hh as [a Ha]; [|done]. apply Z.mod_divide in Hi as [b Hb]; [|done].
  assert (Hmod : forall x q d, (0 < d -> x = q * d -> x mod d = 0)%Z) by (intros x q d Hd' ->; by apply Z.mod_mul; lia).
  destruct (check_inners_spec _ _ _ Hci Hk) as [Hf _]. split_and!; try done.
  - unfold gather_checks. rewrite (Hmod hidden (2 * a)%Z 128%Z) by lia. done.
  - unfold gateup_checks. rewrite (Hmod hidden (8 * a)%Z 32%Z), (Hmod inter b 128%Z) by lia.
    simpl. rewrite andb_true_r. apply Z.leb_le. lia.
  - unfold down_checks. rewrite (Hmod inter (4 * b)%Z 32%Z), (Hmod hidden (2 * a)%Z 128%Z), (Hmod hidden a 256%Z) by lia.
    simpl. rewrite !andb_true_r. apply Z.leb_le. lia.
  - apply Forall_forall. intros name Hn. pose proof (List.find_none _ _ Hfind name) as Hx. simpl in Hx.
    apply list_elem_of_In in Hn. specialize (Hx Hn). apply negb_false_iff, bool_decide_eq_true in Hx. done.
Qed.

(** How many tiers are above one. *)
Definition tier_rank (tier : string) : nat :=
  length (List.filter (fun t => negb (bool_decide (tier ∈ t)))
    [["grouped"]; ["grouped"; "kernel"]; ["grouped"; "kernel"; "batched"]; ["grouped"; "kernel"; "batched"; "sorted"]]%string).

Lemma allowed_rank env shared eligible :
  tier_rank (configured_fat_tier env) <= tier_rank (allowed_tier env shared eligible).
Proof.
  unfold allowed_tier, configured_fat_tier. tier_cases env; destruct shared, eligible; vm_compute; lia.
Qed.

Lemma allowed_cases env shared eligible :
  let t := allowed_tier env shared eligible in
  (t = "grouped"%string /\ grouped_fat_enabled env = true /\ shared = true /\ eligible = true) \/
  (t = "kernel"%string /\ shared = true /\ fat_kernel_enabled env || grouped_fat_enabled env = true) \/
  (t = "batched"%string /\ shared = true) \/ t = "sorted"%string \/ t = "legacy"%string.
Proof. unfold allowed_tier. tier_cases env; destruct shared, eligible; simpl; tauto. Qed.


(** *** A production layer *)

Definition demo_linear (id : Z) : linear := Linear id (id + 1) (id + 2) 4 true false 4096 1024.
Definition demo_pack (id : Z) : pack := Pack (demo_linear id) (Linear (id + 3) (id + 1) (id + 5) 4 true false 4096 1024) (demo_linear (id + 6)).
Definition demo_layer : layer :=
  Layer (Some 4%Z) (Some 64%Z) [demo_pack 0; demo_pack 10; demo_pack 20] true (Some 4096%Z) (Some 1024%Z)
    (fun _ => Device "cuda" (Some 0%Z)).
Definition demo_ext : extension :=
  Extension (["exl3_moe"; "exl3_fat_gemm"; "exl3_fat_gemm_scatter"]%string ++ EXL3_FAT_MOE_SYMBOLS) 64 64 8.
Definition demo_image : image := Image (Some demo_ext) None (Some (12, 1)%Z) (Some (0, 2)%Z) false.

