(* ===== verification/Exl3Moe.v ===== *)
(** * The EXL3 routed experts: one forward pass of a layer

    Model of the compute path of [overlay/exl3.py], from [map_topk_to_local] to
    [apply_exl3_experts], with the dataflow of the kernels it launches
    ([overlay/exl3-ticket/patched/exl3_moe_kernel.cuh], [overlay/exl3_fat_moe.cu]).
    A result row is kept as what it was computed from: the gathered token, and
    for each of the three matrices the scales, the trellis and the codec that
    were used; the output is the bag of rows added into it, each with its token
    and route weight.  Floating-point arithmetic itself is not modelled: [half]
    is the rounding to fp16, and sums are unordered.  PyTorch's sorting, prefix
    sum and search operations are a class with their documented laws; elementwise
    operations are list functions.  Tensor entries that are never negative are
    [nat]; the one difference that may be is clamped at 0, as [nat] does. *)
From Stdlib Require Import ZArith QArith Lia.
From stdpp Require Import base list strings gmap sorting.
From S2P Require Import Prelude PyStr Exl3Tier Segments.
Open Scope nat_scope.

(** ** PyTorch operations *)

Class Torch := {
  argsort : list nat -> list nat;                 (** [t.argsort()], not stable *)
  unique : list Z -> list Z;                      (** [torch.unique] *)
  cumsum : list nat -> list nat;                  (** [torch.cumsum(t, 0)] *)
  searchsorted_right : list nat -> nat -> nat;    (** [torch.searchsorted(.., right=True)] *)
  scatter_add_ones : nat -> list nat -> list nat  (** [zeros(n).scatter_add_(0, t, ones)] *)
}.

Definition nondecreasing (a : list nat) : Prop := forall i j, i <= j -> j < length a -> a !!! i <= a !!! j.

Class TorchLaws `{Torch} := {
  argsort_perm t : argsort t ≡ₚ seq 0 (length t);
  argsort_sorted t : Sorted le (map (fun i => t !!! i) (argsort t));
  unique_NoDup t : NoDup (unique t);
  unique_elem t x : x ∈ unique t <-> x ∈ t;
  cumsum_length t : length (cumsum t) = length t;
  cumsum_lookup t i : i < length t -> cumsum t !!! i = sum (take (S i) t);
  searchsorted_le a v i : i < searchsorted_right a v -> nondecreasing a -> a !!! i <= v;
  searchsorted_gt a v : searchsorted_right a v < length a -> nondecreasing a -> v < a !!! searchsorted_right a v;
  searchsorted_length a v : searchsorted_right a v <= length a;
  scatter_length n t : length (scatter_add_ones n t) = n;
  scatter_lookup n t i : i < n -> scatter_add_ones n t !!! i = length (base.filter (eq i) t)
}.

(** [t[a:b]] and [t.index_select(0, idx)]. *)
Definition slice {A} (a b : nat) (t : list A) : list A := take (b - a) (drop a t).
Definition index_select {A} `{Inhabited A} (t : list A) (idx : list nat) : list A := map (fun i => t !!! i) idx.

(** ** Results *)

(** A matrix as a row went through it: input scales, packed weights, output
    scales, and the codec they were decoded with (bits, mcg, mul1). *)
Record matrix := Matrix { m_suh : Z; m_trellis : Z; m_svh : Z; m_codec : Z * bool * bool }.

Definition codec (l : linear) : Z * bool * bool := (K l, mcg l, mul1 l).
Definition forward (l : linear) : matrix := Matrix (suh l) (trellis l) (svh l) (codec l).

Record row_out := RowOut { r_limit : Q; r_token : nat; r_gate : matrix; r_up : matrix; r_down : matrix }.

(** [out[c_token] += c_weight * c_row]; [None] is a read of memory nobody wrote. *)
Record contribution (W : Type) := Contribution { c_token : nat; c_weight : W; c_row : option row_out }.
Arguments Contribution {W} _ _ _.
Arguments c_token {W} _.
Arguments c_weight {W} _.
Arguments c_row {W} _.

Definition expert_row (limit : Q) (p : pack) (token : nat) : row_out :=
  RowOut limit token (forward (gate p)) (forward (up p)) (forward (down p)).

Definition job {W} (limit : Q) (p : pack) (token : nat) (weight : W) : contribution W :=
  Contribution token weight (Some (expert_row limit p token)).

(** ** Layers at run time *)

(** [layer._exl3_ptrs]: what the pointers point to. *)
Record ptr_tables := Ptrs {
  gate_trellis : list Z; gate_suh : list Z; gate_svh : list Z;
  up_trellis : list Z; up_suh : list Z; up_svh : list Z;
  down_trellis : list Z; down_suh : list Z; down_svh : list Z
}.

Record moe_layer := MoeLayer {
  ml_id : Z;
  ml_static : layer;
  _exl3_ptrs : option ptr_tables;
  _exl3_fused_temps : option nat;          (** rows of the temps, [temps[0].shape[1]] *)
  _exl3_k : option Z;
  ml_resolution : option resolution
}.
Definition inners (l : moe_layer) : list pack := _exl3_inners (ml_static l).

(** A tensor's place and kind. *)
Inductive dtype := Half | Float32 | Long | OtherType.
#[export] Instance dtype_eq_dec : EqDecision dtype.
Proof. solve_decision. Defined.
Record meta := Meta { t_device : device; t_contiguous : bool; t_dtype : dtype }.

Record expert_map := EMap { em_meta : meta; em_data : list Z }.

Definition pin_exl3_expert_map (emap : option expert_map) (dev : device) : option expert_map :=
  match emap with
  | None => None
  | Some m =>
      if negb (bool_decide (t_device (em_meta m) = dev)) || negb (bool_decide (t_dtype (em_meta m) = Long))
      then Some (EMap (Meta dev (t_contiguous (em_meta m)) Long) (em_data m))
      else Some m
  end.

(** One element of [map_topk_to_local]. *)
Definition local_id (n_local : nat) (data : option (list Z)) (id : Z) : nat :=
  match data with
  | None => if ((id <? 0) || (Z.of_nat n_local <=? id))%Z then n_local else Z.to_nat id
  | Some m =>
      let n_global := length m in
      let safe := Z.max 0 (Z.min id (Z.max (Z.of_nat n_global - 1) 0)) in
      let mapped := if n_global =? 0 then Z.of_nat n_local else m !!! Z.to_nat safe in
      if ((id <? 0) || (Z.of_nat n_global <=? id) || (mapped <? 0) || (Z.of_nat n_local <=? mapped))%Z
      then n_local else Z.to_nat mapped
  end.

Definition map_topk_to_local (ids_device : device) (ids : list (list Z)) (n_local : nat)
    (emap : option expert_map) : res (list nat) :=
  match emap with
  | None => Ok (map (local_id n_local None) (concat ids))
  | Some m =>
      if negb (bool_decide (t_device (em_meta m) = ids_device)) || negb (bool_decide (t_dtype (em_meta m) = Long))
      then Raise RuntimeError
      else Ok (map (local_id n_local (Some (em_data m))) (concat ids))
  end.

(** [torch.arange(tokens).repeat_interleave(topk)]. *)
Definition repeat_tokens (tokens topk : nat) : list nat := concat (map (replicate topk) (seq 0 tokens)).

(** ** State and the monad: state changes outlive an exception *)

(** What the gather and the gate/up kernel leave in the grouped scratch. *)
Record h13_row := H13 { h13_token : nat; h13_suh : Z }.
Record h2_row := H2 { h2_token : nat; h2_limit : Q; h2_gate : matrix; h2_up : matrix; h2_down_suh : Z }.

Record buffers := Buffers { b_h13 : list (option h13_row); b_h2 : list (option h2_row) }.

Record state := State {
  st_world : world;
  _FAT_SCRATCH_CACHE : gmap (string * Z * Z * Z * Z) nat;   (** rows of the buffers *)
  _FAT_GROUPED_CACHE : gmap (string * nat * nat) buffers;
  _FAT_COUNT_CACHE : gmap (string * nat) (list nat)         (** the pinned host copy *)
}.

Definition M (A : Type) : Type := state -> res A * state.
#[export] Instance M_ret : MRet M := fun A a s => (Ok a, s).
#[export] Instance M_bind : MBind M := fun A B k m s =>
  match m s with (Ok a, s) => k a s | (Raise e, s) => (Raise e, s) end.

Definition get : M state := fun s => (Ok s, s).
Definition lift {A} (m : res A) : M A := fun s => (m, s).
Definition on_world {A} (f : world -> res A * world) : M A := fun s =>
  let '(r, w) := f (st_world s) in
  (r, State w (_FAT_SCRATCH_CACHE s) (_FAT_GROUPED_CACHE s) (_FAT_COUNT_CACHE s)).
Definition update (f : world -> world) : M unit := on_world (fun w => (Ok tt, f w)).
Definition set_scratch (key : string * Z * Z * Z * Z) (capacity : nat) : M unit := fun s =>
  (Ok tt, State (st_world s) (<[key := capacity]> (_FAT_SCRATCH_CACHE s)) (_FAT_GROUPED_CACHE s) (_FAT_COUNT_CACHE s)).
Definition set_grouped (key : string * nat * nat) (b : buffers) : M unit := fun s =>
  (Ok tt, State (st_world s) (_FAT_SCRATCH_CACHE s) (<[key := b]> (_FAT_GROUPED_CACHE s)) (_FAT_COUNT_CACHE s)).
Definition set_counts (key : string * nat) (counts : list nat) : M unit := fun s =>
  (Ok tt, State (st_world s) (_FAT_SCRATCH_CACHE s) (_FAT_GROUPED_CACHE s) (<[key := counts]> (_FAT_COUNT_CACHE s))).

Definition str_device (d : device) : string :=
  match dev_index d with None => dev_type d | Some i => (dev_type d ++ ":" ++ show i)%string end.

Section moe.
Context {W : Type} `{Inhabited W} (half : W -> W) `{Torch}.
Context (env : environ) (img : image) (limit : Q).

Abbreviation rows := (list (contribution W)).

(** ** The fused kernel *)

(** A row of expert [e]: the pointer tables decide what is read. *)
Definition kernel_row (ptrs : ptr_tables) (k : Z) (e token : nat) : row_out :=
  let c := (k, true, false) in
  RowOut limit token
    (Matrix (gate_suh ptrs !!! e) (gate_trellis ptrs !!! e) (gate_svh ptrs !!! e) c)
    (Matrix (up_suh ptrs !!! e) (up_trellis ptrs !!! e) (up_svh ptrs !!! e) c)
    (Matrix (down_suh ptrs !!! e) (down_trellis ptrs !!! e) (down_svh ptrs !!! e) c).

(** The rows of one expert: [token_sorted[start ..]], [weight_sorted[start ..]]. *)
Definition span_rows (row : nat -> row_out) (token_sorted : list nat) (weight_sorted : list W)
    (start count : nat) : rows :=
  map (fun i => Contribution (token_sorted !!! i) (weight_sorted !!! i) (Some (row (token_sorted !!! i))))
    (seq start count).

(** The loop over the experts; [max_tokens] is the row count of the temps. *)
Fixpoint moe_spans (ptrs : ptr_tables) (k : Z) (max_tokens : nat) (token_sorted : list nat)
    (weight_sorted : list W) (expert_idx start : nat) (expert_count : list nat) : rows :=
  match expert_count with
  | [] => []
  | token_count :: expert_count =>
      (if (token_count =? 0) || (max_tokens <? token_count) then []
       else span_rows (kernel_row ptrs k expert_idx) token_sorted weight_sorted start token_count)
      ++ moe_spans ptrs k max_tokens token_sorted weight_sorted (S expert_idx) (start + token_count) expert_count
  end.

(** [exl3_moe], with its check of the tables. *)
Definition _exl3_moe_launch (expert_count token_sorted : list nat) (weight_sorted : list W)
    (temps : nat) (ptrs : ptr_tables) (k : Z) : res rows :=
  let num_experts := length expert_count - 1 in
  if negb (length (gate_trellis ptrs) =? num_experts) then Raise RuntimeError
  else Ok (moe_spans ptrs k temps token_sorted weight_sorted 0 0 (take num_experts expert_count)).

(** *** Row tiles *)

(** One tile: the counts and the sources of [_exl3_moe_row_tiles]' loop body. *)
Definition tile_counts (counts : list nat) (tile row0 : nat) : list nat :=
  map (fun c => Nat.min tile (c - row0)) counts.

Definition tile_sources (counts : list nat) (prefix : list nat) (tile row0 : nat) : list nat :=
  let tc := tile_counts counts tile row0 in
  let cum := cumsum tc in
  map (fun idx =>
         let expert_id := searchsorted_right cum idx in
         let local_row := idx - (cum !!! expert_id - tc !!! expert_id) in
         prefix !!! expert_id + row0 + local_row)
      (seq 0 (sum tc)).

Definition _exl3_moe_row_tiles (counts token_sorted : list nat) (weight_sorted : list W)
    (temps : nat) (ptrs : ptr_tables) (k : Z) (max_rows : nat) : res rows :=
  let n_exp := length counts in
  let tile := temps in
  let n_tiles := (max_rows + tile - 1) / tile in
  let prefix := 0 :: (if 1 <? n_exp then cumsum (take (n_exp - 1) counts) else []) in
  launches ← mapM (fun t =>
    let row0 := t * tile in
    if sum (tile_counts counts tile row0) =? 0 then Ok []
    else let src := tile_sources counts prefix tile row0 in
         _exl3_moe_launch (tile_counts counts tile row0 ++ [0]) (index_select token_sorted src)
           (index_select weight_sorted src) temps ptrs k) (seq 0 n_tiles);
  mret (concat launches).

(** ** The fallbacks *)

(** [(token, id, weight)] in row-major order. *)
Definition slots (ids : list (list Z)) (weights : list (list W)) : list (nat * Z * W) :=
  concat (imap (fun t p => map (fun q => (t, fst q, snd q)) (zip (fst p) (snd p))) (zip ids weights)).

(** [apply_exl3_python_loop]: the local id the loop uses for [e_raw >= 0]. *)
Definition loop_id (data : option (list Z)) (e_raw : nat) : Z :=
  match data with
  | None => Z.of_nat e_raw
  | Some m => if e_raw <? length m then m !!! e_raw else Z.of_nat e_raw
  end.

Definition apply_exl3_python_loop (ids : list (list Z)) (weights : list (list W)) (packs : list pack)
    (data : option (list Z)) (only_experts : option (list nat)) : rows :=
  concat (map (fun raw =>
    if (raw <? 0)%Z then [] else
    let e := loop_id data (Z.to_nat raw) in
    if (e <? 0)%Z then [] else
    match packs !! Z.to_nat e with
    | None => []
    | Some p =>
        if match only_experts with None => false | Some l => negb (bool_decide (Z.to_nat e ∈ l)) end then []
        else map (fun s => job limit p (fst (fst s)) (snd s))
               (base.filter (fun s => snd (fst s) = raw) (slots ids weights))
    end) (unique (concat ids))).

(** [apply_exl3_sorted_fat] from expert [e] at [offset]. *)
Fixpoint sorted_fat_from (token_sorted : list nat) (weight_sorted : list W) (packs : list pack) (cap : nat)
    (e offset : nat) (counts_host : list nat) : res rows :=
  match counts_host with
  | [] => Ok []
  | n_rows :: counts_host =>
      let start := offset in
      let offset := offset + n_rows in
      if n_rows <=? cap then sorted_fat_from token_sorted weight_sorted packs cap (S e) offset counts_host
      else match packs !! e with
           | None => Raise IndexError
           | Some p =>
               rest ← sorted_fat_from token_sorted weight_sorted packs cap (S e) offset counts_host;
               mret (map (fun q => job limit p (fst q) (snd q))
                       (zip (slice start offset token_sorted) (slice start offset weight_sorted)) ++ rest)
           end
  end.
Definition apply_exl3_sorted_fat token_sorted weight_sorted counts_host packs cap : res rows :=
  sorted_fat_from token_sorted weight_sorted packs cap 0 0 counts_host.

(** *** Batched: persistent buffers, the gate's scales for both halves *)

Definition bit_length (n : Z) : Z := if (n =? 0)%Z then 0%Z else (Z.log2 (Z.abs n) + 1)%Z.

Definition fat_scratch_configured : res Z :=
  let raw := environ_get env "EXL3_FAT_SCRATCH_ROWS" (environ_get env "MAX_NUM_BATCHED_TOKENS" "0") in
  if String.eqb raw "" then Ok 0%Z
  else match parse_int raw with Some n => Ok n | None => Raise ValueError end.

(** [_fat_scratch]: the capacity of the buffers it returns. *)
Definition _fat_scratch (dev : device) (n_rows : nat) (g : linear) (k_words : Z) : M nat :=
  configured ← lift fat_scratch_configured;
  let needed := Z.max 256 (Z.max (Z.of_nat n_rows) configured) in
  let capacity := Z.to_nat (Z.shiftl 1 (bit_length (needed - 1))) in
  let key := (str_device dev, in_features g, out_features g, K g, k_words) in
  s ← get;
  match _FAT_SCRATCH_CACHE s !! key with
  | Some have => if n_rows <=? have then mret have else _ ← set_scratch key capacity; mret capacity
  | None => _ ← set_scratch key capacity; mret capacity
  end.

Definition batched_row (p : pack) (token : nat) : row_out :=
  RowOut limit token (forward (gate p))
    (Matrix (suh (gate p)) (trellis (up p)) (svh (up p)) (codec (gate p)))
    (forward (down p)).

Definition require {A} (o : option A) (e : exn) : M A :=
  lift (match o with Some a => Ok a | None => Raise e end).
Definition raise_if (b : bool) (e : exn) : M unit := lift (if b then Raise e else Ok tt).

Fixpoint batched_fat_from (ext : extension) (dev : device) (k_words : Z) (token_sorted : list nat)
    (weight_sorted : list W) (packs : list pack) (cap : nat) (use_kernel : bool)
    (e offset : nat) (counts_host : list nat) : M rows :=
  match counts_host with
  | [] => mret []
  | n_rows :: counts_host =>
      let start := offset in
      let offset := offset + n_rows in
      let rest := batched_fat_from ext dev k_words token_sorted weight_sorted packs cap use_kernel (S e) offset counts_host in
      if n_rows <=? cap then rest
      else
        p ← require (packs !! e) IndexError;
        capacity ← _fat_scratch dev n_rows (gate p) k_words;
        _ ← raise_if (use_kernel && negb (hasattr ext "exl3_fat_gemm")) RuntimeError;
        _ ← raise_if (use_kernel && negb (hasattr ext "exl3_fat_gemm_scatter")) RuntimeError;
        rest ← rest;
        mret (map (fun q => Contribution (fst q) (snd q) (Some (batched_row p (fst q))))
                (take capacity (zip (slice start offset token_sorted) (slice start offset weight_sorted))) ++ rest)
  end.
Definition apply_exl3_batched_fat (dev : device) (k_words : Z) token_sorted weight_sorted counts_host packs cap
    (use_kernel : bool) : M rows :=
  ext ← require (exllamav3_ext img) OtherException;
  batched_fat_from ext dev k_words token_sorted weight_sorted packs cap use_kernel 0 0 counts_host.

(** *** Grouped: device-side tables *)

Definition GROUPED_SCRATCH_MIN_ROWS : Z := 256.

Definition grouped_scratch_capacity (n_rows scratch_rows : Z) : Z :=
  let needed := Z.max GROUPED_SCRATCH_MIN_ROWS n_rows in
  let floor := Z.max 0 scratch_rows in
  Z.max needed floor.

Definition grouped_scratch_bytes_for (hidden intermediate n_rows : Z) : Z :=
  (n_rows * hidden * 2 + n_rows * intermediate * 2)%Z.

(** The growing part of [_grouped_scratch]; fresh memory is unwritten. *)
Definition grow (key : string * nat * nat) (needed : Z) (hidden intermediate : nat) : M buffers :=
  _ ← raise_if (stream_capturing img) RuntimeError;
  let capacity := Z.to_nat needed in
  let b := Buffers (replicate capacity None) (replicate capacity None) in
  _ ← set_grouped key b;
  _ ← update (fun w => set_grouped_bytes
        (<[key := (needed * Z.of_nat hidden * 2 + needed * Z.of_nat intermediate * 2)%Z]> (w_grouped_bytes w)) w);
  _ ← update (fun w => set_diag (grow_bytes (sum_bytes (w_grouped_bytes w))) w);
  mret b.

(** [_grouped_scratch]: grown outside of graph capture, never shrunk. *)
Definition _grouped_scratch (dev : device) (n_rows hidden intermediate : nat) : M buffers :=
  scratch_rows ← lift (_grouped_scratch_rows_env env);
  let needed := grouped_scratch_capacity (Z.of_nat n_rows) scratch_rows in
  let key := (str_device dev, hidden, intermediate) in
  s ← get;
  match _FAT_GROUPED_CACHE s !! key with
  | Some b =>
      if (needed <=? Z.of_nat (length (b_h13 b)))%Z then mret b
      else grow key needed hidden intermediate
  | None => grow key needed hidden intermediate
  end.

(** [_excl_cumsum]: the exclusive and the inclusive prefix sums. *)
Definition _excl_cumsum (x : list nat) : list nat * list nat :=
  let inclusive := cumsum x in (zip_with Nat.sub inclusive x, inclusive).

Record fat_tables := FatTables {
  seg_expert : list nat; seg_row0 : list nat; seg_rows : list nat;
  num_segs : nat; num_rows : nat;
  row_expert : list nat; row_token : list nat; row_weight : list W
}.

Definition build_grouped_fat_tables (counts : list nat) (cap : nat) (token_sorted : list nat)
    (weight_sorted : list W) (rows_cap tile_rows : nat) : fat_tables :=
  let n_exp := length counts in
  let fat_rows := map (fun c => if cap <? c then c else 0) counts in
  let '(row_off, row_cum) := _excl_cumsum fat_rows in
  let '(sorted_off, _) := _excl_cumsum counts in
  let tiles := map (fun f => (f + (tile_rows - 1)) / tile_rows) fat_rows in
  let '(tile_off, tile_cum) := _excl_cumsum tiles in
  let max_segs := (rows_cap + tile_rows - 1) / tile_rows + n_exp in
  let seg := seq 0 max_segs in
  let e := map (fun s => Nat.min (searchsorted_right tile_cum s) (n_exp - 1)) seg in
  let local_tile := zip_with (fun s e => s - tile_off !!! e) seg e in
  let seg_row0 := zip_with (fun e t => row_off !!! e + t * tile_rows) e local_tile in
  let seg_rows := zip_with (fun e t => Nat.min (fat_rows !!! e - t * tile_rows) tile_rows) e local_tile in
  let r := seq 0 rows_cap in
  let re := map (fun r => Nat.min (searchsorted_right row_cum r) (n_exp - 1)) r in
  let src := zip_with (fun r re => Nat.min (sorted_off !!! re + (r - row_off !!! re)) (rows_cap - 1)) r re in
  FatTables e seg_row0 seg_rows (default 0 (last tile_cum)) (default 0 (last row_cum))
    re (index_select token_sorted src) (index_select weight_sorted src).

(** [fm_gather_kernel]: a row reads its token and the gate scales of its expert. *)
Definition fm_gather (tables : fat_tables) (suh_ptrs : list Z) (h13 : list (option h13_row))
    : list (option h13_row) :=
  imap (fun row old => if row <? num_rows tables
                       then Some (H13 (row_token tables !!! row) (suh_ptrs !!! (row_expert tables !!! row)))
                       else old) h13.

(** The codec the grouped kernels decode with: K = 4, MCG. *)
Definition grouped_codec : Z * bool * bool := (4%Z, true, false).

(** Row [r] of segment [seg] in [fm_gateup_kernel]. *)
Definition gateup_row (ptrs : ptr_tables) (e : nat) (x : option h13_row) : option h2_row :=
  match x with
  | None => None
  | Some x => Some (H2 (h13_token x) limit
                      (Matrix (h13_suh x) (gate_trellis ptrs !!! e) (gate_svh ptrs !!! e) grouped_codec)
                      (Matrix (h13_suh x) (up_trellis ptrs !!! e) (up_svh ptrs !!! e) grouped_codec)
                      (down_suh ptrs !!! e))
  end.

(** The rows of segment [seg]. *)
Definition seg_span (tables : fat_tables) (seg : nat) : list nat :=
  seq (seg_row0 tables !!! seg) (seg_rows tables !!! seg).

Definition fm_gateup (tables : fat_tables) (ptrs : ptr_tables) (h13 : list (option h13_row))
    (h2 : list (option h2_row)) : list (option h2_row) :=
  fold_left (fun h2 seg =>
    let e := seg_expert tables !!! seg in
    fold_left (fun h2 row => <[row := gateup_row ptrs e (h13 !!! row)]> h2) (seg_span tables seg) h2)
    (seq 0 (num_segs tables)) h2.

(** Row [frow] of segment [seg] in [fm_down_kernel]. *)
Definition down_row (ptrs : ptr_tables) (e : nat) (x : option h2_row) : option row_out :=
  match x with
  | None => None
  | Some x => Some (RowOut (h2_limit x) (h2_token x) (h2_gate x) (h2_up x)
                      (Matrix (h2_down_suh x) (down_trellis ptrs !!! e) (down_svh ptrs !!! e) grouped_codec))
  end.

Definition fm_down (tables : fat_tables) (ptrs : ptr_tables) (h2 : list (option h2_row)) : rows :=
  concat (map (fun seg =>
    let e := seg_expert tables !!! seg in
    map (fun frow => Contribution (row_token tables !!! frow) (row_weight tables !!! frow)
                       (down_row ptrs e (h2 !!! frow))) (seg_span tables seg))
    (seq 0 (num_segs tables))).

(** Writing a view [b[:n]] back into its buffer. *)
Definition write_view {A} (view buffer : list A) : list A := view ++ drop (length view) buffer.

Definition apply_exl3_grouped_fat (xh out counts_meta : meta) (hidden : nat) (counts : list nat)
    (token_sorted : list nat) (weight_sorted : list W) (l : moe_layer) (cap : nat) : M rows :=
  s ← get;
  let '(found, cache) := load_fat_moe_ext img (w_ext_cache (st_world s)) in
  _ ← update (set_ext_cache cache);
  ext ← require found RuntimeError;
  ptrs ← require (_exl3_ptrs l) TypeError;
  let dev := param_device (ml_static l) "w13_trellis" in
  _ ← raise_if (negb (bool_decide (t_device xh = dev)) || negb (bool_decide (t_device out = dev))
                || negb (bool_decide (t_device counts_meta = dev))) RuntimeError;
  _ ← raise_if (negb (t_contiguous xh && t_contiguous out && bool_decide (t_dtype out = Float32))) RuntimeError;
  let intermediate := Z.to_nat (default 0%Z (_exl3_intermediate_local (ml_static l))) in
  let rows_cap := length token_sorted in
  scratch ← _grouped_scratch dev rows_cap hidden intermediate;
  let h13 := take rows_cap (b_h13 scratch) in
  let h2 := take rows_cap (b_h2 scratch) in
  let tile_gu := tile_rows_gateup ext in
  let tile_dn := tile_rows_down ext in
  let tg := build_grouped_fat_tables counts cap token_sorted weight_sorted rows_cap tile_gu in
  let td := if tile_dn =? tile_gu then tg
            else build_grouped_fat_tables counts cap token_sorted weight_sorted rows_cap tile_dn in
  let h13 := fm_gather tg (gate_suh ptrs) h13 in
  let h2 := fm_gateup tg ptrs h13 h2 in
  let added := fm_down td ptrs h2 in
  _ ← set_grouped (str_device dev, hidden, intermediate)
        (Buffers (write_view h13 (b_h13 scratch)) (write_view h2 (b_h2 scratch)));
  _ ← update (set_diag count_grouped);
  mret added.

(** ** The dispatch *)

Definition when_log (m : M unit) : M unit := if fat_expert_log_enabled env then m else mret tt.

(** [x2d]: the hidden states' device and width; [ids] and [weights] row by row. *)
Definition apply_exl3_fused_moe (x_device : device) (hidden : nat) (ids : list (list Z))
    (weights : list (list W)) (l : moe_layer) (emap : option expert_map) : M rows :=
  ext ← require (exllamav3_ext img) OtherException;
  let tokens := length ids in
  let n_exp := length (inners l) in
  ptrs ← require (_exl3_ptrs l) RuntimeError;
  temps ← require (_exl3_fused_temps l) RuntimeError;
  local ← lift (map_topk_to_local x_device ids n_exp emap);
  let topk := length (default [] (last ids)) in
  let flat_token := repeat_tokens tokens topk in
  let flat_weight := map half (concat weights) in
  let order := argsort local in
  let token_sorted := index_select flat_token order in
  let weight_sorted := index_select flat_weight order in
  let expert_count := scatter_add_ones (S n_exp) local in
  let out_meta := Meta x_device true Float32 in
  let xh_meta := Meta x_device true Half in
  let counts_meta := Meta x_device true Long in
  let counts := take n_exp expert_count in
  _ ← raise_if (negb (hasattr ext "exl3_moe")) AttributeError;
  let k := default 4%Z (_exl3_k l) in
  let cap := temps in
  let launch := lift (_exl3_moe_launch expert_count token_sorted weight_sorted temps ptrs k) in
  _ ← update (set_last (ml_id l) ("none", "no_fat_experts")%string);
  if tokens <=? cap then launch
  else
    _ ← update (set_diag count_prefill);
    let use_row_tiles := fused_moe_row_tile_enabled env in
    if grouped_fat_enabled env && negb use_row_tiles
       && match ml_resolution l with Some r => String.eqb (_exl3_fat_effective_tier r) "grouped" | None => false end
    then
      thin ← launch;
      fat ← apply_exl3_grouped_fat xh_meta out_meta counts_meta hidden counts token_sorted weight_sorted l cap;
      _ ← update (_record_exl3_fat_tier (ml_id l) "grouped" "grouped_ok");
      _ ← when_log (on_world (record_exl3_fat_expert_stats env counts None));
      mret (thin ++ fat)
    else
      let want_fat_kernel := fat_kernel_enabled env || grouped_fat_enabled env in
      let want_batched_fat := batched_fat_fallback_enabled env || want_fat_kernel in
      let use_sorted_fat := sorted_fat_fallback_enabled env || want_batched_fat in
      let use_batched_fat := want_batched_fat && _exl3_shared_w13_suh (ml_static l) in
      let use_fat_kernel := use_batched_fat && want_fat_kernel in
      '(launched, counts_host) ←
        (if use_batched_fat && negb use_row_tiles then
           let key := (str_device x_device, length counts) in
           _ ← set_counts key counts;
           thin ← launch;
           s ← get;
           mret (Some thin, _FAT_COUNT_CACHE s !! key)
         else if use_sorted_fat then mret (None, Some counts)
         else mret (None, None));
      let max_rows := list_max (default counts counts_host) in
      _ ← when_log (on_world (record_exl3_fat_expert_stats env counts (Some max_rows)));
      if max_rows <=? cap then
        _ ← update (set_diag count_thin);
        _ ← update (_record_exl3_fat_reason "thin_only");
        match launched with Some thin => mret thin | None => launch end
      else if use_row_tiles then
        _ ← update (set_diag count_row_tile);
        _ ← update (_record_exl3_fat_tier (ml_id l) "row_tile" "row_tile_preempts_fat");
        lift (_exl3_moe_row_tiles counts token_sorted weight_sorted temps ptrs k max_rows)
      else
        thin ← match launched with Some thin => mret thin | None => launch end;
        if use_batched_fat then
          _ ← update (if use_fat_kernel then _record_exl3_fat_tier (ml_id l) "kernel" "kernel_ok"
                      else _record_exl3_fat_tier (ml_id l) "batched" "batched_ok");
          counts_host ← require counts_host AssertionError;
          fat ← apply_exl3_batched_fat x_device (default 0%Z (_exl3_k_words (ml_static l)))
                  token_sorted weight_sorted counts_host (inners l) cap use_fat_kernel;
          mret (thin ++ fat)
        else if use_sorted_fat then
          _ ← update (_record_exl3_fat_tier (ml_id l) "sorted"
                        (if want_batched_fat then "degraded_shared_suh" else "sorted_ok"));
          counts_host ← require counts_host AssertionError;
          fat ← lift (apply_exl3_sorted_fat token_sorted weight_sorted counts_host (inners l) cap);
          mret (thin ++ fat)
        else
          _ ← update (_record_exl3_fat_tier (ml_id l) "legacy" "legacy_default");
          let fat := base.filter (fun e => cap < counts !!! e) (seq 0 (length counts)) in
          if bool_decide (fat = []) then mret thin
          else mret (thin ++ apply_exl3_python_loop ids weights (inners l) (em_data <$> emap) (Some fat)).

(** [apply_exl3_experts]; the answer also says which path ran ([_exl3_last_apply]). *)
Definition apply_exl3_experts (x_device : device) (hidden : nat) (ids : list (list Z))
    (weights : list (list W)) (l : moe_layer) (emap : option expert_map) (fused : option bool)
    : M (rows * string) :=
  if bool_decide (inners l = []) then lift (Raise RuntimeError)
  else
    let emap := pin_exl3_expert_map emap x_device in
    let have_ptrs := match _exl3_ptrs l with Some _ => true | None => false end in
    _ ← raise_if (bool_decide (fused = Some true) && negb have_ptrs) RuntimeError;
    let use_fused := match fused with None => fused_moe_enabled env | Some b => b end && have_ptrs in
    let use_fused := use_fused && match exllamav3_ext img with Some ext => hasattr ext "exl3_moe" | None => false end in
    if use_fused then
      out ← apply_exl3_fused_moe x_device hidden ids weights l emap;
      mret (out, "fused"%string)
    else
      mret (apply_exl3_python_loop ids weights (inners l) (em_data <$> emap) None, "loop"%string).
End moe.
