(* ===== verification/Exl3Rows.v ===== *)
(** * What each expert path adds to the output

    The paths of [Exl3Moe] on rows sorted by expert: the fused kernel, its row
    tiles, and the sorted, batched and grouped fallbacks each add the rows of
    the experts they are meant for, once each, in terms of the groups the sort
    left. *)
From Stdlib Require Import ZArith QArith Lia.
From stdpp Require Import base list strings gmap sorting.
From S2P Require Import Prelude PyStr Exl3Tier Segments Exl3Moe.
Open Scope nat_scope.

#[export] Instance linear_inhabited : Inhabited linear := populate (Linear 0 0 0 0 false false 0 0).
#[export] Instance pack_inhabited : Inhabited pack := populate (Pack inhabitant inhabitant inhabitant).

(** The row of token and weight [q], computed by [row]. *)
Definition mk {W} (row : nat -> row_out) (q : nat * W) : contribution W :=
  Contribution (fst q) (snd q) (Some (row (fst q))).

(** The tables of [build_exl3_fused_state], the alias of the up scales included. *)
Definition tables_of (packs : list pack) (aliased : bool) : ptr_tables :=
  Ptrs (map (fun p => trellis (gate p)) packs) (map (fun p => suh (gate p)) packs) (map (fun p => svh (gate p)) packs)
    (map (fun p => trellis (up p)) packs)
    (if aliased then map (fun p => suh (gate p)) packs else map (fun p => suh (up p)) packs)
    (map (fun p => svh (up p)) packs)
    (map (fun p => trellis (down p)) packs) (map (fun p => suh (down p)) packs) (map (fun p => svh (down p)) packs).

(** The gate and the up matrix of every expert have the same input scales. *)
Definition same_suh (packs : list pack) : Prop := Forall (fun p => suh (gate p) = suh (up p)) packs.
(** Every matrix has the codec the kernel is told. *)
Definition same_codec (packs : list pack) (k : Z) : Prop :=
  Forall (fun l => codec l = (k, true, false)) (handles packs).

Lemma lookup_total_map {A B} `{Inhabited A} `{Inhabited B} (f : A -> B) l i : i < length l -> map f l !!! i = f (l !!! i).
Proof. intros. by apply list_lookup_total_fmap. Qed.

Lemma handles_codec packs k e : same_codec packs k -> e < length packs ->
  codec (gate (packs !!! e)) = (k, true, false) /\ codec (up (packs !!! e)) = (k, true, false) /\
  codec (down (packs !!! e)) = (k, true, false).
Proof.
  intros Hc He. unfold same_codec in Hc. rewrite Forall_forall in Hc.
  assert (Hin : forall l, l ∈ [gate (packs !!! e); up (packs !!! e); down (packs !!! e)] -> l ∈ handles packs).
  { intros l Hl. unfold handles. apply list_elem_of_In, in_concat.
    exists [gate (packs !!! e); up (packs !!! e); down (packs !!! e)]. split; [|by apply list_elem_of_In].
    apply list_elem_of_In, list_elem_of_fmap. exists (packs !!! e). split; [done |]. by apply list_elem_of_lookup_total_2. }
  split_and!; apply Hc, Hin; repeat constructor.
Qed.

Section rows.
Context {W : Type} `{Inhabited W} `{TorchLaws}.
Context (env : environ) (img : image) (limit : Q).

(** The kernel reads expert [e]'s own matrices. *)
Lemma kernel_row_expert packs k aliased e token : same_codec packs k -> (aliased = true -> same_suh packs) ->
  e < length packs -> kernel_row limit (tables_of packs aliased) k e token = expert_row limit (packs !!! e) token.
Proof.
  intros Hc Ha He. destruct (handles_codec packs k e Hc He) as (Eg & Eu & Ed).
  unfold kernel_row, expert_row, forward, tables_of. simpl. rewrite Eg, Eu, Ed. destruct aliased.
  - specialize (Ha eq_refl). unfold same_suh in Ha. rewrite Forall_lookup in Ha.
    rewrite !lookup_total_map by done. rewrite <- (Ha e (packs !!! e)); [done |]. by apply list_lookup_lookup_total_lt.
  - by rewrite !lookup_total_map by done.
Qed.

Lemma batched_row_expert p token : suh (gate p) = suh (up p) -> codec (gate p) = codec (up p) ->
  batched_row limit p token = expert_row limit p token.
Proof. intros Hs Hc. unfold batched_row, expert_row, forward. by rewrite <- Hs, <- Hc. Qed.

(** ** Prefix sums and the search in them *)

Lemma cumsum_offset (c : nat -> nat) m e : e < m -> cumsum (map c (seq 0 m)) !!! e = offset c (S e).
Proof.
  intros He. rewrite cumsum_lookup by (rewrite length_map, length_seq; lia). unfold offset.
  rewrite firstn_map, take_seq. do 3 f_equal. lia.
Qed.

Lemma cumsum_seq_length (c : nat -> nat) m : length (cumsum (map c (seq 0 m))) = m.
Proof. by rewrite cumsum_length, length_map, length_seq. Qed.

(** The search finds the span an index lies in. *)
Lemma searchsorted_span (c : nat -> nat) m e j : e < m -> j < c e ->
  searchsorted_right (cumsum (map c (seq 0 m))) (offset c e + j) = e.
Proof.
  intros He Hj. set (a := cumsum (map c (seq 0 m))).
  assert (Hl : length a = m) by apply cumsum_seq_length.
  assert (Ha : nondecreasing a).
  { intros i k Hik Hk. subst a. rewrite !cumsum_offset by lia. apply offset_mono. lia. }
  set (s := searchsorted_right a (offset c e + j)). destruct (lt_eq_lt_dec s e) as [[Hs|Hs]|Hs]; [|done |].
  - assert (Hgt : offset c e + j < a !!! s) by (apply searchsorted_gt; [lia | done]).
    subst a. rewrite cumsum_offset in Hgt by lia. pose proof (offset_mono c (S s) e ltac:(lia)). lia.
  - assert (Hle : a !!! e <= offset c e + j) by (by apply searchsorted_le).
    subst a. rewrite cumsum_offset in Hle by lia. rewrite offset_S in Hle. lia.
Qed.

(** [_excl_cumsum]'s exclusive sums are the offsets. *)
Lemma excl_cumsum_lookup (c : nat -> nat) m e : e < m ->
  zip_with Nat.sub (cumsum (map c (seq 0 m))) (map c (seq 0 m)) !!! e = offset c e.
Proof.
  intros He. apply list_lookup_total_correct. rewrite lookup_zip_with.
  rewrite (list_lookup_lookup_total_lt (cumsum _)) by (rewrite cumsum_seq_length; lia).
  rewrite list_lookup_fmap, lookup_seq_lt by done. simpl. rewrite cumsum_offset, offset_S by done. f_equal. lia.
Qed.

Lemma last_cumsum (c : nat -> nat) m : default 0 (last (cumsum (map c (seq 0 m)))) = offset c m.
Proof.
  rewrite last_lookup, cumsum_seq_length. destruct m as [|m].
  - by rewrite lookup_ge_None_2 by (by rewrite cumsum_seq_length).
  - cbn [pred]. rewrite (list_lookup_lookup_total_lt (cumsum _)) by (rewrite cumsum_seq_length; lia). cbn [default].
    apply cumsum_offset. lia.
Qed.

(** ** The batched scratch *)

Lemma bit_length_spec n : (0 <= n -> n < Z.shiftl 1 (bit_length n))%Z.
Proof.
  intros Hn. unfold bit_length. rewrite Z.shiftl_mul_pow2 by (case_match; lia || (pose proof (Z.log2_nonneg (Z.abs n)); lia)).
  destruct (Z.eqb_spec n 0); [lia |]. rewrite Z.abs_eq by lia. pose proof (Z.log2_spec n). unfold Z.succ in *. lia.
Qed.

(** What the caches may change: not the counters, not the grouped buffers. *)
Definition same_but_scratch (s s' : state) : Prop :=
  st_world s' = st_world s /\ _FAT_GROUPED_CACHE s' = _FAT_GROUPED_CACHE s.

Lemma fat_scratch_fits dev n_rows l k_words conf s : fat_scratch_configured env = Ok conf ->
  exists capacity s', _fat_scratch env dev n_rows l k_words s = (Ok capacity, s') /\ n_rows <= capacity /\
    same_but_scratch s s'.
Proof.
  intros Hconf. unfold _fat_scratch, lift. rewrite Hconf. simpl.
  set (needed := Z.max 256 (Z.max (Z.of_nat n_rows) conf)).
  set (capacity := Z.to_nat (Z.shiftl 1 (bit_length (needed - 1)))).
  assert (Hcap : n_rows <= capacity).
  { pose proof (bit_length_spec (needed - 1) ltac:(lia)). subst capacity. lia. }
  unfold mbind, M_bind, get, mret, M_ret, set_scratch. simpl.
  destruct (_FAT_SCRATCH_CACHE s !! _) as [have|]; simpl; [destruct (Nat.leb_spec n_rows have); simpl |];
    eexists _, _; (split; [reflexivity | done]).
Qed.

(** ** Rows sorted by expert *)

Section sorted.
Context (g : nat -> list (nat * W)) (n : nat) (rest : list (nat * W)).
Context (token_sorted : list nat) (weight_sorted : list W).
Context (Hlen : length token_sorted = length weight_sorted).
Context (Hzip : zip token_sorted weight_sorted = groups g n ++ rest).

Abbreviation cnt := (fun e => length (g e)).

Lemma sorted_lookup e j q : e < n -> g e !! j = Some q ->
  token_sorted !! (offset cnt e + j) = Some (fst q) /\ weight_sorted !! (offset cnt e + j) = Some (snd q).
Proof.
  intros He Hq. assert (Hj : j < length (g e)) by by apply lookup_lt_Some in Hq.
  pose proof (groups_lookup_app g n rest e j He Hj) as E. rewrite <- Hzip, Hq in E.
  apply lookup_zip_with_Some in E as (t & w & -> & -> & ->). done.
Qed.

Lemma span_rows_group row e : e < n ->
  span_rows row token_sorted weight_sorted (offset cnt e) (length (g e)) = map (mk row) (g e).
Proof.
  intros He. unfold span_rows. apply list_eq. intros j. rewrite !list_lookup_fmap.
  destruct (decide (j < length (g e))) as [Hj|Hj].
  - rewrite lookup_seq_lt by done. destruct (lookup_lt_is_Some_2 (g e) j Hj) as [q Hq]. rewrite Hq. simpl.
    destruct (sorted_lookup e j q He Hq) as [Et Ew].
    by rewrite (list_lookup_total_correct _ _ _ Et), (list_lookup_total_correct _ _ _ Ew).
  - rewrite lookup_seq_ge by lia. by rewrite lookup_ge_None_2 by lia.
Qed.

Lemma slice_group e : e < n ->
  zip (slice (offset cnt e) (offset cnt e + length (g e)) token_sorted)
      (slice (offset cnt e) (offset cnt e + length (g e)) weight_sorted) = g e.
Proof.
  intros He. unfold slice. rewrite Nat.add_sub_swap, Nat.sub_diag by lia. simpl.
  apply list_eq. intros j. rewrite lookup_zip_with.
  destruct (decide (j < length (g e))) as [Hj|Hj].
  - rewrite !lookup_take_lt, !lookup_drop by done. destruct (lookup_lt_is_Some_2 (g e) j Hj) as [q Hq].
    destruct (sorted_lookup e j q He Hq) as [Et Ew]. rewrite Et, Ew, Hq. simpl. by destruct q.
  - rewrite !lookup_take_ge by lia. by rewrite (lookup_ge_None_2 (g e) j) by lia.
Qed.

(** A loop over the experts that keeps a running offset. *)
Lemma counts_from e m : e + S m = n -> map cnt (seq e (S m)) = length (g e) :: map cnt (seq (S e) m).
Proof. done. Qed.

Lemma moe_spans_groups ptrs k cap e m : e + m = n ->
  moe_spans limit ptrs k cap token_sorted weight_sorted e (offset cnt e) (map cnt (seq e m)) =
  concat (map (fun e => if cap <? length (g e) then [] else map (mk (kernel_row limit ptrs k e)) (g e)) (seq e m)).
Proof.
  revert e. induction m as [|m IH]; intros e He; [done |]. simpl. rewrite <- offset_S, IH by lia. f_equal.
  destruct (Nat.eqb_spec (length (g e)) 0) as [E0|E0]; simpl.
  - apply nil_length_inv in E0. rewrite E0. by case_match.
  - destruct (cap <? length (g e)); [done |]. apply span_rows_group. lia.
Qed.

(** The fused kernel adds the rows of the experts that fit its temps. *)
Lemma launch_groups ptrs k cap last : length (gate_trellis ptrs) = n ->
  _exl3_moe_launch limit (map cnt (seq 0 n) ++ [last]) token_sorted weight_sorted cap ptrs k =
  Ok (groups (fun e => if cap <? length (g e) then [] else map (mk (kernel_row limit ptrs k e)) (g e)) n).
Proof.
  intros Hn. unfold _exl3_moe_launch. rewrite length_app, length_map, length_seq. simpl.
  rewrite Nat.add_sub, Hn, Nat.eqb_refl. simpl. rewrite take_app_le, take_ge by (rewrite length_map, length_seq; lia).
  f_equal. by apply (moe_spans_groups ptrs k cap 0 n).
Qed.

Lemma sorted_fat_groups packs cap : length packs = n ->
  apply_exl3_sorted_fat limit token_sorted weight_sorted (map cnt (seq 0 n)) packs cap =
  Ok (groups (fun e => if cap <? length (g e) then map (mk (expert_row limit (packs !!! e))) (g e) else []) n).
Proof.
  intros Hn. unfold apply_exl3_sorted_fat, groups.
  cut (forall m e, e + m = n ->
    sorted_fat_from limit token_sorted weight_sorted packs cap e (offset cnt e) (map cnt (seq e m)) =
    Ok (concat (map (fun e => if cap <? length (g e) then map (mk (expert_row limit (packs !!! e))) (g e) else []) (seq e m)))).
  { intros Hc. by apply (Hc n 0). }
  induction m as [|m IH]; intros e He; [done |]. simpl. rewrite <- offset_S, IH by lia.
  rewrite Nat.ltb_antisym. destruct (length (g e) <=? cap); simpl; [done |].
  rewrite (list_lookup_lookup_total_lt packs e) by lia. simpl. rewrite offset_S, slice_group by lia. done.
Qed.

Lemma batched_fat_groups ext dev k_words packs cap use_kernel conf s : length packs = n ->
  fat_scratch_configured env = Ok conf -> exllamav3_ext img = Some ext ->
  (use_kernel = true -> hasattr ext "exl3_fat_gemm" = true /\ hasattr ext "exl3_fat_gemm_scatter" = true) ->
  Forall (fun p => suh (gate p) = suh (up p) /\ codec (gate p) = codec (up p)) packs ->
  exists s', apply_exl3_batched_fat env img limit dev k_words token_sorted weight_sorted (map cnt (seq 0 n)) packs cap use_kernel s
    = (Ok (groups (fun e => if cap <? length (g e) then map (mk (expert_row limit (packs !!! e))) (g e) else []) n), s') /\
    same_but_scratch s s'.
Proof.
  intros Hn Hconf Hext Hk Hp. unfold apply_exl3_batched_fat, require. rewrite Hext. simpl.
  unfold mbind at 1, M_bind at 1, lift at 1. unfold groups.
  cut (forall m e s, e + m = n -> exists s',
    batched_fat_from env limit ext dev k_words token_sorted weight_sorted packs cap use_kernel e (offset cnt e) (map cnt (seq e m)) s =
    (Ok (concat (map (fun e => if cap <? length (g e) then map (mk (expert_row limit (packs !!! e))) (g e) else []) (seq e m))), s')
    /\ same_but_scratch s s').
  { intros Hc. by apply (Hc n 0). }
  clear s. induction m as [|m IH]; intros e s He; [by exists s |]. cbn [map seq batched_fat_from concat].
  rewrite <- offset_S, Nat.ltb_antisym. destruct (length (g e) <=? cap); simpl; [by apply IH; lia |].
  assert (Hlt : e < length packs) by lia. pose proof (list_lookup_lookup_total_lt packs e Hlt) as Hpe.
  rewrite Hpe. unfold mbind, M_bind, require, lift at 1.
  destruct (fat_scratch_fits dev (length (g e)) (gate (packs !!! e)) k_words conf s Hconf) as (c & s1 & -> & Hc & Hs1).
  assert (Hb : forall name, name = "exl3_fat_gemm"%string \/ name = "exl3_fat_gemm_scatter"%string ->
             use_kernel && negb (hasattr ext name) = false).
  { intros name Hname. destruct use_kernel; [|done]. destruct (Hk eq_refl) as [E1 E2].
    destruct Hname as [->| ->]; [by rewrite E1 | by rewrite E2]. }
  unfold raise_if, lift. rewrite !Hb by auto.
  destruct (IH (S e) s1 ltac:(lia)) as (s2 & -> & Hs2). exists s2. split.
  - unfold mret, M_ret. rewrite offset_S, slice_group by lia. rewrite take_ge by lia. do 3 f_equal.
    rewrite Forall_lookup in Hp. destruct (Hp e _ Hpe) as [E1 E2].
    apply map_ext. intros q. unfold mk. by rewrite batched_row_expert.
  - destruct Hs1, Hs2. split; congruence.
Qed.

End sorted.

(** ** Row tiles *)

Section tiles.
Context (g : nat -> list (nat * W)) (n : nat) (rest : list (nat * W)).
Context (token_sorted : list nat) (weight_sorted : list W) (tile : nat).
Context (Hlen : length token_sorted = length weight_sorted).
Context (Hzip : zip token_sorted weight_sorted = groups g n ++ rest).
Abbreviation cnt := (fun e => length (g e)).

(** What tile [t] takes of each group. *)
Definition tile_group (t e : nat) : list (nat * W) := take tile (drop (t * tile) (g e)).

Lemma tile_counts_group t :
  tile_counts (map cnt (seq 0 n)) tile (t * tile) = map (fun e => length (tile_group t e)) (seq 0 n).
Proof.
  unfold tile_counts. rewrite map_map. apply map_ext. intros e. unfold tile_group. by rewrite length_take, length_drop.
Qed.

Lemma prefix_lookup e : e < n ->
  (0 :: (if 1 <? length (map cnt (seq 0 n)) then cumsum (take (length (map cnt (seq 0 n)) - 1) (map cnt (seq 0 n))) else []))
    !!! e = offset cnt e.
Proof.
  intros He. rewrite length_map, length_seq. destruct e as [|e]; [done |].
  destruct (Nat.ltb_spec 1 n); [|lia]. rewrite firstn_map, take_seq.
  change ((0 :: cumsum (map cnt (seq 0 (Nat.min (n - 1) n)))) !!! S e)
    with (cumsum (map cnt (seq 0 (Nat.min (n - 1) n))) !!! e).
  apply cumsum_offset. lia.
Qed.

Lemma tile_sources_groups t prefix : (forall e, e < n -> prefix !!! e = offset cnt e) ->
  tile_sources (map cnt (seq 0 n)) prefix tile (t * tile) =
  groups (fun e => map (fun j => offset cnt e + t * tile + j) (seq 0 (length (tile_group t e)))) n.
Proof.
  intros Hp. unfold tile_sources. rewrite tile_counts_group.
  set (c := fun e => length (tile_group t e)). fold (offset c n).
  apply (enum_spans c n _ (fun e j => offset cnt e + t * tile + j)). intros e j He Hj.
  rewrite searchsorted_span by done. rewrite cumsum_offset, Hp by done.
  rewrite lookup_total_map by (rewrite length_seq; lia). rewrite lookup_total_seq_lt by done. rewrite offset_S. simpl. lia.
Qed.

(** The rows of one tile, regrouped. *)
Lemma tile_zip t prefix : (forall e, e < n -> prefix !!! e = offset cnt e) ->
  let src := tile_sources (map cnt (seq 0 n)) prefix tile (t * tile) in
  zip (index_select token_sorted src) (index_select weight_sorted src) = groups (tile_group t) n.
Proof.
  intros Hp src. subst src. rewrite (tile_sources_groups t prefix Hp). unfold index_select.
  rewrite zip_with_fmap_l, zip_with_fmap_r, zip_with_diag.
  change (@fmap list list_fmap nat (nat * W)) with (@map nat (nat * W)).
  rewrite groups_map. apply groups_ext. intros e He. rewrite map_map.
  apply list_eq. intros j. rewrite list_lookup_fmap. destruct (decide (j < length (tile_group t e))) as [Hj|Hj].
  - rewrite lookup_seq_lt by done. simpl. unfold tile_group in *. rewrite length_take, length_drop in Hj.
    rewrite lookup_take_lt, lookup_drop by lia.
    destruct (lookup_lt_is_Some_2 (g e) (t * tile + j)) as [q Hq]; [lia |]. rewrite Hq.
    destruct (sorted_lookup g n rest token_sorted weight_sorted Hzip e _ q He Hq) as [Et Ew].
    rewrite Nat.add_assoc in Et, Ew.
    rewrite (list_lookup_total_correct _ _ _ Et), (list_lookup_total_correct _ _ _ Ew). by destruct q.
  - rewrite lookup_seq_ge by lia. by rewrite lookup_ge_None_2 by lia.
Qed.

Lemma mapM_groups {A} (f : nat -> res (list A)) (h : nat -> list A) m : (forall t, t < m -> f t = Ok (h t)) ->
  mapM f (seq 0 m) = Ok (map h (seq 0 m)).
Proof.
  intros Hf. apply mapM_Ok, Forall2_fmap_r, Forall_Forall2_diag, Forall_forall. intros t Ht%elem_of_seq. apply Hf. lia.
Qed.

(** Row by row the tiles are the whole of every group. *)
Lemma row_tiles_groups ptrs k max_rows : 0 < tile -> length (gate_trellis ptrs) = n ->
  (forall e, e < n -> length (g e) <= max_rows) ->
  exists out, _exl3_moe_row_tiles limit (map cnt (seq 0 n)) token_sorted weight_sorted tile ptrs k max_rows = Ok out /\
    out ≡ₚ groups (fun e => map (mk (kernel_row limit ptrs k e)) (g e)) n.
Proof.
  intros Ht Hn Hmax. unfold _exl3_moe_row_tiles.
  match goal with |- context[tile_sources _ ?p _ _] => set (prefix := p) end. assert (Hp : forall e, e < n -> prefix !!! e = offset cnt e) by apply prefix_lookup.
  set (h := fun t => groups (fun e => map (mk (kernel_row limit ptrs k e)) (tile_group t e)) n).
  rewrite (mapM_groups _ h).
  - simpl. eexists. split; [reflexivity |]. fold (groups h ((max_rows + tile - 1) / tile)). subst h.
    rewrite groups_swap. apply groups_Permutation. intros e He.
    rewrite <- groups_map. apply reflexive_eq. f_equal. apply tiles_of_list.
    pose proof (ceil_mul max_rows tile Ht). specialize (Hmax e He). replace (max_rows + tile - 1) with (max_rows + (tile - 1)) by lia. lia.
  - intros t _. rewrite tile_counts_group. destruct (Nat.eqb_spec (sum (map (fun e => length (tile_group t e)) (seq 0 n))) 0) as [E|E].
    + f_equal. subst h. simpl. symmetry. apply nil_length_inv. rewrite groups_length.
      rewrite <- E. apply offset_ext. intros. by rewrite length_map.
    + pose proof (tile_zip t prefix Hp) as Hz. simpl in Hz.
      rewrite (launch_groups (tile_group t) n [] _ _) with (last := 0); [| | |done].
      * f_equal. apply groups_ext. intros e He. destruct (Nat.ltb_spec tile (length (tile_group t e))) as [Hlt|]; [|done].
        unfold tile_group in Hlt. rewrite length_take in Hlt. lia.
      * unfold index_select. by rewrite !length_map.
      * by rewrite app_nil_r.
Qed.
End tiles.

(** ** The grouped tables *)

Section grouped.
Context (g : nat -> list (nat * W)) (n : nat) (rest : list (nat * W)).
Context (token_sorted : list nat) (weight_sorted : list W) (cap : nat).
Context (Hlen : length token_sorted = length weight_sorted).
Context (Hzip : zip token_sorted weight_sorted = groups g n ++ rest).
Abbreviation cnt := (fun e => length (g e)).

(** Rows of expert [e] in the fat-row buffer. *)
Definition fat (e : nat) : nat := if cap <? length (g e) then length (g e) else 0.
Definition tiles (T e : nat) : nat := (fat e + (T - 1)) / T.

Abbreviation rows_cap := (length token_sorted).
Abbreviation tables T := (build_grouped_fat_tables (map cnt (seq 0 n)) cap token_sorted weight_sorted rows_cap T).

Lemma fat_rows_map : map (fun c => if cap <? c then c else 0) (map cnt (seq 0 n)) = map fat (seq 0 n).
Proof. by rewrite map_map. Qed.

Lemma tiles_map T : map (fun f => (f + (T - 1)) / T) (map fat (seq 0 n)) = map (tiles T) (seq 0 n).
Proof. by rewrite map_map. Qed.

Lemma offset_cnt_cap : offset cnt n <= rows_cap.
Proof.
  rewrite <- groups_length. pose proof (f_equal length Hzip) as E. rewrite length_app, length_zip_with in E. lia.
Qed.

Lemma offset_fat_cap : offset fat n <= rows_cap.
Proof.
  etransitivity; [|apply offset_cnt_cap]. apply offset_le. intros e _. unfold fat. case_match; lia.
Qed.

Lemma tiles_bound T m : 0 < T -> offset (tiles T) m * T <= offset fat m + m * T.
Proof.
  intros HT. induction m as [|m IH]; [done |]. rewrite !offset_S.
  pose proof (ceil_mul_lt (fat m) T HT). unfold tiles at 2. nia.
Qed.

Lemma segs_bound T : 0 < T -> offset (tiles T) n <= (rows_cap + T - 1) / T + n.
Proof.
  intros HT. pose proof (tiles_bound T n HT). pose proof offset_fat_cap. pose proof (ceil_mul rows_cap T HT).
  replace (rows_cap + T - 1) with (rows_cap + (T - 1)) by lia. apply (Nat.mul_le_mono_pos_r _ _ T HT). nia.
Qed.

Lemma num_rows_tables T : num_rows (tables T) = offset fat n.
Proof. unfold build_grouped_fat_tables. rewrite fat_rows_map. simpl. apply last_cumsum. Qed.

Lemma num_segs_tables T : num_segs (tables T) = offset (tiles T) n.
Proof. unfold build_grouped_fat_tables. rewrite fat_rows_map, tiles_map. simpl. apply last_cumsum. Qed.

(** Segment [offset (tiles T) e + t] is tile [t] of expert [e]. *)
Lemma seg_lookup T e t : 0 < T -> e < n -> t < tiles T e ->
  let s := offset (tiles T) e + t in
  seg_expert (tables T) !!! s = e /\
  seg_row0 (tables T) !!! s = offset fat e + t * T /\
  seg_rows (tables T) !!! s = Nat.min (fat e - t * T) T.
Proof.
  intros HT He Ht s. assert (Hs : s < (rows_cap + T - 1) / T + n).
  { pose proof (segs_bound T HT). pose proof (offset_next (tiles T) e n He). lia. }
  unfold build_grouped_fat_tables. rewrite fat_rows_map, tiles_map, length_map, length_seq. cbn.
  assert (Hse : searchsorted_right (cumsum (map (tiles T) (seq 0 n))) s `min` (n - 1) = e).
  { subst s. rewrite searchsorted_span by done. lia. }
  split_and!; apply list_lookup_total_correct; repeat rewrite ?lookup_zip_with, ?list_lookup_fmap, ?lookup_seq_lt by done;
    simpl; rewrite Hse; try done; rewrite !excl_cumsum_lookup by done; subst s.
  - do 3 f_equal. lia.
  - rewrite lookup_total_map by (rewrite length_seq; lia). rewrite lookup_total_seq_lt by done. simpl.
    do 4 f_equal. lia.
Qed.

(** Row [offset fat e + j] is row [j] of expert [e]. *)
Lemma row_lookup T e j q : e < n -> j < fat e -> g e !! j = Some q ->
  let r := offset fat e + j in
  row_expert (tables T) !!! r = e /\ row_token (tables T) !!! r = fst q /\ row_weight (tables T) !!! r = snd q.
Proof.
  intros He Hj Hq r. assert (Hr : r < rows_cap).
  { pose proof offset_fat_cap. pose proof (offset_next fat e n He). lia. }
  pose proof (sorted_lookup g n rest token_sorted weight_sorted Hzip e j q He Hq) as [Et Ew].
  unfold build_grouped_fat_tables. rewrite fat_rows_map, tiles_map, length_map, length_seq. cbn.
  assert (Hre : searchsorted_right (cumsum (map fat (seq 0 n))) r `min` (n - 1) = e).
  { subst r. rewrite searchsorted_span by done. lia. }
  unfold index_select. split_and!; apply list_lookup_total_correct;
    repeat rewrite ?lookup_zip_with, ?list_lookup_fmap, ?lookup_seq_lt by done; simpl; rewrite Hre; [done | |];
    rewrite !excl_cumsum_lookup by done;
    replace (r - offset fat e) with j by (subst r; lia);
    pose proof (lookup_lt_Some _ _ _ Et); rewrite Nat.min_l by lia; f_equal; by apply list_lookup_total_correct.
Qed.

(** A loop over the rows of every segment is a loop over the rows of every fat
    expert. *)
Lemma segments_cells {A} T (phi : nat -> nat -> A) : 0 < T ->
  concat (map (fun seg => map (phi (seg_expert (tables T) !!! seg)) (seg_span (tables T) seg)) (seq 0 (num_segs (tables T)))) =
  groups (fun e => map (phi e) (seq (offset fat e) (fat e))) n.
Proof.
  intros HT. rewrite num_segs_tables.
  rewrite (enum_concat (tiles T) n _ (fun e t => map (phi e) (seq (offset fat e + t * T) (Nat.min (fat e - t * T) T)))).
  - apply groups_ext. intros e He. rewrite <- groups_map. f_equal. apply tiles_cover. by apply ceil_mul.
  - intros e t He Ht. destruct (seg_lookup T e t HT He Ht) as (Ee & Er & En). unfold seg_span. by rewrite Ee, Er, En.
Qed.

Lemma fold_segments {A} (span : nat -> list nat) (v : nat -> nat -> A) segs (h : list A) :
  fold_left (fun h seg => fold_left (fun h row => <[row := v seg row]> h) (span seg) h) segs h =
  fold_left (fun k p => <[fst p := snd p]> k) (concat (map (fun seg => map (fun row => (row, v seg row)) (span seg)) segs)) h.
Proof.
  revert h. induction segs as [|seg segs IH]; intros h; [done |]. simpl. rewrite fold_left_app, <- IH. f_equal.
  clear IH. revert h. induction (span seg) as [|row l IH]; intros h; [done |]. simpl. apply IH.
Qed.

Lemma fat_Some e j : j < fat e -> exists q, g e !! j = Some q.
Proof. intros Hj. apply lookup_lt_is_Some_2. unfold fat in Hj. case_match; lia. Qed.

(** After the gather, row [offset fat e + j] holds row [j] of expert [e]. *)
Lemma gather_lookup T suh_ptrs h13 e j q : rows_cap <= length h13 -> e < n -> j < fat e -> g e !! j = Some q ->
  fm_gather (tables T) suh_ptrs h13 !!! (offset fat e + j) = Some (H13 (fst q) (suh_ptrs !!! e)).
Proof.
  intros Hl He Hj Hq. apply list_lookup_total_correct. unfold fm_gather. rewrite list_lookup_imap.
  pose proof offset_fat_cap. pose proof (offset_next fat e n He).
  destruct (lookup_lt_is_Some_2 h13 (offset fat e + j)) as [old Hold]; [lia |]. rewrite Hold.
  cbn [fmap option_fmap option_map]. rewrite num_rows_tables. destruct (Nat.ltb_spec (offset fat e + j) (offset fat n)); [|lia].
  destruct (row_lookup T e j q He Hj Hq) as (E1 & E2 & _). by rewrite E1, E2.
Qed.

(** After gate/up too: every row is written, by its own expert's segment. *)
Lemma gateup_lookup T ptrs h13 h2 e j : 0 < T -> rows_cap <= length h2 -> e < n -> j < fat e ->
  fm_gateup limit (tables T) ptrs h13 h2 !!! (offset fat e + j) =
  gateup_row limit ptrs e (h13 !!! (offset fat e + j)).
Proof.
  intros HT Hl He Hj. unfold fm_gateup.
  rewrite (fold_segments (seg_span (tables T)) (fun seg row => gateup_row limit ptrs (seg_expert (tables T) !!! seg) (h13 !!! row))).
  rewrite (segments_cells T (fun e row => (row, gateup_row limit ptrs e (h13 !!! row))) HT).
  pose proof offset_fat_cap. pose proof (offset_next fat e n He).
  apply list_lookup_total_correct, fold_insert_lookup; [| |lia].
  - rewrite groups_map. erewrite groups_ext; [|intros i _; rewrite map_map; apply map_id].
    erewrite (groups_ext _ (fun e => map (fun j => offset fat e + j) (seq 0 (fat e)))).
    + rewrite <- (enum_spans fat n (fun i => i) (fun e j => offset fat e + j)) by done. rewrite map_id. apply NoDup_seq.
    + intros i _. symmetry. etransitivity; [apply fmap_add_seq |]. f_equal. lia.
  - unfold groups. apply list_elem_of_In, in_concat.
    exists (map (fun row => (row, gateup_row limit ptrs e (h13 !!! row))) (seq (offset fat e) (fat e))). split.
    + apply list_elem_of_In, list_elem_of_fmap. exists e. split; [done |]. apply elem_of_seq. lia.
    + apply list_elem_of_In, list_elem_of_fmap. eexists. split; [done |]. apply elem_of_seq. lia.
Qed.

(** What the three kernels make of a row of expert [e]. *)
Definition grouped_row (ptrs : ptr_tables) (e token : nat) : row_out :=
  RowOut limit token
    (Matrix (gate_suh ptrs !!! e) (gate_trellis ptrs !!! e) (gate_svh ptrs !!! e) grouped_codec)
    (Matrix (gate_suh ptrs !!! e) (up_trellis ptrs !!! e) (up_svh ptrs !!! e) grouped_codec)
    (Matrix (down_suh ptrs !!! e) (down_trellis ptrs !!! e) (down_svh ptrs !!! e) grouped_codec).

(** The three launches add the rows of the fat experts, whatever the scratch
    held before and whatever the two tile sizes are. *)
Lemma grouped_groups T T' ptrs h13 h2 : 0 < T -> 0 < T' -> rows_cap <= length h13 -> rows_cap <= length h2 ->
  fm_down (tables T') ptrs (fm_gateup limit (tables T) ptrs (fm_gather (tables T) (gate_suh ptrs) h13) h2) =
  groups (fun e => if cap <? length (g e) then map (mk (grouped_row ptrs e)) (g e) else []) n.
Proof.
  intros HT HT' Hl1 Hl2. unfold fm_down. set (h := fm_gateup _ _ _ _ _).
  rewrite (segments_cells T' (fun e frow => Contribution (row_token (tables T') !!! frow) (row_weight (tables T') !!! frow)
                                              (down_row ptrs e (h !!! frow))) HT').
  apply groups_ext. intros e He.
  assert (Hf : (if cap <? length (g e) then map (mk (grouped_row ptrs e)) (g e) else []) = map (mk (grouped_row ptrs e)) (take (fat e) (g e))).
  { unfold fat. case_match; [by rewrite take_ge |]. done. }
  rewrite Hf. apply list_eq. intros j. rewrite !list_lookup_fmap.
  destruct (decide (j < fat e)) as [Hj|Hj].
  - rewrite lookup_seq_lt, lookup_take_lt by done. destruct (fat_Some e j Hj) as [q Hq]. rewrite Hq.
    unfold mk. cbn [fmap option_fmap option_map].
    destruct (row_lookup T' e j q He Hj Hq) as (_ & E2 & E3). rewrite E2, E3. subst h.
    rewrite gateup_lookup by done. by rewrite (gather_lookup T (gate_suh ptrs) h13 e j q).
  - rewrite lookup_seq_ge by lia. by rewrite lookup_take_ge by lia.
Qed.

Lemma grouped_row_expert packs aliased e token : same_codec packs 4 -> same_suh packs -> e < length packs ->
  grouped_row (tables_of packs aliased) e token = expert_row limit (packs !!! e) token.
Proof.
  intros Hc Hs He. destruct (handles_codec packs 4 e Hc He) as (Eg & Eu & Ed).
  unfold grouped_row, expert_row, forward, tables_of, grouped_codec. simpl. rewrite Eg, Eu, Ed.
  rewrite !lookup_total_map by done. unfold same_suh in Hs. rewrite Forall_lookup in Hs.
  rewrite (Hs e (packs !!! e)) at 2; [done |]. by apply list_lookup_lookup_total_lt.
Qed.
End grouped.
End rows.
