(* ===== verification/Exl3Dispatch.v ===== *)
(** * The EXL3 dispatch computes every routed slot once

    The reference a forward pass of [Exl3Moe] is measured against (each token
    through each expert it is routed to), the sort that brings the slots into
    the groups of [Exl3Rows], and the theorems on [apply_exl3_experts]. *)
From Stdlib Require Import ZArith QArith Lia.
From stdpp Require Import base list strings gmap sorting.
From S2P Require Import Prelude PyStr Exl3Tier Segments Exl3Moe Exl3Rows.
Open Scope nat_scope.

(** ** The reference *)

(** The local expert a global id is routed to: none if the id is negative, off
    the map, or mapped to another rank. *)
Definition route (packs : list pack) (data : option (list Z)) (id : Z) : option pack :=
  if (id <? 0)%Z then None
  else match data with
       | None => packs !! Z.to_nat id
       | Some m => match m !! Z.to_nat id with
                   | Some e => if (e <? 0)%Z then None else packs !! Z.to_nat e
                   | None => None
                   end
       end.

Definition moe_reference {W} (limit : Q) (packs : list pack) (data : option (list Z))
    (ids : list (list Z)) (weights : list (list W)) : list (contribution W) :=
  omap (fun s => (fun p => job limit p (fst (fst s)) (snd s)) <$> route packs data (snd (fst s))) (slots ids weights).

(** The route weight rounded to fp16, as every fused path does up front. *)
Definition rounded {W} (half : W -> W) (c : contribution W) : contribution W :=
  Contribution (c_token c) (half (c_weight c)) (c_row c).

Definition shape_ok {W} (ids : list (list Z)) (weights : list (list W)) (topk : nat) : Prop :=
  Forall (fun r => length r = topk) ids /\ Forall (fun r => length r = topk) weights /\ length weights = length ids.

(** How many slots a local expert gets. *)
Definition routed_count (n_local : nat) (data : option (list Z)) (ids : list (list Z)) (e : nat) : nat :=
  length (base.filter (fun id => local_id n_local data id = e) (concat ids)).

Lemma local_route packs data id : packs !! local_id (length packs) data id = route packs data id.
Proof.
  unfold local_id, route. destruct data as [m|].
  - destruct (Z.ltb_spec id 0); simpl; [by apply lookup_ge_None_2 |].
    destruct (Z.leb_spec (Z.of_nat (length m)) id); simpl.
    { rewrite (lookup_ge_None_2 m) by lia. by apply lookup_ge_None_2. }
    destruct (Nat.eqb_spec (length m) 0); [lia |].
    replace (Z.max 0 (Z.min id (Z.max (Z.of_nat (length m) - 1) 0))) with id by lia.
    rewrite (list_lookup_lookup_total_lt m) by lia. set (e := m !!! Z.to_nat id).
    destruct (Z.ltb_spec e 0); simpl; [by apply lookup_ge_None_2 |].
    destruct (Z.leb_spec (Z.of_nat (length packs)) e); [|done]. rewrite !lookup_ge_None_2 by lia. done.
  - destruct (Z.ltb_spec id 0); simpl; [by apply lookup_ge_None_2 |].
    destruct (Z.leb_spec (Z.of_nat (length packs)) id); [|done]. by rewrite !lookup_ge_None_2 by lia.
Qed.

Lemma local_id_le n data id : local_id n data id <= n.
Proof.
  unfold local_id. destruct data as [m|]; case_match; try lia;
    repeat match goal with H : _ || _ = false |- _ => apply orb_false_iff in H as [? ?] end;
    repeat match goal with H : (_ <=? _)%Z = false |- _ => apply Z.leb_gt in H end; lia.
Qed.

(** The python loop finds the same expert, when the map covers the local ids. *)
Lemma loop_route packs data raw : (0 <= raw)%Z -> match data with Some m => length packs <= length m | None => True end ->
  (if (loop_id data (Z.to_nat raw) <? 0)%Z then None else packs !! Z.to_nat (loop_id data (Z.to_nat raw))) = route packs data raw.
Proof.
  intros Hr Hm. unfold loop_id, route. destruct (Z.ltb_spec raw 0); [lia |]. destruct data as [m|].
  - destruct (Nat.ltb_spec (Z.to_nat raw) (length m)).
    + by rewrite (list_lookup_lookup_total_lt m) by done.
    + rewrite (lookup_ge_None_2 m) by lia. destruct (Z.ltb_spec (Z.of_nat (Z.to_nat raw)) 0); [done |].
      apply lookup_ge_None_2. lia.
  - destruct (Z.ltb_spec (Z.of_nat (Z.to_nat raw)) 0); [lia |]. f_equal. lia.
Qed.

Section dispatch.
Context {W : Type} `{Inhabited W} (half : W -> W) `{TorchLaws}.
Context (env : environ) (img : image) (limit : Q).

(** ** Slots *)

Lemma slots_from t0 (ids : list (list Z)) (weights : list (list W)) topk : shape_ok ids weights topk ->
  concat (imap (fun t p => map (fun q => (t0 + t, fst q, snd q)) (zip (fst p) (snd p))) (zip ids weights)) =
  zip (zip (concat (map (replicate topk) (seq t0 (length ids)))) (concat ids)) (concat weights).
Proof.
  intros (Hi & Hw & Hl). revert t0 weights Hw Hl. induction Hi as [|row ids Hrow Hi IH]; intros t0 weights Hw Hl; [done |].
  destruct weights as [|wrow weights]; [done |]. apply Forall_cons in Hw as [Hwrow Hw]. injection Hl as Hl.
  simpl. rewrite !zip_with_app by (rewrite ?length_zip_with, ?length_replicate; lia). f_equal.
  - rewrite Nat.add_0_r. clear -Hrow Hwrow. revert topk wrow Hrow Hwrow.
    induction row as [|id row IH]; intros topk wrow Hrow Hwrow; destruct wrow as [|w wrow]; simpl in *; subst; try done.
    injection Hwrow as Hwrow. simpl. f_equal. by apply IH.
  - rewrite <- (IH (S t0)) by done. f_equal. apply imap_ext. intros i p _. apply map_ext. intros q. do 2 f_equal. simpl. lia.
Qed.

Lemma slots_zip ids (weights : list (list W)) topk : shape_ok ids weights topk ->
  slots ids weights = zip (zip (repeat_tokens (length ids) topk) (concat ids)) (concat weights).
Proof. intros Hs. unfold slots, repeat_tokens. by rewrite <- (slots_from 0 ids weights topk Hs). Qed.

Lemma concat_length {A} (l : list (list A)) k : Forall (fun r => length r = k) l -> length (concat l) = length l * k.
Proof. induction 1 as [|r l Hr _ IH]; [done |]. simpl. rewrite length_app, IH, Hr. lia. Qed.

Lemma repeat_tokens_length t k : length (repeat_tokens t k) = t * k.
Proof.
  unfold repeat_tokens. rewrite (concat_length _ k); [by rewrite length_map, length_seq |].
  apply Forall_forall. intros r (i & -> & _)%list_elem_of_fmap. apply length_replicate.
Qed.

Lemma omap_ext_in {A B} (f h : A -> option B) (l : list A) : (forall a, a ∈ l -> f a = h a) -> omap f l = omap h l.
Proof.
  intros Hf. apply list_omap_ext, Forall2_same_length_lookup_2; [done |].
  intros i a b Ha Hb. simplify_eq. by apply Hf, list_elem_of_lookup_2 with i.
Qed.

Lemma omap_Some {A B} (f : A -> option B) (h : A -> B) (l : list A) :
  (forall a, a ∈ l -> f a = Some (h a)) -> omap f l = map h l.
Proof.
  induction l as [|a l IH]; intros Hf; [done |]. csimpl. rewrite (Hf a) by left. f_equal. apply IH.
  intros b Hb. apply Hf. by right.
Qed.

Lemma omap_None {A B} (f : A -> option B) (l : list A) : (forall a, a ∈ l -> f a = None) -> omap f l = [].
Proof.
  induction l as [|a l IH]; intros Hf; [done |]. csimpl. rewrite (Hf a) by left. apply IH.
  intros b Hb. apply Hf. by right.
Qed.

Lemma omap_groups {A B} (f : A -> option B) h n : omap f (groups h n) = groups (fun e => omap f (h e)) n.
Proof. induction n as [|n IH]; [done |]. by rewrite !groups_S, omap_app, IH. Qed.

Lemma omap_concat {A B} (f : A -> option B) (l : list (list A)) : omap f (concat l) = concat (map (omap f) l).
Proof. induction l as [|a l IH]; [done |]. simpl. by rewrite omap_app, IH. Qed.

Lemma filter_map {A B} (f : A -> B) (P : B -> Prop) `{forall b, Decision (P b)} (l : list A) :
  base.filter P (map f l) = map f (base.filter (fun a => P (f a)) l).
Proof. induction l as [|a l IH]; [done |]. simpl. rewrite !filter_cons. case_decide; [by rewrite IH | done]. Qed.

Lemma zip_maps {A B C} (f : A -> B) (h : A -> C) (l : list A) : zip (map f l) (map h l) = map (fun x => (f x, h x)) l.
Proof. by rewrite zip_with_fmap_l, zip_with_fmap_r, zip_with_diag. Qed.

Lemma list_as_seq {A} `{Inhabited A} (l : list A) : l = map (fun i => l !!! i) (seq 0 (length l)).
Proof.
  apply list_eq. intros i. destruct (decide (i < length l)) as [Hi|Hi].
  - rewrite list_lookup_fmap, lookup_seq_lt by done. by apply list_lookup_lookup_total_lt.
  - rewrite list_lookup_fmap, lookup_seq_ge, lookup_ge_None_2 by lia. done.
Qed.

(** ** The sort by expert *)

Section call.
Context (packs : list pack) (data : option (list Z)) (ids : list (list Z)) (weights : list (list W)) (topk : nat).
Context (Hshape : shape_ok ids weights topk).

Abbreviation n := (length packs).
Abbreviation local := (map (local_id n data) (concat ids)).
Abbreviation order := (argsort local).
Abbreviation tok := (fun i => repeat_tokens (length ids) topk !!! i).
Abbreviation wt := (fun i => map half (concat weights) !!! i).
Abbreviation N := (length ids * topk).

(** The slots of local expert [e], in sorted order. *)
Definition group (e : nat) : list (nat * W) :=
  map (fun i => (tok i, wt i)) (base.filter (fun i => local !!! i = e) order).

Lemma local_length : length local = N.
Proof. rewrite length_map. apply concat_length. by destruct Hshape. Qed.

Lemma order_perm : order ≡ₚ seq 0 N.
Proof. rewrite <- local_length. apply argsort_perm. Qed.

Lemma order_groups m : Forall (fun e => e < m) local -> groups (fun e => base.filter (fun i => local !!! i = e) order) m = order.
Proof.
  intros Hm. apply (sorted_by_key (fun i => local !!! i)).
  - pose proof (argsort_sorted local) as Hs. apply Sorted_StronglySorted in Hs; [|by intros ? ? ?; lia].
    remember order as o eqn:Eo. clear Eo. induction o as [|i o IH]; [constructor |].
    simpl in Hs. apply StronglySorted_inv in Hs as [Hs Hall]. constructor; [by apply IH |].
    apply Forall_forall. intros j Hj. rewrite Forall_forall in Hall. apply Hall.
    apply list_elem_of_fmap. by exists j.
  - apply Forall_forall. intros i Hi. rewrite order_perm in Hi. apply elem_of_seq in Hi.
    rewrite Forall_lookup in Hm. apply (Hm i). apply list_lookup_lookup_total_lt. rewrite local_length. lia.
Qed.

Lemma local_bound : Forall (fun e => e < S n) local.
Proof. apply Forall_forall. intros e (id & -> & _)%list_elem_of_fmap. pose proof (local_id_le n data id). lia. Qed.

Lemma sorted_zip :
  zip (index_select (repeat_tokens (length ids) topk) order) (index_select (map half (concat weights)) order) =
  groups group n ++ group n.
Proof.
  unfold index_select. rewrite zip_maps.
  rewrite <- (order_groups (S n)) at 1 by apply local_bound. rewrite groups_map, groups_S. done.
Qed.

Lemma group_length e : length (group e) = length (base.filter (eq e) local).
Proof.
  unfold group. rewrite length_map, order_perm.
  assert (Hl : local = map (fun i => local !!! i) (seq 0 N)).
  { rewrite <- local_length. apply list_as_seq. }
  transitivity (length (base.filter (eq e) (map (fun i => local !!! i) (seq 0 N)))); [|by rewrite <- Hl].
  rewrite filter_map, length_map. f_equal. apply list_filter_iff. intros i. done.
Qed.

Lemma group_count e : length (group e) = routed_count n data ids e.
Proof.
  rewrite group_length. unfold routed_count. rewrite filter_map, length_map. f_equal. apply list_filter_iff.
  intros id. simpl. done.
Qed.

Lemma counts_group :
  exists junk, scatter_add_ones (S n) local = map (fun e => length (group e)) (seq 0 n) ++ [junk].
Proof.
  exists (length (group n)).
  assert (Hc : scatter_add_ones (S n) local = map (fun e => length (group e)) (seq 0 (S n))).
  { apply list_eq. intros e. rewrite list_lookup_fmap. destruct (decide (e < S n)) as [He|He].
    - rewrite lookup_seq_lt by done. simpl. rewrite group_length, <- (scatter_lookup (S n)) by done.
      apply list_lookup_lookup_total_lt. by rewrite scatter_length.
    - rewrite lookup_seq_ge by lia. apply lookup_ge_None_2. rewrite scatter_length. lia. }
  rewrite Hc, seq_S, map_app. done.
Qed.

(** ** The groups are the slots *)

Definition slot (i : nat) : nat * Z * W := (tok i, concat ids !!! i, concat weights !!! i).

Lemma weights_length : length (concat weights) = N.
Proof. destruct Hshape as (_ & Hw & Hl). by rewrite (concat_length _ topk), Hl. Qed.

Lemma ids_length : length (concat ids) = N.
Proof. destruct Hshape as (Hi & _). by rewrite (concat_length _ topk). Qed.

Lemma slots_seq : slots ids weights = map slot (seq 0 N).
Proof.
  rewrite (slots_zip ids weights topk Hshape).
  rewrite (list_as_seq (repeat_tokens _ _)), (list_as_seq (concat ids)), (list_as_seq (concat weights)).
  rewrite repeat_tokens_length, ids_length, weights_length.
  by rewrite !zip_maps.
Qed.

(** What the slots of the experts [P] picks add, weights rounded. *)
Definition contribute (P : nat -> bool) (s : nat * Z * W) : option (contribution W) :=
  let e := local_id n data (snd (fst s)) in
  if P e then (fun p => job limit p (fst (fst s)) (half (snd s))) <$> packs !! e else None.

Lemma slot_local i : i < N -> local_id n data (concat ids !!! i) = local !!! i /\ half (concat weights !!! i) = wt i.
Proof.
  intros Hi. split; symmetry; apply list_lookup_total_correct; rewrite list_lookup_fmap.
  - by rewrite (list_lookup_lookup_total_lt (concat ids)) by (rewrite ids_length; lia).
  - by rewrite (list_lookup_lookup_total_lt (concat weights)) by (rewrite weights_length; lia).
Qed.

Lemma groups_slots (P : nat -> bool) :
  groups (fun e => if P e then map (mk (expert_row limit (packs !!! e))) (group e) else []) n ≡ₚ
  omap (contribute P) (slots ids weights).
Proof.
  rewrite slots_seq. change (map slot) with (fmap (M := list) slot). rewrite <- order_perm.
  rewrite <- (order_groups (S n)) by apply local_bound.
  change (fmap (M := list) slot) with (map slot). rewrite groups_map, omap_groups, groups_S.
  assert (Hin : forall e i, i ∈ base.filter (fun i => local !!! i = e) order -> i < N /\ local !!! i = e).
  { intros e i [Hi Ho]%list_elem_of_filter. rewrite order_perm in Ho. apply elem_of_seq in Ho. split; [lia | done]. }
  rewrite (omap_None (contribute P) (map slot (base.filter (fun i => local !!! i = n) order))).
  - rewrite app_nil_r. apply groups_Permutation. intros e He. apply reflexive_eq.
    unfold group. destruct (P e) eqn:HP.
    + rewrite map_map. symmetry.
      rewrite (omap_Some (contribute P) (fun s => mk (expert_row limit (packs !!! e)) (fst (fst s), half (snd s)))).
      * rewrite map_map. apply map_ext_in. intros i [Hi Hl]%list_elem_of_In%Hin. simpl.
        by rewrite (proj2 (slot_local i Hi)).
      * intros s (i & -> & [Hi Hl]%Hin)%list_elem_of_fmap. unfold contribute. simpl.
        rewrite (proj1 (slot_local i Hi)), Hl, HP. by rewrite (list_lookup_lookup_total_lt packs) by done.
    + symmetry. apply omap_None. intros s (i & -> & [Hi Hl]%Hin)%list_elem_of_fmap. unfold contribute. simpl.
      by rewrite (proj1 (slot_local i Hi)), Hl, HP.
  - intros s (i & -> & [Hi Hl]%Hin)%list_elem_of_fmap. unfold contribute. simpl.
    rewrite (proj1 (slot_local i Hi)), Hl. rewrite (lookup_ge_None_2 packs) by done. by case_match.
Qed.

(** ** The python loop *)

(** What a slot adds in the loop. *)
Definition loop_slot (only : option (list nat)) (s : nat * Z * W) : option (contribution W) :=
  match route packs data (snd (fst s)) with
  | None => None
  | Some p => if match only with None => true | Some l => bool_decide (local_id n data (snd (fst s)) ∈ l) end
              then Some (job limit p (fst (fst s)) (snd s)) else None
  end.

Lemma loop_local raw : (0 <= raw)%Z -> match data with Some m => n <= length m | None => True end ->
  (0 <= loop_id data (Z.to_nat raw))%Z -> Z.to_nat (loop_id data (Z.to_nat raw)) < n ->
  local_id n data raw = Z.to_nat (loop_id data (Z.to_nat raw)).
Proof.
  intros Hr Hm Hle Hlt. unfold local_id, loop_id in *. destruct data as [m|].
  - destruct (Z.ltb_spec raw 0); [lia |]. destruct (Nat.ltb_spec (Z.to_nat raw) (length m)).
    + destruct (Z.leb_spec (Z.of_nat (length m)) raw); [lia |]. destruct (Nat.eqb_spec (length m) 0) as [|_]; [lia |].
      replace (Z.max 0 (Z.min raw (Z.max (Z.of_nat (length m) - 1) 0))) with raw by lia.
      destruct (Z.ltb_spec (m !!! Z.to_nat raw) 0); [lia |].
      destruct (Z.leb_spec (Z.of_nat n) (m !!! Z.to_nat raw)); [lia | done].
    + lia.
  - destruct (Z.ltb_spec raw 0); [lia |]. destruct (Z.leb_spec (Z.of_nat n) raw); [lia |]. simpl. lia.
Qed.

Lemma loop_slots only : match data with Some m => n <= length m | None => True end ->
  apply_exl3_python_loop limit ids weights packs data only ≡ₚ omap (loop_slot only) (slots ids weights).
Proof.
  intros Hm. unfold apply_exl3_python_loop.
  etransitivity; [|apply omap_Permutation, (group_unique (fun s => snd (fst s)) (unique (concat ids)) (slots ids weights))].
  - rewrite omap_concat, map_map. apply reflexive_eq. f_equal. apply map_ext. intros raw.
    assert (Hin : forall s, s ∈ base.filter (fun s => snd (fst s) = raw) (slots ids weights) -> snd (fst s) = raw).
    { by intros s [Hs _]%list_elem_of_filter. }
    destruct (Z.ltb_spec raw 0) as [Hneg|Hpos].
    { symmetry. apply omap_None. intros s Hs%Hin. unfold loop_slot, route. rewrite Hs.
      destruct (Z.ltb_spec raw 0); [done | lia]. }
    pose proof (loop_route packs data raw Hpos Hm) as Hroute.
    destruct (Z.ltb_spec (loop_id data (Z.to_nat raw)) 0).
    { symmetry. apply omap_None. intros s Hs%Hin. unfold loop_slot. by rewrite Hs, <- Hroute. }
    destruct (packs !! Z.to_nat (loop_id data (Z.to_nat raw))) as [p|] eqn:Hp.
    2: { symmetry. apply omap_None. intros s Hs%Hin. unfold loop_slot. by rewrite Hs, <- Hroute. }
    assert (Hid : local_id n data raw = Z.to_nat (loop_id data (Z.to_nat raw))).
    { apply loop_local; try done. by apply lookup_lt_Some in Hp. }
    destruct (match only with None => false | Some l => negb (bool_decide (Z.to_nat (loop_id data (Z.to_nat raw)) ∈ l)) end) eqn:Ho.
    + symmetry. apply omap_None. intros s Hs%Hin. unfold loop_slot. rewrite Hs, <- Hroute, Hid.
      destruct only; [|done]. apply negb_true_iff in Ho. by rewrite Ho.
    + symmetry. apply omap_Some. intros s Hs%Hin. unfold loop_slot. rewrite Hs, <- Hroute, Hid.
      destruct only; [|done]. apply negb_false_iff in Ho. by rewrite Ho.
  - apply unique_NoDup.
  - intros s Hs. apply unique_elem. rewrite slots_seq in Hs. apply list_elem_of_fmap in Hs as (i & -> & Hi%elem_of_seq).
    simpl. apply list_elem_of_lookup_total_2. rewrite ids_length. lia.
Qed.
End call.

(** ** Runs *)

Definition runs {A} (m : M A) (s : state) (Q : A -> state -> Prop) : Prop :=
  exists a s', m s = (Ok a, s') /\ Q a s'.

Lemma runs_bind {A B} (m : M A) (k : A -> M B) s Q : runs m s (fun a s => runs (k a) s Q) -> runs (m ≫= k) s Q.
Proof.
  intros (a & s1 & Em & b & s2 & Ek & HQ). exists b, s2. split; [|done]. unfold mbind, M_bind. by rewrite Em.
Qed.

Lemma runs_ret {A} (a : A) s (Q : A -> state -> Prop) : Q a s -> runs (mret a) s Q.
Proof. intros. by exists a, s. Qed.

Lemma runs_lift {A} (m : res A) a s (Q : A -> state -> Prop) : m = Ok a -> Q a s -> runs (lift m) s Q.
Proof. intros -> ?. by exists a, s. Qed.

Lemma runs_require {A} (o : option A) e a s (Q : A -> state -> Prop) : o = Some a -> Q a s -> runs (require o e) s Q.
Proof. intros -> ?. by exists a, s. Qed.

Lemma runs_raise_if b e s (Q : unit -> state -> Prop) : b = false -> Q tt s -> runs (raise_if b e) s Q.
Proof. intros -> ?. by exists tt, s. Qed.

Lemma runs_get s (Q : state -> state -> Prop) : Q s s -> runs get s Q.
Proof. intros. by exists s, s. Qed.

Definition with_world (f : world -> world) (s : state) : state :=
  State (f (st_world s)) (_FAT_SCRATCH_CACHE s) (_FAT_GROUPED_CACHE s) (_FAT_COUNT_CACHE s).

Lemma runs_update f s (Q : unit -> state -> Prop) : Q tt (with_world f s) -> runs (update f) s Q.
Proof. intros. eexists _, _. split; [reflexivity | done]. Qed.

Lemma runs_mono {A} (m : M A) s (Q Q' : A -> state -> Prop) : runs m s Q -> (forall a s, Q a s -> Q' a s) -> runs m s Q'.
Proof. intros (a & s' & E & HQ) Hi. exists a, s'. auto. Qed.

(** *** What stays fixed *)

Definition buffers_ok (s : state) : Prop :=
  map_Forall (fun _ b => length (b_h13 b) = length (b_h2 b)) (_FAT_GROUPED_CACHE s).

Definition state_ok (s : state) : Prop := cache_ok img (w_ext_cache (st_world s)) /\ buffers_ok s.

Lemma with_world_ok f s : (forall w, w_ext_cache (f w) = w_ext_cache w) -> state_ok s -> state_ok (with_world f s).
Proof. intros Hf [Hc Hb]. split; [|done]. simpl. by rewrite Hf. Qed.

Lemma record_tier_cache id t r w : w_ext_cache (_record_exl3_fat_tier id t r w) = w_ext_cache w.
Proof. unfold _record_exl3_fat_tier. by case_match. Qed.

Lemma record_tier_last id t r w : w_last (_record_exl3_fat_tier id t r w) = <[id := (t, r)]> (w_last w).
Proof. unfold _record_exl3_fat_tier. by case_match. Qed.

Lemma recorded_ok id t r s : state_ok s -> state_ok (with_world (_record_exl3_fat_tier id t r) s).
Proof. apply with_world_ok, record_tier_cache. Qed.

Lemma logged_ok f s : state_ok s -> state_ok (with_world (set_stats f) s).
Proof. by apply with_world_ok. Qed.

Lemma recorded_last id t r s : exists reason, w_last (st_world (with_world (_record_exl3_fat_tier id t r) s)) !! id = Some (t, reason).
Proof. exists r. cbn [st_world with_world]. rewrite record_tier_last. apply lookup_insert_eq. Qed.

(** Logging the routing histogram touches the statistics only. *)
Lemma runs_log counts max_rows rows s (Q : unit -> state -> Prop) : temp_rows_fused env = Ok rows ->
  (forall f, Q tt (with_world (set_stats f) s)) -> Q tt s ->
  runs (when_log env (on_world (record_exl3_fat_expert_stats env counts max_rows))) s Q.
Proof.
  intros Hr HQ HQs. unfold when_log. destruct (fat_expert_log_enabled env); [|by apply runs_ret].
  unfold on_world, record_exl3_fat_expert_stats. rewrite Hr. eexists _, _. split; [reflexivity |]. apply HQ.
Qed.

(** ** The grouped scratch and the three launches *)

Context (Hcapture : stream_capturing img = false).

Lemma runs_grouped_scratch dev n_rows hidden inter k s (Q : buffers -> state -> Prop) :
  _grouped_scratch_rows_env env = Ok k -> state_ok s ->
  (forall b s', n_rows <= length (b_h13 b) -> length (b_h13 b) = length (b_h2 b) -> state_ok s' ->
     w_last (st_world s') = w_last (st_world s) -> Q b s') ->
  runs (_grouped_scratch env img dev n_rows hidden inter) s Q.
Proof.
  intros Hk [Hc Hb] HQ. unfold _grouped_scratch. eapply runs_bind, runs_lift; [done |]. apply runs_bind, runs_get.
  assert (Hneed : n_rows <= Z.to_nat (grouped_scratch_capacity (Z.of_nat n_rows) k)) by (unfold grouped_scratch_capacity; lia).
  assert (Hgrow : runs (grow img (str_device dev, hidden, inter) (grouped_scratch_capacity (Z.of_nat n_rows) k) hidden inter) s Q).
  { unfold grow. apply runs_bind, runs_raise_if; [by rewrite Hcapture |].
    apply runs_bind. eexists _, _. split; [reflexivity |]. apply runs_bind, runs_update, runs_bind, runs_update, runs_ret.
    apply HQ; simpl; rewrite ?length_replicate; try done. split; [done |]. simpl.
    apply map_Forall_insert_2; [simpl; by rewrite !length_replicate | done]. }
  destruct (_FAT_GROUPED_CACHE s !! _) as [b|] eqn:Hlook; [|done].
  destruct (Z.leb_spec (grouped_scratch_capacity (Z.of_nat n_rows) k) (Z.of_nat (length (b_h13 b)))); [|done].
  apply runs_ret, HQ; [lia | | done | done]. by apply (Hb _ b Hlook).
Qed.

Lemma write_view_length {A} (v b : list A) : length v <= length b -> length (write_view v b) = length b.
Proof. intros. unfold write_view. rewrite length_app, length_drop. lia. Qed.

Lemma gateup_length (t : fat_tables (W := W)) ptrs h13 h2 : length (fm_gateup limit t ptrs h13 h2) = length h2.
Proof. unfold fm_gateup. by rewrite fold_segments, fold_insert_length. Qed.

(** The grouped tier adds the rows of the fat experts. *)
Lemma runs_grouped xdev hidden (g : nat -> list (nat * W)) n rest token_sorted weight_sorted l ptrs ext cap s k
    (Q : list (contribution W) -> state -> Prop) :
  length token_sorted = length weight_sorted ->
  zip token_sorted weight_sorted = groups g n ++ rest ->
  fresh_ext img = Some ext -> 0 < tile_rows_gateup ext -> 0 < tile_rows_down ext ->
  _exl3_ptrs l = Some ptrs -> param_device (ml_static l) "w13_trellis" = xdev ->
  _grouped_scratch_rows_env env = Ok k -> state_ok s ->
  (forall s', state_ok s' -> w_last (st_world s') = w_last (st_world s) ->
     Q (groups (fun e => if cap <? length (g e) then map (mk (grouped_row limit ptrs e)) (g e) else []) n) s') ->
  runs (apply_exl3_grouped_fat env img limit (Meta xdev true Half) (Meta xdev true Float32) (Meta xdev true Long)
          hidden (map (fun e => length (g e)) (seq 0 n)) token_sorted weight_sorted l cap) s Q.
Proof.
  intros Hlen Hzip Hext Hgu Hdn Hptrs Hdev Hk Hs HQ. unfold apply_exl3_grouped_fat.
  apply runs_bind, runs_get. rewrite (load_fresh img _ (proj1 Hs)). cbv iota beta zeta.
  apply runs_bind, runs_update. eapply runs_bind, runs_require; [exact Hext |].
  eapply runs_bind, runs_require; [exact Hptrs |]. rewrite Hdev.
  apply runs_bind, runs_raise_if; [simpl; by rewrite bool_decide_eq_true_2 |].
  apply runs_bind, runs_raise_if; [done |].
  apply runs_bind. eapply runs_grouped_scratch; [exact Hk | split; [by right | exact (proj2 Hs)] |].
  intros b s1 Hb1 Hb2 Hs1 Hl1.
  apply runs_bind. eexists _, _. split; [reflexivity |]. apply runs_bind, runs_update, runs_ret.
  match goal with |- context[fm_down ?t _ _] => set (td := t) end.
  assert (Htd : exists T, 0 < T /\ td = build_grouped_fat_tables (map (fun e => length (g e)) (seq 0 n)) cap
                                          token_sorted weight_sorted (length token_sorted) T).
  { subst td. destruct (_ =? _); [by exists (tile_rows_gateup ext) | by exists (tile_rows_down ext)]. }
  destruct Htd as (T & HT & ->).
  rewrite (grouped_groups limit g n rest token_sorted weight_sorted cap Hlen Hzip);
    [| done | done | rewrite length_take; lia | rewrite length_take; lia].
  apply HQ; [|done]. split; [exact (proj1 Hs1) |]. simpl.
  apply map_Forall_insert_2; [|exact (proj2 Hs1)]. simpl.
  rewrite !write_view_length; [done | |].
  - rewrite gateup_length, length_take. lia.
  - unfold fm_gather. rewrite length_imap, length_take. lia.
Qed.

Lemma runs_batched dev k_words (g : nat -> list (nat * W)) n rest token_sorted weight_sorted packs cap use_kernel ext conf s
    (Q : list (contribution W) -> state -> Prop) :
  length token_sorted = length weight_sorted ->
  zip token_sorted weight_sorted = groups g n ++ rest ->
  length packs = n -> fat_scratch_configured env = Ok conf -> exllamav3_ext img = Some ext ->
  (use_kernel = true -> hasattr ext "exl3_fat_gemm" = true /\ hasattr ext "exl3_fat_gemm_scatter" = true) ->
  Forall (fun p => suh (gate p) = suh (up p) /\ codec (gate p) = codec (up p)) packs ->
  state_ok s ->
  (forall s', state_ok s' -> w_last (st_world s') = w_last (st_world s) ->
     Q (groups (fun e => if cap <? length (g e) then map (mk (expert_row limit (packs !!! e))) (g e) else []) n) s') ->
  runs (apply_exl3_batched_fat env img limit dev k_words token_sorted weight_sorted
          (map (fun e => length (g e)) (seq 0 n)) packs cap use_kernel) s Q.
Proof.
  intros Hlen Hzip Hn Hconf Hext Hk Hp [Hc Hb] HQ.
  destruct (batched_fat_groups env img limit g n rest token_sorted weight_sorted Hlen Hzip ext dev k_words packs cap
              use_kernel conf s Hn Hconf Hext Hk Hp) as (s' & E & Hw & Hg).
  eexists _, s'. split; [exact E |]. apply HQ; [|by rewrite Hw]. split; [by rewrite Hw |]. unfold buffers_ok. by rewrite Hg.
Qed.

(** ** Layers as the loader leaves them *)

Record layer_ready (l : moe_layer) : Prop := LayerReady {
  ready_inners : inners l <> [];
  ready_tables : match _exl3_ptrs l with
    | None => True
    | Some t => (exists aliased, t = tables_of (inners l) aliased /\ (aliased = true -> same_suh (inners l))) /\
                exists cap, _exl3_fused_temps l = Some cap /\ 0 < cap
    end;
  ready_codec : _exl3_ptrs l <> None -> same_codec (inners l) (default 4%Z (_exl3_k l));
  ready_suh : _exl3_shared_w13_suh (ml_static l) = true -> same_suh (inners l);
  ready_tier : exists r, ml_resolution l = Some r /\
    _exl3_fat_effective_tier r = allowed_tier env (_exl3_shared_w13_suh (ml_static l)) (fst (eligibility_of env img (ml_static l))) /\
    refuses env img (_exl3_shared_w13_suh (ml_static l)) (fst (eligibility_of env img (ml_static l))) = false
}.

(** The switches parse, and the kernels answer positive tile sizes. *)
Record call_ok : Prop := CallOk {
  ok_stats : exists r, temp_rows_fused env = Ok r;
  ok_scratch : exists k, _grouped_scratch_rows_env env = Ok k;
  ok_configured : exists k, fat_scratch_configured env = Ok k;
  ok_tiles : match fresh_ext img with
             | Some ext => 0 < tile_rows_gateup ext /\ 0 < tile_rows_down ext
             | None => True end
}.

Context (Hidem : forall w, half (half w) = half w).

Lemma rounded_contribute packs data P (l : list (nat * Z * W)) :
  map (rounded half) (omap (contribute packs data P) l) = omap (contribute packs data P) l.
Proof.
  change (map (rounded half)) with (fmap (M := list) (rounded half)). rewrite list_fmap_omap.
  apply omap_ext_in. intros s _. unfold contribute. case_match; [|done].
  destruct (packs !! _); [|done]. simpl. unfold rounded, job. simpl. by rewrite Hidem.
Qed.

Lemma contribute_ext packs data (P P' : nat -> bool) (l : list (nat * Z * W)) : (forall e, e < length packs -> P e = P' e) ->
  omap (contribute packs data P) l = omap (contribute packs data P') l.
Proof.
  intros HP. apply omap_ext_in. intros s _. unfold contribute.
  destruct (packs !! local_id (length packs) data (snd (fst s))) as [p|] eqn:Hp.
  - rewrite HP; [done |]. by apply lookup_lt_Some in Hp.
  - by repeat case_match.
Qed.

Lemma rounded_loop packs data ids (weights : list (list W)) cap (l : list (nat * Z * W)) fat :
  (forall e, e < length packs -> e ∈ fat <-> cap < routed_count (length packs) data ids e) ->
  map (rounded half) (omap (loop_slot packs data (Some fat)) l) =
  omap (contribute packs data (fun e => cap <? routed_count (length packs) data ids e)) l.
Proof.
  intros Hfat. change (map (rounded half)) with (fmap (M := list) (rounded half)). rewrite list_fmap_omap.
  apply omap_ext_in. intros s _. unfold loop_slot, contribute. rewrite <- local_route.
  set (e := local_id (length packs) data (snd (fst s))). destruct (packs !! e) as [p|] eqn:Hp; [|by case_match].
  specialize (Hfat e ltac:(by apply lookup_lt_Some in Hp)).
  case_bool_decide as Hin; destruct (Nat.ltb_spec cap (routed_count (length packs) data ids e)); try done; exfalso; naive_solver lia.
Qed.

Lemma rounded_reference packs data ids (weights : list (list W)) :
  map (rounded half) (moe_reference limit packs data ids weights) =
  omap (contribute packs data (fun _ => true)) (slots ids weights).
Proof.
  unfold moe_reference. change (map (rounded half)) with (fmap (M := list) (rounded half)). rewrite list_fmap_omap.
  apply omap_ext_in. intros s _. unfold contribute. rewrite <- local_route.
  by destruct (packs !! _).
Qed.

Lemma rounded_loop_all packs data (l : list (nat * Z * W)) :
  map (rounded half) (omap (loop_slot packs data None) l) = omap (contribute packs data (fun _ => true)) l.
Proof.
  change (map (rounded half)) with (fmap (M := list) (rounded half)). rewrite list_fmap_omap.
  apply omap_ext_in. intros s _. unfold loop_slot, contribute. rewrite <- local_route. by destruct (packs !! _).
Qed.

Lemma list_max_le l m : list_max l <= m <-> Forall (fun x => x <= m) l.
Proof.
  induction l as [|x l IH]; simpl; [split; [constructor | lia] |].
  rewrite Forall_cons, <- IH. unfold list_max. simpl. lia.
Qed.

(** ** One fused call *)

(** Does some expert overflow the temps? *)
Definition overflows (packs : list pack) data ids (cap : nat) : bool :=
  existsb (fun e => cap <? routed_count (length packs) data ids e) (seq 0 (length packs)).

(** The path a fused call takes, by name. *)
Definition path_of (l : moe_layer) (tokens cap : nat) (overflow : bool) : string :=
  let effective := match ml_resolution l with Some r => _exl3_fat_effective_tier r | None => "none"%string end in
  if tokens <=? cap then "none"
  else if grouped_fat_enabled env && negb (fused_moe_row_tile_enabled env) && String.eqb effective "grouped" then "grouped"
  else if negb overflow then "none"
  else if fused_moe_row_tile_enabled env then "row_tile"
  else effective.

Section fused.
Context (l : moe_layer) (xdev : device) (hidden : nat) (ids : list (list Z)) (weights : list (list W)) (topk : nat).
Context (emap : option expert_map).
Abbreviation packs := (inners l).
Abbreviation data := (em_data <$> emap).
Abbreviation n := (length packs).
Abbreviation cnt := (routed_count n data ids).
Abbreviation grp := (group packs data ids weights topk).

Context (Hready : layer_ready l) (Hcall : call_ok) (Hshape : shape_ok ids weights topk).
Context (Hpinned : match emap with Some m => t_device (em_meta m) = xdev /\ t_dtype (em_meta m) = Long /\ n <= length (em_data m)
                   | None => True end).
Context (Hdev : param_device (ml_static l) "w13_trellis" = xdev).
Context (ptrs : ptr_tables) (Hptrs : _exl3_ptrs l = Some ptrs) (cap : nat) (Htemps : _exl3_fused_temps l = Some cap).
Context (ext : extension) (Hext : exllamav3_ext img = Some ext) (Hmoe : hasattr ext "exl3_moe" = true).

Abbreviation thin_rows := (groups (fun e => if cap <? length (grp e) then [] else map (mk (expert_row limit (packs !!! e))) (grp e)) n).
Abbreviation fat_rows := (groups (fun e => if cap <? length (grp e) then map (mk (expert_row limit (packs !!! e))) (grp e) else []) n).
Abbreviation all_rows := (groups (fun e => map (mk (expert_row limit (packs !!! e))) (grp e)) n).
Abbreviation tokens_sorted := (index_select (repeat_tokens (length ids) topk) (argsort (map (local_id n data) (concat ids)))).
Abbreviation weights_sorted := (index_select (map half (concat weights)) (argsort (map (local_id n data) (concat ids)))).

Lemma cap_pos : 0 < cap.
Proof.
  pose proof (ready_tables _ Hready) as Ht. rewrite Hptrs in Ht. destruct Ht as [_ (c & Hc & Hpos)].
  rewrite Htemps in Hc. by injection Hc as <-.
Qed.

Lemma codec_ready : same_codec packs (default 4%Z (_exl3_k l)).
Proof. apply (ready_codec _ Hready). by rewrite Hptrs. Qed.

Lemma sorted_lengths : length tokens_sorted = length weights_sorted.
Proof. unfold index_select. by rewrite !length_map. Qed.

Lemma kernel_rows e : e < n ->
  map (mk (kernel_row limit ptrs (default 4%Z (_exl3_k l)) e)) (grp e) = map (mk (expert_row limit (packs !!! e))) (grp e).
Proof.
  intros He. pose proof codec_ready as Hcodec. pose proof (ready_tables _ Hready) as Ht. rewrite Hptrs in Ht.
  destruct Ht as [(a & -> & Ha) _].
  apply map_ext. intros q. unfold mk. by rewrite (kernel_row_expert limit packs _ a e _ Hcodec Ha He).
Qed.

Lemma tables_length : length (gate_trellis ptrs) = n.
Proof.
  pose proof (ready_tables _ Hready) as Ht. rewrite Hptrs in Ht. destruct Ht as [(a & -> & _) _]. apply length_map.
Qed.

Lemma launch_rows junk :
  _exl3_moe_launch limit (map (fun e => length (grp e)) (seq 0 n) ++ [junk]) tokens_sorted weights_sorted cap ptrs (default 4%Z (_exl3_k l)) =
  Ok thin_rows.
Proof.
  rewrite (launch_groups limit grp n (grp n) tokens_sorted weights_sorted sorted_lengths (sorted_zip packs data ids weights topk Hshape) ptrs _ cap junk tables_length).
  f_equal. apply groups_ext. intros e He. by rewrite kernel_rows.
Qed.

Lemma tile_rows_out max_rows : (forall e, e < n -> length (grp e) <= max_rows) ->
  exists out, _exl3_moe_row_tiles limit (map (fun e => length (grp e)) (seq 0 n)) tokens_sorted weights_sorted cap ptrs
                (default 4%Z (_exl3_k l)) max_rows = Ok out /\ out ≡ₚ all_rows.
Proof.
  intros Hmax. destruct (row_tiles_groups limit grp n (grp n) tokens_sorted weights_sorted cap sorted_lengths
                          (sorted_zip packs data ids weights topk Hshape) ptrs (default 4%Z (_exl3_k l)) max_rows cap_pos tables_length Hmax)
    as (out & E & Hp). exists out. split; [done |]. rewrite Hp. apply reflexive_eq, groups_ext. apply kernel_rows.
Qed.

(** The bags of the two sides. *)
Lemma rows_slots P : (forall e, e < n -> P e = true) ->
  all_rows ≡ₚ omap (contribute packs data P) (slots ids weights).
Proof.
  intros HP. rewrite <- (groups_slots packs data ids weights topk Hshape P). apply reflexive_eq, groups_ext.
  intros e He. by rewrite HP.
Qed.

Lemma thin_slots : thin_rows ≡ₚ omap (contribute packs data (fun e => negb (cap <? cnt e))) (slots ids weights).
Proof.
  rewrite <- (groups_slots packs data ids weights topk Hshape (fun e => negb (cap <? cnt e))).
  apply reflexive_eq, groups_ext. intros e He. rewrite group_count by done. by destruct (cap <? cnt e).
Qed.

Lemma thin_fat_slots P : (forall e, e < n -> P e = true) ->
  thin_rows ++ fat_rows ≡ₚ omap (contribute packs data P) (slots ids weights).
Proof. intros HP. rewrite (groups_split (fun e => cap <? length (grp e))). by apply rows_slots. Qed.

Lemma fat_slots : fat_rows ≡ₚ omap (contribute packs data (fun e => cap <? cnt e)) (slots ids weights).
Proof.
  rewrite <- (groups_slots packs data ids weights topk Hshape (fun e => cap <? cnt e)).
  apply reflexive_eq, groups_ext. intros e He. by rewrite group_count.
Qed.

Lemma no_overflow e : overflows packs data ids cap = false -> e < n -> cap <? cnt e = false.
Proof.
  intros Ho He. unfold overflows in Ho. destruct (cap <? cnt e) eqn:E; [|done].
  rewrite <- Ho. symmetry. apply existsb_exists. exists e. split; [|done]. apply in_seq. lia.
Qed.

Lemma thin_all : overflows packs data ids cap = false -> thin_rows = all_rows.
Proof. intros Ho. apply groups_ext. intros e He. by rewrite group_count, no_overflow. Qed.

Lemma max_overflow : list_max (map (fun e => length (grp e)) (seq 0 n)) <=? cap = negb (overflows packs data ids cap).
Proof.
  apply eq_true_iff_eq. rewrite Nat.leb_le, list_max_le, negb_true_iff, Forall_forall. split.
  - intros Hle. unfold overflows. destruct (existsb _ _) eqn:E; [|done]. apply existsb_exists in E as (e & He & Hlt).
    apply Nat.ltb_lt in Hlt. rewrite <- (group_count packs data ids weights topk Hshape) in Hlt.
    specialize (Hle (length (grp e))). apply in_seq in He.
    assert (length (grp e) <= cap); [|lia]. apply Hle, list_elem_of_fmap. exists e. split; [done |]. apply elem_of_seq. lia.
  - intros Ho x (e & -> & He%elem_of_seq)%list_elem_of_fmap. rewrite group_count by done.
    apply Nat.ltb_ge, no_overflow; [done | lia].
Qed.

(** What every path has to establish. *)
Definition done_with (path : string) (out : list (contribution W)) (s' : state) : Prop :=
  state_ok s' /\
  map (rounded half) out ≡ₚ
    omap (contribute packs data (fun e => (cap <? length ids) || negb (cap <? cnt e))) (slots ids weights) /\
  exists reason, w_last (st_world s') !! ml_id l = Some (path, reason).

Lemma rounded_perm (out : list (contribution W)) P : out ≡ₚ omap (contribute packs data P) (slots ids weights) ->
  map (rounded half) out ≡ₚ omap (contribute packs data P) (slots ids weights).
Proof.
  intros Hp. rewrite <- (rounded_contribute packs data P). change (map (rounded half)) with (fmap (M := list) (rounded half)).
  by rewrite Hp.
Qed.

Lemma prefill_slots (out : list (contribution W)) : cap < length ids ->
  map (rounded half) out ≡ₚ omap (contribute packs data (fun _ => true)) (slots ids weights) ->
  map (rounded half) out ≡ₚ
    omap (contribute packs data (fun e => (cap <? length ids) || negb (cap <? cnt e))) (slots ids weights).
Proof.
  intros Hc ->. apply reflexive_eq, contribute_ext. intros e _. by rewrite (proj2 (Nat.ltb_lt _ _) Hc).
Qed.

Lemma legacy_slots fat : (forall e, e < n -> e ∈ fat <-> cap < cnt e) -> cap < length ids ->
  map (rounded half) (thin_rows ++ apply_exl3_python_loop limit ids weights packs data (Some fat)) ≡ₚ
    omap (contribute packs data (fun _ => true)) (slots ids weights).
Proof.
  intros Hfat Hc. rewrite map_app. change (map (rounded half)) with (fmap (M := list) (rounded half)).
  rewrite (loop_slots packs data ids weights topk Hshape (Some fat)).
  2: { destruct emap; [by destruct Hpinned as (_ & _ & ?) | done]. }
  rewrite thin_slots, <- (thin_fat_slots (fun _ => true)) by done. rewrite thin_slots, fat_slots.
  change (fmap (M := list) (rounded half)) with (map (rounded half)).
  rewrite rounded_contribute. apply Permutation_app_head, reflexive_eq, (rounded_loop packs data ids weights cap). done.
Qed.

Lemma repeat_topk : repeat_tokens (length ids) (length (default [] (last ids))) = repeat_tokens (length ids) topk.
Proof.
  destruct (last ids) as [row|] eqn:El.
  - simpl. f_equal. destruct Hshape as (Hi & _). rewrite Forall_forall in Hi. apply Hi.
    rewrite last_lookup in El. by apply list_elem_of_lookup_2 in El.
  - apply last_None in El. by rewrite El.
Qed.

Lemma pinned_local : map_topk_to_local xdev ids n emap = Ok (map (local_id n data) (concat ids)).
Proof.
  unfold map_topk_to_local. destruct emap as [m|]; [|done]. destruct Hpinned as (Hd & Ht & _).
  by rewrite !bool_decide_eq_true_2.
Qed.

Lemma batched_packs : _exl3_shared_w13_suh (ml_static l) = true ->
  Forall (fun p => suh (gate p) = suh (up p) /\ codec (gate p) = codec (up p)) packs.
Proof.
  intros Hs. pose proof (ready_suh _ Hready Hs) as Hsuh. unfold same_suh in Hsuh. rewrite Forall_lookup in *.
  intros e p Hp. split; [by apply (Hsuh e) |]. assert (He : e < n) by by apply lookup_lt_Some in Hp.
  destruct (handles_codec packs _ e codec_ready He) as (Eg & Eu & _).
  rewrite (list_lookup_total_correct _ _ _ Hp) in Eg, Eu. congruence.
Qed.

(** A grouped layer: the kernels are there and read the right rows. *)
Lemma grouped_ready r : ml_resolution l = Some r -> _exl3_fat_effective_tier r = "grouped"%string ->
  exists fext, fresh_ext img = Some fext /\ 0 < tile_rows_gateup fext /\ 0 < tile_rows_down fext /\
    forall e, e < n -> map (mk (grouped_row limit ptrs e)) (grp e) = map (mk (expert_row limit (packs !!! e))) (grp e).
Proof.
  intros Hr Hg. destruct (ready_tier _ Hready) as (r' & Hr' & Ht & Href). rewrite Hr in Hr'. injection Hr' as <-.
  rewrite Hg in Ht. destruct (allowed_cases env (_exl3_shared_w13_suh (ml_static l)) (fst (eligibility_of env img (ml_static l))))
    as [(_ & Hen & Hs & He)|[(E & _)|[(E & _)|[E|E]]]]; try (rewrite E in Ht; discriminate).
  unfold refuses in Href. rewrite Hen in Href. apply orb_false_iff in Href as [Href _].
  simpl in Href. apply bool_decide_eq_false in Href. destruct (fresh_ext img) as [fext|] eqn:Hf; [|done].
  exists fext. split; [done |]. pose proof (ok_tiles Hcall) as Htiles. rewrite Hf in Htiles. destruct Htiles.
  split; [done |]. split; [done |].
  unfold eligibility_of in He. rewrite Hen in He. destruct (eligible_spec img (ml_static l) He) as (_ & _ & Hh & _).
  assert (Hc4 : same_codec packs 4).
  { unfold same_codec. eapply Forall_impl; [exact Hh |]. intros x (Hk & Hm & Hm1 & _).
    unfold codec. by rewrite Hk, Hm, Hm1. }
  pose proof (ready_tables _ Hready) as Htab. rewrite Hptrs in Htab. destruct Htab as [(a & -> & _) _].
  intros e He'. apply map_ext. intros q. unfold mk. rewrite (grouped_row_expert limit packs a e); [done | done | | done].
  by apply (ready_suh _ Hready).
Qed.

(** The grouped branch, from the launch on. *)
Lemma grouped_call s r : cap < length ids -> state_ok s -> ml_resolution l = Some r ->
  _exl3_fat_effective_tier r = "grouped"%string ->
  runs (thin ← lift (Ok thin_rows);
        fat ← apply_exl3_grouped_fat env img limit (Meta xdev true Half) (Meta xdev true Float32) (Meta xdev true Long)
                hidden (map (fun e => length (grp e)) (seq 0 n)) tokens_sorted weights_sorted l cap;
        _ ← update (_record_exl3_fat_tier (ml_id l) "grouped" "grouped_ok");
        _ ← when_log env (on_world (record_exl3_fat_expert_stats env (map (fun e => length (grp e)) (seq 0 n)) None));
        mret (thin ++ fat)) s (done_with "grouped").
Proof.
  intros Hcap Hs Hr Hg. destruct (grouped_ready r Hr Hg) as (fext & Hf & Hgu & Hdn & Hrows).
  destruct (ok_scratch Hcall) as [k Hk], (ok_stats Hcall) as [st Hst].
  apply runs_bind, (runs_lift _ thin_rows); [done |]. apply runs_bind.
  eapply (runs_grouped xdev hidden grp n (grp n) tokens_sorted weights_sorted l ptrs fext cap s k _ sorted_lengths
            (sorted_zip packs data ids weights topk Hshape) Hf Hgu Hdn Hptrs Hdev Hk Hs).
  intros s1 Hs1 Hl1.
  assert (Efat : groups (fun e => if cap <? length (grp e) then map (mk (grouped_row limit ptrs e)) (grp e) else []) n = fat_rows).
  { apply groups_ext. intros e He. by rewrite Hrows. }
  rewrite Efat.
  assert (Hslots : map (rounded half) (thin_rows ++ fat_rows) ≡ₚ
    omap (contribute packs data (fun e => (cap <? length ids) || negb (cap <? cnt e))) (slots ids weights)).
  { apply prefill_slots; [done |]. by apply rounded_perm, thin_fat_slots. }
  apply runs_bind, runs_update, runs_bind, (runs_log _ _ st); [done | intros f |]; apply runs_ret;
    (split; [|split; [exact Hslots |]]).
  - by apply logged_ok, recorded_ok.
  - apply recorded_last.
  - by apply recorded_ok.
  - apply recorded_last.
Qed.

Abbreviation counts := (map (fun e => length (grp e)) (seq 0 n)).
Abbreviation want_kernel := (fat_kernel_enabled env || grouped_fat_enabled env).
Abbreviation want_batched := (batched_fat_fallback_enabled env || want_kernel).
Abbreviation use_sorted := (sorted_fat_fallback_enabled env || want_batched).
Abbreviation use_batched := (want_batched && _exl3_shared_w13_suh (ml_static l)).
Abbreviation use_kernel := (use_batched && want_kernel).

(** The dispatch once the counts are known. *)
Definition after_counts (launched : option (list (contribution W))) (ch : option (list nat)) : M (list (contribution W)) :=
  let launch := lift (Ok thin_rows) in
  if list_max (default counts ch) <=? cap then
    _ ← update (set_diag count_thin);
    _ ← update (_record_exl3_fat_reason "thin_only");
    match launched with Some thin => mret thin | None => launch end
  else if fused_moe_row_tile_enabled env then
    _ ← update (set_diag count_row_tile);
    _ ← update (_record_exl3_fat_tier (ml_id l) "row_tile" "row_tile_preempts_fat");
    lift (_exl3_moe_row_tiles limit counts tokens_sorted weights_sorted cap ptrs (default 4%Z (_exl3_k l)) (list_max (default counts ch)))
  else
    thin ← match launched with Some thin => mret thin | None => launch end;
    if use_batched then
      _ ← update (if use_kernel then _record_exl3_fat_tier (ml_id l) "kernel" "kernel_ok"
                  else _record_exl3_fat_tier (ml_id l) "batched" "batched_ok");
      counts_host ← require ch AssertionError;
      fat ← apply_exl3_batched_fat env img limit xdev (default 0%Z (_exl3_k_words (ml_static l)))
              tokens_sorted weights_sorted counts_host packs cap use_kernel;
      mret (thin ++ fat)
    else if use_sorted then
      _ ← update (_record_exl3_fat_tier (ml_id l) "sorted" (if want_batched then "degraded_shared_suh" else "sorted_ok"));
      counts_host ← require ch AssertionError;
      fat ← lift (apply_exl3_sorted_fat limit tokens_sorted weights_sorted counts_host packs cap);
      mret (thin ++ fat)
    else
      _ ← update (_record_exl3_fat_tier (ml_id l) "legacy" "legacy_default");
      let fat := base.filter (fun e => cap < counts !!! e) (seq 0 (length counts)) in
      if bool_decide (fat = []) then mret thin
      else mret (thin ++ apply_exl3_python_loop limit ids weights packs data (Some fat)).

(** The tier the switches select is the one the load settled on. *)
Lemma effective_tier r : ml_resolution l = Some r ->
  grouped_fat_enabled env && String.eqb (_exl3_fat_effective_tier r) "grouped" = false ->
  _exl3_fat_effective_tier r =
    (if use_batched then if use_kernel then "kernel" else "batched" else if use_sorted then "sorted" else "legacy")%string /\
  (use_kernel = true -> hasattr ext "exl3_fat_gemm" = true /\ hasattr ext "exl3_fat_gemm_scatter" = true).
Proof.
  intros Hr Hng. destruct (ready_tier _ Hready) as (r' & Hr' & Ht & Href). rewrite Hr in Hr'. injection Hr' as <-.
  rewrite Ht in Hng |- *. revert Hng Href. unfold refuses, allowed_tier.
  set (eligible := fst (eligibility_of env img (ml_static l))).
  assert (Hk : has_kernel img = true -> hasattr ext "exl3_fat_gemm" = true /\ hasattr ext "exl3_fat_gemm_scatter" = true).
  { intros (ext' & He & ?)%has_kernel_spec. rewrite Hext in He. by injection He as <-. }
  tier_cases env; destruct (_exl3_shared_w13_suh (ml_static l)), eligible, (has_kernel img), (fresh_ext img); simpl; intros; try done;
    (split; [done | intros; by apply Hk || done]).
Qed.

Lemma counts_le e : e < n -> length (grp e) <= list_max counts.
Proof.
  intros He. pose proof (proj1 (list_max_le counts _) (le_n _)) as Hf. rewrite Forall_forall in Hf.
  apply Hf, list_elem_of_fmap. exists e. split; [done |]. apply elem_of_seq. lia.
Qed.

Lemma fat_list e : e < n -> e ∈ base.filter (fun e => cap < counts !!! e) (seq 0 (length counts)) <-> cap < cnt e.
Proof.
  intros He. rewrite list_elem_of_filter, elem_of_seq, length_map, length_seq, lookup_total_map by (rewrite length_seq; lia).
  rewrite lookup_total_seq_lt by done. simpl. rewrite group_count by done. lia.
Qed.

(** A tier recorded, its rows added. *)
Lemma recorded_done s path reason out : state_ok s -> cap < length ids ->
  map (rounded half) out ≡ₚ omap (contribute packs data (fun _ => true)) (slots ids weights) ->
  w_last (st_world s) !! ml_id l = Some (path, reason) ->
  done_with path out s.
Proof. intros Hs Hc Ho Hl. split; [done |]. split; [by apply prefill_slots | by exists reason]. Qed.

Lemma tier_rows : map (rounded half) (thin_rows ++ fat_rows) ≡ₚ omap (contribute packs data (fun _ => true)) (slots ids weights).
Proof. by apply rounded_perm, thin_fat_slots. Qed.

Lemma after_counts_runs s launched ch r : state_ok s -> cap < length ids -> ml_resolution l = Some r ->
  grouped_fat_enabled env && negb (fused_moe_row_tile_enabled env) && String.eqb (_exl3_fat_effective_tier r) "grouped" = false ->
  (exists reason, w_last (st_world s) !! ml_id l = Some ("none"%string, reason)) ->
  (launched = None \/ launched = Some thin_rows) -> (ch = None /\ use_sorted = false \/ ch = Some counts) ->
  runs (after_counts launched ch) s
    (done_with (if negb (overflows packs data ids cap) then "none"
                else if fused_moe_row_tile_enabled env then "row_tile" else _exl3_fat_effective_tier r)).
Proof.
  intros Hs Hcap Hr Hng Hl Hla Hch. unfold after_counts. cbv zeta.
  assert (Hd : default counts ch = counts) by by destruct Hch as [[-> _]| ->]. rewrite Hd, max_overflow.
  assert (Hthin : forall s Q, Q thin_rows s -> runs (match launched with Some thin => mret thin | None => lift (Ok thin_rows) end) s Q).
  { intros s' Q HQ. destruct Hla as [->| ->]; [by apply (runs_lift _ thin_rows) | by apply runs_ret]. }
  destruct (overflows packs data ids cap) eqn:Ho; simpl negb; cbv iota.
  - destruct (fused_moe_row_tile_enabled env) eqn:Hrow.
    + apply runs_bind, runs_update, runs_bind, runs_update.
      destruct (tile_rows_out (list_max counts)) as (out & E & Hp).
      { apply counts_le. }
      apply (runs_lift _ out); [done |]. split; [by apply recorded_ok, with_world_ok |]. split; [|apply recorded_last].
      apply prefill_slots; [done |]. apply rounded_perm. by rewrite Hp, (rows_slots (fun _ => true)).
    + destruct (effective_tier r Hr) as [-> Hk]. { by rewrite andb_true_r in Hng. }
      apply runs_bind, Hthin. destruct use_batched eqn:Hb.
      * assert (Hchs : ch = Some counts).
        { destruct Hch as [[_ Hns]|?]; [|done]. apply andb_true_iff in Hb as [Hb _]. rewrite Hb, orb_true_r in Hns. done. }
        apply runs_bind, runs_update. eapply runs_bind, runs_require; [exact Hchs |].
        destruct (ok_configured Hcall) as [conf Hconf]. apply andb_true_iff in Hb as [_ Hshared].
        apply runs_bind. eapply (runs_batched xdev _ grp n (grp n) tokens_sorted weights_sorted packs cap _ ext conf _ _
          sorted_lengths (sorted_zip packs data ids weights topk Hshape) eq_refl Hconf Hext Hk (batched_packs Hshared)).
        { destruct want_kernel; by apply recorded_ok. }
        intros s' Hs' Hl'. apply runs_ret. destruct want_kernel; cbn [st_world with_world andb] in Hl' |- *;
          (eapply recorded_done; [done | done | apply tier_rows | rewrite Hl', record_tier_last; apply lookup_insert_eq]).
      * destruct use_sorted eqn:Hsort; apply runs_bind.
        -- assert (Hchs : ch = Some counts) by (destruct Hch as [[_ Hns]|?]; [congruence | done]).
           apply runs_update. eapply runs_bind, runs_require; [exact Hchs |].
           eapply runs_bind, runs_lift.
           { apply (sorted_fat_groups limit grp n (grp n) tokens_sorted weights_sorted sorted_lengths
                      (sorted_zip packs data ids weights topk Hshape) packs cap eq_refl). }
           apply runs_ret. eapply recorded_done; [by apply recorded_ok | done | apply tier_rows |].
           cbn [st_world with_world]. rewrite record_tier_last. apply lookup_insert_eq.
        -- apply runs_update. case_bool_decide as Hnil.
           { exfalso. unfold overflows in Ho. apply existsb_exists in Ho as (e & He%in_seq & Hlt%Nat.ltb_lt).
             apply fat_list in Hlt; [|lia]. rewrite Hnil in Hlt. by apply not_elem_of_nil in Hlt. }
           apply runs_ret. eapply recorded_done; [by apply recorded_ok | done | |].
           ++ apply legacy_slots; [|done]. apply fat_list.
           ++ cbn [st_world with_world]. rewrite record_tier_last. apply lookup_insert_eq.
  - apply runs_bind, runs_update, runs_bind, runs_update, Hthin.
    split; [by apply with_world_ok; [|apply with_world_ok] |]. split; [|done].
    apply prefill_slots; [done |]. rewrite (thin_all Ho). by apply rounded_perm, rows_slots.
Qed.

Lemma fused_runs s : state_ok s ->
  runs (apply_exl3_fused_moe half env img limit xdev hidden ids weights l emap) s
    (done_with (path_of l (length ids) cap (overflows packs data ids cap))).
Proof.
  intros Hs. unfold apply_exl3_fused_moe.
  eapply runs_bind, runs_require; [exact Hext |]. eapply runs_bind, runs_require; [exact Hptrs |].
  eapply runs_bind, runs_require; [exact Htemps |]. eapply runs_bind, runs_lift; [exact pinned_local |].
  rewrite repeat_topk.
  destruct (counts_group packs data ids weights topk Hshape) as (junk & Hcounts). rewrite Hcounts.
  rewrite take_app_le, take_ge by (rewrite length_map, length_seq; lia).
  apply runs_bind, runs_raise_if; [by rewrite Hmoe |].
  apply runs_bind, runs_update. rewrite launch_rows.
  destruct (ready_tier _ Hready) as (r & Hr & Ht & Href). unfold path_of. rewrite Hr.
  set (s1 := with_world _ s). assert (Hs1 : state_ok s1) by by apply with_world_ok.
  assert (Hl1 : exists reason, w_last (st_world s1) !! ml_id l = Some ("none"%string, reason)).
  { eexists. simpl. apply lookup_insert_eq. }
  clearbody s1. clear s Hs. rename s1 into s, Hs1 into Hs, Hl1 into Hl.
  destruct (Nat.leb_spec (length ids) cap) as [Hcap|Hcap].
  { apply (runs_lift _ thin_rows); [done |]. split; [done |]. split; [|done].
    rewrite (rounded_perm _ _ thin_slots). apply reflexive_eq, contribute_ext. intros e _.
    destruct (Nat.ltb_spec cap (length ids)); [lia | done]. }
  apply runs_bind, runs_update.
  set (s1 := with_world _ s). assert (Hs1 : state_ok s1) by by apply with_world_ok.
  assert (Hl1 : w_last (st_world s1) = w_last (st_world s)) by done. rewrite <- Hl1 in Hl.
  clearbody s1. clear s Hs Hl1. rename s1 into s, Hs1 into Hs.
  destruct (grouped_fat_enabled env && negb (fused_moe_row_tile_enabled env) && String.eqb (_exl3_fat_effective_tier r) "grouped")
    eqn:Hgrouped.
  { apply (grouped_call _ r); try done. by apply andb_true_iff in Hgrouped as [_ E%String.eqb_eq]. }
  destruct (ok_stats Hcall) as [st Hst]. cbv zeta.
  assert (Hrest : forall s launched ch, state_ok s -> (exists reason, w_last (st_world s) !! ml_id l = Some ("none"%string, reason)) ->
    (launched = None \/ launched = Some thin_rows) -> (ch = None /\ use_sorted = false \/ ch = Some counts) ->
    runs (_ ← when_log env (on_world (record_exl3_fat_expert_stats env counts (Some (list_max (default counts ch)))));
          after_counts launched ch) s
      (done_with (if negb (overflows packs data ids cap) then "none"
                  else if fused_moe_row_tile_enabled env then "row_tile" else _exl3_fat_effective_tier r))).
  { intros s2 launched ch Hs2 Hl2 Hla Hch. apply runs_bind, (runs_log _ _ st); [done | intros f |];
      (apply (after_counts_runs _ _ _ r); try done; by apply logged_ok). }
  apply runs_bind. destruct (use_batched && negb (fused_moe_row_tile_enabled env)) eqn:Hb.
  - apply runs_bind. eexists _, _. split; [reflexivity |]. apply runs_bind, (runs_lift _ thin_rows); [done |].
    apply runs_bind, runs_get, runs_ret. cbn [_FAT_COUNT_CACHE]. rewrite lookup_insert_eq. apply (Hrest _ (Some thin_rows) (Some counts)); [done | done | by right | by right].
  - destruct (Sumbool.sumbool_of_bool use_sorted) as [Hsort|Hsort]; rewrite Hsort at 1; apply runs_ret.
    + apply (Hrest _ None (Some counts)); [done | done | by left | by right].
    + apply (Hrest _ None None); [done | done | by left | left; by split].
Qed.
End fused.

(** ** The shipped entry point *)

(** The temps' row count a fused call is limited to. *)
Definition temps_of (l : moe_layer) : nat := default 0 (_exl3_fused_temps l).

(** Does a call take the fused path? *)
Definition fused_path (l : moe_layer) : bool :=
  fused_moe_enabled env && bool_decide (_exl3_ptrs l <> None)
  && match exllamav3_ext img with Some ext => hasattr ext "exl3_moe" | None => false end.

Lemma pin_data emap dev : em_data <$> pin_exl3_expert_map emap dev = em_data <$> emap.
Proof. destruct emap as [m|]; [|done]. simpl. by case_match. Qed.

Lemma pin_pinned emap dev n : match emap with Some m => n <= length (em_data m) | None => True end ->
  match pin_exl3_expert_map emap dev with
  | Some m => t_device (em_meta m) = dev /\ t_dtype (em_meta m) = Long /\ n <= length (em_data m)
  | None => True end.
Proof.
  destruct emap as [m|]; [|done]. intros Hn. unfold pin_exl3_expert_map.
  case_bool_decide as Hd; [case_bool_decide as Ht|]; simpl; by split_and!.
Qed.

(** Which of the experts' slots a call computes. *)
Definition computed (l : moe_layer) (data : option (list Z)) (ids : list (list Z)) (e : nat) : bool :=
  negb (fused_path l) || (temps_of l <? length ids)
  || negb (temps_of l <? routed_count (length (inners l)) data ids e).

Lemma experts_runs (l : moe_layer) xdev hidden ids (weights : list (list W)) topk emap s :
  layer_ready l -> call_ok -> shape_ok ids weights topk -> state_ok s ->
  match emap with Some m => length (inners l) <= length (em_data m) | None => True end ->
  param_device (ml_static l) "w13_trellis" = xdev ->
  runs (apply_exl3_experts half env img limit xdev hidden ids weights l emap None) s (fun answer s' =>
    state_ok s' /\ snd answer = (if fused_path l then "fused" else "loop")%string /\
    map (rounded half) (fst answer) ≡ₚ
      omap (contribute (inners l) (em_data <$> emap) (computed l (em_data <$> emap) ids)) (slots ids weights) /\
    (fused_path l = true -> exists reason, w_last (st_world s') !! ml_id l =
       Some (path_of l (length ids) (temps_of l) (overflows (inners l) (em_data <$> emap) ids (temps_of l)), reason))).
Proof.
  intros Hready Hcall Hshape Hs Hmap Hdev. unfold apply_exl3_experts.
  rewrite bool_decide_eq_false_2 by apply Hready. cbv zeta.
  apply runs_bind, runs_raise_if; [done |].
  destruct (_exl3_ptrs l) as [ptrs|] eqn:Hptrs.
  2: { rewrite andb_false_r. simpl. apply runs_ret. unfold fused_path. rewrite Hptrs, andb_false_r. simpl.
       split; [done |]. split; [done |]. split; [|done]. rewrite pin_data.
       change (map (rounded half)) with (fmap (M := list) (rounded half)).
       rewrite (loop_slots (inners l) (em_data <$> emap) ids weights topk Hshape None) by by destruct emap.
       change (fmap (M := list) (rounded half)) with (map (rounded half)). rewrite rounded_loop_all.
       apply reflexive_eq, contribute_ext. intros e _. unfold computed, fused_path. by rewrite Hptrs, andb_false_r. }
  assert (Hf : fused_moe_enabled env && true && match exllamav3_ext img with Some ext => hasattr ext "exl3_moe" | None => false end
               = fused_path l) by (unfold fused_path; by rewrite Hptrs).
  rewrite Hf. pose proof (ready_tables _ Hready) as Ht. rewrite Hptrs in Ht. destruct Ht as [_ (cap & Htemps & _)].
  assert (Hcap : temps_of l = cap) by (unfold temps_of; by rewrite Htemps).
  destruct (fused_path l) eqn:Hfused.
  - assert (Hx : exists ext, exllamav3_ext img = Some ext /\ hasattr ext "exl3_moe" = true).
    { apply andb_true_iff in Hf as [_ Hx]. destruct (exllamav3_ext img) as [ext|]; [|done]. by exists ext. }
    destruct Hx as (ext & Hext & Hmoe). apply runs_bind.
    eapply runs_mono; [apply (fused_runs l xdev hidden ids weights topk (pin_exl3_expert_map emap xdev) Hready Hcall Hshape
      (pin_pinned emap xdev _ Hmap) Hdev ptrs Hptrs cap Htemps ext Hext Hmoe s Hs) |].
    intros out s' (Hs' & Hout & Hlast). rewrite pin_data in Hout, Hlast. apply runs_ret.
    split; [done |]. split; [done |]. split; [|intros _; by rewrite Hcap].
    simpl. rewrite Hout. apply reflexive_eq, contribute_ext. intros e _. unfold computed. by rewrite Hfused, Hcap.
  - apply runs_ret. split; [done |]. split; [done |]. split; [|done]. simpl. rewrite pin_data.
    change (map (rounded half)) with (fmap (M := list) (rounded half)).
    rewrite (loop_slots (inners l) (em_data <$> emap) ids weights topk Hshape None) by by destruct emap.
    change (fmap (M := list) (rounded half)) with (map (rounded half)). rewrite rounded_loop_all.
    apply reflexive_eq, contribute_ext. intros e _. unfold computed. by rewrite Hfused.
Qed.
End dispatch.
