(* ===== verification/Exl3Experts.v ===== *)
(** * The EXL3 routed experts: what a forward pass promises

    The properties of [apply_exl3_experts] ([overlay/exl3.py]) on a layer as the
    loader leaves it: completeness of a prefill, exactness of what a decode may
    drop, agreement of the path taken with the tier settled at load; and a
    concrete PyTorch to try them on. *)
From Stdlib Require Import ZArith QArith Lia.
From stdpp Require Import base list strings gmap sorting.
From S2P Require Import Prelude PyStr Exl3Tier Segments Exl3Moe Exl3Rows Exl3Dispatch.
Open Scope nat_scope.

(** ** Unique top-k *)

Lemma filter_le_1 (P : Z -> Prop) `{forall x, Decision (P x)} (row seen : list Z) :
  unique_row seen row = true -> (forall x, P x -> (0 <= x)%Z) -> (forall x y, P x -> P y -> x = y) ->
  length (base.filter P row) <= 1 /\ ((exists x, P x /\ x ∈ seen) -> base.filter P row = []).
Proof.
  intros Hu Hpos Hone. revert seen Hu. induction row as [|x row IH]; intros seen Hu; [split; [simpl; lia | done] |].
  simpl in Hu. destruct (Z.ltb_spec x 0).
  - rewrite filter_cons_False by (intros Hx; apply Hpos in Hx; lia). by apply IH.
  - case_bool_decide as Hin; [done |]. destruct (IH _ Hu) as [Hle Hnil]. destruct (decide (P x)) as [Hx|Hx].
    + rewrite filter_cons_True by done. assert (E : base.filter P row = []) by (apply Hnil; exists x; split; [done | by left]).
      rewrite E. split; [simpl; lia |]. intros (y & Hy & Hys). by rewrite (Hone y x Hy Hx) in Hys.
    + rewrite filter_cons_False by done. split; [done |]. intros (y & Hy & Hys). apply Hnil. exists y. split; [done | by right].
Qed.

(** Every local expert has at most one global id. *)
Definition map_injective (data : option (list Z)) : Prop :=
  match data with
  | None => True
  | Some m => forall i j x, m !! i = Some x -> m !! j = Some x -> (0 <= x)%Z -> i = j
  end.

Lemma local_id_inv n data id e : local_id n data id = e -> e < n ->
  (0 <= id)%Z /\ match data with None => id = Z.of_nat e | Some m => m !! Z.to_nat id = Some (Z.of_nat e) end.
Proof.
  intros Hid He. unfold local_id in Hid. destruct data as [m|].
  - destruct (Z.ltb_spec id 0); simpl in Hid; [lia |]. destruct (Z.leb_spec (Z.of_nat (length m)) id); simpl in Hid; [lia |].
    destruct (Nat.eqb_spec (length m) 0) as [|_]; [lia |].
    replace (Z.max 0 (Z.min id (Z.max (Z.of_nat (length m) - 1) 0))) with id in Hid by lia. split; [done |].
    rewrite (list_lookup_lookup_total_lt m) by lia. f_equal.
    destruct (Z.ltb_spec (m !!! Z.to_nat id) 0); simpl in Hid; [lia |].
    destruct (Z.leb_spec (Z.of_nat n) (m !!! Z.to_nat id)); simpl in Hid; lia.
  - destruct (Z.ltb_spec id 0); simpl in Hid; [lia |]. destruct (Z.leb_spec (Z.of_nat n) id); simpl in Hid; [lia |]. lia.
Qed.

(** Distinct experts per token: no expert gets more rows than there are tokens. *)
Lemma unique_count n data ids e : unique_per_token_topk_ids ids = true -> map_injective data -> e < n ->
  routed_count n data ids e <= length ids.
Proof.
  intros Hu Hinj He. unfold routed_count. unfold unique_per_token_topk_ids in Hu.
  induction ids as [|row ids IH]; [done |]. simpl in *. apply andb_true_iff in Hu as [Hrow Hu].
  rewrite filter_app, length_app. specialize (IH Hu).
  enough (length (base.filter (fun id => local_id n data id = e) row) <= 1) by lia.
  eapply (proj1 (filter_le_1 _ row [] Hrow _ _)).
  Unshelve.
  - intros x Hx. by apply (local_id_inv n data x e).
  - intros x y Hx Hy. destruct (local_id_inv n data x e Hx He) as [Hx0 Hx'], (local_id_inv n data y e Hy He) as [Hy0 Hy'].
    destruct data as [m|]; [|lia]. pose proof (Hinj _ _ _ Hx' Hy' ltac:(lia)). lia.
Qed.

(** The largest group, as the host sees it. *)
Definition hottest (packs : list pack) data ids : nat := list_max (map (routed_count (length packs) data ids) (seq 0 (length packs))).

Lemma overflow_hottest packs data ids cap : overflows packs data ids cap = (cap <? hottest packs data ids).
Proof.
  apply eq_true_iff_eq. unfold overflows, hottest. rewrite existsb_exists, Nat.ltb_lt. split.
  - intros (e & He & Hlt%Nat.ltb_lt). destruct (decide (cap < list_max (map (routed_count (length packs) data ids) (seq 0 (length packs)))))
      as [|Hge]; [done |]. apply Nat.nlt_ge in Hge. rewrite list_max_le, Forall_forall in Hge.
    enough (routed_count (length packs) data ids e <= cap) by lia. apply Hge, list_elem_of_fmap. exists e.
    split; [done |]. apply in_seq in He. apply elem_of_seq. lia.
  - intros Hlt. destruct (existsb (fun e => cap <? routed_count (length packs) data ids e) (seq 0 (length packs))) eqn:E;
      [by apply existsb_exists in E |]. exfalso.
    enough (list_max (map (routed_count (length packs) data ids) (seq 0 (length packs))) <= cap) by lia.
    apply list_max_le, Forall_forall. intros x (e & -> & He%elem_of_seq)%list_elem_of_fmap.
    destruct (decide (routed_count (length packs) data ids e <= cap)); [done |].
    rewrite <- not_true_iff_false, existsb_exists in E. destruct E. exists e. split; [apply in_seq; lia | apply Nat.ltb_lt; lia].
Qed.

(** ** The properties *)

Section experts.
Context {W : Type} `{Inhabited W} (half : W -> W) `{TorchLaws}.
Context (env : environ) (img : image) (limit : Q).
Context (Hcapture : stream_capturing img = false) (Hidem : forall w, half (half w) = half w).

(** C<n>. A forward pass of a loaded layer that has more tokens than temp rows,
    or takes the python loop, returns; and what it adds is, weights rounded to
    fp16, exactly one row per slot routed to a local expert, computed with that
    expert's own matrices: whichever tier is switched on, however the sort
    breaks ties, whatever the scratch buffers held, with shared or separate
    scales, and with or without an expert map. *)
Theorem prefill_complete (l : moe_layer) xdev hidden ids (weights : list (list W)) topk emap s :
  layer_ready env img l -> call_ok env img -> shape_ok ids weights topk -> state_ok img s ->
  match emap with Some m => length (inners l) <= length (em_data m) | None => True end ->
  param_device (ml_static l) "w13_trellis" = xdev ->
  (fused_path env img l = true -> temps_of l < length ids) ->
  exists out path s',
    apply_exl3_experts half env img limit xdev hidden ids weights l emap None s = (Ok (out, path), s') /\
    state_ok img s' /\
    map (rounded half) out ≡ₚ map (rounded half) (moe_reference limit (inners l) (em_data <$> emap) ids weights).
Proof.
  intros Hready Hcall Hshape Hs Hmap Hdev Hbig.
  destruct (experts_runs half env img limit Hcapture Hidem l xdev hidden ids weights topk emap s Hready Hcall Hshape Hs Hmap Hdev)
    as ([out path] & s' & E & Hs' & _ & Hout & _). exists out, path, s'. split; [done |]. split; [done |].
  simpl in Hout. rewrite Hout, rounded_reference. apply reflexive_eq, contribute_ext. intros e _. unfold computed.
  destruct (fused_path env img l); [|done]. by rewrite (proj2 (Nat.ltb_lt _ _) (Hbig eq_refl)).
Qed.

(** C<n>. A fused call with at most as many tokens as temp rows (a decode)
    computes exactly the slots of the experts with at most that many rows and
    drops the others; it drops something exactly when
    [fused_moe_decode_skips_fat] says so of the hottest expert. When every
    token picks distinct experts nothing is dropped and the row-floor gate
    [w2_trf32_no_fallback_skip] agrees. *)
Theorem decode_drops_exactly (l : moe_layer) xdev hidden ids (weights : list (list W)) topk emap s :
  layer_ready env img l -> call_ok env img -> shape_ok ids weights topk -> state_ok img s ->
  match emap with Some m => length (inners l) <= length (em_data m) | None => True end ->
  param_device (ml_static l) "w13_trellis" = xdev ->
  fused_path env img l = true -> length ids <= temps_of l ->
  let data := em_data <$> emap in
  let packs := inners l in
  let cap := temps_of l in
  let skips := fused_moe_decode_skips_fat (Z.of_nat (length ids)) (Z.of_nat (hottest packs data ids)) (Z.of_nat cap) in
  exists out s',
    apply_exl3_experts half env img limit xdev hidden ids weights l emap None s = (Ok (out, "fused"%string), s') /\
    map (rounded half) out ≡ₚ map (rounded half)
      (omap (fun q => if routed_count (length packs) data ids (local_id (length packs) data (snd (fst q))) <=? cap
                      then (fun p => job limit p (fst (fst q)) (snd q)) <$> route packs data (snd (fst q)) else None)
         (slots ids weights)) /\
    (skips = true <-> exists e, e < length packs /\ cap < routed_count (length packs) data ids e) /\
    (unique_per_token_topk_ids ids = true -> map_injective data ->
       skips = false /\ w2_trf32_no_fallback_skip (Z.of_nat (length ids)) true None (Z.of_nat cap) = false /\
       map (rounded half) out ≡ₚ map (rounded half) (moe_reference limit packs data ids weights)).
Proof.
  intros Hready Hcall Hshape Hs Hmap Hdev Hfused Hsmall data packs cap skips.
  destruct (experts_runs half env img limit Hcapture Hidem l xdev hidden ids weights topk emap s Hready Hcall Hshape Hs Hmap Hdev)
    as ([out path] & s' & E & Hs' & Hpath & Hout & _). simpl in Hpath, Hout. rewrite Hfused in Hpath. subst path.
  assert (Hcomp : forall e, computed env img l data ids e = negb (cap <? routed_count (length packs) data ids e)).
  { intros e. unfold computed. rewrite Hfused. by rewrite (proj2 (Nat.ltb_ge _ _) Hsmall). }
  assert (Hskips : skips = overflows packs data ids cap).
  { subst skips. unfold fused_moe_decode_skips_fat. rewrite overflow_hottest.
    destruct (Z.ltb_spec (Z.of_nat cap) (Z.of_nat (length ids))); [lia |].
    destruct (Z.ltb_spec (Z.of_nat cap) (Z.of_nat (hottest packs data ids))), (Nat.ltb_spec cap (hottest packs data ids)); lia || done. }
  exists out, s'. split; [done |]. split; [|split].
  - rewrite Hout. change (map (rounded half)) with (fmap (M := list) (rounded half)). rewrite list_fmap_omap.
    apply reflexive_eq, omap_ext_in. intros q _. unfold contribute. rewrite Hcomp, <- local_route, <- Nat.leb_antisym.
    subst packs data cap. cbv zeta. destruct (_ <=? _); [|done]. by destruct (inners l !! _).
  - rewrite Hskips. unfold overflows. rewrite existsb_exists. split; intros (e & He & Hlt); exists e.
    + apply in_seq in He. apply Nat.ltb_lt in Hlt. split; [lia | done].
    + split; [apply in_seq; lia | by apply Nat.ltb_lt].
  - intros Hu Hinj. assert (Hno : overflows packs data ids cap = false).
    { apply not_true_iff_false. unfold overflows. rewrite existsb_exists. intros (e & He%in_seq & Hlt%Nat.ltb_lt).
      pose proof (unique_count (length packs) data ids e Hu Hinj ltac:(lia)). lia. }
    split; [by rewrite Hskips |]. split.
    + unfold w2_trf32_no_fallback_skip, unique_topk_hottest_upper_bound, fused_moe_decode_skips_fat.
      destruct (Z.ltb_spec (Z.of_nat cap) (Z.of_nat (length ids))); [done |]. apply Z.ltb_ge. lia.
    + rewrite Hout, rounded_reference. apply reflexive_eq, contribute_ext. intros e He. rewrite Hcomp.
      pose proof (no_overflow l ids emap cap e Hno He) as Hlt. subst packs data. cbv beta zeta in *. by rewrite Hlt.
Qed.

End experts.

(** ** A concrete PyTorch *)

Fixpoint list_cumsum (acc : nat) (t : list nat) : list nat :=
  match t with [] => [] | x :: t => (acc + x) :: list_cumsum (acc + x) t end.

Fixpoint list_searchsorted (t : list nat) (v : nat) : nat :=
  match t with [] => 0 | x :: t => if x <=? v then S (list_searchsorted t v) else 0 end.

Definition key_le (t : list nat) (i j : nat) : Prop := t !!! i <= t !!! j.
#[export] Instance key_le_dec t i j : Decision (key_le t i j) := Compare_dec.le_dec _ _.
#[export] Instance key_le_total t : Total (key_le t).
Proof. intros i j. unfold key_le. lia. Qed.

Definition list_argsort (t : list nat) : list nat := merge_sort (key_le t) (seq 0 (length t)).

#[export] Instance list_torch : Torch := {
  argsort := list_argsort;
  unique := fun t => remove_dups t;
  cumsum := list_cumsum 0;
  searchsorted_right := list_searchsorted;
  scatter_add_ones := fun n t => map (fun i => length (base.filter (eq i) t)) (seq 0 n)
}.

Lemma list_cumsum_length acc t : length (list_cumsum acc t) = length t.
Proof. revert acc. induction t as [|x t IH]; intros acc; [done |]. simpl. by rewrite IH. Qed.

Lemma list_cumsum_lookup acc t i : i < length t -> list_cumsum acc t !!! i = acc + sum (take (S i) t).
Proof.
  revert acc i. induction t as [|x t IH]; intros acc i Hi; simpl in *; [lia |].
  destruct i as [|i]; simpl; [lia |]. rewrite IH by lia. simpl. lia.
Qed.

Lemma list_searchsorted_spec t v : list_searchsorted t v <= length t /\
  (forall i, i < list_searchsorted t v -> t !!! i <= v) /\
  (list_searchsorted t v < length t -> v < t !!! list_searchsorted t v).
Proof.
  induction t as [|x t (IH1 & IH2 & IH3)]; simpl; [split_and!; lia |]. destruct (Nat.leb_spec x v); split_and!; try lia.
  - intros [|i] Hi; [done |]. apply IH2. lia.
  - intros Hlt. apply IH3. lia.
  - done.
Qed.

Lemma Sorted_key {A} (R : A -> A -> Prop) (f : A -> nat) l : (forall a b, R a b -> f a <= f b) -> Sorted R l -> Sorted le (map f l).
Proof.
  intros Hf. induction 1 as [|a l Hs IH Hd]; simpl; [constructor |]. constructor; [done |].
  destruct Hd; simpl; constructor. by apply Hf.
Qed.

#[export] Instance list_torch_laws : TorchLaws.
Proof.
  split; simpl.
  - intros t. apply merge_sort_Permutation.
  - intros t. eapply Sorted_key; [|apply Sorted_merge_sort, _]. done.
  - intros t. apply NoDup_remove_dups.
  - intros t x. apply elem_of_remove_dups.
  - intros t. apply list_cumsum_length.
  - intros t i Hi. by rewrite list_cumsum_lookup.
  - intros a v i Hi _. by apply list_searchsorted_spec.
  - intros a v Hlt _. by apply list_searchsorted_spec.
  - intros a v. apply list_searchsorted_spec.
  - intros n t. by rewrite length_map, length_seq.
  - intros n t i Hi. rewrite lookup_total_map by by rewrite length_seq. by rewrite lookup_total_seq_lt.
Qed.

(** ** A production layer *)

(** Weights are integers, rounded to even ones. *)
Definition demo_half (w : Z) : Z := (w / 2 * 2)%Z.
Lemma demo_half_idem w : demo_half (demo_half w) = demo_half w.
Proof. unfold demo_half. by rewrite Z.div_mul. Qed.

Definition demo_env (tier : string) : environ := {[tier := "1"]}.
Definition demo_tier (tier : string) : option resolution :=
  match fst (_record_exl3_fat_resolution (demo_env tier) demo_image demo_layer initial_world) with
  | Ok r => Some r | Raise _ => None end.
Definition demo_moe (tier : string) : moe_layer :=
  MoeLayer 7 demo_layer (Some (tables_of (_exl3_inners demo_layer) true)) (Some 2) (Some 4%Z) (demo_tier tier).
Definition demo_state : state := State initial_world ∅ ∅ ∅.
Definition demo_device : device := Device "cuda" (Some 0%Z).

Lemma demo_state_ok : state_ok demo_image demo_state.
Proof. split; [by left | apply map_Forall_empty]. Qed.

Lemma demo_ready tier : tier = "EXL3_FAT_GROUPED"%string \/ tier = "EXL3_FAT_KERNEL"%string ->
  layer_ready (demo_env tier) demo_image (demo_moe tier) /\ call_ok (demo_env tier) demo_image.
Proof.
  intros Ht. split.
  - split.
    + done.
    + split; [|exists 2; split; [done | lia]]. exists true. split; [done |]. intros _. repeat constructor.
    + intros _. repeat constructor.
    + intros _. repeat constructor.
    + destruct Ht as [->| ->]; vm_compute; (eexists; split_and!; reflexivity).
  - split; [| | |by vm_compute; lia]; destruct Ht as [->| ->]; vm_compute; eexists; reflexivity.
Qed.

(** Five tokens, two experts each; expert 0 overflows the two temp rows. *)
Definition demo_ids : list (list Z) := [[0; 1]; [0; 2]; [0; -1]; [5; 0]; [1; 0]]%Z.
Definition demo_weights : list (list Z) := [[10; 11]; [12; 13]; [14; 15]; [16; 17]; [18; 19]]%Z.

Lemma prefill_complete_witness : exists out path s',
  apply_exl3_experts demo_half (demo_env "EXL3_FAT_GROUPED") demo_image 10 demo_device 4096 demo_ids demo_weights
    (demo_moe "EXL3_FAT_GROUPED") None None demo_state = (Ok (out, path), s') /\ state_ok demo_image s' /\
  map (rounded demo_half) out ≡ₚ
    map (rounded demo_half) (moe_reference 10 (_exl3_inners demo_layer) None demo_ids demo_weights).
Proof.
  destruct (demo_ready "EXL3_FAT_GROUPED" ltac:(by left)) as [Hready Hcall].
  apply (prefill_complete demo_half (demo_env "EXL3_FAT_GROUPED") demo_image 10 eq_refl demo_half_idem
           (demo_moe "EXL3_FAT_GROUPED") demo_device 4096 demo_ids demo_weights 2 None demo_state Hready Hcall).
  - split_and!; repeat constructor.
  - exact demo_state_ok.
  - exact I.
  - reflexivity.
  - intros _. vm_compute. lia.
Defined.

(** The same batch really takes the grouped kernels, and computes eight rows. *)
Lemma demo_grouped_run :
  match apply_exl3_experts demo_half (demo_env "EXL3_FAT_GROUPED") demo_image 10 demo_device 4096 demo_ids demo_weights
          (demo_moe "EXL3_FAT_GROUPED") None None demo_state with
  | (Ok (out, path), s') => (length out, path, w_last (st_world s') !! 7%Z, grouped_calls (w_diag (st_world s')))
  | _ => (0, "", None, 0)
  end = (8, "fused", Some ("grouped", "grouped_ok"), 1)%string.
Proof. vm_compute. reflexivity. Qed.

(** Two tokens, one of them naming expert 0 twice: three rows for two temp rows. *)
Definition decode_ids : list (list Z) := [[0; 0]; [0; 1]]%Z.
Definition decode_weights : list (list Z) := [[10; 11]; [12; 13]]%Z.

Lemma decode_drops_exactly_witness : exists out s',
  apply_exl3_experts demo_half (demo_env "EXL3_FAT_KERNEL") demo_image 10 demo_device 4096 decode_ids decode_weights
    (demo_moe "EXL3_FAT_KERNEL") None None demo_state = (Ok (out, "fused"%string), s') /\
  length out = 1 /\ fused_moe_decode_skips_fat 2 3 2 = true.
Proof.
  destruct (demo_ready "EXL3_FAT_KERNEL" ltac:(by right)) as [Hready Hcall].
  destruct (decode_drops_exactly demo_half (demo_env "EXL3_FAT_KERNEL") demo_image 10 eq_refl demo_half_idem
           (demo_moe "EXL3_FAT_KERNEL") demo_device 4096 decode_ids decode_weights 2 None demo_state Hready Hcall)
    as (out & s' & E & Hp & _).
  - split_and!; repeat constructor.
  - exact demo_state_ok.
  - exact I.
  - reflexivity.
  - reflexivity.
  - vm_compute. lia.
  - exists out, s'. split; [exact E |]. split; [|reflexivity].
    apply Permutation_length in Hp. rewrite length_map in Hp. rewrite Hp. vm_compute. reflexivity.
Defined.

