(* ===== verification/Exl3Load.v ===== *)
(** * Loading EXL3 experts: shards, packed parameters, handles

    Model of the loading half of [overlay/exl3.py]: the quantization config, the
    tensor-parallel shards, [Exl3MoEMethod.create_weights], [_load_exl3] and
    [process_weights_after_loading] with [build_exl3_fused_state].  A tensor is
    its shape and its entries; views and contiguous copies are the same tensor.
    vLLM's expert map and ranks and exllamav3's [LinearEXL3] are arguments. *)
From Stdlib Require Import ZArith QArith Lia Ascii.
From stdpp Require Import base list strings gmap sorting.
From S2P Require Import Prelude PyStr Exl3Tier Segments Exl3Moe Exl3Rows Exl3Dispatch.
Open Scope nat_scope.

(** ** Tensors *)

Record tensor := Tensor { shape : list nat; entry : list nat -> Z }.

(** Indices within a shape. *)
Definition valid (s idx : list nat) : Prop := Forall2 lt idx s.

Definition numel (t : tensor) : nat := foldr Nat.mul 1 (shape t).

(** The same shape and the same entries: [torch.equal]. *)
#[export] Instance tensor_equiv : Equiv tensor := fun t u =>
  shape t = shape u /\ forall idx, valid (shape t) idx -> entry t idx = entry u idx.

#[export] Instance tensor_equivalence : Equivalence tensor_equiv.
Proof.
  split.
  - intros t. by split.
  - intros t u [Hs He]. split; [done |]. intros idx Hi. symmetry. apply He. by rewrite Hs.
  - intros t u v [Hs He] [Hs' He']. split; [congruence |]. intros idx Hi. rewrite He by done. apply He'. by rewrite <- Hs.
Qed.

(** [t[i]]. *)
Definition select (t : tensor) (i : nat) : tensor := Tensor (tail (shape t)) (fun idx => entry t (i :: idx)).
(** [t[:, i]]. *)
Definition select_second (t : tensor) (i : nat) : tensor :=
  Tensor (match shape t with a :: _ :: s => a :: s | s => s end)
    (fun idx => match idx with a :: rest => entry t (a :: i :: rest) | [] => entry t [] end).

(** [t.narrow(dim, start, len)]. *)
Definition narrow (t : tensor) (dim start len : nat) : tensor :=
  Tensor (<[dim := len]> (shape t)) (fun idx => entry t (alter (Nat.add start) dim idx)).

(** All indices of a shape, in row-major order. *)
Fixpoint indices (s : list nat) : list (list nat) :=
  match s with
  | [] => [[]]
  | d :: s => concat (map (fun i => map (cons i) (indices s)) (seq 0 d))
  end.
Definition entries (t : tensor) : list Z := map (entry t) (indices (shape t)).

(** ** Shards *)

Definition EXL3_SUFFIXES : list string := ["trellis"; "suh"; "svh"; "mcg"]%string.

Definition _narrow_tp (t : tensor) (dim tp_rank tp_size : nat) : res tensor :=
  if tp_size <=? 1 then Ok t
  else match shape t !! dim with
       | None => Raise IndexError
       | Some size =>
           if negb (size mod tp_size =? 0) then Raise ValueError
           else let chunk := size / tp_size in Ok (narrow t dim (chunk * tp_rank) chunk)
       end.

Definition shard_exl3_col (loaded : tensor) (suffix : string) (tp_rank tp_size : nat) : res tensor :=
  if String.eqb suffix "trellis" then _narrow_tp loaded 1 tp_rank tp_size
  else if String.eqb suffix "svh" then _narrow_tp loaded 0 tp_rank tp_size
  else Ok loaded.

Definition shard_exl3_row (loaded : tensor) (suffix : string) (tp_rank tp_size : nat) : res tensor :=
  if String.eqb suffix "trellis" then _narrow_tp loaded 0 tp_rank tp_size
  else if String.eqb suffix "suh" then _narrow_tp loaded 0 tp_rank tp_size
  else Ok loaded.

(** [s.endswith(suffix)] and [name.rsplit(".", 1)[-1]]. *)
Fixpoint endswith (suffix s : string) : bool :=
  String.eqb suffix s || match s with EmptyString => false | String _ s => endswith suffix s end.
Definition after_last_dot (name : string) : string := default ""%string (last (split_char "."%char name)).

Definition _suffix_from_mapped_name (weight_name : string) : res string :=
  let tail := after_last_dot weight_name in
  match List.find (fun suffix => String.eqb tail suffix || endswith ("_" ++ suffix) tail) EXL3_SUFFIXES with
  | Some suffix => Ok suffix
  | None => Raise ValueError
  end.

(** ** The quantization config *)

(** [str(v)]; the text of an arbitrary object is not known to the model. *)
Definition py_str (v : pyval) : string :=
  match v with
  | VNone => "None" | VBool true => "True" | VBool false => "False"
  | VInt z => show z | VStr s => s | VObj => "<object>"
  end%string.

Record exl3_config := Exl3Config { bits : Z; codebook : string; scope : string; raw_config : gmap string pyval }.

(** [Exl3Config.__init__]. *)
Definition new_exl3_config (bits : Z) (codebook scope : string) (kwargs : gmap string pyval) : res exl3_config :=
  if negb (String.eqb codebook "mcg") then Raise ValueError
  else if negb (bool_decide (bits ∈ [3; 4; 5; 6]%Z)) then Raise ValueError
  else Ok (Exl3Config bits codebook scope kwargs).

Definition SKIPPED : list string := ["bits"; "codebook"; "scope"; "quant_method"; "tensor_storage"]%string.

Definition from_config (config : gmap string pyval) : res exl3_config :=
  bits ← py_int (default (VInt 4) (config !! "bits"%string));
  new_exl3_config bits (py_str (default (VStr "mcg") (config !! "codebook"%string)))
    (py_str (default (VStr "glm53_routed_experts_only") (config !! "scope"%string)))
    (base.filter (fun kv => fst kv ∉ SKIPPED) config).

(** [override_quantization_method]; [hf_quant_cfg] may be [None]. *)
Definition override_quantization_method (hf_quant_cfg : option (gmap string pyval)) : option string :=
  let method := lower (py_str (default (VStr "") (default ∅ hf_quant_cfg !! "quant_method"%string))) in
  if String.eqb method "exl3" then Some "exl3"%string else None.

(** The layers vLLM asks about, and the answer of [get_quant_method]. *)
Inductive layer_kind := RoutedExperts | LinearBase | OtherLayer.
Inductive quant_method := Exl3MoEMethod (c : exl3_config) | UnquantizedLinearMethod.
Definition get_quant_method (c : exl3_config) (kind : layer_kind) : option quant_method :=
  match kind with
  | RoutedExperts => Some (Exl3MoEMethod c)
  | LinearBase => Some UnquantizedLinearMethod
  | OtherLayer => None
  end.

(** ** Packed parameters *)

(** The eight parameters of a layer. *)
Record params := Params {
  w13_trellis : tensor; w13_suh : tensor; w13_svh : tensor; w13_mcg : tensor;
  w2_trellis : tensor; w2_suh : tensor; w2_svh : tensor; w2_mcg : tensor
}.

(** What [create_weights] leaves on the layer. *)
Record weights_layer := WeightsLayer {
  wl_params : params;
  wl_hidden : nat; wl_intermediate : nat; wl_k_words : nat; wl_bits : nat
}.

(** [torch.empty]: [garbage] is what the memory held. *)
Definition empty (garbage : list nat -> Z) (s : list nat) : tensor := Tensor s garbage.

(** [dense] says whether the layer already has a dense expert weight. *)
Definition create_weights (bits : nat) (garbage : list nat -> Z) (dense : bool)
    (num_experts hidden_size intermediate : nat) : res weights_layer :=
  if negb (hidden_size mod 16 =? 0) || negb (intermediate mod 16 =? 0) then Raise ValueError
  else
    let k_words := bits * 16 in
    let in_tiles := hidden_size / 16 in
    let out_tiles := intermediate / 16 in
    let e := empty garbage in
    if dense then Raise RuntimeError
    else Ok (WeightsLayer
      (Params (e [num_experts; 2; in_tiles; out_tiles; k_words]) (e [num_experts; 2; hidden_size])
         (e [num_experts; 2; intermediate]) (e [num_experts; 2; 1])
         (e [num_experts; out_tiles; in_tiles; k_words]) (e [num_experts; intermediate])
         (e [num_experts; hidden_size]) (e [num_experts; 1]))
      hidden_size intermediate k_words bits).

(** [dest.copy_(v)] for [dest = param[path]]. *)
Definition copy_into (param : tensor) (path : list nat) (v : tensor) : tensor :=
  Tensor (shape param) (fun idx =>
    if bool_decide (take (length path) idx = path) then entry v (drop (length path) idx) else entry param idx).

Definition dest_shape (param : tensor) (path : list nat) : list nat := drop (length path) (shape param).

(** A Python index into a dimension. *)
Definition py_index (i : Z) (size : nat) : res nat :=
  if ((0 <=? i) && (i <? Z.of_nat size))%Z then Ok (Z.to_nat i)
  else if ((i <? 0) && (- Z.of_nat size <=? i))%Z then Ok (Z.to_nat (i + Z.of_nat size))
  else Raise IndexError.

(** [_load_exl3]: the parameter after the call and [return_success]'s answer.
    [owner] is vLLM's map from global to local expert ids, where there is one. *)
Definition _load_exl3 (param loaded_weight : tensor) (weight_name shard_id : string) (expert_id : Z)
    (return_success : bool) (owner : option (Z -> Z)) (tp_rank tp_size : nat) : res (tensor * option bool) :=
  let expert_id := match owner with Some m => m expert_id | None => expert_id end in
  if match owner with Some _ => (expert_id =? -1)%Z | None => false end
  then Ok (param, if return_success then Some false else None)
  else
    suffix ← _suffix_from_mapped_name weight_name;
    '(sharded, path) ←
      (if String.eqb shard_id "w1" || String.eqb shard_id "w3" then
         sharded ← shard_exl3_col loaded_weight suffix tp_rank tp_size;
         e ← py_index expert_id (nth 0 (shape param) 0);
         i ← py_index (if String.eqb shard_id "w1" then 0 else 1) (nth 1 (shape param) 0);
         mret (sharded, [e; i])
       else if String.eqb shard_id "w2" then
         sharded ← shard_exl3_row loaded_weight suffix tp_rank tp_size;
         e ← py_index expert_id (nth 0 (shape param) 0);
         mret (sharded, [e])
       else Raise ValueError);
    if negb (bool_decide (dest_shape param path = shape sharded)) then Raise RuntimeError
    else Ok (copy_into param path sharded, if return_success then Some true else None).

(** ** After loading *)

Definition MCG_MARKER_SIGNED_INT32 : Z := (-877912083)%Z.

Definition torch_equal (t u : tensor) : bool :=
  bool_decide (shape t = shape u) && bool_decide (entries t = entries u).

Section process.
(** exllamav3's handle: in and out features, then the four tensors. *)
Context (LinearEXL3 : Z -> Z -> tensor -> tensor -> tensor -> tensor -> linear).
Context (env : environ) (img : image).

Definition make_linear_exl3 (trellis suh svh mcg : tensor) : linear :=
  LinearEXL3 (Z.of_nat (numel suh)) (Z.of_nat (numel svh)) trellis suh svh mcg.

(** One round of the loop over the experts. *)
Definition make_pack (p : params) (e : nat) : pack :=
  Pack
    (make_linear_exl3 (select (select (w13_trellis p) e) 0) (select (select (w13_suh p) e) 0)
       (select (select (w13_svh p) e) 0) (select (select (w13_mcg p) e) 0))
    (make_linear_exl3 (select (select (w13_trellis p) e) 1) (select (select (w13_suh p) e) 1)
       (select (select (w13_svh p) e) 1) (select (select (w13_mcg p) e) 1))
    (make_linear_exl3 (select (w2_trellis p) e) (select (w2_suh p) e) (select (w2_svh p) e) (select (w2_mcg p) e)).

(** [alias_exl3_fused_up_suh]: the tables after it, and its answer. *)
Definition alias_exl3_fused_up_suh (ptrs : ptr_tables) (shared : bool) : res (ptr_tables * bool) :=
  reuse ← fused_moe_reuse_enabled env;
  if negb reuse then Ok (ptrs, false)
  else if negb shared then Raise RuntimeError
  else if negb (pipeline_enabled env) then Raise RuntimeError
  else Ok (Ptrs (gate_trellis ptrs) (gate_suh ptrs) (gate_svh ptrs) (up_trellis ptrs) (gate_suh ptrs) (up_svh ptrs)
             (down_trellis ptrs) (down_suh ptrs) (down_svh ptrs), true).

(** [build_exl3_fused_state]: tables, temp rows, concurrency, the alias flag. *)
Definition build_exl3_fused_state (ext : extension) (inners : list pack) (shared : bool)
    : res (ptr_tables * nat * Z * bool) :=
  let ptrs := Ptrs (map (fun p => trellis (gate p)) inners) (map (fun p => suh (gate p)) inners)
    (map (fun p => svh (gate p)) inners) (map (fun p => trellis (up p)) inners)
    (map (fun p => suh (up p)) inners) (map (fun p => svh (up p)) inners)
    (map (fun p => trellis (down p)) inners) (map (fun p => suh (down p)) inners) (map (fun p => svh (down p)) inners) in
  let concurrency := if (moe_max_concurrency ext <? 1)%Z then 1%Z else moe_max_concurrency ext in
  rows ← temp_rows_fused env;
  '(ptrs, aliased) ← alias_exl3_fused_up_suh ptrs shared;
  mret (ptrs, Z.to_nat rows, concurrency, aliased).

(** The fused state, or why there is none: the [try] of
    [process_weights_after_loading]. *)
Definition try_fused_state (inners : list pack) (shared : bool) : res (option (ptr_tables * nat * Z * bool)) :=
  if negb (fused_moe_enabled env) then Ok None
  else match exllamav3_ext img with
       | Some ext =>
           if hasattr ext "exl3_moe" then
             match build_exl3_fused_state ext inners shared with
             | Ok st => Ok (Some st)
             | Raise _ =>
                 reuse ← fused_moe_reuse_enabled env;
                 if (reuse : bool) then Raise RuntimeError else Ok None
             end
           else Ok None
       | None =>
           reuse ← fused_moe_reuse_enabled env;
           if (reuse : bool) then Raise RuntimeError else Ok None
       end.

(** What reuse requires before the fused state is built. *)
Definition reuse_checks (shared : bool) : res unit :=
  reuse ← fused_moe_reuse_enabled env;
  if negb reuse then Ok tt
  else if negb (pipeline_enabled env) then Raise RuntimeError
  else if negb (fused_moe_enabled env) then Raise RuntimeError
  else if negb shared then Raise RuntimeError
  else Ok tt.

(** The static part of the layer, once its handles exist. *)
Definition static_layer (wl : weights_layer) (devices : string -> device) : layer :=
  let p := wl_params wl in
  Layer (Some (Z.of_nat (wl_bits wl))) (Some (Z.of_nat (wl_k_words wl)))
    (map (make_pack p) (seq 0 (nth 0 (shape (w13_trellis p)) 0)))
    (torch_equal (select_second (w13_suh p) 0) (select_second (w13_suh p) 1))
    (Some (Z.of_nat (wl_hidden wl))) (Some (Z.of_nat (wl_intermediate wl))) devices.

Definition markers_ok (p : params) : bool :=
  forallb (Z.eqb MCG_MARKER_SIGNED_INT32) (entries (w13_mcg p))
  && forallb (Z.eqb MCG_MARKER_SIGNED_INT32) (entries (w2_mcg p)).

(** [process_weights_after_loading] for the layer of identity [id]. *)
Definition process_weights_after_loading (id : Z) (wl : weights_layer) (devices : string -> device) (w : world)
    : res moe_layer * world :=
  if negb (markers_ok (wl_params wl)) then (Raise RuntimeError, w)
  else
    let l := static_layer wl devices in
    let shared := _exl3_shared_w13_suh l in
    match _record_exl3_fat_resolution env img l w with
    | (Raise e, w) => (Raise e, w)
    | (Ok r, w) =>
        (_ ← reuse_checks shared;
         fused ← try_fused_state (_exl3_inners l) shared;
         reuse ← fused_moe_reuse_enabled env;
         if reuse && match fused with None => true | Some _ => false end then Raise RuntimeError
         else Ok (match fused with
                  | Some (ptrs, rows, _, _) =>
                      MoeLayer id l (Some ptrs) (Some rows) (Some (Z.of_nat (wl_bits wl))) (Some r)
                  | None => MoeLayer id l None None None (Some r)
                  end), w)
    end.
End process.

(** ** The shards of all ranks are the tensor *)

Definition shard (row : bool) : tensor -> string -> nat -> nat -> res tensor :=
  if row then shard_exl3_row else shard_exl3_col.

(** The dimension that is split, if one is. *)
Definition shard_dim (row : bool) (suffix : string) : option nat :=
  if row then
    if String.eqb suffix "trellis" then Some 0 else if String.eqb suffix "suh" then Some 0 else None
  else
    if String.eqb suffix "trellis" then Some 1 else if String.eqb suffix "svh" then Some 0 else None.

(** [torch.cat(shards, dim)], for shards of one shape. *)
Definition cat (dim : nat) (shards : list tensor) : tensor :=
  let s := match shards with t :: _ => shape t | [] => [] end in
  let chunk := nth dim s 0 in
  Tensor (<[dim := chunk * length shards]> s)
    (fun idx => let j := nth dim idx 0 in
                match shards !! (j / chunk) with
                | Some t => entry t (<[dim := j mod chunk]> idx)
                | None => 0%Z
                end).

Lemma shard_narrow row t suffix rank tp :
  shard row t suffix rank tp =
  match shard_dim row suffix with Some dim => _narrow_tp t dim rank tp | None => Ok t end.
Proof. unfold shard, shard_dim, shard_exl3_row, shard_exl3_col. destruct row; repeat case_match; done. Qed.

Lemma valid_lookup s idx d j : valid s idx -> idx !! d = Some j -> exists n, s !! d = Some n /\ j < n.
Proof. intros Hv Hj. destruct (Forall2_lookup_l _ _ _ _ _ Hv Hj) as (n & ? & ?). by exists n. Qed.

Lemma narrow_all t dim size rank tp : shape t !! dim = Some size -> size mod tp = 0 -> rank < tp ->
  exists s, _narrow_tp t dim rank tp = Ok s /\ shape s = <[dim := size / tp]> (shape t) /\
    forall idx j, idx !! dim = Some j -> entry s (<[dim := j mod (size / tp)]> idx) =
      entry t (<[dim := size / tp * rank + j mod (size / tp)]> idx).
Proof.
  intros Hd Hmod Hr. unfold _narrow_tp. destruct (Nat.leb_spec tp 1).
  - exists t. assert (tp = 1) as -> by lia. assert (rank = 0) as -> by lia. rewrite Nat.div_1_r.
    split; [done |]. split; [by rewrite list_insert_id |]. intros idx j Hj. by rewrite Nat.mul_0_r.
  - rewrite Hd, Hmod. simpl. eexists. split; [reflexivity |]. split; [done |]. intros idx j Hj. simpl. f_equal.
    apply list_eq. intros i. destruct (decide (i = dim)) as [->|Hne].
    + rewrite list_lookup_alter_eq, !list_lookup_insert_eq by by apply lookup_lt_Some in Hj. done.
    + by rewrite list_lookup_alter_ne, !list_lookup_insert_ne.
Qed.

(** C<n>. Splitting a packed tensor over the ranks loses and moves nothing:
    for the suffixes that are split, every rank gets its shard, all of one
    shape, and their concatenation along the split dimension is the tensor
    (shape and entries); a size that does not divide is refused by every rank;
    the other suffixes are replicated whole. *)
Theorem shards_reassemble (row : bool) (t : tensor) (suffix : string) (tp : nat) : 0 < tp ->
  match shard_dim row suffix with
  | None => forall rank, shard row t suffix rank tp = Ok t
  | Some dim => forall size, shape t !! dim = Some size ->
      if size mod tp =? 0 then
        exists shards, mapM (fun rank => shard row t suffix rank tp) (seq 0 tp) = Ok shards /\
          length shards = tp /\ Forall (fun s => shape s = <[dim := size / tp]> (shape t)) shards /\
          cat dim shards ≡ t
      else forall rank, shard row t suffix rank tp = Raise ValueError
  end.
Proof.
  intros Htp. destruct (shard_dim row suffix) as [dim|] eqn:Hdim; [|by intros; rewrite shard_narrow, Hdim].
  intros size Hsize. destruct (Nat.eqb_spec (size mod tp) 0) as [Hmod|Hmod].
  2: { intros rank. rewrite shard_narrow, Hdim. unfold _narrow_tp. destruct (Nat.leb_spec tp 1).
       - assert (tp = 1) as -> by lia. by rewrite Nat.mod_1_r in Hmod.
       - rewrite Hsize. by destruct (Nat.eqb_spec (size mod tp) 0). }
  assert (Hall : exists shards, Forall2 (fun rank s => shard row t suffix rank tp = Ok s /\
      shape s = <[dim := size / tp]> (shape t) /\
      forall idx j, idx !! dim = Some j -> entry s (<[dim := j mod (size / tp)]> idx) =
        entry t (<[dim := size / tp * rank + j mod (size / tp)]> idx)) (seq 0 tp) shards).
  { apply Forall_exists_Forall2_l, Forall_forall. intros rank Hr%elem_of_seq. rewrite shard_narrow, Hdim.
    apply narrow_all; [done | done | lia]. }
  destruct Hall as [shards Hall]. pose proof (Forall2_length _ _ _ Hall) as Hlen. rewrite length_seq in Hlen.
  exists shards. split; [|split; [done | split]].
  - apply mapM_Ok. eapply Forall2_impl; [exact Hall |]. by intros rank sh (? & _).
  - apply Forall_lookup_2. intros i sh Hi. destruct (Forall2_lookup_r _ _ _ _ _ Hall Hi) as (rank & _ & _ & ? & _). done.
  - assert (Hs0 : match shards with u :: _ => shape u | [] => [] end = <[dim := size / tp]> (shape t)).
    { destruct shards as [|u shards]; [simpl in Hlen; lia |].
      destruct (Forall2_lookup_r _ _ _ 0 u Hall eq_refl) as (rank & _ & _ & ? & _). done. }
    assert (Hlt : dim < length (shape t)) by by apply lookup_lt_Some in Hsize.
    assert (Hchunk : size / tp * tp = size) by (pose proof (Nat.div_mod_eq size tp); lia).
    assert (Hcat : shape (cat dim shards) = shape t).
    { unfold cat. cbn [shape]. rewrite Hs0, <- Hlen. erewrite nth_lookup_Some; [|by apply list_lookup_insert_eq].
      rewrite Hchunk, list_insert_insert_eq. by apply list_insert_id. }
    split; [done |]. rewrite Hcat. intros idx Hv.
    destruct (Forall2_lookup_r _ _ _ _ _ Hv Hsize) as (j & Hj & Hjs).
    unfold cat. cbn [entry]. rewrite Hs0, (nth_lookup_Some idx dim 0 j Hj).
    rewrite (nth_lookup_Some _ dim 0 (size / tp)) by by apply list_lookup_insert_eq. assert (Hc : 0 < size / tp) by nia.
    assert (Hrank : j / (size / tp) < tp) by (apply Nat.Div0.div_lt_upper_bound; lia).
    destruct (Forall2_lookup_l _ _ _ _ (j / (size / tp)) Hall (proj2 (lookup_seq _ _ _ _) (conj eq_refl Hrank)))
      as (sh & Hsh & _ & _ & He).
    rewrite Hsh, (He idx j Hj). f_equal. simpl. rewrite <- Nat.div_mod_eq. by apply list_insert_id.
Qed.

Definition demo_tensor : tensor := Tensor [2; 4; 3] (fun idx => foldr (fun i acc => Z.of_nat i + 10 * acc)%Z 0%Z idx).

Lemma shards_reassemble_witness :
  0 < 2 /\ exists shards, mapM (fun rank => shard false demo_tensor "trellis" rank 2) (seq 0 2) = Ok shards /\
    map shape shards = [[2; 2; 3]; [2; 2; 3]] /\ cat 1 shards ≡ demo_tensor.
Proof.
  split; [lia |].
  destruct (shards_reassemble false demo_tensor "trellis" 2 ltac:(lia) 4 eq_refl) as (shards & Hm & _ & _ & Hc).
  exists shards. split; [exact Hm |]. split; [|exact Hc]. vm_compute in Hm. injection Hm as <-. reflexivity.
Defined.

(** ** Loading a checkpoint into one parameter *)

(** One call of the weight loader. *)
Record load_call := LoadCall { loaded : tensor; name : string; shard_id : string; expert : Z }.

Section loads.
Context (owner : option (Z -> Z)) (tp_rank tp_size : nat).

(** The calls in order; the first error ends the load. *)
Fixpoint load_all (param : tensor) (calls : list load_call) : res tensor :=
  match calls with
  | [] => Ok param
  | c :: calls =>
      '(param, _) ← _load_exl3 param (loaded c) (name c) (shard_id c) (expert c) false owner tp_rank tp_size;
      load_all param calls
  end.

(** The local id of a call's expert: none when the rank does not own it. *)
Definition local_expert (c : load_call) : option Z :=
  match owner with
  | Some m => if (m (expert c) =? -1)%Z then None else Some (m (expert c))
  | None => Some (expert c)
  end.

(** Where an owned call's shard belongs: [param[e, 0]] for the gate, [param[e, 1]]
    for the up matrix, [param[e]] for the down matrix. *)
Definition slot (c : load_call) : option (list nat) :=
  e ← local_expert c;
  Some (if String.eqb (shard_id c) "w2" then [Z.to_nat e]
        else [Z.to_nat e; if String.eqb (shard_id c) "w1" then 0 else 1]).

(** [param[path]]. *)
Definition view (t : tensor) (path : list nat) : tensor :=
  Tensor (drop (length path) (shape t)) (fun idx => entry t (path ++ idx)).

(** The calls of a well-formed checkpoint for one parameter of [experts] local
    experts: shard ids of its kind, one suffix, and the shape of a whole matrix,
    whose shard is what the parameter has room for. *)
Record call_fits (row : bool) (suffix : string) (experts : nat) (room : list nat) (c : load_call) : Prop := CallFits {
  fits_kind : if row then shard_id c = "w2"%string else shard_id c = "w1"%string \/ shard_id c = "w3"%string;
  fits_suffix : _suffix_from_mapped_name (name c) = Ok suffix;
  fits_expert : forall e, local_expert c = Some e -> (0 <= e < Z.of_nat experts)%Z;
  fits_shape : shape (loaded c) =
    match shard_dim row suffix with Some dim => alter (Nat.mul tp_size) dim room | None => room end
}.

(** A parameter: its experts, for gate and up the pair, then the room of a matrix. *)
Definition param_shape (row : bool) (experts : nat) (room : list nat) : list nat :=
  if row then experts :: room else experts :: 2 :: room.

Lemma copy_shape param path v : shape (copy_into param path v) = shape param.
Proof. done. Qed.

Lemma view_copy param path v : dest_shape param path = shape v -> view (copy_into param path v) path ≡ v.
Proof.
  intros Hs. split; [exact Hs |]. intros idx Hi. simpl. rewrite take_app_length, drop_app_length. by rewrite bool_decide_eq_true_2.
Qed.

Lemma shard_fits row t suffix room : tp_rank < tp_size ->
  shape t = match shard_dim row suffix with Some dim => alter (Nat.mul tp_size) dim room | None => room end ->
  match shard_dim row suffix with Some dim => dim < length room | None => True end ->
  exists s, shard row t suffix tp_rank tp_size = Ok s /\ shape s = room.
Proof.
  intros Hr Hs Hd. rewrite shard_narrow. destruct (shard_dim row suffix) as [dim|]; [|by exists t].
  apply lookup_lt_is_Some in Hd as [c Hc].
  assert (Hdim : shape t !! dim = Some (tp_size * c)) by (rewrite Hs, list_lookup_alter_eq, Hc; done).
  destruct (narrow_all t dim (tp_size * c) tp_rank tp_size Hdim) as (s & Hn & Hshape & _); [|done|].
  { rewrite Nat.mul_comm. apply Nat.Div0.mod_mul. }
  exists s. split; [done |]. rewrite Hshape, Nat.mul_comm, Nat.div_mul by lia. rewrite Hs.
  apply list_eq. intros i. destruct (decide (i = dim)) as [->|Hne].
  - rewrite list_lookup_insert_eq; [done |]. rewrite length_alter. by apply lookup_lt_Some in Hc.
  - by rewrite list_lookup_insert_ne, list_lookup_alter_ne.
Qed.

Lemma py_index_in i n : (0 <= i < Z.of_nat n)%Z -> py_index i n = Ok (Z.to_nat i).
Proof.
  intros [H1 H2]. unfold py_index. apply Z.leb_le in H1 as ->. by apply Z.ltb_lt in H2 as ->.
Qed.

Context (Hrank : tp_rank < tp_size).

(** How many indices name a matrix within a parameter. *)
Definition depth (row : bool) : nat := if row then 1 else 2.

(** One call of a well-formed checkpoint: skipped, or its shard copied in. *)
Lemma load_step row suffix experts room param c answer :
  match shard_dim row suffix with Some dim => dim < length room | None => True end ->
  shape param = param_shape row experts room -> call_fits row suffix experts room c ->
  exists sh success, shard row (loaded c) suffix tp_rank tp_size = Ok sh /\ shape sh = room /\
    _load_exl3 param (loaded c) (name c) (shard_id c) (expert c) answer owner tp_rank tp_size =
    Ok (match slot c with None => param | Some path => copy_into param path sh end, success) /\
    match slot c with None => True | Some path => length path = depth row /\ dest_shape param path = shape sh end.
Proof.
  intros Hd Hp [Hkind Hsuf Hexp Hshape]. destruct (shard_fits row (loaded c) suffix room Hrank Hshape Hd) as (sh & Hsh & Hroom).
  exists sh. unfold _load_exl3, slot. unfold local_expert in Hexp |- *.
  assert (Hgo : forall e, (0 <= e < Z.of_nat experts)%Z -> exists success,
    (suffix ← _suffix_from_mapped_name (name c);
     '(sharded, path) ←
      (if String.eqb (shard_id c) "w1" || String.eqb (shard_id c) "w3" then
         sharded ← shard_exl3_col (loaded c) suffix tp_rank tp_size;
         e ← py_index e (nth 0 (shape param) 0);
         i ← py_index (if String.eqb (shard_id c) "w1" then 0 else 1) (nth 1 (shape param) 0);
         mret (sharded, [e; i])
       else if String.eqb (shard_id c) "w2" then
         sharded ← shard_exl3_row (loaded c) suffix tp_rank tp_size;
         e ← py_index e (nth 0 (shape param) 0);
         mret (sharded, [e])
       else Raise ValueError);
     if negb (bool_decide (dest_shape param path = shape sharded)) then Raise RuntimeError
     else Ok (copy_into param path sharded, if answer then Some true else None)) =
    Ok (copy_into param (if String.eqb (shard_id c) "w2" then [Z.to_nat e]
                         else [Z.to_nat e; if String.eqb (shard_id c) "w1" then 0 else 1]) sh, success) /\
    length (if String.eqb (shard_id c) "w2" then [Z.to_nat e]
            else [Z.to_nat e; if String.eqb (shard_id c) "w1" then 0 else 1]) = depth row /\
    dest_shape param (if String.eqb (shard_id c) "w2" then [Z.to_nat e]
            else [Z.to_nat e; if String.eqb (shard_id c) "w1" then 0 else 1]) = shape sh).
  { intros e He. rewrite Hsuf. simpl. unfold dest_shape. rewrite Hp. destruct row; simpl in *.
    - rewrite Hkind. simpl. rewrite Hsh. simpl. rewrite (py_index_in e experts He). simpl. rewrite Hroom, bool_decide_eq_true_2 by done.
      by eexists.
    - destruct Hkind as [-> | ->]; simpl; rewrite Hsh; simpl; rewrite (py_index_in e experts He); simpl;
        rewrite Hroom, bool_decide_eq_true_2 by done; by eexists. }
  destruct owner as [m|].
  - simpl. destruct (Z.eqb_spec (m (expert c)) (-1)).
    + eexists. split_and!; done.
    + destruct (Hgo (m (expert c)) (Hexp _ eq_refl)) as (success & He & Hl & Hds). by eexists.
  - simpl. destruct (Hgo (expert c) (Hexp _ eq_refl)) as (success & He & Hl & Hds). by eexists.
Qed.

Lemma copy_other param path v idx : take (length path) idx <> path -> entry (copy_into param path v) idx = entry param idx.
Proof. intros Hne. simpl. by rewrite bool_decide_eq_false_2. Qed.

Lemma loads_spec row suffix experts room calls param :
  match shard_dim row suffix with Some dim => dim < length room | None => True end ->
  shape param = param_shape row experts room -> Forall (call_fits row suffix experts room) calls ->
  NoDup (omap slot calls) ->
  exists result, load_all param calls = Ok result /\ shape result = shape param /\
    (forall c path, c ∈ calls -> slot c = Some path ->
       exists sh, shard row (loaded c) suffix tp_rank tp_size = Ok sh /\ view result path ≡ sh) /\
    (forall idx, take (depth row) idx ∉ omap slot calls -> entry result idx = entry param idx).
Proof.
  intros Hd. revert param. induction calls as [|c calls IH]; intros param Hp Hf Hnd.
  { exists param. split_and!; try done. by intros ? ? ?%elem_of_nil. }
  apply Forall_cons in Hf as [Hc Hf].
  destruct (load_step row suffix experts room param c false Hd Hp Hc) as (sh & success & Hsh & Hroom & Hstep & Hpath).
  simpl load_all. rewrite Hstep. simpl. simpl in Hnd.
  destruct (slot c) as [path|] eqn:Hslot.
  - destruct Hpath as [Hlen Hds]. apply NoDup_cons in Hnd as [Hnin Hnd].
    destruct (IH (copy_into param path sh) Hp Hf Hnd) as (result & Hr & Hs & Hin & Hout).
    exists result. split_and!; [done | by rewrite Hs | |].
    + intros c' path' [-> | Hc']%elem_of_cons Hslot'; [|by apply Hin].
      rewrite Hslot in Hslot'. injection Hslot' as <-. exists sh. split; [done |].
      assert (Hv : view result path ≡ view (copy_into param path sh) path).
      { split; [simpl; by rewrite Hs |]. intros idx _. unfold view. cbn [entry]. apply Hout.
        by rewrite <- Hlen, take_app_length. }
      etrans; [exact Hv |]. by apply view_copy.
    + intros idx Hidx. apply not_elem_of_cons in Hidx as [Hne Hidx]. rewrite Hout by done. apply copy_other. by rewrite Hlen.
  - destruct (IH param Hp Hf Hnd) as (result & Hr & Hs & Hin & Hout). exists result. split_and!; try done.
    intros c' path' [-> | Hc']%elem_of_cons Hslot'; [congruence | by apply Hin].
Qed.
End loads.

(** The parameter of a layer that a shard id and a suffix name. *)
Definition param_of (p : params) (row : bool) (suffix : string) : tensor :=
  if row then
    if String.eqb suffix "trellis" then w2_trellis p else if String.eqb suffix "suh" then w2_suh p
    else if String.eqb suffix "svh" then w2_svh p else w2_mcg p
  else
    if String.eqb suffix "trellis" then w13_trellis p else if String.eqb suffix "suh" then w13_suh p
    else if String.eqb suffix "svh" then w13_svh p else w13_mcg p.

(** What a rank keeps of one matrix. *)
Definition room_of (wl : weights_layer) (row : bool) (suffix : string) : list nat :=
  let in_tiles := wl_hidden wl / 16 in
  let out_tiles := wl_intermediate wl / 16 in
  if String.eqb suffix "trellis" then
    if row then [out_tiles; in_tiles; wl_k_words wl] else [in_tiles; out_tiles; wl_k_words wl]
  else if String.eqb suffix "suh" then [if row then wl_intermediate wl else wl_hidden wl]
  else if String.eqb suffix "svh" then [if row then wl_hidden wl else wl_intermediate wl]
  else [1].

(** The shapes of the eight parameters. *)
Definition typed (experts : nat) (wl : weights_layer) : Prop :=
  wl_k_words wl = wl_bits wl * 16 /\
  forall row suffix, suffix ∈ EXL3_SUFFIXES ->
    shape (param_of (wl_params wl) row suffix) = param_shape row experts (room_of wl row suffix).

Lemma create_typed bits garbage dense experts hidden inter wl :
  create_weights bits garbage dense experts hidden inter = Ok wl -> typed experts wl.
Proof.
  unfold create_weights. intros Hc. destruct (_ || _); [done |]. destruct dense; [done |]. injection Hc as <-.
  split; [done |]. intros row suffix Hs. unfold EXL3_SUFFIXES in Hs.
  repeat (apply elem_of_cons in Hs as [-> | Hs]; [by destruct row |]). by apply elem_of_nil in Hs.
Qed.

Lemma split_room wl row suffix : suffix ∈ EXL3_SUFFIXES ->
  match shard_dim row suffix with Some dim => dim < length (room_of wl row suffix) | None => True end.
Proof.
  intros Hs. unfold EXL3_SUFFIXES in Hs. repeat (apply elem_of_cons in Hs as [-> | Hs]; [destruct row; simpl; auto; lia |]).
  by apply elem_of_nil in Hs.
Qed.

(** C<n>. Loading a checkpoint fills the parameters.  For each of the eight
    parameters [create_weights] allocates, on every rank and under any map from
    global to local experts: calls that offer whole matrices, each expert and
    shard id at most once, all succeed; the parameter keeps its shape; the place
    of every expert the rank owns holds exactly its rank's shard of the matrix
    offered for it; every other entry, the unowned experts' calls included, is
    what it was. *)
Theorem checkpoint_fills bits garbage dense experts hidden inter wl (row : bool) suffix owner tp_rank tp_size calls :
  create_weights bits garbage dense experts hidden inter = Ok wl -> tp_rank < tp_size -> suffix ∈ EXL3_SUFFIXES ->
  Forall (call_fits owner tp_size row suffix experts (room_of wl row suffix)) calls ->
  NoDup (omap (slot owner) calls) ->
  let param := param_of (wl_params wl) row suffix in
  exists result, load_all owner tp_rank tp_size param calls = Ok result /\
    shape result = param_shape row experts (room_of wl row suffix) /\
    (forall c path, c ∈ calls -> slot owner c = Some path ->
       exists sh, shard row (loaded c) suffix tp_rank tp_size = Ok sh /\ view result path ≡ sh) /\
    (forall idx, take (depth row) idx ∉ omap (slot owner) calls -> entry result idx = garbage idx).
Proof.
  intros Hc Hr Hs Hf Hnd param. destruct (create_typed _ _ _ _ _ _ _ Hc) as [_ Ht]. specialize (Ht row suffix Hs).
  destruct (loads_spec owner tp_rank tp_size Hr row suffix experts _ calls param (split_room wl row suffix Hs) Ht Hf Hnd)
    as (result & Hl & Hshape & Hin & Hout).
  exists result. split_and!; [done | by rewrite Hshape | done |]. intros idx Hidx. rewrite Hout by done.
  unfold create_weights in Hc. destruct (_ || _); [done |]. destruct dense; [done |]. injection Hc as <-.
  unfold param, param_of. simpl. by repeat case_match.
Qed.

(** Two of four global experts are local; their gate and up scales arrive whole
    and the second of two ranks keeps its half. *)
Definition demo_owner (e : Z) : Z := if (e <? 2)%Z then (-1)%Z else (e - 2)%Z.
Definition demo_calls : list load_call :=
  map (fun ec => LoadCall (Tensor [32] (fun idx => (1000 * fst ec + Z.of_nat (nth 0 idx 0%nat))%Z))
                   "layers.3.experts.w13_svh" (snd ec) (fst ec))
    [(3, "w1"); (0, "w1"); (2, "w3"); (2, "w1")]%Z%string.

Lemma checkpoint_fills_witness :
  exists wl result, create_weights 4 (fun _ => 7%Z) false 2 32 16 = Ok wl /\
    load_all (Some demo_owner) 1 2 (param_of (wl_params wl) false "svh") demo_calls = Ok result /\
    shape result = [2; 2; 16] /\ map (entry result) [[1; 0; 5]; [0; 1; 0]; [0; 0; 15]; [1; 1; 3]] = [3021; 2016; 2031; 7]%Z.
Proof.
  eexists. destruct (checkpoint_fills 4 (fun _ => 7%Z) false 2 32 16 _ false "svh" (Some demo_owner) 1 2 demo_calls eq_refl)
    as (result & Hl & Hs & _).
  - lia.
  - vm_compute. repeat constructor.
  - unfold demo_calls. simpl. repeat (constructor; [split; [vm_compute; tauto | done | simpl; intros e He; vm_compute in He; by (injection He as <-) || done | done] |]). constructor.
  - apply (bool_decide_unpack (NoDup (omap (slot (Some demo_owner)) demo_calls))). vm_compute. exact I.
  - exists result. split; [reflexivity |]. split; [exact Hl |]. vm_compute in Hl. injection Hl as <-. split; reflexivity.
Defined.
