(* ===== verification/Exl3Ready.v ===== *)
(** * A loaded EXL3 layer is ready to run

    [process_weights_after_loading] ([overlay/exl3.py]) on parameters of the
    shapes [create_weights] gave them either refuses or leaves a layer on which
    the forward pass's assumptions hold ([Exl3Dispatch.layer_ready]): handles,
    pointer tables, alias, codec, temp rows and the settled tier. *)
From Stdlib Require Import ZArith Lia.
From stdpp Require Import base list strings gmap.
From S2P Require Import Prelude PyStr Exl3Tier Segments Exl3Moe Exl3Rows Exl3Dispatch Exl3Load.
Open Scope nat_scope.

(** ** Tensors by their entries *)

Lemma elem_of_indices s idx : idx ∈ indices s <-> valid s idx.
Proof.
  revert idx. induction s as [|d s IH]; intros idx; simpl.
  - rewrite list_elem_of_singleton. unfold valid. split; [intros -> | intros Hv]; [constructor | by inversion Hv].
  - rewrite <- flat_map_concat_map. rewrite list_elem_of_In, in_flat_map. split.
    + intros (i & Hi%in_seq & Hin). apply list_elem_of_In, list_elem_of_fmap in Hin as (rest & -> & Hr).
      constructor; [lia | by apply IH].
    + intros Hv. inversion Hv as [|i d' rest s' Hlt Hrest]; subst. exists i. split; [apply in_seq; lia |].
      apply list_elem_of_In, list_elem_of_fmap. exists rest. split; [done | by apply IH].
Qed.

Lemma map_eq_in {A B} (f g : A -> B) l x : map f l = map g l -> x ∈ l -> f x = g x.
Proof.
  intros E Hx. induction l as [|y l IH]; [by apply elem_of_nil in Hx |]. simpl in E. injection E as Ey El.
  apply elem_of_cons in Hx as [-> | Hx]; [done | by apply IH].
Qed.

Lemma torch_equal_spec t u : torch_equal t u = true <-> t ≡ u.
Proof.
  unfold torch_equal, entries. rewrite andb_true_iff, !bool_decide_eq_true. split.
  - intros [Hs He]. split; [done |]. intros idx Hi. rewrite <- Hs in He. eapply map_eq_in; [exact He | by apply elem_of_indices].
  - intros [Hs He]. split; [done |]. rewrite <- Hs. apply map_ext_in. intros idx Hi%list_elem_of_In%elem_of_indices. by apply He.
Qed.

(** Experts whose two scale rows are one: [torch.equal(suh[:, 0], suh[:, 1])]. *)
Lemma second_equal t experts rest e : shape t = experts :: 2 :: rest -> e < experts ->
  torch_equal (select_second t 0) (select_second t 1) = true -> select (select t e) 0 ≡ select (select t e) 1.
Proof.
  intros Hs He [_ Heq]%torch_equal_spec. split; [done |]. intros idx Hv. simpl in Hv. rewrite Hs in Hv. simpl in Hv.
  apply (Heq (e :: idx)). simpl. rewrite Hs. by constructor.
Qed.

(** ** What exllamav3 documents of its handle *)

(** The width of the codec is read from the trellis, the given marker selects
    MCG, and equal scale vectors are the same scales. *)
Class LinearEXL3Laws (LinearEXL3 : Z -> Z -> tensor -> tensor -> tensor -> tensor -> linear) : Prop := {
  handle_codec i o t s v m : codec (LinearEXL3 i o t s v m) = (Z.of_nat (List.last (shape t) 0 / 16), true, false);
  handle_suh i o t s v m i' o' t' s' v' m' : s ≡ s' ->
    suh (LinearEXL3 i o t s v m) = suh (LinearEXL3 i' o' t' s' v' m')
}.

Section ready.
Context (LinearEXL3 : Z -> Z -> tensor -> tensor -> tensor -> tensor -> linear) `{!LinearEXL3Laws LinearEXL3}.
Context (env : environ) (img : image).

Lemma inners_static wl devices experts : typed experts wl ->
  _exl3_inners (static_layer LinearEXL3 wl devices) = map (make_pack LinearEXL3 (wl_params wl)) (seq 0 experts).
Proof.
  intros [_ Ht]. unfold static_layer. simpl. specialize (Ht false "trellis"%string). simpl in Ht. rewrite Ht; [done |]. left.
Qed.

(** Every handle has the layer's codec. *)
Lemma static_codec wl devices experts : typed experts wl ->
  same_codec (_exl3_inners (static_layer LinearEXL3 wl devices)) (Z.of_nat (wl_bits wl)).
Proof.
  intros Ht. rewrite (inners_static wl devices experts Ht). destruct Ht as [Hk Ht].
  assert (H13 : shape (w13_trellis (wl_params wl)) = [experts; 2; wl_hidden wl / 16; wl_intermediate wl / 16; wl_k_words wl]).
  { apply (Ht false "trellis"%string). left. }
  assert (H2 : shape (w2_trellis (wl_params wl)) = [experts; wl_intermediate wl / 16; wl_hidden wl / 16; wl_k_words wl]).
  { apply (Ht true "trellis"%string). left. }
  assert (Hbits : wl_k_words wl / 16 = wl_bits wl) by (rewrite Hk; by apply Nat.div_mul).
  unfold same_codec, handles. rewrite map_map. apply Forall_concat, Forall_map, Forall_forall. intros e _. simpl.
  assert (Hone : forall i o t s v m, List.last (shape t) 0 = wl_k_words wl ->
    codec (LinearEXL3 i o t s v m) = (Z.of_nat (wl_bits wl), true, false)).
  { intros i o t s v m Hl. by rewrite handle_codec, Hl, Hbits. }
  repeat (apply Forall_cons_2; [apply Hone; simpl; by rewrite ?H13, ?H2 |]). apply Forall_nil_2.
Qed.

(** Shared scales are shared by the handles of every expert. *)
Lemma static_suh wl devices experts : typed experts wl ->
  _exl3_shared_w13_suh (static_layer LinearEXL3 wl devices) = true ->
  same_suh (_exl3_inners (static_layer LinearEXL3 wl devices)).
Proof.
  intros Ht Hs. rewrite (inners_static wl devices experts Ht). destruct Ht as [_ Ht].
  assert (H13 : shape (w13_suh (wl_params wl)) = [experts; 2; wl_hidden wl]).
  { apply (Ht false "suh"%string). right. left. }
  unfold same_suh. apply Forall_map, Forall_forall. intros e He%elem_of_seq. simpl. unfold make_linear_exl3.
  apply handle_suh. by apply (second_equal _ experts [wl_hidden wl]); [done | lia |].
Qed.

Lemma alias_spec ptrs shared answer : alias_exl3_fused_up_suh env ptrs shared = Ok answer ->
  (fused_moe_reuse_enabled env = Ok true /\ shared = true /\ pipeline_enabled env = true /\ snd answer = true /\
   fst answer = Ptrs (gate_trellis ptrs) (gate_suh ptrs) (gate_svh ptrs) (up_trellis ptrs) (gate_suh ptrs) (up_svh ptrs)
     (down_trellis ptrs) (down_suh ptrs) (down_svh ptrs)) \/
  (fused_moe_reuse_enabled env = Ok false /\ answer = (ptrs, false)).
Proof.
  unfold alias_exl3_fused_up_suh. destruct (fused_moe_reuse_enabled env) as [[]|]; [| |done]; simpl; intros E.
  - destruct shared; [|done]. destruct (pipeline_enabled env); [|done]. injection E as <-. by left.
  - injection E as <-. by right.
Qed.

Lemma temp_rows_pos rows : temp_rows_fused env = Ok rows -> (0 < rows)%Z.
Proof. unfold temp_rows_fused, TEMP_ROWS_FUSED. intros E. repeat case_match; simplify_eq; lia. Qed.

Lemma fused_state_spec ext packs shared st : build_exl3_fused_state env ext packs shared = Ok st ->
  let '(ptrs, rows, concurrency, aliased) := st in
  ptrs = tables_of packs aliased /\ 0 < rows /\ (1 <= concurrency)%Z /\
  (fused_moe_reuse_enabled env = Ok aliased) /\ (aliased = true -> shared = true).
Proof.
  unfold build_exl3_fused_state. destruct (temp_rows_fused env) as [rows|] eqn:Hr; [|done]. apply temp_rows_pos in Hr.
  simpl. destruct (alias_exl3_fused_up_suh env _ shared) as [[ptrs aliased]|] eqn:Ha; [|done]. simpl. intros E.
  injection E as <-. apply alias_spec in Ha. simpl in Ha.
  assert (1 <= (if moe_max_concurrency ext <? 1 then 1 else moe_max_concurrency ext))%Z
    by (destruct (Z.ltb_spec (moe_max_concurrency ext) 1); lia).
  destruct Ha as [(Hre & -> & _ & -> & ->) | (Hre & Hans)]; [split_and!; try done; lia |].
  injection Hans as -> ->. split_and!; try done. lia.
Qed.

Lemma try_spec packs shared fused : try_fused_state env img packs shared = Ok fused ->
  match fused with
  | None => True
  | Some st => exists ext, exllamav3_ext img = Some ext /\ hasattr ext "exl3_moe" = true /\ fused_moe_enabled env = true /\
                 build_exl3_fused_state env ext packs shared = Ok st
  end.
Proof.
  unfold try_fused_state. destruct (fused_moe_enabled env); simpl; [|by intros [= <-]].
  destruct (exllamav3_ext img) as [ext|]; [destruct (hasattr ext "exl3_moe") eqn:Hh|].
  - destruct (build_exl3_fused_state env ext packs shared) as [st|] eqn:Hb.
    + intros [= <-]. by exists ext.
    + destruct (fused_moe_reuse_enabled env) as [[]|]; simpl; try done. by intros [= <-].
  - by intros [= <-].
  - destruct (fused_moe_reuse_enabled env) as [[]|]; simpl; try done. by intros [= <-].
Qed.

(** What reuse needs: the pipeline variant, the fused path and its kernel, a
    temp row count, and one scale vector per expert. *)
Definition reuse_available (shared : bool) : bool :=
  pipeline_enabled env && fused_moe_enabled env && shared &&
  match exllamav3_ext img with Some ext => hasattr ext "exl3_moe" | None => false end &&
  match temp_rows_fused env with Ok _ => true | Raise _ => false end.

(** The layers that boot. *)
Definition boots (wl : weights_layer) (devices : string -> device) : bool :=
  let l := static_layer LinearEXL3 wl devices in
  markers_ok (wl_params wl) &&
  negb (refuses env img (_exl3_shared_w13_suh l) (fst (eligibility_of env img l))) &&
  match fused_moe_reuse_enabled env with
  | Ok false => true
  | Ok true => reuse_available (_exl3_shared_w13_suh l)
  | Raise _ => false
  end.

(** The stitching after resolution: what it answers, by the reuse switch. *)
Definition stitch (packs : list pack) (shared : bool) : res (option (ptr_tables * nat * Z * bool)) :=
  _ ← reuse_checks env shared;
  fused ← try_fused_state env img packs shared;
  reuse ← fused_moe_reuse_enabled env;
  if reuse && match fused with None => true | Some _ => false end then Raise RuntimeError else Ok fused.

Lemma build_ok ext packs shared : fused_moe_reuse_enabled env = Ok true -> pipeline_enabled env = true -> shared = true ->
  match build_exl3_fused_state env ext packs shared with Ok _ => true | Raise _ => false end =
  match temp_rows_fused env with Ok _ => true | Raise _ => false end.
Proof.
  intros Hre Hp ->. unfold build_exl3_fused_state, alias_exl3_fused_up_suh. rewrite Hre, Hp. by destruct (temp_rows_fused env).
Qed.

Lemma stitch_spec packs shared :
  match stitch packs shared with
  | Ok fused =>
      match fused_moe_reuse_enabled env with Ok reuse => reuse = true -> reuse_available shared = true /\ fused <> None | Raise _ => False end /\
      match fused with None => True | Some st => exists ext, exllamav3_ext img = Some ext /\ hasattr ext "exl3_moe" = true /\
                 fused_moe_enabled env = true /\ build_exl3_fused_state env ext packs shared = Ok st end
  | Raise e => e = RuntimeError /\
      match fused_moe_reuse_enabled env with Ok reuse => reuse = true /\ reuse_available shared = false | Raise _ => True end
  end.
Proof.
  unfold stitch, reuse_checks. destruct (fused_moe_reuse_enabled env) as [[]|e] eqn:Hre; simpl.
  - unfold reuse_available. destruct (pipeline_enabled env) eqn:Hp; simpl; [|done]. destruct (fused_moe_enabled env) eqn:Hf; simpl; [|done].
    destruct shared; simpl; [|done]. unfold try_fused_state. rewrite Hf, Hre. simpl.
    destruct (exllamav3_ext img) as [ext|]; [|done]. destruct (hasattr ext "exl3_moe") eqn:Hh; [|done]. simpl.
    pose proof (build_ok ext packs true Hre Hp eq_refl) as Hb.
    destruct (build_exl3_fused_state env ext packs true) as [st|] eqn:Hst; simpl.
    + destruct (temp_rows_fused env); [|done]. split; [done |]. by exists ext.
    + by destruct (temp_rows_fused env).
  - destruct (try_fused_state env img packs shared) as [fused|] eqn:Ht; simpl.
    + apply try_spec in Ht. destruct fused; by split.
    + exfalso. revert Ht. unfold try_fused_state. rewrite Hre. simpl. repeat case_match; done.
  - split; [|done]. revert Hre. unfold fused_moe_reuse_enabled. repeat case_match; congruence.
Qed.

(** The layer the loader leaves, given what resolution and stitching answered. *)
Definition stitched (id : Z) (wl : weights_layer) (devices : string -> device) (r : resolution)
    (fused : option (ptr_tables * nat * Z * bool)) : moe_layer :=
  let l := static_layer LinearEXL3 wl devices in
  match fused with
  | Some (ptrs, rows, _, _) => MoeLayer id l (Some ptrs) (Some rows) (Some (Z.of_nat (wl_bits wl))) (Some r)
  | None => MoeLayer id l None None None (Some r)
  end.

Lemma process_stitch id wl devices w :
  process_weights_after_loading LinearEXL3 env img id wl devices w =
  if negb (markers_ok (wl_params wl)) then (Raise RuntimeError, w)
  else
    let l := static_layer LinearEXL3 wl devices in
    match _record_exl3_fat_resolution env img l w with
    | (Raise e, w) => (Raise e, w)
    | (Ok r, w) => (stitched id wl devices r <$> stitch (_exl3_inners l) (_exl3_shared_w13_suh l), w)
    end.
Proof.
  unfold process_weights_after_loading, stitch, stitched. destruct (negb _); [done |]. cbv zeta.
  destruct (_record_exl3_fat_resolution env img _ w) as [[r|e] w']; [|done]. f_equal.
  destruct (reuse_checks env _); [|done]. simpl. destruct (try_fused_state env img _ _) as [fused|]; [|done]. simpl.
  destruct (fused_moe_reuse_enabled env) as [reuse|]; [|done]. simpl.
  destruct reuse, fused as [[[[? ?] ?] ?]|]; done.
Qed.

Lemma stitched_ready id wl devices experts r fused : typed experts wl -> 0 < experts ->
  let l := static_layer LinearEXL3 wl devices in
  _exl3_fat_effective_tier r = allowed_tier env (_exl3_shared_w13_suh l) (fst (eligibility_of env img l)) ->
  refuses env img (_exl3_shared_w13_suh l) (fst (eligibility_of env img l)) = false ->
  match fused with None => True | Some st => exists ext, build_exl3_fused_state env ext (_exl3_inners l) (_exl3_shared_w13_suh l) = Ok st end ->
  layer_ready env img (stitched id wl devices r fused).
Proof.
  intros Ht Hpos l Hr Href Hfused.
  assert (Hl : ml_static (stitched id wl devices r fused) = l) by by destruct fused as [[[[? ?] ?] ?]|].
  split; unfold inners; rewrite ?Hl.
  - subst l. rewrite (inners_static wl devices experts Ht). destruct experts; [lia | done].
  - destruct fused as [[[[ptrs rows] c] aliased]|]; [|done]. destruct Hfused as [ext Hb]. apply fused_state_spec in Hb.
    destruct Hb as (-> & Hrows & _ & _ & Hshared). split; [|by exists rows]. exists aliased. split; [done |].
    intros Ha. apply (static_suh wl devices experts Ht), Hshared, Ha.
  - intros Hp. destruct fused as [[[[ptrs rows] c] aliased]|]; [|done]. apply (static_codec wl devices experts Ht).
  - apply (static_suh wl devices experts Ht).
  - exists r. split; [by destruct fused as [[[[? ?] ?] ?]|] | done].
Qed.

End ready.

(** ** A handle that reads what exllamav3 documents *)

Definition demo_handle (i o : Z) (t s v m : tensor) : linear :=
  Linear (foldr Z.add 0%Z (entries t)) (foldr (fun x acc => x + 3 * acc)%Z 0%Z (entries s)) (foldr Z.add 0%Z (entries v))
    (Z.of_nat (List.last (shape t) 0 / 16)) true false i o.

#[export] Instance demo_handle_laws : LinearEXL3Laws demo_handle.
Proof.
  split; [done |]. intros i o t s v m i' o' t' s' v' m' Hs. unfold demo_handle. simpl. f_equal.
  apply torch_equal_spec, andb_true_iff in Hs as [_ He]. by apply bool_decide_eq_true in He.
Qed.

Definition demo_garbage (idx : list nat) : Z := MCG_MARKER_SIGNED_INT32.
Definition demo_devices (name : string) : device := Device "cuda" (Some 0%Z).
Definition demo_env_reuse : environ := {["GLM53_EXL3_MOE_REUSE" := "1"; "GLM53_EXL3_MOE_PIPELINE" := "1"]}.

