(* ===== verification/DFlash2Conv.v ===== *)
(** * The DFlash2 grouped convolution

    Model of the convolution of [overlay/dflash2_model.py]: the Triton kernel
    [_dflash2_grouped_conv_kernel] on flat memory with strides, its launch
    [dflash2_grouped_conv_impl], and the tensor program [_grouped_conv] falls
    back to off the GPU.  Numbers are a type with addition and multiplication
    of which only [x * 0 = 0] and [x * 1 = x] are used, so the two are compared
    in exact arithmetic: the sums associate the same way in both. *)
From Stdlib Require Import ZArith Lia.
From stdpp Require Import base list gmap.
From S2P Require Import Prelude Segments.
Open Scope nat_scope.

(** ** Numbers *)

Class Arith (R : Type) := { zero : R; one : R; add : R -> R -> R; mul : R -> R -> R }.
Class ArithLaws (R : Type) `{Arith R} : Prop := {
  mul_zero x : mul x zero = zero;
  mul_one x : mul x one = x
}.

#[export] Instance Z_arith : Arith Z := {| zero := 0%Z; one := 1%Z; add := Z.add; mul := Z.mul |}.
#[export] Instance Z_arith_laws : ArithLaws Z.
Proof. split; simpl; lia. Qed.

(** [triton.cdiv]. *)
Definition cdiv (a b : nat) : nat := (a + b - 1) / b.

(** ** The kernel *)

(** The kernel's arguments: the three inputs as memory from their first element. *)
Record launch (R : Type) := Launch {
  x_ptr : nat -> R; delta_ptr : nat -> R; base_ptr : nat -> R;
  x_stride_row : nat; delta_stride_row : nat; delta_stride_tap : nat;
  base_stride_tap : nat; output_stride_row : nat;
  NUM_CHANNELS : nat; BLOCK_SIZE : nat; GROUP_SIZE : nat; TAPS : nat; ELEMENT_BLOCK : nat
}.
Arguments Launch {R}. Arguments x_ptr {R}. Arguments delta_ptr {R}. Arguments base_ptr {R}.
Arguments x_stride_row {R}. Arguments delta_stride_row {R}. Arguments delta_stride_tap {R}.
Arguments base_stride_tap {R}. Arguments output_stride_row {R}. Arguments NUM_CHANNELS {R}.
Arguments BLOCK_SIZE {R}. Arguments GROUP_SIZE {R}. Arguments TAPS {R}. Arguments ELEMENT_BLOCK {R}.

Section conv.
Context {R : Type} `{Arith R}.

(** [tl.load(ptr + addr, mask=mask, other=0.0)]. *)
Definition load (ptr : nat -> R) (addr : nat) (mask : bool) : R := if mask then ptr addr else zero.

(** One round of the loop over the taps. *)
Definition tap_step (l : launch R) (row channel : nat) (accumulator : R) (tap : nat) : R :=
  let mask := channel <? NUM_CHANNELS l in
  let group := channel / GROUP_SIZE l in
  let tap_mask := mask && (tap <=? row mod BLOCK_SIZE l) in
  let coefficient := add (load (base_ptr l) (tap * base_stride_tap l + channel) tap_mask)
    (load (delta_ptr l) (row * delta_stride_row l + tap * delta_stride_tap l + group) tap_mask) in
  let x := load (x_ptr l) ((row - tap) * x_stride_row l + channel) tap_mask in
  add accumulator (mul coefficient x).

(** The accumulator of one lane. *)
Definition lane (l : launch R) (row channel : nat) : R :=
  let mask := channel <? NUM_CHANNELS l in
  let group := channel / GROUP_SIZE l in
  fold_left (tap_step l row channel) (seq 1 (TAPS l - 1))
    (mul (add (load (base_ptr l) channel mask) (load (delta_ptr l) (row * delta_stride_row l + group) mask))
       (load (x_ptr l) (row * x_stride_row l + channel) mask)).

(** One program: its masked stores, as addresses and values. *)
Definition _dflash2_grouped_conv_kernel (l : launch R) (program_id : nat) : list (nat * R) :=
  let blocks := cdiv (NUM_CHANNELS l) (ELEMENT_BLOCK l) in
  let row := program_id / blocks in
  let col_block := program_id mod blocks in
  concat (map (fun j =>
    let channel := col_block * ELEMENT_BLOCK l + j in
    if channel <? NUM_CHANNELS l then [(row * output_stride_row l + channel, lane l row channel)] else [])
    (seq 0 (ELEMENT_BLOCK l))).

(** A strided tensor: its memory and its strides; the last dimension is dense. *)
Record view2 := View2 { v2_ptr : nat -> R; v2_stride0 : nat }.
Record view3 := View3 { v3_ptr : nat -> R; v3_stride0 : nat; v3_stride1 : nat }.
Definition at2 (t : view2) (i j : nat) : R := v2_ptr t (i * v2_stride0 t + j).
Definition at3 (t : view3) (i j k : nat) : R := v3_ptr t (i * v3_stride0 t + j * v3_stride1 t + k).

Definition element_block (num_rows num_channels : nat) : nat :=
  if (128 <=? num_rows) && (num_channels mod 1024 =? 0) then 1024 else 512.

(** The launch [dflash2_grouped_conv_impl] makes; [output_stride] is
    [output.stride(0)] and [taps] is [base.shape[0]]. *)
Definition conv_launch (x : view2) (delta : view3) (base : view2) (output_stride block_size group_size taps : nat)
    (num_rows num_channels : nat) : launch R :=
  Launch (v2_ptr x) (v3_ptr delta) (v2_ptr base) (v2_stride0 x) (v3_stride0 delta) (v3_stride1 delta) (v2_stride0 base)
    output_stride num_channels block_size group_size taps (element_block num_rows num_channels).

Definition store (memory : gmap nat R) (w : nat * R) : gmap nat R := <[fst w := snd w]> memory.

(** The output memory once every program of the grid has run, in the order given. *)
Definition dflash2_grouped_conv_impl (x : view2) (delta : view3) (base : view2)
    (output_stride block_size group_size taps num_rows num_channels : nat) (order : list nat) : gmap nat R :=
  if num_rows =? 0 then ∅
  else let l := conv_launch x delta base output_stride block_size group_size taps num_rows num_channels in
       fold_left store (concat (map (_dflash2_grouped_conv_kernel l) order)) ∅.

(** The grid. *)
Definition grid (num_rows num_channels : nat) : nat := num_rows * cdiv num_channels (element_block num_rows num_channels).

(** ** The tensor program *)

(** A dense matrix of [rows] rows. *)
Definition matrix := nat -> nat -> R.

(** [position & (block_size - 1)] or [position % block_size]. *)
Definition position (block_size row : nat) : Z :=
  if (Z.land (Z.of_nat block_size) (Z.of_nat block_size - 1) =? 0)%Z
  then Z.land (Z.of_nat row) (Z.of_nat block_size - 1)
  else (Z.of_nat row mod Z.of_nat block_size)%Z.

Definition coefficients (delta : view3) (base : view2) (group_size tap row channel : nat) : R :=
  add (at2 base tap channel) (at3 delta row tap (channel / group_size)).

(** [F.pad(blocks[:-tap], (0, 0, 0, 0, tap, 0))]: [max(rows, tap)] rows. *)
Definition shifted (x : view2) (tap row channel : nat) : R := if row <? tap then zero else at2 x (row - tap) channel.

(** [output += coefficients[:, tap] * shifted * (position >= tap)]: the product
    must broadcast to [rows] rows. *)
Definition add_tap (x : view2) (delta : view3) (base : view2) (block_size group_size rows : nat)
    (output : matrix) (tap : nat) : res matrix :=
  if (rows <? tap) && negb ((rows =? 0) && (tap =? 1)) then Raise RuntimeError
  else Ok (fun row channel => add (output row channel)
    (mul (mul (coefficients delta base group_size tap row channel) (shifted x tap row channel))
       (if (Z.of_nat tap <=? position block_size row)%Z then one else zero))).

Fixpoint add_taps (x : view2) (delta : view3) (base : view2) (block_size group_size rows : nat)
    (taps : list nat) (output : matrix) : res matrix :=
  match taps with
  | [] => Ok output
  | tap :: taps =>
      output ← add_tap x delta base block_size group_size rows output tap;
      add_taps x delta base block_size group_size rows taps output
  end.

(** [_grouped_conv] where [hidden_states] is not on the GPU. *)
Definition _grouped_conv (x : view2) (delta : view3) (base : view2) (block_size group_size taps rows : nat) : res matrix :=
  add_taps x delta base block_size group_size rows (seq 1 (taps - 1))
    (fun row channel => mul (coefficients delta base group_size 0 row channel) (at2 x row channel)).

(** ** The kernel computes the tensor program *)

Context `{!ArithLaws R}.

Lemma land_pred_pow2 b : (0 < b)%Z -> Z.land b (b - 1) = 0%Z -> b = (2 ^ Z.log2 b)%Z.
Proof.
  intros Hb Hl. destruct (Z.log2_spec b Hb) as [Hlo Hhi]. destruct (decide (b = 2 ^ Z.log2 b)%Z) as [|Hne]; [done |].
  assert (Hn : (0 <= Z.log2 b)%Z) by apply Z.log2_nonneg.
  assert (Hlog : Z.log2 (b - 1) = Z.log2 b) by (apply Z.log2_unique; lia).
  assert (Hbit : Z.testbit (Z.land b (b - 1)) (Z.log2 b) = true).
  { rewrite Z.land_spec, Z.bit_log2 by lia. rewrite <- Hlog. rewrite Z.bit_log2 by lia. done. }
  by rewrite Hl, Z.testbit_0_l in Hbit.
Qed.

Lemma position_mod block_size row : 0 < block_size -> position block_size row = Z.of_nat (row mod block_size).
Proof.
  intros Hb. unfold position. destruct (Z.eqb_spec (Z.land (Z.of_nat block_size) (Z.of_nat block_size - 1)) 0) as [Hl|_].
  - rewrite (land_pred_pow2 (Z.of_nat block_size) ltac:(lia) Hl) at 1.
    replace (2 ^ Z.log2 (Z.of_nat block_size) - 1)%Z
      with (Z.ones (Z.log2 (Z.of_nat block_size))) by (rewrite Z.ones_equiv; lia).
    rewrite Z.land_ones by apply Z.log2_nonneg. rewrite <- (land_pred_pow2 (Z.of_nat block_size) ltac:(lia) Hl). by rewrite Nat2Z.inj_mod.
  - by rewrite Nat2Z.inj_mod.
Qed.

(** The reference answers unless there are too few rows for a tap. *)
Lemma add_taps_spec x delta base block_size group_size rows taps output :
  match add_taps x delta base block_size group_size rows taps output with
  | Ok m => Forall (fun tap => tap <= rows \/ rows = 0 /\ tap = 1) taps /\ forall row channel,
      m row channel = fold_left (fun acc tap => add acc
        (mul (mul (coefficients delta base group_size tap row channel) (shifted x tap row channel))
           (if (Z.of_nat tap <=? position block_size row)%Z then one else zero))) taps (output row channel)
  | Raise e => e = RuntimeError /\ Exists (fun tap => rows < tap /\ (0 < rows \/ 1 < tap)) taps
  end.
Proof.
  revert output. induction taps as [|tap taps IH]; intros output; simpl; [by split |].
  unfold add_tap. destruct ((rows <? tap) && negb ((rows =? 0) && (tap =? 1))) eqn:Hraise.
  - simpl. apply andb_true_iff in Hraise as [Hlt%Nat.ltb_lt Hn]. split; [done |]. left. split; [done |].
    destruct (Nat.eqb_spec rows 0), (Nat.eqb_spec tap 1); simpl in Hn; try done; lia.
  - cbn [mbind res_bind]. match goal with |- context [add_taps _ _ _ _ _ _ _ ?o] => specialize (IH o) end.
    destruct (add_taps _ _ _ _ _ _ _ _) as [m|e].
    + destruct IH as [Hall Hm]. split; [|done]. constructor; [|done].
      destruct (Nat.ltb_spec rows tap); [|by left]. destruct (Nat.eqb_spec rows 0), (Nat.eqb_spec tap 1); simpl in Hraise; try done. by right.
    + destruct IH. split; [done | by right].
Qed.

(** A lane computes the reference's element. *)
Lemma lane_reference x delta base output_stride block_size group_size taps rows channels row channel :
  0 < block_size -> channel < channels ->
  lane (conv_launch x delta base output_stride block_size group_size taps rows channels) row channel =
  fold_left (fun acc tap => add acc
        (mul (mul (coefficients delta base group_size tap row channel) (shifted x tap row channel))
           (if (Z.of_nat tap <=? position block_size row)%Z then one else zero))) (seq 1 (taps - 1))
    (mul (coefficients delta base group_size 0 row channel) (at2 x row channel)).
Proof.
  intros Hb Hc. unfold lane, conv_launch. cbn [NUM_CHANNELS GROUP_SIZE TAPS base_ptr delta_ptr x_ptr delta_stride_row x_stride_row].
  rewrite (proj2 (Nat.ltb_lt channel channels) Hc).
  assert (E : forall a tap, tap_step (conv_launch x delta base output_stride block_size group_size taps rows channels) row channel a tap =
    add a (mul (mul (coefficients delta base group_size tap row channel) (shifted x tap row channel))
           (if (Z.of_nat tap <=? position block_size row)%Z then one else zero))).
  { intros a tap. unfold tap_step, conv_launch, coefficients, shifted, at2, at3, load. simpl.
    rewrite (proj2 (Nat.ltb_lt channel channels) Hc), (position_mod _ _ Hb). cbn [andb]. f_equal.
    pose proof (Nat.Div0.mod_le row block_size).
    destruct (Nat.leb_spec tap (row mod block_size)), (Z.leb_spec (Z.of_nat tap) (Z.of_nat (row mod block_size))); try lia.
    - destruct (Nat.ltb_spec row tap); [lia |]. by rewrite mul_one.
    - by rewrite !mul_zero. }
  assert (Hfold : forall l a, fold_left (tap_step (conv_launch x delta base output_stride block_size group_size taps rows channels) row channel) l a =
    fold_left (fun acc tap => add acc (mul (mul (coefficients delta base group_size tap row channel) (shifted x tap row channel))
           (if (Z.of_nat tap <=? position block_size row)%Z then one else zero))) l a).
  { induction l as [|tap l IH]; intros a; [done |]. simpl. rewrite E. apply IH. }
  rewrite <- Hfold. f_equal. unfold coefficients, at2, at3, load. simpl. by rewrite !Nat.add_0_r.
Qed.

(** Stores to one address that agree. *)
Lemma store_in (writes : list (nat * R)) memory a v : (forall v', (a, v') ∈ writes -> v' = v) ->
  (a, v) ∈ writes \/ memory !! a = Some v -> fold_left store writes memory !! a = Some v.
Proof.
  revert memory. induction writes as [|[a' v'] writes IH]; intros memory Hag Hin.
  { destruct Hin as [Hin|Hm]; [by apply elem_of_nil in Hin | done]. }
  simpl. apply IH; [intros v'' Hv''; apply Hag; by right |]. unfold store. simpl. destruct (decide (a' = a)) as [->|Hne].
  - right. rewrite (Hag v') by left. apply lookup_insert_eq.
  - rewrite lookup_insert_ne by done. destruct Hin as [Hin|]; [|by right]. apply elem_of_cons in Hin as [[= <- <-]|]; [done | by left].
Qed.

Lemma store_out (writes : list (nat * R)) memory a : (forall v, (a, v) ∉ writes) -> fold_left store writes memory !! a = memory !! a.
Proof.
  revert memory. induction writes as [|[a' v'] writes IH]; intros memory Hno; [done |]. simpl. rewrite IH.
  - unfold store. simpl. rewrite lookup_insert_ne; [done |]. intros ->. apply (Hno v'). by left.
  - intros v Hin. apply (Hno v). by right.
Qed.

Lemma kernel_writes (l : launch R) order a v :
  (a, v) ∈ concat (map (_dflash2_grouped_conv_kernel l) order) <->
  exists pid j, pid ∈ order /\ j < ELEMENT_BLOCK l /\
    let blocks := cdiv (NUM_CHANNELS l) (ELEMENT_BLOCK l) in
    let channel := pid mod blocks * ELEMENT_BLOCK l + j in
    channel < NUM_CHANNELS l /\ a = pid / blocks * output_stride_row l + channel /\ v = lane l (pid / blocks) channel.
Proof.
  rewrite list_elem_of_In, in_concat. setoid_rewrite in_map_iff. split.
  - intros (ws & (pid & <- & Hpid) & Hin). unfold _dflash2_grouped_conv_kernel in Hin. apply in_concat in Hin as (w & Hw & Hin).
    apply in_map_iff in Hw as (j & <- & Hj%in_seq). destruct (Nat.ltb_spec (pid mod cdiv (NUM_CHANNELS l) (ELEMENT_BLOCK l) * ELEMENT_BLOCK l + j) (NUM_CHANNELS l)); [|done].
    destruct Hin as [[= <- <-] | []]. exists pid, j. split_and!; try done; [by apply list_elem_of_In | lia].
  - intros (pid & j & Hpid & Hj & Hc & -> & ->). eexists. split; [exists pid; split; [reflexivity | by apply list_elem_of_In] |].
    apply in_concat. eexists. split; [apply in_map_iff; exists j; split; [reflexivity | apply in_seq; lia] |].
    cbv beta zeta in *. rewrite (proj2 (Nat.ltb_lt _ _) Hc). by left.
Qed.

Lemma cdiv_pos channels eb : 0 < eb -> 0 < channels -> 0 < cdiv channels eb.
Proof. intros He Hc. unfold cdiv. apply Nat.div_str_pos. lia. Qed.

Lemma cdiv_covers channels eb channel : 0 < eb -> channel < channels -> channel / eb < cdiv channels eb.
Proof.
  intros He Hc. unfold cdiv. apply Nat.lt_le_trans with (channel / eb + 1); [lia |].
  rewrite <- Nat.div_add by lia. apply Nat.Div0.div_le_mono. lia.
Qed.

(** C<n>. Off the GPU and on it the grouped convolution is one function.  When
    the tensor program answers, the kernel's memory holds its answer at every
    row and channel and was written nowhere else, whatever the strides, the
    element block and the order its programs ran in.  The tensor program raises
    only when it has fewer rows than a tap reaches back. *)
Theorem conv_kernel_is_reference (x : view2) (delta : view3) (base : view2) output_stride block_size group_size taps rows channels order :
  0 < block_size -> channels <= output_stride -> order ≡ₚ seq 0 (grid rows channels) ->
  let output := dflash2_grouped_conv_impl x delta base output_stride block_size group_size taps rows channels order in
  match _grouped_conv x delta base block_size group_size taps rows with
  | Ok reference =>
      (forall row channel, row < rows -> channel < channels ->
         output !! (row * output_stride + channel) = Some (reference row channel)) /\
      (forall a, is_Some (output !! a) -> exists row channel, row < rows /\ channel < channels /\ a = row * output_stride + channel)
  | Raise e => e = RuntimeError /\ rows < taps - 1
  end.
Proof.
  intros Hb Hstride Horder output. unfold _grouped_conv.
  match goal with |- context [add_taps ?x ?d ?b ?bs ?gs ?rows ?taps ?o] => pose proof (add_taps_spec x d b bs gs rows taps o) as Hspec;
    destruct (add_taps x d b bs gs rows taps o) as [reference|e] end.
  2: { destruct Hspec as [-> Hex]. split; [done |]. apply Exists_exists in Hex as (tap & Htap%elem_of_seq & Hlt & _). lia. }
  destruct Hspec as [_ Href]. subst output. unfold dflash2_grouped_conv_impl.
  destruct (Nat.eqb_spec rows 0) as [->|Hrows]; [split; [lia |]; intros a [? Ha]; by rewrite lookup_empty in Ha |].
  set (l := conv_launch x delta base output_stride block_size group_size taps rows channels).
  set (eb := element_block rows channels). set (blocks := cdiv channels eb).
  assert (Heb : 0 < eb) by (unfold eb, element_block; destruct (_ && _); lia).
  assert (Hwrite : forall a v, (a, v) ∈ concat (map (_dflash2_grouped_conv_kernel l) order) ->
    exists row channel, row < rows /\ channel < channels /\ a = row * output_stride + channel /\ v = reference row channel).
  { intros a v (pid & j & Hpid & Hj & Hc & -> & ->)%kernel_writes. rewrite Horder in Hpid. apply elem_of_seq in Hpid.
    unfold grid in Hpid. fold eb in Hpid. fold blocks in Hpid.
    change (cdiv (NUM_CHANNELS l) (ELEMENT_BLOCK l)) with blocks in *. change (NUM_CHANNELS l) with channels in *.
    exists (pid / blocks), (pid mod blocks * ELEMENT_BLOCK l + j). split_and!; [apply Nat.Div0.div_lt_upper_bound; lia | done | done |].
    rewrite Href. by apply lane_reference. }
  split.
  - intros row channel Hr Hc. apply store_in; [|left].
    2: { apply kernel_writes. exists (row * blocks + channel / eb), (channel mod eb).
      change (cdiv (NUM_CHANNELS l) (ELEMENT_BLOCK l)) with blocks. change (NUM_CHANNELS l) with channels.
      change (ELEMENT_BLOCK l) with eb. change (output_stride_row l) with output_stride. cbv zeta.
      pose proof (cdiv_covers channels eb channel Heb Hc) as Hq. fold blocks in Hq.
      rewrite <- (Nat.div_unique (row * blocks + channel / eb) blocks row (channel / eb)) by lia.
      rewrite <- (Nat.mod_unique (row * blocks + channel / eb) blocks row (channel / eb)) by lia.
      replace (channel / eb * eb + channel mod eb) with channel by (pose proof (Nat.div_mod_eq channel eb); lia).
      split_and!; try done.
      * rewrite Horder. apply elem_of_seq. unfold grid. fold eb. fold blocks. nia.
      * apply Nat.mod_upper_bound. lia.
      * rewrite Href. symmetry. by apply lane_reference. }
    intros v' Hv'. destruct (Hwrite _ _ Hv') as (row' & channel' & Hr' & Hc' & E & ->).
      destruct (row_address output_stride row channel row' channel' ltac:(lia) ltac:(lia) E) as [-> ->]. done.
  - intros a [v Ha]. destruct (decide (Exists (fun w => fst w = a) (concat (map (_dflash2_grouped_conv_kernel l) order)))) as [Hex|Hno].
    + apply Exists_exists in Hex as ([a' v'] & Hin & <-). destruct (Hwrite _ _ Hin) as (row & channel & ? & ? & ? & _). by exists row, channel.
    + rewrite store_out in Ha; [by rewrite lookup_empty in Ha |]. intros v' Hin. apply Hno, Exists_exists. by exists (a, v').
Qed.
End conv.

(** Nine rows of four channels in blocks of three, two taps back, read through
    the strides [prepare] gives the projected coefficients. *)
Definition demo_x : view2 (R := Z) := View2 (fun i => Z.of_nat i - 7)%Z 4.
Definition demo_delta : view3 (R := Z) := View3 (fun i => Z.of_nat (i mod 5))%Z 12 2.
Definition demo_base : view2 (R := Z) := View2 (fun i => 3 - Z.of_nat i)%Z 4.

Lemma conv_kernel_is_reference_witness :
  exists reference, _grouped_conv demo_x demo_delta demo_base 3 2 3 9 = Ok reference /\ reference 4 1 = 38%Z /\
    dflash2_grouped_conv_impl demo_x demo_delta demo_base 6 3 2 3 9 4 (rev (seq 0 (grid 9 4))) !! (4 * 6 + 1) = Some (reference 4 1).
Proof.
  destruct (_grouped_conv demo_x demo_delta demo_base 3 2 3 9) as [reference|e] eqn:E; [|vm_compute in E; discriminate].
  pose proof (conv_kernel_is_reference demo_x demo_delta demo_base 6 3 2 3 9 4 (rev (seq 0 (grid 9 4))) ltac:(lia) ltac:(lia)
    (symmetry (Permutation_rev _))) as Hk. rewrite E in Hk. destruct Hk as [Hk _].
  exists reference. split; [done |]. split; [|apply Hk; lia]. injection E as <-. reflexivity.
Defined.

(** One row and three taps: the tensor program cannot broadcast, the kernel can. *)
Example few_rows : _grouped_conv demo_x demo_delta demo_base 3 2 3 1 = Raise RuntimeError.
Proof. reflexivity. Qed.
