(* ===== verification/DFlash2Draft.v ===== *)
(** * The DFlash2 speculator: candidate walk and draft logits

    Model of [overlay/dflash2_speculator.py]: the walk kernel
    ([gumbel_noised_argmax], [_selector_walk_kernel]), the kernel that keeps the
    sampled distributions for the verifier ([_cache_draft_logits_kernel]) and
    [_generate_draft], with the score table of [_score_edges]
    ([overlay/dflash2_model.py]).  Device memory is a function from addresses,
    updated store by store; programs of a grid run in any order.  Floats are
    exact rationals, minus infinity is [None]; Philox and the logarithms behind
    the Gumbel noise are arguments, and so are the hidden states, the top-k and
    the codebooks. *)
From Stdlib Require Import ZArith QArith Lia.
From stdpp Require Import base list.
From S2P Require Import Prelude Segments.
Open Scope nat_scope.

(** ** Memory *)

Section memory.
Context {A : Type}.

Definition upd (memory : nat -> A) (a : nat) (v : A) : nat -> A := fun x => if x =? a then v else memory x.
Definition stores (memory : nat -> A) (writes : list (nat * A)) : nat -> A :=
  fold_left (fun m w => upd m (fst w) (snd w)) writes memory.

Lemma stores_in writes memory a v : (forall v', (a, v') ∈ writes -> v' = v) -> (a, v) ∈ writes \/ memory a = v ->
  stores memory writes a = v.
Proof.
  unfold stores. revert memory. induction writes as [|[a' v'] writes IH]; intros memory Hag Hin.
  { destruct Hin as [Hin|Hm]; [by apply elem_of_nil in Hin | done]. }
  simpl. apply IH; [intros v'' Hv''; apply Hag; by right |]. unfold upd. destruct (Nat.eqb_spec a a') as [<-|Hne].
  - right. apply Hag. left.
  - destruct Hin as [Hin|]; [|by right]. apply elem_of_cons in Hin as [[= <- <-]|]; [done | by left].
Qed.

Lemma stores_out writes memory a : (forall v, (a, v) ∉ writes) -> stores memory writes a = memory a.
Proof.
  unfold stores. revert memory. induction writes as [|[a' v'] writes IH]; intros memory Hno; [done |]. simpl. rewrite IH.
  - unfold upd. destruct (Nat.eqb_spec a a') as [<-|]; [|done]. destruct (Hno v'). left.
  - intros v Hin. apply (Hno v). by right.
Qed.
End memory.

(** ** The argmax under Gumbel noise *)

(** [x < y] with minus infinity below everything. *)
Definition ext_lt (x y : option Q) : bool :=
  match x, y with
  | _, None => false
  | None, Some _ => true
  | Some x, Some y => negb (Qle_bool y x)
  end.

(** [tl.max(l, return_indices=True)]: the leftmost maximum. *)
Fixpoint max_from (i best : nat) (top : option Q) (l : list (option Q)) : nat :=
  match l with
  | [] => best
  | x :: l => if ext_lt top x then max_from (S i) i x l else max_from (S i) best top l
  end.
Definition max_index (l : list (option Q)) : nat :=
  match l with [] => 0 | x :: l => max_from 1 0 x l end.

Definition _DRAFT_NOISE_SALT : Z := 2 ^ 30.

Section speculator.
(** [tl.randint(seed, offset)], and the noise of a key under a seed. *)
Context (randint : Z -> Z -> Z) (gumbel : Z -> nat -> Q).

Definition gumbel_noised_argmax (logits : list (option Q)) (keys : list nat) (mask : list bool) (seed pos : Z) (temp : Q) : nat :=
  if Qeq_bool temp 0 then max_index logits
  else
    let logits := map (fmap (fun x => x / temp)%Q) logits in
    let gumbel_seed := randint seed (pos + _DRAFT_NOISE_SALT) in
    max_index (zip_with (fun x (km : nat * bool) =>
      if snd km then (fun x => x + gumbel gumbel_seed (fst km))%Q <$> x else None) logits (zip keys mask)).

(** ** The walk *)

(** The kernel's read-only arguments. *)
Record walk_args := WalkArgs {
  scores_ptr : nat -> Q; candidate_ptr : nat -> nat; sample_pos_ptr : nat -> Z; req_state_ptr : nat -> Z;
  temperature_ptr : nat -> Q; seeds_ptr : nat -> Z;
  num_steps : nat; top_k : nat; BLOCK_K : nat; SAMPLE_PROBABILISTIC : bool
}.

(** The buffers it writes: [draft_tokens] and [_selector_scores]. *)
Record walk_buffers := WalkBuffers { draft_tokens : nat -> nat; selector_scores : nat -> Q }.

(** One round of the loop over the steps. *)
Definition walk_step (a : walk_args) (row : nat) (valid : bool) (temperature : Q) (seed : Z) (st : nat * walk_buffers) (step : nat)
    : nat * walk_buffers :=
  let '(previous, b) := st in
  let lanes := seq 0 (BLOCK_K a) in
  let mask := map (fun o => (o <? top_k a) && valid) lanes in
  let flat := row * num_steps a + step in
  let score_base := (flat * top_k a + previous) * top_k a in
  let scores := map (fun o => if (o <? top_k a) && valid then Some (scores_ptr a (score_base + o)) else None) lanes in
  let candidate_base := flat * top_k a in
  let candidates := map (fun o => if (o <? top_k a) && valid then candidate_ptr a (candidate_base + o) else 0) lanes in
  let position := (sample_pos_ptr a flat - 1)%Z in
  let index := gumbel_noised_argmax scores candidates mask seed position (if SAMPLE_PROBABILISTIC a then temperature else 0) in
  let realized := concat (map (fun o => if (o <? top_k a) && valid then [(candidate_base + o, scores_ptr a (score_base + o))] else []) lanes) in
  let token := if valid then [(flat, candidate_ptr a (candidate_base + index))] else [] in
  (index, WalkBuffers (stores (draft_tokens b) token) (stores (selector_scores b) realized)).

Definition _selector_walk_kernel (a : walk_args) (b : walk_buffers) (row : nat) : walk_buffers :=
  let req_state := req_state_ptr a (row * num_steps a) in
  let valid := (0 <=? req_state)%Z in
  let temperature := if valid then temperature_ptr a (Z.to_nat req_state) else 0%Q in
  let seed := if valid then seeds_ptr a (Z.to_nat req_state) else 0%Z in
  snd (fold_left (walk_step a row valid temperature seed) (seq 0 (num_steps a)) (0, b)).

(** ** The cached distributions *)

Record cache_args := CacheArgs {
  draft_logits_stride_0 : nat; draft_logits_stride_1 : nat;
  c_candidate_ptr : nat -> nat; c_scores_ptr : nat -> Q; c_req_state_ptr : nat -> Z;
  c_num_steps : nat; c_top_k : nat; c_BLOCK_K : nat
}.
(** [draft_logits] and [_cached_candidate_ids]. *)
Record logits_cache := LogitsCache { draft_logits : nat -> option Q; cached_candidate : nat -> nat }.

Definition _cache_draft_logits_kernel (a : cache_args) (m : logits_cache) (flat : nat) : logits_cache :=
  let req_state := c_req_state_ptr a flat in
  let step := flat mod c_num_steps a in
  let live := if (0 <=? req_state)%Z then base.filter (fun o => o < c_top_k a) (seq 0 (c_BLOCK_K a)) else [] in
  let candidate_base := flat * c_top_k a in
  let cache_base := (Z.to_nat req_state * c_num_steps a + step) * c_top_k a in
  let old_token_ids := map (fun o => cached_candidate m (cache_base + o)) live in
  let logits_base := Z.to_nat req_state * draft_logits_stride_0 a + step * draft_logits_stride_1 a in
  let cleared := stores (draft_logits m) (map (fun t => (logits_base + t, None)) old_token_ids) in
  LogitsCache
    (stores cleared (map (fun o => (logits_base + c_candidate_ptr a (candidate_base + o), Some (c_scores_ptr a (candidate_base + o)))) live))
    (stores (cached_candidate m) (map (fun o => (cache_base + o, c_candidate_ptr a (candidate_base + o))) live)).

(** ** The score table and a draft *)

(** What the model hands to a draft: top-k candidates with their logits, the
    projected hidden states, the codebooks, the anchor tokens. *)
Record draft_inputs := DraftInputs {
  candidate_ids : nat -> nat -> nat -> nat;      (** request, step, candidate *)
  unary_logits : nat -> nat -> nat -> Q;
  hidden : nat -> nat -> nat -> Q;               (** request, step, rank *)
  predecessor_table : nat -> nat -> Q; successor_table : nat -> nat -> Q;
  anchor_token_ids : nat -> nat;
  rank : nat
}.

(** [torch.cat((anchor, candidate_ids[:, :-1]), dim=1)]. *)
Definition predecessor_ids (i : draft_inputs) (b l p : nat) : nat :=
  if l =? 0 then anchor_token_ids i b else candidate_ids i b (l - 1) p.

Definition sumQ (f : nat -> Q) (n : nat) : Q := fold_left (fun acc r => acc + f r)%Q (seq 0 n) 0%Q.

Definition _score_edges (i : draft_inputs) (b l p c : nat) : Q :=
  (unary_logits i b l c + sumQ (fun r => predecessor_table i (predecessor_ids i b l p) r * hidden i b l r
                                          * successor_table i (candidate_ids i b l c) r) (rank i))%Q.

(** The speculator: its geometry and its buffers; [sp_logits] is [None] when
    drafts are not probabilistic. *)
Record speculator := Speculator {
  sp_buffers : walk_buffers; sp_logits : option logits_cache
}.
Record geometry := Geometry {
  num_speculative_steps : nat; selector_top_k : nat; block_k : nat;
  logits_stride_0 : nat; logits_stride_1 : nat
}.
(** The step's request data. *)
Record batch := Batch {
  sample_pos : nat -> Z; sample_idx_mapping : nat -> Z; temperature : nat -> Q; seeds : nat -> Z
}.

(** A dense tensor read at a flat address. *)
Definition flat3 {A} (g : geometry) (t : nat -> nat -> nat -> A) (a : nat) : A :=
  let k := selector_top_k g in let s := num_speculative_steps g in
  t (a / k / s) (a / k mod s) (a mod k).
Definition flat4 {A} (g : geometry) (t : nat -> nat -> nat -> nat -> A) (a : nat) : A :=
  let k := selector_top_k g in
  flat3 g (fun b l p => t b l p (a mod k)) (a / k).

Definition _sample_path (g : geometry) (d : batch) (i : draft_inputs) (s : speculator) (order : list nat) : speculator :=
  let a := WalkArgs (flat4 g (_score_edges i)) (flat3 g (candidate_ids i)) (sample_pos d) (sample_idx_mapping d)
    (temperature d) (seeds d) (num_speculative_steps g) (selector_top_k g) (block_k g)
    (match sp_logits s with Some _ => true | None => false end) in
  Speculator (fold_left (_selector_walk_kernel a) order (sp_buffers s)) (sp_logits s).

Definition _cache_draft_logits (g : geometry) (d : batch) (i : draft_inputs) (s : speculator) (m : logits_cache) (order : list nat) : logits_cache :=
  let a := CacheArgs (logits_stride_0 g) (logits_stride_1 g) (flat3 g (candidate_ids i)) (selector_scores (sp_buffers s))
    (sample_idx_mapping d) (num_speculative_steps g) (selector_top_k g) (block_k g) in
  fold_left (_cache_draft_logits_kernel a) order m.

(** [_generate_draft] after the model has run; the two grids in the orders given. *)
Definition _generate_draft (g : geometry) (d : batch) (i : draft_inputs) (rows flats : list nat) (s : speculator) : speculator :=
  let s := _sample_path g d i s rows in
  match sp_logits s with
  | None => s
  | Some m => Speculator (sp_buffers s) (Some (_cache_draft_logits g d i s m flats))
  end.
End speculator.

(** ** The chain a draft is meant to follow *)

Section chain.
Context (randint : Z -> Z -> Z) (gumbel : Z -> nat -> Q).
Context (g : geometry) (d : batch) (i : draft_inputs) (probabilistic : bool).

Abbreviation S_ := (num_speculative_steps g).
Abbreviation K_ := (selector_top_k g).

(** The score of candidate [c] of a step after the token [prev]. *)
Definition edge (b l prev c : nat) : Q :=
  (unary_logits i b l c + sumQ (fun r => predecessor_table i prev r * hidden i b l r
                                          * successor_table i (candidate_ids i b l c) r) (rank i))%Q.

(** The candidate drawn at a step. *)
Definition pick (b l prev : nat) : nat :=
  let st := Z.to_nat (sample_idx_mapping d (b * S_)) in
  gumbel_noised_argmax randint gumbel (map (fun c => Some (edge b l prev c)) (seq 0 K_)) (map (candidate_ids i b l) (seq 0 K_))
    (replicate K_ true) (seeds d st) (sample_pos d (b * S_ + l) - 1) (if probabilistic then temperature d st else 0).

(** The token drafted at a step, and the one it follows: the anchor, then each
    drafted token in turn. *)
Fixpoint chain_token (b l : nat) : nat :=
  candidate_ids i b l (pick b l (match l with 0 => anchor_token_ids i b | S l => chain_token b l end)).
Definition chain_prev (b l : nat) : nat := match l with 0 => anchor_token_ids i b | S l => chain_token b l end.

(** A request the batch really holds; padding has a negative state. *)
Definition live (b : nat) : Prop := (0 <= sample_idx_mapping d (b * S_))%Z.

Record geometry_ok (vocab : nat) : Prop := GeometryOk {
  geo_k : 0 < K_; geo_block : K_ <= block_k g;
  geo_vocab : vocab <= logits_stride_1 g; geo_steps : S_ * logits_stride_1 g <= logits_stride_0 g
}.

(** Each request's steps name its one state. *)
Record batch_ok (num_reqs : nat) : Prop := BatchOk {
  bat_steps b l : b < num_reqs -> l < S_ -> sample_idx_mapping d (b * S_ + l) = sample_idx_mapping d (b * S_);
  bat_distinct b b' : b < num_reqs -> b' < num_reqs -> live b ->
    sample_idx_mapping d (b * S_) = sample_idx_mapping d (b' * S_) -> b = b'
}.

(** [torch.topk]: distinct tokens of the vocabulary. *)
Record candidates_ok (vocab : nat) : Prop := CandidatesOk {
  cand_vocab b l c : c < K_ -> candidate_ids i b l c < vocab;
  cand_distinct b l c c' : c < K_ -> c' < K_ -> candidate_ids i b l c = candidate_ids i b l c' -> c = c'
}.

(** *** The argmax of padded lanes *)

Lemma max_from_pad j best top l n : max_from j best top (l ++ replicate n None) = max_from j best top l.
Proof.
  revert j best top. induction l as [|x l IH]; intros j best top; simpl.
  - revert j. induction n as [|n IHn]; intros j; [done |]. simpl. destruct top; apply IHn.
  - destruct (ext_lt top x); apply IH.
Qed.

Lemma max_index_pad l n : l <> [] -> max_index (l ++ replicate n None) = max_index l.
Proof. destruct l as [|x l]; [done |]. intros _. apply max_from_pad. Qed.

Lemma max_from_bound j best top l : best < j -> max_from j best top l < j + length l.
Proof.
  revert j best top. induction l as [|x l IH]; intros j best top Hb; simpl; [lia |].
  destruct (ext_lt top x); eapply Nat.lt_le_trans; [apply IH; lia | lia | apply IH; lia | lia].
Qed.

Lemma max_index_bound l : l <> [] -> max_index l < length l.
Proof. destruct l as [|x l]; [done |]. intros _. simpl. apply (max_from_bound 1 0 x l). lia. Qed.

Lemma lanes_pad {A} (f : nat -> A) (other : A) n : K_ <= n ->
  map (fun o => if (o <? K_) && true then f o else other) (seq 0 n) = map f (seq 0 K_) ++ replicate (n - K_) other.
Proof.
  intros Hn. replace n with (K_ + (n - K_)) at 1 by lia. rewrite seq_app, map_app. f_equal.
  - apply map_ext_in. intros o Ho%in_seq. rewrite (proj2 (Nat.ltb_lt o K_)) by lia. done.
  - simpl. generalize (n - K_). intros m. assert (Hge : forall k, K_ <= k ->
      map (fun o => if (o <? K_) && true then f o else other) (seq k m) = replicate m other).
    { induction m as [|m IH]; intros k Hk; [done |]. simpl. rewrite (proj2 (Nat.ltb_ge k K_)) by lia. f_equal. apply IH. lia. }
    by apply Hge.
Qed.

Lemma zip_with_none {A} (f : option Q -> A -> option Q) n l : (forall x, f None x = None) -> length l = n ->
  zip_with f (replicate n None) l = replicate n None.
Proof. intros Hf. revert l. induction n as [|n IH]; intros [|x l] Hl; try done. simpl in *. rewrite Hf. f_equal. apply IH. lia. Qed.

Lemma argmax_pad logits keys mask seed pos temp n : logits <> [] -> length keys = length logits -> length mask = length logits ->
  gumbel_noised_argmax randint gumbel (logits ++ replicate n None) (keys ++ replicate n 0) (mask ++ replicate n false) seed pos temp =
  gumbel_noised_argmax randint gumbel logits keys mask seed pos temp.
Proof.
  intros Hne Hk Hm. unfold gumbel_noised_argmax. destruct (Qeq_bool temp 0); [by apply max_index_pad |].
  rewrite map_app. change (map (fmap (fun x => x / temp)%Q) (replicate n None)) with
    (fmap (M := list) (fmap (M := option) (fun x => x / temp)%Q) (replicate n None)). rewrite fmap_replicate.
  rewrite (zip_with_app pair keys (replicate n 0) mask (replicate n false)) by congruence.
  rewrite zip_with_app by by rewrite length_map, length_zip_with; lia.
  rewrite zip_with_none; [apply max_index_pad | by intros [? []] | by rewrite length_zip_with, !length_replicate; lia].
  destruct logits, keys, mask; done.
Qed.

Lemma argmax_bound logits keys mask seed pos temp : logits <> [] -> length keys = length logits -> length mask = length logits ->
  gumbel_noised_argmax randint gumbel logits keys mask seed pos temp < length logits.
Proof.
  intros Hne Hk Hm. unfold gumbel_noised_argmax. destruct (Qeq_bool temp 0); [by apply max_index_bound |].
  match goal with |- max_index ?l < _ => assert (Hl : length l = length logits) end.
  { rewrite !length_zip_with, length_map. lia. }
  rewrite <- Hl. apply max_index_bound. intros E. rewrite E in Hl. destruct logits; [done | discriminate].
Qed.

Lemma pick_bound b l prev : 0 < K_ -> pick b l prev < K_.
Proof.
  intros HK. unfold pick. eapply Nat.lt_le_trans; [apply argmax_bound |]; rewrite ?length_map, ?length_replicate, ?length_seq; try done.
  destruct K_; [lia | done].
Qed.

(** *** The walk *)

Lemma flat_at x c : c < K_ -> (x * K_ + c) / K_ = x /\ (x * K_ + c) mod K_ = c.
Proof.
  intros Hc. split; [symmetry; apply (Nat.div_unique _ _ _ c); lia | symmetry; apply (Nat.mod_unique _ _ x c); lia].
Qed.
Lemma step_at b l : l < S_ -> (b * S_ + l) / S_ = b /\ (b * S_ + l) mod S_ = l.
Proof. intros Hl. split; [symmetry; apply (Nat.div_unique _ _ _ l); lia | symmetry; apply (Nat.mod_unique _ _ b l); lia]. Qed.

Lemma flat3_at {A} (t : nat -> nat -> nat -> A) b l c : l < S_ -> c < K_ -> flat3 g t ((b * S_ + l) * K_ + c) = t b l c.
Proof.
  intros Hl Hc. unfold flat3. destruct (flat_at (b * S_ + l) c Hc) as [-> ->]. by destruct (step_at b l Hl) as [-> ->].
Qed.
Lemma flat4_at {A} (t : nat -> nat -> nat -> nat -> A) b l p c : l < S_ -> p < K_ -> c < K_ ->
  flat4 g t (((b * S_ + l) * K_ + p) * K_ + c) = t b l p c.
Proof.
  intros Hl Hp Hc. unfold flat4. destruct (flat_at ((b * S_ + l) * K_ + p) c Hc) as [-> ->]. by rewrite flat3_at.
Qed.

Lemma lanes_concat {A} (f : nat -> A) n : K_ <= n ->
  concat (map (fun o => if (o <? K_) && true then [f o] else []) (seq 0 n)) = map f (seq 0 K_).
Proof.
  intros Hn. rewrite (lanes_pad (fun o => [f o]) [] n Hn), concat_app.
  assert (E : forall m, concat (replicate m ([] : list A)) = []) by (induction m; done). rewrite E, app_nil_r.
  induction (seq 0 K_) as [|x l IH]; [done |]. simpl. by rewrite IH.
Qed.

Lemma map_const_seq {A} (x : A) j n : map (fun _ => x) (seq j n) = replicate n x.
Proof. revert j. induction n as [|n IH]; intros j; [done |]. simpl. by rewrite IH. Qed.

Definition args : walk_args :=
  WalkArgs (flat4 g (_score_edges i)) (flat3 g (candidate_ids i)) (sample_pos d) (sample_idx_mapping d)
    (temperature d) (seeds d) S_ K_ (block_k g) probabilistic.

Abbreviation state b := (Z.to_nat (sample_idx_mapping d (b * S_))).

Lemma walk_step_live b l p prev buf : 0 < K_ -> K_ <= block_k g -> l < S_ -> p < K_ -> predecessor_ids i b l p = prev ->
  walk_step randint gumbel args b true (temperature d (state b)) (seeds d (state b)) (p, buf) l =
  (pick b l prev,
   WalkBuffers (upd (draft_tokens buf) (b * S_ + l) (candidate_ids i b l (pick b l prev)))
     (stores (selector_scores buf) (map (fun c => ((b * S_ + l) * K_ + c, edge b l prev c)) (seq 0 K_)))).
Proof.
  intros HK HB Hl Hp Hprev. unfold walk_step. cbn [num_steps top_k BLOCK_K scores_ptr candidate_ptr sample_pos_ptr SAMPLE_PROBABILISTIC args].
  rewrite (lanes_pad (fun o => Some (flat4 g (_score_edges i) (((b * S_ + l) * K_ + p) * K_ + o))) None _ HB).
  rewrite (lanes_pad (fun o => flat3 g (candidate_ids i) ((b * S_ + l) * K_ + o)) 0 _ HB).
  rewrite (lanes_concat (fun o => ((b * S_ + l) * K_ + o, flat4 g (_score_edges i) (((b * S_ + l) * K_ + p) * K_ + o))) _ HB).
  assert (Hedge : forall c, c < K_ -> flat4 g (_score_edges i) (((b * S_ + l) * K_ + p) * K_ + c) = edge b l prev c).
  { intros c Hc. rewrite flat4_at by done. unfold _score_edges, edge. by rewrite Hprev. }
  assert (Hmask : map (fun o => (o <? K_) && true) (seq 0 (block_k g)) = replicate K_ true ++ replicate (block_k g - K_) false).
  { transitivity (map (fun o => if (o <? K_) && true then true else false) (seq 0 (block_k g))); [apply map_ext; intros; by destruct (_ && _) |].
    rewrite (lanes_pad (fun _ => true) false _ HB). by rewrite map_const_seq. }
  rewrite Hmask. rewrite argmax_pad by (rewrite ?length_map, ?length_replicate, ?length_seq; first [done | destruct K_; [lia | done]]).
  assert (Hpick : gumbel_noised_argmax randint gumbel
      (map (fun o => Some (flat4 g (_score_edges i) (((b * S_ + l) * K_ + p) * K_ + o))) (seq 0 K_))
      (map (fun o => flat3 g (candidate_ids i) ((b * S_ + l) * K_ + o)) (seq 0 K_)) (replicate K_ true)
      (seeds d (state b)) (sample_pos d (b * S_ + l) - 1) (if probabilistic then temperature d (state b) else 0) = pick b l prev).
  { unfold pick. rewrite (map_ext_in _ (fun c => Some (edge b l prev c)) (seq 0 K_)) by (intros c Hc%in_seq; by rewrite Hedge by lia).
    by rewrite (map_ext_in _ (candidate_ids i b l) (seq 0 K_)) by (intros c Hc%in_seq; by rewrite flat3_at by lia). }
  rewrite Hpick. f_equal. f_equal.
  - unfold stores. cbn [fold_left fst snd]. rewrite flat3_at; [done | done | by apply pick_bound].
  - f_equal. apply map_ext_in. intros c Hc%in_seq. by rewrite Hedge by lia.
Qed.

(** What a row of the buffers holds once its steps up to [n] have run. *)
Definition row_done (b n : nat) (buf : walk_buffers) : Prop :=
  forall l, l < n -> draft_tokens buf (b * S_ + l) = chain_token b l /\
    forall c, c < K_ -> selector_scores buf ((b * S_ + l) * K_ + c) = edge b l (chain_prev b l) c.

Lemma chain_token_pick b l : chain_token b l = candidate_ids i b l (pick b l (chain_prev b l)).
Proof. by destruct l. Qed.

Lemma walk_prefix b n buf : 0 < K_ -> K_ <= block_k g -> n <= S_ ->
  let r := fold_left (walk_step randint gumbel args b true (temperature d (state b)) (seeds d (state b))) (seq 0 n) (0, buf) in
  fst r < K_ /\ match n with 0 => True | S l => fst r = pick b l (chain_prev b l) end /\ row_done b n (snd r).
Proof.
  intros HK HB. induction n as [|n IH]; intros Hn; [split_and!; [done | done | intros l Hl; lia] |].
  rewrite seq_S, fold_left_app, Nat.add_0_l. specialize (IH ltac:(lia)).
  destruct (fold_left _ (seq 0 n) (0, buf)) as [p b1]. cbn [fst snd] in IH. destruct IH as (Hp & Hpk & Hdone).
  cbn [fold_left]. rewrite (walk_step_live b n p (chain_prev b n) b1 HK HB ltac:(lia) Hp).
  2: { unfold predecessor_ids. destruct n as [|l]; [done |]. simpl. rewrite Nat.sub_0_r, Hpk. symmetry. apply chain_token_pick. }
  cbn [fst snd]. split; [by apply pick_bound |]. split; [done |]. intros l Hl. cbn [draft_tokens selector_scores].
  destruct (Nat.eq_dec l n) as [->|Hne].
  - split; [unfold upd; rewrite Nat.eqb_refl; symmetry; apply chain_token_pick |]. intros c Hc. apply stores_in; [|left].
    + intros v Hin. apply list_elem_of_In, in_map_iff in Hin as (c' & [= E <-] & Hc'%in_seq). f_equal. lia.
    + apply list_elem_of_In, in_map_iff. exists c. split; [done | apply in_seq; lia].
  - destruct (Hdone l ltac:(lia)) as [Ht Hs]. split.
    + unfold upd. destruct (Nat.eqb_spec (b * S_ + l) (b * S_ + n)); [lia | done].
    + intros c Hc. rewrite stores_out; [by apply Hs |]. intros v Hin. apply list_elem_of_In, in_map_iff in Hin as (c' & [= E _] & Hc'%in_seq).
      destruct (row_address K_ _ _ _ _ (proj2 Hc') Hc E). lia.
Qed.

(** Rows of other requests are left alone. *)
Lemma walk_frame b valid temp seed l p buf b' : l < S_ -> b <> b' ->
  let buf' := snd (walk_step randint gumbel args b valid temp seed (p, buf) l) in
  (forall l', l' < S_ -> draft_tokens buf' (b' * S_ + l') = draft_tokens buf (b' * S_ + l')) /\
  (forall l' c, l' < S_ -> c < K_ -> selector_scores buf' ((b' * S_ + l') * K_ + c) = selector_scores buf ((b' * S_ + l') * K_ + c)).
Proof.
  intros Hl Hne. unfold walk_step. cbn [snd draft_tokens selector_scores num_steps top_k args]. split.
  - intros l' Hl'. apply stores_out. intros v Hin. destruct valid; [|by apply elem_of_nil in Hin].
    apply list_elem_of_singleton in Hin as [= E _]. destruct (row_address S_ _ _ _ _ Hl' Hl E). done.
  - intros l' c Hl' Hc. apply stores_out. intros v Hin. apply list_elem_of_In, in_concat in Hin as (w & Hw & Hin).
    apply in_map_iff in Hw as (o & <- & _). destruct (Nat.ltb_spec o K_); [|done]. destruct valid; [|done]. simpl in Hin.
    destruct Hin as [[= E _]|[]]. destruct (row_address K_ _ _ _ _ ltac:(eassumption) Hc E) as [E' _].
    destruct (row_address S_ _ _ _ _ Hl Hl' E'). done.
Qed.

Lemma kernel_frame b buf b' : b <> b' -> row_done b' S_ buf -> row_done b' S_ (_selector_walk_kernel randint gumbel args buf b).
Proof.
  intros Hne. unfold _selector_walk_kernel. cbn [num_steps args req_state_ptr].
  assert (G : forall v t s ls p buf, (forall l, l ∈ ls -> l < S_) -> row_done b' S_ buf ->
    row_done b' S_ (snd (fold_left (walk_step randint gumbel args b v t s) ls (p, buf)))).
  { clear buf. intros v t s ls. induction ls as [|l ls IH]; intros p buf Hsub Hdone; [done |]. cbn [fold_left].
    pose proof (walk_frame b v t s l p buf b' (Hsub l ltac:(left)) Hne) as [Ht Hs].
    destruct (walk_step randint gumbel args b v t s (p, buf) l) as [p' buf']. cbn [snd] in Ht, Hs.
    apply IH; [intros; apply Hsub; by right |]. intros l' Hl'. destruct (Hdone l' Hl') as [H1 H2].
    split; [by rewrite Ht |]. intros c Hc. by rewrite Hs, H2. }
  apply G. intros l Hl%elem_of_seq. lia.
Qed.

(** *** The cached distributions *)

Context (vocab num_reqs : nat) (Hgeo : geometry_ok vocab) (Hbat : batch_ok num_reqs) (Hcand : candidates_ok vocab).

Definition cell (st l v : nat) : nat := st * logits_stride_0 g + l * logits_stride_1 g + v.

(** Every logit above minus infinity belongs to a candidate the cache remembers. *)
Definition logits_sound (m : logits_cache) : Prop :=
  (forall st l v, l < S_ -> v < vocab -> draft_logits m (cell st l v) <> None ->
     exists o, o < K_ /\ cached_candidate m ((st * S_ + l) * K_ + o) = v) /\
  (forall a, cached_candidate m a < vocab).

(** The logits of one step are those of the given scores. *)
Definition cell_done (scores : nat -> Q) (b l : nat) (m : logits_cache) : Prop :=
  (forall c, c < K_ -> draft_logits m (cell (state b) l (candidate_ids i b l c)) = Some (scores ((b * S_ + l) * K_ + c))) /\
  (forall v, v < vocab -> (forall c, c < K_ -> candidate_ids i b l c <> v) -> draft_logits m (cell (state b) l v) = None).

Definition cargs (scores : nat -> Q) : cache_args :=
  CacheArgs (logits_stride_0 g) (logits_stride_1 g) (flat3 g (candidate_ids i)) scores (sample_idx_mapping d) S_ K_ (block_k g).

Lemma cell_inj st l v st' l' v' : l < S_ -> l' < S_ -> v < vocab -> v' < vocab -> cell st l v = cell st' l' v' ->
  st = st' /\ l = l' /\ v = v'.
Proof.
  destruct Hgeo as [_ _ Hv Hs]. intros Hl Hl' Hvv Hvv' E. unfold cell in E.
  destruct (row_address (logits_stride_0 g) st (l * logits_stride_1 g + v) st' (l' * logits_stride_1 g + v')) as [-> E']; [nia | nia | lia |].
  destruct (row_address (logits_stride_1 g) l v l' v') as [-> ->]; [lia | lia | lia |]. done.
Qed.

Lemma live_lanes : base.filter (fun o => o < K_) (seq 0 (block_k g)) = seq 0 K_.
Proof.
  destruct Hgeo as [_ HB _ _]. replace (block_k g) with (K_ + (block_k g - K_)) by lia. rewrite seq_app, filter_app.
  rewrite list_filter_all by (intros o Ho%elem_of_seq; cbv beta; lia).
  rewrite list_filter_none by (intros o Ho%elem_of_seq; cbv beta; lia). apply app_nil_r.
Qed.

(** One program, at request [b] and step [l]. *)
Lemma cache_program scores b l m : b < num_reqs -> l < S_ -> logits_sound m ->
  let m' := _cache_draft_logits_kernel (cargs scores) m (b * S_ + l) in
  logits_sound m' /\
  (live b -> cell_done scores b l m') /\
  (forall st' l' v, l' < S_ -> v < vocab -> live b -> (st', l') <> (state b, l) -> draft_logits m' (cell st' l' v) = draft_logits m (cell st' l' v)) /\
  (~ live b -> m' = m).
Proof.
  intros Hb Hl [Hsup Hvoc]. unfold _cache_draft_logits_kernel.
  cbn [cargs c_req_state_ptr c_num_steps c_top_k c_BLOCK_K c_candidate_ptr c_scores_ptr draft_logits_stride_0 draft_logits_stride_1].
  rewrite (bat_steps _ Hbat b l Hb Hl). destruct (step_at b l Hl) as [_ ->]. rewrite live_lanes.
  destruct (Z.leb_spec 0 (sample_idx_mapping d (b * S_))) as [Hlive|Hdead].
  2: { assert (Hno : ~ live b) by (unfold live; lia). simpl. split; [by split |]. split; [done |]. split; [done |]. by destruct m. }
  fold (state b). set (old := map (fun o => cached_candidate m ((state b * S_ + l) * K_ + o)) (seq 0 K_)).
  set (new := map (fun o => (state b * logits_stride_0 g + l * logits_stride_1 g + flat3 g (candidate_ids i) ((b * S_ + l) * K_ + o),
                             Some (scores ((b * S_ + l) * K_ + o)))) (seq 0 K_)).
  set (clear := map (fun t => (state b * logits_stride_0 g + l * logits_stride_1 g + t, None)) old).
  set (ids := map (fun o => ((state b * S_ + l) * K_ + o, flat3 g (candidate_ids i) ((b * S_ + l) * K_ + o))) (seq 0 K_)).
  assert (Hnew : forall a v, (a, v) ∈ new <-> exists c, c < K_ /\ a = cell (state b) l (candidate_ids i b l c) /\ v = Some (scores ((b * S_ + l) * K_ + c))).
  { intros a v. unfold new. rewrite list_elem_of_In, in_map_iff. split.
    - intros (c & [= <- <-] & Hc%in_seq). exists c. rewrite flat3_at by lia. split_and!; [lia | done | done].
    - intros (c & Hc & -> & ->). exists c. rewrite flat3_at by done. split; [done | apply in_seq; lia]. }
  assert (Hclear : forall a v, (a, v) ∈ clear <-> v = None /\ exists o, o < K_ /\ a = cell (state b) l (cached_candidate m ((state b * S_ + l) * K_ + o))).
  { intros a v. unfold clear, old. rewrite list_elem_of_In, in_map_iff. split.
    - intros (t & [= <- <-] & (o & <- & Ho%in_seq)%in_map_iff). split; [done |]. exists o. split; [lia | done].
    - intros (-> & o & Ho & ->). eexists. split; [reflexivity |]. apply in_map_iff. exists o. split; [done | apply in_seq; lia]. }
  assert (Hids : forall a v, (a, v) ∈ ids <-> exists c, c < K_ /\ a = (state b * S_ + l) * K_ + c /\ v = candidate_ids i b l c).
  { intros a v. unfold ids. rewrite list_elem_of_In, in_map_iff. split.
    - intros (c & [= <- <-] & Hc%in_seq). exists c. rewrite flat3_at by lia. split_and!; [lia | done | done].
    - intros (c & Hc & -> & ->). exists c. rewrite flat3_at by done. split; [done | apply in_seq; lia]. }
  assert (Hdone : cell_done scores b l (LogitsCache (stores (stores (draft_logits m) clear) new) (stores (cached_candidate m) ids))).
  { split; cbn [draft_logits].
    - intros c Hc. apply stores_in; [|left; apply Hnew; by exists c]. intros v (c' & Hc' & E & ->)%Hnew.
      destruct (cell_inj _ _ _ _ _ _ Hl Hl (cand_vocab _ Hcand b l c Hc) (cand_vocab _ Hcand b l c' Hc') E) as (_ & _ & E').
      by rewrite (cand_distinct _ Hcand b l c c' Hc Hc' E').
    - intros v Hv Hno. rewrite stores_out.
      2: { intros x (c & Hc & E & _)%Hnew. destruct (cell_inj _ _ _ _ _ _ Hl Hl Hv (cand_vocab _ Hcand b l c Hc) E) as (_ & _ & E'). by apply (Hno c). }
      destruct (draft_logits m (cell (state b) l v)) as [q|] eqn:Hq.
      + destruct (Hsup (state b) l v Hl Hv ltac:(by rewrite Hq)) as (o & Ho & Ev). apply stores_in; [by intros x [-> _]%Hclear |].
        left. apply Hclear. split; [done |]. exists o. split; [done |]. by rewrite Ev.
      + apply stores_in; [by intros x [-> _]%Hclear | by right]. }
  assert (Hframe : forall st' l' v, l' < S_ -> v < vocab -> (st', l') <> (state b, l) ->
      stores (stores (draft_logits m) clear) new (cell st' l' v) = draft_logits m (cell st' l' v)).
  { intros st' l' v Hl' Hv Hne. rewrite !stores_out; [done | |].
    - intros x (_ & o & _ & E)%Hclear. destruct (cell_inj _ _ _ _ _ _ Hl' Hl Hv (Hvoc _) E) as (-> & -> & _). done.
    - intros x (c & Hc & E & _)%Hnew. destruct (cell_inj _ _ _ _ _ _ Hl' Hl Hv (cand_vocab _ Hcand b l c Hc) E) as (-> & -> & _). done. }
  split; [|split; [by intros _ | split; [by intros; apply Hframe | by intros Hx; destruct Hx]]].
  split; cbn [draft_logits cached_candidate].
  - intros st' l' v Hl' Hv Hsome. destruct (decide ((st', l') = (state b, l))) as [[= -> ->]|Hne].
    + destruct (decide (Exists (fun c => candidate_ids i b l c = v) (seq 0 K_))) as [Hex|Hno].
      * apply Exists_exists in Hex as (c & Hc%elem_of_seq & Ev). exists c. split; [lia |]. apply stores_in; [|left; apply Hids; exists c; split_and!; [lia | done | done]].
        intros v' (c' & Hc' & E & ->)%Hids. assert (c = c') as <- by lia. done.
      * exfalso. apply Hsome. destruct Hdone as [_ Hn]. cbn [draft_logits] in Hn. apply Hn; [done |]. intros c Hc Ev. apply Hno, Exists_exists.
        exists c. split; [apply elem_of_seq; lia | done].
    + rewrite Hframe in Hsome by done. destruct (Hsup st' l' v Hl' Hv Hsome) as (o & Ho & Ev). exists o. split; [done |].
      rewrite stores_out; [done |]. intros x (c & Hc & E & _)%Hids. destruct (row_address K_ _ _ _ _ Ho Hc E) as [E' _].
      destruct (row_address S_ _ _ _ _ Hl' Hl E') as [-> ->]. done.
  - intros a. destruct (decide (Exists (fun w => fst w = a) ids)) as [Hex|Hno].
    + apply Exists_exists in Hex as ([a' v'] & Hin & <-). pose proof (proj1 (Hids _ _) Hin) as (c & Hc & -> & ->). simpl.
      rewrite (stores_in ids _ _ (candidate_ids i b l c)); [by apply Hcand | | by left].
      intros v'' (c' & Hc' & E & ->)%Hids. assert (c = c') as <- by lia. done.
    + rewrite stores_out; [apply Hvoc |]. intros v Hin. apply Hno, Exists_exists. by exists (a, v).
Qed.

Lemma cache_all scores flats m : Forall (fun f => f < num_reqs * S_) flats -> logits_sound m ->
  let m' := fold_left (_cache_draft_logits_kernel (cargs scores)) flats m in
  logits_sound m' /\ forall b l, b < num_reqs -> l < S_ -> live b -> b * S_ + l ∈ flats -> cell_done scores b l m'.
Proof.
  intros Hf Hm. induction flats as [|f flats IH] using rev_ind; [split; [done |]; intros b l _ _ _ Hin; by apply elem_of_nil in Hin |].
  apply Forall_app in Hf as [Hf Hlast]. apply Forall_cons in Hlast as [Hlast _]. destruct (IH Hf) as [Hs Hdone].
  cbv zeta. rewrite fold_left_app. cbn [fold_left]. set (m1 := fold_left (_cache_draft_logits_kernel (cargs scores)) flats m) in *.
  assert (HS : S_ <> 0) by (intros E; rewrite E in Hlast; lia).
  set (b' := f / S_). set (l' := f mod S_). assert (Ef : f = b' * S_ + l') by (unfold b', l'; pose proof (Nat.div_mod_eq f S_); lia).
  assert (Hl' : l' < S_) by (apply Nat.mod_upper_bound; lia).
  assert (Hb' : b' < num_reqs) by (apply Nat.Div0.div_lt_upper_bound; lia). rewrite Ef.
  destruct (cache_program scores b' l' m1 Hb' Hl' Hs) as (Hs' & Hnew & Hframe & Hdead). split; [done |].
  intros b l Hb Hl Hlive Hin. apply elem_of_app in Hin as [Hin|Hin].
  - specialize (Hdone b l Hb Hl Hlive Hin). destruct (decide (live b')) as [Hlive'|Hd]; [|by rewrite Hdead].
    destruct (decide ((state b, l) = (state b', l'))) as [[= Est ->]|Hne].
    + assert (b = b') as ->; [|by apply Hnew]. apply (bat_distinct _ Hbat); [done | done | done |]. unfold live in *. lia.
    + destruct Hdone as [H1 H2]. split.
      * intros c Hc. rewrite Hframe; [by apply H1 | done | by apply Hcand | done | done].
      * intros v Hv Hno. rewrite Hframe; [by apply H2 | done | done | done | done].
  - apply list_elem_of_singleton in Hin. destruct (row_address S_ _ _ _ _ Hl Hl' Hin) as [-> ->]. by apply Hnew.
Qed.

Lemma walk_all rows buf b : b ∈ rows -> live b -> row_done b S_ (fold_left (_selector_walk_kernel randint gumbel args) rows buf).
Proof.
  intros Hin Hlive. induction rows as [|r rows IH] using rev_ind; [by apply elem_of_nil in Hin |].
  rewrite fold_left_app. cbn [fold_left]. destruct (decide (b = r)) as [->|Hne].
  - unfold _selector_walk_kernel. cbn [num_steps req_state_ptr temperature_ptr seeds_ptr args]. unfold live in Hlive.
    rewrite (proj2 (Z.leb_le _ _) Hlive). apply (walk_prefix r S_ _ (geo_k _ Hgeo) (geo_block _ Hgeo)). lia.
  - apply kernel_frame; [done |]. apply IH. apply elem_of_app in Hin as [|Hin]; [done |]. by apply list_elem_of_singleton in Hin.
Qed.
End chain.

(** Drafts are sampled when the verifier keeps their logits. *)
Definition is_probabilistic (s : speculator) : bool := match sp_logits s with Some _ => true | None => false end.

(** C<n>. A draft is the chain the model describes, and the verifier is told the
    distribution it was drawn from.  In whatever order the programs of the two
    grids run, each live request's tokens are, step by step, the pick among its
    candidates scored against the token drafted just before (the anchor first);
    and where drafts are sampled, the cached logits of each of its steps are
    those very scores on the candidates and minus infinity on the rest of the
    vocabulary, with nothing left over from earlier drafts in the same slot. *)
Theorem draft_follows_chain randint gumbel g d i rows flats num_reqs vocab (s : speculator) :
  geometry_ok g vocab -> batch_ok g d num_reqs -> candidates_ok g i vocab ->
  rows ≡ₚ seq 0 num_reqs -> flats ≡ₚ seq 0 (num_reqs * num_speculative_steps g) ->
  match sp_logits s with Some m => logits_sound g vocab m | None => True end ->
  let token := chain_token randint gumbel g d i (is_probabilistic s) in
  let prev := chain_prev randint gumbel g d i (is_probabilistic s) in
  let s' := _generate_draft randint gumbel g d i rows flats s in
  (forall b l, b < num_reqs -> l < num_speculative_steps g -> live g d b ->
     draft_tokens (sp_buffers s') (b * num_speculative_steps g + l) = token b l) /\
  match sp_logits s' with
  | None => sp_logits s = None
  | Some m => logits_sound g vocab m /\
      forall b l, b < num_reqs -> l < num_speculative_steps g -> live g d b ->
        let at_ := cell g (Z.to_nat (sample_idx_mapping d (b * num_speculative_steps g))) l in
        (forall c, c < selector_top_k g -> draft_logits m (at_ (candidate_ids i b l c)) = Some (edge i b l (prev b l) c)) /\
        (forall v, v < vocab -> (forall c, c < selector_top_k g -> candidate_ids i b l c <> v) -> draft_logits m (at_ v) = None)
  end.
Proof.
  intros Hgeo Hbat Hcand Hrows Hflats Hs token prev s'.
  set (s1 := _sample_path randint gumbel g d i s rows).
  assert (Hrow : forall b, b < num_reqs -> live g d b ->
    row_done randint gumbel g d i (is_probabilistic s) b (num_speculative_steps g) (sp_buffers s1)).
  { intros b Hb Hlive. eapply walk_all; [exact Hgeo | | exact Hlive]. rewrite Hrows. apply elem_of_seq. lia. }
  assert (Hbuf : sp_buffers s' = sp_buffers s1) by (unfold s', _generate_draft; fold s1; by destruct (sp_logits s1)).
  split; [intros b l Hb Hl Hlive; rewrite Hbuf; by apply Hrow |].
  unfold s', _generate_draft. fold s1. change (sp_logits s1) with (sp_logits s).
  destruct (sp_logits s) as [m|] eqn:Hm; [|change (sp_logits s1) with (sp_logits s); by rewrite Hm].
  cbn [sp_logits]. unfold _cache_draft_logits.
  destruct (cache_all g d i vocab num_reqs Hgeo Hbat Hcand (selector_scores (sp_buffers s1)) flats m) as [Hsound Hdone]; [|done |].
  { apply Forall_forall. intros f Hf. rewrite Hflats in Hf. apply elem_of_seq in Hf. lia. }
  split; [done |]. intros b l Hb Hl Hlive.
  destruct (Hdone b l Hb Hl Hlive) as [H1 H2]; [rewrite Hflats; apply elem_of_seq; nia |]. split; [|exact H2].
  intros c Hc. etrans; [by apply H1 |]. f_equal. by apply (Hrow b Hb Hlive l Hl).
Qed.

(** Freshly allocated buffers are sound. *)
Lemma fresh_sound g vocab : 0 < vocab -> logits_sound g vocab (LogitsCache (fun _ => None) (fun _ => 0)).
Proof. intros Hv. by split. Qed.

(** The draft's streams never meet the target sampler's. *)
Lemma draft_streams_disjoint (p q : Z) : (0 <= p < _DRAFT_NOISE_SALT)%Z -> (0 <= q)%Z -> p <> (q + _DRAFT_NOISE_SALT)%Z.
Proof. lia. Qed.

(** Two requests, one of them padding, two steps, two candidates out of five
    tokens; the slot's previous draft left logits behind. *)
Definition demo_geometry : geometry := Geometry 2 2 4 10 5.
Definition demo_batch : batch :=
  Batch (fun f => Z.of_nat f + 7)%Z (fun f => if f <? 2 then 1%Z else (-1)%Z) (fun _ => 1%Q) (fun _ => 3%Z).
Definition demo_inputs : draft_inputs :=
  DraftInputs (fun _ l c => if l =? 0 then 2 + c else 4 - 3 * c) (fun _ _ c => inject_Z (Z.of_nat c)) (fun _ _ _ => 1%Q)
    (fun t _ => if t =? 3 then (-5)%Q else 1%Q) (fun t _ => inject_Z (Z.of_nat t)) (fun _ => 0) 1.
Definition demo_randint (seed offset : Z) : Z := (seed + offset)%Z.
Definition demo_gumbel (seed : Z) (key : nat) : Q := inject_Z ((seed * Z.of_nat key) mod 3).
Definition demo_speculator : speculator :=
  Speculator (WalkBuffers (fun _ => 0) (fun _ => 0%Q)) (Some (LogitsCache (fun a => if a =? 12 then Some 9%Q else None) (fun a => if a =? 5 then 2 else 0))).

Lemma draft_follows_chain_witness : exists s',
  _generate_draft demo_randint demo_gumbel demo_geometry demo_batch demo_inputs [1; 0] [2; 0; 3; 1] demo_speculator = s' /\
  map (draft_tokens (sp_buffers s')) [0; 1] =
    map (chain_token demo_randint demo_gumbel demo_geometry demo_batch demo_inputs true 0) [0; 1] /\
  map (chain_token demo_randint demo_gumbel demo_geometry demo_batch demo_inputs true 0) [0; 1] = [2; 4].
Proof.
  eexists. split; [reflexivity |].
  destruct (draft_follows_chain demo_randint demo_gumbel demo_geometry demo_batch demo_inputs [1; 0] [2; 0; 3; 1] 2 5 demo_speculator) as [Ht _].
  - split; cbn; lia.
  - split; cbn.
    + intros b l Hb Hl. destruct b as [|[|b]], l as [|[|l]]; try lia; done.
    + intros b b' Hb Hb' Hlive E. unfold live in Hlive. cbn in Hlive. destruct b as [|[|b]], b' as [|[|b']]; cbn in *; try lia; done.
  - split; cbn; [intros b l c Hc; destruct (l =? 0); lia | intros b l c c' Hc Hc' E; destruct (l =? 0); lia].
  - apply perm_swap.
  - apply (bool_decide_unpack ([2; 0; 3; 1] ≡ₚ [0; 1; 2; 3])). vm_compute. exact I.
  - simpl. split; simpl.
    + intros st l v Hl Hv Hne. unfold cell in Hne. simpl in Hne. destruct (Nat.eqb_spec (st * 10 + l * 5 + v) 12) as [E|]; [|done].
      exists 1. split; [lia |]. assert (st = 1) as -> by lia. assert (l = 0) as -> by lia. simpl. lia.
    + intros a. destruct (a =? 5); lia.
  - split; [|reflexivity]. assert (H0 : live demo_geometry demo_batch 0) by done.
    exact (f_equal2 (fun x y => [x; y]) (Ht 0 0 ltac:(lia) ltac:(cbn; lia) H0) (Ht 0 1 ltac:(lia) ltac:(cbn; lia) H0)).
Defined.

(** Without sampling the walk is greedy and takes the other branch. *)
Example greedy_walk : map (chain_token demo_randint demo_gumbel demo_geometry demo_batch demo_inputs false 0) [0; 1] = [3; 1].
Proof. reflexivity. Qed.
