(* ===== verification/DrafterGroup.v ===== *)
(** * The drafter's KV-cache group

    The code [overlay/patch_glm5_drafter_group.py] installs in vLLM's
    [kv_cache_utils.py]: partitioning the DFlash2 drafter's sliding-window
    layers out of the GLM-5-Next fast path, building their group (exact fit or
    padded slot-share), recognising it in the tensor layout, and the three
    consumers of that layout (pool bytes, tensors, memory estimate).  The text
    between the edits is vLLM's: what it computes is an argument. *)
From Stdlib Require Import ZArith Lia.
From stdpp Require Import base list strings gmap.
From S2P Require Import Prelude.
#[local] Open Scope string_scope.
#[local] Open Scope Z_scope.

(** ** Specs and groups *)

(** A KV-cache spec: class names ([type(s).__mro__], its own first), the two
    attributes the code replaces, and an opaque key for the rest. *)
Record spec := Spec { mro : list string; block_size : Z; page_size_padded : option Z; rest : Z }.

#[export] Instance spec_eq_dec : EqDecision spec.
Proof. solve_decision. Defined.

Definition type_is (s : spec) (c : string) : bool := match mro s with t :: _ => String.eqb t c | [] => false end.
Definition isinstance (s : spec) (cs : list string) : bool := existsb (fun c => existsb (String.eqb c) (mro s)) cs.
(** [dataclasses.replace]. *)
Definition with_block (b : Z) (s : spec) : spec := Spec (mro s) b (page_size_padded s) (rest s).
Definition with_padding (p : Z) (s : spec) : spec := Spec (mro s) (block_size s) (Some p) (rest s).

(** What a page weighs is vLLM's: a padded spec's page is the padding, an
    unpadded sliding-window page is its block times the bytes per token. *)
Class Pages := {
  page_size_bytes : spec -> Z;
  bytes_per_token : spec -> Z;
  page_padded s p : page_size_padded s = Some p -> page_size_bytes s = p;
  page_unpadded s : type_is s "SlidingWindowSpec" = true -> page_size_padded s = None ->
    page_size_bytes s = block_size s * bytes_per_token s;
  token_bytes_rescaled s b : bytes_per_token (with_block b s) = bytes_per_token s
}.

(** A dict of specs by layer name, in insertion order. *)
Notation specs := (list (string * spec)).

(** A group's spec: [UniformTypeKVCacheSpecs] or a spec of its own. *)
Inductive group_spec := Uniform (kv_cache_specs : specs) | Single (s : spec).
Record group := Group { layer_names : list string; kv_cache_spec : group_spec }.

(** Floor division and remainder, raising at zero. *)
Definition py_div (a b : Z) : res Z := if b =? 0 then Raise ZeroDivisionError else Ok (a / b).
Definition py_mod (a b : Z) : res Z := if b =? 0 then Raise ZeroDivisionError else Ok (a mod b).

(** ** Partitioning and building the groups *)

Definition is_draft (e : string * spec) : bool := type_is (snd e) "SlidingWindowSpec".
Definition is_attn (e : string * spec) : bool :=
  negb (isinstance (snd e) ["MambaSpec"; "KpoolTailSpec"]) && negb (is_draft e).

(** The partition and its type check; [None] leaves the fast path. *)
Definition partition (kv_cache_spec mamba_specs : specs) : option (specs * specs) :=
  let draft_specs := List.filter is_draft kv_cache_spec in
  let attn_specs := List.filter is_attn kv_cache_spec in
  if match mamba_specs with [] => true | _ => false end
     || negb (forallb (fun e => type_is (snd e) "MLAAttentionSpec") attn_specs)
  then None else Some (draft_specs, attn_specs).

(** Mamba layer [k] goes to group [k % num_groups]. *)
Definition put_round_robin (num_groups : nat) (groups : list (list string)) (kn : nat * string) : list (list string) :=
  alter (fun g => g ++ [snd kn])%list (fst kn mod num_groups)%nat groups.
Definition round_robin (num_groups : nat) (names : list string) : list (list string) :=
  fold_left (put_round_robin num_groups) (zip (seq 0 (length names)) names) (repeat [] num_groups).

(** The exact-fit block, [0] when the page is not a whole number of tokens. *)
Definition fit_block (mla_page draft_bytes_per_token : Z) : res Z :=
  r ← py_mod mla_page draft_bytes_per_token;
  if r =? 0 then py_div mla_page draft_bytes_per_token else Ok 0.

(** The guard of the exact fit, short-circuiting as [and] and [or] do. *)
Definition exact_fit (fit mla_block : Z) (drafts mla_names : nat) : res bool :=
  if (fit =? 0) || negb (fit mod 64 =? 0) then Ok false else
  r ← py_mod fit mla_block;
  let divides := (r =? 0) || (mla_block mod fit =? 0) in
  Ok (divides && (drafts <=? mla_names)%nat).

(** The accounting of the padded mode's boot line. *)
Record waste := Waste {
  kernel_page_bytes : Z;
  draft_tokens_per_mla_page : Z;
  usable_draft_tokens : Z;
  structural_padding_waste_bytes : Z;
  exact_fit_page_bytes : Z
}.
Definition padding_waste (mla_page draft_bytes_per_token : Z) : waste :=
  let compact_block := 64 in
  let tokens := mla_page / draft_bytes_per_token in
  let usable := tokens / compact_block * compact_block in
  Waste (compact_block * draft_bytes_per_token) tokens usable ((tokens - usable) * draft_bytes_per_token)
    ((tokens + compact_block - 1) / compact_block * compact_block * draft_bytes_per_token).

Section Build.
Context `{Pages} (uniform_type : specs -> bool).

(** [UniformTypeKVCacheSpecs.from_specs]. *)
Definition from_specs (l : specs) : option group_spec := if uniform_type l then Some (Uniform l) else None.

(** The drafter's new specs: rescaled, or compact and padded. *)
Definition new_draft_specs (draft_specs : specs) (mla_page mla_block : Z) (mla_names : nat) : res specs :=
  match draft_specs with
  | [] => Ok []
  | (_, any_draft) :: _ =>
      _ ← (if forallb (fun e => bool_decide (snd e = any_draft)) draft_specs then Ok tt else Raise AssertionError);
      draft_bytes_per_token ← py_div (page_size_bytes any_draft) (block_size any_draft);
      fit ← fit_block mla_page draft_bytes_per_token;
      exact ← exact_fit fit mla_block (length draft_specs) mla_names;
      Ok (if exact : bool then map (fun e => (fst e, with_block fit (snd e))) draft_specs
          else map (fun e => (fst e, with_padding mla_page (with_block 64 (snd e)))) draft_specs)
  end.

Definition build_draft (draft_specs : specs) (mla_page mla_block : Z) (mla_names : nat) : res (option group) :=
  match draft_specs with
  | [] => Ok None
  | _ =>
      new ← new_draft_specs draft_specs mla_page mla_block mla_names;
      match from_specs new with
      | Some u => Ok (Some (Group (map fst new) u))
      | None => Raise AssertionError
      end
  end.

(** The returned groups; [create] is [create_kv_cache_group_specs] on the
    padded Mamba specs. *)
Definition build_groups (create : list (list string) -> list group) (num_groups : nat)
    (mamba_specs attn_specs draft_specs : specs) (uniform_spec : group_spec) (tail_group : option group)
    (mla_page mla_block : Z) (mla_names : nat) : res (list group) :=
  let mamba_grouped_names := round_robin num_groups (map fst mamba_specs) in
  draft_group ← build_draft draft_specs mla_page mla_block mla_names;
  Ok ([Group (map fst attn_specs) uniform_spec] ++ option_list tail_group
      ++ create mamba_grouped_names ++ option_list draft_group)%list.
End Build.

(** ** Recognising the groups *)

Record detected := Detected { d_attn : option group; d_tail : option group; d_draft : option group }.

Definition inner (g : group) : specs := match kv_cache_spec g with Uniform l => l | Single _ => [] end.
Definition all_specs (p : spec -> bool) (g : group) : bool := forallb (fun e => p (snd e)) (inner g).

Definition detect_group (d : detected) (g : group) : detected :=
  if all_specs (fun s => type_is s "MLAAttentionSpec") g then Detected (Some g) (d_tail d) (d_draft d)
  else if all_specs (fun s => isinstance s ["KpoolTailSpec"]) g then Detected (d_attn d) (Some g) (d_draft d)
  else if negb (match inner g with [] => true | _ => false end) && all_specs (fun s => type_is s "SlidingWindowSpec") g
  then Detected (d_attn d) (d_tail d) (Some g) else d.

Definition detect (uniform_groups : list group) : detected :=
  fold_left detect_group uniform_groups (Detected None None None).

(** What vLLM's text reads off the attention and tail groups. *)
Record base := Base {
  mla_names : list string; idx_names : list string; mla_page : Z; idx_page : Z; tail_names : list string
}.
(** The returned tuple; the tail page and the attention group are unused by
    the three consumers' edits. *)
Record layout := Layout { lbase : base; mamba_groups : list group; draft_group : option group }.

Section Layout.
(** [mla_size] is vLLM's size of an MLA tensor, from the page and the blocks. *)
Context `{Pages} (read_base : option group -> option group -> option base) (mla_size : Z -> Z -> Z).

Definition group_page (g : group) : res Z :=
  match kv_cache_spec g with
  | Uniform ((_, s) :: _) => Ok (page_size_bytes s)
  | Uniform [] => Raise OtherException
  | Single _ => Raise AttributeError
  end.

(** The checks on a detected drafter group; [true] keeps the layout. *)
Definition draft_valid (page : Z) (tensors : nat) (g : group) : bool :=
  let pages := remove_dups (map (fun e => page_size_bytes (snd e)) (inner g)) in
  match pages with
  | [draft_page] =>
      if existsb (fun e => match page_size_padded (snd e) with Some _ => true | None => false end) (inner g)
         && existsb (fun e => negb (block_size (snd e) =? 64)
                              || negb (bool_decide (page_size_padded (snd e) = Some page))) (inner g)
      then false
      else negb ((draft_page =? page) && (tensors <? length (layer_names g))%nat)
  | _ => false
  end.

(** [g.kv_cache_spec.page_size_bytes] of a Mamba group, whose spec is its own. *)
Definition mamba_page_is (page : Z) (g : group) : bool :=
  match kv_cache_spec g with Single s => page_size_bytes s =? page | Uniform _ => false end.

Definition _glm5_next_tensor_layout (uniform_groups mambas : list group) : option layout :=
  let d := detect uniform_groups in
  b ← read_base (d_attn d) (d_tail d);
  if negb (forallb (mamba_page_is (mla_page b)) mambas) then None
  else if negb (match d_draft d with None => true
                | Some g => draft_valid (mla_page b) (length (mla_names b)) g end) then None
  else Some (Layout b mambas (d_draft d)).

(** *** The consumers *)

Definition base_bytes (b : base) : Z :=
  Z.of_nat (length (mla_names b)) * mla_page b + Z.of_nat (length (idx_names b)) * idx_page b.

Definition _pool_bytes_per_block (l : layout) : res Z :=
  let per_block := base_bytes (lbase l) in
  match draft_group l with
  | None => Ok per_block
  | Some g =>
      draft_page ← group_page g;
      Ok (if draft_page =? mla_page (lbase l) then per_block
          else per_block + Z.of_nat (length (layer_names g)) * draft_page)
  end.

(** [KVCacheTensor]. *)
Record tensor := Tensor { size : Z; shared_by : list string }.

(** [l[i]], raising. *)
Definition index (l : list string) (i : nat) : res string := of_option IndexError (l !! i).

(** Where the drafter goes: its names, page and whether it shares. *)
Definition draft_mode (l : layout) : res (list string * Z * bool) :=
  match draft_group l with
  | None => Ok ([], 0, false)
  | Some g => draft_page ← group_page g; Ok (layer_names g, draft_page, draft_page =? mla_page (lbase l))
  end.

Definition mla_tensor (l : layout) (draft_names : list string) (draft_shared : bool) (num_blocks : Z)
    (i : nat) (mla_name : string) : tensor :=
  Tensor (mla_size (mla_page (lbase l)) num_blocks)
    ([mla_name]
     ++ omap (fun g => layer_names g !! i) (mamba_groups l)
     ++ (if draft_shared then option_list (draft_names !! i) else []))%list.

Definition idx_tensor (b : base) (num_blocks : Z) (i : nat) : res tensor :=
  idx_name ← index (idx_names b) i;
  sharers ← (match tail_names b with [] => Ok [idx_name]
             | _ => tail_name ← index (tail_names b) i; Ok [idx_name; tail_name] end);
  Ok (Tensor (idx_page b * num_blocks) sharers).

Definition get_kv_cache_config_from_groups (l : layout) (available_memory : Z) : res (Z * list tensor) :=
  let b := lbase l in
  mode ← draft_mode l;
  let '(draft_names, draft_page, draft_shared) := mode in
  let per_block := base_bytes b in
  let per_block := if negb (match draft_names with [] => true | _ => false end) && negb draft_shared
                   then per_block + Z.of_nat (length draft_names) * draft_page else per_block in
  num_blocks ← py_div available_memory per_block;
  idx ← mapM (idx_tensor b num_blocks) (seq 0 (length (idx_names b)));
  Ok (num_blocks,
      imap (mla_tensor l draft_names draft_shared num_blocks) (mla_names b)
      ++ idx
      ++ map (fun name => Tensor (draft_page * num_blocks) [name]) (if draft_shared then [] else draft_names))%list.

(** [needed] is the demand of the attention and Mamba groups;
    [max_memory_usage_pages] is the drafter spec's. *)
Definition _max_memory_usage_bytes_from_groups (max_memory_usage_pages : group -> Z) (l : layout) (needed : Z) : res Z :=
  let b := lbase l in
  let blocks_needed := match tail_names b with [] => needed | _ => needed + 1 end in
  let per_block := base_bytes b in
  match draft_group l with
  | None => Ok (blocks_needed * per_block)
  | Some g =>
      draft_page ← group_page g;
      Ok ((blocks_needed + max_memory_usage_pages g)
          * (if draft_page =? mla_page b then per_block
             else per_block + Z.of_nat (length (layer_names g)) * draft_page))
  end.
End Layout.

(** ** Round robin *)

Lemma concat_alter {A} (x : A) (gs : list (list A)) i : (i < length gs)%nat ->
  concat (alter (fun g => g ++ [x])%list i gs) ≡ₚ (concat gs ++ [x])%list.
Proof.
  revert i. induction gs as [|g gs IH]; intros i Hi; simpl in *; [lia |].
  destruct i as [|i]; simpl.
  - rewrite <- !app_assoc. apply Permutation_app_head, Permutation_app_comm.
  - rewrite <- app_assoc. apply Permutation_app_head, IH. lia.
Qed.

Definition dealt (n : nat) (gs : list (list string)) (k : nat) : Prop :=
  length gs = n /\ forall i g, gs !! i = Some g -> length g = ((k + (n - 1 - i)) / n)%nat.

Lemma dealt_step n gs k x : (0 < n)%nat -> dealt n gs k -> dealt n (put_round_robin n gs (k, x)) (S k).
Proof.
  intros Hn [Hl Hg]. split; [by unfold put_round_robin; rewrite length_alter |].
  intros i g. unfold put_round_robin. cbn [fst snd]. intros E.
  destruct (decide (i = k mod n)%nat) as [-> | Hi].
  - rewrite list_lookup_alter, decide_True in E by done. destruct (gs !! (k mod n)%nat) as [g0|] eqn:E0; [| done]. injection E as <-.
    rewrite length_app, (Hg _ _ E0). cbn [length snd]. pose proof (Nat.mod_upper_bound k n ltac:(lia)).
    pose proof (Nat.div_mod_eq k n) as Hk. set (q := (k / n)%nat) in *. set (r := (k mod n)%nat) in *. clearbody q r.
    replace (S k + (n - 1 - r))%nat with (0 + (q + 1) * n)%nat by lia.
    replace (k + (n - 1 - r))%nat with (n - 1 + q * n)%nat by lia.
    rewrite !Nat.div_add, !Nat.div_small by lia. lia.
  - rewrite list_lookup_alter_ne in E by congruence. rewrite (Hg _ _ E).
    assert (i < n)%nat by (rewrite <- Hl; by eapply lookup_lt_Some).
    pose proof (Nat.mod_upper_bound k n ltac:(lia)). pose proof (Nat.div_mod_eq k n) as Hk.
    set (q := (k / n)%nat) in *. set (r := (k mod n)%nat) in *. clearbody q r.
    destruct (decide (i < r)%nat).
    + replace (k + (n - 1 - i))%nat with (r - 1 - i + (q + 1) * n)%nat by lia.
      replace (S k + (n - 1 - i))%nat with (r - i + (q + 1) * n)%nat by lia.
      rewrite !Nat.div_add, !Nat.div_small by lia. lia.
    + replace (k + (n - 1 - i))%nat with (n - 1 + r - i + q * n)%nat by lia.
      replace (S k + (n - 1 - i))%nat with (n + r - i + q * n)%nat by lia.
      rewrite !Nat.div_add, !Nat.div_small by lia. lia.
Qed.

Lemma deal_fold n names : (0 < n)%nat -> forall k gs, dealt n gs k ->
  let out := fold_left (put_round_robin n) (zip (seq k (length names)) names) gs in
  dealt n out (k + length names) /\ concat out ≡ₚ (concat gs ++ names)%list.
Proof.
  intros Hn. induction names as [|x names IH]; intros k gs Hd; simpl.
  - rewrite Nat.add_0_r, app_nil_r. done.
  - destruct (IH (S k) (put_round_robin n gs (k, x)) (dealt_step n gs k x Hn Hd)) as [Hd' Hp].
    split; [by rewrite Nat.add_succ_r, <- Nat.add_succ_l |]. rewrite Hp. unfold put_round_robin. simpl.
    rewrite concat_alter by (destruct Hd as [-> _]; apply Nat.mod_upper_bound; lia). by rewrite <- app_assoc.
Qed.

(** Dealing loses and repeats no name and fills no group beyond its share. *)
Lemma round_robin_deals n names : (0 < n)%nat ->
  concat (round_robin n names) ≡ₚ names /\
  Forall (fun g => (length g <= (length names + n - 1) / n)%nat) (round_robin n names).
Proof.
  intros Hn. destruct (deal_fold n names Hn 0 (repeat [] n)) as [[Hl Hg] Hp].
  { split; [apply repeat_length |]. intros i g E. apply list_elem_of_lookup_2, list_elem_of_In, repeat_spec in E as ->.
    simpl. rewrite Nat.div_small by lia. done. }
  split.
  - unfold round_robin. rewrite Hp. clear. induction n; simpl; done.
  - apply Forall_lookup. intros i g E. unfold round_robin in E. rewrite (Hg _ _ E). simpl.
    apply Nat.Div0.div_le_mono. lia.
Qed.

(** ** Tensors *)

Lemma sharers_perm {A} (l : list A) (gs : list (list A)) : Forall (fun g => (length g <= length l)%nat) gs ->
  concat (imap (fun i x => x :: omap (fun g => g !! i) gs) l) ≡ₚ (l ++ concat gs)%list.
Proof.
  assert (Hone : forall (l : list A) (gs : list (list A)) k,
    Forall (fun g => (length g <= length l + k)%nat) gs ->
    concat (imap (fun i x => x :: omap (fun g => g !! (k + i)%nat) gs) l) ≡ₚ (l ++ concat (map (drop k) gs))%list).
  { clear. induction l as [|x l IH]; intros gs k Hg; simpl.
    - induction Hg as [|g gs Hgl _ IHg]; simpl; [done |]. simpl in Hgl. rewrite drop_ge by lia. done.
    - rewrite Nat.add_0_r. constructor.
      erewrite imap_ext; [rewrite (IH gs (S k)) | intros i y _; simpl; f_equal; apply list_omap_ext, Forall_Forall2_diag, Forall_true; intros ?; f_equal; lia].
      2: { eapply Forall_impl; [exact Hg |]. simpl. intros; lia. }
      rewrite (Permutation_app_comm l), (Permutation_app_comm l), app_assoc. apply Permutation_app_tail.
      clear. induction gs as [|g gs IH]; simpl; [done |].
      destruct (g !! k) as [y|] eqn:E.
      + rewrite (drop_S g y k E). simpl. constructor. rewrite <- IH.
        rewrite !app_assoc. apply Permutation_app_tail, Permutation_app_comm.
      + apply lookup_ge_None in E. rewrite !drop_ge by lia. done. }
  intros Hg. assert (map (drop 0) gs = gs) as E by (clear; induction gs; simpl; by f_equal).
  pose proof (Hone l gs 0%nat) as Hp. rewrite E in Hp. apply Hp. eapply Forall_impl; [exact Hg |]. simpl. intros; lia.
Qed.

Lemma Zsum_const {A} (l : list A) (f : A -> Z) c : (forall x, x ∈ l -> f x = c) ->
  Zsum (map f l) = Z.of_nat (length l) * c.
Proof.
  unfold Zsum. induction l as [|x l IH]; intros Hf; simpl in *; [lia |].
  rewrite IH, Hf by (try left; intros; apply Hf; by right). lia.
Qed.

Lemma map_imap {A B C} (f : B -> C) (g : nat -> A -> B) l : map f (imap g l) = imap (fun i x => f (g i x)) l.
Proof. revert g. induction l as [|x l IH]; intros g; simpl; [done |]. by rewrite IH. Qed.

Lemma imap_const {A B} (f : A -> B) l : imap (fun _ x => f x) l = map f l.
Proof. induction l as [|x l IH]; simpl; [done |]. f_equal. exact IH. Qed.

Section Consumers.
Context `{Pages} (read_base : option group -> option group -> option base) (mla_size : Z -> Z -> Z).

Definition draft_layers (l : layout) : list string :=
  match draft_group l with Some g => layer_names g | None => [] end.
(** The names of a base and its Mamba groups line up with its tensors. *)
Definition lines_up (l : layout) : Prop :=
  (tail_names (lbase l) = [] \/ length (tail_names (lbase l)) = length (idx_names (lbase l))) /\
  Forall (fun g => (length (layer_names g) <= length (mla_names (lbase l)))%nat) (mamba_groups l).

Lemma idx_tensors b num_blocks :
  tail_names b = [] \/ length (tail_names b) = length (idx_names b) ->
  exists ts, mapM (idx_tensor b num_blocks) (seq 0 (length (idx_names b))) = Ok ts /\
    Zsum (map size ts) = Z.of_nat (length (idx_names b)) * (idx_page b * num_blocks) /\
    concat (map shared_by ts) ≡ₚ (idx_names b ++ tail_names b)%list.
Proof.
  intros Ht.
  exists (imap (fun i x => Tensor (idx_page b * num_blocks) (x :: omap (fun g => g !! i) [tail_names b])) (idx_names b)).
  split; [| split].
  - apply mapM_Ok, Forall2_same_length_lookup. split; [by rewrite length_seq, length_imap |].
    intros k i t [-> Hk]%lookup_seq Et. rewrite Nat.add_0_l. rewrite list_lookup_imap in Et. simpl in Et.
    destruct (idx_names b !! k) as [x|] eqn:Ex; [| done]. injection Et as <-.
    unfold idx_tensor, index. rewrite Ex. simpl.
    destruct (tail_names b) as [|t ts] eqn:E; [done |]. destruct Ht as [| Ht]; [done |].
    destruct (lookup_lt_is_Some_2 (t :: ts) k) as [y Ey]; [lia |]. rewrite Ey. done.
  - rewrite map_imap. simpl. rewrite imap_const. by apply Zsum_const.
  - rewrite map_imap. pose proof (sharers_perm (idx_names b) [tail_names b]) as Hp. simpl in Hp.
    rewrite app_nil_r in Hp. apply Hp. repeat constructor. destruct Ht as [-> | ->]; simpl; lia.
Qed.

(** What a detected drafter group is: uniform, not empty, its one page known,
    and not more layers than tensors when it shares them. *)
Definition draft_ok (l : layout) (draft_page : Z) : Prop :=
  match draft_group l with
  | None => draft_page = mla_page (lbase l)
  | Some g => group_page g = Ok draft_page /\
      (draft_page = mla_page (lbase l) -> (length (layer_names g) <= length (mla_names (lbase l)))%nat)
  end.
Definition block_bytes (l : layout) (draft_page : Z) : Z :=
  base_bytes (lbase l)
  + if draft_page =? mla_page (lbase l) then 0 else Z.of_nat (length (draft_layers l)) * draft_page.

Lemma pool_bytes l page : draft_ok l page -> _pool_bytes_per_block l = Ok (block_bytes l page).
Proof.
  unfold draft_ok, _pool_bytes_per_block, block_bytes, draft_layers. destruct (draft_group l) as [g|].
  - intros [-> _]. simpl. destruct (_ =? _); f_equal; lia.
  - intros ->. rewrite Z.eqb_refl. f_equal. lia.
Qed.

Lemma max_memory pages l needed page : draft_ok l page ->
  _max_memory_usage_bytes_from_groups pages l needed =
  Ok ((needed + (if bool_decide (tail_names (lbase l) = []) then 0 else 1)
       + (match draft_group l with Some g => pages g | None => 0 end)) * block_bytes l page).
Proof.
  unfold draft_ok, _max_memory_usage_bytes_from_groups, block_bytes, draft_layers.
  assert (match tail_names (lbase l) with [] => needed | _ => needed + 1 end
          = needed + if bool_decide (tail_names (lbase l) = []) then 0 else 1) as ->.
  { destruct (tail_names (lbase l)); simpl; lia. }
  destruct (draft_group l) as [g|].
  - intros [-> _]. simpl. f_equal. destruct (_ =? _); lia.
  - intros ->. rewrite Z.eqb_refl. f_equal. lia.
Qed.

Lemma config_places l page available :
  (forall p n, mla_size p n = p * n) -> lines_up l -> draft_ok l page -> 0 < block_bytes l page ->
  exists tensors,
    get_kv_cache_config_from_groups mla_size l available = Ok (available / block_bytes l page, tensors) /\
    Zsum (map size tensors) = block_bytes l page * (available / block_bytes l page) /\
    concat (map shared_by tensors)
      ≡ₚ (mla_names (lbase l) ++ idx_names (lbase l) ++ tail_names (lbase l)
          ++ concat (map layer_names (mamba_groups l)) ++ draft_layers l)%list.
Proof.
  intros Hsize [Ht Hm] Hd Hpos. set (B := block_bytes l page) in *. set (n := available / B) in *.
  assert (draft_mode l = Ok (draft_layers l, match draft_group l with Some _ => page | None => 0 end,
                             match draft_group l with Some _ => page =? mla_page (lbase l) | None => false end)) as Hmode.
  { unfold draft_mode, draft_layers, draft_ok in *. destruct (draft_group l); [| done]. by destruct Hd as [-> _]. }
  destruct (idx_tensors (lbase l) n Ht) as (its & Hits & Hisum & Hiperm).
  unfold get_kv_cache_config_from_groups. rewrite Hmode. cbn [mbind res_bind].
  set (shared := match draft_group l with Some _ => page =? mla_page (lbase l) | None => false end).
  set (dpage := match draft_group l with Some _ => page | None => 0 end).
  replace (if negb _ && negb shared then _ else _) with B.
  2: { subst B shared dpage. unfold block_bytes, draft_layers, draft_ok in *. destruct (draft_group l) as [g|].
       - destruct (page =? _); rewrite ?andb_false_r; simpl; [lia |]. destruct (layer_names g); simpl; lia.
       - subst page. rewrite Z.eqb_refl. simpl. lia. }
  unfold py_div. rewrite (proj2 (Z.eqb_neq B 0)) by lia. cbn [mbind res_bind]. fold n. rewrite Hits. cbn [mbind res_bind].
  eexists. split; [reflexivity |]. rewrite !map_app, !Zsum_app, !concat_app, Hisum, Hiperm. split.
  - rewrite map_imap. simpl. rewrite imap_const, (Zsum_const _ (fun _ => mla_size (mla_page (lbase l)) n) (mla_page (lbase l) * n)) by (intros; apply Hsize).
    rewrite map_map. simpl. erewrite Zsum_const by done.
    subst B shared dpage. unfold block_bytes, base_bytes, draft_layers, draft_ok in *.
    destruct (draft_group l) as [g|]; [destruct (page =? _); simpl; lia | subst page; rewrite Z.eqb_refl; simpl; lia].
  - rewrite map_imap. simpl.
    set (gs := (map layer_names (mamba_groups l) ++ (if shared then [draft_layers l] else []))%list).
    assert (concat (imap (fun i x => x :: omap (fun g => layer_names g !! i) (mamba_groups l)
        ++ (if shared then option_list (draft_layers l !! i) else []))%list (mla_names (lbase l)))
      = concat (imap (fun i x => x :: omap (fun g => g !! i) gs) (mla_names (lbase l)))) as Eg.
    { f_equal. apply imap_ext. intros i x _. f_equal. unfold gs. rewrite omap_app. f_equal.
      - clear. induction (mamba_groups l) as [|g ms IH]; simpl; [done |]. destruct (layer_names g !! i); [f_equal |]; exact IH.
      - destruct shared; [| done]. simpl. by destruct (draft_layers l !! i). }
    rewrite Eg, sharers_perm.
    2: { unfold gs. apply Forall_app. split; [by apply Forall_fmap |]. subst shared.
         unfold draft_ok, draft_layers in *. destruct (draft_group l); [| constructor].
         destruct (Z.eqb_spec page (mla_page (lbase l))); repeat constructor. by apply Hd. }
    unfold gs. rewrite concat_app, <- !app_assoc. apply Permutation_app_head.
    set (rest := concat (map shared_by _)).
    assert (concat (if shared then [draft_layers l] else []) ++ rest ≡ₚ draft_layers l)%list as Hdr.
    { subst rest. rewrite map_map. simpl. destruct shared; simpl; [by rewrite !app_nil_r |].
      apply reflexive_eq. generalize (draft_layers l). clear. intros d. induction d as [|x d IH]; simpl in *; [done | by rewrite IH]. }
    transitivity (idx_names (lbase l) ++ tail_names (lbase l) ++ concat (map layer_names (mamba_groups l))
                  ++ concat (if shared then [draft_layers l] else []) ++ rest)%list; [| by rewrite Hdr].
    clearbody rest. solve_Permutation.
Qed.

Lemma inner_uniform g : inner g <> [] -> kv_cache_spec g = Uniform (inner g).
Proof. unfold inner. by destruct (kv_cache_spec g). Qed.

Lemma detected_draft gs g : d_draft (detect gs) = Some g ->
  inner g <> [] /\ all_specs (fun s => type_is s "SlidingWindowSpec") g = true.
Proof.
  unfold detect. assert (d_draft (Detected None None None) = Some g ->
    inner g <> [] /\ all_specs (fun s => type_is s "SlidingWindowSpec") g = true) as H0 by done.
  revert H0. generalize (Detected None None None) as d. induction gs as [|g' gs IH]; intros d Hd; simpl; [done |].
  apply IH. unfold detect_group. destruct (all_specs _ g'); [exact Hd |]. destruct (all_specs _ g'); [exact Hd |].
  destruct (_ && _) eqn:Hc; [| exact Hd]. cbn [d_draft]. intros [= <-]. apply andb_true_iff in Hc as [Hn Ha]. split; [by destruct (inner g') | done].
Qed.

Lemma one_page (l : specs) p : remove_dups (map (fun e => page_size_bytes (snd e)) l) = [p] ->
  Forall (fun e => page_size_bytes (snd e) = p) l.
Proof.
  intros E. apply Forall_forall. intros e He.
  assert (page_size_bytes (snd e) ∈ remove_dups (map (fun e => page_size_bytes (snd e)) l)) as Hin.
  { apply elem_of_remove_dups. apply (list_elem_of_fmap_2 (fun e => page_size_bytes (snd e))), He. }
  rewrite E in Hin. by apply list_elem_of_singleton in Hin.
Qed.

Lemma valid_draft_ok b mambas g : inner g <> [] -> draft_valid (mla_page b) (length (mla_names b)) g = true ->
  exists page, draft_ok (Layout b mambas (Some g)) page /\ Forall (fun e => page_size_bytes (snd e) = page) (inner g).
Proof.
  intros Hn Hv. unfold draft_valid in Hv.
  destruct (remove_dups _) as [|p [|]] eqn:E; try done. pose proof (one_page _ _ E) as Hp.
  exists p. split; [| done]. destruct (existsb _ _ && existsb _ _); [done |]. apply negb_true_iff, andb_false_iff in Hv.
  unfold draft_ok, group_page. simpl. rewrite (inner_uniform g Hn).
  destruct (inner g) as [|[nm s] es]; [done |]. apply Forall_cons in Hp as [Hs _]. simpl in Hs. split; [by rewrite Hs |].
  intros ->. destruct Hv as [Hv | Hv]; [by rewrite Z.eqb_refl in Hv | by apply Nat.ltb_ge in Hv].
Qed.

Lemma layout_draft_ok uniform_groups mambas l : _glm5_next_tensor_layout read_base uniform_groups mambas = Some l ->
  exists page, draft_ok l page.
Proof.
  unfold _glm5_next_tensor_layout. destruct (read_base _ _) as [b|]; [| done]. simpl. destruct (negb _); [done |]. destruct (negb _) eqn:Hc0; [done |].
  intros [= <-]. destruct (d_draft (detect uniform_groups)) as [g|] eqn:E; [| by exists (mla_page b)].
  apply negb_false_iff in Hc0. destruct (detected_draft _ _ E) as [Hn _].
  destruct (valid_draft_ok b mambas g Hn Hc0) as (page & Hok & _). by exists page.
Qed.

End Consumers.

(** C16. One layout, three consumers: pool accounting, tensor allocation and
    memory estimate charge the same bytes per block, the allocation fits the
    memory and wastes less than one block, and every layer - attention, index,
    tail, Mamba, drafter, sharing or standalone - is in exactly one tensor. *)
Theorem consumers_agree `{Pages} read_base mla_size uniform_groups mambas l available pages needed :
  (forall p n, mla_size p n = p * n) ->
  _glm5_next_tensor_layout read_base uniform_groups mambas = Some l -> lines_up l ->
  0 < base_bytes (lbase l) ->
  (forall g e, draft_group l = Some g -> e ∈ inner g -> 0 <= page_size_bytes (snd e)) ->
  exists per_block tensors,
    _pool_bytes_per_block l = Ok per_block /\
    get_kv_cache_config_from_groups mla_size l available = Ok (available / per_block, tensors) /\
    _max_memory_usage_bytes_from_groups pages l needed =
      Ok ((needed + (if bool_decide (tail_names (lbase l) = []) then 0 else 1)
           + (match draft_group l with Some g => pages g | None => 0 end)) * per_block) /\
    Zsum (map size tensors) <= available < Zsum (map size tensors) + per_block /\
    concat (map shared_by tensors)
      ≡ₚ (mla_names (lbase l) ++ idx_names (lbase l) ++ tail_names (lbase l)
          ++ concat (map layer_names (mamba_groups l)) ++ draft_layers l)%list.
Proof.
  intros Hsize Hl Hup Hbase Hpages. destruct (layout_draft_ok _ _ _ _ Hl) as [page Hok].
  assert (0 < block_bytes l page) as Hpos.
  { unfold block_bytes, draft_ok, draft_layers, group_page in *. destruct (draft_group l) as [g|]; simpl; [| subst page; rewrite Z.eqb_refl; lia].
    destruct Hok as [Hp _]. specialize (Hpages g). unfold inner in Hpages.
    destruct (kv_cache_spec g) as [[|[nm s] es]|]; try done. injection Hp as <-.
    specialize (Hpages (nm, s) eq_refl ltac:(by left)). simpl in Hpages. destruct (_ =? _); [lia | nia]. }
  destruct (config_places mla_size l page available Hsize Hup Hok Hpos) as (tensors & Hc & Hsum & Hperm).
  exists (block_bytes l page), tensors. rewrite Hsum. split; [by apply pool_bytes |]. split; [done |].
  split; [by apply max_memory |]. split; [| done]. pose proof (Z.div_mod available (block_bytes l page) ltac:(lia)).
  pose proof (Z.mod_pos_bound available (block_bytes l page) Hpos). lia.
Qed.

(** ** From the specs to the layout *)

Definition is_uniform (g : group) : bool := match kv_cache_spec g with Uniform _ => true | Single _ => false end.
Definition uniform_part (gs : list group) : list group := List.filter is_uniform gs.
Definition mamba_part (gs : list group) : list group := List.filter (fun g => negb (is_uniform g)) gs.

(** How a drafter spec of the built group sits in an MLA page: it fills it with
    whole 64-token blocks, or it is one padded 64-token block. *)
Definition seated `{Pages} (page : Z) (s : spec) : Prop :=
  page_size_bytes s = page /\
  (page_size_padded s = None /\ (64 | block_size s) /\ block_size s * bytes_per_token s = page
   \/ block_size s = 64 /\ page_size_padded s = Some page).

Section Built.
Context `{Pages} (uniform_type : specs -> bool).

(** A drafter: equal, unpadded sliding-window specs. *)
Definition drafter (drafts : specs) (any_draft : spec) : Prop :=
  drafts <> [] /\ Forall (fun e => snd e = any_draft) drafts /\ type_is any_draft "SlidingWindowSpec" = true /\
  isinstance any_draft ["KpoolTailSpec"] = false /\ page_size_padded any_draft = None /\
  0 < block_size any_draft /\ 0 < bytes_per_token any_draft.

(** What the partition selects as the drafter are sliding-window specs. *)
Lemma partition_draft kv mamba_specs drafts attn_specs any_draft : partition kv mamba_specs = Some (drafts, attn_specs) ->
  drafts <> [] -> Forall (fun e => snd e = any_draft) drafts -> type_is any_draft "SlidingWindowSpec" = true.
Proof.
  unfold partition. destruct (_ || _); [done |]. intros [= Hd _] Hn Hf. destruct drafts as [|e es]; [done |].
  apply Forall_cons in Hf as [<- _]. assert (In e (e :: es)) as Hin by (by left). rewrite <- Hd in Hin.
  by apply List.filter_In in Hin as [_ Hin].
Qed.

Lemma new_specs drafts any_draft mla_page mla_block tensors : drafter drafts any_draft -> 0 < mla_page -> 0 < mla_block ->
  exists f, new_draft_specs drafts mla_page mla_block tensors = Ok (map (fun e => (fst e, f (snd e))) drafts) /\
    (forall s, mro (f s) = mro s) /\ (forall e, e ∈ drafts -> seated mla_page (f (snd e))) /\
    ((forall s, page_size_padded (f s) = page_size_padded s)
     \/ (forall s, block_size (f s) = 64 /\ page_size_padded (f s) = Some mla_page)).
Proof.
  intros (Hn & Hall & Ht & _ & Hp & Hb & Hbpt) Hpage Hblock. unfold new_draft_specs.
  destruct drafts as [|[nm s0] es]; [done |]. assert (s0 = any_draft) as -> by by apply Forall_cons in Hall as [].
  replace (forallb _ _) with true.
  2: { symmetry. apply forallb_forall. intros e He%list_elem_of_In. rewrite Forall_forall in Hall.
       rewrite (Hall e He). by apply bool_decide_eq_true. }
  cbn [mbind res_bind]. unfold py_div at 1. rewrite (proj2 (Z.eqb_neq _ _)) by lia.
  rewrite (page_unpadded any_draft Ht Hp), (Z.mul_comm (block_size any_draft)), Z.div_mul by lia. cbn [mbind res_bind].
  set (bpt := bytes_per_token any_draft) in *. unfold fit_block, py_mod, py_div.
  rewrite (proj2 (Z.eqb_neq bpt 0)) by lia. cbn [mbind res_bind].
  set (fit := if mla_page mod bpt =? 0 then _ else _).
  assert (exists exact, exact_fit (match fit with Ok v => v | Raise _ => 0 end) mla_block (length ((nm, any_draft) :: es)) tensors = Ok exact
    /\ (exact = true -> mla_page mod bpt = 0 /\ (64 | mla_page / bpt))) as (exact & Hexact & Hdiv).
  { unfold exact_fit, py_mod. rewrite (proj2 (Z.eqb_neq mla_block 0)) by lia. cbn [mbind res_bind].
    subst fit. destruct (Z.eqb_spec (mla_page mod bpt) 0) as [Hm |]; [| by exists false].
    destruct (_ =? 0); [by exists false |]. simpl.
    destruct (Z.eqb_spec ((mla_page / bpt) mod 64) 0) as [Hd |]; simpl; [| by exists false].
    eexists. split; [reflexivity |]. intros _. split; [done | by apply Z.mod_divide]. }
  exists (if exact then with_block (match fit with Ok v => v | Raise _ => 0 end) else fun s => with_padding mla_page (with_block 64 s)).
  split; [| split; [by destruct exact |]; split; [| by destruct exact; [left | right]]].
  - replace fit with (Ok (match fit with Ok v => v | Raise _ => 0 end)) at 1 by (subst fit; by destruct (_ =? 0)).
    cbn [mbind res_bind]. rewrite Hexact. cbn [mbind res_bind]. by destruct exact.
  - intros e He. rewrite Forall_forall in Hall. rewrite (Hall e He). destruct exact.
    + destruct (Hdiv eq_refl) as [Hm H64]. subst fit. rewrite Hm. simpl.
      assert (mla_page / bpt * bpt = mla_page) as E by (pose proof (Z.div_mod mla_page bpt); lia).
      split; [| left; simpl; by rewrite token_bytes_rescaled].
      rewrite page_unpadded by done. simpl. by rewrite token_bytes_rescaled.
    + split; [by apply page_padded | by right].
Qed.

Lemma remove_dups_const (x : Z) l : l <> [] -> Forall (fun y => y = x) l -> remove_dups l = [x].
Proof.
  intros Hn Hf. induction Hf as [|y l -> Hf IH]; [done |]. simpl. destruct l as [|z l]; [done |].
  case_decide as Hd; [by apply IH |]. apply Forall_cons in Hf as [-> _]. destruct Hd. by left.
Qed.

Lemma existsb_map_false {A B} (p : B -> bool) (f : A -> B) l : (forall x, x ∈ l -> p (f x) = false) ->
  existsb p (map f l) = false.
Proof.
  intros Hf. induction l as [|x l IH]; simpl; [done |]. rewrite Hf by (by left). apply IH. intros y Hy. apply Hf. by right.
Qed.

(** The built drafter group passes the layout's checks exactly when there is an
    MLA tensor for each of its layers. *)
Lemma built_valid drafts any_draft f page tensors : drafter drafts any_draft ->
  (forall e, e ∈ drafts -> seated page (f (snd e))) ->
  ((forall s, page_size_padded (f s) = page_size_padded s)
   \/ (forall s, block_size (f s) = 64 /\ page_size_padded (f s) = Some page)) ->
  let new := map (fun e => (fst e, f (snd e))) drafts in
  draft_valid page tensors (Group (map fst new) (Uniform new)) = (length drafts <=? tensors)%nat.
Proof.
  intros (Hn & Hall & _ & _ & Hp & _) Hseat Hpad new. unfold draft_valid, inner. cbn [kv_cache_spec layer_names].
  rewrite (remove_dups_const page).
  2: { subst new. by destruct drafts. }
  2: { subst new. rewrite map_map. apply Forall_fmap, Forall_forall. intros e He. by apply Hseat. }
  replace (existsb _ _ && existsb _ _) with false.
  - rewrite Z.eqb_refl. subst new. rewrite !length_map. simpl. rewrite Nat.ltb_antisym, negb_involutive. done.
  - symmetry. apply andb_false_iff. subst new. destruct Hpad as [Hpad | Hpad].
    + left. apply existsb_map_false. intros e He. simpl. rewrite Hpad, (proj1 (Forall_forall _ _) Hall e He), Hp. done.
    + right. apply existsb_map_false. intros e He. simpl. destruct (Hpad (snd e)) as [-> ->]. simpl.
      by rewrite bool_decide_true.
Qed.

Lemma built_group drafts any_draft mla_page mla_block tensors : drafter drafts any_draft -> 0 < mla_page -> 0 < mla_block ->
  (forall l, uniform_type l = true) ->
  exists new, build_draft uniform_type drafts mla_page mla_block tensors = Ok (Some (Group (map fst drafts) (Uniform new))) /\
    new <> [] /\ Forall (fun e => seated mla_page (snd e) /\ mro (snd e) = mro any_draft) new /\
    forall tensors', draft_valid mla_page tensors' (Group (map fst drafts) (Uniform new)) = (length drafts <=? tensors')%nat.
Proof.
  intros Hd Hpage Hblock Hu. destruct (new_specs drafts any_draft mla_page mla_block tensors Hd Hpage Hblock)
    as (f & Hnew & Hmro & Hseat & Hpad).
  exists (map (fun e => (fst e, f (snd e))) drafts). split; [| split; [| split]].
  - unfold build_draft. destruct Hd as [Hn _]. destruct drafts as [|d ds]; [done |]. rewrite Hnew. cbn [mbind res_bind].
    unfold from_specs. rewrite Hu, map_map. done.
  - destruct Hd as [Hn _]. by destruct drafts.
  - apply Forall_fmap, Forall_forall. intros e He. simpl. split; [by apply Hseat |].
    rewrite Hmro. destruct Hd as (_ & Hall & _). by rewrite (proj1 (Forall_forall _ _) Hall e He).
  - intros tensors'. rewrite <- (built_valid drafts any_draft f mla_page tensors' Hd Hseat Hpad). by rewrite map_map.
Qed.

Lemma all_specs_mro p q g m : inner g <> [] -> Forall (fun e => mro (snd e) = m) (inner g) ->
  (forall s, mro s = m -> p s = q) -> all_specs p g = q.
Proof.
  intros Hn Hf Hp. unfold all_specs. destruct q.
  - apply forallb_forall. intros e He%list_elem_of_In. apply Hp. by rewrite Forall_forall in Hf; apply Hf.
  - destruct (inner g) as [|e es]; [done |]. simpl. apply Forall_cons in Hf as [He _]. by rewrite (Hp _ He).
Qed.

(** An attention group and, if any, a tail group, as vLLM's text builds them. *)
Definition mla_group (g : group) : Prop := is_uniform g = true /\ all_specs (fun s => type_is s "MLAAttentionSpec") g = true.
Definition kpool_group (g : group) : Prop :=
  is_uniform g = true /\ all_specs (fun s => type_is s "MLAAttentionSpec") g = false /\
  all_specs (fun s => isinstance s ["KpoolTailSpec"]) g = true.

Lemma detect_built attn tail draft any_draft : mla_group attn -> (forall g, tail = Some g -> kpool_group g) ->
  inner draft <> [] -> Forall (fun e => mro (snd e) = mro any_draft) (inner draft) ->
  type_is any_draft "SlidingWindowSpec" = true -> isinstance any_draft ["KpoolTailSpec"] = false ->
  detect ([attn] ++ option_list tail ++ [draft]) = Detected (Some attn) tail (Some draft).
Proof.
  intros [_ Ha] Htail Hn Hm Ht Hk.
  assert (forall s, mro s = mro any_draft -> type_is s "MLAAttentionSpec" = false) as H1.
  { intros s E. unfold type_is in *. rewrite E. destruct (mro any_draft) as [|c cs]; [done |].
    apply String.eqb_eq in Ht as ->. done. }
  assert (forall d, detect_group d draft = Detected (d_attn d) (d_tail d) (Some draft)) as Hdraft.
  { intros d. unfold detect_group. rewrite (all_specs_mro _ _ _ _ Hn Hm H1).
    rewrite (all_specs_mro _ false _ _ Hn Hm) by (intros s E; etransitivity; [| exact Hk]; unfold isinstance; by rewrite E).
    rewrite (all_specs_mro _ true _ _ Hn Hm) by (intros s E; etransitivity; [| exact Ht]; unfold type_is; by rewrite E).
    destruct (inner draft); [done |]. done. }
  assert (detect_group (Detected None None None) attn = Detected (Some attn) None None) as Hattn.
  { unfold detect_group. by rewrite Ha. }
  unfold detect. destruct tail as [g|]; cbn [app option_list fold_left];
    [change (option_list (Some g) ++ [draft])%list with [g; draft] | change (option_list None ++ [draft])%list with [draft]];
    cbn [fold_left]; rewrite Hattn, Hdraft; [| done].
  destruct (Htail g eq_refl) as (_ & Hg1 & Hg2). unfold detect_group. by rewrite Hg1, Hg2.
Qed.
End Built.

Lemma uniform_split mambas : Forall (fun g => is_uniform g = false) mambas ->
  uniform_part mambas = [] /\ mamba_part mambas = mambas.
Proof. induction 1 as [|g gs Hg _ [IH1 IH2]]; simpl; [done |]. rewrite Hg. simpl. rewrite IH1, IH2. done. Qed.


(** ** The deployed geometry *)

#[local] Instance demo_pages : Pages := {|
  page_size_bytes s := default (block_size s * rest s) (page_size_padded s);
  bytes_per_token := rest;
  page_padded s p E := eq_trans (f_equal (default _) E) eq_refl;
  page_unpadded s _ E := eq_trans (f_equal (default _) E) eq_refl;
  token_bytes_rescaled s b := eq_refl
|}.

Definition mla_spec : spec := Spec ["MLAAttentionSpec"; "FullAttentionSpec"] 3584 None 656.
Definition mamba_spec : spec := Spec ["MambaSpec"] 3584 (Some 2351104) 0.
Definition swa_spec : spec := Spec ["SlidingWindowSpec"; "AttentionSpec"] 3584 None 2048.
Definition demo_mamba : specs := [("kda.0", mamba_spec); ("kda.1", mamba_spec); ("kda.2", mamba_spec)].
Definition demo_drafts (n : nat) : specs := map (fun i => ("draft." +:+ String (Ascii.ascii_of_nat (48 + i)) "", swa_spec)) (seq 0 n).
Definition demo_attn : specs := [("mla.0", mla_spec); ("mla.1", mla_spec); ("idx.0", mla_spec)].
Definition demo_base : base := Base ["mla.0"; "mla.1"] ["idx.0"] 2351104 118272 [].
Definition demo_read (a t : option group) : option base := if a then Some demo_base else None.
Definition demo_create (names : list (list string)) : list group := map (fun ns => Group ns (Single mamba_spec)) names.

(** The boot line of the served geometry: 5.23% of a page is padding. *)
Example served_waste : padding_waste 2351104 2048 = Waste 131072 1148 1088 122880 2359296.
Proof. reflexivity. Qed.

Lemma demo_facts n : (0 < n <= 9)%nat ->
  partition (demo_attn ++ demo_mamba ++ demo_drafts n) demo_mamba = Some (demo_drafts n, demo_attn) /\ demo_drafts n <> []
  /\ Forall (fun e => snd e = swa_spec) (demo_drafts n).
Proof.
  intros Hn. do 10 (destruct n as [|n]; [first [lia | split; [vm_compute; reflexivity |]; split; [done |]; repeat constructor] |]). lia.
Qed.


Example three_decline :
  _glm5_next_tensor_layout demo_read
    [Group (map fst demo_attn) (Uniform demo_attn);
     Group (map fst (demo_drafts 3)) (Uniform (map (fun e => (fst e, with_padding 2351104 (with_block 64 (snd e)))) (demo_drafts 3)))]
    [] = None.
Proof. reflexivity. Qed.

(** A standalone layout: unpadded 64-token pages that are not the MLA page. *)
Definition standalone : layout :=
  Layout demo_base [] (Some (Group ["draft.0"] (Uniform [("draft.0", Spec (mro swa_spec) 64 None 2048)]))).

Lemma consumers_agree_witness :
  exists per_block tensors,
    _pool_bytes_per_block standalone = Ok per_block /\
    get_kv_cache_config_from_groups Z.mul standalone 100000000 = Ok (100000000 / per_block, tensors) /\
    _max_memory_usage_bytes_from_groups (fun _ => 49) standalone 10 = Ok ((10 + 0 + 49) * per_block) /\
    Zsum (map size tensors) <= 100000000 < Zsum (map size tensors) + per_block /\
    concat (map shared_by tensors) ≡ₚ ["mla.0"; "mla.1"; "idx.0"; "draft.0"].
Proof.
  apply (consumers_agree (fun _ _ => Some demo_base) Z.mul
    [Group (map fst demo_attn) (Uniform demo_attn); Group ["draft.0"] (Uniform [("draft.0", Spec (mro swa_spec) 64 None 2048)])]
    [] standalone 100000000 (fun _ => 49) 10); try done; try lia.
  - split; [by left | constructor].
  - intros g e [= <-] He. cbn in He. apply list_elem_of_singleton in He as ->. vm_compute. discriminate.
Defined.
