(* ===== verification/PatchDrafterGroup.v ===== *)
(** * Installing the drafter group

    Model of [overlay/patch_glm5_drafter_group.py]: the fresh install and the upgrades of earlier installs.  The anchors and
    replacements are the source's, byte for byte. *)
From Stdlib Require Import ZArith Lia String Ascii.
From stdpp Require Import base list strings gmap.
From S2P Require Import Prelude PyStr Installer.
#[local] Open Scope string_scope.

(** ** The texts *)

Definition MARKER : string := "DFLASH2-DRAFTER-GROUP".
Definition EDIT_PARTITION_ANCHOR : string := "    attn_specs = {
        k: v
        for k, v in kv_cache_spec.items()
        if not isinstance(v, (MambaSpec, KpoolTailSpec))
    }
    if not mamba_specs or not all(
        type(s) is MLAAttentionSpec for s in attn_specs.values()
    ):
        return None
".
Definition EDIT_PARTITION_NEW : string := "    # DFLASH2-DRAFTER-GROUP: a spec-decode drafter (DFlash2) adds plain
    # SlidingWindowSpec layers on top of the GLM-5-Next hybrid. Partition them
    # out (exact type: KpoolTailSpec subclasses SlidingWindowSpec) so they do
    # not disqualify the model from this fast path; they are appended as one
    # extra group below.
    draft_specs = {
        k: v for k, v in kv_cache_spec.items() if type(v) is SlidingWindowSpec
    }
    attn_specs = {
        k: v
        for k, v in kv_cache_spec.items()
        if not isinstance(v, (MambaSpec, KpoolTailSpec))
        and type(v) is not SlidingWindowSpec
    }
    if not mamba_specs or not all(
        type(s) is MLAAttentionSpec for s in attn_specs.values()
    ):
        return None
".
Definition EDIT_GROUPS_RETURN_ANCHOR : string := "    mamba_grouped_names: list[list[str]] = [[] for _ in range(num_groups)]
    for k, name in enumerate(mamba_specs):
        mamba_grouped_names[k % num_groups].append(name)
    return (
        [KVCacheGroupSpec(list(attn_specs), uniform_spec)]
        + ([tail_group] if tail_group is not None else [])
        + create_kv_cache_group_specs(padded_specs, mamba_grouped_names)
    )
".
Definition EDIT_GROUPS_RETURN_NEW : string := unquote "    mamba_grouped_names: list[list[str]] = [[] for _ in range(num_groups)]
    for k, name in enumerate(mamba_specs):
        mamba_grouped_names[k % num_groups].append(name)

    # Drafter group (DFLASH2-DRAFTER-GROUP): one extra group for the spec-
    # decode drafter's SlidingWindowSpec layers, appended LAST so existing
    # group ids stay stable. NEVER page_size_padded: a padded spec routes the
    # runner into the strided-view reshape, which is invalid when the backend
    # virtually splits the manager block into smaller kernel blocks (boot 8:
    # FlashInfer picked kernel block 64 for a 2304-token manager block and
    # the per-KERNEL-block page stride blew past the tensor). Both modes
    # below use the ordinary contiguous reshape, valid under any split.
    draft_group = None
    if draft_specs:
        any_draft = next(iter(draft_specs.values()))
        assert all(spec == any_draft for spec in draft_specs.values()), (
            ^drafter SlidingWindowSpec layers must share one spec^
        )
        draft_bytes_per_token = any_draft.page_size_bytes // any_draft.block_size
        mla_block = mla_specs[mla_names[0]].block_size
        fit_block = (
            mla_page // draft_bytes_per_token
            if mla_page % draft_bytes_per_token == 0
            else 0
        )
        if (
            fit_block
            # A 64-divisible manager block is divisible by every int kernel
            # block size the SWA backends register (16/32/64), so
            # select_common_block_size always finds a clean split.
            and fit_block % 64 == 0
            # Keep resolve_kv_cache_block_sizes' scheduler LCM at
            # max(mla_block, fit_block) instead of exploding.
            and (fit_block % mla_block == 0 or mla_block % fit_block == 0)
            and len(draft_specs) <= len(mla_names)
        ):
            # EXACT FIT: the drafter's real page equals the MLA page, so
            # drafter layer i co-owns MLA tensor i at disjoint block ids
            # (like mamba) with a contiguous view: kernel block j of manager
            # block b lands at b * mla_page + j * kernel_page, inside block
            # b's own page. Per-block pool cost unchanged.
            logger.info(
                ^DFlash2 drafter KV: exact-fit block=%d mla_page=%d^,
                fit_block,
                mla_page,
            )
            new_draft_specs: dict[str, KVCacheSpec] = {
                name: replace(s, block_size=fit_block)
                for name, s in draft_specs.items()
            }
        else:
            # PADDED SLOT-SHARE: 656 vs 4096 cannot exact-fill on this MLA
            # block. Manager 64 matches the SWA kernel, so padding the page
            # to mla_page is a safe strided view (boot 8 OOB was kernel 64
            # inside a 2304-token manager). Layer i co-owns MLA tensor i.
            compact_block = 64
            kernel_page_bytes = compact_block * draft_bytes_per_token
            draft_tokens_per_mla_page = mla_page // draft_bytes_per_token
            usable_draft_tokens = (
                draft_tokens_per_mla_page // compact_block * compact_block
            )
            structural_padding_waste_bytes = (
                draft_tokens_per_mla_page - usable_draft_tokens
            ) * draft_bytes_per_token
            exact_fit_draft_tokens = (
                (draft_tokens_per_mla_page + compact_block - 1)
                // compact_block
                * compact_block
            )
            exact_fit_page_bytes = exact_fit_draft_tokens * draft_bytes_per_token
            logger.info(
                ^DFlash2 drafter KV: padded slot-share block=%d ^
                ^mla_page=%d (was block=%d); exact-fit page mismatch ^
                ^draft_bytes/token=%d kernel_page=%d ^
                ^draft_tokens/page=%d usable_draft_tokens=%d ^
                ^structural_padding_waste_bytes=%d (%.2f%% of mla_page) ^
                ^exact_fit_page=%d growth_bytes=%d (%.2f%%)^,
                compact_block,
                mla_page,
                any_draft.block_size,
                draft_bytes_per_token,
                kernel_page_bytes,
                draft_tokens_per_mla_page,
                usable_draft_tokens,
                structural_padding_waste_bytes,
                100.0 * structural_padding_waste_bytes / mla_page,
                exact_fit_page_bytes,
                exact_fit_page_bytes - mla_page,
                100.0 * (exact_fit_page_bytes - mla_page) / mla_page,
            )
            new_draft_specs = {
                name: replace(
                    s,
                    block_size=compact_block,
                    page_size_padded=mla_page,
                )
                for name, s in draft_specs.items()
            }
        draft_uniform = UniformTypeKVCacheSpecs.from_specs(new_draft_specs)
        assert draft_uniform is not None
        draft_group = KVCacheGroupSpec(list(new_draft_specs), draft_uniform)

    return (
        [KVCacheGroupSpec(list(attn_specs), uniform_spec)]
        + ([tail_group] if tail_group is not None else [])
        + create_kv_cache_group_specs(padded_specs, mamba_grouped_names)
        + ([draft_group] if draft_group is not None else [])
    )
".
Definition EDIT_LAYOUT_ANNOT_ANCHOR : string := "        list[str],
        int,
    ]
    | None
):
".
Definition EDIT_LAYOUT_ANNOT_NEW : string := "        list[str],
        int,
        KVCacheGroupSpec | None,
    ]
    | None
):
".
Definition EDIT_LAYOUT_DOC_ANCHOR : string := "      - (attn_group, mamba_groups, mla_names, idx_names, mla_page, idx_page,
         tail_names, tail_page)
".
Definition EDIT_LAYOUT_DOC_NEW : string := "      - (attn_group, mamba_groups, mla_names, idx_names, mla_page, idx_page,
         tail_names, tail_page, draft_group)
".
Definition EDIT_LAYOUT_DETECT_ANCHOR : string := "    attn_group: KVCacheGroupSpec | None = None
    tail_group: KVCacheGroupSpec | None = None
    for g in uniform_groups:
        group_inner = cast(UniformTypeKVCacheSpecs, g.kv_cache_spec).kv_cache_specs
        if all(type(s) is MLAAttentionSpec for s in group_inner.values()):
            attn_group = g
        elif all(isinstance(s, KpoolTailSpec) for s in group_inner.values()):
            tail_group = g
".
Definition EDIT_LAYOUT_DETECT_NEW : string := "    attn_group: KVCacheGroupSpec | None = None
    tail_group: KVCacheGroupSpec | None = None
    draft_group: KVCacheGroupSpec | None = None
    for g in uniform_groups:
        group_inner = cast(UniformTypeKVCacheSpecs, g.kv_cache_spec).kv_cache_specs
        if all(type(s) is MLAAttentionSpec for s in group_inner.values()):
            attn_group = g
        elif all(isinstance(s, KpoolTailSpec) for s in group_inner.values()):
            tail_group = g
        elif group_inner and all(
            type(s) is SlidingWindowSpec for s in group_inner.values()
        ):
            # DFLASH2-DRAFTER-GROUP: the spec-decode drafter's SWA group
            # (validated below once mla_page is known).
            draft_group = g
".
Definition EDIT_LAYOUT_VALIDATE_ANCHOR : string := "    if any(g.kv_cache_spec.page_size_bytes != mla_page for g in mamba_groups):
        return None
    tail_names: list[str] = []
".
Definition EDIT_LAYOUT_VALIDATE_NEW : string := "    if any(g.kv_cache_spec.page_size_bytes != mla_page for g in mamba_groups):
        return None
    if draft_group is not None:
        # DFLASH2-DRAFTER-GROUP: one uniform page across drafter layers.
        # Padded slot-share (page_size_padded=mla_page, block=64) is valid
        # because manager==kernel so the strided view does not split a page.
        # page == mla_page means slot-sharing of the MLA tensors
        # (needs one tensor per drafter layer); any other page means
        # standalone drafter tensors.
        draft_inner = cast(
            UniformTypeKVCacheSpecs, draft_group.kv_cache_spec
        ).kv_cache_specs
        draft_pages = {s.page_size_bytes for s in draft_inner.values()}
        if len(draft_pages) != 1:
            return None
        if any(s.page_size_padded is not None for s in draft_inner.values()):
            if any(
                s.block_size != 64 or s.page_size_padded != mla_page
                for s in draft_inner.values()
            ):
                return None
        if (
            draft_pages.pop() == mla_page
            and len(draft_group.layer_names) > len(mla_names)
        ):
            return None
    tail_names: list[str] = []
".
Definition EDIT_LAYOUT_RETURN_ANCHOR : string := "    return (
        attn_group,
        mamba_groups,
        mla_names,
        idx_names,
        mla_page,
        idx_pages.pop(),
        tail_names,
        tail_page,
    )
".
Definition EDIT_LAYOUT_RETURN_NEW : string := "    return (
        attn_group,
        mamba_groups,
        mla_names,
        idx_names,
        mla_page,
        idx_pages.pop(),
        tail_names,
        tail_page,
        draft_group,
    )
".
Definition EDIT_POOL_BYTES_ANCHOR : string := "        _, _, mla_names, idx_names, mla_page, idx_page, _, _ = glm5
        return len(mla_names) * mla_page + len(idx_names) * idx_page
".
Definition EDIT_POOL_BYTES_NEW : string := "        # DFLASH2-DRAFTER-GROUP: an exact-fit drafter (page == mla_page)
        # slot-shares the MLA tensors and adds no bytes; a standalone drafter
        # adds one page per drafter layer.
        _, _, mla_names, idx_names, mla_page, idx_page, _, _, draft_group = glm5
        per_block = len(mla_names) * mla_page + len(idx_names) * idx_page
        if draft_group is not None:
            draft_page = next(
                iter(
                    cast(
                        UniformTypeKVCacheSpecs, draft_group.kv_cache_spec
                    ).kv_cache_specs.values()
                )
            ).page_size_bytes
            if draft_page != mla_page:
                per_block += len(draft_group.layer_names) * draft_page
        return per_block
".
Definition EDIT_CONFIG_DESTRUCTURE_ANCHOR : string := "        (
            _,
            mamba_groups,
            mla_names,
            idx_names,
            mla_page,
            idx_page,
            tail_names,
            _tail_page,
        ) = glm5n
".
Definition EDIT_CONFIG_DESTRUCTURE_NEW : string := "        (
            _,
            mamba_groups,
            mla_names,
            idx_names,
            mla_page,
            idx_page,
            tail_names,
            _tail_page,
            draft_group,
        ) = glm5n
        draft_names: list[str] = []
        draft_page = 0
        draft_shared = False
        if draft_group is not None:
            draft_names = list(draft_group.layer_names)
            draft_page = next(
                iter(
                    cast(
                        UniformTypeKVCacheSpecs, draft_group.kv_cache_spec
                    ).kv_cache_specs.values()
                )
            ).page_size_bytes
            # Exact fit: the drafter's real page equals the MLA page, so it
            # rides the MLA tensors; otherwise it gets standalone tensors.
            draft_shared = draft_page == mla_page
".
Definition EDIT_CONFIG_PER_BLOCK_ANCHOR : string := "        per_block = len(mla_names) * mla_page + len(idx_names) * idx_page
        num_blocks = available_memory // per_block
".
Definition EDIT_CONFIG_PER_BLOCK_NEW : string := "        per_block = len(mla_names) * mla_page + len(idx_names) * idx_page
        if draft_names and not draft_shared:
            # DFLASH2-DRAFTER-GROUP (standalone): drafter tensors are part of
            # every block's byte cost.
            per_block += len(draft_names) * draft_page
        num_blocks = available_memory // per_block
".
Definition EDIT_CONFIG_SHARED_BY_ANCHOR : string := "                shared_by=[mla_name]
                + [g.layer_names[i] for g in mamba_groups if i < len(g.layer_names)],
            )
            for i, mla_name in enumerate(mla_names)
".
Definition EDIT_CONFIG_SHARED_BY_NEW : string := "                shared_by=[mla_name]
                + [g.layer_names[i] for g in mamba_groups if i < len(g.layer_names)]
                # DFLASH2-DRAFTER-GROUP (exact fit): drafter layer i rides MLA
                # tensor i (contiguous view, disjoint block ids), like mamba.
                + ([draft_names[i]] if draft_shared and i < len(draft_names) else []),
            )
            for i, mla_name in enumerate(mla_names)
".
Definition EDIT_CONFIG_DRAFT_TENSORS_ANCHOR : string := "            KVCacheTensor(
                size=idx_page * num_blocks,
                shared_by=(
                    [idx_names[i], tail_names[i]] if tail_names else [idx_names[i]]
                ),
            )
            for i in range(len(idx_names))
        ]
".
Definition EDIT_CONFIG_DRAFT_TENSORS_NEW : string := "            KVCacheTensor(
                size=idx_page * num_blocks,
                shared_by=(
                    [idx_names[i], tail_names[i]] if tail_names else [idx_names[i]]
                ),
            )
            for i in range(len(idx_names))
        ] + [
            # DFLASH2-DRAFTER-GROUP (standalone): compact per-layer drafter
            # tensors; contiguous reshape, safe under kernel block splitting.
            KVCacheTensor(size=draft_page * num_blocks, shared_by=[name])
            for name in ([] if draft_shared else draft_names)
        ]
".
Definition EDIT_MAXMEM_DESTRUCTURE_ANCHOR : string := "        (
            attn_group,
            mamba_groups,
            mla_names,
            idx_names,
            mla_page,
            idx_page,
            tail_names,
            _tail_page,
        ) = glm5n
".
Definition EDIT_MAXMEM_DESTRUCTURE_NEW : string := "        (
            attn_group,
            mamba_groups,
            mla_names,
            idx_names,
            mla_page,
            idx_page,
            tail_names,
            _tail_page,
            draft_group,
        ) = glm5n
".
Definition EDIT_MAXMEM_BLOCKS_ANCHOR : string := "        if tail_names:
            # Tail: 1 block/req (KpoolTailSpec.max_admission_blocks_per_request
            # == 1), drawn from the shared pool.
            blocks_needed += 1
        return blocks_needed * (len(mla_names) * mla_page + len(idx_names) * idx_page)
".
Definition EDIT_MAXMEM_BLOCKS_NEW : string := "        if tail_names:
            # Tail: 1 block/req (KpoolTailSpec.max_admission_blocks_per_request
            # == 1), drawn from the shared pool.
            blocks_needed += 1
        per_block = len(mla_names) * mla_page + len(idx_names) * idx_page
        if draft_group is not None:
            # DFLASH2-DRAFTER-GROUP: charge the drafter's window-bounded
            # block-id demand; a standalone drafter also adds its pages to
            # every block's byte cost (an exact-fit one rides the MLA
            # tensors and adds none).
            draft_uniform = draft_group.kv_cache_spec
            assert isinstance(draft_uniform, UniformTypeKVCacheSpecs)
            blocks_needed += draft_uniform.max_memory_usage_pages(vllm_config)
            draft_page = next(
                iter(draft_uniform.kv_cache_specs.values())
            ).page_size_bytes
            if draft_page != mla_page:
                per_block += len(draft_group.layer_names) * draft_page
        return blocks_needed * per_block
".
Definition v4_old : string := "        if any(s.page_size_padded is not None for s in draft_inner.values()):
            return None
".
Definition v4_new : string := "        if any(s.page_size_padded is not None for s in draft_inner.values()):
            # Padded slot-share: manager block 64 so the kernel does not
            # split the page (boot 8 OOB was kernel 64 in a 2304 manager).
            if any(
                s.block_size != 64 or s.page_size_padded != mla_page
                for s in draft_inner.values()
            ):
                return None
".
Definition v3_marker : string := "padded slot-share block=%d".
Definition waste_marker : string := "structural_padding_waste_bytes=%d".
Definition old_padded_log : string := unquote "            compact_block = 64
            logger.info(
                ^DFlash2 drafter KV: padded slot-share block=%d ^
                ^mla_page=%d (was block=%d); exact-fit page mismatch ^
                ^draft_bytes/token=%d^,
                compact_block,
                mla_page,
                any_draft.block_size,
                draft_bytes_per_token,
            )
".
Definition new_padded_log : string := unquote "            compact_block = 64
            kernel_page_bytes = compact_block * draft_bytes_per_token
            draft_tokens_per_mla_page = mla_page // draft_bytes_per_token
            usable_draft_tokens = (
                draft_tokens_per_mla_page // compact_block * compact_block
            )
            structural_padding_waste_bytes = (
                draft_tokens_per_mla_page - usable_draft_tokens
            ) * draft_bytes_per_token
            exact_fit_draft_tokens = (
                (draft_tokens_per_mla_page + compact_block - 1)
                // compact_block
                * compact_block
            )
            exact_fit_page_bytes = exact_fit_draft_tokens * draft_bytes_per_token
            logger.info(
                ^DFlash2 drafter KV: padded slot-share block=%d ^
                ^mla_page=%d (was block=%d); exact-fit page mismatch ^
                ^draft_bytes/token=%d kernel_page=%d ^
                ^draft_tokens/page=%d usable_draft_tokens=%d ^
                ^structural_padding_waste_bytes=%d (%.2f%% of mla_page) ^
                ^exact_fit_page=%d growth_bytes=%d (%.2f%%)^,
                compact_block,
                mla_page,
                any_draft.block_size,
                draft_bytes_per_token,
                kernel_page_bytes,
                draft_tokens_per_mla_page,
                usable_draft_tokens,
                structural_padding_waste_bytes,
                100.0 * structural_padding_waste_bytes / mla_page,
                exact_fit_page_bytes,
                exact_fit_page_bytes - mla_page,
                100.0 * (exact_fit_page_bytes - mla_page) / mla_page,
            )
".
Definition new_padded : string := unquote "            # PADDED SLOT-SHARE: 656 vs 4096 cannot exact-fill on this MLA
            # block. Manager 64 matches the SWA kernel, so padding the page
            # to mla_page is a safe strided view (boot 8 OOB was kernel 64
            # inside a 2304-token manager). Layer i co-owns MLA tensor i.
            compact_block = 64
            kernel_page_bytes = compact_block * draft_bytes_per_token
            draft_tokens_per_mla_page = mla_page // draft_bytes_per_token
            usable_draft_tokens = (
                draft_tokens_per_mla_page // compact_block * compact_block
            )
            structural_padding_waste_bytes = (
                draft_tokens_per_mla_page - usable_draft_tokens
            ) * draft_bytes_per_token
            exact_fit_draft_tokens = (
                (draft_tokens_per_mla_page + compact_block - 1)
                // compact_block
                * compact_block
            )
            exact_fit_page_bytes = exact_fit_draft_tokens * draft_bytes_per_token
            logger.info(
                ^DFlash2 drafter KV: padded slot-share block=%d ^
                ^mla_page=%d (was block=%d); exact-fit page mismatch ^
                ^draft_bytes/token=%d kernel_page=%d ^
                ^draft_tokens/page=%d usable_draft_tokens=%d ^
                ^structural_padding_waste_bytes=%d (%.2f%% of mla_page) ^
                ^exact_fit_page=%d growth_bytes=%d (%.2f%%)^,
                compact_block,
                mla_page,
                any_draft.block_size,
                draft_bytes_per_token,
                kernel_page_bytes,
                draft_tokens_per_mla_page,
                usable_draft_tokens,
                structural_padding_waste_bytes,
                100.0 * structural_padding_waste_bytes / mla_page,
                exact_fit_page_bytes,
                exact_fit_page_bytes - mla_page,
                100.0 * (exact_fit_page_bytes - mla_page) / mla_page,
            )
            new_draft_specs = {
                name: replace(
                    s,
                    block_size=compact_block,
                    page_size_padded=mla_page,
                )
                for name, s in draft_specs.items()
            }
".
Definition v2_compact : string := "            compact_block = 64
            if any_draft.block_size > compact_block:
".
Definition old_standalone : string := "            # STANDALONE: the drafter's geometry cannot exactly fill the MLA
            # page; keep its spec as-is and give its layers compact tensors
            # of their own (emitted in get_kv_cache_config_from_groups and
            # charged in the per-block cost).
            new_draft_specs = dict(draft_specs)
".

Definition EDITS : list (string * string * string) :=
  [("groups: partition drafter SlidingWindowSpec layers out", EDIT_PARTITION_ANCHOR, EDIT_PARTITION_NEW);
   ("groups: build + append drafter group (exact-fit / standalone)", EDIT_GROUPS_RETURN_ANCHOR, EDIT_GROUPS_RETURN_NEW);
   ("layout: return-type annotation gains draft_group", EDIT_LAYOUT_ANNOT_ANCHOR, EDIT_LAYOUT_ANNOT_NEW);
   ("layout: docstring Returns gains draft_group", EDIT_LAYOUT_DOC_ANCHOR, EDIT_LAYOUT_DOC_NEW);
   ("layout: detect drafter SWA uniform group", EDIT_LAYOUT_DETECT_ANCHOR, EDIT_LAYOUT_DETECT_NEW);
   ("layout: validate drafter (uniform page, never padded)", EDIT_LAYOUT_VALIDATE_ANCHOR, EDIT_LAYOUT_VALIDATE_NEW);
   ("layout: return draft_group (9th element)", EDIT_LAYOUT_RETURN_ANCHOR, EDIT_LAYOUT_RETURN_NEW);
   ("_pool_bytes_per_block: standalone drafter bytes", EDIT_POOL_BYTES_ANCHOR, EDIT_POOL_BYTES_NEW);
   ("config: destructure + drafter mode", EDIT_CONFIG_DESTRUCTURE_ANCHOR, EDIT_CONFIG_DESTRUCTURE_NEW);
   ("config: per-block cost includes standalone drafter", EDIT_CONFIG_PER_BLOCK_ANCHOR, EDIT_CONFIG_PER_BLOCK_NEW);
   ("config: exact-fit drafter layer i co-owns MLA tensor i", EDIT_CONFIG_SHARED_BY_ANCHOR, EDIT_CONFIG_SHARED_BY_NEW);
   ("config: standalone drafter tensors", EDIT_CONFIG_DRAFT_TENSORS_ANCHOR, EDIT_CONFIG_DRAFT_TENSORS_NEW);
   ("max-mem: destructure gains draft_group", EDIT_MAXMEM_DESTRUCTURE_ANCHOR, EDIT_MAXMEM_DESTRUCTURE_NEW);
   ("max-mem: charge drafter block-id demand + standalone bytes", EDIT_MAXMEM_BLOCKS_ANCHOR, EDIT_MAXMEM_BLOCKS_NEW)].

Definition required : list string :=
  ["def _get_kv_cache_groups_glm5_next"; "def _glm5_next_tensor_layout"; "def _pool_bytes_per_block";
   "SlidingWindowSpec"; "UniformTypeKVCacheSpecs"].

(** ** The patcher *)

Section patcher.
Context (parses : string -> bool).

(** [assert cond] and [raise AssertionError]. *)
Definition assert_ (cond : bool) : res unit := if cond then Ok tt else Raise AssertionError.

(** [ast.parse] and the write, or the dry run's message. *)
Definition finish (dry_run : bool) (text : string) : res (option string) :=
  _ ← assert_ (parses text);
  Ok (if dry_run then None else Some text).

(** [text.find(needle)], and the slices at an index. *)
Definition find (needle text : string) : option nat :=
  if str_in needle text then Some (String.length (before needle text)) else None.
Definition take_str (n : nat) (s : string) : string := String.substring 0 n s.

(** The two in-place upgrades of a padded install; the flag is [upgraded]. *)
Definition upgrade_padded (text : string) : res (string * bool) :=
  let '(text, v4) := if str_in v4_old text then (replace_first v4_old v4_new text, true) else (text, false) in
  if str_in v3_marker text && negb (str_in waste_marker text) then
    _ ← assert_ (str_in old_padded_log text);
    Ok (replace_first old_padded_log new_padded_log text, true)
  else Ok (text, v4).

Definition STANDALONE_START : string := "            # STANDALONE: compact per-layer tensors.".
Definition STANDALONE_END : string :=
  "        draft_uniform = UniformTypeKVCacheSpecs.from_specs(new_draft_specs)".

(** The compact standalone block is cut out and the padded one put in. *)
Definition replace_standalone (text : string) : res string :=
  match find STANDALONE_START text, find STANDALONE_END text with
  | Some start, Some stop =>
      if (stop <=? start)%nat then Raise AssertionError
      else Ok (take_str start text ++ new_padded ++ drop_str stop text)
  | _, _ => Raise AssertionError
  end.

(** The branch for a file that has the marker. *)
Definition patch_marked (dry_run : bool) (text : string) : res (option string) :=
  up ← upgrade_padded text;
  let '(text, upgraded) := (up : string * bool) in
  if str_in v3_marker text && upgraded then finish dry_run text
  else if str_in v3_marker text && str_in waste_marker text then Ok None
  else if str_in v2_compact text then (text ← replace_standalone text; finish dry_run text)
  else
    _ ← assert_ (str_in old_standalone text);
    finish dry_run (replace_first old_standalone new_padded text).

Fixpoint apply_edits (edits : list (string * string * string)) (text : string) : res string :=
  match edits with
  | [] => Ok text
  | (name, anchor, replacement) :: es =>
      _ ← assert_ (str_count anchor text =? 1)%nat;
      apply_edits es (replace_first anchor replacement text)
  end.

Definition patch_file (dry_run : bool) (text : string) : res (option string) :=
  if str_in MARKER text then patch_marked dry_run text
  else
    _ ← assert_ (forallb (fun r => str_in r text) required);
    text ← apply_edits EDITS text;
    finish dry_run text.
End patcher.
