(* ===== verification/DrafterStack.v ===== *)
(** * The patches of kv_cache_utils.py, in order

    [start.sh] runs three patchers over [kv_cache_utils.py] at every boot: the
    drafter group, then the compact drafter page, whose anchors are text the
    first one writes, then the capacity log.  Here is what that order gives,
    and what the drafter patcher makes of its own earlier installs. *)
From Stdlib Require Import ZArith Lia String Ascii.
From stdpp Require Import base list strings gmap.
From S2P Require Import Prelude PyStr Installer PyCount.
From S2P Require Import PatchDrafterGroup.
From S2P Require Import PatchKvConfig.
Import PatchDraftPage.
From S2P Require Import PatchKvCapacity.
#[local] Open Scope string_scope.

Section stack.
Context (parses : string -> bool).

Definition drafter_run : patch_run := PatchDrafterGroup.patch_file parses false.

(** One boot of the three; a refusal stops the script. *)
Definition kv_boot (text : string) : res string :=
  r ← drafter_run text;
  let text := default text r in
  r ← PatchDraftPage.kv_run parses text;
  let text := default text r in
  r ← PatchKvCapacity.main parses false text;
  Ok (default text r).

Definition drafter_table : list (string * string) := map (fun e => (e.1.2, e.2)) PatchDrafterGroup.EDITS.

(** A file none of the three patchers has seen. *)
Definition unseen (text : string) : Prop :=
  str_in MARKER text = false /\ str_in v4_old text = false /\ str_in PatchDraftPage.MARK text = false /\
  str_in PatchDraftPage.BLOCK_OLD text = false /\ str_in PatchDraftPage.VALID_OLD text = false.

(** What the later runs look for, with enough context to overlap no anchor. *)
Definition v3_line : string := v3_marker ++ unquote " ^".
Definition waste_line : string := waste_marker ++ " (%.2f".

Lemma assert_Ok c u : assert_ c = Ok u -> c = true.
Proof. unfold assert_. by destruct c. Qed.

Lemma apply_edits_steps es text t' : apply_edits es text = Ok t' ->
  t' = steps (map (fun e => (e.1.2, e.2)) es) text /\
  forall pre name old new post, es = (pre ++ (name, old, new) :: post)%list ->
    str_count old (steps (map (fun e => (e.1.2, e.2)) pre) text) = 1.
Proof.
  revert text. induction es as [|[[name old] new] es IH]; intros text H; cbn [apply_edits] in H.
  - injection H as <-. split; [done |]. intros [|??] *; discriminate.
  - step_ok H. apply assert_Ok, Nat.eqb_eq in E. destruct (IH _ H) as [-> Hc]. split; [done |].
    intros [|[[nm0 o0] n0] pre] nm o n post Hes; simpl in Hes; [by injection Hes as _ <- _ _ |].
    injection Hes as _ -> -> Hes. simpl. by eapply Hc.
Qed.

(** The fresh branch, as a sequence of edits. *)
Lemma fresh_steps text t1 : str_in MARKER text = false -> drafter_run text = Ok (Some t1) ->
  t1 = steps drafter_table text /\ parses t1 = true /\
  forall pre name old new post, EDITS = (pre ++ (name, old, new) :: post)%list ->
    str_count old (steps (map (fun e => (e.1.2, e.2)) pre) text) = 1.
Proof.
  unfold drafter_run, patch_file. intros -> H. step_ok H. step_ok H. unfold finish in H. step_ok H. injection H as <-.
  destruct (apply_edits_steps _ _ _ E0) as [-> Hc]. split; [done |]. split; [by apply assert_Ok in E1 | exact Hc].
Qed.

(** An edit's replacement, and what it contains, is brought in. *)
Lemma brought_in p pre old new post text : p <> "" -> str_in p new = true ->
  forallb (fun e => apart p (fst e)) post = true -> str_in old (steps pre text) = true ->
  str_in p (steps (pre ++ (old, new) :: post)%list text) = true.
Proof.
  intros Hp Hn Hpost Ho. rewrite steps_app. unfold steps at 1. cbn [fold_left fst snd].
  fold (steps post (replace_first old new (steps pre text))). apply steps_in; [done |].
  apply (str_in_trans p new); [done |]. by apply replace_first_in.
Qed.

(** The [n]-th edit, with what comes before and after it. *)
Lemma nth_edit n e : drafter_table !! n = Some e ->
  drafter_table = (take n drafter_table ++ e :: drop (S n) drafter_table)%list.
Proof. intros H. symmetry. by apply take_drop_middle. Qed.

Lemma anchor_present text t1 n old new : str_in MARKER text = false -> drafter_run text = Ok (Some t1) ->
  drafter_table !! n = Some (old, new) -> old <> "" -> str_in old (steps (take n drafter_table) text) = true.
Proof.
  intros Hm Hr Hn Ho. destruct (fresh_steps text t1 Hm Hr) as (_ & _ & Hc).
  unfold drafter_table in *. rewrite list_lookup_fmap in Hn.
  destruct (EDITS !! n) as [[[name o] r]|] eqn:E; [| done]. injection Hn as -> ->.
  apply str_count_pos; [done |]. rewrite firstn_map. apply take_drop_middle in E.
  rewrite (Hc (take n EDITS) name old new (drop (S n) EDITS) (eq_sym E)). done.
Qed.

(** The page patcher's two anchors are written once each by the drafter's. *)
Lemma page_anchor text t1 p n old new : str_in MARKER text = false -> drafter_run text = Ok (Some t1) -> p <> "" ->
  str_in p text = false -> drafter_table !! n = Some (old, new) -> old <> "" -> fenced p new = true ->
  forallb (fun e => apart p (fst e) && apart p (snd e)) (take n drafter_table ++ drop (S n) drafter_table) = true ->
  str_count p t1 = str_count p new.
Proof.
  intros Hm Hr Hp Hin Hn Ho Hf Hap. destruct (fresh_steps text t1 Hm Hr) as (-> & _ & _).
  rewrite (nth_edit n _ Hn). apply steps_fresh; try done. by eapply anchor_present.
Qed.

Lemma drafter_writes text t1 p n old new : str_in MARKER text = false -> drafter_run text = Ok (Some t1) -> p <> "" ->
  drafter_table !! n = Some (old, new) -> old <> "" -> str_in p new = true ->
  forallb (fun e => apart p (fst e)) (drop (S n) drafter_table) = true -> str_in p t1 = true.
Proof.
  intros Hm Hr Hp Hn Ho Hi Hap. destruct (fresh_steps text t1 Hm Hr) as (-> & _ & _).
  rewrite (nth_edit n _ Hn). apply brought_in; try done. by eapply anchor_present.
Qed.

(** What makes the drafter patcher leave a file alone. *)
Definition drafter_done (text : string) : Prop :=
  str_in MARKER text = true /\ str_in v4_old text = false /\ str_in v3_line text = true /\ str_in waste_line text = true.

Lemma drafter_noop text : drafter_done text -> drafter_run text = Ok None.
Proof.
  intros (Hm & H4 & H3 & Hw). unfold drafter_run, patch_file, patch_marked, upgrade_padded. rewrite Hm, H4.
  assert (str_in v3_marker text = true) as E3 by (eapply str_in_trans; [| exact H3]; by vm_compute).
  assert (str_in waste_marker text = true) as Ew by (eapply str_in_trans; [| exact Hw]; by vm_compute).
  rewrite E3, Ew. simpl. by rewrite E3, Ew.
Qed.

(** Edits of other patchers keep it so. *)
Lemma drafter_done_steps table text :
  forallb (fun p => forallb (fun e => apart p (fst e)) table) [MARKER; v3_line; waste_line] = true ->
  forallb (fun e => apart v4_old (fst e) && apart v4_old (snd e)) table = true ->
  drafter_done text -> drafter_done (steps table text).
Proof.
  cbn [forallb]. intros [H1 [H2 [H3' _]%andb_true_iff]%andb_true_iff]%andb_true_iff Ht (Hm & H4 & H3 & Hw).
  repeat split; try by apply steps_in.
  apply str_count_zero; [done |]. rewrite steps_count by done. by apply str_count_zero.
Qed.

Lemma kv_anchors_apart :
  forallb (fun e => apart PatchDraftPage.VALID_OLD (fst e) && apart PatchDraftPage.VALID_OLD (snd e))
    [(PatchDraftPage.BLOCK_OLD, PatchDraftPage.BLOCK_NEW)] = true.
Proof. vm_compute. reflexivity. Qed.

(** After the drafter patcher, the page patcher's edits apply. *)
Lemma page_applies text t1 : unseen text -> drafter_run text = Ok (Some t1) ->
  PatchDraftPage.patch_kv parses t1 =
  (let u := steps PatchDraftPage.kv_table t1 in if parses u then Ok u else Raise OtherException).
Proof.
  intros (Hm & _ & Hk & Hb & Hv) Hr.
  assert (str_count PatchDraftPage.BLOCK_OLD t1 = 1) as Cb.
  { rewrite (page_anchor text t1 PatchDraftPage.BLOCK_OLD 1 EDIT_GROUPS_RETURN_ANCHOR EDIT_GROUPS_RETURN_NEW);
      first [done | by vm_compute]. }
  assert (str_count PatchDraftPage.VALID_OLD t1 = 1) as Cv.
  { rewrite (page_anchor text t1 PatchDraftPage.VALID_OLD 5 EDIT_LAYOUT_VALIDATE_ANCHOR EDIT_LAYOUT_VALIDATE_NEW);
      first [done | by vm_compute]. }
  assert (str_in PatchDraftPage.MARK t1 = false) as Ck.
  { destruct (fresh_steps text t1 Hm Hr) as (-> & _ & _). apply str_count_zero; [done |].
    rewrite steps_count by first [done | by vm_compute]. by apply str_count_zero. }
  unfold PatchDraftPage.patch_kv. rewrite Ck. cbn [andb]. unfold replace_once. rewrite Cb. cbn [Nat.eqb mbind res_bind].
  pose proof (steps_count PatchDraftPage.VALID_OLD _ t1 ltac:(done) kv_anchors_apart) as Ev. rewrite Cv in Ev.
  cbn [steps fold_left fst snd] in Ev. rewrite Ev. cbn [Nat.eqb mbind res_bind]. unfold check_syntax.
  unfold steps, PatchDraftPage.kv_table. cbn [fold_left fst snd]. by destruct (parses _).
Qed.

Lemma drafter_leaves_done text t1 : unseen text -> drafter_run text = Ok (Some t1) -> drafter_done t1.
Proof.
  intros (Hm & H4 & _) Hr. repeat split.
  - apply (drafter_writes text t1 MARKER 0 EDIT_PARTITION_ANCHOR EDIT_PARTITION_NEW); first [done | by vm_compute].
  - destruct (fresh_steps text t1 Hm Hr) as (-> & _ & _). apply str_count_zero; [done |].
    rewrite steps_count by first [done | by vm_compute]. by apply str_count_zero.
  - apply (drafter_writes text t1 v3_line 1 EDIT_GROUPS_RETURN_ANCHOR EDIT_GROUPS_RETURN_NEW); first [done | by vm_compute].
  - apply (drafter_writes text t1 waste_line 1 EDIT_GROUPS_RETURN_ANCHOR EDIT_GROUPS_RETURN_NEW); first [done | by vm_compute].
Qed.

(** What makes the page patcher leave a file alone. *)
Definition chose_line : string := "compact page chose block=%d (%s)".
Definition page_done (text : string) : Prop :=
  str_in PatchDraftPage.MARK text = true /\ str_in chose_line text = true /\
  str_in "unpadded_page_size_bytes" text = true.

Lemma page_noop text : page_done text -> PatchDraftPage.kv_run parses text = Ok None.
Proof.
  intros (Hm & Hc & Hu). unfold PatchDraftPage.kv_run, PatchDraftPage.patch_kv.
  rewrite Hm, Hu, (str_in_trans _ chose_line text) by first [done | by vm_compute]. simpl. by rewrite PatchDraftPage.changed_same.
Qed.

Lemma page_leaves_done t1 : str_in PatchDraftPage.BLOCK_OLD t1 = true ->
  str_in PatchDraftPage.VALID_OLD (replace_first PatchDraftPage.BLOCK_OLD PatchDraftPage.BLOCK_NEW t1) = true ->
  page_done (steps PatchDraftPage.kv_table t1).
Proof.
  intros Hb Hv.
  assert (forall p, p <> "" -> str_in p PatchDraftPage.BLOCK_NEW = true -> apart p PatchDraftPage.VALID_OLD = true ->
    str_in p (steps PatchDraftPage.kv_table t1) = true) as Hblock.
  { intros p Hp Hn Ha.
    apply (brought_in p [] PatchDraftPage.BLOCK_OLD PatchDraftPage.BLOCK_NEW [(PatchDraftPage.VALID_OLD, PatchDraftPage.VALID_NEW)]);
      [done | done | cbn [forallb fst]; by rewrite Ha | done]. }
  split; [apply Hblock; first [done | by vm_compute] |]. split; [apply Hblock; first [done | by vm_compute] |].
  apply (brought_in _ [(PatchDraftPage.BLOCK_OLD, PatchDraftPage.BLOCK_NEW)] PatchDraftPage.VALID_OLD PatchDraftPage.VALID_NEW []);
    first [done | by vm_compute].
Qed.

Lemma page_done_steps table text :
  forallb (fun p => forallb (fun e => apart p (fst e)) table)
    [PatchDraftPage.MARK; chose_line; "unpadded_page_size_bytes"] = true ->
  page_done text -> page_done (steps table text).
Proof.
  cbn [forallb]. intros [H1 [H2 [H3 _]%andb_true_iff]%andb_true_iff]%andb_true_iff (? & ? & ?).
  repeat split; by apply steps_in.
Qed.

(** The capacity log leaves the text or applies its two sites. *)
Lemma capacity_steps t r : PatchKvCapacity.main parses false t = Ok r ->
  default t r = t \/ default t r = steps PatchKvCapacity.table t.
Proof.
  unfold PatchKvCapacity.main. destruct (PatchKvCapacity.prepare t) as [p|e] eqn:E; [| by destruct e].
  intros H. step_ok H. injection H as <-. destruct (String.eqb_spec p t) as [-> |]; [by left | right]. simpl.
  revert E. unfold PatchKvCapacity.prepare. cbv zeta. destruct (negb (PatchKvCapacity.marks t =? 0)%nat).
  { destruct (_ || _); [done |]. by intros [= <-]. }
  destruct (existsb _ PatchKvCapacity.REQUIRED_BINDINGS); [done |]. destruct (existsb _ PatchKvCapacity.SITES); [done |].
  destruct (PatchKvCapacity.verified_state _); [| done]. by intros [= <-].
Qed.

(** On a [kv_cache_utils.py] none of the three patchers has seen, the order
    of the start script is forced and settles: the page patcher refuses the
    file before the drafter patcher has run; after it, both page anchors are
    there exactly once and the page edits apply as they stand, refused by the
    syntax check only; and a boot that goes through leaves a file on which the
    next boot changes nothing. *)
Theorem kv_stack_settles text t1 :
  unseen text -> drafter_run text = Ok (Some t1) ->
  (exists e, PatchDraftPage.patch_kv parses text = Raise e) /\
  PatchDraftPage.patch_kv parses t1 =
    (let u := steps PatchDraftPage.kv_table t1 in if parses u then Ok u else Raise OtherException) /\
  forall after, kv_boot text = Ok after -> kv_boot after = Ok after.
Proof.
  intros Hun Hr. pose proof Hun as (Hm & H4 & Hk & Hb & Hv). split; [| split; [by eapply page_applies |]].
  { unfold PatchDraftPage.patch_kv. rewrite Hk. cbn [andb]. unfold replace_once.
    rewrite (proj2 (str_count_zero PatchDraftPage.BLOCK_OLD text ltac:(done)) Hb). cbn [Nat.eqb mbind res_bind]. eexists; reflexivity. }
  intros after Hboot. unfold kv_boot in Hboot. rewrite Hr in Hboot. cbn [mbind res_bind default] in Hboot.
  change (id t1) with t1 in Hboot.
  pose proof (page_applies text t1 Hun Hr) as Hp. pose proof (drafter_leaves_done text t1 Hun Hr) as Hd.
  step_ok Hboot. unfold PatchDraftPage.kv_run in E. step_ok E. injection E as <-.
  assert (x0 = steps PatchDraftPage.kv_table t1 /\ page_done x0) as [-> Hpd].
  { rewrite E0 in Hp. cbv zeta in Hp. destruct (parses _) in Hp; [| done]. injection Hp as ->. split; [done |].
    unfold PatchDraftPage.patch_kv in E0. 
    assert (str_in PatchDraftPage.MARK t1 = false) as Ck.
    { destruct (fresh_steps text t1 Hm Hr) as (-> & _ & _). apply str_count_zero; [done |].
      rewrite steps_count by first [done | by vm_compute]. by apply str_count_zero. }
    rewrite Ck in E0. cbn [andb] in E0. step_ok E0. step_ok E0. apply replace_once_Ok in E as [Cb ->], E1 as [Cv ->].
    apply page_leaves_done; by apply count_one_in. }
  set (t2 := steps PatchDraftPage.kv_table t1) in *.
  assert (default t1 (PatchDraftPage.changed t1 t2) = t2) as Ht2.
  { unfold PatchDraftPage.changed. by destruct (String.eqb_spec t1 t2). }
  rewrite Ht2 in Hboot. step_ok Hboot. injection Hboot as <-.
  assert (drafter_done t2) as Hd2 by (apply drafter_done_steps; [by vm_compute | by vm_compute | done]).
  assert (drafter_done (default t2 x) /\ page_done (default t2 x)) as [Hd3 Hp3].
  { destruct (capacity_steps t2 x E) as [-> | ->]; [done |].
    split; [apply drafter_done_steps | apply page_done_steps]; first [done | by vm_compute]. }
  unfold kv_boot. rewrite (drafter_noop _ Hd3). cbn [mbind res_bind default].
  rewrite (page_noop _ Hp3). cbn [mbind res_bind default].
  assert (PatchKvCapacity.main parses false (default t2 x) = Ok None) as ->; [| done].
  destruct x as [t3|]; [| done]. simpl. by apply (patch_idem t2 t3 E).
Qed.

(** ** Earlier installs *)

Lemma take_drop_substring n s : take_str n s ++ drop_str n s = s.
Proof.
  revert s. unfold take_str. induction n as [|n IH]; intros [|c s]; try done.
  change (String c (String.substring 0 n s ++ drop_str n s) = String c s). by rewrite IH.
Qed.

Lemma v4_gone text : (str_count v4_old text <= 1)%nat ->
  str_in v4_old (if str_in v4_old text then replace_first v4_old v4_new text else text) = false.
Proof.
  intros Hc. destruct (str_in v4_old text) eqn:E; [| done]. apply replace_unique_gone; [done | by vm_compute |].
  assert (str_count v4_old text <> 0) by (intros H0; apply str_count_zero in H0; [by rewrite E in H0 | done]). lia.
Qed.

(** What an upgrade of an install that has the marker leaves. *)
Definition settled (text : string) : Prop :=
  str_in v4_old text = false /\ str_in v3_marker text = true /\ str_in waste_marker text = true.

Lemma padded_settled a b : str_in v4_old a = false -> str_in v4_old b = false -> settled (a ++ new_padded ++ b).
Proof.
  intros Ha Hb. assert (str_in new_padded (a ++ new_padded ++ b) = true) as Hin by (apply str_in_spec; by exists a, b).
  split; [| split; (eapply str_in_trans; [| exact Hin]; by vm_compute)].
  apply str_count_zero; [done |]. rewrite count_apart by first [done | by vm_compute].
  by rewrite (proj2 (str_count_zero v4_old a ltac:(done)) Ha), (proj2 (str_count_zero v4_old b ltac:(done)) Hb).
Qed.

Lemma marked_settles text t' : (str_count v4_old text <= 1)%nat -> patch_marked parses false text = Ok (Some t') -> settled t'.
Proof.
  intros Hc H. pose proof (v4_gone text Hc) as H4. unfold patch_marked in H. step_ok H. destruct x as [t1 up].
  assert (str_in v4_old t1 = false /\ (str_in v3_marker t1 = true -> up = true -> str_in waste_marker t1 = true)) as [H41 Hw].
  { unfold upgrade_padded in E. set (t0 := if str_in v4_old text then _ else _) in H4.
    assert (exists v4, (if str_in v4_old text then (replace_first v4_old v4_new text, true) else (text, false)) = (t0, v4))
      as [v4 Et0] by (subst t0; destruct (str_in v4_old text); by eexists).
    rewrite Et0 in E. destruct (str_in v3_marker t0 && negb (str_in waste_marker t0)) eqn:Eb.
    - step_ok E. apply assert_Ok in E0. injection E as <- <-. split.
      + apply str_count_zero; [done |]. rewrite count_replace_apart by first [done | by vm_compute]. by apply str_count_zero.
      + intros _ _. apply (str_in_trans waste_marker new_padded_log); [by vm_compute |]. by apply replace_first_in.
    - injection E as <- <-. split; [done |]. intros H3 _. rewrite H3 in Eb. by destruct (str_in waste_marker t0). }
  destruct (str_in v3_marker t1 && up) eqn:E1.
  { apply andb_true_iff in E1 as [H3 ->]. unfold finish in H. step_ok H. injection H as <-. repeat split; auto. }
  destruct (str_in v3_marker t1 && str_in waste_marker t1); [done |]. destruct (str_in v2_compact t1).
  - step_ok H. unfold finish in H. step_ok H. injection H as <-. unfold replace_standalone in E0.
    destruct (find STANDALONE_START t1) as [start|]; [| done]. destruct (find STANDALONE_END t1) as [stop|]; [| done].
    destruct (stop <=? start)%nat; [done |]. injection E0 as <-. apply padded_settled.
    + rewrite <- (take_drop_substring start t1) in H41. by apply absent_app in H41 as [? _].
    + rewrite <- (take_drop_substring stop t1) in H41. by apply absent_app in H41 as [_ ?].
  - step_ok H. apply assert_Ok in E0. unfold finish in H. step_ok H. injection H as <-.
    destruct (replace_first_spec old_standalone new_padded t1 E0) as (a & b & Ht & ->). rewrite Ht in H41.
    apply absent_app in H41 as [Ha [_ Hb]%absent_app]. by apply padded_settled.
Qed.

(** The marker outlives every path that does not cut the file. *)
Lemma marked_keeps text t' : str_in MARKER text = true -> str_in v3_marker text = true \/ str_in v2_compact text = false ->
  patch_marked parses false text = Ok (Some t') -> str_in MARKER t' = true.
Proof.
  intros Hm Hpath H. unfold patch_marked in H. step_ok H. destruct x as [t1 up].
  assert (str_in MARKER t1 = true /\ (str_in v3_marker t1 = true /\ (up = false -> t1 = text) \/ str_in v2_compact t1 = false)) as [Hm1 Hp1].
  { unfold upgrade_padded in E. set (t0 := if str_in v4_old text then replace_first v4_old v4_new text else text).
    assert (exists v4, (if str_in v4_old text then (replace_first v4_old v4_new text, true) else (text, false)) = (t0, v4)
      /\ (v4 = false -> t0 = text)) as (v4 & Et0 & Hv4) by (subst t0; destruct (str_in v4_old text); by eexists).
    assert (str_in MARKER t0 = true /\ (str_in v3_marker t0 = true \/ str_in v2_compact t0 = false)) as [Hm0 Hp0].
    { subst t0. destruct (str_in v4_old text); [| done]. split; [by apply replace_survives; [by vm_compute |] |].
      destruct Hpath as [H3 | H2]; [left; by apply replace_survives; [by vm_compute |] | right].
      apply str_count_zero; [done |]. rewrite count_replace_apart by first [done | by vm_compute]. by apply str_count_zero. }
    rewrite Et0 in E. destruct (str_in v3_marker t0 && negb (str_in waste_marker t0)) eqn:Eb.
    - step_ok E. apply assert_Ok in E0. injection E as <- <-. split; [by apply replace_survives; [by vm_compute |] |].
      left. split; [| done]. apply (str_in_trans v3_marker new_padded_log); [by vm_compute |]. by apply replace_first_in.
    - injection E as <- <-. split; [done |]. destruct Hp0; [left | right]; done. }
  destruct (str_in v3_marker t1 && up) eqn:E1; [unfold finish in H; step_ok H; by injection H as <- |].
  destruct (str_in v3_marker t1 && str_in waste_marker t1) eqn:E2; [done |]. destruct (str_in v2_compact t1) eqn:E3.
  - exfalso. destruct Hp1 as [[H3 _] | ?]; [| done]. rewrite H3 in E1, E2. destruct up; [done |].
    unfold upgrade_padded in E. destruct (str_in v4_old text); (destruct (_ && _) eqn:Eb in E; [step_ok E; by injection E |]);
      [by injection E |]. injection E as <-. rewrite H3 in Eb. cbn [andb] in E2, Eb. by rewrite E2 in Eb.
  - step_ok H. unfold finish in H. step_ok H. injection H as <-. by apply replace_survives; [by vm_compute |].
Qed.

(** Every earlier install - keep-as-is standalone, compact-64 standalone,
    padded without the waste accounting, or padded behind the old validator -
    is upgraded to the current one in a single run: what is written has the
    padded log and its waste accounting and no old validator, and as long as it
    still carries the marker the next run leaves it alone.  The marker is kept
    on every path but the compact-64 one, which cuts a block out of the file. *)
Theorem legacy_upgrades_settle text t' :
  str_in MARKER text = true -> (str_count v4_old text <= 1)%nat -> drafter_run text = Ok (Some t') ->
  settled t' /\ (str_in MARKER t' = true -> drafter_run t' = Ok None) /\
  (str_in v3_marker text = true \/ str_in v2_compact text = false -> str_in MARKER t' = true).
Proof.
  intros Hm Hc Hr. unfold drafter_run, patch_file in Hr. rewrite Hm in Hr.
  pose proof (marked_settles text t' Hc Hr) as Hs. split; [done |]. split.
  { intros Hm'. destruct Hs as (H4 & H3 & Hw). unfold drafter_run, patch_file, patch_marked, upgrade_padded.
    rewrite Hm', H4, H3, Hw. simpl. by rewrite H3, Hw. }
  intros Hpath. by apply (marked_keeps text).
Qed.
End stack.

(** ** A file with the stock anchors *)

Definition yes (_ : string) : bool := true.

(** What the three patchers look for, each once, in the order of the file. *)
Definition pristine : string :=
  foldr (fun s t => s ++ newline ++ t) ""
    (PatchKvCapacity.REQUIRED_BINDINGS ++ ["def _get_kv_cache_groups_glm5_next"] ++ ["def _pool_bytes_per_block"]
     ++ map (fun e => e.1.2) EDITS ++ map (fun s => s.1.2) PatchKvCapacity.SITES
     ++ ["def _glm5_next_tensor_layout"; "SlidingWindowSpec"; "UniformTypeKVCacheSpecs"])%list.

Lemma pristine_unseen : unseen pristine.
Proof. repeat split; vm_compute; reflexivity. Qed.

Definition written (r : res (option string)) : string := match r with Ok (Some t) => t | _ => "" end.

Lemma pristine_installs : drafter_run yes pristine = Ok (Some (written (drafter_run yes pristine))).
Proof. vm_compute. reflexivity. Qed.

Lemma pristine_boots : is_ok (kv_boot yes pristine) = true.
Proof. vm_compute. reflexivity. Qed.

Lemma kv_stack_settles_witness :
  is_ok (kv_boot yes pristine) = true /\ forall after, kv_boot yes pristine = Ok after -> kv_boot yes after = Ok after.
Proof.
  split; [exact pristine_boots |].
  exact (proj2 (proj2 (kv_stack_settles yes pristine _ pristine_unseen pristine_installs))).
Defined.

(** The install of an earlier image: the old validator and the old boot line. *)
Definition legacy : string := MARKER ++ newline ++ v4_old ++ newline ++ old_padded_log.

Lemma legacy_runs : drafter_run yes legacy = Ok (Some (written (drafter_run yes legacy))).
Proof. vm_compute. reflexivity. Qed.

Lemma legacy_upgrades_settle_witness :
  settled (written (drafter_run yes legacy)) /\ drafter_run yes (written (drafter_run yes legacy)) = Ok None.
Proof.
  destruct (legacy_upgrades_settle yes legacy (written (drafter_run yes legacy))) as (Hs & Hn & Hm);
    [vm_compute; reflexivity | vm_compute; lia | exact legacy_runs |].
  split; [exact Hs |]. apply Hn, Hm. left. vm_compute. reflexivity.
Defined.
