(* ===== verification/Streams.v ===== *)
(** * Streams and events

    Two in-order queues of device work fed by one host program, with events
    that order them: the machine under the shared-experts overlap.  The host
    enqueues; each queue runs its head when it can; nothing else is ordered, so
    a property of every run is a property of every interleaving. *)
From Stdlib Require Import ZArith Lia.
From stdpp Require Import base list relations.
From S2P Require Import Prelude.
Open Scope nat_scope.

Inductive stream := Main | Aux.
#[export] Instance stream_eq_dec : EqDecision stream.
Proof. solve_decision. Defined.

Section machine.
Context {E V : Type} `{EqDecision E}.

(** A kernel reads buffers and writes one.  [Record_ e n] is the [n]-th record
    of event [e]; [Wait e n] waits for the record that was the latest when the
    host issued it, and does not wait when there was none ([n = 0]). *)
Inductive op :=
  | Kernel (reads : list nat) (write : nat) (f : list V -> V)
  | Record_ (e : E) (n : nat)
  | Wait (e : E) (n : nat).

Definition upd {K A} `{EqDecision K} (f : K -> A) (k : K) (a : A) : K -> A := fun k' => if decide (k' = k) then a else f k'.

Record sys := Sys {
  todo : list (stream * op);      (* what the host has not enqueued yet *)
  queue : stream -> list op;
  mem : nat -> V;
  done : E -> nat                 (* the latest record of an event that ran *)
}.

(** Running an operation; [None] is a wait that is not over. *)
Definition run_op (o : op) (m : nat -> V) (d : E -> nat) : option ((nat -> V) * (E -> nat)) :=
  match o with
  | Kernel reads write f => Some (upd m write (f (map m reads)), d)
  | Record_ e n => Some (m, upd d e (Nat.max (d e) n))
  | Wait e n => if n <=? d e then Some (m, d) else None
  end.

Inductive step (s : sys) : sys -> Prop :=
  | step_host st o r : todo s = (st, o) :: r ->
      step s (Sys r (upd (queue s) st (queue s st ++ [o])) (mem s) (done s))
  | step_run st o q m d : queue s st = o :: q -> run_op o (mem s) (done s) = Some (m, d) ->
      step s (Sys (todo s) (upd (queue s) st q) m d).

Definition steps : sys -> sys -> Prop := rtc step.

(** The operations of one stream, in order; what a stream still has to run. *)
Definition ops_of (st : stream) (l : list (stream * op)) : list op :=
  map snd (base.filter (fun p => fst p = st) l).
Definition rest (s : sys) (st : stream) : list op := queue s st ++ ops_of st (todo s).

Lemma upd_eq {K A} `{EqDecision K} (f : K -> A) k a : upd f k a k = a.
Proof. unfold upd. by rewrite decide_True. Qed.
Lemma upd_ne {K A} `{EqDecision K} (f : K -> A) k k' a : k' <> k -> upd f k a k' = f k'.
Proof. intros. unfold upd. by rewrite decide_False. Qed.

Lemma ops_of_app st l k : ops_of st (l ++ k) = ops_of st l ++ ops_of st k.
Proof. unfold ops_of. by rewrite filter_app, map_app. Qed.
Lemma ops_of_cons_eq st o l : ops_of st ((st, o) :: l) = o :: ops_of st l.
Proof. unfold ops_of. by rewrite filter_cons_True. Qed.
Lemma ops_of_cons_ne st st' o l : st' <> st -> ops_of st ((st', o) :: l) = ops_of st l.
Proof. intros. unfold ops_of. by rewrite filter_cons_False. Qed.

(** A step enqueues, and leaves what is to run alone, or runs one head. *)
Lemma step_cases s s' : step s s' ->
  (forall st, rest s' st = rest s st) /\ mem s' = mem s /\ done s' = done s \/
  exists st o, rest s st = o :: rest s' st /\ (forall st', st' <> st -> rest s' st' = rest s st') /\
    run_op o (mem s) (done s) = Some (mem s', done s').
Proof.
  intros [st o r Ht | st o q m d Hq Hr].
  - left. split; [| done]. intros st'. unfold rest. cbn [queue todo]. rewrite Ht. destruct (decide (st' = st)) as [-> | Hne].
    + by rewrite upd_eq, ops_of_cons_eq, <- app_assoc.
    + by rewrite upd_ne, ops_of_cons_ne by congruence.
  - right. exists st, o. unfold rest. cbn [queue todo mem done]. rewrite upd_eq, Hq. split; [done |].
    split; [| done]. intros st' Hne. by rewrite upd_ne by done.
Qed.

(** ** Fork and join *)

Definition writes (b : nat) (o : op) : Prop := match o with Kernel _ w _ => w = b | _ => False end.
(** [o] records [e] at version [n] or later. *)
Definition records (e : E) (n : nat) (o : op) : Prop := match o with Record_ e' k => e' = e /\ n <= k | _ => False end.
Definition spares (P : op -> Prop) (l : list op) : Prop := Forall (fun o => ~ P o) l.

Lemma run_spares_mem b o m d m' d' : run_op o m d = Some (m', d') -> ~ writes b o -> m' b = m b.
Proof.
  destruct o as [rs w f | |]; simpl; [| by intros [= <- _] | destruct (_ <=? _); [by intros [= <- _] | done]].
  intros [= <- _] Hw. by rewrite upd_ne by congruence.
Qed.
Lemma run_spares_done e n o m d m' d' : run_op o m d = Some (m', d') -> ~ records e n o -> d e < n -> d' e < n.
Proof.
  destruct o as [| e' k |]; simpl; [by intros [= _ <-] | | destruct (_ <=? _); [by intros [= _ <-] | done]].
  intros [= _ <-] Hr Hd. destruct (decide (e = e')) as [-> | Hne]; [rewrite upd_eq | by rewrite upd_ne].
  destruct (decide (n <= k)); [by destruct Hr | lia].
Qed.

Section join.
Context (e1 e2 : E) (n1 n2 x out : nat) (f : list V -> V) (P M C A B A' : list op).

(** The two programs: the main stream forks at [Record_ e1 n1] and joins at
    [Wait e2 n2]; the auxiliary stream runs the kernel in between, after other
    work [B]. *)
Definition main_program : list op := Record_ e1 n1 :: M ++ Wait e2 n2 :: C.
Definition aux_program : list op := Wait e1 n1 :: B ++ Kernel [x] out f :: Record_ e2 n2 :: A'.

Hypothesis (He : e1 <> e2).
Hypothesis (HP1 : spares (records e1 n1) P) (HP2 : spares (records e2 n2) P).
Hypothesis (HA1 : spares (records e1 n1) A) (HA2 : spares (records e2 n2) A).
Hypothesis (HB2 : spares (records e2 n2) B) (HBx : spares (writes x) B).
Hypothesis (HAx : spares (writes x) A) (HAo' : spares (writes out) A').
Hypothesis (HM2 : spares (records e2 n2) M) (HMx : spares (writes x) M) (HMo : spares (writes out) M).

Definition forking (s : sys) : Prop :=
  (exists P1 p, P = p ++ P1 /\ rest s Main = P1 ++ main_program) /\
  (exists A1 a, A = a ++ A1 /\ rest s Aux = A1 ++ aux_program) /\
  done s e1 < n1 /\ done s e2 < n2.

(** What the auxiliary stream can be doing while the main one is between fork
    and join; [vx] is the input. *)
Inductive between (vx : V) (s : sys) : Prop :=
  | aux_before A1 a : A = a ++ A1 -> rest s Aux = A1 ++ aux_program -> done s e2 < n2 -> mem s x = vx -> between vx s
  | aux_launch B1 b : B = b ++ B1 -> rest s Aux = B1 ++ Kernel [x] out f :: Record_ e2 n2 :: A' -> done s e2 < n2 -> mem s x = vx ->
      between vx s
  | aux_record : rest s Aux = Record_ e2 n2 :: A' -> done s e2 < n2 -> mem s out = f [vx] -> between vx s
  | aux_after A1 a : A' = a ++ A1 -> rest s Aux = A1 -> mem s out = f [vx] -> between vx s.

Inductive joining (vx : V) (s : sys) : Prop :=
  | at_fork : rest s Main = main_program -> forking s -> mem s x = vx -> joining vx s
  | in_between M1 m : M = m ++ M1 -> rest s Main = M1 ++ Wait e2 n2 :: C -> between vx s -> joining vx s
  | at_join A1 a : rest s Main = C -> A' = a ++ A1 -> rest s Aux = A1 -> mem s out = f [vx] -> joining vx s
  | past_join : length (rest s Main) < length C -> joining vx s.

Lemma spares_at Q l k o r : spares Q l -> l = k ++ o :: r -> ~ Q o.
Proof. intros H ->. unfold spares in H. apply Forall_app in H as [_ H]. by apply Forall_cons in H as [H _]. Qed.

Lemma shift {T} (l a r : list T) o : l = a ++ o :: r -> l = (a ++ [o]) ++ r.
Proof. intros ->. by rewrite <- app_assoc. Qed.

(** Before the fork only [P] and [A] run. *)
Lemma forking_step s s' : step s s' -> forking s ->
  forking s' \/ (rest s Main = main_program /\ rest s' Main = M ++ Wait e2 n2 :: C) /\ joining (mem s x) s'.
Proof.
  intros Hstep ((P1 & p & EP & Hm) & (A1 & a & EA & Ha) & H1 & H2).
  destruct (step_cases s s' Hstep) as [(Hrest & Hmem & Hdone) | (st & o & Hst & Hother & Hrun)].
  { left. repeat split; [exists P1, p; by rewrite Hrest | exists A1, a; by rewrite Hrest | by rewrite Hdone..]. }
  destruct st.
  - assert (rest s' Aux = rest s Aux) as Eaux by (by apply Hother). rewrite Hm in Hst.
    destruct P1 as [|o' P1]; injection Hst as <- Hm'.
    + right. split; [done |]. simpl in Hrun. injection Hrun as Hmem Hdone.
      apply (in_between _ _ M []); [done | done |]. apply (aux_before _ _ A1 a); [done | by rewrite Eaux | | by rewrite <- Hmem].
      rewrite <- Hdone. by rewrite upd_ne by congruence.
    + left. repeat split; [exists P1, (p ++ [o']); split; [by apply shift | done] | exists A1, a; by rewrite Eaux | |].
      * eapply run_spares_done; [exact Hrun | exact (spares_at _ _ _ _ _ HP1 EP) | done].
      * eapply run_spares_done; [exact Hrun | exact (spares_at _ _ _ _ _ HP2 EP) | done].
  - assert (rest s' Main = rest s Main) as Emain by (by apply Hother). rewrite Ha in Hst.
    destruct A1 as [|o' A1]; injection Hst as <- Ha'.
    + simpl in Hrun. rewrite (proj2 (Nat.leb_gt n1 (done s e1))) in Hrun by done. done.
    + left. repeat split; [exists P1, p; by rewrite Emain | exists A1, (a ++ [o']); split; [by apply shift | done] | |].
      * eapply run_spares_done; [exact Hrun | exact (spares_at _ _ _ _ _ HA1 EA) | done].
      * eapply run_spares_done; [exact Hrun | exact (spares_at _ _ _ _ _ HA2 EA) | done].
Qed.

(** At the fork the input stays what it is. *)
Lemma fork_step s s' : step s s' -> forking s -> rest s Main = main_program -> joining (mem s x) s'.
Proof.
  intros Hstep Hf Hm. destruct (forking_step s s' Hstep Hf) as [Hf' | [_ ?]]; [| done].
  destruct (step_cases s s' Hstep) as [(Hrest & Hmem & _) | (st & o & Hst & Hother & Hrun)].
  { apply at_fork; [by rewrite Hrest | done | by rewrite Hmem]. }
  destruct st.
  - exfalso. rewrite Hm in Hst. injection Hst as <- Hm'. destruct Hf' as ((P1 & p & _ & Hm2) & _).
    rewrite <- Hm' in Hm2. apply (f_equal length) in Hm2. unfold main_program in Hm2. rewrite !length_app in Hm2. simpl in Hm2.
    rewrite length_app in Hm2. simpl in Hm2. lia.
  - apply at_fork; [by rewrite Hother | done |]. destruct Hf as (_ & (A1 & a & EA & Ha) & H1 & _). rewrite Ha in Hst.
    destruct A1 as [|o' A1]; injection Hst as <- Ha'.
    + simpl in Hrun. by rewrite (proj2 (Nat.leb_gt n1 (done s e1))) in Hrun by done.
    + exact (run_spares_mem x _ _ _ _ _ Hrun (spares_at _ _ _ _ _ HAx EA)).
Qed.

(** Between fork and join, one step of the auxiliary stream. *)
Lemma between_aux vx s s' o : rest s Aux = o :: rest s' Aux -> run_op o (mem s) (done s) = Some (mem s', done s') ->
  between vx s -> between vx s'.
Proof.
  intros Hst Hrun [A1 a EA Ha H2 Hx | B1 b EB Ha H2 Hx | Ha H2 Ho | A1 a EA Ha Ho]; rewrite Ha in Hst.
  - destruct A1 as [|o' A1]; injection Hst as <- Ha'.
    + simpl in Hrun. destruct (_ <=? _); [| done]. injection Hrun as Hmem Hdone.
      apply (aux_launch _ _ B []); [done | done | by rewrite <- Hdone | by rewrite <- Hmem].
    + apply (aux_before _ _ A1 (a ++ [o'])); [by apply shift | done | |].
      * eapply run_spares_done; [exact Hrun | exact (spares_at _ _ _ _ _ HA2 EA) | done].
      * rewrite <- Hx. exact (run_spares_mem x _ _ _ _ _ Hrun (spares_at _ _ _ _ _ HAx EA)).
  - destruct B1 as [|o' B1]; injection Hst as <- Ha'.
    + simpl in Hrun. injection Hrun as Hmem Hdone.
      apply aux_record; [done | by rewrite <- Hdone |]. by rewrite <- Hmem, upd_eq, Hx.
    + apply (aux_launch _ _ B1 (b ++ [o'])); [by apply shift | done | |].
      * eapply run_spares_done; [exact Hrun | exact (spares_at _ _ _ _ _ HB2 EB) | done].
      * rewrite <- Hx. exact (run_spares_mem x _ _ _ _ _ Hrun (spares_at _ _ _ _ _ HBx EB)).
  - injection Hst as <- Ha'. simpl in Hrun. injection Hrun as Hmem Hdone.
    apply (aux_after _ _ A' []); [done | done | by rewrite <- Hmem].
  - destruct A1 as [|o' A1]; [done |]. injection Hst as <- Ha'.
    apply (aux_after _ _ A1 (a ++ [o'])); [by apply shift | done |]. rewrite <- Ho.
    exact (run_spares_mem out _ _ _ _ _ Hrun (spares_at _ _ _ _ _ HAo' EA)).
Qed.

Lemma between_main vx s s' o m M1 : M = m ++ o :: M1 -> rest s' Aux = rest s Aux ->
  run_op o (mem s) (done s) = Some (mem s', done s') -> between vx s -> between vx s'.
Proof.
  intros EM Eaux Hrun Hb.
  assert (mem s' x = mem s x) as Ex by exact (run_spares_mem x _ _ _ _ _ Hrun (spares_at _ _ _ _ _ HMx EM)).
  assert (mem s' out = mem s out) as Eo by exact (run_spares_mem out _ _ _ _ _ Hrun (spares_at _ _ _ _ _ HMo EM)).
  assert (done s e2 < n2 -> done s' e2 < n2) as Hd
    by exact (run_spares_done e2 n2 _ _ _ _ _ Hrun (spares_at _ _ _ _ _ HM2 EM)).
  destruct Hb as [A1 a EA Ha H2 Hx | B1 b EB Ha H2 Hx | Ha H2 Ho | A1 a EA Ha Ho];
    [eapply aux_before | eapply aux_launch | eapply aux_record | eapply aux_after]; rewrite ?Eaux, ?Ex, ?Eo; eauto.
Qed.

Lemma joining_step vx s s' : step s s' -> joining vx s -> joining vx s'.
Proof.
  intros Hstep Hj. destruct Hj as [Hm Hf <- | M1 m EM Hm Hb | A1 a Hm EA Ha Ho | Hlen].
  - by apply fork_step.
  - destruct (step_cases s s' Hstep) as [(Hrest & Hmem & Hdone) | (st & o & Hst & Hother & Hrun)].
    { apply (in_between _ _ M1 m); [done | by rewrite Hrest |].
      destruct Hb; [eapply aux_before | eapply aux_launch | eapply aux_record | eapply aux_after];
        rewrite ?Hrest, ?Hmem, ?Hdone; eauto. }
    destruct st.
    + assert (rest s' Aux = rest s Aux) as Eaux by (by apply Hother). rewrite Hm in Hst.
      destruct M1 as [|o' M1]; injection Hst as <- Hm'.
      * simpl in Hrun. destruct (Nat.leb_spec n2 (done s e2)) as [Hle |]; [| done]. injection Hrun as Hmem Hdone.
        destruct Hb as [? ? ? ? H2 | ? ? ? ? H2 | ? H2 | A1 a EA Ha Ho]; [lia.. |].
        apply (at_join _ _ A1 a); [done | done | by rewrite Eaux | by rewrite <- Hmem].
      * apply (in_between _ _ M1 (m ++ [o'])); [by apply shift | done |]. by eapply between_main.
    + apply (in_between _ _ M1 m); [done | by rewrite Hother |]. by eapply between_aux.
  - destruct (step_cases s s' Hstep) as [(Hrest & Hmem & Hdone) | (st & o & Hst & Hother & Hrun)].
    { apply (at_join _ _ A1 a); [by rewrite Hrest | done | by rewrite Hrest | by rewrite Hmem]. }
    destruct st.
    + apply past_join. rewrite Hm in Hst. rewrite Hst. simpl. lia.
    + rewrite Ha in Hst. destruct A1 as [|o' A1]; [done |]. injection Hst as <- Ha'.
      apply (at_join _ _ A1 (a ++ [o'])); [by rewrite Hother | by apply shift | done |]. rewrite <- Ho.
      exact (run_spares_mem out _ _ _ _ _ Hrun (spares_at _ _ _ _ _ HAo' EA)).
  - apply past_join. destruct (step_cases s s' Hstep) as [(Hrest & _) | (st & o & Hst & Hother & _)]; [by rewrite Hrest |].
    destruct st; [rewrite Hst in Hlen; simpl in Hlen; lia | by rewrite Hother].
Qed.

Lemma rest_shrinks s s' st : steps s s' -> length (rest s' st) <= length (rest s st).
Proof.
  induction 1 as [| s s' s'' Hstep _ IH]; [done |]. etrans; [exact IH |].
  destruct (step_cases s s' Hstep) as [(Hr & _) | (st' & o & Hst & Hother & _)]; [by rewrite Hr |].
  destruct (decide (st' = st)) as [-> | Hne]; [rewrite Hst; simpl; lia | by rewrite Hother by congruence].
Qed.

(** Whatever the interleaving, when the main stream is past the join the output
    holds the kernel of what the input held at the fork. *)
Lemma join_reads s0 s1 s2 : forking s0 -> steps s0 s1 -> rest s1 Main = main_program -> steps s1 s2 -> rest s2 Main = C ->
  mem s2 out = f [mem s1 x].
Proof.
  intros H0 H01 Hm H12 HC.
  assert (forking s1) as H1.
  { revert Hm. clear -H0 H01 He HP1 HP2 HA1 HA2. revert H0. induction H01 as [s | s s' s'' Hstep Hrest IH]; intros H0 Hm; [done |].
    apply IH; [| done]. destruct (forking_step s s' Hstep H0) as [? | [[_ Hfork] _]]; [done |]. exfalso.
    pose proof (rest_shrinks s' s'' Main Hrest) as Hlen. rewrite Hm, Hfork in Hlen. unfold main_program in Hlen.
    simpl in Hlen. lia. }
  assert (joining (mem s1 x) s2) as Hj.
  { assert (joining (mem s1 x) s1) as Hj by by apply at_fork. revert Hj. generalize (mem s1 x). clear -H12 He HA1 HA2 HB2 HBx HAx HAo' HM2 HMx HMo HP1 HP2.
    induction H12 as [| s s' s'' Hstep _ IH]; intros vx Hj; [done |]. apply IH. by eapply joining_step. }
  destruct Hj as [Hm2 _ _ | M1 m _ Hm2 _ | A1 a _ _ _ Ho | Hlen].
  - exfalso. rewrite HC in Hm2. apply (f_equal length) in Hm2. unfold main_program in Hm2. rewrite length_cons, length_app in Hm2. simpl in Hm2. lia.
  - exfalso. rewrite HC in Hm2. apply (f_equal length) in Hm2. rewrite length_app in Hm2. simpl in Hm2. lia.
  - done.
  - rewrite HC in Hlen. lia.
Qed.
End join.

(** ** Progress *)

(** Every wait of a program in host order is for a record that ran or that the
    host issued earlier. *)
Definition causal (d : E -> nat) (l : list (stream * op)) : Prop :=
  forall pre st e n post, l = pre ++ (st, Wait e n) :: post -> n <= d e \/ exists st' k, n <= k /\ (st', Record_ e k) ∈ pre.

(** What remains, in host order. *)
Definition remains (s : sys) (l : list (stream * op)) : Prop :=
  (exists l0, l = l0 ++ todo s) /\ (forall st, rest s st = ops_of st l) /\ causal (done s) l.

(** The first operation of a stream in host order. *)
Lemma first_of st o r l : ops_of st l = o :: r ->
  exists l1 l2, l = l1 ++ (st, o) :: l2 /\ ops_of st l1 = [] /\ ops_of st l2 = r.
Proof.
  induction l as [|[st' o'] l IH]; [done |]. destruct (decide (st' = st)) as [-> | Hne].
  - rewrite ops_of_cons_eq. intros [= -> <-]. by exists [], l.
  - rewrite ops_of_cons_ne by done. intros H. destruct (IH H) as (l1 & l2 & -> & H1 & H2).
    exists ((st', o') :: l1), l2. by rewrite ops_of_cons_ne.
Qed.

Lemma run_done_grows o m d m' d' e : run_op o m d = Some (m', d') -> d e <= d' e.
Proof.
  destruct o as [| e' n |]; simpl; [by intros [= _ <-] | | destruct (_ <=? _); [by intros [= _ <-] | done]].
  intros [= _ <-]. destruct (decide (e = e')) as [-> |]; [rewrite upd_eq; lia | by rewrite upd_ne].
Qed.

Lemma causal_run d d' l1 st o l2 m m' : causal d (l1 ++ (st, o) :: l2) -> run_op o m d = Some (m', d') -> causal d' (l1 ++ l2).
Proof.
  intros Hc Hrun pre st' e n post E1.
  assert (forall k, n <= k -> o = Record_ e k -> n <= d' e) as Hrec.
  { intros k Hk ->. simpl in Hrun. injection Hrun as _ <-. rewrite upd_eq. lia. }
  pose proof (run_done_grows _ _ _ _ _ e Hrun) as Hgrow.
  assert ((exists k, l1 = pre ++ (st', Wait e n) :: k /\ post = k ++ l2) \/ (exists k, pre = l1 ++ k /\ l2 = k ++ (st', Wait e n) :: post))
    as [(k & -> & ->) | (k & -> & ->)].
  { clear -E1. revert pre E1. induction l1 as [|p l1 IH]; intros pre E1; [right; by exists pre |].
    destruct pre as [|q pre]; injection E1 as -> E1; [left; by exists l1 |].
    destruct (IH pre E1) as [(k & -> & ->) | (k & -> & ->)]; [left | right]; by exists k. }
  - destruct (Hc pre st' e n (k ++ (st, o) :: l2)) as [Hd | Hd]; [by rewrite <- app_assoc | left; lia | by right].
  - destruct (Hc (l1 ++ (st, o) :: k) st' e n post) as [Hd | (st'' & k' & Hk & Hin)]; [by rewrite <- app_assoc | left; lia |].
    apply elem_of_app in Hin as [Hin | [Hin | Hin]%elem_of_cons].
    + right. exists st'', k'. split; [done |]. apply elem_of_app. by left.
    + left. injection Hin as -> <-. by apply (Hrec k').
    + right. exists st'', k'. split; [done |]. apply elem_of_app. by right.
Qed.

Lemma remains_step s s' l : step s s' -> remains s l -> exists l', remains s' l'.
Proof.
  intros Hstep ((l0 & El) & Hrest & Hc). destruct Hstep as [st o r Ht | st o q m d Hq Hrun].
  - exists l. split; [| split; [| done]].
    + exists (l0 ++ [(st, o)]). by rewrite El, Ht, <- app_assoc.
    + intros st'. rewrite <- Hrest. unfold rest. cbn [queue todo]. rewrite Ht. destruct (decide (st' = st)) as [-> | Hne].
      * by rewrite upd_eq, ops_of_cons_eq, <- app_assoc.
      * by rewrite upd_ne, ops_of_cons_ne by congruence.
  - assert (forall st', queue s st' = ops_of st' l0) as Hl0.
    { intros st'. specialize (Hrest st'). unfold rest in Hrest. rewrite El, ops_of_app in Hrest. by apply app_inv_tail in Hrest. }
    pose proof (Hl0 st) as Hst. rewrite Hq in Hst. destruct (first_of st o q l0 (eq_sym Hst)) as (l1 & l2 & -> & H1 & H2).
    exists ((l1 ++ l2) ++ todo s). split; [by eexists |]. split.
    + intros st'. unfold rest. cbn [queue todo]. rewrite ops_of_app. f_equal. destruct (decide (st' = st)) as [-> | Hne].
      * by rewrite upd_eq, ops_of_app, H1.
      * by rewrite upd_ne, Hl0, !ops_of_app, ops_of_cons_ne by congruence.
    + cbn [done]. rewrite <- app_assoc. apply (causal_run (done s) d l1 st o (l2 ++ todo s) (mem s) m); [| done].
      rewrite El, <- app_assoc in Hc. exact Hc.
Qed.

Lemma remains_progress s l : remains s l -> l = [] \/ exists s', step s s'.
Proof.
  intros ((l0 & El) & Hrest & Hc). destruct l as [|[st o] l]; [by left | right].
  destruct l0 as [|p l0]; simpl in El.
  { eexists. by apply (step_host s st o l). }
  injection El as <- El.
  assert (exists q, queue s st = o :: q) as [q Hq].
  { specialize (Hrest st). unfold rest in Hrest. rewrite El, app_comm_cons, ops_of_app in Hrest.
    apply app_inv_tail in Hrest. rewrite ops_of_cons_eq in Hrest. by eexists. }
  assert (exists md, run_op o (mem s) (done s) = Some md) as [[m d] Hrun].
  { destruct o as [| | e n]; simpl; [by eexists.. |]. destruct (Hc [] st e n l eq_refl) as [Hd | (st' & k & _ & Hin)].
    - rewrite (proj2 (Nat.leb_le _ _)) by done. by eexists.
    - by apply elem_of_nil in Hin. }
  eexists. by apply (step_run s st o q m d).
Qed.

(** The work left: enqueuing and running. *)
Definition work (s : sys) : nat := 2 * length (todo s) + length (queue s Main) + length (queue s Aux).

Lemma step_work s s' : step s s' -> S (work s') = work s.
Proof.
  unfold work. intros [st o r Ht | st o q m d Hq Hrun]; cbn [queue todo].
  - rewrite Ht. destruct st; rewrite upd_eq, upd_ne, length_app by done; simpl; lia.
  - destruct st; rewrite upd_eq, upd_ne, Hq by done; simpl; lia.
Qed.

(** A host program whose waits are causal never hangs and always drains: every
    run ends, after as many steps as there is work, with both streams empty. *)
Lemma causal_drains s l : remains s l ->
  (forall n s', nsteps step n s s' -> n <= work s) /\
  (forall s', steps s s' -> (forall s'', ~ step s' s'') -> todo s' = [] /\ queue s' Main = [] /\ queue s' Aux = []).
Proof.
  intros Hr. split.
  - intros n s' Hn. clear Hr. induction Hn as [| n s s' s'' Hstep _ IH]; [lia |]. pose proof (step_work _ _ Hstep). lia.
  - intros s' Hs Hend. assert (exists l', remains s' l') as [l' Hr'].
    { clear Hend. revert l Hr. induction Hs as [| s s' s'' Hstep _ IH]; intros l Hr; [by eexists |].
      destruct (remains_step _ _ _ Hstep Hr) as [l' Hr']. by eapply IH. }
    destruct (remains_progress s' l' Hr') as [-> | [s'' Hs'']]; [| by destruct (Hend s'')].
    destruct Hr' as ((l0 & El) & Hrest & _). symmetry in El. apply app_eq_nil in El as [_ Ht].
    pose proof (Hrest Main) as HM. pose proof (Hrest Aux) as HA. unfold rest in *. rewrite Ht in *. simpl in *.
    by apply app_eq_nil in HM as [-> _], HA as [-> _].
Qed.
End machine.
