(* ===== verification/SharedExperts.v ===== *)
(** * Early launch of the shared experts

    The [SharedExperts] module of the MoE runner
    ([tests/fixtures/shared-experts-487ecf187/shared_experts.py]) and what
    [overlay/patch_shared_experts_overlap.py] makes of it: the layer is put on
    the auxiliary stream before the gate and the routed experts instead of
    after them.  The device is the machine of [Streams]. *)
From Stdlib Require Import ZArith Lia String.
From stdpp Require Import base list relations.
From S2P Require Import Prelude Streams.
Open Scope nat_scope.

(** ** The host's state *)

(** [SharedExpertsOrder]. *)
Inductive SharedExpertsOrder := NONE | NO_OVERLAP | MK_INTERNAL_OVERLAPPED | MULTI_STREAM_OVERLAPPED.
#[export] Instance order_eq_dec : EqDecision SharedExpertsOrder.
Proof. solve_decision. Defined.

(** The two event pairs of the patch, and the event [wait_stream] records. *)
Inductive event := InputReady (i : nat) | OutputReady (i : nat) | Anonymous (k : nat).
#[export] Instance event_eq_dec : EqDecision event.
Proof. solve_decision. Defined.

(** What the module was built with and what it asks its collaborators. *)
Record config := Config {
  enable_dbo : bool;
  has_stream : bool;                      (* [self._stream is not None] *)
  shard_sequence_parallel : bool;
  enable_eplb : bool;
  all2all_backend : string;
  use_fi_nvl_two_sided_kernels : bool;
  mk_can_overlap_shared_experts : bool;
  is_cuda : bool;
  stream_token_threshold : Z              (* [VLLM_SHARED_EXPERTS_STREAM_TOKEN_THRESHOLD] *)
}.

(** A tensor: where it is and how many rows it has. *)
Record tensor := Tensor { buffer : nat; rows : Z }.

Section host.
Context {V : Type} (layer : list V -> V) (cfg : config).

Notation op := (@op event V).

Record host := Host {
  output_slots : list (option nat);       (* [self._output] *)
  early_pending : list bool;              (* [self._early_pending] *)
  recorded : event -> nat;                (* records issued so far *)
  anonymous : nat;
  next_buffer : nat;
  trace : list (stream * op)              (* everything enqueued so far *)
}.

(** The host's actions: a value and a new state, or an exception. *)
Definition act (A : Type) := host -> res (A * host).
#[local] Instance act_ret : MRet act := fun A a h => Ok (a, h).
#[local] Instance act_bind : MBind act := fun A B k m h => match m h with Ok (a, h') => k a h' | Raise e => Raise e end.

Definition assert_ (c : bool) : act unit := fun h => if c then Ok (tt, h) else Raise AssertionError.
Definition index {A} (l : list A) (i : nat) : act A := fun h =>
  match l !! i with Some a => Ok (a, h) | None => Raise IndexError end.
Definition get : act host := fun h => Ok (h, h).

(** *** torch's calls *)

Definition enqueue (st : stream) (o : op) : act unit := fun h =>
  Ok (tt, Host (output_slots h) (early_pending h) (recorded h) (anonymous h) (next_buffer h) (trace h ++ [(st, o)])).

(** [event.record(stream)] and [event.wait(stream)]. *)
Definition record (e : event) (st : stream) : act unit := fun h =>
  let n := S (recorded h e) in
  enqueue st (Record_ e n) (Host (output_slots h) (early_pending h) (upd (recorded h) e n) (anonymous h) (next_buffer h) (trace h)).
Definition wait (e : event) (st : stream) : act unit := fun h => enqueue st (Wait e (recorded h e)) h.

(** [stream.wait_stream(other)]: a new event, recorded there and waited for here. *)
Definition wait_stream (st other : stream) : act unit :=
  h ← get;
  let e := Anonymous (anonymous h) in
  _ ← (fun h => Ok (tt, Host (output_slots h) (early_pending h) (recorded h) (S (anonymous h)) (next_buffer h) (trace h)));
  _ ← record e other;
  wait e st.

(** [self._layer(x)] on the current stream: a kernel into a new tensor. *)
Definition run_layer (x : tensor) (st : stream) : act nat := fun h =>
  let out := next_buffer h in
  match enqueue st (Kernel [buffer x] out layer)
          (Host (output_slots h) (early_pending h) (recorded h) (anonymous h) (S out) (trace h)) with
  | Ok (_, h') => Ok (out, h')
  | Raise e => Raise e
  end.

Definition set_slot (i : nat) (v : option nat) : act unit := fun h =>
  Ok (tt, Host (<[i := v]> (output_slots h)) (early_pending h) (recorded h) (anonymous h) (next_buffer h) (trace h)).
Definition set_pending (i : nat) (v : bool) : act unit := fun h =>
  Ok (tt, Host (output_slots h) (<[i := v]> (early_pending h)) (recorded h) (anonymous h) (next_buffer h) (trace h)).
Definition slot (i : nat) : act (option nat) := h ← get; index (output_slots h) i.

(** *** SharedExperts *)

Definition _disable_shared_experts_overlap : bool :=
  if shard_sequence_parallel cfg then true
  else (enable_eplb cfg
        && negb (existsb (String.eqb (all2all_backend cfg)) ["allgather_reducescatter"; "flashinfer_nvlink_one_sided"]%string))
       || use_fi_nvl_two_sided_kernels cfg.

Definition _determine_shared_experts_order (hidden_states : tensor) : SharedExpertsOrder :=
  if _disable_shared_experts_overlap then NO_OVERLAP
  else if mk_can_overlap_shared_experts cfg then MK_INTERNAL_OVERLAPPED
  else if is_cuda cfg && has_stream cfg && (rows hidden_states <=? stream_token_threshold cfg)%Z
  then MULTI_STREAM_OVERLAPPED else NO_OVERLAP.

(** [dbo_current_ubatch_id() if self.enable_dbo else 0]. *)
Definition _output_idx (ubatch : nat) : nat := if enable_dbo cfg then ubatch else 0.

Definition is_multi (o : SharedExpertsOrder) : bool := bool_decide (o = MULTI_STREAM_OVERLAPPED).

Definition stock_sync (x : tensor) : act unit :=
  if is_multi (_determine_shared_experts_order x) then
    _ ← assert_ (has_stream cfg);
    wait_stream Aux Main
  else mret tt.

Definition _run_in_aux_stream (x : tensor) : act nat :=
  output ← run_layer x Aux;
  _ ← wait_stream Main Aux;
  mret output.

Definition output (ubatch : nat) : act nat :=
  let i := _output_idx ubatch in
  o ← slot i;
  match o with
  | None => fun _ => Raise AssertionError
  | Some b => _ ← set_slot i None; mret b
  end.

(** The part of [forward] the patch keeps. *)
Definition run_forward (ubatch : nat) (x : tensor) (order : SharedExpertsOrder) : act unit :=
  let i := _output_idx ubatch in
  o ← slot i;
  _ ← assert_ (bool_decide (o = None));
  b ← (if is_multi order then _run_in_aux_stream x else run_layer x Main);
  set_slot i (Some b).

Definition stock_forward (ubatch : nat) (x : tensor) (order : SharedExpertsOrder) : act unit :=
  if bool_decide (order = _determine_shared_experts_order x) then run_forward ubatch x order else mret tt.

(** *** The patched methods *)

Definition early_sync (ubatch : nat) (x : tensor) : act unit :=
  if is_multi (_determine_shared_experts_order x) then
    _ ← assert_ (has_stream cfg);
    let i := _output_idx ubatch in
    o ← slot i;
    _ ← assert_ (bool_decide (o = None));
    _ ← record (InputReady i) Main;
    _ ← wait (InputReady i) Aux;
    b ← run_layer x Aux;
    _ ← set_slot i (Some b);
    _ ← record (OutputReady i) Aux;
    set_pending i true
  else mret tt.

Definition early_forward (ubatch : nat) (x : tensor) (order : SharedExpertsOrder) : act unit :=
  if bool_decide (order = _determine_shared_experts_order x) then
    let i := _output_idx ubatch in
    h ← get;
    p ← index (early_pending h) i;
    if p : bool then
      _ ← set_pending i false;
      _ ← wait (OutputReady i) Main;
      o ← slot i;
      assert_ (negb (bool_decide (o = None)))
    else run_forward ubatch x order
  else mret tt.

(** ** What the runner calls *)

Inductive variant := Stock | Early.
(** The module's methods, and other work the runner puts on the main stream. *)
Inductive call :=
  | Sync (x : tensor)
  | MainWork (reads : list nat) (write : nat) (f : list V -> V)
  | Forward (x : tensor) (order : SharedExpertsOrder)
  | Output.

(** A call, by a ubatch; only [Output] returns something. *)
Definition run_call (v : variant) (ubatch : nat) (c : call) : act (option nat) :=
  match c with
  | Sync x => _ ← (match v with Stock => stock_sync x | Early => early_sync ubatch x end); mret None
  | MainWork r w f => _ ← enqueue Main (Kernel r w f); mret None
  | Forward x order => _ ← (match v with Stock => stock_forward ubatch x order | Early => early_forward ubatch x order end); mret None
  | Output => b ← output ubatch; mret (Some b)
  end.

Fixpoint run_calls (v : variant) (l : list (nat * call)) : act (list (option nat)) :=
  match l with
  | [] => mret []
  | (u, c) :: l => r ← run_call v u c; rs ← run_calls v l; mret (r :: rs)
  end.

(** ** Frames: what other work leaves alone *)

(** [i]'s slot, flag and events, the buffers below [bound] but [keep], and older
    anonymous events are not touched. *)
Section frame.
Context (i bound keep : nat).

Definition op_within (h h' : host) (p : stream * op) : Prop :=
  match snd p with
  | Kernel _ w _ => w < bound /\ w <> keep \/ next_buffer h <= w < next_buffer h'
  | Record_ (InputReady j) _ | Record_ (OutputReady j) _ => j <> i
  | Record_ (Anonymous k) _ => anonymous h <= k < anonymous h'
  | Wait _ _ => True
  end.

Record frame (h h' : host) : Prop := {
  frame_anonymous : anonymous h <= anonymous h';
  frame_buffer : next_buffer h <= next_buffer h';
  frame_slot : output_slots h' !! i = output_slots h !! i;
  frame_pending : early_pending h' !! i = early_pending h !! i;
  frame_input : recorded h' (InputReady i) = recorded h (InputReady i);
  frame_output : recorded h' (OutputReady i) = recorded h (OutputReady i);
  frame_recorded e : recorded h e <= recorded h' e;
  frame_trace : exists T, trace h' = trace h ++ T /\ Forall (op_within h h') T
}.

Lemma op_within_weaken h0 h h' h1 p : anonymous h0 <= anonymous h -> next_buffer h0 <= next_buffer h ->
  anonymous h' <= anonymous h1 -> next_buffer h' <= next_buffer h1 -> op_within h h' p -> op_within h0 h1 p.
Proof. unfold op_within. destruct (snd p) as [? w ? | [j | j | k] n | ? ?]; intros; try done; [| lia]. destruct H3; [by left | right; lia]. Qed.

Lemma frame_refl h : frame h h.
Proof. split; try done. exists []. by rewrite app_nil_r. Qed.

Lemma frame_trans h h' h'' : frame h h' -> frame h' h'' -> frame h h''.
Proof.
  intros [A1 B1 S1 P1 I1 O1 R1 (T1 & E1 & F1)] [A2 B2 S2 P2 I2 O2 R2 (T2 & E2 & F2)].
  split; [lia | lia | congruence | congruence | congruence | congruence | intros e; specialize (R1 e); specialize (R2 e); lia |].
  - exists (T1 ++ T2). split; [by rewrite E2, E1, app_assoc |]. apply Forall_app. split.
    + eapply Forall_impl; [exact F1 |]. intros p. apply op_within_weaken; lia.
    + eapply Forall_impl; [exact F2 |]. intros p. apply op_within_weaken; lia.
Qed.

Definition framed {A} (m : act A) : Prop := forall h a h', m h = Ok (a, h') -> frame h h'.

Lemma framed_ret {A} (a : A) : framed (mret a).
Proof. intros h b h' [= _ <-]. apply frame_refl. Qed.
Lemma framed_bind {A B} (m : act A) (k : A -> act B) : framed m -> (forall a, framed (k a)) -> framed (m ≫= k).
Proof.
  intros Hm Hk h b h'. unfold mbind, act_bind. destruct (m h) as [[a h1] |] eqn:E; [| done].
  intros E2. eapply frame_trans; [by eapply Hm | by eapply Hk].
Qed.
Lemma framed_assert c : framed (assert_ c).
Proof. intros h a h'. unfold assert_. destruct c; [intros [= _ <-]; apply frame_refl | done]. Qed.
Lemma framed_index {A} (l : list A) j : framed (index l j).
Proof. intros h a h'. unfold index. destruct (l !! j); [intros [= _ <-]; apply frame_refl | done]. Qed.
Lemma framed_get : framed get.
Proof. intros h a h' [= _ <-]. apply frame_refl. Qed.
Lemma framed_slot j : framed (slot j).
Proof. apply framed_bind; [apply framed_get | intros; apply framed_index]. Qed.

Ltac frame_one T := split; cbn; try done; try lia; try (by rewrite list_lookup_insert_ne by done); try (by rewrite upd_ne by congruence);
  [.. | exists T; rewrite ?app_nil_r; split; [done |]].

Lemma framed_wait e st : framed (wait e st).
Proof. intros h a h' [= _ <-]. frame_one [(st, @Wait event V e (recorded h e))]. by repeat constructor. Qed.
Lemma framed_work r w f : w < bound -> w <> keep -> framed (enqueue Main (Kernel r w f)).
Proof. intros Hw Hk h a h' [= _ <-]. frame_one [(Main, @Kernel event V r w f)]. apply Forall_singleton. by left. Qed.
Lemma framed_layer x st : framed (run_layer x st).
Proof.
  intros h a h' [= _ <-]. frame_one [(st, @Kernel event V [buffer x] (next_buffer h) layer)]. apply Forall_singleton. right. cbn. lia.
Qed.
Lemma framed_set_slot j v : j <> i -> framed (set_slot j v).
Proof. intros Hj h a h' [= _ <-]. frame_one (@nil (stream * op)). constructor. Qed.
Lemma framed_set_pending j v : j <> i -> framed (set_pending j v).
Proof. intros Hj h a h' [= _ <-]. frame_one (@nil (stream * op)). constructor. Qed.
Lemma framed_record j st e : j <> i -> e = InputReady j \/ e = OutputReady j -> framed (record e st).
Proof.
  intros Hj He h a h' [= _ <-].
  assert (forall e', recorded h e' <= upd (recorded h) e (S (recorded h e)) e') as Hup.
  { intros e'. destruct (decide (e' = e)) as [-> |]; [rewrite upd_eq; lia | by rewrite upd_ne]. }
  frame_one [(st, @Record_ event V e (S (recorded h e)))]; destruct He as [-> | ->];
    first [by rewrite upd_ne by congruence | by apply Forall_singleton].
Qed.

Lemma wait_stream_run st other h : wait_stream st other h =
  Ok (tt, let e := Anonymous (anonymous h) in let n := S (recorded h e) in
    Host (output_slots h) (early_pending h) (upd (recorded h) e n) (S (anonymous h)) (next_buffer h)
      (trace h ++ [(other, Record_ e n); (st, Wait e n)])).
Proof. unfold wait_stream, wait, record, enqueue, mbind, act_bind, get. cbn. by rewrite upd_eq, <- app_assoc. Qed.

Lemma framed_wait_stream st other : framed (wait_stream st other).
Proof.
  intros h a h'. rewrite wait_stream_run. intros [= _ <-].
  split; cbn; try done; try lia.
  - intros e. destruct (decide (e = Anonymous (anonymous h))) as [-> |]; [rewrite upd_eq; lia | by rewrite upd_ne].
  - eexists. split; [reflexivity |]. repeat constructor; cbn; lia.
Qed.

(** What a call in the middle of a pass may be: any call of the other ubatch's
    slot, main-stream work that leaves the input alone, or a [forward] for
    another order, which does nothing. *)
Definition mid_ok (c : nat * call) : Prop :=
  match snd c with
  | MainWork _ w _ => w < bound /\ w <> keep
  | Forward y order => order <> _determine_shared_experts_order y \/ _output_idx (fst c) <> i
  | _ => _output_idx (fst c) <> i
  end.

#[local] Hint Resolve framed_ret framed_assert framed_index framed_get framed_slot framed_wait framed_layer
  framed_set_slot framed_set_pending framed_wait_stream : frames.
#[local] Hint Extern 1 (framed (record _ _)) => eapply framed_record; [eassumption | by auto] : frames.
Ltac frames := repeat (lazymatch goal with |- framed (_ ≫= _) => apply framed_bind; [by auto with frames | intros] end); auto with frames.

Lemma framed_forward u x order : _output_idx u <> i -> framed (run_forward u x order).
Proof.
  intros Hu. unfold run_forward. apply framed_bind; [by auto with frames | intros o]. apply framed_bind; [by auto with frames | intros _].
  apply framed_bind; [| by auto with frames]. destruct (is_multi order); [unfold _run_in_aux_stream; by frames | by auto with frames].
Qed.

Lemma framed_call v c : mid_ok c -> framed (run_call v (fst c) (snd c)).
Proof.
  destruct c as [u [x | r w f | x order |]]; unfold mid_ok; cbn [fst snd]; intros Hok; unfold run_call.
  - apply framed_bind; [| by auto with frames]. destruct v; unfold stock_sync, early_sync.
    + destruct (is_multi _); [by frames | by auto with frames].
    + destruct (is_multi _); [by frames | by auto with frames].
  - apply framed_bind; [by apply framed_work; destruct Hok | by auto with frames].
  - apply framed_bind; [| by auto with frames]. destruct v; unfold stock_forward, early_forward; case_bool_decide as Ho;
      [| by auto with frames | | by auto with frames].
    + destruct Hok as [? | Hok]; [done |]. by apply framed_forward.
    + destruct Hok as [? | Hok]; [done |]. apply framed_bind; [by auto with frames | intros h0].
      apply framed_bind; [by auto with frames | intros p]. destruct p; [by frames | by apply framed_forward].
  - apply framed_bind; [| by auto with frames]. unfold output. apply framed_bind; [by auto with frames | intros o].
    destruct o; [by frames | by intros ? ? ?].
Qed.

Lemma framed_calls v l : Forall mid_ok l -> framed (run_calls v l).
Proof.
  induction 1 as [|[u c] l Hc _ IH]; simpl; [apply framed_ret |].
  apply framed_bind; [by apply (framed_call v (u, c)) | intros r]. apply framed_bind; [done | intros rs; apply framed_ret].
Qed.
End frame.

(** ** One pass *)

(** No output waiting and no launch in flight. *)
Definition quiescent (h : host) (i : nat) : Prop := output_slots h !! i = Some None /\ early_pending h !! i = Some false.

(** A device that has seen no record the host has not issued. *)
Definition behind (s : @sys event V) (h : host) : Prop :=
  (forall st e k, Record_ e k ∈ queue s st -> k <= recorded h e) /\ forall e, done s e <= recorded h e.

Lemma behind_spares s h st e n : behind s h -> recorded h e < n -> spares (records e n) (queue s st).
Proof.
  intros [Hq _] Hn. apply Forall_forall. intros [| e' k |] Hin; simpl; try tauto. intros [-> Hk]. specialize (Hq _ _ _ Hin). lia.
Qed.

Lemma ops_of_elem st o (l : list (stream * op)) : o ∈ ops_of st l -> (st, o) ∈ l.
Proof.
  unfold ops_of. intros [[st' o'] [-> Hin]]%list_elem_of_fmap. apply list_elem_of_filter in Hin as [Hst Hin].
  simpl in Hst. by subst.
Qed.

Lemma spares_ops (Q : op -> Prop) st (T : list (stream * op)) : Forall (fun p => ~ Q (snd p)) T -> spares Q (ops_of st T).
Proof. intros HT. apply Forall_forall. intros o Ho%ops_of_elem. rewrite Forall_forall in HT. by apply (HT _ Ho). Qed.

(** Any pass whose two programs fork and join this way reads the layer's output. *)
Lemma pass_reads h e1 e2 n2 x out M B A0 T : e1 <> e2 -> recorded h e2 < n2 ->
  ops_of Main T = Record_ e1 (S (recorded h e1)) :: M ++ [Wait e2 n2] ->
  ops_of Aux T = Wait e1 (S (recorded h e1)) :: B ++ Kernel [x] out layer :: Record_ e2 n2 :: A0 ->
  spares (records e2 n2) M -> spares (records e2 n2) B ->
  spares (writes x) M -> spares (writes x) B -> spares (writes out) M -> spares (writes out) A0 ->
  forall s0 s1 s2 later, behind s0 h -> spares (writes x) (queue s0 Aux) -> todo s0 = T ++ later ->
    spares (writes out) (ops_of Aux later) ->
    steps s0 s1 -> rest s1 Main = ops_of Main (T ++ later) -> steps s1 s2 -> rest s2 Main = ops_of Main later ->
    mem s2 out = layer [mem s1 x].
Proof.
  intros He Hn2 HM HA HM2 HB2 HMx HBx HMo HAo s0 s1 s2 later Hb HAx Htodo Hlater H01 H1 H12 H2.
  rewrite ops_of_app, HM in H1. simpl in H1. rewrite <- app_assoc in H1. simpl in H1.
  refine (join_reads e1 e2 (S (recorded h e1)) n2 x out layer (queue s0 Main) M (ops_of Main later) (queue s0 Aux) B
    (A0 ++ ops_of Aux later) He _ _ _ _ HB2 HBx HAx _ HM2 HMx HMo s0 s1 s2 _ H01 H1 H12 H2).
  1, 3: by apply (behind_spares s0 h); [| lia].
  1, 2: by apply (behind_spares s0 h).
  - by apply Forall_app.
  - destruct Hb as [_ Hd]. split; [| split; [| split]].
    + exists (queue s0 Main), []. split; [done |]. unfold rest. rewrite Htodo, ops_of_app, HM. simpl. by rewrite <- !app_assoc.
    + exists (queue s0 Aux), []. split; [done |]. unfold rest. rewrite Htodo, ops_of_app, HA. simpl. by rewrite <- !app_assoc.
    + specialize (Hd e1). lia.
    + specialize (Hd e2). lia.
Qed.

(** The four states a pass goes through on the host, computed. *)
Definition synced (v : variant) (h : host) (i : nat) (x : tensor) : host :=
  match v with
  | Stock =>
      let e := Anonymous (anonymous h) in let n := S (recorded h e) in
      Host (output_slots h) (early_pending h) (upd (recorded h) e n) (S (anonymous h)) (next_buffer h)
        (trace h ++ [(Main, Record_ e n); (Aux, Wait e n)])
  | Early =>
      let n1 := S (recorded h (InputReady i)) in let n2 := S (recorded h (OutputReady i)) in
      Host (<[i := Some (next_buffer h)]> (output_slots h)) (<[i := true]> (early_pending h))
        (upd (upd (recorded h) (InputReady i) n1) (OutputReady i) n2) (anonymous h) (S (next_buffer h))
        (trace h ++ [(Main, Record_ (InputReady i) n1); (Aux, Wait (InputReady i) n1);
                     (Aux, Kernel [buffer x] (next_buffer h) layer); (Aux, Record_ (OutputReady i) n2)])
  end.

Lemma multi_stream x : _determine_shared_experts_order x = MULTI_STREAM_OVERLAPPED -> has_stream cfg = true.
Proof.
  unfold _determine_shared_experts_order. repeat case_if; try done. intros _. bool_to_prop. done.
Qed.

Lemma run_sync v h u x : quiescent h (_output_idx u) -> _determine_shared_experts_order x = MULTI_STREAM_OVERLAPPED ->
  run_call v u (Sync x) h = Ok (None, synced v h (_output_idx u) x).
Proof.
  intros [Hs Hp] Hx. pose proof (multi_stream x Hx) as Hst. destruct v; unfold run_call.
  - unfold stock_sync. rewrite Hx. simpl. unfold mbind, act_bind, assert_. rewrite Hst, wait_stream_run. done.
  - unfold early_sync. rewrite Hx. simpl. unfold mbind, act_bind, assert_, slot, get, index, mbind, act_bind. rewrite Hst, Hs. simpl.
    unfold record, wait, run_layer, enqueue, set_slot, set_pending. simpl. rewrite upd_eq, upd_ne by done. simpl.
    by rewrite <- !app_assoc.
Qed.

Lemma join_stock h u x : quiescent h (_output_idx u) -> _determine_shared_experts_order x = MULTI_STREAM_OVERLAPPED ->
  run_calls Stock [(u, Forward x MULTI_STREAM_OVERLAPPED); (u, Output)] h =
  Ok ([None; Some (next_buffer h)],
      let e := Anonymous (anonymous h) in let n := S (recorded h e) in
      Host (<[_output_idx u := None]> (<[_output_idx u := Some (next_buffer h)]> (output_slots h))) (early_pending h)
        (upd (recorded h) e n) (S (anonymous h)) (S (next_buffer h))
        (trace h ++ [(Aux, Kernel [buffer x] (next_buffer h) layer); (Aux, Record_ e n); (Main, Wait e n)])).
Proof.
  intros [Hs Hp] Hx. simpl. unfold stock_forward. rewrite bool_decide_true by done. unfold run_forward, is_multi. simpl.
  unfold mbind, act_bind, assert_, slot, get, index, mbind, act_bind. rewrite Hs. simpl.
  unfold output, slot, get, index, set_slot, mbind, act_bind. simpl. rewrite list_lookup_insert_eq by by eapply lookup_lt_Some.
  simpl. by rewrite upd_eq, <- !app_assoc.
Qed.

Lemma join_early h u x out : output_slots h !! _output_idx u = Some (Some out) -> early_pending h !! _output_idx u = Some true ->
  _determine_shared_experts_order x = MULTI_STREAM_OVERLAPPED ->
  run_calls Early [(u, Forward x MULTI_STREAM_OVERLAPPED); (u, Output)] h =
  Ok ([None; Some out],
      let i := _output_idx u in
      Host (<[i := None]> (output_slots h)) (<[i := false]> (early_pending h)) (recorded h) (anonymous h) (next_buffer h)
        (trace h ++ [(Main, Wait (OutputReady i) (recorded h (OutputReady i)))])).
Proof.
  intros Hs Hp Hx. simpl. unfold early_forward. rewrite bool_decide_true by done.
  unfold mbind, act_bind, get, index. rewrite Hp. simpl.
  unfold set_pending, wait, enqueue, assert_, slot, get, index, mbind, act_bind. simpl. rewrite Hs. simpl.
  unfold output, slot, get, index, set_slot, mbind, act_bind. simpl. by rewrite Hs.
Qed.

(** What the middle of a pass leaves for its end. *)
Lemma mid_spares i bound keep h h' T (Q : op -> Prop) st : Forall (op_within i bound keep h h') T ->
  (forall p, op_within i bound keep h h' p -> ~ Q (snd p)) -> spares Q (ops_of st T).
Proof. intros HT HQ. apply spares_ops. eapply Forall_impl; [exact HT | exact HQ]. Qed.

Lemma pass_stock h u x hm : quiescent h (_output_idx u) ->
  _determine_shared_experts_order x = MULTI_STREAM_OVERLAPPED -> buffer x < next_buffer h ->
  frame (_output_idx u) (next_buffer h) (buffer x) (synced Stock h (_output_idx u) x) hm ->
  exists out h' T, run_calls Stock [(u, Forward x MULTI_STREAM_OVERLAPPED); (u, Output)] hm = Ok ([None; Some out], h') /\
    quiescent h' (_output_idx u) /\ trace h' = trace h ++ T /\
    exists e1 e2 n2 M B A0, e1 <> e2 /\ recorded h e2 < n2 /\
      ops_of Main T = Record_ e1 (S (recorded h e1)) :: M ++ [Wait e2 n2] /\
      ops_of Aux T = Wait e1 (S (recorded h e1)) :: B ++ Kernel [buffer x] out layer :: Record_ e2 n2 :: A0 /\
      spares (records e2 n2) M /\ spares (records e2 n2) B /\ spares (writes (buffer x)) M /\
      spares (writes (buffer x)) B /\ spares (writes out) M /\ spares (writes out) A0.
Proof.
  intros [Hs Hp] Hx Hb [HA HB HS HP _ _ HR (T & ET & FT)]. cbn in HA, HB, HS, HP, ET.
  assert (quiescent hm (_output_idx u)) as Hq by (split; congruence).
  set (e1 := Anonymous (anonymous h)). set (e2 := Anonymous (anonymous hm)).
  rewrite (join_stock hm u x Hq Hx). eexists _, _, ([(Main, Record_ e1 (S (recorded h e1))); (Aux, Wait e1 (S (recorded h e1)))] ++ T
    ++ [(Aux, Kernel [buffer x] (next_buffer hm) layer); (Aux, Record_ e2 (S (recorded hm e2))); (Main, Wait e2 (S (recorded hm e2)))]).
  split; [reflexivity |]. split; [| split].
  - split; cbn; [| congruence]. apply list_lookup_insert_eq. rewrite length_insert. eapply lookup_lt_Some. by rewrite HS.
  - cbn [trace]. rewrite ET. by rewrite <- !app_assoc.
  - exists e1, e2, (S (recorded hm e2)), (ops_of Main T), (ops_of Aux T), []. rewrite !ops_of_app. subst e1 e2.
    assert (forall e n st, e = Anonymous (anonymous hm) -> spares (records e n) (ops_of st T)) as Hrec.
    { intros e n st ->. eapply mid_spares; [exact FT |]. intros [st' [| [j|j|k] k' |]]; unfold op_within; simpl; try tauto;
        try (by intros _ [? _]). intros Hk [[= ->] _]. lia. }
    assert (forall b st, b = buffer x \/ b = next_buffer hm -> spares (writes b) (ops_of st T)) as Hwr.
    { intros b st Hbb. eapply mid_spares; [exact FT |]. intros [st' [r w f | |]]; unfold op_within; simpl; try tauto.
      intros Hw ->. destruct Hbb as [-> | ->]; lia. }
    split; [intros [= E]; lia |]. split.
    { specialize (HR (Anonymous (anonymous hm))). cbn in HR. rewrite upd_ne in HR by (intros [= E]; lia). lia. }
    split; [done |]. split; [done |]. repeat split; first [by apply Hrec | by apply Hwr; auto | constructor].
Qed.

Lemma pass_early h u x hm : quiescent h (_output_idx u) ->
  _determine_shared_experts_order x = MULTI_STREAM_OVERLAPPED -> buffer x < next_buffer h ->
  frame (_output_idx u) (next_buffer h) (buffer x) (synced Early h (_output_idx u) x) hm ->
  exists out h' T, run_calls Early [(u, Forward x MULTI_STREAM_OVERLAPPED); (u, Output)] hm = Ok ([None; Some out], h') /\
    quiescent h' (_output_idx u) /\ trace h' = trace h ++ T /\
    exists e1 e2 n2 M B A0, e1 <> e2 /\ recorded h e2 < n2 /\
      ops_of Main T = Record_ e1 (S (recorded h e1)) :: M ++ [Wait e2 n2] /\
      ops_of Aux T = Wait e1 (S (recorded h e1)) :: B ++ Kernel [buffer x] out layer :: Record_ e2 n2 :: A0 /\
      spares (records e2 n2) M /\ spares (records e2 n2) B /\ spares (writes (buffer x)) M /\
      spares (writes (buffer x)) B /\ spares (writes out) M /\ spares (writes out) A0.
Proof.
  intros [Hs Hp] Hx Hb [HA HB HS HP _ HO HR (T & ET & FT)]. set (i := _output_idx u) in *. cbn in HA, HB, HS, HP, HO, ET.
  rewrite list_lookup_insert_eq in HS by exact (lookup_lt_Some _ _ _ Hs).
  rewrite list_lookup_insert_eq in HP by exact (lookup_lt_Some _ _ _ Hp).
  set (n1 := S (recorded h (InputReady i))). set (n2 := S (recorded h (OutputReady i))).
  rewrite (join_early hm u x (next_buffer h) HS HP Hx).
  eexists _, _, ([(Main, Record_ (InputReady i) n1); (Aux, Wait (InputReady i) n1); (Aux, Kernel [buffer x] (next_buffer h) layer);
    (Aux, Record_ (OutputReady i) n2)] ++ T ++ [(Main, Wait (OutputReady i) (recorded hm (OutputReady i)))]). split; [reflexivity |]. split; [| split].
  - split; cbn; apply list_lookup_insert_eq; by eapply lookup_lt_Some.
  - cbn [trace]. rewrite ET. by rewrite <- !app_assoc.
  - rewrite upd_eq in HO. rewrite HO. subst n1 n2.
    exists (InputReady i), (OutputReady i), (S (recorded h (OutputReady i))), (ops_of Main T), [], (ops_of Aux T). rewrite !ops_of_app.
    assert (forall st, spares (records (OutputReady i) (S (recorded h (OutputReady i)))) (ops_of st T)) as Hrec.
    { intros st. eapply mid_spares; [exact FT |]. intros [st' [| [j|j|k] k' |]]; unfold op_within; simpl; try tauto;
        try (by intros _ [? _]). intros Hj [[= ->] _]. done. }
    assert (forall b st, b = buffer x \/ b = next_buffer h -> spares (writes b) (ops_of st T)) as Hwr.
    { intros b st Hbb. eapply mid_spares; [exact FT |]. intros [st' [r w f | |]]; unfold op_within; simpl; try tauto.
      intros Hw ->. destruct Hbb as [-> | ->]; lia. }
    split; [done |]. split; [lia |]. split; [done |].
    split; [by rewrite <- (app_nil_r (ops_of Aux T)) at 2 |].
    repeat split; first [by apply Hrec | by apply Hwr; auto | constructor].
Qed.

(** C12. Launching early changes no result.  Take a ubatch with nothing in
    flight, a tensor the module runs on the auxiliary stream, and any work
    between [maybe_sync] and [forward]: main-stream kernels that leave the
    tensor alone, calls that do nothing, the other ubatch's whole traffic.
    Stock or patched, [forward] and [output] then succeed, leave nothing in
    flight, and hand back one buffer; and in every interleaving of host, main
    and auxiliary stream that buffer holds, when the main stream is past the
    join, the layer applied to what the tensor held when the main stream came
    to the pass - also when earlier work was still queued on both streams. *)
Theorem early_launch_same_result v h u x mid rs hm :
  quiescent h (_output_idx u) -> _determine_shared_experts_order x = MULTI_STREAM_OVERLAPPED ->
  buffer x < next_buffer h -> Forall (mid_ok (_output_idx u) (next_buffer h) (buffer x)) mid ->
  run_calls v ((u, Sync x) :: mid) h = Ok (rs, hm) ->
  exists out h' T, run_calls v [(u, Forward x MULTI_STREAM_OVERLAPPED); (u, Output)] hm = Ok ([None; Some out], h') /\
    quiescent h' (_output_idx u) /\ trace h' = trace h ++ T /\
    forall s0 s1 s2 later, behind s0 h -> spares (writes (buffer x)) (queue s0 Aux) -> todo s0 = T ++ later ->
      spares (writes out) (ops_of Aux later) ->
      steps s0 s1 -> rest s1 Main = ops_of Main (T ++ later) -> steps s1 s2 -> rest s2 Main = ops_of Main later ->
      mem s2 out = layer [mem s1 (buffer x)].
Proof.
  intros Hq Hx Hb Hmid Hrun. cbn [run_calls] in Hrun. unfold mbind at 1, act_bind at 1 in Hrun.
  rewrite (run_sync v h u x Hq Hx) in Hrun. unfold mbind, act_bind in Hrun.
  destruct (run_calls v mid (synced v h (_output_idx u) x)) as [[rs' hm'] |] eqn:E; [| done].
  injection Hrun as _ <-. pose proof (framed_calls _ _ _ v mid Hmid _ _ _ E) as Hf.
  assert (exists out h' T, run_calls v [(u, Forward x MULTI_STREAM_OVERLAPPED); (u, Output)] hm' = Ok ([None; Some out], h') /\
    quiescent h' (_output_idx u) /\ trace h' = trace h ++ T /\
    exists e1 e2 n2 M B A0, e1 <> e2 /\ recorded h e2 < n2 /\
      ops_of Main T = Record_ e1 (S (recorded h e1)) :: M ++ [Wait e2 n2] /\
      ops_of Aux T = Wait e1 (S (recorded h e1)) :: B ++ Kernel [buffer x] out layer :: Record_ e2 n2 :: A0 /\
      spares (records e2 n2) M /\ spares (records e2 n2) B /\ spares (writes (buffer x)) M /\
      spares (writes (buffer x)) B /\ spares (writes out) M /\ spares (writes out) A0)
    as (out & h' & T & Hfin & Hq' & ET & e1 & e2 & n2 & M & B & A0 & He & Hn & HM & HA & ? & ? & ? & ? & ? & ?)
    by (destruct v; [by apply pass_stock | by apply pass_early]).
  exists out, h', T. split; [done |]. split; [done |]. split; [done |].
  by apply (pass_reads h e1 e2 n2 (buffer x) out M B A0 T).
Qed.

(** ** What the patch gains *)

Lemma todo_suffix (s s' : @sys event V) : steps s s' -> exists l, todo s = l ++ todo s'.
Proof.
  induction 1 as [s | s s' s'' Hstep _ [l IH]]; [by exists [] |].
  destruct Hstep as [st o r Ht | st o q m d Hq Hr]; cbn [todo] in IH; [exists ((st, o) :: l); by rewrite Ht, IH | by exists l].
Qed.

(** The host may enqueue everything first; a head that can run, runs. *)
Lemma enqueue_all (s : @sys event V) ops r : todo s = ops ++ r ->
  exists s', steps s s' /\ todo s' = r /\ (forall st, queue s' st = queue s st ++ ops_of st ops) /\
    mem s' = mem s /\ done s' = done s.
Proof.
  revert s. induction ops as [|[st o] ops IH]; intros s Ht.
  - exists s. repeat split; [apply rtc_refl | done | intros; by rewrite app_nil_r].
  - destruct (IH (Sys (ops ++ r) (upd (queue s) st (queue s st ++ [o])) (mem s) (done s)) eq_refl)
      as (s' & Hs & Ht' & Hq & Hm & Hd). cbn in Hq, Hm, Hd.
    exists s'. repeat split; [by eapply rtc_l; [by eapply step_host |] | done | | done | done].
    intros st'. rewrite Hq. destruct (decide (st' = st)) as [-> | Hne].
    + by rewrite upd_eq, ops_of_cons_eq, <- app_assoc.
    + by rewrite upd_ne, ops_of_cons_ne by congruence.
Qed.

Lemma run_head (s : @sys event V) st o q m d : queue s st = o :: q -> run_op o (mem s) (done s) = Some (m, d) ->
  exists s', step s s' /\ todo s' = todo s /\ queue s' st = q /\ (forall st', st' <> st -> queue s' st' = queue s st') /\
    mem s' = m /\ done s' = d.
Proof.
  intros Hq Hr. eexists. split; [by apply (step_run s st o q m d) |]. cbn. rewrite upd_eq.
  repeat split. intros st' Hne. by rewrite upd_ne.
Qed.

(** Launching early overlaps: with the patch there is, for every pass, an
    interleaving in which the shared experts are done before the host has
    enqueued anything of what lies between [maybe_sync] and [forward]; stock
    has none, whenever its kernel has run the host had enqueued all of it. *)
Theorem early_launch_overlaps h u x mid :
  quiescent h (_output_idx u) -> _determine_shared_experts_order x = MULTI_STREAM_OVERLAPPED ->
  buffer x < next_buffer h -> Forall (mid_ok (_output_idx u) (next_buffer h) (buffer x)) mid ->
  (forall rs hm, run_calls Early ((u, Sync x) :: mid) h = Ok (rs, hm) ->
     exists T1 T2, trace hm = trace h ++ T1 ++ T2 /\
     forall s0 later, todo s0 = T1 ++ T2 ++ later -> queue s0 Main = [] -> queue s0 Aux = [] ->
       exists s, steps s0 s /\ todo s = T2 ++ later /\ mem s (next_buffer h) = layer [mem s0 (buffer x)]) /\
  (forall rs hm, run_calls Stock ((u, Sync x) :: mid) h = Ok (rs, hm) ->
     exists T1 T2 K out h' T3, trace hm = trace h ++ T1 ++ T2 /\ K = Kernel [buffer x] out layer /\
     run_calls Stock [(u, Forward x MULTI_STREAM_OVERLAPPED); (u, Output)] hm = Ok ([None; Some out], h') /\
     trace h' = trace hm ++ (Aux, K) :: T3 /\
     forall s0 s later, todo s0 = T1 ++ T2 ++ (Aux, K) :: T3 ++ later -> steps s0 s -> K ∉ rest s Aux ->
       exists l, T3 ++ later = l ++ todo s).
Proof.
  intros Hq Hx Hb Hmid.
  assert (forall v rs hm, run_calls v ((u, Sync x) :: mid) h = Ok (rs, hm) ->
    frame (_output_idx u) (next_buffer h) (buffer x) (synced v h (_output_idx u) x) hm) as Hframe.
  { intros v rs hm Hrun. cbn [run_calls] in Hrun. unfold mbind at 1, act_bind at 1 in Hrun.
    rewrite (run_sync v h u x Hq Hx) in Hrun. unfold mbind, act_bind in Hrun.
    destruct (run_calls v mid (synced v h (_output_idx u) x)) as [[rs' hm'] |] eqn:E; [| done].
    injection Hrun as _ <-. by apply (framed_calls _ _ _ v mid Hmid _ _ _ E). }
  split; intros rs hm Hrun; specialize (Hframe _ _ _ Hrun).
  - destruct Hframe as [_ _ _ _ _ _ _ (T & ET & _)]. cbn [synced trace] in ET.
    set (i := _output_idx u) in *. set (n1 := S (recorded h (InputReady i))) in *. set (n2 := S (recorded h (OutputReady i))) in *.
    eexists _, T. split; [rewrite ET, <- app_assoc; reflexivity |]. intros s0 later Htodo HqM HqA.
    destruct (enqueue_all _ _ _ Htodo) as (s1 & H1 & Ht1 & Hq1 & Hm1 & _).
    pose proof (Hq1 Main) as HM. pose proof (Hq1 Aux) as HA. rewrite HqM in HM. rewrite HqA in HA.
    destruct (run_head s1 Main (Record_ (InputReady i) n1) [] _ _ HM eq_refl) as (s2 & H2 & Ht2 & _ & Hq2 & Hm2 & Hd2).
    assert (run_op (Wait (InputReady i) n1) (mem s2) (done s2) = Some (mem s2, done s2)) as Hw.
    { cbn [run_op]. rewrite Hd2, upd_eq, (proj2 (Nat.leb_le _ _)) by lia. done. }
    destruct (run_head s2 Aux _ _ _ _ (eq_trans (Hq2 Aux ltac:(done)) HA) Hw) as (s3 & H3 & Ht3 & HA3 & _ & Hm3 & _).
    destruct (run_head s3 Aux _ _ _ _ HA3 eq_refl) as (s4 & H4 & Ht4 & _ & _ & Hm4 & _).
    exists s4. split; [| split; [congruence |]].
    + etrans; [exact H1 |]. do 3 (eapply rtc_l; [eassumption |]). apply rtc_refl.
    + rewrite Hm4, upd_eq. simpl. congruence.
  - pose proof Hframe as [_ _ HS HP _ _ _ (T & ET & _)]. cbn [synced trace output_slots early_pending] in ET, HS, HP.
    assert (quiescent hm (_output_idx u)) as Hqm by (destruct Hq; split; congruence).
    eexists _, T, _, (next_buffer hm), _, _. split; [rewrite ET, <- app_assoc; reflexivity |]. split; [reflexivity |].
    split; [by apply join_stock |]. split; [reflexivity |].
    intros s0 s later Htodo Hs HK. destruct (todo_suffix _ _ Hs) as [l El]. rewrite Htodo in El.
    set (K := Kernel [buffer x] (next_buffer hm) layer) in *.
    assert ((Aux, K) ∉ todo s) as HKt.
    { intros Hin. apply HK. unfold rest. apply elem_of_app. right. unfold ops_of.
      apply (list_elem_of_fmap_2 snd _ (Aux, K)). by apply list_elem_of_filter. }
    rewrite app_assoc in El. revert El HKt. generalize (todo s). clear. intros t. 
    match goal with |- ?P ++ _ :: ?R = _ -> _ => generalize P, R end. intros P R El HKt.
    revert l El. induction P as [|p P IH]; intros [|p' l] El; simpl in El.
    + destruct HKt. rewrite <- El. by left.
    + injection El as _ El. by exists l.
    + destruct HKt. rewrite <- El. right. apply elem_of_app. right. by left.
    + injection El as _ El. by apply (IH l).
Qed.

(** ** Every program drains *)

Definition start : host := Host [None; None] [false; false] (fun _ => 0) 0 0 [].

(** Waits are for records already issued. *)
Definition issued (h : host) : Prop :=
  causal (fun _ => 0) (trace h) /\ forall e, 0 < recorded h e -> exists st, (st, Record_ e (recorded h e)) ∈ trace h.

Definition issues {A} (m : act A) : Prop := forall h a h', issued h -> m h = Ok (a, h') -> issued h'.

Lemma issues_bind {A B} (m : act A) (k : A -> act B) : issues m -> (forall a, issues (k a)) -> issues (m ≫= k).
Proof.
  intros Hm Hk h b h' Hi. unfold mbind, act_bind. destruct (m h) as [[a h1] |] eqn:E; [| done].
  intros E2. eapply Hk; [by eapply Hm | done].
Qed.

(** Actions that enqueue nothing and record nothing. *)
Lemma issues_quiet {A} (m : act A) : (forall h a h', m h = Ok (a, h') -> trace h' = trace h /\ recorded h' = recorded h) -> issues m.
Proof. intros Hm h a h' Hi E. destruct (Hm _ _ _ E) as [Et Er]. unfold issued. by rewrite Et, Er. Qed.

Lemma causal_snoc (d : event -> nat) (l : list (stream * op)) p : causal d l ->
  (forall e n, snd p = Wait e n -> n <= d e \/ exists st' k, n <= k /\ (st', Record_ e k) ∈ l) -> causal d (l ++ [p]).
Proof.
  intros Hl Hp pre st e n post E. destruct post as [|q post _] using rev_ind.
  - apply app_inj_tail in E as [-> ->]. by apply Hp.
  - rewrite app_comm_cons, app_assoc in E. apply app_inj_tail in E as [-> _]. by eapply Hl.
Qed.

Lemma issues_wait e st : issues (wait e st).
Proof.
  intros h a h' [Hc Hr] [= _ <-]. split; cbn.
  - apply causal_snoc; [done |]. intros e' n [= <- <-]. destruct (decide (recorded h e = 0)) as [-> | Hne]; [left; lia | right].
    destruct (Hr e) as [st' Hin]; [lia |]. by exists st', (recorded h e).
  - intros e' He'. destruct (Hr e' He') as [st' Hin]. exists st'. apply elem_of_app. by left.
Qed.

Lemma issues_record e st : issues (record e st).
Proof.
  intros h a h' [Hc Hr] [= _ <-]. split; cbn.
  - by apply causal_snoc.
  - intros e' He'. destruct (decide (e' = e)) as [-> | Hne].
    + exists st. rewrite upd_eq. apply elem_of_app. right. by left.
    + rewrite upd_ne in * by done. destruct (Hr e' He') as [st' Hin]. exists st'. apply elem_of_app. by left.
Qed.

Lemma issues_kernel st r w f : issues (enqueue st (Kernel r w f)).
Proof.
  intros h a h' [Hc Hr] [= _ <-]. split; cbn; [by apply causal_snoc |].
  intros e' He'. destruct (Hr e' He') as [st' Hin]. exists st'. apply elem_of_app. by left.
Qed.

Lemma issues_layer x st : issues (run_layer x st).
Proof.
  intros h a h' [Hc Hr] [= _ <-]. split; cbn; [by apply causal_snoc |].
  intros e' He'. destruct (Hr e' He') as [st' Hin]. exists st'. apply elem_of_app. by left.
Qed.

Lemma issues_ret {A} (a : A) : issues (mret a).
Proof. apply issues_quiet. by intros ? ? ? [= <- <-]. Qed.
Lemma issues_assert c : issues (assert_ c).
Proof. apply issues_quiet. intros ? ? ?. unfold assert_. destruct c; [by intros [= <- <-] | done]. Qed.
Lemma issues_index {A} (l : list A) j : issues (index l j).
Proof. apply issues_quiet. intros ? ? ?. unfold index. destruct (l !! j); [by intros [= <- <-] | done]. Qed.
Lemma issues_get : issues get.
Proof. apply issues_quiet. by intros ? ? ? [= <- <-]. Qed.
Lemma issues_set_slot j v : issues (set_slot j v).
Proof. apply issues_quiet. by intros ? ? ? [= <- <-]. Qed.
Lemma issues_set_pending j v : issues (set_pending j v).
Proof. apply issues_quiet. by intros ? ? ? [= <- <-]. Qed.
Lemma issues_slot j : issues (slot j).
Proof. apply issues_bind; [apply issues_get | intros; apply issues_index]. Qed.
Lemma issues_wait_stream st other : issues (wait_stream st other).
Proof.
  unfold wait_stream. apply issues_bind; [apply issues_get | intros h0]. apply issues_bind; [by apply issues_quiet; intros ? ? ? [= <- <-] | intros _].
  apply issues_bind; [apply issues_record | intros _; apply issues_wait].
Qed.

#[local] Hint Resolve issues_wait issues_record issues_kernel issues_layer issues_ret issues_assert issues_index issues_get
  issues_set_slot issues_set_pending issues_slot issues_wait_stream : issues.
Ltac issue := repeat (lazymatch goal with |- issues (_ ≫= _) => apply issues_bind; [by auto with issues | intros] end); auto with issues.

Lemma issues_forward u x order : issues (run_forward u x order).
Proof.
  unfold run_forward. do 2 (apply issues_bind; [by auto with issues | intros]).
  apply issues_bind; [| by auto with issues]. destruct (is_multi order); [unfold _run_in_aux_stream; by issue | by auto with issues].
Qed.

Lemma issues_call v u c : issues (run_call v u c).
Proof.
  unfold run_call. destruct c as [x | r w f | x order |].
  - apply issues_bind; [| by auto with issues]. destruct v; unfold stock_sync, early_sync; destruct (is_multi _); by issue.
  - by issue.
  - apply issues_bind; [| by auto with issues]. destruct v; unfold stock_forward, early_forward;
      (case_bool_decide; [| by auto with issues]); [by apply issues_forward |].
    do 2 (apply issues_bind; [by auto with issues | intros]). case_match; [by issue | by apply issues_forward].
  - apply issues_bind; [| by auto with issues]. unfold output. apply issues_bind; [by auto with issues | intros o].
    destruct o; [by issue | by intros ? ? ? ?].
Qed.

Lemma issues_calls v l : issues (run_calls v l).
Proof.
  induction l as [|[u c] l IH]; simpl; [by auto with issues |].
  apply issues_bind; [apply issues_call | intros r]. apply issues_bind; [done | by auto with issues].
Qed.

(** No call sequence can hang the device: whatever the two ubatches call,
    stock or patched, in whatever order, what the host has enqueued runs to the
    end in every interleaving, in at most one step per enqueuing and one per
    operation, with no stream left waiting for an event. *)
Theorem programs_drain v l rs h : run_calls v l start = Ok (rs, h) ->
  forall s0, todo s0 = trace h -> queue s0 Main = [] -> queue s0 Aux = [] -> (forall e, done s0 e = 0) ->
    (forall n s, nsteps step n s0 s -> n <= 2 * length (trace h)) /\
    (forall s, steps s0 s -> (forall s', ~ step s s') -> todo s = [] /\ queue s Main = [] /\ queue s Aux = []).
Proof.
  intros Hrun s0 Ht HM HA Hd.
  assert (issued h) as [Hc _].
  { refine (issues_calls v l start rs h _ Hrun). split; [| intros e; cbn; lia]. intros pre st e n post E. by destruct pre. }
  assert (remains s0 (trace h)) as Hr.
  { split; [| split].
    - exists []. by rewrite Ht.
    - intros st. unfold rest. rewrite Ht. by destruct st; rewrite ?HM, ?HA.
    - intros pre st e n post E. rewrite Hd. by eapply Hc. }
  destruct (causal_drains s0 _ Hr) as [H1 H2]. split; [| done].
  intros n s Hn. specialize (H1 n s Hn). unfold work in H1. rewrite Ht, HM, HA in H1. simpl in H1. lia.
Qed.
End host.

(** ** Two ubatches on the served configuration *)

Definition served : config := Config true true false false "allgather_reducescatter" false false true 256.
Definition demo_layer (l : list nat) : nat := fold_right Nat.add 100 l.
Definition demo_host : @host nat := Host [None; None] [false; false] (fun _ => 0) 0 5 [].
Definition demo_x : tensor := Tensor 1 4.
Definition demo_y : tensor := Tensor 3 4.
(** The gate and the routed experts of ubatch 0, around ubatch 1's whole pass. *)
Definition demo_mid : list (nat * @call nat) :=
  [(0, MainWork [1] 2 demo_layer); (0, Forward demo_x NO_OVERLAP); (1, Sync demo_y); (1, MainWork [3] 4 demo_layer);
   (1, Forward demo_y MULTI_STREAM_OVERLAPPED); (1, Output)].
Definition demo_run (v : variant) : res (list (option nat) * @host nat) :=
  run_calls demo_layer served v ((0, Sync demo_x) :: demo_mid) demo_host.
Definition demo_rs (v : variant) : list (option nat) := match demo_run v with Ok (rs, _) => rs | Raise _ => [] end.
Definition demo_hm (v : variant) : @host nat := match demo_run v with Ok (_, h) => h | Raise _ => demo_host end.

Lemma demo_runs v : run_calls demo_layer served v ((0, Sync demo_x) :: demo_mid) demo_host = Ok (demo_rs v, demo_hm v).
Proof.
  change (demo_run v = Ok (demo_rs v, demo_hm v)).
  unfold demo_rs, demo_hm. destruct (demo_run v) as [[rs h] | e] eqn:E; [reflexivity |].
  exfalso. destruct v; vm_compute in E; discriminate E.
Qed.

Lemma demo_mid_ok : Forall (mid_ok served 0 5 1) demo_mid.
Proof.
  repeat (apply Forall_cons; split); [.. | apply Forall_nil; done]; unfold mid_ok; cbn; first [lia | by left | by right].
Qed.

Lemma early_launch_same_result_witness :
  exists out h' T, run_calls demo_layer served Early [(0, Forward demo_x MULTI_STREAM_OVERLAPPED); (0, Output)] (demo_hm Early)
      = Ok ([None; Some out], h') /\ trace h' = T.
Proof.
  destruct (early_launch_same_result demo_layer served Early demo_host 0 demo_x demo_mid (demo_rs Early) (demo_hm Early))
    as (out & h' & T & Hrun & _ & HT & _); [split; reflexivity | reflexivity | cbn; lia | exact demo_mid_ok | exact (demo_runs Early) |].
  exists out, h', T. split; [exact Hrun | exact HT].
Defined.

Lemma early_launch_overlaps_witness :
  exists T1 T2, trace (demo_hm Early) = T1 ++ T2 /\
    forall s0, todo s0 = T1 ++ T2 -> queue s0 Main = [] -> queue s0 Aux = [] ->
      exists s, steps s0 s /\ todo s = T2 /\ mem s 5 = demo_layer [mem s0 1].
Proof.
  destruct (early_launch_overlaps demo_layer served demo_host 0 demo_x demo_mid) as [He _];
    [split; reflexivity | reflexivity | cbn; lia | exact demo_mid_ok |].
  destruct (He (demo_rs Early) (demo_hm Early) (demo_runs Early)) as (T1 & T2 & HT & Hs). exists T1, T2. split; [exact HT |].
  intros s0 Ht HM HA. destruct (Hs s0 []) as (s & H1 & H2 & H3); [by rewrite !app_nil_r | done | done |].
  rewrite app_nil_r in H2. exists s. split; [exact H1 | split; [exact H2 | exact H3]].
Defined.

Definition demo_trace : list (stream * @op event nat) :=
  match run_calls demo_layer served Stock ((0, Sync demo_x) :: demo_mid) start with Ok (_, h) => trace h | Raise _ => [] end.

Lemma programs_drain_witness :
  forall s, steps (Sys demo_trace (fun _ => []) (fun b => b) (fun _ => 0)) s -> (forall s', ~ step s s') ->
    todo s = [] /\ queue s Main = [] /\ queue s Aux = [].
Proof.
  unfold demo_trace.
  destruct (run_calls demo_layer served Stock ((0, Sync demo_x) :: demo_mid) start) as [[rs h] | e] eqn:E;
    [| exfalso; vm_compute in E; discriminate E].
  exact (proj2 (programs_drain demo_layer served Stock ((0, Sync demo_x) :: demo_mid) rs h E
    (Sys (trace h) (fun _ => []) (fun b => b) (fun _ => 0)) eq_refl eq_refl eq_refl (fun _ => eq_refl))).
Defined.
