(* ===== verification/TicketScheduler.v ===== *)
(** * The ticket scheduler of the fused MoE kernel

    Model of the launch geometry of [exl3_moe] and of the expert loop of
    [exl3_moe_kernel] ([overlay/exl3-ticket/patched/exl3_moe.cu] and
    [exl3_moe_kernel.cuh]).  The groups of a launch run concurrently and share
    two counters and the output; a group is one process, because every phase of
    an expert ends with a barrier of the group's blocks.  A step is one turn of
    a group's loop up to its next access to shared memory: passing an expert,
    working through an expert (the rows it adds to the output, whose order
    among the groups is the order of these steps), drawing the next ticket, and
    retiring.  Counter accesses are sequentially consistent; the memory orders of
    the source are its implementation of that and are not modelled. *)
From Stdlib Require Import ZArith QArith Lia.
From stdpp Require Import base list strings gmap.
From S2P Require Import Prelude Exl3Tier Segments Exl3Moe.
Open Scope nat_scope.

(** ** Launch geometry *)

Definition MOE_SMS_PER_EXPERT : Z := 8.
Definition MOE_MAX_SMS_PER_EXPERT : Z := 32.
Definition MAX_TILES_C : Z := 1024 * 1024.
Definition MAX_BARRIERS : Z := 1024.
Definition MOE_MAX_GROUPS : Z := 64.
Definition MOE_SCHED_OFFSET : Z := MAX_TILES_C + 2 * MAX_BARRIERS.
Definition MOE_SCHED_INTS : Z := 2 + MOE_MAX_GROUPS.

(** The lock buffer of a device, in ints ([DevCtx::get_locks]). *)
Definition lock_ints : Z := MAX_TILES_C + MAX_BARRIERS * 2 + MOE_SCHED_INTS.

Definition exl3_moe_max_concurrency (num_sms : Z) : Z := num_sms / MOE_SMS_PER_EXPERT.

(** The grid of a launch: groups, and blocks per group; [TORCH_CHECK] raises. *)
Definition launch_grid (concurrency num_active num_sms : Z) : res (Z * Z) :=
  if (num_sms <? concurrency * MOE_SMS_PER_EXPERT)%Z then Raise RuntimeError
  else
    let num_groups := Z.min concurrency MOE_MAX_GROUPS in
    Ok (if (0 <? num_active)%Z then
          let num_groups := Z.min num_groups num_active in
          (num_groups, Z.min (num_sms / num_groups) MOE_MAX_SMS_PER_EXPERT)
        else (num_groups, MOE_SMS_PER_EXPERT))%Z.

(** ** The groups of one launch *)

Inductive phase := Scan | Draw | Retired.

#[global] Instance phase_eq_dec : EqDecision phase.
Proof. solve_decision. Defined.

(** The registers of a group: [end], [expert_idx], [expert_idx_assign], [ticket]. *)
Record group := Group { g_end : nat; expert_idx : nat; expert_idx_assign : nat; ticket : nat; g_phase : phase }.

Section kernel.
Context {W : Type}.
(** [expert_count], the row count of the temps, and the rows an expert adds for a span. *)
Context (expert_count : list nat) (max_tokens : nat) (span : nat -> nat -> nat -> list (contribution W)).

(** [sched[0]], [sched[1]], the groups, the output; [served] is the order in which experts were worked through. *)
Record state := State {
  next_ticket : nat; retired : nat; groups_of : list group; output : list (contribution W); served : list nat
}.

Definition skipped (token_count : nat) : bool := (token_count =? 0) || (max_tokens <? token_count).

(** A launch: the counters are whatever the last launch left in the lock buffer. *)
Definition launch (next ret num_groups : nat) (out : list (contribution W)) : state :=
  State next ret (map (fun g => Group 0 0 0 g Scan) (seq 0 num_groups)) out [].

(** One step of group [g]; [None] when it has left the kernel. *)
Definition step (g : nat) (s : state) : option state :=
  let num_groups := length (groups_of s) in
  let put p next ret := State next ret (<[g := p]> (groups_of s)) (output s) (served s) in
  match groups_of s !! g with
  | None => None
  | Some (Group e i a t Scan) =>
      match expert_count !! i with
      | None =>
          let p := Group e i a t Retired in
          if retired s =? num_groups - 1 then Some (put p 0 0) else Some (put p (next_ticket s) (S (retired s)))
      | Some token_count =>
          if skipped token_count then Some (put (Group (e + token_count) (S i) a t Scan) (next_ticket s) (retired s))
          else if negb (a =? t) then
            Some (put (Group (e + token_count) (S i) (S a) t Scan) (next_ticket s) (retired s))
          else
            Some (State (next_ticket s) (retired s) (<[g := Group (e + token_count) i (S a) t Draw]> (groups_of s))
                    (output s ++ span i e token_count) (served s ++ [i]))
      end
  | Some (Group e i a t Draw) =>
      Some (put (Group e (S i) a (num_groups + next_ticket s) Scan) (S (next_ticket s)) (retired s))
  | Some (Group _ _ _ _ Retired) => None
  end.

(** An interleaving: the schedule names the group that moves next. *)
Fixpoint exec (schedule : list nat) (s : state) : option state :=
  match schedule with
  | [] => Some s
  | g :: schedule => s ← step g s; exec schedule s
  end.

Definition finished (s : state) : bool := forallb (fun p => bool_decide (g_phase p = Retired)) (groups_of s).

(** ** What a launch computes *)

Definition count (i : nat) : nat := expert_count !!! i.
Definition start (i : nat) : nat := offset count i.
Definition active (i : nat) : bool := negb (skipped (count i)).
Abbreviation n := (length expert_count).

(** The active experts below [i], and how many there are. *)
Definition actives (i : nat) : list nat := base.filter active (seq 0 i).
Definition rank (i : nat) : nat := length (actives i).

Definition rows_of (i : nat) : list (contribution W) := span i (start i) (count i).

(** ** Invariant *)

(** The ticket a group holds and has not used: a group that has worked through
    its expert and not yet drawn holds none. *)
Definition unused (p : group) : list nat := if g_phase p is Draw then [] else [ticket p].
Definition left_kernel (p : group) : list unit := if g_phase p is Retired then [tt] else [].

(** Turns a group has still to take, at most. *)
Definition turns (p : group) : nat :=
  match g_phase p with
  | Scan => 2 * (n - expert_idx p) + 1
  | Draw => 2 * (n - expert_idx p)
  | Retired => 0
  end.
Definition turns_left (s : state) : nat := sum (map turns (groups_of s)).

Definition group_ok (p : group) : Prop :=
  match g_phase p with
  | Scan => expert_idx p <= n /\ g_end p = start (expert_idx p) /\ expert_idx_assign p = rank (expert_idx p) /\
      expert_idx_assign p <= ticket p
  | Draw => expert_idx p < n /\ active (expert_idx p) = true /\ g_end p = start (S (expert_idx p)) /\
      expert_idx_assign p = rank (S (expert_idx p)) /\ ticket p = rank (expert_idx p)
  | Retired => rank n <= ticket p
  end.

(** [drawn] tickets have been drawn; the tickets used and the tickets held are
    all of those given out, each once. *)
Record inv (out : list (contribution W)) (num_groups drawn : nat) (s : state) : Prop := Inv {
  inv_groups : length (groups_of s) = num_groups;
  inv_ok : Forall group_ok (groups_of s);
  inv_given : Forall (fun p => ticket p < num_groups + drawn) (groups_of s);
  inv_tickets : map rank (served s) ++ concat (map unused (groups_of s)) ≡ₚ seq 0 (num_groups + drawn);
  inv_served : Forall (fun i => i < n /\ active i = true) (served s);
  inv_output : output s = out ++ concat (map rows_of (served s));
  inv_counters : if finished s then next_ticket s = 0 /\ retired s = 0
    else next_ticket s = drawn /\ retired s = length (concat (map left_kernel (groups_of s)))
}.

(** *** Lists of groups *)

Lemma concat_insert {A B} (f : A -> list B) (l : list A) g p q : l !! g = Some p ->
  exists rest, concat (map f l) ≡ₚ f p ++ rest /\ concat (map f (<[g := q]> l)) ≡ₚ f q ++ rest.
Proof.
  intros Hp. pose proof (lookup_lt_Some _ _ _ Hp) as Hl.
  exists (concat (map f (take g l)) ++ concat (map f (drop (S g) l))).
  rewrite insert_take_drop by done. rewrite <- (take_drop_middle l g p Hp) at 1.
  rewrite !map_app, !concat_app. simpl. split; solve_Permutation.
Qed.

Lemma sum_insert {A} (f : A -> nat) (l : list A) g p q : l !! g = Some p -> f q < f p ->
  sum (map f (<[g := q]> l)) < sum (map f l).
Proof.
  intros Hp Hf. pose proof (lookup_lt_Some _ _ _ Hp) as Hl.
  rewrite insert_take_drop by done. rewrite <- (take_drop_middle l g p Hp) at 3.
  rewrite !map_app, !sum_app. simpl. lia.
Qed.

Lemma all_retired (l : list group) : forallb (fun p => bool_decide (g_phase p = Retired)) l = true <->
  length (concat (map left_kernel l)) = length l.
Proof.
  enough (H : length (concat (map left_kernel l)) <= length l /\
    (forallb (fun p => bool_decide (g_phase p = Retired)) l = true <-> length (concat (map left_kernel l)) = length l))
    by apply H.
  induction l as [|p l [Hle IH]]; simpl; [split; [lia | tauto] |]. rewrite length_app.
  assert (Hp : length (left_kernel p) = if bool_decide (g_phase p = Retired) then 1 else 0)
    by (unfold left_kernel; by destruct (g_phase p)).
  rewrite Hp. case_bool_decide; simpl; (split; [lia |]).
  - rewrite IH. lia.
  - split; [done | lia].
Qed.

(** *** Ranks *)

Lemma actives_S i : actives (S i) = actives i ++ if active i then [i] else [].
Proof.
  unfold actives. rewrite seq_S, filter_app. simpl. rewrite filter_cons, filter_nil.
  destruct (active i); by case_decide.
Qed.

Lemma rank_S i : rank (S i) = rank i + if active i then 1 else 0.
Proof. unfold rank. rewrite actives_S, length_app. by destruct (active i). Qed.

Lemma rank_mono i j : i <= j -> rank i <= rank j.
Proof. induction 1 as [|j _ IH]; [done |]. rewrite rank_S. lia. Qed.

Lemma rank_lt i j : i < j -> active i = true -> rank i < rank j.
Proof. intros Hij Ha. pose proof (rank_mono (S i) j Hij). rewrite rank_S, Ha in H. lia. Qed.

Lemma rank_inj i j : active i = true -> active j = true -> rank i = rank j -> i = j.
Proof.
  intros Hi Hj E. destruct (Nat.lt_trichotomy i j) as [H|[H|H]]; [| done |].
  - pose proof (rank_lt i j H Hi). lia.
  - pose proof (rank_lt j i H Hj). lia.
Qed.

Lemma elem_actives i j : i ∈ actives j <-> i < j /\ active i = true.
Proof. unfold actives. rewrite list_elem_of_filter, elem_of_seq, Is_true_true. intuition lia. Qed.

Lemma start_S i : start (S i) = start i + count i.
Proof. apply offset_S. Qed.

(** *** Preservation *)

Lemma launch_inv out num_groups : 0 < num_groups -> inv out num_groups 0 (launch 0 0 num_groups out).
Proof.
  intros Hng.
  assert (Hf : finished (launch 0 0 num_groups out) = false).
  { unfold finished, launch. simpl. destruct num_groups; [lia |]. done. }
  split; rewrite ?Hf; unfold launch; simpl.
  - by rewrite length_map, length_seq.
  - apply Forall_map, Forall_true. intros g. unfold group_ok. simpl. split_and!; [lia | done | done | lia].
  - apply Forall_map, Forall_seq. simpl. lia.
  - rewrite map_map. unfold unused. simpl. rewrite Nat.add_0_r. induction (seq 0 num_groups); simpl; by f_equiv.
  - done.
  - by rewrite app_nil_r.
  - split; [done |]. rewrite map_map. simpl. by induction (seq 0 num_groups).
Qed.

Lemma not_all_retired (l : list group) g p : l !! g = Some p -> g_phase p <> Retired ->
  forallb (fun p => bool_decide (g_phase p = Retired)) l = false.
Proof.
  intros Hp Np. apply not_true_iff_false. intros E. rewrite forallb_forall in E.
  apply list_elem_of_lookup_2, list_elem_of_In in Hp. apply E in Hp. by apply bool_decide_eq_true in Hp.
Qed.

(** A turn of a group that stays in the kernel. *)
Lemma inv_turn out num_groups drawn s g p q next drawn' output' served' :
  inv out num_groups drawn s -> groups_of s !! g = Some p -> g_phase p <> Retired -> g_phase q <> Retired ->
  group_ok q -> ticket q < num_groups + drawn' -> drawn <= drawn' ->
  (forall rest, map rank (served s) ++ unused p ++ rest ≡ₚ seq 0 (num_groups + drawn) ->
     map rank served' ++ unused q ++ rest ≡ₚ seq 0 (num_groups + drawn')) ->
  Forall (fun i => i < n /\ active i = true) served' ->
  output' = out ++ concat (map rows_of served') ->
  (next_ticket s = drawn -> next = drawn') ->
  inv out num_groups drawn' (State next (retired s) (<[g := q]> (groups_of s)) output' served').
Proof.
  intros [Hng Hok Hgiven Ht Hs Ho Hc] Hp Np Nq Hq Hgq Hd Htick Hs' Ho' Hn. unfold finished in *.
  rewrite (not_all_retired _ g p Hp Np) in Hc. destruct Hc as [Hnext Hret].
  destruct (concat_insert unused (groups_of s) g p q Hp) as (rest & E1 & E2).
  split; simpl; try done.
  - by rewrite length_insert.
  - by apply Forall_insert.
  - apply Forall_insert; [| done]. eapply Forall_impl; [exact Hgiven |]. simpl. lia.
  - rewrite E2. apply Htick. by rewrite <- E1.
  - unfold finished. simpl. rewrite (not_all_retired _ g q); [| | done].
    + split; [by apply Hn |]. destruct (concat_insert left_kernel (groups_of s) g p q Hp) as (r & F1 & F2).
      apply Permutation_length in F1, F2. rewrite length_app in F1, F2.
      unfold left_kernel in F1 at 2. unfold left_kernel in F2 at 2. destruct (g_phase p), (g_phase q); simpl in *; congruence || lia.
    + apply list_lookup_insert_eq. by eapply lookup_lt_Some.
Qed.

(** The turn with which a group leaves: the last one out resets both counters. *)
Lemma inv_retire out num_groups drawn s g e a t : inv out num_groups drawn s ->
  groups_of s !! g = Some (Group e n a t Scan) ->
  let s' (l : bool) := State (if l then 0 else next_ticket s) (if l then 0 else S (retired s))
    (<[g := Group e n a t Retired]> (groups_of s)) (output s) (served s) in
  inv out num_groups drawn (s' (retired s =? num_groups - 1)).
Proof.
  intros [Hng Hok Hgiven Ht Hs Ho Hc] Hp s'. unfold finished in *.
  rewrite (not_all_retired _ g _ Hp) in Hc by done. destruct Hc as [Hnext Hret].
  destruct (concat_insert unused _ g _ (Group e n a t Retired) Hp) as (rest & E1 & E2).
  destruct (concat_insert left_kernel _ g _ (Group e n a t Retired) Hp) as (r & F1 & F2).
  apply Permutation_length in F1, F2. simpl in F1, F2.
  pose proof (Forall_lookup_1 _ _ _ _ Hok Hp) as Hg. unfold group_ok in Hg. simpl in Hg.
  split; simpl; try done.
  - by rewrite length_insert.
  - apply Forall_insert; [done |]. unfold group_ok. simpl. lia.
  - apply Forall_insert; [done |]. by apply (Forall_lookup_1 _ _ _ _ Hgiven Hp).
  - by rewrite E2, <- Ht, E1.
  - pose proof (all_retired (<[g := Group e n a t Retired]> (groups_of s))) as Hall.
    rewrite length_insert, F2, Hng in Hall. pose proof (lookup_lt_Some _ _ _ Hp).
    unfold finished. simpl. destruct (Nat.eqb_spec (retired s) (num_groups - 1)) as [E|E].
    + by rewrite (proj2 Hall) by lia.
    + destruct (forallb _ _); [| simpl; lia]. assert (S (length r) = num_groups) by by apply Hall. lia.
Qed.

(** Every step keeps the invariant, and takes a turn. *)
Lemma step_inv out num_groups drawn s g s' : inv out num_groups drawn s -> step g s = Some s' ->
  exists drawn', inv out num_groups drawn' s' /\ turns_left s' < turns_left s.
Proof.
  intros Hinv Hstep. pose proof (inv_ok _ _ _ _ Hinv) as Hok. pose proof (inv_groups _ _ _ _ Hinv) as Hng.
  pose proof (inv_given _ _ _ _ Hinv) as Hgiven.
  unfold step in Hstep. destruct (groups_of s !! g) as [[e i a t []]|] eqn:Hp; [| | done..].
  all: pose proof (Forall_lookup_1 _ _ _ _ Hok Hp) as Hg; unfold group_ok in Hg; simpl in Hg;
    pose proof (Forall_lookup_1 _ _ _ _ Hgiven Hp) as Hlt; simpl in Hlt.
  - destruct Hg as (Hi & -> & -> & Hle). destruct (expert_count !! i) as [c|] eqn:Hc.
    + assert (Hcount : count i = c) by by apply list_lookup_total_correct.
      pose proof (lookup_lt_Some _ _ _ Hc) as Hin. pose proof (rank_S i) as Hrank. pose proof (start_S i) as Hstart.
      assert (Hact : active i = negb (skipped c)) by (unfold active; by rewrite Hcount). rewrite Hcount in Hstart.
      destruct (skipped c); simpl in Hact; rewrite Hact in Hrank.
      * injection Hstep as <-. exists drawn. split.
        { eapply inv_turn; eauto; try done; try apply Hinv. unfold group_ok. simpl. lia. }
        { apply sum_insert with (1 := Hp). unfold turns. simpl. lia. }
      * destruct (Nat.eqb_spec (rank i) t) as [<-|Ht]; simpl in Hstep; injection Hstep as <-; exists drawn; split.
        { eapply inv_turn; eauto; try done.
          - unfold group_ok. simpl. split_and!; try done; lia.
          - intros rest <-. rewrite map_app. unfold unused. simpl. by rewrite <- !app_assoc.
          - apply Forall_app. split; [apply Hinv | by repeat constructor].
          - rewrite (inv_output _ _ _ _ Hinv), map_app, concat_app. simpl. unfold rows_of at 3.
            by rewrite Hcount, app_nil_r, app_assoc. }
        { apply sum_insert with (1 := Hp). unfold turns. simpl. lia. }
        { eapply inv_turn; eauto; try done; try apply Hinv. unfold group_ok. simpl. lia. }
        { apply sum_insert with (1 := Hp). unfold turns. simpl. lia. }
    + apply lookup_ge_None in Hc. assert (i = n) as -> by lia. exists drawn.
      pose proof (inv_retire _ _ _ _ _ _ _ _ Hinv Hp) as Hr. simpl in Hr. rewrite Hng in Hstep.
      destruct (retired s =? num_groups - 1); injection Hstep as <-;
        (split; [done | apply sum_insert with (1 := Hp); unfold turns; simpl; lia]).
  - destruct Hg as (Hi & Ha & -> & -> & ->). injection Hstep as <-. exists (S drawn).
    pose proof (inv_counters _ _ _ _ Hinv) as Hc. unfold finished in Hc.
    rewrite (not_all_retired _ g _ Hp) in Hc by done. destruct Hc as [Hnext _]. rewrite Hng, Hnext.
    pose proof (rank_S i) as Hrank. rewrite Ha in Hrank. split.
    + eapply inv_turn; eauto; try done; try apply Hinv; unfold group_ok; simpl; try lia.
      intros rest Hrest. unfold unused in *. simpl in *. rewrite Nat.add_succ_r, seq_S, <- Hrest. simpl. solve_Permutation.
    + apply sum_insert with (1 := Hp). unfold turns. simpl. lia.
Qed.

(** *** Executions *)

Lemma exec_inv schedule out num_groups drawn s s' : inv out num_groups drawn s -> exec schedule s = Some s' ->
  exists drawn', inv out num_groups drawn' s' /\ length schedule + turns_left s' <= turns_left s.
Proof.
  revert drawn s. induction schedule as [|g schedule IH]; intros drawn s Hinv Hex; simpl in Hex.
  - injection Hex as <-. exists drawn. split; [done | simpl; lia].
  - destruct (step g s) as [s1|] eqn:Hstep; [| done].
    destruct (step_inv _ _ _ _ _ _ Hinv Hstep) as (d1 & Hinv1 & Hlt).
    destruct (IH d1 s1 Hinv1 Hex) as (d' & Hinv' & Hle). exists d'. split; [done | simpl; lia].
Qed.

Lemma launch_turns out num_groups : turns_left (launch 0 0 num_groups out) = num_groups * (2 * n + 1).
Proof.
  unfold turns_left, launch. simpl. rewrite map_map. unfold turns. simpl.
  rewrite <- (length_seq num_groups 0) at 2. generalize (seq 0 num_groups) as l.
  induction l as [|g l IH]; simpl in *; [done | rewrite IH; lia].
Qed.

(** No group waits for another: whoever is still in the kernel can move. *)
Lemma step_progress s : finished s = false -> exists g s', g < length (groups_of s) /\ step g s = Some s'.
Proof.
  intros Hf. assert (exists g p, groups_of s !! g = Some p /\ g_phase p <> Retired) as (g & p & Hp & Np).
  { unfold finished in Hf. induction (groups_of s) as [|p l IH]; simpl in Hf; [done |].
    case_bool_decide as E; [| by exists 0, p]. destruct IH as (g & q & ? & ?); [done |]. by exists (S g), q. }
  assert (is_Some (step g s)) as [s' Hs']; [| exists g, s'; split; [by eapply lookup_lt_Some | done]].
  unfold step. rewrite Hp. destruct p as [e i a t []]; simpl in Np; [| done | congruence].
  by repeat case_match.
Qed.

Lemma finished_served out num_groups drawn s : 0 < num_groups -> inv out num_groups drawn s -> finished s = true ->
  served s ≡ₚ actives n.
Proof.
  intros Hpos [Hng Hok Hgiven Ht Hs _ _] Hf.
  assert (Hret : forall p, p ∈ groups_of s -> unused p = [ticket p] /\ rank n <= ticket p).
  { intros p Hp. unfold finished in Hf. rewrite forallb_forall in Hf.
    pose proof (Hf p (proj1 (list_elem_of_In _ _) Hp)) as E. apply bool_decide_eq_true in E.
    rewrite Forall_forall in Hok. pose proof (Hok p Hp) as Hg. unfold group_ok, unused in *. by rewrite E in *. }
  rewrite Forall_forall in Hs. rewrite Forall_forall in Hgiven.
  assert (Hnd : NoDup (map rank (served s) ++ concat (map unused (groups_of s)))) by (rewrite Ht; apply NoDup_seq).
  apply NoDup_app in Hnd as [Hnd _].
  apply NoDup_Permutation; [by apply NoDup_fmap_1 in Hnd | apply NoDup_filter, NoDup_seq |].
  intros i. rewrite elem_actives. split; [apply Hs |]. intros [Hi Ha]. pose proof (rank_lt i n Hi Ha) as Hr.
  assert (Hin : rank i ∈ map rank (served s) ++ concat (map unused (groups_of s))).
  { rewrite Ht. apply elem_of_seq. split; [lia |]. destruct (groups_of s) as [|p l]; [simpl in Hng; lia |].
    pose proof (Hgiven p ltac:(left)). destruct (Hret p ltac:(left)). lia. }
  apply elem_of_app in Hin as [Hin|Hin].
  - apply list_elem_of_fmap in Hin as (j & E & Hj). destruct (Hs j Hj). by rewrite (rank_inj i j).
  - exfalso. apply list_elem_of_In, in_concat in Hin as (l & Hl & Hin).
    apply in_map_iff in Hl as (p & <- & Hp). destruct (Hret p) as [E ?]; [by apply list_elem_of_In |].
    rewrite E in Hin. destruct Hin as [Hin|[]]. lia.
Qed.

(** A launch on counters that are zero, whatever order its groups move in. *)
Lemma exec_launch schedule out num_groups s : 0 < num_groups ->
  exec schedule (launch 0 0 num_groups out) = Some s ->
  length schedule <= num_groups * (2 * n + 1) /\
  (finished s = true -> next_ticket s = 0 /\ retired s = 0 /\ served s ≡ₚ actives n /\
    output s ≡ₚ out ++ concat (map rows_of (actives n))) /\
  (finished s = false -> exists g s', g < num_groups /\ step g s = Some s').
Proof.
  intros Hpos Hex. destruct (exec_inv _ _ _ _ _ _ (launch_inv out _ Hpos) Hex) as (d & Hinv & Hlen).
  rewrite launch_turns in Hlen. split; [lia |]. split; intros Hf.
  - pose proof (finished_served _ _ _ _ Hpos Hinv Hf) as Hs. pose proof (inv_counters _ _ _ _ Hinv) as Hc.
    rewrite Hf in Hc. split_and!; try apply Hc; [done |]. rewrite (inv_output _ _ _ _ Hinv). by rewrite Hs.
  - rewrite <- (inv_groups _ _ _ _ Hinv). by apply step_progress.
Qed.

(** Launches one after the other on one lock buffer and one output. *)
Inductive launches : nat -> nat -> list (contribution W) -> list nat -> nat -> nat -> list (contribution W) -> Prop :=
| launches_nil next ret out : launches next ret out [] next ret out
| launches_cons next ret out num_groups schedule s rest next' ret' out' :
    exec schedule (launch next ret num_groups out) = Some s -> finished s = true ->
    launches (next_ticket s) (retired s) (output s) rest next' ret' out' ->
    launches next ret out (num_groups :: rest) next' ret' out'.

End kernel.

(** ** The launch is the loop over the experts *)

Section refinement.
Context {W : Type} `{Inhabited W} (limit : Q) (ptrs : ptr_tables) (k : Z) (max_tokens : nat).
Context (token_sorted : list nat) (weight_sorted : list W) (expert_count : list nat).

(** What a group adds for expert [e]. *)
Definition kernel_span (e start token_count : nat) : list (contribution W) :=
  span_rows (kernel_row limit ptrs k e) token_sorted weight_sorted start token_count.

Lemma moe_spans_actives e : e <= length expert_count ->
  concat (map (rows_of expert_count kernel_span) (actives expert_count max_tokens e)) ++
    moe_spans limit ptrs k max_tokens token_sorted weight_sorted e (start expert_count e) (drop e expert_count) =
  concat (map (rows_of expert_count kernel_span) (actives expert_count max_tokens (length expert_count))).
Proof.
  remember (length expert_count - e) as m eqn:Em. revert e Em. induction m as [|m IH]; intros e Em He.
  - assert (e = length expert_count) as -> by lia. by rewrite drop_all, app_nil_r.
  - destruct (lookup_lt_is_Some_2 expert_count e) as [c Hc]; [lia |].
    rewrite <- (IH (S e)) by lia. rewrite (drop_S _ _ _ Hc), actives_S, map_app, concat_app, start_S. simpl.
    assert (Hcount : count expert_count e = c) by by apply list_lookup_total_correct.
    unfold active. rewrite Hcount. unfold skipped.
    destruct ((c =? 0) || (max_tokens <? c)); simpl; [by rewrite app_nil_r |].
    change (rows_of expert_count kernel_span e) with (kernel_span e (start expert_count e) (count expert_count e)).
    by rewrite Hcount, <- app_assoc, app_nil_r.
Qed.

Lemma moe_spans_all : moe_spans limit ptrs k max_tokens token_sorted weight_sorted 0 0 expert_count =
  concat (map (rows_of expert_count kernel_span) (actives expert_count max_tokens (length expert_count))).
Proof. rewrite <- (moe_spans_actives 0) by lia. done. Qed.

(** C17. The ticket scheduler computes the loop over the experts.  Whatever
    number of groups a launch has and in whatever order they move, it ends: no
    schedule is longer than [num_groups * (2 * num_experts + 1)] turns, and while a
    group is in the kernel some group can move.  When the last one has left, every active expert
    was worked through exactly once, the rows added to the output are those of
    the sequential loop [moe_spans], and both counters are zero for the next launch. *)
Theorem scheduler_refines_loop schedule out num_groups s : 0 < num_groups ->
  exec expert_count max_tokens kernel_span schedule (launch 0 0 num_groups out) = Some s ->
  length schedule <= num_groups * (2 * length expert_count + 1) /\
  if finished s then
    next_ticket s = 0 /\ retired s = 0 /\ served s ≡ₚ actives expert_count max_tokens (length expert_count) /\
    output s ≡ₚ out ++ moe_spans limit ptrs k max_tokens token_sorted weight_sorted 0 0 expert_count
  else exists g s', g < num_groups /\ step expert_count max_tokens kernel_span g s = Some s'.
Proof.
  intros Hpos Hex. rewrite moe_spans_all.
  destruct (exec_launch _ _ _ _ _ _ _ Hpos Hex) as (? & Hdone & Hmove). split; [done |].
  destruct (finished s); [by apply Hdone | by apply Hmove].
Qed.

(** Any sequence of launches on a zeroed lock buffer adds the loop's rows once per launch. *)
Lemma launches_add out widths next ret out' : Forall (fun num_groups => 0 < num_groups) widths ->
  launches expert_count max_tokens kernel_span 0 0 out widths next ret out' ->
  next = 0 /\ ret = 0 /\
  out' ≡ₚ out ++ concat (map (fun _ => moe_spans limit ptrs k max_tokens token_sorted weight_sorted 0 0 expert_count) widths).
Proof.
  intros Hw Hl. remember 0 as z eqn:Ez in Hl at 1. remember 0 as z' eqn:Ez' in Hl at 1. revert Ez Ez' Hw.
  induction Hl as [|next ret out num_groups schedule s rest next' ret' out' Hex Hf _ IH]; intros -> -> Hw.
  - by rewrite app_nil_r.
  - apply Forall_cons in Hw as [Hpos Hw]. destruct (exec_launch _ _ _ _ _ _ _ Hpos Hex) as (_ & Hdone & _).
    destruct (Hdone Hf) as (E1 & E2 & _ & E3). destruct (IH E1 E2 Hw) as (? & ? & E4).
    split_and!; [done.. |]. simpl. by rewrite E4, E3, <- moe_spans_all, app_assoc.
Qed.

End refinement.

(** The grid of the forward pass's launch: with the concurrency it asks for,
    the launch is refused exactly on a device of fewer than 8 SMs; otherwise, for any
    [num_active], there is a group, no more groups than buffers, every block of the
    grid has an SM of its own (the group barriers need that), and the scheduler state fits the lock
    buffer. *)
Theorem grid_fits num_active num_sms : (0 <= num_sms)%Z ->
  let concurrency := Z.max 1 (exl3_moe_max_concurrency num_sms) in
  match launch_grid concurrency num_active num_sms with
  | Raise _ => (num_sms < MOE_SMS_PER_EXPERT)%Z
  | Ok (num_groups, group_size) =>
      (1 <= num_groups <= concurrency /\ num_groups <= MOE_MAX_GROUPS /\
       MOE_SMS_PER_EXPERT <= group_size <= MOE_MAX_SMS_PER_EXPERT /\ num_groups * group_size <= num_sms /\
       MOE_SCHED_OFFSET + 2 + num_groups <= lock_ints)%Z
  end.
Proof.
  intros Hs. unfold launch_grid, exl3_moe_max_concurrency, lock_ints, MOE_SCHED_OFFSET, MOE_SCHED_INTS,
    MOE_MAX_GROUPS, MOE_MAX_SMS_PER_EXPERT, MOE_SMS_PER_EXPERT, MAX_TILES_C, MAX_BARRIERS. simpl.
  destruct (Z.ltb_spec num_sms (Z.max 1 (num_sms / 8) * 8)) as [Hlt|Hge].
  - destruct (Z.le_gt_cases (num_sms / 8) 0); [|exfalso; pose proof (Z.mul_div_le num_sms 8); lia].
    pose proof (Z.div_small_iff num_sms 8). lia.
  - destruct (Z.ltb_spec 0 num_active); [| lia].
    set (ng := Z.min (Z.min _ 64) num_active). assert (1 <= ng <= Z.max 1 (num_sms / 8))%Z by lia.
    assert (8 <= num_sms / ng)%Z by (apply Z.div_le_lower_bound; [lia | nia]).
    pose proof (Z.mul_div_le num_sms ng). split_and!; try lia. nia.
Qed.

(** *** A launch *)

Definition demo_counts : list nat := [2; 0; 5; 3; 1].
Definition demo_ptrs : ptr_tables :=
  let t := [1; 2; 3; 4; 5]%Z in Ptrs t t t t t t t t t.
Definition demo_exec (schedule : list nat) : option (@state nat) :=
  exec demo_counts 4 (kernel_span 0%Q demo_ptrs 4%Z (seq 0 11) (seq 20 11)) schedule (launch 0 0 2 []).

(** The first group works through expert 0 while the second claims expert 3, draws again and takes expert 4. *)
Definition greedy : list nat := [0; 1; 1; 1; 1; 1; 1; 1; 1; 0; 0; 0; 0; 0; 0].
(** The second group does everything but expert 0. *)
Definition late_first : list nat := [1; 1; 1; 1; 1; 1; 1; 1; 0; 0; 0; 0; 0; 0; 0].

Example served_by_tickets :
  (served <$> demo_exec greedy, served <$> demo_exec late_first, finished <$> demo_exec greedy) =
  (Some [0; 3; 4], Some [3; 4; 0], Some true).
Proof. vm_compute. reflexivity. Qed.

Lemma scheduler_refines_loop_witness : exists s, demo_exec greedy = Some s /\ next_ticket s = 0 /\
  output s ≡ₚ [] ++ moe_spans 0%Q demo_ptrs 4%Z 4 (seq 0 11) (seq 20 11) 0 0 demo_counts.
Proof.
  eexists. split; [vm_compute; reflexivity |].
  match goal with |- next_ticket ?s = _ /\ _ =>
    destruct (scheduler_refines_loop (W := nat) 0%Q demo_ptrs 4%Z 4 (seq 0 11) (seq 20 11) demo_counts
                greedy [] 2 s ltac:(lia)) as (_ & H) end; [vm_compute; reflexivity |].
  simpl in H. split; apply H.
Defined.

Lemma grid_fits_witness : (0 <= 48)%Z /\ launch_grid 6 3 48 = Ok (3, 16)%Z /\
  launch_grid (Z.max 1 (exl3_moe_max_concurrency 48)) 3 48 = Ok (3, 16)%Z /\ (3 * 16 <= 48)%Z.
Proof. pose proof (grid_fits 3 48 ltac:(lia)) as H. vm_compute in H. split_and!; [lia | reflexivity.. | lia]. Defined.
