(* ===== verification/TicketInstall.v ===== *)
(** * Installing the ticket scheduler

    Model of [main] of [overlay/patch_exl3_ticket_scheduler.py]: six CUDA files are
    recognised by their bytes or their hash, and replaced all together or not at
    all.  The vendored sets are files beside the script, so they are parameters,
    and so is SHA-256; the directory is a map from names to bytes.  A write can be
    made to fail, or to be followed by a read of other bytes, by [fault]; the
    temporary file of a failed write, which the code unlinks, is not in the map. *)
From Stdlib Require Import ZArith Lia String.
From stdpp Require Import base list strings gmap.
From S2P Require Import Prelude.
#[local] Open Scope string_scope.

Definition FILES : list string :=
  ["exl3_devctx.cu"; "exl3_devctx.cuh"; "exl3_moe.cu"; "exl3_moe.cuh"; "exl3_moe_common.cuh"; "exl3_moe_kernel.cuh"].

Definition NATIVE_V147_SHA256 : gmap string string := list_to_map [
  ("exl3_devctx.cu", "545e1909873b2bd8f6cf598edce0c7772519e2d6e4b473fc72019e678379a34a");
  ("exl3_devctx.cuh", "effb1827e9b6c61ba95287ccfa5d6a0b6ccef103c0d588d992359be9291834c0");
  ("exl3_moe.cu", "ce394daf0cebafd65e848dffb374562554560b38f52b7070df5d782b1488b218");
  ("exl3_moe.cuh", "96f4fc2473474986cd4494554355efe2079a3b717c8612eadf5193334cfbd15f");
  ("exl3_moe_common.cuh", "b3c4e2399b8cf5a9c038dbe06da0aa8e4a3500dcd838e1c4a0ac95b22ce2acd6");
  ("exl3_moe_kernel.cuh", "6f58cfa0f66557c867ad821ffe9f165da0b3e760eb8633f734b8dbd95696501a")].

Definition NATIVE_V147_SHARED_HEADER : string := "exl3_moe.cuh".

(** How a run ends: the counts of its last line, an exit, an exception. *)
Inductive refusal :=
| Usage | InvalidRoot | MissingVendored | VendoredIdentical (name : string) | MixedNative
| Drifted (name : string) | MixedFirst | VerifyFailed (name : string) | MixedLast.

Inductive outcome :=
| Skipped
| Native
| Installed (patched already : nat)
| SystemExit (why : refusal)
| FileNotFoundError (name : string)
| OSError (name : string).

Lemma filter_single {A} (P : A -> Prop) `{forall x, Decision (P x)} x :
  base.filter P [x] = if decide (P x) then [x] else [].
Proof. by rewrite filter_cons, filter_nil. Qed.

Section install.
Context {B : Type} `{EqDecision B} (sha : B -> string) (pristine patched : string -> B).

(** What happens to the write of a file: nothing special, an exception before
    [os.replace], or a read back of other bytes. *)
Inductive fault := Clean | WriteError | ReadBack (data : B).

Abbreviation dir := (gmap string B).

Definition native_hash (name : string) (data : B) : bool :=
  bool_decide (NATIVE_V147_SHA256 !! name = Some (sha data)).

Definition tree_is_native_v147 (quant : dir) : bool :=
  forallb (fun name => if quant !! name is Some data then native_hash name data else false) FILES.

(** The counters and lists of the first loop. *)
Record survey := Survey {
  n_already : nat; n_pristine : nat; plan : list (string * B);
  native_exclusive : list string; drifted : list string; patched_exclusive : list string
}.

Definition note_native (name : string) (current : B) (v : survey) : survey :=
  if native_hash name current && negb (bool_decide (name = NATIVE_V147_SHARED_HEADER)) then
    Survey (n_already v) (n_pristine v) (plan v) (native_exclusive v ++ [name]) (drifted v) (patched_exclusive v)
  else v.

Definition note_bytes (name : string) (current : B) (v : survey) : survey :=
  if decide (current = patched name) then
    Survey (S (n_already v)) (n_pristine v) (plan v) (native_exclusive v) (drifted v)
      (if bool_decide (name = NATIVE_V147_SHARED_HEADER) then patched_exclusive v else patched_exclusive v ++ [name])
  else if decide (current = pristine name) then
    Survey (n_already v) (S (n_pristine v)) (plan v ++ [(name, patched name)])
      (native_exclusive v) (drifted v) (patched_exclusive v)
  else
    Survey (n_already v) (n_pristine v) (plan v) (native_exclusive v) (drifted v ++ [name]) (patched_exclusive v).

Fixpoint scan (names : list string) (quant : dir) (v : survey) : outcome + survey :=
  match names with
  | [] => inr v
  | name :: names =>
      if decide (pristine name = patched name) then inl (SystemExit (VendoredIdentical name))
      else
        match quant !! name with
        | None => inl (FileNotFoundError name)
        | Some current => scan names quant (note_bytes name current (note_native name current v))
        end
  end.

(** The second loop: [n_patched] so far, the directory, and how it stopped. *)
Fixpoint apply_plan (faults : string -> fault) (todo : list (string * B)) (n_patched : nat) (quant : dir) :
    (outcome + nat) * dir :=
  match todo with
  | [] => (inr n_patched, quant)
  | (name, data) :: todo =>
      match faults name with
      | WriteError => (inl (OSError name), quant)
      | Clean => apply_plan faults todo (S n_patched) (<[name := data]> quant)
      | ReadBack seen =>
          if decide (seen = data) then apply_plan faults todo (S n_patched) (<[name := data]> quant)
          else (inl (SystemExit (VerifyFailed name)), <[name := seen]> quant)
      end
  end.

Definition nonempty {A} (l : list A) : bool := if l is [] then false else true.

(** From the survey on. *)
Definition decide_and_write (faults : string -> fault) (v : survey) (quant : dir) : outcome * dir :=
  if nonempty (native_exclusive v) && ((0 <? n_pristine v)%nat || nonempty (patched_exclusive v) || nonempty (drifted v))
  then (SystemExit MixedNative, quant)
  else if drifted v is name :: _ then (SystemExit (Drifted name), quant)
  else if nonempty (plan v) && (0 <? n_already v)%nat then (SystemExit MixedFirst, quant)
  else
    match apply_plan faults (plan v) 0 quant with
    | (inl stop, quant) => (stop, quant)
    | (inr n_patched, quant) =>
        if (0 <? n_patched)%nat && (0 <? n_already v)%nat then (SystemExit MixedLast, quant)
        else (Installed n_patched (n_already v), quant)
    end.

(** [main]; [quant] is [None] when the directory is missing. *)
Definition main (argc : nat) (vendored : bool) (env : environ) (faults : string -> fault) (quant : option dir) :
    outcome * option dir :=
  if negb (argc =? 2)%nat then (SystemExit Usage, quant)
  else
    match quant with
    | None => (SystemExit InvalidRoot, None)
    | Some d =>
        if negb vendored then (SystemExit MissingVendored, quant)
        else if bool_decide (environ_get env "GLM53_EXL3_TICKET_SCHEDULER" "1" = "0") then (Skipped, quant)
        else if tree_is_native_v147 d then (Native, quant)
        else
          match scan FILES d (Survey 0 0 [] [] [] []) with
          | inl stop => (stop, quant)
          | inr v => let '(o, d') := decide_and_write faults v d in (o, Some d')
          end
    end.

(** ** What the survey finds *)

Definition is_patched (d : dir) (name : string) : Prop := d !! name = Some (patched name).
Definition is_pristine (d : dir) (name : string) : Prop := d !! name = Some (pristine name).
Definition exclusive (name : string) : Prop := name <> NATIVE_V147_SHARED_HEADER.

Definition is_native (d : dir) (name : string) : Prop := native_hash name <$> d !! name = Some true.

#[global] Instance is_patched_dec d name : Decision (is_patched d name).
Proof. unfold is_patched. apply _. Defined.
#[global] Instance is_pristine_dec d name : Decision (is_pristine d name).
Proof. unfold is_pristine. apply _. Defined.
#[global] Instance is_native_dec d name : Decision (is_native d name).
Proof. unfold is_native. apply _. Defined.
#[global] Instance exclusive_dec name : Decision (exclusive name).
Proof. unfold exclusive. apply _. Defined.

(** The survey of a directory in which every file is there, in closed form. *)
Definition survey_of (d : dir) (names : list string) : survey :=
  let already := base.filter (is_patched d) names in
  let fresh := base.filter (is_pristine d) names in
  Survey (length already) (length fresh) (map (fun name => (name, patched name)) fresh)
    (base.filter (fun name => is_native d name /\ exclusive name) names)
    (base.filter (fun name => ~ is_patched d name /\ ~ is_pristine d name) names)
    (base.filter exclusive already).

Definition join (v w : survey) : survey :=
  Survey (n_already v + n_already w) (n_pristine v + n_pristine w) (plan v ++ plan w)
    (native_exclusive v ++ native_exclusive w) (drifted v ++ drifted w) (patched_exclusive v ++ patched_exclusive w).

Definition complete (d : dir) : Prop := Forall (fun name => is_Some (d !! name)) FILES.

#[local] Opaque native_hash.

Context (Hdistinct : forall name, pristine name <> patched name).

Lemma note_survey d name current v : d !! name = Some current ->
  note_bytes name current (note_native name current v) = join v (survey_of d [name]).
Proof.
  intros Hd. pose proof (Hdistinct name) as Hne.
  assert (Hp : is_patched d name <-> current = patched name) by (unfold is_patched; rewrite Hd; split; congruence).
  assert (Hr : is_pristine d name <-> current = pristine name) by (unfold is_pristine; rewrite Hd; split; congruence).
  assert (Hn : is_native d name <-> native_hash name current = true) by (unfold is_native; rewrite Hd; simpl; split; [by intros [= E] | by intros ->]).
  assert (Hnat : note_native name current v = join v (Survey 0 0 []
      (base.filter (fun name => is_native d name /\ exclusive name) [name]) [] [])).
  { unfold note_native. rewrite filter_single. destruct v. unfold join. simpl. rewrite !Nat.add_0_r, !app_nil_r.
    destruct (native_hash name current) eqn:E; simpl; [| rewrite decide_False by (rewrite Hn; intuition congruence); by rewrite app_nil_r].
    case_bool_decide as Ex; simpl; [rewrite decide_False by (unfold exclusive; tauto) |
      rewrite decide_True by (unfold exclusive; tauto)]; by rewrite ?app_nil_r. }
  rewrite Hnat. unfold note_bytes, survey_of, join. rewrite !(filter_single (is_patched d)), !(filter_single (is_pristine d)).
  rewrite (filter_single (fun name => ~ is_patched d name /\ ~ is_pristine d name)). simpl.
  destruct (decide (current = patched name)) as [Ep|Ep].
  - rewrite (decide_True (P := is_patched d name)), (decide_False (P := is_pristine d name)) by (rewrite ?Hp, ?Hr; congruence).
    rewrite (filter_single exclusive), (decide_False (P := ~ is_patched d name /\ ~ is_pristine d name)) by tauto. rewrite !app_nil_r, Nat.add_0_r.
    case_bool_decide; [rewrite (decide_False (P := exclusive name)) by (unfold exclusive; tauto) |
      rewrite (decide_True (P := exclusive name)) by done]; rewrite ?app_nil_r; f_equal; simpl; lia.
  - rewrite (decide_False (P := is_patched d name)) by tauto. rewrite filter_nil. simpl.
    destruct (decide (current = pristine name)) as [Er|Er];
      [rewrite (decide_True (P := is_pristine d name)), decide_False by tauto |
       rewrite (decide_False (P := is_pristine d name)), decide_True by tauto];
      simpl; rewrite !app_nil_r, ?Nat.add_0_r; f_equal; simpl; lia.
Qed.

Lemma survey_of_app d l k : survey_of d (l ++ k) = join (survey_of d l) (survey_of d k).
Proof. unfold survey_of, join. simpl. by rewrite !filter_app, !length_app, map_app. Qed.

Lemma join_assoc u v w : join (join u v) w = join u (join v w).
Proof. unfold join. simpl. by rewrite !Nat.add_assoc, !app_assoc. Qed.

Lemma scan_complete names d v : Forall (fun name => is_Some (d !! name)) names ->
  scan names d v = inr (join v (survey_of d names)).
Proof.
  revert v. induction names as [|name names IH]; intros v Hall; simpl.
  - destruct v. unfold join, survey_of. simpl. by rewrite !Nat.add_0_r, !app_nil_r.
  - apply Forall_cons in Hall as [[current Hd] Hall]. rewrite decide_False by apply Hdistinct. rewrite Hd.
    rewrite IH by done. by rewrite (note_survey d), join_assoc, <- survey_of_app by done.
Qed.

Lemma survey_complete d : complete d -> scan FILES d (Survey 0 0 [] [] [] []) = inr (survey_of d FILES).
Proof. intros Hd. by rewrite scan_complete. Qed.

Lemma patched_not_pristine d name : is_patched d name -> ~ is_pristine d name.
Proof. unfold is_patched, is_pristine. intros -> [= E]. by apply (Hdistinct name). Qed.

Lemma filter_nil_iff {A} (P : A -> Prop) `{forall x, Decision (P x)} l : base.filter P l = [] <-> Forall (fun x => ~ P x) l.
Proof.
  rewrite Forall_forall. split.
  - intros E x Hx Hp. assert (x ∈ base.filter P l) by by apply list_elem_of_filter. rewrite E in H0. by apply not_elem_of_nil in H0.
  - intros Hall. induction l as [|x l IH]; [done |]. rewrite filter_cons_False by (apply Hall; left).
    apply IH. intros y Hy. apply Hall. by right.
Qed.

Lemma filter_all_iff {A} (P : A -> Prop) `{forall x, Decision (P x)} l : Forall P l -> base.filter P l = l.
Proof. induction 1 as [|x l Hx _ IH]; [done |]. by rewrite filter_cons_True, IH. Qed.

Lemma nonempty_false {A} (l : list A) : nonempty l = false <-> l = [].
Proof. by destruct l. Qed.

(** No drift and no mixture leaves two cases. *)
Lemma unmixed d : drifted (survey_of d FILES) = [] ->
  nonempty (plan (survey_of d FILES)) && (0 <? n_already (survey_of d FILES))%nat = false ->
  Forall (is_pristine d) FILES \/ Forall (is_patched d) FILES.
Proof.
  simpl. rewrite filter_nil_iff. intros Hdrift Hmix. apply andb_false_iff in Hmix as [Hmix|Hmix].
  - right. apply nonempty_false, fmap_nil_inv, filter_nil_iff in Hmix. rewrite Forall_forall in *.
    intros x Hx. specialize (Hdrift x Hx). specialize (Hmix x Hx). destruct (decide (is_patched d x)); tauto.
  - left. apply Nat.ltb_ge, Nat.le_0_r, nil_length_inv, filter_nil_iff in Hmix. rewrite Forall_forall in *.
    intros x Hx. specialize (Hdrift x Hx). specialize (Hmix x Hx). destruct (decide (is_pristine d x)); tauto.
Qed.

Context (Hpristine : forall name, exclusive name -> native_hash name (pristine name) = false).
Context (Hpatched : forall name, exclusive name -> native_hash name (patched name) = false).

Definition recognised (d : dir) : Prop := Forall (fun name => is_pristine d name \/ is_patched d name) FILES.

Lemma none_native d : recognised d ->
  native_exclusive (survey_of d FILES) = [] /\ drifted (survey_of d FILES) = [] /\ tree_is_native_v147 d = false.
Proof.
  intros Hd. unfold recognised in Hd. split_and!; simpl.
  - apply filter_nil_iff. eapply Forall_impl; [exact Hd |]. intros name Hn [Hnat Hex]. unfold is_native in Hnat.
    destruct Hn as [E|E]; unfold is_pristine, is_patched in E; rewrite E in Hnat; simpl in Hnat.
    + by rewrite Hpristine in Hnat.
    + by rewrite Hpatched in Hnat.
  - apply filter_nil_iff. eapply Forall_impl; [exact Hd |]. cbv beta. tauto.
  - rewrite Forall_forall in Hd. unfold tree_is_native_v147, is_pristine, is_patched in *. simpl.
    destruct (Hd "exl3_devctx.cu" ltac:(left)) as [E|E]; rewrite E; [by rewrite Hpristine | by rewrite Hpatched].
Qed.

Lemma pristine_recognised d : Forall (is_pristine d) FILES -> recognised d.
Proof. intros Hd. eapply Forall_impl; [exact Hd |]. by left. Qed.
Lemma patched_recognised d : Forall (is_patched d) FILES -> recognised d.
Proof. intros Hd. eapply Forall_impl; [exact Hd |]. by right. Qed.
Lemma recognised_complete d : recognised d -> complete d.
Proof. intros Hd. eapply Forall_impl; [exact Hd |]. intros x [E|E]; by eexists. Qed.

#[local] Hint Resolve pristine_recognised patched_recognised recognised_complete : core.

(** *** The writes *)

Definition write_all (todo : list (string * B)) (d : dir) : dir := fold_left (fun d p => <[p.1 := p.2]> d) todo d.

Definition with_patch (names : list string) : list (string * B) := map (fun name => (name, patched name)) names.

Lemma write_all_lookup names d name : write_all (with_patch names) d !! name =
  if decide (name ∈ names) then Some (patched name) else d !! name.
Proof.
  revert d. induction names as [|x names IH]; intros d; simpl; [done |].
  unfold write_all, with_patch in IH. rewrite IH. destruct (decide (name ∈ names)) as [Hin|Hin].
  - by rewrite decide_True by (by right).
  - destruct (decide (name = x)) as [->|Hne].
    + rewrite lookup_insert_eq. by rewrite decide_True by left.
    + rewrite lookup_insert_ne by done. rewrite decide_False; [done |]. by intros [?|?]%elem_of_cons.
Qed.

Lemma apply_plan_clean names n d :
  apply_plan (fun _ => Clean) (with_patch names) n d = (inr (n + length names), write_all (with_patch names) d).
Proof.
  revert n d. induction names as [|x names IH]; intros n d; simpl; [by rewrite Nat.add_0_r |].
  unfold with_patch in IH. by rewrite IH, Nat.add_succ_r.
Qed.

(** A write that raises leaves the files before it replaced. *)
Lemma apply_plan_error faults names n d name d' :
  apply_plan faults (with_patch names) n d = (inl (OSError name), d') ->
  exists before after, names = (before ++ name :: after)%list /\ d' = write_all (with_patch before) d.
Proof.
  revert n d. induction names as [|x names IH]; intros n d E; simpl in E; [done |].
  destruct (faults x) as [| |seen].
  - destruct (IH _ _ E) as (before & after & -> & ->). by exists (x :: before), after.
  - injection E as <- <-. by exists [], names.
  - case_decide; [| done]. destruct (IH _ _ E) as (before & after & -> & ->). by exists (x :: before), after.
Qed.

(** ** The installer *)

#[local] Arguments apply_plan : simpl never.

Abbreviation run env faults d := (main 2 true env faults (Some d)).

Definition opted_out (env : environ) : Prop := environ_get env "GLM53_EXL3_TICKET_SCHEDULER" "1" = "0".

Lemma run_survey env faults d : complete d -> ~ opted_out env -> tree_is_native_v147 d = false ->
  run env faults d = prod_map id Some (decide_and_write faults (survey_of d FILES) d).
Proof.
  intros Hd Ho Hn. unfold main. cbn [Nat.eqb negb]. rewrite bool_decide_false by done. rewrite Hn, survey_complete by done.
  by destruct (decide_and_write _ _ _).
Qed.

(** All pristine: every file is replaced. *)
Lemma decide_pristine faults d : Forall (is_pristine d) FILES ->
  decide_and_write faults (survey_of d FILES) d =
    match apply_plan faults (with_patch FILES) 0 d with
    | (inl stop, quant) => (stop, quant)
    | (inr n_patched, quant) => (Installed n_patched 0, quant)
    end.
Proof.
  intros Hd. destruct (none_native d) as (Hnat & Hx & _); [auto |].
  assert (Hp : base.filter (is_patched d) FILES = []).
  { apply filter_nil_iff. eapply Forall_impl; [exact Hd |]. intros x Hr Hy. by apply (patched_not_pristine d x). }
  unfold decide_and_write. rewrite Hnat, Hx. simpl. rewrite Hp, filter_all_iff by done. simpl.
  destruct (apply_plan _ _ _ _) as [[stop|n] q]; [done |]. by rewrite andb_false_r.
Qed.

(** All patched: nothing to do. *)
Lemma decide_patched faults d : Forall (is_patched d) FILES ->
  decide_and_write faults (survey_of d FILES) d = (Installed 0 6, d).
Proof.
  intros Hd. destruct (none_native d) as (Hnat & Hx & _); [auto |].
  assert (Hp : base.filter (is_pristine d) FILES = []).
  { apply filter_nil_iff. eapply Forall_impl; [exact Hd |]. intros x. apply patched_not_pristine. }
  unfold decide_and_write. rewrite Hnat, Hx. simpl. by rewrite Hp, filter_all_iff.
Qed.

(** Some files patched and some pristine: refused. *)
Lemma decide_partial faults d new old : recognised d -> new ∈ FILES -> is_patched d new -> old ∈ FILES -> is_pristine d old ->
  decide_and_write faults (survey_of d FILES) d = (SystemExit MixedFirst, d).
Proof.
  intros Hd Hnew Hpn Hold Hpo. destruct (none_native d Hd) as (Hnat & Hx & _).
  unfold decide_and_write. rewrite Hnat, Hx. simpl.
  assert (new ∈ base.filter (is_patched d) FILES) as Hin by by apply list_elem_of_filter.
  assert (old ∈ base.filter (is_pristine d) FILES) as Hio by by apply list_elem_of_filter.
  destruct (base.filter (is_patched d) FILES); [by apply not_elem_of_nil in Hin |].
  destruct (base.filter (is_pristine d) FILES); [by apply not_elem_of_nil in Hio |]. done.
Qed.

(** Anything else is refused before a write. *)
Lemma decide_mixed faults d : ~ Forall (is_pristine d) FILES -> ~ Forall (is_patched d) FILES ->
  exists why, decide_and_write faults (survey_of d FILES) d = (SystemExit why, d) /\
    (why = MixedNative \/ (exists name, why = Drifted name) \/ why = MixedFirst).
Proof.
  intros Hr Hp. pose proof (unmixed d) as Hu. unfold decide_and_write.
  destruct (_ && (_ || _ || _)); [by eexists; split; [|left] |].
  destruct (drifted (survey_of d FILES)) as [|name l] eqn:Hd; [| by eexists; split; [|right; left; eexists]].
  destruct (_ && _) eqn:Hm; [by eexists; split; [|right; right] |]. destruct (Hu eq_refl eq_refl); tauto.
Qed.

Lemma patched_after d : Forall (is_patched (write_all (with_patch FILES) d)) FILES.
Proof. apply Forall_forall. intros name Hn. unfold is_patched. by rewrite write_all_lookup, decide_True. Qed.

Lemma run_recognised env faults d : ~ opted_out env -> recognised d ->
  run env faults d = prod_map id Some (decide_and_write faults (survey_of d FILES) d).
Proof. intros Ho Hd. apply run_survey; [auto | done |]. by apply none_native. Qed.

Lemma run_patched env faults d : ~ opted_out env -> Forall (is_patched d) FILES ->
  run env faults d = (Installed 0 6, Some d).
Proof. intros Ho Hd. by rewrite run_recognised, decide_patched by auto. Qed.

(** The installer replaces all six files or none.  With every write
    succeeding, a run on a complete tree ends in one of these ways: the opt-out or the native
    set, and nothing is written; all six files pristine, and each of them is replaced by
    its patched bytes while no other file of the directory changes; all six already patched,
    and nothing is written; and every mixture or drift is refused before the first write.  After
    an installation the next run finds six patched files. *)
Theorem install_all_or_nothing d env : complete d ->
  let '(o, d') := run env (fun _ => Clean) d in
  match o with
  | Skipped => opted_out env /\ d' = Some d
  | Native => Forall (is_native d) FILES /\ d' = Some d
  | Installed new old =>
      (new = 6 /\ old = 0 /\ Forall (is_pristine d) FILES /\
       exists d1, d' = Some d1 /\ (forall name, d1 !! name = if decide (name ∈ FILES) then Some (patched name) else d !! name) /\
         run env (fun _ => Clean) d1 = (Installed 0 6, Some d1)) \/
      (new = 0 /\ old = 6 /\ Forall (is_patched d) FILES /\ d' = Some d)
  | SystemExit why => (why = MixedNative \/ (exists name, why = Drifted name) \/ why = MixedFirst) /\
      d' = Some d /\ ~ Forall (is_pristine d) FILES /\ ~ Forall (is_patched d) FILES
  | _ => False
  end.
Proof.
  intros Hd. destruct (decide (opted_out env)) as [Ho|Ho].
  { unfold main. cbn [Nat.eqb negb]. rewrite bool_decide_true by done. done. }
  destruct (tree_is_native_v147 d) eqn:Hn.
  { unfold main. cbn [Nat.eqb negb]. rewrite bool_decide_false, Hn by done. split; [| done].
    unfold tree_is_native_v147 in Hn. apply Forall_forall. intros x Hx. rewrite forallb_forall in Hn.
    apply list_elem_of_In in Hx. specialize (Hn x Hx). unfold is_native. destruct (d !! x); [| done]. simpl. by rewrite Hn. }
  rewrite run_survey by done.
  destruct (decide (Forall (is_pristine d) FILES)) as [Hr|Hr].
  { rewrite decide_pristine, apply_plan_clean by done. simpl. left. split_and!; try done. eexists. split; [done |]. split.
    - intros name. exact (write_all_lookup FILES d name).
    - apply run_patched; [done | apply patched_after]. }
  destruct (decide (Forall (is_patched d) FILES)) as [Hp|Hp]; [rewrite decide_patched by done; by right |].
  destruct (decide_mixed (fun _ => Clean) d Hr Hp) as (why & -> & Hwhy). done.
Qed.

(** An interrupted installation does not pass for a finished one.  When a
    write raises, the files before it in the list are patched and the others are as they
    were; so either nothing was written, or the next run refuses the tree and leaves it alone. *)
Theorem interrupted_install_refused d env faults name d' : ~ opted_out env -> Forall (is_pristine d) FILES ->
  run env faults d = (OSError name, Some d') ->
  exists before after, FILES = (before ++ name :: after)%list /\
    (forall x, d' !! x = if decide (x ∈ before) then Some (patched x) else d !! x) /\
    if before is [] then d' = d else run env (fun _ => Clean) d' = (SystemExit MixedFirst, Some d').
Proof.
  intros Ho Hd Hrun. rewrite run_recognised, decide_pristine in Hrun by auto.
  destruct (apply_plan faults (with_patch FILES) 0 d) as [[stop|m] q] eqn:E; simplify_eq/=.
  destruct (apply_plan_error _ FILES _ _ _ _ E) as (before & after & HF & ->).
  exists before, after. split; [done |]. split; [intros x; apply write_all_lookup |].
  destruct before as [|first before]; [done |]. rewrite Forall_forall in Hd.
  assert (Hname : name ∉ first :: before).
  { assert (Hnd : NoDup FILES) by (apply (bool_decide_unpack _); vm_compute; done).
    rewrite HF in Hnd. apply NoDup_app in Hnd as (_ & Hnd & _). intros Hin. apply (Hnd name Hin). left. }
  assert (Hrec : recognised (write_all (with_patch (first :: before)) d)).
  { apply Forall_forall. intros x Hx. unfold is_pristine, is_patched. rewrite write_all_lookup.
    destruct (decide (x ∈ first :: before)); [by right | left; by apply Hd]. }
  rewrite run_recognised by done. rewrite (decide_partial _ _ first name); [done | exact Hrec | rewrite HF; left | | |].
  - unfold is_patched. by rewrite write_all_lookup, decide_True by left.
  - rewrite HF. apply elem_of_app. right. left.
  - unfold is_pristine. rewrite write_all_lookup, decide_False by done. apply Hd. rewrite HF. apply elem_of_app. right. left.
Qed.

End install.

(** ** A tree *)

Definition demo_sha (data : string) : string := "sha256 of " +:+ data.
Definition demo_pristine (name : string) : string := "c5d9c657 " +:+ name.
Definition demo_patched (name : string) : string := "d5e4361 " +:+ name.
Definition demo_tree : gmap string string :=
  <["README" := "a file of another name"]> (list_to_map (map (fun name => (name, demo_pristine name)) FILES)).
Definition demo_run (faults : string -> fault) (d : gmap string string) : outcome * option (gmap string string) :=
  main demo_sha demo_pristine demo_patched 2 true ∅ faults (Some d).
Definition demo_fault (name : string) : fault (B := string) := if decide (name = "exl3_moe.cuh") then WriteError else Clean.

Lemma demo_distinct name : demo_pristine name <> demo_patched name.
Proof. unfold demo_pristine, demo_patched. simpl. discriminate. Qed.

Lemma demo_not_native name data : native_hash demo_sha name data = false.
Proof.
  unfold native_hash. apply bool_decide_eq_false. intros E. apply elem_of_list_to_map_2 in E.
  repeat (apply elem_of_cons in E as [E|E]; [discriminate E |]). by apply not_elem_of_nil in E.
Qed.

Lemma demo_all_pristine : Forall (is_pristine demo_pristine demo_tree) FILES.
Proof. apply (bool_decide_unpack _). vm_compute. exact I. Qed.

Lemma install_all_or_nothing_witness : Forall (fun name => is_Some (demo_tree !! name)) FILES /\
  exists d, demo_run (fun _ => Clean) demo_tree = (Installed 6 0, Some d) /\
    d !! "exl3_moe.cu" = Some "d5e4361 exl3_moe.cu" /\ d !! "README" = Some "a file of another name" /\
    demo_run (fun _ => Clean) d = (Installed 0 6, Some d).
Proof.
  assert (Hc : complete demo_tree) by (eapply Forall_impl; [exact demo_all_pristine | intros x E; by eexists]).
  split; [exact Hc |].
  pose proof (install_all_or_nothing demo_sha demo_pristine demo_patched demo_distinct
    (fun name _ => demo_not_native name _) (fun name _ => demo_not_native name _) demo_tree ∅ Hc) as H.
  assert (Eo : (demo_run (fun _ => Clean) demo_tree).1 = Installed 6 0) by (vm_compute; reflexivity).
  unfold demo_run in *. destruct (main _ _ _ _ _ _ _ (Some demo_tree)) as [o d']. simpl in Eo. subst o.
  destruct H as [(_ & _ & _ & d1 & -> & Hl & Hrun)|(H6 & _)]; [| discriminate H6].
  exists d1. split_and!; [reflexivity | | | exact Hrun]; rewrite Hl; vm_compute; reflexivity.
Defined.

Lemma interrupted_install_refused_witness : exists d, demo_run demo_fault demo_tree = (OSError "exl3_moe.cuh", Some d) /\
  demo_run (fun _ => Clean) d = (SystemExit MixedFirst, Some d).
Proof.
  pose proof (interrupted_install_refused demo_sha demo_pristine demo_patched demo_distinct
    (fun name _ => demo_not_native name _) (fun name _ => demo_not_native name _) demo_tree ∅ demo_fault "exl3_moe.cuh") as H.
  assert (Eo : (demo_run demo_fault demo_tree).1 = OSError "exl3_moe.cuh") by (vm_compute; reflexivity).
  assert (Ed : if (demo_run demo_fault demo_tree).2 then True else False) by (vm_compute; exact I).
  unfold demo_run in *. destruct (main _ _ _ _ _ _ demo_fault (Some demo_tree)) as [o d']. simpl in Eo, Ed. subst o.
  destruct d' as [d|]; [| contradiction]. exists d. split; [reflexivity |].
  destruct (H d ltac:(vm_compute; discriminate) demo_all_pristine eq_refl) as (before & after & HF & _ & Hb).
  destruct before as [|x before]; [discriminate HF | exact Hb].
Defined.
