(* ===== verification/HeapQ.v ===== *)
(** * Python's [heapq]

    The binary heap of the standard library as the audits use it: [heappush] and
    [heappop] on a list, with the two sift loops written as they are (the hole
    moves, and the item is written once, at the end).  The order is an argument; the theorems are for
    a total preorder: both operations keep the heap shape and the
    elements, and [heappop] returns a least one. *)
From Stdlib Require Import Lia.
From stdpp Require Import base list.
Open Scope nat_scope.

Section heapq.
Context {A : Type} `{Inhabited A} (lt : A -> A -> bool).

Definition parent (i : nat) : nat := (i - 1) / 2.

(** [_siftdown(heap, startpos, pos)], [newitem] in hand; the fuel is the position. *)
Fixpoint siftdown_loop (fuel startpos pos : nat) (newitem : A) (heap : list A) : list A :=
  match fuel with
  | 0 => <[pos := newitem]> heap
  | S fuel =>
      if startpos <? pos then
        let parentpos := parent pos in
        if lt newitem (heap !!! parentpos) then
          siftdown_loop fuel startpos parentpos newitem (<[pos := heap !!! parentpos]> heap)
        else <[pos := newitem]> heap
      else <[pos := newitem]> heap
  end.

Definition _siftdown (heap : list A) (startpos pos : nat) : list A :=
  siftdown_loop pos startpos pos (heap !!! pos) heap.

(** The smaller child; [childpos] is the left one and is in the heap. *)
Definition smaller_child (heap : list A) (childpos : nat) : nat :=
  let rightpos := S childpos in
  if (rightpos <? length heap) && negb (lt (heap !!! childpos) (heap !!! rightpos)) then rightpos else childpos.

(** [_siftup(heap, pos)]: down to a leaf, then up again. *)
Fixpoint siftup_loop (fuel pos : nat) (newitem : A) (heap : list A) : nat * list A :=
  match fuel with
  | 0 => (pos, <[pos := newitem]> heap)
  | S fuel =>
      if 2 * pos + 1 <? length heap then
        let childpos := smaller_child heap (2 * pos + 1) in
        siftup_loop fuel childpos newitem (<[pos := heap !!! childpos]> heap)
      else (pos, <[pos := newitem]> heap)
  end.

Definition _siftup (heap : list A) (pos : nat) : list A :=
  let '(leaf, heap) := siftup_loop (length heap) pos (heap !!! pos) heap in _siftdown heap pos leaf.

Definition heappush (heap : list A) (item : A) : list A :=
  let heap := heap ++ [item] in _siftdown heap 0 (length heap - 1).

(** [None] is the [IndexError] of an empty heap. *)
Definition heappop (heap : list A) : option (A * list A) :=
  match last heap with
  | None => None
  | Some lastelt =>
      match take (length heap - 1) heap with
      | [] => Some (lastelt, [])
      | returnitem :: rest => Some (returnitem, _siftup (lastelt :: rest) 0)
      end
  end.

(** ** The heap order *)

Definition le (a b : A) : Prop := lt b a = false.

Class TotalPreorder := {
  le_trans a b c : le a b -> le b c -> le a c;
  lt_le a b : lt a b = true -> le a b
}.

Context `{TotalPreorder}.

Lemma le_refl a : le a a.
Proof. unfold le. destruct (lt a a) eqn:E; [| done]. pose proof (lt_le _ _ E) as E'. unfold le in E'. congruence. Qed.

(** Every edge of the tree but those of [pos], and around [pos] the grandparent edges. *)
Definition edges_but (heap : list A) (pos : nat) : Prop :=
  (forall i, 0 < i < length heap -> i <> pos -> parent i <> pos -> le (heap !!! parent i) (heap !!! i)) /\
  (forall i, 0 < i < length heap -> parent i = pos -> 0 < pos -> le (heap !!! parent pos) (heap !!! i)).

Definition down_ok (heap : list A) (pos : nat) : Prop :=
  forall i, 0 < i < length heap -> parent i = pos -> le (heap !!! pos) (heap !!! i).

Definition is_heap (heap : list A) : Prop := forall i, 0 < i < length heap -> le (heap !!! parent i) (heap !!! i).

Lemma parent_lt i : 0 < i -> parent i < i.
Proof. intros Hi. unfold parent. apply Nat.Div0.div_lt_upper_bound. lia. Qed.

Lemma parent_child i p : 0 < i -> parent i = p <-> i = 2 * p + 1 \/ i = 2 * p + 2.
Proof.
  intros Hi. unfold parent. pose proof (Nat.div_mod_eq (i - 1) 2). pose proof (Nat.mod_upper_bound (i - 1) 2). lia.
Qed.

(** The hole's neighbour moves into it: with the item written, an exchange. *)
Lemma hole_exchange (heap : list A) pos q item : pos < length heap -> q < length heap -> pos <> q ->
  <[q := item]> (<[pos := heap !!! q]> heap) ≡ₚ <[pos := item]> heap.
Proof.
  intros Hp Hq Hne. apply Permutation_inj. split; [by rewrite !length_insert |].
  exists (fun i => if decide (i = pos) then q else if decide (i = q) then pos else i). split.
  - intros i j E. simpl in E. repeat case_decide; congruence.
  - intros i. simpl. destruct (decide (i = pos)) as [->|]; [| destruct (decide (i = q)) as [->|]].
    + rewrite list_lookup_insert_ne, list_lookup_insert_eq by done.
      by rewrite list_lookup_insert_ne, list_lookup_lookup_total_lt by done.
    + rewrite list_lookup_insert_eq by (by rewrite length_insert). by rewrite list_lookup_insert_eq.
    + by rewrite !list_lookup_insert_ne.
Qed.

(** *** [_siftdown]: up towards the root *)

Lemma edges_is_heap heap pos : edges_but heap pos -> down_ok heap pos ->
  (0 < pos < length heap -> le (heap !!! parent pos) (heap !!! pos)) -> is_heap heap.
Proof.
  intros [He _] Hd Hp i Hi. destruct (decide (i = pos)) as [->|]; [by apply Hp |].
  destruct (decide (parent i = pos)) as [<-|]; [by apply Hd | by apply He].
Qed.

Lemma write_lookup (heap : list A) pos item i : pos < length heap ->
  <[pos := item]> heap !!! i = if decide (i = pos) then item else heap !!! i.
Proof.
  intros Hp. case_decide as E; [subst; by apply list_lookup_total_insert_eq |].
  by apply list_lookup_total_insert_ne.
Qed.

(** One move up keeps the edges away from the hole. *)
Lemma siftdown_step heap pos item : 0 < pos < length heap -> let p := parent pos in
  lt item (heap !!! p) = true ->
  edges_but (<[pos := item]> heap) pos ->
  let heap' := <[p := item]> (<[pos := heap !!! p]> heap) in edges_but heap' p /\ down_ok heap' p.
Proof.
  intros Hpos p Hlt [He Hg] heap'. pose proof (parent_lt pos ltac:(lia)) as Hpar. fold p in Hpar.
  apply lt_le in Hlt. rewrite length_insert in *.
  assert (Hn : forall i, heap' !!! i = if decide (i = p) then item else if decide (i = pos) then heap !!! p else heap !!! i).
  { intros i. subst heap'. rewrite write_lookup by (rewrite length_insert; lia). by rewrite write_lookup by lia. }
  assert (Ho : forall i, i <> pos -> 0 < i < length heap -> parent i <> pos -> le (heap !!! parent i) (heap !!! i)).
  { intros i Hi Hl Hpi. specialize (He i Hl Hi Hpi). rewrite !write_lookup in He by lia.
    by rewrite !decide_False in He by done. }
  assert (Hb : forall i, i <> pos -> 0 < i < length heap -> parent i = p -> le (heap !!! p) (heap !!! i)).
  { intros i Hi Hl Hpi. rewrite <- Hpi. apply Ho; [done.. | lia]. }
  unfold edges_but, down_ok. replace (length heap') with (length heap) by (subst heap'; by rewrite !length_insert).
  split_and!.
  - intros i Hi Hip Hpi. rewrite !Hn, (decide_False (P := i = p)), (decide_False (P := parent i = p)) by done.
    rewrite (decide_False (P := i = pos)) by (intros ->; done). case_decide as E; [| apply Ho; try done; intros ->; done].
    specialize (Hg i Hi E ltac:(lia)). rewrite !write_lookup in Hg by lia. fold p in Hg.
    rewrite !decide_False in Hg; [done | | lia]. intros ->. pose proof (parent_lt pos). lia.
  - intros i Hi Hpi Hp0. pose proof (parent_lt p Hp0). rewrite !Hn.
    rewrite (decide_False (P := parent p = p)), (decide_False (P := parent p = pos)) by lia.
    pose proof (parent_lt i ltac:(lia)). rewrite (decide_False (P := i = p)) by lia.
    assert (le (heap !!! parent p) (heap !!! p)) by (apply Ho; lia).
    case_decide as E; [done |]. eapply le_trans; [done | by apply Hb].
  - intros i Hi Hpi. pose proof (parent_lt i ltac:(lia)). rewrite !Hn, decide_True, (decide_False (P := i = p)) by lia.
    case_decide as E; [done |]. eapply le_trans; [done | by apply Hb].
Qed.

Lemma siftdown_loop_spec fuel heap pos item : pos <= fuel -> pos < length heap ->
  edges_but (<[pos := item]> heap) pos -> down_ok (<[pos := item]> heap) pos ->
  siftdown_loop fuel 0 pos item heap ≡ₚ <[pos := item]> heap /\ is_heap (siftdown_loop fuel 0 pos item heap).
Proof.
  revert heap pos. induction fuel as [|fuel IH]; intros heap pos Hf Hpos He Hd; simpl.
  { split; [done |]. apply (edges_is_heap _ pos); [done.. | lia]. }
  destruct (Nat.ltb_spec 0 pos) as [Hgt|Hle]; [| split; [done |]; apply (edges_is_heap _ pos); [done.. | lia]].
  pose proof (parent_lt pos Hgt) as Hpar. destruct (lt item (heap !!! parent pos)) eqn:Hlt.
  - destruct (siftdown_step heap pos item (conj Hgt Hpos) Hlt He) as [He' Hd'].
    destruct (IH (<[pos := heap !!! parent pos]> heap) (parent pos)) as [Hperm Hheap];
      [lia | rewrite length_insert; lia | done.. |].
    split; [| done]. rewrite Hperm. apply hole_exchange; lia.
  - split; [done |]. apply (edges_is_heap _ pos); [done.. |]. intros _.
    rewrite !write_lookup, decide_False, decide_True by lia. done.
Qed.

(** *** [_siftup]: down to a leaf *)

Lemma smaller_child_spec (heap : list A) pos : 2 * pos + 1 < length heap ->
  let c := smaller_child heap (2 * pos + 1) in c < length heap /\ 0 < c /\ parent c = pos /\
  forall i, 0 < i < length heap -> parent i = pos -> le (heap !!! c) (heap !!! i).
Proof.
  intros Hl c. assert (Hc : forall i, 0 < i -> parent i = pos <-> i = 2 * pos + 1 \/ i = S (2 * pos + 1)).
  { intros i Hi. rewrite parent_child by done. lia. }
  subst c. unfold smaller_child. destruct (Nat.ltb_spec (S (2 * pos + 1)) (length heap)) as [Hr|Hr]; simpl.
  - destruct (lt _ _) eqn:E; simpl; (split_and!; [lia | lia | apply Hc; lia |]); intros i Hi [->| ->]%Hc; try lia;
      try apply le_refl; [by apply lt_le | exact E].
  - split_and!; [lia | lia | apply Hc; lia |]. intros i Hi [->| ->]%Hc; [apply le_refl | lia | lia].
Qed.

Lemma siftup_step heap pos item : 2 * pos + 1 < length heap -> edges_but (<[pos := item]> heap) pos ->
  let c := smaller_child heap (2 * pos + 1) in edges_but (<[c := item]> (<[pos := heap !!! c]> heap)) c.
Proof.
  intros Hl [He Hg] c. destruct (smaller_child_spec heap pos Hl) as (Hc & Hc0 & Hpc & Hmin). fold c in Hc, Hc0, Hpc, Hmin.
  pose proof (parent_lt c Hc0) as Hlt. rewrite Hpc in Hlt. rewrite length_insert in *.
  set (heap' := <[c := item]> _).
  assert (Hn : forall i, heap' !!! i = if decide (i = c) then item else if decide (i = pos) then heap !!! c else heap !!! i).
  { intros i. subst heap'. rewrite write_lookup by (rewrite length_insert; lia). by rewrite write_lookup by lia. }
  assert (Ho : forall i, i <> pos -> 0 < i < length heap -> parent i <> pos -> le (heap !!! parent i) (heap !!! i)).
  { intros i Hi Hli Hpi. specialize (He i Hli Hi Hpi). rewrite !write_lookup in He by lia.
    by rewrite !decide_False in He by done. }
  unfold edges_but. replace (length heap') with (length heap) by (subst heap'; by rewrite !length_insert). split.
  - intros i Hi Hic Hpi. rewrite !Hn, (decide_False (P := i = c)), (decide_False (P := parent i = c)) by done.
    pose proof (parent_lt i ltac:(lia)). destruct (decide (i = pos)) as [->|Hip].
    + rewrite decide_False by lia. specialize (Hg c ltac:(lia) Hpc ltac:(lia)).
      rewrite !write_lookup in Hg by lia. by rewrite !decide_False in Hg by lia.
    + case_decide; [by apply Hmin | by apply Ho].
  - intros i Hi Hpi _. pose proof (parent_lt i ltac:(lia)). rewrite !Hn, Hpc, (decide_False (P := pos = c)) by lia.
    rewrite decide_True, (decide_False (P := i = c)), (decide_False (P := i = pos)) by lia.
    rewrite <- Hpi. apply Ho; lia.
Qed.

Lemma siftup_loop_spec fuel heap pos item : length heap <= fuel + pos -> pos < length heap ->
  edges_but (<[pos := item]> heap) pos ->
  let '(leaf, heap') := siftup_loop fuel pos item heap in
  heap' ≡ₚ <[pos := item]> heap /\ leaf < length heap /\ heap' !!! leaf = item /\ edges_but heap' leaf /\ down_ok heap' leaf.
Proof.
  revert heap pos. induction fuel as [|fuel IH]; intros heap pos Hf Hpos He; [lia |]. cbn [siftup_loop].
  destruct (Nat.ltb_spec (2 * pos + 1) (length heap)) as [Hl|Hl].
  - destruct (smaller_child_spec heap pos Hl) as (Hc & Hc0 & Hpc & _).
    pose proof (siftup_step heap pos item Hl He) as He'. cbv zeta in He'.
    set (c := smaller_child heap _) in *. pose proof (parent_lt c Hc0) as Hlt. rewrite Hpc in Hlt.
    specialize (IH (<[pos := heap !!! c]> heap) c). rewrite !length_insert in IH.
    destruct (siftup_loop fuel c item _) as [leaf heap']. destruct IH as (Hp & ? & ? & ? & ?); [lia | lia | done |].
    split_and!; try done. rewrite Hp. apply hole_exchange; lia.
  - split_and!; [done | done | by apply list_lookup_total_insert_eq | done |].
    intros i Hi Hpi. rewrite length_insert in Hi. apply parent_child in Hpi; lia.
Qed.

(** *** The operations *)

Lemma heappush_spec heap item : is_heap heap -> heappush heap item ≡ₚ item :: heap /\ is_heap (heappush heap item).
Proof.
  intros Hh. unfold heappush, _siftdown. rewrite length_app. simpl. replace (length heap + 1 - 1) with (length heap) by lia.
  set (l := heap ++ [item]). assert (Hl : length l = S (length heap)) by (subst l; rewrite length_app; simpl; lia).
  assert (Hi : l !!! length heap = item) by (apply list_lookup_total_correct; by apply list_lookup_middle).
  assert (Hid : <[length heap := item]> l = l) by (apply list_insert_id; by apply list_lookup_middle).
  assert (Hlt : forall i, i < length heap -> l !!! i = heap !!! i) by (intros i Hi'; by apply lookup_total_app_l).
  rewrite Hi. destruct (siftdown_loop_spec (length heap) l (length heap) item) as [Hp Hheap]; rewrite ?Hid; try lia.
  - split; intros i Hib; rewrite Hl in Hib.
    + intros Hne _. pose proof (parent_lt i ltac:(lia)). rewrite !Hlt by lia. apply Hh. lia.
    + intros Hpi Hpos. pose proof (parent_lt i ltac:(lia)). lia.
  - intros i Hib Hpi. rewrite Hl in Hib. pose proof (parent_lt i ltac:(lia)). lia.
  - split; [| done]. rewrite Hp, Hid. subst l. by rewrite Permutation_app_comm.
Qed.

(** The root is a least element. *)
Lemma is_heap_root heap i : is_heap heap -> i < length heap -> le (heap !!! 0) (heap !!! i).
Proof.
  intros Hh. induction i as [i IH] using lt_wf_ind. intros Hi. destruct (decide (i = 0)) as [->|]; [apply le_refl |].
  pose proof (parent_lt i ltac:(lia)). eapply le_trans; [apply (IH (parent i)); lia | apply Hh; lia].
Qed.

Lemma heappop_spec heap : is_heap heap ->
  match heappop heap with
  | None => heap = []
  | Some (item, rest) => heap ≡ₚ item :: rest /\ is_heap rest /\ item = heap !!! 0 /\ Forall (le item) rest
  end.
Proof.
  intros Hh. unfold heappop. destruct (last heap) as [lastelt|] eqn:Hlast; [| by apply last_None].
  apply last_Some in Hlast as [front ->]. rewrite length_app. simpl. replace (length front + 1 - 1) with (length front) by lia.
  rewrite take_app_length. destruct front as [|root rest]; [split_and!; [done | intros i; simpl; lia | done | done] |].
  unfold _siftup. set (l := lastelt :: rest).
  pose proof (siftup_loop_spec (length l) l 0 lastelt) as Hs. change (<[0:=lastelt]> l) with l in Hs.
  change (l !!! 0) with lastelt. destruct (siftup_loop (length l) 0 lastelt l) as [leaf heap'].
  destruct Hs as (Hp & Hleaf & Hitem & He & Hd); [lia | simpl; lia | |].
  - split; [| lia]. intros i Hi Hne Hpi. specialize (Hh i). rewrite length_app in Hh. simpl in Hh, Hi.
    assert (E : forall j, 0 < j < S (length rest) -> l !!! j = (root :: rest ++ [lastelt]) !!! j).
    { intros [|j] Hj; [lia |]. simpl. symmetry. apply lookup_total_app_l. lia. }
    pose proof (parent_lt i ltac:(lia)). rewrite !E by lia. apply Hh. lia.
  - unfold _siftdown. assert (Hll : length heap' = length l) by (by rewrite Hp).
    assert (Hid : <[leaf := heap' !!! leaf]> heap' = heap').
    { apply list_insert_id, list_lookup_lookup_total_lt. lia. }
    destruct (siftdown_loop_spec leaf heap' leaf (heap' !!! leaf)) as [Hp' Hheap]; rewrite ?Hid; [lia | lia | done | done |].
    rewrite Hid in Hp'. apply (fun E => transitivity E Hp) in Hp'.
    assert (Hperm : (root :: rest) ++ [lastelt] ≡ₚ root :: siftdown_loop leaf 0 leaf (heap' !!! leaf) heap').
    { rewrite Hp'. subst l. simpl. by rewrite Permutation_app_comm. }
    split_and!; [done | done | done |]. apply Forall_forall. intros x Hx.
    assert (Hin : x ∈ (root :: rest) ++ [lastelt]) by (rewrite Hperm; by right).
    apply list_elem_of_lookup_1 in Hin as [i Hi]. pose proof (is_heap_root _ i Hh (lookup_lt_Some _ _ _ Hi)) as Hle.
    by rewrite (list_lookup_total_correct _ _ _ Hi) in Hle.
Qed.

End heapq.
