(* ===== verification/PyNum.v ===== *)
(** * Numbers of the measurement scripts

    Floats as exact rationals: rounding half to even at a decimal place with its
    error bound, division that raises, and sums. *)
From Stdlib Require Import ZArith QArith Qabs Qround Qpower Lqa Lia.
From stdpp Require Import base list.
From S2P Require Import Prelude Stats.
#[local] Open Scope nat_scope.

(** [round(q)]. *)
Definition round_half_even (q : Q) : Z :=
  let f := Qfloor q in
  match (q - inject_Z f ?= 1 # 2)%Q with
  | Lt => f
  | Gt => f + 1
  | Eq => if Z.even f then f else f + 1
  end%Z.

(** [round(q, n)]. *)
Definition py_round (n : positive) (q : Q) : Q :=
  let p := (10 ^ n)%positive in Qmake (round_half_even (q * inject_Z (Z.pos p))) p.

Definition inject_nat (n : nat) : Q := inject_Z (Z.of_nat n).

(** [a / b]. *)
Definition div_or_raise (a b : Q) : res Q := if Qeq_bool b 0 then Raise ZeroDivisionError else Ok (a / b)%Q.

(** ** Sums *)

Definition Qsum (l : list Q) : Q := fold_right Qplus 0%Q l.

Lemma Qsum_perm l l' : l ≡ₚ l' -> (Qsum l == Qsum l')%Q.
Proof. induction 1; simpl; lra. Qed.

Lemma Qsum_app l k : (Qsum (l ++ k) == Qsum l + Qsum k)%Q.
Proof. induction l as [|x l IH]; simpl; [lra |]. rewrite IH. lra. Qed.

(** ** Division *)

Lemma Qeq_bool_false a b : ~ (a == b)%Q -> Qeq_bool a b = false.
Proof. intros H. apply not_true_iff_false. by rewrite Qeq_bool_iff. Qed.

Lemma inject_nat_pos n : n <> 0 -> (0 < inject_nat n)%Q.
Proof. intros Hn. unfold inject_nat, Qlt. simpl. lia. Qed.

Lemma div_or_raise_ok a b : ~ (b == 0)%Q -> div_or_raise a b = Ok (a / b)%Q.
Proof. intros H. unfold div_or_raise. by rewrite Qeq_bool_false. Qed.

Lemma inject_Z_neq z : z <> 0%Z -> ~ (inject_Z z == 0)%Q.
Proof. unfold Qeq. simpl. lia. Qed.

Lemma Qdiv_neq a b : ~ (a == 0)%Q -> ~ (b == 0)%Q -> ~ (a / b == 0)%Q.
Proof. intros Ha Hb E. apply Ha. rewrite <- (Qmult_div_r a b Hb), E. by rewrite Qmult_0_r. Qed.

Ltac nonzero := first [assumption | apply Qdiv_neq; nonzero | apply inject_Z_neq; first [assumption | discriminate | lia]].

(** ** Rounding *)

Lemma round_half_even_close q : (Qabs (inject_Z (round_half_even q) - q) <= 1 # 2)%Q.
Proof.
  unfold round_half_even. pose proof (Qfloor_le q) as Hlo. pose proof (Qlt_floor q) as Hhi. rewrite inject_Z_plus in Hhi.
  change (inject_Z 1) with 1%Q in Hhi. set (f := inject_Z (Qfloor q)) in *.
  assert (Hup : (inject_Z (Qfloor q + 1) == f + 1)%Q) by (rewrite inject_Z_plus; reflexivity).
  apply Qabs_Qle_condition. destruct (Qcompare_spec (q - f) (1 # 2)) as [E|E|E].
  - destruct (Z.even (Qfloor q)); [fold f | rewrite Hup]; lra.
  - fold f. lra.
  - rewrite Hup. lra.
Qed.

Lemma round_half_even_int z : round_half_even (inject_Z z) = z.
Proof.
  unfold round_half_even. rewrite Qfloor_Z. destruct (Qcompare_spec (inject_Z z - inject_Z z) (1 # 2)) as [E|E|E]; [lra | done | lra].
Qed.

#[global] Instance round_half_even_proper : Proper (Qeq ==> eq) round_half_even.
Proof.
  intros a b E. unfold round_half_even. rewrite (Qfloor_comp _ _ E).
  assert (E' : (a - inject_Z (Qfloor b) == b - inject_Z (Qfloor b))%Q) by (by rewrite E). by rewrite E'.
Qed.

Lemma py_round_close n q : (Qabs (py_round n q - q) <= (1 # 2) / inject_Z (Z.pos (10 ^ n)))%Q.
Proof.
  unfold py_round. set (p := (10 ^ n)%positive). set (x := inject_Z (Z.pos p)).
  assert (Hx : (0 < x)%Q) by (unfold x, Qlt; simpl; lia).
  pose proof (round_half_even_close (q * x)) as H. set (r := round_half_even (q * x)) in *.
  assert (E : (r # p == inject_Z r / x)%Q) by (unfold x; rewrite Qmake_Qdiv; reflexivity).
  rewrite E. apply Qabs_Qle_condition in H as [H1 H2]. apply Qabs_Qle_condition. split.
  - apply Qmult_lt_0_le_reg_r with x; [done |]. field_simplify; [lra | lra..].
  - apply Qmult_lt_0_le_reg_r with x; [done |]. field_simplify; [lra | lra..].
Qed.

(** A sum of rounded numbers is not rounded again. *)
Definition rounded (n : positive) (q : Q) : Prop := exists z, (q == z # 10 ^ n)%Q.

Lemma py_round_rounded n q : rounded n (py_round n q).
Proof. by eexists. Qed.

Lemma rounded_plus n a b : rounded n a -> rounded n b -> rounded n (a + b).
Proof.
  intros [x Hx] [y Hy]. exists (x + y)%Z. rewrite Hx, Hy, !Qmake_Qdiv, inject_Z_plus. field. unfold Qeq. simpl. lia.
Qed.

Lemma py_round_id n q : rounded n q -> (py_round n q == q)%Q.
Proof.
  intros [z E]. unfold py_round. set (p := (10 ^ n)%positive) in *.
  assert (Ez : (q * inject_Z (Z.pos p) == inject_Z z)%Q).
  { rewrite E, Qmake_Qdiv. field. unfold Qeq. simpl. lia. }
  rewrite Ez, round_half_even_int. by symmetry.
Qed.
