(* ===== verification/PyDict.v ===== *)
(** * Python dicts

    Association lists in insertion order, each key once: assignment keeps the
    place of a key that is there and appends a new one.  What an update does to the keys,
    to sums over the values and to lookups. *)
From Stdlib Require Import QArith Lqa Lia String.
From stdpp Require Import base list strings sets sorting.
From S2P Require Import PyNum.
Open Scope nat_scope.

Section dict.
Context {K : Type} `{EqDecision K}.

(** [d[k] = f(d.get(k, default))]. *)
Fixpoint dict_update {A} (k : K) (f : option A -> A) (d : list (K * A)) : list (K * A) :=
  match d with
  | [] => [(k, f None)]
  | (k', v) :: d => if bool_decide (k' = k) then (k, f (Some v)) :: d else (k', v) :: dict_update k f d
  end.

Definition dict_set {A} (k : K) (v : A) (d : list (K * A)) : list (K * A) := dict_update k (fun _ => v) d.

(** A dict display, or the pairs of a JSON object: the last value of a key stands at its first place. *)
Definition dict_of {A} (l : list (K * A)) : list (K * A) := fold_left (fun d p => dict_set p.1 p.2 d) l [].

Definition dict_find {A} (k : K) (d : list (K * A)) : option A := snd <$> List.find (fun p => bool_decide (p.1 = k)) d.

Lemma dict_find_update {A} k k' f (d : list (K * A)) :
  dict_find k (dict_update k' f d) = if bool_decide (k' = k) then Some (f (dict_find k' d)) else dict_find k d.
Proof.
  unfold dict_find. induction d as [|[k0 v] d IH]; simpl; [by case_bool_decide |].
  repeat (case_bool_decide; simpl; subst); done.
Qed.

Lemma dict_find_keys {A} name (d : list (K * A)) : name ∈ map fst d <-> is_Some (dict_find name d).
Proof.
  unfold dict_find. induction d as [|[k v] d IH]; simpl; [rewrite elem_of_nil; split; [done | by intros []] |].
  rewrite elem_of_cons, IH. case_bool_decide as E; simpl; [subst; naive_solver |]. split; [by intros [->|?] | by right].
Qed.

Lemma dict_find_in {A} (d : list (K * A)) k v : NoDup (map fst d) -> (k, v) ∈ d -> dict_find k d = Some v.
Proof.
  unfold dict_find. induction d as [|[k' v'] d IH]; simpl; [set_solver |]. rewrite NoDup_cons. intros [Hne Hk] Hin.
  apply elem_of_cons in Hin as [[= -> ->]|Hin]; [by rewrite bool_decide_eq_true_2 |].
  rewrite bool_decide_eq_false_2; [by apply IH |]. intros ->. apply Hne. by apply (list_elem_of_fmap_2 fst _ (k, v)).
Qed.

Lemma dict_update_count {A} (f : A -> nat) k g n (d : list (K * A)) : (forall v, f (g v) = n + default 0 (f <$> v)) ->
  sum_list_with (fun p => f p.2) (dict_update k g d) = n + sum_list_with (fun p => f p.2) d.
Proof.
  intros Hg. induction d as [|[k' v] d IH]; simpl; [rewrite Hg; simpl; lia |].
  case_bool_decide; simpl; [rewrite Hg; simpl; lia | rewrite IH; lia].
Qed.

Lemma dict_update_us {A} (f : A -> Q) k g q (d : list (K * A)) : (forall v, f (g v) == q + default 0 (f <$> v))%Q ->
  (Qsum (map (fun p => f p.2) (dict_update k g d)) == q + Qsum (map (fun p => f p.2) d))%Q.
Proof.
  intros Hg. induction d as [|[k' v] d IH]; simpl; [rewrite Hg; simpl; lra |].
  case_bool_decide; simpl; [rewrite Hg; simpl; lra | rewrite IH; lra].
Qed.

Lemma dict_update_sum {A} (f : K -> A -> Q) k g q (d : list (K * A)) : (f k (g None) == q)%Q ->
  (forall v, f k (g (Some v)) == q + f k v)%Q ->
  (Qsum (map (fun p => f p.1 p.2) (dict_update k g d)) == q + Qsum (map (fun p => f p.1 p.2) d))%Q.
Proof.
  intros Hn Hs. induction d as [|[k' v] d IH]; simpl; [rewrite Hn; lra |].
  case_bool_decide; subst; simpl; [rewrite Hs; lra | rewrite IH; lra].
Qed.

Lemma dict_update_keys {A} k f (d : list (K * A)) x : x ∈ map fst (dict_update k f d) <-> x = k \/ x ∈ map fst d.
Proof.
  induction d as [|[k' v] d IH]; simpl; [set_solver |]. case_bool_decide; subst; simpl; [set_solver |].
  rewrite !elem_of_cons, IH. tauto.
Qed.

Lemma dict_update_nodup {A} k f (d : list (K * A)) : NoDup (map fst d) -> NoDup (map fst (dict_update k f d)).
Proof.
  induction d as [|[k' v] d IH]; simpl; [intros _; apply NoDup_singleton |]. rewrite NoDup_cons. intros [Hk Hd].
  case_bool_decide; subst; simpl; apply NoDup_cons; [done |]. split; [| by apply IH].
  rewrite dict_update_keys. by intros [?|?].
Qed.

Lemma dict_update_Forall {A} (P : K * A -> Prop) k f (d : list (K * A)) :
  Forall P d -> P (k, f None) -> (forall v, P (k, v) -> P (k, f (Some v))) -> Forall P (dict_update k f d).
Proof.
  intros Hd Hn Hs. induction Hd as [|[k' v] d Hv Hd IH]; simpl; [by constructor |].
  case_bool_decide; subst; constructor; auto.
Qed.

Lemma dict_of_nodup {A} (l : list (K * A)) : NoDup (map fst (dict_of l)).
Proof.
  unfold dict_of. assert (H : NoDup (map fst ([] : list (K * A)))) by apply NoDup_nil_2. revert H.
  generalize ([] : list (K * A)). induction l as [|p l IH]; intros d Hd; [done |]. apply IH. by apply dict_update_nodup.
Qed.

(** [seen[key] = seen.get(key, 0) + 1] for each key of a list. *)
Definition tally (l : list K) : list (K * nat) := fold_left (fun d k => dict_update k (fun c => S (default 0 c)) d) l [].
Definition tally_of (k : K) (d : list (K * nat)) : nat := default 0 (dict_find k d).

Lemma tally_from k l d : tally_of k (fold_left (fun d k => dict_update k (fun c => S (default 0 c)) d) l d) =
  tally_of k d + length (base.filter (k =.) l).
Proof.
  revert d. induction l as [|x l IH]; intros d; simpl; [lia |]. rewrite IH. unfold tally_of at 1 2.
  rewrite dict_find_update, filter_cons. repeat case_decide; subst; try done; case_bool_decide; subst; try done; simpl; unfold tally_of; lia.
Qed.

Lemma tally_count k l : tally_of k (tally l) = length (base.filter (k =.) l).
Proof. apply (tally_from k l []). Qed.

Lemma tally_keys l x : x ∈ map fst (tally l) <-> x ∈ l.
Proof.
  unfold tally. assert (H : forall d, x ∈ map fst (fold_left (fun d k => dict_update k (fun c => S (default 0 c)) d) l d) <->
    x ∈ map fst d \/ x ∈ l); [| rewrite H; set_solver].
  induction l as [|y l IH]; intros d; simpl; [set_solver |]. rewrite IH, dict_update_keys. set_solver.
Qed.

Lemma NoDup_filter_one (l : list K) : (forall x, x ∈ l -> length (base.filter (x =.) l) <= 1) -> NoDup l.
Proof.
  induction l as [|y l IH]; intros H; [constructor |]. apply NoDup_cons. split.
  - intros Hy. specialize (H y ltac:(left)). rewrite filter_cons_True in H by done. simpl in H.
    assert (Hin : y ∈ base.filter (y =.) l) by by apply list_elem_of_filter. apply list_elem_of_In, in_split in Hin as (a & b & E).
    rewrite E, length_app in H. simpl in H. lia.
  - apply IH. intros x Hx. specialize (H x ltac:(by right)). rewrite filter_cons in H. case_decide; simpl in H; lia.
Qed.

Lemma filter_one_NoDup (l : list K) x : NoDup l -> x ∈ l -> length (base.filter (x =.) l) = 1.
Proof.
  induction l as [|y l IH]; [set_solver |]. rewrite NoDup_cons, elem_of_cons. intros [Hy Hl] Hx. rewrite filter_cons. case_decide as E.
  - subst y. simpl. f_equal. assert (En : base.filter (x =.) l = []); [| by rewrite En].
    destruct (base.filter (x =.) l) as [|z k] eqn:Ek; [done |]. assert (Hz : z ∈ base.filter (x =.) l) by (rewrite Ek; left).
    apply list_elem_of_filter in Hz as [-> Hz]. done.
  - apply IH; [done |]. by destruct Hx as [->|].
Qed.

(** Each wanted key once and no other: the list is the wanted one, in some order. *)
Lemma tally_exact want l : NoDup want ->
  (Forall (fun k => tally_of k (tally l) = 1) want /\ Forall (fun k => k ∈ want) (map fst (tally l))) <-> l ≡ₚ want.
Proof.
  intros Hnd. rewrite !Forall_forall. setoid_rewrite tally_count. setoid_rewrite tally_keys. split.
  - intros [Hone Hin]. apply NoDup_Permutation; [| done |].
    + apply NoDup_filter_one. intros x Hx. by rewrite (Hone x (Hin x Hx)).
    + intros x. split; [by apply Hin |]. intros Hx. specialize (Hone x Hx).
      destruct (base.filter (x =.) l) as [|y k] eqn:E; [done |]. assert (Hy : y ∈ base.filter (x =.) l) by (rewrite E; left).
      by apply list_elem_of_filter in Hy as [-> Hy].
  - intros Hp. assert (Hl : NoDup l) by by rewrite Hp. split; intros k Hk.
    + apply filter_one_NoDup; [done |]. by rewrite Hp.
    + by rewrite <- Hp.
Qed.

End dict.

(** ** Sorted sets *)

Definition by_leb {A} (leb : A -> A -> bool) (a b : A) : Prop := leb a b = true.
#[global] Instance by_leb_dec {A} (leb : A -> A -> bool) : RelDecision (by_leb leb).
Proof. intros a b. unfold by_leb. apply _. Defined.

(** [sorted(set)]. *)
Definition sorted_of {A} `{EqDecision A} (leb : A -> A -> bool) (l : list A) : list A :=
  merge_sort (by_leb leb) (remove_dups l).

Lemma elem_of_sorted_of {A} `{EqDecision A} (leb : A -> A -> bool) (l : list A) x : x ∈ sorted_of leb l <-> x ∈ l.
Proof. unfold sorted_of. by rewrite merge_sort_Permutation, elem_of_remove_dups. Qed.
