(* ===== verification/PyJson.v ===== *)
(** * Python's [json.JSONDecoder.raw_decode]

    The scanner of the standard library: a value at the head of a text, and the
    text after it.  Characters are 8-bit; what a [\u] escape stands for is an
    argument.  Numbers are exact, and the three words Python takes for
    non-finite numbers are one value.  The point of the file is that an object is
    self-delimiting: text after it changes nothing, and text missing from it is an error. *)
From Stdlib Require Import ZArith QArith Lia String Ascii.
From stdpp Require Import base list strings.
From S2P Require Import Prelude PyStr.
#[local] Open Scope string_scope.

Inductive json :=
| JNull | JBool (b : bool) | JInt (z : Z) | JFloat (q : Q) | JNonFinite | JStr (s : string)
| JList (l : list json) | JDict (d : list (string * json)).

(** [d.get(key)]: the last pair of a key counts. *)
Definition dict_get (key : string) (d : list (string * json)) : option json :=
  fold_left (fun acc p => if String.eqb p.1 key then Some p.2 else acc) d None.

Section scanner.
Context (chr : Z -> string).

(** ** Characters *)

Definition is_ws (c : ascii) : bool :=
  Ascii.eqb c " " || Ascii.eqb c "009" || Ascii.eqb c "010" || Ascii.eqb c "013".

Fixpoint skip_ws (s : string) : string :=
  match s with
  | EmptyString => EmptyString
  | String c t => if is_ws c then skip_ws t else s
  end.

Definition hex_val (c : ascii) : option Z :=
  let n := Z.of_nat (nat_of_ascii c) in
  if ((48 <=? n) && (n <=? 57))%Z then Some (n - 48)%Z
  else if ((97 <=? n) && (n <=? 102))%Z then Some (n - 87)%Z
  else if ((65 <=? n) && (n <=? 70))%Z then Some (n - 55)%Z
  else None.

(** [_decode_uXXXX]. *)
Definition decode_uXXXX (s : string) : option (Z * string) :=
  match s with
  | String a (String b (String c (String d t))) =>
      a ← hex_val a; b ← hex_val b; c ← hex_val c; d ← hex_val d;
      Some (((a * 16 + b) * 16 + c) * 16 + d, t)%Z
  | _ => None
  end.

Definition BACKSLASH (c : ascii) : option ascii :=
  if Ascii.eqb c "034" then Some "034"%char
  else if Ascii.eqb c "\" then Some "\"%char
  else if Ascii.eqb c "/" then Some "/"%char
  else if Ascii.eqb c "b" then Some "008"%char
  else if Ascii.eqb c "f" then Some "012"%char
  else if Ascii.eqb c "n" then Some "010"%char
  else if Ascii.eqb c "r" then Some "013"%char
  else if Ascii.eqb c "t" then Some "009"%char
  else None.

Definition high_surrogate (u : Z) : bool := ((55296 <=? u) && (u <=? 56319))%Z.
Definition low_surrogate (u : Z) : bool := ((56320 <=? u) && (u <=? 57343))%Z.

(** A [\u] escape after its [u]: a surrogate pair is one character. *)
Definition scan_unicode (s : string) : option (string * string) :=
  p ← decode_uXXXX s;
  let '(uni, t) := p in
  match t with
  | String a (String b t2) =>
      if high_surrogate uni && Ascii.eqb a "\" && Ascii.eqb b "u" then
        p2 ← decode_uXXXX t2;
        let '(uni2, t3) := p2 in
        if low_surrogate uni2 then Some (chr (65536 + (Z.lor (Z.shiftl (uni - 55296) 10) (uni2 - 56320)))%Z, t3)
        else Some (chr uni, t)
      else Some (chr uni, t)
  | _ => Some (chr uni, t)
  end.

(** [scanstring], after the opening quote, strict: a control character is an error. *)
Fixpoint scanstring (fuel : nat) (s : string) : option (string * string) :=
  match fuel, s with
  | S fuel, String c t =>
      if Ascii.eqb c "034" then Some ("", t)
      else if Ascii.eqb c "\" then
        match t with
        | EmptyString => None
        | String e t =>
            p ← (if Ascii.eqb e "u" then scan_unicode t else c ← BACKSLASH e; Some (String c "", t));
            q ← scanstring fuel p.2; Some (p.1 ++ q.1, q.2)
        end
      else if (nat_of_ascii c <? 32)%nat then None
      else q ← scanstring fuel t; Some (String c q.1, q.2)
  | _, _ => None
  end.

(** ** Numbers, by the scanner's regular expression *)

Definition is_digit (c : ascii) : bool :=
  let n := nat_of_ascii c in (48 <=? n)%nat && (n <=? 57)%nat.

Fixpoint digits (s : string) : string * string :=
  match s with
  | String c t => if is_digit c then let '(d, r) := digits t in (String c d, r) else ("", s)
  | EmptyString => ("", "")
  end.

Fixpoint digits_val (acc : Z) (d : string) : Z :=
  match d with
  | EmptyString => acc
  | String c d => digits_val (acc * 10 + Z.of_nat (nat_of_ascii c) - 48)%Z d
  end.

Definition scan_int (s : string) : option (string * string) :=
  match s with
  | String c t =>
      if Ascii.eqb c "0" then Some ("0", t)
      else if is_digit c then Some (digits s) else None
  | EmptyString => None
  end.

(** The fraction's digits, if there is a fraction. *)
Definition scan_frac (s : string) : option (string * string) :=
  match s with
  | String c t => if Ascii.eqb c "." then let '(d, r) := digits t in if String.eqb d "" then None else Some (d, r) else None
  | EmptyString => None
  end.

Definition scan_exp (s : string) : option (Z * string) :=
  match s with
  | String c t =>
      if Ascii.eqb c "e" || Ascii.eqb c "E" then
        let '(sign, t) :=
          match t with
          | String c t' => if Ascii.eqb c "-" then (-1, t')%Z else if Ascii.eqb c "+" then (1, t')%Z else (1, t)%Z
          | EmptyString => (1, t)%Z
          end in
        let '(d, r) := digits t in
        if String.eqb d "" then None else Some (sign * digits_val 0 d, r)%Z
      else None
  | EmptyString => None
  end.

Definition number_value (neg : bool) (i : string) (frac : option string) (exp : option Z) : json :=
  let sign := if neg then (-1)%Z else 1%Z in
  match frac, exp with
  | None, None => JInt (sign * digits_val 0 i)%Z
  | _, _ =>
      let f := default "" frac in
      JFloat (inject_Z (sign * digits_val 0 (i ++ f)) * Qpower (inject_Z 10) (default 0%Z exp - Z.of_nat (String.length f))%Z)%Q
  end.

Definition scan_number (s : string) : option (json * string) :=
  let '(neg, s1) := match s with String c t => if Ascii.eqb c "-" then (true, t) else (false, s) | _ => (false, s) end in
  p ← scan_int s1;
  let '(frac, s3) := match scan_frac p.2 with Some (d, r) => (Some d, r) | None => (None, p.2) end in
  let '(exp, s4) := match scan_exp s3 with Some (e, r) => (Some e, r) | None => (None, s3) end in
  Some (number_value neg p.1 frac exp, s4).

(** ** Values *)

(** [s.startswith(word)], and what follows. *)
Definition word (w s : string) (v : json) : option (json * string) :=
  if String.prefix w s then Some (v, drop_str (String.length w) s) else None.

Definition head_is (c : ascii) (s : string) : option string :=
  match s with String a t => if Ascii.eqb a c then Some t else None | EmptyString => None end.

(** [scan_once], with the loops of [JSONObject] and [JSONArray]. *)
Fixpoint scan_once (fuel : nat) (s : string) : option (json * string) :=
  match fuel, s with
  | S fuel, String c t =>
      if Ascii.eqb c "034" then p ← scanstring (String.length t) t; Some (JStr p.1, p.2)
      else if Ascii.eqb c "{" then
        match head_is "}" (skip_ws t) with
        | Some t => Some (JDict [], t)
        | None => p ← scan_members fuel (skip_ws t) []; Some (JDict p.1, p.2)
        end
      else if Ascii.eqb c "[" then
        match head_is "]" (skip_ws t) with
        | Some t => Some (JList [], t)
        | None => p ← scan_elements fuel (skip_ws t) []; Some (JList p.1, p.2)
        end
      else if Ascii.eqb c "n" then word "null" s JNull
      else if Ascii.eqb c "t" then word "true" s (JBool true)
      else if Ascii.eqb c "f" then word "false" s (JBool false)
      else if Ascii.eqb c "N" then word "NaN" s JNonFinite
      else if Ascii.eqb c "I" then word "Infinity" s JNonFinite
      else if String.prefix "-Infinity" s then word "-Infinity" s JNonFinite
      else scan_number s
  | _, _ => None
  end
with scan_members (fuel : nat) (s : string) (acc : list (string * json)) : option (list (string * json) * string) :=
  match fuel with
  | S fuel =>
      s ← head_is "034" s;
      k ← scanstring (String.length s) s;
      s ← head_is ":" (skip_ws k.2);
      v ← scan_once fuel (skip_ws s);
      let acc := (acc ++ [(k.1, v.1)])%list in
      match head_is "}" (skip_ws v.2) with
      | Some s => Some (acc, s)
      | None => s ← head_is "," (skip_ws v.2); scan_members fuel (skip_ws s) acc
      end
  | 0 => None
  end
with scan_elements (fuel : nat) (s : string) (acc : list json) : option (list json * string) :=
  match fuel with
  | S fuel =>
      v ← scan_once fuel s;
      let acc := (acc ++ [v.1])%list in
      match head_is "]" (skip_ws v.2) with
      | Some s => Some (acc, s)
      | None => s ← head_is "," (skip_ws v.2); scan_elements fuel (skip_ws s) acc
      end
  | 0 => None
  end.

(** [decoder.raw_decode(s)]: the value and the rest; [None] is its [ValueError]. *)
Definition raw_decode (s : string) : option (json * string) := scan_once (S (2 * String.length s)) s.

(** ** More text *)

(** After a number the scanner must have seen a character that cannot continue one. *)
Definition continues (c : ascii) : bool :=
  is_digit c || Ascii.eqb c "." || Ascii.eqb c "e" || Ascii.eqb c "E" || Ascii.eqb c "+" || Ascii.eqb c "-".
Definition stopped (s : string) : Prop := match s with String c _ => continues c = false | EmptyString => False end.
Definition delimited (v : json) : Prop := match v with JInt _ | JFloat _ => False | _ => True end.

Definition extends {A} (scan : string -> option (A * string)) : Prop :=
  forall s r v rest, scan s = Some (v, rest) -> scan (s ++ r) = Some (v, rest ++ r).

Lemma skip_ws_app s r : skip_ws s <> "" -> skip_ws (s ++ r) = skip_ws s ++ r.
Proof. induction s as [|c s IH]; simpl; [done |]. destruct (is_ws c); [apply IH | done]. Qed.

Lemma head_is_skip c s t r : head_is c (skip_ws s) = Some t -> head_is c (skip_ws (s ++ r)) = Some (t ++ r).
Proof.
  intros E. rewrite skip_ws_app by (intros E'; by rewrite E' in E). destruct (skip_ws s) as [|a u]; [done |].
  simpl in *. destruct (Ascii.eqb a c); [| done]. by injection E as ->.
Qed.

Lemma head_isnt_skip c d s t r : head_is d (skip_ws s) = Some t -> c <> d -> head_is c (skip_ws (s ++ r)) = None.
Proof.
  intros E Hne. rewrite skip_ws_app by (intros E'; by rewrite E' in E). destruct (skip_ws s) as [|a u]; [done |].
  simpl in *. destruct (Ascii.eqb_spec a d); [| done]. subst. by destruct (Ascii.eqb_spec d c).
Qed.

Lemma decode_uXXXX_app : extends decode_uXXXX.
Proof.
  intros s r v rest E. destruct s as [|a [|b [|c [|d t]]]]; try done. simpl in *.
  destruct (hex_val a), (hex_val b), (hex_val c), (hex_val d); simpl in *; try done. by injection E as <- <-.
Qed.

(** Inside a string the closing quote is still to come, so a lookahead never meets the end. *)
Lemma scan_unicode_app s r v rest : scan_unicode s = Some (v, rest) -> rest <> "" -> 
  (forall a, rest = String a "" -> a <> "\"%char) ->
  scan_unicode (s ++ r) = Some (v, rest ++ r).
Proof.
  unfold scan_unicode. destruct (decode_uXXXX s) as [[uni t]|] eqn:Eu; [| done]. rewrite (decode_uXXXX_app _ _ _ _ Eu). simpl.
  destruct t as [|a [|b t2]]; intros E Hne Hone.
  - by injection E as <- <-.
  - injection E as <- <-. specialize (Hone a eq_refl). simpl. destruct r as [|b t2]; [done |].
    apply Ascii.eqb_neq in Hone. by rewrite Hone, andb_false_r.
  - simpl. destruct (high_surrogate uni && Ascii.eqb a "\" && Ascii.eqb b "u"); [| by injection E as <- <-].
    destruct (decode_uXXXX t2) as [[uni2 t3]|] eqn:E2; [| done]. rewrite (decode_uXXXX_app _ _ _ _ E2). simpl in *.
    by destruct (low_surrogate uni2); injection E as <- <-.
Qed.

Lemma scanstring_fuel f f' s v : scanstring f s = Some v -> f <= f' -> scanstring f' s = Some v.
Proof.
  revert f' s v. induction f as [|f IH]; intros f' s v E Hf; [done |]. destruct f' as [|f']; [lia |]. simpl in *.
  destruct s as [|c t]; [done |]. destruct (Ascii.eqb c "034"); [done |]. destruct (Ascii.eqb c "\").
  - destruct t as [|e t]; [done |]. destruct (if Ascii.eqb e "u" then _ else _) as [[x y]|]; [| done]. simpl in *.
    destruct (scanstring f y) as [q|] eqn:Eq; [| done]. by rewrite (IH f' y q Eq ltac:(lia)).
  - destruct (nat_of_ascii c <? 32)%nat; [done |]. destruct (scanstring f t) as [q|] eqn:Eq; [| done].
    by rewrite (IH f' t q Eq ltac:(lia)).
Qed.

Lemma scanstring_app f s r v rest : scanstring f s = Some (v, rest) -> scanstring f (s ++ r) = Some (v, rest ++ r).
Proof.
  revert s v rest. induction f as [|f IH]; intros s v rest E; [done |]. destruct s as [|c t]; [done |]. simpl in *.
  destruct (Ascii.eqb c "034"); [by injection E as <- <- |]. destruct (Ascii.eqb c "\").
  - destruct t as [|e t]; [done |]. simpl. destruct (Ascii.eqb e "u").
    + destruct (scan_unicode t) as [[x y]|] eqn:Eu; [| done]. simpl in E.
      destruct (scanstring f y) as [[q y']|] eqn:Eq; [| done]. rewrite (scan_unicode_app _ _ _ _ Eu).
      * simpl. rewrite (IH _ _ _ Eq). simpl in *. by injection E as <- <-.
      * intros ->. by destruct f.
      * intros a -> ->. destruct f as [|f]; [done |]. simpl in Eq. done.
    + destruct (BACKSLASH e); [| done]. simpl in *. destruct (scanstring f t) as [[q y']|] eqn:Eq; [| done].
      rewrite (IH _ _ _ Eq). simpl in *. by injection E as <- <-.
  - destruct (nat_of_ascii c <? 32)%nat; [done |]. destruct (scanstring f t) as [[q y']|] eqn:Eq; [| done].
    rewrite (IH _ _ _ Eq). simpl in *. by injection E as <- <-.
Qed.

(** *** Numbers *)

Lemma digits_app s d rest r : digits s = (d, rest) -> rest <> "" -> digits (s ++ r) = (d, rest ++ r).
Proof.
  revert d rest. induction s as [|c s IH]; intros d rest E Hne; simpl in *; [by injection E as <- <- |].
  destruct (is_digit c); [| by injection E as <- <-]. destruct (digits s) as [d' r'].
  injection E as <- <-. by rewrite (IH _ _ eq_refl).
Qed.

Lemma scan_int_app s d rest r : scan_int s = Some (d, rest) -> rest <> "" -> scan_int (s ++ r) = Some (d, rest ++ r).
Proof.
  destruct s as [|c s]; [done |]. change (String c s ++ r) with (String c (s ++ r)). unfold scan_int. destruct (Ascii.eqb c "0").
  - intros [= <- <-] _. done.
  - destruct (is_digit c); [| done]. intros [= E] Hne. f_equal. by apply (digits_app (String c s) d rest r).
Qed.

Lemma digits_nonempty s d rest : digits s = (d, rest) -> d = "" -> rest = s.
Proof. destruct s as [|c s]; simpl; [by intros [= <- <-] |]. destruct (is_digit c); [destruct (digits s) |]; by intros [= <- <-]. Qed.

(** What is left after a fraction that is not there starts with no digit to come. *)
Lemma scan_frac_app s r : match scan_frac s with
  | Some (d, rest) => rest <> "" -> scan_frac (s ++ r) = Some (d, rest ++ r)
  | None => s <> "" -> match s with String c _ => c <> "."%char | _ => True end -> scan_frac (s ++ r) = None
  end.
Proof.
  destruct s as [|c s]; simpl; [done |]. destruct (Ascii.eqb_spec c "."); [| done].
  destruct (digits s) as [d rest] eqn:E. destruct (String.eqb_spec d "") as [->|Hd]; [by intros _ Hc |].
  intros Hne. rewrite (digits_app _ _ _ _ E Hne). by destruct (String.eqb_spec d "").
Qed.

Lemma scan_exp_app s r : match scan_exp s with
  | Some (e, rest) => rest <> "" -> scan_exp (s ++ r) = Some (e, rest ++ r)
  | None => s <> "" -> match s with String c _ => continues c = false | _ => True end -> scan_exp (s ++ r) = None
  end.
Proof.
  destruct s as [|c s]; simpl; [done |]. destruct (Ascii.eqb c "e" || Ascii.eqb c "E") eqn:Ec.
  - set (p := match s with EmptyString => _ | String _ _ => _ end).
    set (p' := match s ++ r with EmptyString => _ | String _ _ => _ end).
    destruct p as [sign t] eqn:Ep. destruct (digits t) as [d rest] eqn:E.
    destruct (String.eqb_spec d "") as [->|Hd].
    + intros _ Hc. exfalso. unfold continues in Hc. rewrite !orb_false_iff in Hc. apply orb_true_iff in Ec. intuition congruence.
    + intros Hne. assert (p' = (sign, t ++ r)) as ->.
      { subst p p'. destruct s as [|a s]; [simpl in Ep; injection Ep as <- <-; by injection E as <- <- |]. simpl.
        destruct (Ascii.eqb a "-"); [by injection Ep as <- <- |]. destruct (Ascii.eqb a "+"); by injection Ep as <- <-. }
      rewrite (digits_app _ _ _ _ E Hne). by destruct (String.eqb_spec d "").
  - done.
Qed.

Lemma not_minus_infinity s p r : scan_int s = Some p -> String.prefix "-Infinity" (String "-" (s ++ r)) = false.
Proof.
  destruct s as [|c s]; [done |]. unfold scan_int. intros E. change (String c s ++ r) with (String c (s ++ r)). apply not_true_iff_false.
  intros [b Hb]%prefix_spec. injection Hb as -> _. discriminate E.
Qed.

Lemma scan_number_app s v rest r : scan_number s = Some (v, rest) -> stopped rest ->
  scan_number (s ++ r) = Some (v, rest ++ r) /\ String.prefix "-Infinity" (s ++ r) = false.
Proof.
  unfold scan_number. intros E Hstop. destruct s as [|c t]; [done |].
  change (String c t ++ r) with (String c (t ++ r)). set (q := if Ascii.eqb c "-" then _ else _) in E.
  assert (Hq : (if Ascii.eqb c "-" then (true, t ++ r) else (false, String c (t ++ r))) = (q.1, q.2 ++ r))
    by (subst q; by destruct (Ascii.eqb c "-")).
  cbv beta iota. rewrite Hq. destruct q as [neg s1] eqn:Eq. simpl in *.
  destruct (scan_int s1) as [[i s2]|] eqn:Ei; [| done]. simpl in E. split.
  - pose proof (scan_frac_app s2 r) as Hf.
    destruct (scan_frac s2) as [[d s3]|] eqn:Ef; [pose proof (scan_exp_app s3 r) as He; destruct (scan_exp s3) as [[e s4]|] eqn:Ee |
      pose proof (scan_exp_app s2 r) as He; destruct (scan_exp s2) as [[e s4]|] eqn:Ee]; injection E as <- <-.
    all: assert (Hs2 : s2 <> "") by (intros ->; done || by simpl in Ef).
    all: rewrite (scan_int_app _ _ _ r Ei Hs2); simpl.
    + rewrite Hf by (intros ->; done). rewrite He by (intros ->; done). done.
    + rewrite Hf by (intros ->; done). by rewrite He by (destruct s3; done).
    + rewrite Hf; [| done |]; [by rewrite He by (intros ->; done) |]. destruct s2 as [|a s2]; [done |].
      intros ->. by simpl in Ee.
    + rewrite Hf; [by rewrite He by (destruct s2; done) | done |]. destruct s2 as [|a s2]; [done |]. by intros ->.
  - subst q. destruct (Ascii.eqb_spec c "-") as [->|Hc]; [injection Eq as <- <-; by eapply not_minus_infinity |].
    apply not_true_iff_false. intros [b Hb]%prefix_spec. by injection Hb as -> _.
Qed.

(** *** Values *)

Lemma word_app w v : extends (fun s => word w s v).
Proof.
  intros s' r' v' rest E. unfold word in *. destruct (String.prefix w s') eqn:Ep; [| done]. injection E as <- <-.
  apply prefix_spec in Ep as [b ->]. rewrite app_assoc_str, !drop_app.
  by rewrite (proj2 (prefix_spec w (w ++ b ++ r'))) by by eexists.
Qed.

Lemma length_app_le (a b : string) : String.length a <= String.length (a ++ b).
Proof. rewrite length_app_str. lia. Qed.

Lemma head_stopped c s t : head_is c (skip_ws s) = Some t -> continues c = false -> stopped s.
Proof.
  destruct s as [|a s]; [done |]. simpl. destruct (is_ws a) eqn:Ew.
  - intros _ _. unfold is_ws in Ew. rewrite !orb_true_iff in Ew.
    destruct Ew as [[[E|E]|E]|E]; apply Ascii.eqb_eq in E; by subst.
  - simpl. destruct (Ascii.eqb_spec a c); [by subst | done].
Qed.

Definition scan_ok f := forall f' s v rest r, scan_once f s = Some (v, rest) -> f <= f' ->
  delimited v \/ stopped rest -> scan_once f' (s ++ r) = Some (v, rest ++ r).
Definition members_ok f := forall f' s acc v rest r, scan_members f s acc = Some (v, rest) -> f <= f' ->
  scan_members f' (s ++ r) acc = Some (v, rest ++ r).
Definition elements_ok f := forall f' s acc v rest r, scan_elements f s acc = Some (v, rest) -> f <= f' ->
  scan_elements f' (s ++ r) acc = Some (v, rest ++ r).

Lemma number_not_delimited s v rest : scan_number s = Some (v, rest) -> ~ delimited v.
Proof.
  unfold scan_number. destruct (match s with EmptyString => _ | String _ _ => _ end) as [neg s1].
  destruct (scan_int s1) as [[i s2]|]; [| done]. simpl. destruct (scan_frac s2) as [[d s3]|].
  - destruct (scan_exp s3) as [[e s4]|]; intros [= <- <-]; by intros [].
  - destruct (scan_exp s2) as [[e s4]|]; intros [= <- <-]; by intros [].
Qed.

Lemma scanstring_len s r v rest : scanstring (String.length s) s = Some (v, rest) ->
  scanstring (String.length (s ++ r)) (s ++ r) = Some (v, rest ++ r).
Proof. intros E. apply scanstring_app. by eapply scanstring_fuel; [| apply length_app_le]. Qed.

Lemma members_step f : scan_ok f -> members_ok f -> members_ok (S f).
Proof.
  intros IHs IHm f' s acc v rest r E Hf. destruct f' as [|f']; [lia |]. simpl in *.
  destruct (head_is "034" s) as [s1|] eqn:E1; [| done]. simpl in E.
  assert (head_is "034" (s ++ r) = Some (s1 ++ r)) as ->.
  { destruct s as [|c s]; [done |]. simpl in *. destruct (Ascii.eqb c "034"); [| done]. by injection E1 as <-. }
  simpl. destruct (scanstring _ s1) as [[k s2]|] eqn:E2; [| done]. rewrite (scanstring_len _ _ _ _ E2). simpl in *.
  destruct (head_is ":" (skip_ws s2)) as [s3|] eqn:E3; [| done]. rewrite (head_is_skip _ _ _ _ E3). simpl in *.
  destruct (scan_once f (skip_ws s3)) as [[w s4]|] eqn:E4; [| done]. simpl in E.
  assert (Hs3 : skip_ws s3 <> "") by (intros E0; rewrite E0 in E4; by destruct f).
  rewrite skip_ws_app by done.
  assert (Hw : forall c t, head_is c (skip_ws s4) = Some t -> continues c = false ->
    scan_once f' (skip_ws s3 ++ r) = Some (w, s4 ++ r)).
  { intros c t Hc Hn. apply IHs; [done | lia |]. right. by eapply head_stopped. }
  destruct (head_is "}" (skip_ws s4)) as [s5|] eqn:E5.
  - injection E as <- <-. rewrite (Hw _ _ E5) by done. simpl. by rewrite (head_is_skip _ _ _ _ E5).
  - destruct (head_is "," (skip_ws s4)) as [s6|] eqn:E6; [| done]. rewrite (Hw _ _ E6) by done. simpl in *.
    rewrite (head_isnt_skip "}" _ _ _ _ E6) by done. rewrite (head_is_skip _ _ _ _ E6). simpl.
    assert (Hs6 : skip_ws s6 <> "") by (intros E0; rewrite E0 in E; by destruct f).
    rewrite skip_ws_app by done. apply IHm; [done | lia].
Qed.

Lemma elements_step f : scan_ok f -> elements_ok f -> elements_ok (S f).
Proof.
  intros IHs IHm f' s acc v rest r E Hf. destruct f' as [|f']; [lia |]. simpl in *.
  destruct (scan_once f s) as [[w s4]|] eqn:E4; [| done]. simpl in E.
  assert (Hw : forall c t, head_is c (skip_ws s4) = Some t -> continues c = false ->
    scan_once f' (s ++ r) = Some (w, s4 ++ r)).
  { intros c t Hc Hn. apply IHs; [done | lia |]. right. by eapply head_stopped. }
  destruct (head_is "]" (skip_ws s4)) as [s5|] eqn:E5.
  - injection E as <- <-. rewrite (Hw _ _ E5) by done. simpl. by rewrite (head_is_skip _ _ _ _ E5).
  - destruct (head_is "," (skip_ws s4)) as [s6|] eqn:E6; [| done]. rewrite (Hw _ _ E6) by done. simpl in *.
    rewrite (head_isnt_skip "]" _ _ _ _ E6) by done. rewrite (head_is_skip _ _ _ _ E6). simpl.
    assert (Hs6 : skip_ws s6 <> "") by (intros E0; rewrite E0 in E; by destruct f as [|[|f]]).
    rewrite skip_ws_app by done. apply IHm; [done | lia].
Qed.

Lemma scan_step f : members_ok f -> elements_ok f -> scan_ok (S f).
Proof.
  intros IHm IHe f' s v rest r E Hf Hok. destruct f' as [|f']; [lia |]. destruct s as [|c t]; [done |].
  change (String c t ++ r) with (String c (t ++ r)). simpl in *.
  destruct (Ascii.eqb c "034").
  { destruct (scanstring _ t) as [[k s2]|] eqn:E2; [| done]. rewrite (scanstring_len _ _ _ _ E2). simpl in *. by injection E as <- <-. }
  destruct (Ascii.eqb c "{").
  { destruct (head_is "}" (skip_ws t)) as [u|] eqn:E1; [rewrite (head_is_skip _ _ _ _ E1); by injection E as <- <- |].
    destruct (scan_members f (skip_ws t) []) as [[d u]|] eqn:E2; [| done]. injection E as <- <-.
    assert (Ht : skip_ws t <> "") by (intros E0; rewrite E0 in E2; by destruct f).
    rewrite skip_ws_app by done. destruct (skip_ws t) as [|a x] eqn:Et; [done |].
    change (String a x ++ r) with (String a (x ++ r)) at 1. simpl in E1 |- *. destruct (Ascii.eqb a "}"); [done |].
    change (String a (x ++ r)) with (String a x ++ r). by rewrite (IHm f' _ _ _ _ r E2) by lia. }
  destruct (Ascii.eqb c "[").
  { destruct (head_is "]" (skip_ws t)) as [u|] eqn:E1; [rewrite (head_is_skip _ _ _ _ E1); by injection E as <- <- |].
    destruct (scan_elements f (skip_ws t) []) as [[d u]|] eqn:E2; [| done]. injection E as <- <-.
    assert (Ht : skip_ws t <> "") by (intros E0; rewrite E0 in E2; by destruct f as [|[|f]]).
    rewrite skip_ws_app by done. destruct (skip_ws t) as [|a x] eqn:Et; [done |].
    change (String a x ++ r) with (String a (x ++ r)) at 1. simpl in E1 |- *. destruct (Ascii.eqb a "]"); [done |].
    change (String a (x ++ r)) with (String a x ++ r). by rewrite (IHe f' _ _ _ _ r E2) by lia. }
  change (String c (t ++ r)) with (String c t ++ r).
  destruct (Ascii.eqb c "n"); [by apply (word_app "null" JNull) |].
  destruct (Ascii.eqb c "t"); [by apply (word_app "true" (JBool true)) |].
  destruct (Ascii.eqb c "f"); [by apply (word_app "false" (JBool false)) |].
  destruct (Ascii.eqb c "N"); [by apply (word_app "NaN" JNonFinite) |].
  destruct (Ascii.eqb c "I"); [by apply (word_app "Infinity" JNonFinite) |].
  destruct (String.prefix "-Infinity" (String c t)) eqn:Ep.
  - rewrite (word_app "-Infinity" JNonFinite _ r _ _ E).
    apply prefix_spec in Ep as [b Eb]. rewrite Eb, app_assoc_str. by rewrite (proj2 (prefix_spec _ _)) by by eexists.
  - destruct Hok as [Hd|Hstop].
    + by destruct (number_not_delimited _ _ _ E).
    + destruct (scan_number_app _ _ _ r E Hstop) as [-> ->]. done.
Qed.

Lemma scan_all f : scan_ok f /\ members_ok f /\ elements_ok f.
Proof.
  induction f as [|f (IHs & IHm & IHe)]; [by split_and!; intros f' |].
  split_and!; [by apply scan_step | by apply members_step | by apply elements_step].
Qed.

(** Text after a delimited value changes nothing. *)
Lemma raw_decode_app s v rest r : raw_decode s = Some (v, rest) -> delimited v -> raw_decode (s ++ r) = Some (v, rest ++ r).
Proof.
  intros E Hd. unfold raw_decode in *. apply (proj1 (scan_all (S (2 * String.length s)))); [done | | by left].
  pose proof (length_app_le s r). lia.
Qed.

Lemma scan_object f t v rest : scan_once f (String "{" t) = Some (v, rest) -> exists d, v = JDict d.
Proof.
  destruct f as [|f]; [done |]. simpl. destruct (head_is "}" (skip_ws t)) as [u|]; [intros [= <- <-]; by eexists |].
  destruct (scan_members f (skip_ws t) []) as [[d u]|]; [intros [= <- <-]; by eexists | done].
Qed.

(** Text missing from an object is an error. *)
Lemma raw_decode_cut t q v : raw_decode (String "{" t ++ q) = Some (v, "") -> q <> "" -> raw_decode (String "{" t) = None.
Proof.
  intros E Hq. destruct (raw_decode (String "{" t)) as [[v' rest]|] eqn:E'; [| done]. exfalso.
  destruct (scan_object _ _ _ _ E') as [d ->]. rewrite (raw_decode_app _ _ _ q E' I) in E.
  injection E as _ E. destruct rest; [done | discriminate E].
Qed.

(** *** Every call consumes *)

Lemma skip_ws_le s : String.length (skip_ws s) <= String.length s.
Proof. induction s as [|c s IH]; simpl; [done |]. destruct (is_ws c); simpl; lia. Qed.

Lemma head_is_lt c s t : head_is c s = Some t -> String.length t < String.length s.
Proof. destruct s as [|a s]; [done |]. simpl. destruct (Ascii.eqb a c); [intros [= ->]; lia | done]. Qed.

Lemma scanstring_lt f s v rest : scanstring f s = Some (v, rest) -> String.length rest < String.length s.
Proof.
  assert (Hu : forall s u t, decode_uXXXX s = Some (u, t) -> String.length t < String.length s).
  { intros [|a [|b [|c [|d t]]]] u t'; try done. simpl.
    destruct (hex_val a), (hex_val b), (hex_val c), (hex_val d); simpl; try done. intros [= <- <-]. lia. }
  revert s v rest. induction f as [|f IH]; intros s v rest E; [done |]. destruct s as [|c t]; [done |]. simpl in *.
  destruct (Ascii.eqb c "034"); [injection E as <- <-; lia |]. destruct (Ascii.eqb c "\").
  - destruct t as [|e t]; [done |]. destruct (if Ascii.eqb e "u" then _ else _) as [[x y]|] eqn:Ex; [| done]. simpl in E.
    destruct (scanstring f y) as [[q y']|] eqn:Eq; [| done]. injection E as <- <-. apply IH in Eq. simpl.
    assert (String.length y <= String.length t); [| lia]. destruct (Ascii.eqb e "u").
    + unfold scan_unicode in Ex. destruct (decode_uXXXX t) as [[uni t1]|] eqn:E1; [| done]. apply Hu in E1. simpl in Ex.
      destruct t1 as [|a [|b t2]]; [injection Ex as <- <-; simpl in *; lia.. |].
      destruct (_ && _ && _); [| injection Ex as <- <-; simpl in *; lia].
      destruct (decode_uXXXX t2) as [[uni2 t3]|] eqn:E2; [| done]. apply Hu in E2. simpl in Ex.
      destruct (low_surrogate uni2); injection Ex as <- <-; simpl in *; lia.
    + destruct (BACKSLASH e); [| done]. injection Ex as <- <-. done.
  - destruct (nat_of_ascii c <? 32)%nat; [done |]. destruct (scanstring f t) as [[q y']|] eqn:Eq; [| done].
    injection E as <- <-. apply IH in Eq. simpl. lia.
Qed.

Lemma digits_le s d rest : digits s = (d, rest) -> String.length rest + String.length d = String.length s.
Proof.
  revert d rest. induction s as [|c s IH]; intros d rest E; simpl in *; [by injection E as <- <- |].
  destruct (is_digit c); [| by injection E as <- <-; simpl; lia]. destruct (digits s) as [d' r'].
  injection E as <- <-. specialize (IH _ _ eq_refl). simpl. lia.
Qed.

Lemma scan_number_lt s v rest : scan_number s = Some (v, rest) -> String.length rest < String.length s.
Proof.
  unfold scan_number. set (q := match s with EmptyString => _ | String _ _ => _ end).
  assert (Hq : String.length q.2 <= String.length s) by (subst q; destruct s as [|c s]; [done |]; destruct (Ascii.eqb c "-"); simpl; lia).
  destruct q as [neg s1]. simpl in Hq. destruct (scan_int s1) as [[i s2]|] eqn:Ei; [| done]. simpl.
  assert (Hi : String.length s2 < String.length s1).
  { destruct s1 as [|c s1]; [done |]. unfold scan_int in Ei. destruct (Ascii.eqb c "0"); [injection Ei as <- <-; simpl; lia |].
    destruct (is_digit c) eqn:Ec; [| done]. injection Ei as Ei. simpl in Ei. rewrite Ec in Ei.
    destruct (digits s1) as [d r] eqn:Ed. injection Ei as <- <-. apply digits_le in Ed. simpl. lia. }
  set (fr := match scan_frac s2 with Some _ => _ | None => _ end).
  assert (Hf : String.length fr.2 <= String.length s2).
  { subst fr. destruct (scan_frac s2) as [[d s3]|] eqn:Ef; [| done]. destruct s2 as [|c s2]; [done |]. simpl in Ef.
    destruct (Ascii.eqb c "."); [| done]. destruct (digits s2) as [d' r] eqn:Ed. destruct (String.eqb d' ""); [done |].
    injection Ef as <- <-. apply digits_le in Ed. simpl. lia. }
  destruct fr as [frac s3]. simpl in Hf.
  set (ex := match scan_exp s3 with Some _ => _ | None => _ end).
  assert (He : String.length ex.2 <= String.length s3).
  { subst ex. destruct (scan_exp s3) as [[e s4]|] eqn:Ee; [| done]. destruct s3 as [|c s3]; [done |]. simpl in Ee.
    destruct (_ || _); [| done]. set (sg := match s3 with EmptyString => _ | String _ _ => _ end) in Ee.
    assert (Hs : String.length sg.2 <= String.length s3) by (subst sg; destruct s3 as [|a s3]; [done |];
      destruct (Ascii.eqb a "-"); [| destruct (Ascii.eqb a "+")]; simpl; lia).
    destruct sg as [sign t]. destruct (digits t) as [d' r] eqn:Ed. destruct (String.eqb d' ""); [done |].
    injection Ee as <- <-. apply digits_le in Ed. simpl in *. lia. }
  destruct ex as [exp s4]. simpl in He. intros [= <- <-]. lia.
Qed.

Lemma word_lt w s v v' rest : w <> "" -> word w s v = Some (v', rest) -> String.length rest < String.length s.
Proof.
  unfold word. intros Hw. destruct (String.prefix w s) eqn:E; [| done]. intros [= _ <-]. apply length_prefix in E.
  rewrite length_drop_str. destruct w; [done |]. simpl in *. lia.
Qed.

Lemma scan_lt f :
  (forall s v rest, scan_once f s = Some (v, rest) -> String.length rest < String.length s) /\
  (forall s acc v rest, scan_members f s acc = Some (v, rest) -> String.length rest < String.length s) /\
  (forall s acc v rest, scan_elements f s acc = Some (v, rest) -> String.length rest < String.length s).
Proof.
  induction f as [|f (IHs & IHm & IHe)]; [by split_and!; intros |]. split_and!.
  - intros s v rest E. destruct s as [|c t]; [done |]. simpl in E. pose proof (skip_ws_le t).
    destruct (Ascii.eqb c "034").
    { destruct (scanstring _ t) as [[k s2]|] eqn:E2; [| done]. injection E as <- <-. apply scanstring_lt in E2. simpl. lia. }
    destruct (Ascii.eqb c "{").
    { destruct (head_is "}" (skip_ws t)) as [u|] eqn:E1; [injection E as <- <-; apply head_is_lt in E1; simpl; lia |].
      destruct (scan_members f (skip_ws t) []) as [[d u]|] eqn:E2; [| done]. injection E as <- <-. apply IHm in E2. simpl. lia. }
    destruct (Ascii.eqb c "[").
    { destruct (head_is "]" (skip_ws t)) as [u|] eqn:E1; [injection E as <- <-; apply head_is_lt in E1; simpl; lia |].
      destruct (scan_elements f (skip_ws t) []) as [[d u]|] eqn:E2; [| done]. injection E as <- <-. apply IHe in E2. simpl. lia. }
    repeat match type of E with (if ?b then _ else _) = _ => destruct b; [by eapply word_lt in E |] end.
    by eapply scan_number_lt.
  - intros s acc v rest E. simpl in E. destruct (head_is "034" s) as [s1|] eqn:E1; [| done]. simpl in E.
    destruct (scanstring _ s1) as [[k s2]|] eqn:E2; [| done]. simpl in E.
    destruct (head_is ":" (skip_ws s2)) as [s3|] eqn:E3; [| done]. simpl in E.
    destruct (scan_once f (skip_ws s3)) as [[w s4]|] eqn:E4; [| done]. simpl in E.
    apply head_is_lt in E1, E3. apply scanstring_lt in E2. apply IHs in E4.
    pose proof (skip_ws_le s2). pose proof (skip_ws_le s3). pose proof (skip_ws_le s4).
    destruct (head_is "}" (skip_ws s4)) as [s5|] eqn:E5; [injection E as <- <-; apply head_is_lt in E5; lia |].
    destruct (head_is "," (skip_ws s4)) as [s6|] eqn:E6; [| done]. simpl in E. apply head_is_lt in E6.
    pose proof (skip_ws_le s6). apply IHm in E. lia.
  - intros s acc v rest E. simpl in E. destruct (scan_once f s) as [[w s4]|] eqn:E4; [| done]. simpl in E.
    apply IHs in E4. pose proof (skip_ws_le s4).
    destruct (head_is "]" (skip_ws s4)) as [s5|] eqn:E5; [injection E as <- <-; apply head_is_lt in E5; lia |].
    destruct (head_is "," (skip_ws s4)) as [s6|] eqn:E6; [| done]. simpl in E. apply head_is_lt in E6.
    pose proof (skip_ws_le s6). apply IHe in E. lia.
Qed.

Lemma raw_decode_lt s v rest : raw_decode s = Some (v, rest) -> String.length rest < String.length s.
Proof. apply scan_lt. Qed.

(** The fuel of [raw_decode] is enough: more gives the same answer, refusals included. *)
Lemma scan_enough f : forall f',
  (forall s, 2 * String.length s < f -> 2 * String.length s < f' -> scan_once f s = scan_once f' s) /\
  (forall s acc, 2 * String.length s < f -> 2 * String.length s < f' -> scan_members f s acc = scan_members f' s acc) /\
  (forall s acc, 2 * String.length s + 1 < f -> 2 * String.length s + 1 < f' ->
     scan_elements f s acc = scan_elements f' s acc).
Proof.
  induction f as [|f IH]; intros f'; [split_and!; intros; lia |]. destruct f' as [|f']; [split_and!; intros; lia |].
  destruct (IH f') as (IHs & IHm & IHe). split_and!.
  - intros [|c t] Hf Hf'; [done |]. cbn [String.length] in Hf, Hf'. simpl. pose proof (skip_ws_le t).
    rewrite IHm, IHe by lia. done.
  - intros s acc Hf Hf'. simpl. destruct (head_is "034" s) as [s1|] eqn:E1; [| done]. simpl.
    destruct (scanstring _ s1) as [[k s2]|] eqn:E2; [| done]. simpl.
    destruct (head_is ":" (skip_ws s2)) as [s3|] eqn:E3; [| done]. simpl.
    apply head_is_lt in E1, E3. apply scanstring_lt in E2. pose proof (skip_ws_le s2). pose proof (skip_ws_le s3).
    rewrite <- IHs by lia. destruct (scan_once f (skip_ws s3)) as [[w s4]|] eqn:E4; [| done]. simpl.
    apply scan_lt in E4. pose proof (skip_ws_le s4). destruct (head_is "}" (skip_ws s4)); [done |].
    destruct (head_is "," (skip_ws s4)) as [s6|] eqn:E6; [| done]. simpl. apply head_is_lt in E6. pose proof (skip_ws_le s6).
    apply IHm; lia.
  - intros s acc Hf Hf'. simpl. rewrite <- IHs by lia. destruct (scan_once f s) as [[w s4]|] eqn:E4; [| done]. simpl.
    apply scan_lt in E4. pose proof (skip_ws_le s4). destruct (head_is "]" (skip_ws s4)); [done |].
    destruct (head_is "," (skip_ws s4)) as [s6|] eqn:E6; [| done]. simpl. apply head_is_lt in E6. pose proof (skip_ws_le s6).
    apply IHe; lia.
Qed.

Lemma raw_decode_fuel f s : 2 * String.length s < f -> scan_once f s = raw_decode s.
Proof. intros Hf. unfold raw_decode. apply scan_enough; lia. Qed.

End scanner.

(** ** Documents *)

(** [json.loads]. *)
Definition json_loads (chr : Z -> string) (s : string) : res json :=
  match raw_decode chr (skip_ws s) with
  | Some (v, rest) => if String.eqb (skip_ws rest) "" then Ok v else Raise ValueError
  | None => Raise ValueError
  end.

(** ** What the scripts ask of a value *)

#[local] Open Scope nat_scope.

Definition is_number (v : json) : bool :=
  match v with JInt _ | JBool _ | JFloat _ | JNonFinite => true | _ => false end.
Definition as_int (v : json) : option Z :=
  match v with JInt z => Some z | JBool b => Some (if b then 1 else 0)%Z | _ => None end.

(** [float(v)].  NaN and the infinities are no numbers here: a trace with one leaves the model. *)
Definition to_float (v : json) : res Q :=
  match v with
  | JInt z => Ok (inject_Z z)
  | JBool b => Ok (if b then 1 else 0)%Q
  | JFloat q => Ok q
  | JNonFinite => Raise OtherException
  | JStr s => of_option ValueError (parse_float s)
  | JNull | JList _ | JDict _ => Raise TypeError
  end.

Definition falsy (v : json) : bool :=
  match v with
  | JNull => true
  | JBool b => negb b
  | JInt z => (z =? 0)%Z
  | JFloat q => Qeq_bool q 0
  | JNonFinite => false
  | JStr s => String.eqb s ""
  | JList l => match l with [] => true | _ => false end
  | JDict d => match d with [] => true | _ => false end
  end.

(** [int(v)]. *)
Definition to_int (v : json) : res Z :=
  match v with
  | JInt z => Ok z
  | JBool b => Ok (if b then 1 else 0)%Z
  | JFloat q => Ok (Z.quot (Qnum q) (Z.pos (Qden q)))
  | JNonFinite => Raise OtherException
  | JStr s => of_option ValueError (parse_int s)
  | JNull | JList _ | JDict _ => Raise TypeError
  end.

Fixpoint to_ints (l : list json) : res (list Z) :=
  match l with
  | [] => Ok []
  | v :: l => z ← to_int v; zs ← to_ints l; Ok (z :: zs)
  end.

Definition is_str (s : string) (v : option json) : bool := match v with Some (JStr s') => String.eqb s' s | _ => false end.
Definition has_number (v : option json) : bool := match v with Some v => is_number v | None => false end.

(** [d.get(key)] as a value: a missing key and null are both [None]. *)
Definition get (key : string) (d : list (string * json)) : json := default JNull (dict_get key d).

(** [v == z]: booleans and floats compare as numbers. *)
Definition num_eq (v : json) (z : Z) : bool :=
  match v with
  | JInt n => (n =? z)%Z
  | JBool b => ((if b then 1 else 0) =? z)%Z
  | JFloat q => Qeq_bool q (inject_Z z)
  | _ => false
  end.

(** [isinstance(v, int) and not isinstance(v, bool)]. *)
Definition strict_int (v : json) : option Z := match v with JInt z => Some z | _ => None end.

(** [v is b]. *)
Definition is_bool (b : bool) (v : json) : bool := match v with JBool b' => Bool.eqb b b' | _ => false end.

(** [v or {}], when what follows is a [.get]. *)
Definition or_dict (v : json) : res (list (string * json)) :=
  if falsy v then Ok [] else match v with JDict d => Ok d | _ => Raise AttributeError end.

Lemma is_bool_eq b v : is_bool b v = true <-> v = JBool b.
Proof. destruct v; simpl; try done. rewrite Bool.eqb_true_iff. naive_solver. Qed.

Lemma strict_int_Some v z : strict_int v = Some z <-> v = JInt z.
Proof. destruct v; naive_solver. Qed.
