(* ===== verification/TraceStream.v ===== *)
(** * Streaming a profiler trace

    Model of [iter_trace_events] of [scripts/audit_decode_kernel_share.py]: the
    events of a trace that is read a chunk at a time and never held whole.  The
    text is the decoded file; a read gives the next [chunk] characters, and
    nothing at the end of the file.  The events come out as they are decoded, so a
    result is the events so far and how the reading ended. *)
From Stdlib Require Import ZArith QArith Lia String Ascii.
From stdpp Require Import base list strings.
From S2P Require Import Prelude PyStr PyJson.
#[local] Open Scope nat_scope.
#[local] Open Scope string_scope.

Definition quoted (s : string) : string := String "034" (s ++ String "034" "").
Definition KEY : string := quoted "traceEvents".
Definition READ_CHUNK : nat := Nat.pow 2 20.

(** [buf[buf.index(needle):]], when it is in [buf]. *)
Fixpoint from_first (needle s : string) : option string :=
  if String.prefix needle s then Some s
  else match s with String _ t => from_first needle t | EmptyString => None end.

Definition is_sep (c : ascii) : bool :=
  Ascii.eqb c " " || Ascii.eqb c "009" || Ascii.eqb c "013" || Ascii.eqb c "010" || Ascii.eqb c ",".

Fixpoint skip_sep (s : string) : string :=
  match s with
  | EmptyString => EmptyString
  | String c t => if is_sep c then skip_sep t else s
  end.

(** How a reading ends: at the closing bracket, with the exception, or, when not
    strict, silently. *)
Inductive ending := Closed | TruncatedTrace | Stopped.

Section stream.
Context (chr : Z -> string) (chunk : nat) (strict : bool).

Definition eof : ending := if strict then TruncatedTrace else Stopped.

(** [while needle not in buf: buf += fh.read(..)]; the fuel is what is left of the file. *)
Fixpoint seek (fuel : nat) (needle buf rest : string) : option (string * string) :=
  match from_first needle buf with
  | Some buf => Some (buf, rest)
  | None =>
      match fuel, rest with
      | S fuel, String _ _ => seek fuel needle (buf ++ take_str chunk rest) (drop_str chunk rest)
      | _, _ => None
      end
  end.

(** The loop over the events, [buf] from [pos] on: dropping what is behind
    [pos] changes nothing else. *)
Fixpoint read_events (fuel : nat) (buf rest : string) : list json * ending :=
  match fuel with
  | 0 => ([], eof)
  | S fuel =>
      let refill (buf : string) :=
        match rest with
        | EmptyString => ([], eof)
        | String _ _ => read_events fuel (buf ++ take_str chunk rest) (drop_str chunk rest)
        end in
      match skip_sep buf with
      | EmptyString => refill ""
      | String c t =>
          if Ascii.eqb c "]" then ([], Closed)
          else
            match raw_decode chr (String c t) with
            | Some (event, buf) => let '(events, e) := read_events fuel buf rest in (event :: events, e)
            | None => refill (String c t)
            end
      end
  end.

Definition iter_trace_events (content : string) : list json * ending :=
  match seek (String.length content) KEY "" content with
  | None => ([], eof)
  | Some (buf, rest) =>
      match seek (String.length rest) "[" buf rest with
      | None => ([], eof)
      | Some (buf, rest) =>
          let buf := drop_str 1 buf in
          read_events (S (String.length buf + 2 * String.length rest)) buf rest
      end
  end.

End stream.

(** ** What a trace holds *)

Section spec.
Context (chr : Z -> string).

(** [body] is the array after its opening bracket: separators and objects, a
    closing bracket, and anything behind it. *)
Inductive reads : string -> list json -> string -> Prop :=
| reads_close body after : skip_sep body = String "]" after -> reads body [] after
| reads_event body t body' d events after :
    skip_sep body = String "{" t ++ body' -> raw_decode chr (String "{" t) = Some (JDict d, "") ->
    reads body' events after -> reads body (JDict d :: events) after.

(** A whole trace: the array is the first one after the key. *)
Definition trace (content : string) (events : list json) (after : string) : Prop :=
  exists tail body, from_first KEY content = Some tail /\ from_first "[" tail = Some (String "[" body) /\ reads body events after.

(** ** Lemmas *)

Lemma take_str_nonempty n c s : 0 < n -> take_str n (String c s) <> "".
Proof. by destruct n; [lia |]. Qed.

Lemma skip_sep_app s r : skip_sep s <> "" -> skip_sep (s ++ r) = skip_sep s ++ r.
Proof. induction s as [|c s IH]; simpl; [done |]. destruct (is_sep c); [apply IH | done]. Qed.

Lemma skip_sep_all s r : skip_sep s = "" -> skip_sep (s ++ r) = skip_sep r.
Proof. induction s as [|c s IH]; simpl; [done |]. destruct (is_sep c) eqn:E; [| done]. intros Hs. by rewrite <- IH. Qed.

Lemma skip_sep_idem s : skip_sep (skip_sep s) = skip_sep s.
Proof. induction s as [|c s IH]; simpl; [done |]. destruct (is_sep c) eqn:E; [done |]. simpl. by rewrite E. Qed.

Lemma reads_skip body body' events after : skip_sep body = skip_sep body' -> reads body events after -> reads body' events after.
Proof. intros E Hr. inversion Hr; subst; [apply reads_close | eapply reads_event; [| done..]]; congruence. Qed.

Lemma from_first_length needle s t : from_first needle s = Some t -> String.length needle <= String.length s.
Proof.
  revert t. induction s as [|c s IH]; intros t E; cbn [from_first] in E.
  - destruct (String.prefix needle "") eqn:Ep; [by apply length_prefix in Ep | done].
  - destruct (String.prefix needle (String c s)) eqn:Ep; [by apply length_prefix in Ep |].
    apply IH in E. simpl. lia.
Qed.

Lemma from_first_prefix needle s t : from_first needle s = Some t -> String.prefix needle t = true.
Proof.
  induction s as [|c s IH]; cbn [from_first].
  - destruct (String.prefix needle "") eqn:Ep; [by intros [= <-] | done].
  - destruct (String.prefix needle (String c s)) eqn:Ep; [by intros [= <-] | done].
Qed.

Lemma from_first_suffix needle s t : from_first needle s = Some t -> exists pre, s = pre ++ t.
Proof.
  induction s as [|c s IH]; cbn [from_first].
  - destruct (String.prefix needle ""); [| done]. intros [= <-]. by exists "".
  - destruct (String.prefix needle (String c s)); [intros [= <-]; by exists "" |].
    intros E. destruct (IH E) as [pre ->]. by exists (String c pre).
Qed.

Lemma from_first_absent needle pre u : from_first needle (pre ++ u) = None -> String.prefix needle u = false.
Proof.
  induction pre as [|c pre IH].
  - change ("" ++ u) with u. destruct u; cbn [from_first]; by destruct (String.prefix needle _).
  - change (String c pre ++ u) with (String c (pre ++ u)). cbn [from_first].
    destruct (String.prefix needle (String c (pre ++ u))); [done | apply IH].
Qed.

Lemma from_first_app needle s r t : from_first needle s = Some t -> from_first needle (s ++ r) = Some (t ++ r).
Proof.
  induction s as [|c s IH]; intros E.
  - simpl in E. destruct (String.prefix needle "") eqn:Ep; [| done]. injection E as <-.
    apply prefix_spec in Ep as [b Eb]. destruct needle; [| done]. destruct r; by simpl.
  - cbn [from_first] in E. change (String c s ++ r) with (String c (s ++ r)). cbn [from_first].
    destruct (String.prefix needle (String c s)) eqn:Ep.
    + injection E as <-. apply prefix_spec in Ep as [b Eb].
      assert (String.prefix needle (String c (s ++ r)) = true) as ->; [| done].
      apply prefix_spec. exists (b ++ r). change (String c (s ++ r)) with (String c s ++ r). by rewrite Eb, app_assoc_str.
    + destruct (String.prefix needle (String c (s ++ r))) eqn:Ep'; [| by apply IH]. exfalso.
      apply prefix_spec in Ep' as [b Eb]. pose proof (from_first_length _ _ _ E).
      rewrite (prefix_of_longer needle (String c s) b r) in Ep; [done | by rewrite <- Eb | simpl; lia].
Qed.

Context (chunk : nat) (strict : bool) (Hchunk : 0 < chunk).

Lemma length_split rest : String.length rest = String.length (take_str chunk rest) + String.length (drop_str chunk rest).
Proof. rewrite <- length_app_str. by rewrite take_drop_str. Qed.

Lemma drop_lt c rest : String.length (drop_str chunk (String c rest)) < String.length (String c rest).
Proof. rewrite length_drop_str. simpl. lia. Qed.

Lemma seek_spec fuel needle buf rest : String.length rest <= fuel ->
  match from_first needle (buf ++ rest) with
  | Some tail => exists b rest', seek chunk fuel needle buf rest = Some (b, rest') /\ tail = b ++ rest' /\
      String.prefix needle b = true /\ String.length rest' <= String.length rest
  | None => seek chunk fuel needle buf rest = None
  end.
Proof.
  revert buf rest. induction fuel as [|fuel IH]; intros buf rest Hf; cbn [seek].
  - destruct rest; [| simpl in Hf; lia]. rewrite app_nil_str. destruct (from_first needle buf) as [b|] eqn:E; [| done].
    exists b, "". rewrite app_nil_str. split_and!; [done | done | by eapply from_first_prefix | done].
  - destruct (from_first needle buf) as [b|] eqn:E.
    { rewrite (from_first_app _ _ rest _ E). eexists _, _. split_and!; [done | done | by eapply from_first_prefix | done]. }
    destruct rest as [|c rest]; [by rewrite app_nil_str, E |].
    specialize (IH (buf ++ take_str chunk (String c rest)) (drop_str chunk (String c rest))).
    rewrite app_assoc_str, take_drop_str in IH. pose proof (drop_lt c rest).
    destruct (from_first needle (buf ++ String c rest)); [| apply IH; lia].
    destruct IH as (b & rest' & ? & ? & ? & ?); [lia |]. exists b, rest'. split_and!; [done.. | lia].
Qed.

Lemma app_split (a b x y : string) : a ++ x = b ++ y -> String.length b <= String.length a -> exists m, a = b ++ m /\ m ++ x = y.
Proof.
  intros E Hl. pose proof (prefix_of_longer b a y x (eq_sym E) Hl) as [m ->]%prefix_spec. exists m. split; [done |].
  rewrite app_assoc_str in E. by apply app_inj_l in E.
Qed.

Lemma skip_sep_length s : String.length (skip_sep s) <= String.length s.
Proof. induction s as [|c s IH]; simpl; [done |]. destruct (is_sep c); simpl; lia. Qed.

Lemma reads_length body events after : reads body events after -> String.length after < String.length body.
Proof.
  induction 1 as [body after E|body t body' d events after E _ _ IH].
  - pose proof (skip_sep_length body). rewrite E in H. simpl in H. lia.
  - pose proof (skip_sep_length body). rewrite E, length_app_str in H. simpl in H. lia.
Qed.

(** What is expected of a reading of a text that lacks [short] characters of the array and what follows. *)
Definition reading (short : bool) (events : list json) (r : list json * ending) : Prop :=
  if short then exists k, r = (take k events, eof strict) else r = (events, Closed).

Lemma reading_cons short e events r : reading short events r ->
  reading short (e :: events) (let '(es, en) := r in (e :: es, en)).
Proof. unfold reading. destruct short; [intros [k ->]; by exists (S k) | by intros ->]. Qed.

Lemma reading_eof events : reading true events ([], eof strict).
Proof. by exists 0. Qed.

(** The text read so far is [buf ++ rest]; [q] is what the file lacks. *)
Lemma read_events_spec fuel buf rest q events after :
  String.length buf + 2 * String.length rest < fuel -> reads (buf ++ rest ++ q) events after ->
  reading (String.length after <? String.length q)%nat events (read_events chr chunk strict fuel buf rest).
Proof.
  revert buf rest events. induction fuel as [|fuel IH]; intros buf rest events Hf Hr; [lia |]. cbn [read_events].
  assert (Hrefill : forall b, skip_sep (buf ++ rest ++ q) = skip_sep (b ++ rest ++ q) -> String.length b <= String.length buf ->
    (rest = "" -> String.length after < String.length q) ->
    reading (String.length after <? String.length q)%nat events
      (match rest with EmptyString => ([], eof strict)
       | String _ _ => read_events chr chunk strict fuel (b ++ take_str chunk rest) (drop_str chunk rest) end)).
  { intros b Eb Hb Hq. destruct rest as [|c rest].
    - rewrite (proj2 (Nat.ltb_lt _ _) (Hq eq_refl)). apply reading_eof.
    - pose proof (drop_lt c rest). pose proof (length_split (String c rest)). apply IH.
      + rewrite length_app_str. lia.
      + rewrite app_assoc_str, <- (app_assoc_str (take_str _ _)), take_drop_str. by eapply reads_skip. }
  destruct (skip_sep buf) as [|c t] eqn:Es.
  - apply Hrefill; [by rewrite (skip_sep_all buf) | simpl; lia |]. intros ->. apply reads_length in Hr as Hl.
    eapply reads_length, reads_skip; [| exact Hr]. by rewrite (skip_sep_all buf).
  - assert (Hsk : skip_sep (buf ++ rest ++ q) = String c t ++ rest ++ q) by (rewrite skip_sep_app, Es; [done | by rewrite Es]).
    pose proof (skip_sep_length buf) as Hlen. rewrite Es in Hlen.
    destruct (Ascii.eqb_spec c "]") as [->|Hc].
    + inversion Hr as [? ? E|? ? ? ? ? ? E]; subst; rewrite Hsk in E; [| discriminate E]. injection E as E.
      destruct (Nat.ltb_spec (String.length after) (String.length q)) as [Hlt|]; [| done].
      subst after. rewrite !length_app_str in Hlt. lia.
    + inversion Hr as [? ? E|body u body' d events' after' E Hu Hr']; subst; rewrite Hsk in E; [injection E as -> _; done |].
      destruct (decide (String.length (String "{" u) <= String.length (String c t))) as [Hle|Hgt].
      * destruct (app_split _ _ _ _ E Hle) as (m & Em & <-). rewrite Em.
        rewrite (raw_decode_app chr _ _ _ m Hu I). cbn [String.append].
        apply reading_cons, IH; [| done]. rewrite Em, length_app_str in Hlen. simpl in Hlen. change ("" ++ m) with m. lia.
      * destruct (app_split _ _ _ _ (eq_sym E)) as (m & Em & Eq); [lia |].
        assert (Hm : m <> "") by (intros ->; rewrite Em, app_nil_str in Hgt; lia).
        assert (c = "{"%char) as -> by (by injection Em as -> _). rewrite Em in Hu.
        rewrite (raw_decode_cut chr _ _ _ Hu Hm). apply Hrefill; [| done |].
        { rewrite Hsk. change (String "{" t ++ rest ++ q) with (String "{" (t ++ rest ++ q)). done. }
        intros ->. simpl in Eq. apply reads_length in Hr'. change ("" ++ q) with q in Eq. rewrite <- Eq, length_app_str. lia.
Qed.

(** The needle is in a text that only lacks what is behind it. *)
Lemma from_first_cut needle p q t : from_first needle (p ++ q) = Some t ->
  String.length needle + String.length q <= String.length t -> exists t', from_first needle p = Some t' /\ t = t' ++ q.
Proof.
  intros E Hl. destruct (from_first needle p) as [t'|] eqn:Ep.
  - exists t'. split; [done |]. rewrite (from_first_app _ _ q _ Ep) in E. congruence.
  - exfalso. destruct (from_first_suffix _ _ _ E) as [pre Epre].
    assert (Hp : String.length pre <= String.length p).
    { apply (f_equal String.length) in Epre. rewrite !length_app_str in Epre. lia. }
    destruct (app_split p pre q t Epre Hp) as (u & -> & Eu). pose proof (from_first_absent _ _ _ Ep) as Hu.
    apply from_first_prefix in E as Ht. apply prefix_spec in Ht as [b Eb]. rewrite <- Eu in Eb.
    rewrite (prefix_of_longer needle u b q) in Hu; [done | done |]. rewrite <- Eu, length_app_str in Hl. lia.
Qed.

(** The array opens after the key. *)
Lemma array_after_key content tail body : from_first KEY content = Some tail -> from_first "[" tail = Some (String "[" body) ->
  String.length KEY + S (String.length body) <= String.length tail.
Proof.
  intros Ek Eb. apply from_first_prefix in Ek. apply prefix_spec in Ek as [z ->].
  assert (E : from_first "[" (KEY ++ z) = from_first "[" z) by reflexivity.
  rewrite E in Eb. destruct (from_first_suffix _ _ _ Eb) as [pre ->]. rewrite !length_app_str. simpl. lia.
Qed.

Lemma reads_suffix body events after : reads body events after -> exists y, body = y ++ after.
Proof.
  assert (Hs : forall s, exists pre, s = pre ++ skip_sep s).
  { induction s as [|c s [pre IH]]; simpl; [by exists "" |]. destruct (is_sep c); [| by exists ""].
    exists (String c pre). change (String c pre ++ skip_sep s) with (String c (pre ++ skip_sep s)). by rewrite <- IH. }
  induction 1 as [body after E|body t body' d events after E _ _ [y ->]]; destruct (Hs body) as [pre ->]; rewrite E.
  - exists (pre ++ "]"). by rewrite app_assoc_str.
  - exists (pre ++ String "{" t ++ y). by rewrite !app_assoc_str.
Qed.

(** What a reading gives, cut or not. *)
Lemma trace_streams_spec content events after p q : trace content events after -> content = p ++ q ->
  if (String.length q <=? String.length after)%nat then
    iter_trace_events chr chunk strict p = (events, Closed)
  else exists k, iter_trace_events chr chunk strict p = (take k events, eof strict).
Proof.
  intros (tail & body & Ek & Eb & Hr) ->. pose proof (array_after_key _ _ _ Ek Eb) as Hlen.
  pose proof (reads_length _ _ _ Hr) as Hafter.
  enough (H : reading (String.length after <? String.length q)%nat events (iter_trace_events chr chunk strict p)).
  { unfold reading in H. destruct (Nat.leb_spec (String.length q) (String.length after)) as [Hle|Hgt].
    - by rewrite (proj2 (Nat.ltb_ge _ _) Hle) in H.
    - by rewrite (proj2 (Nat.ltb_lt _ _) Hgt) in H. }
  assert (Hshort : String.length body < String.length q ->
    reading (String.length after <? String.length q)%nat events ([], eof strict)).
  { intros Hl. rewrite (proj2 (Nat.ltb_lt _ _)) by lia. apply reading_eof. }
  unfold iter_trace_events. pose proof (seek_spec (String.length p) KEY "" p ltac:(lia)) as Hseek.
  change ("" ++ p) with p in Hseek. destruct (from_first KEY p) as [t|] eqn:Ep.
  2: { rewrite Hseek. apply Hshort. destruct (decide (String.length q <= String.length body)); [| lia].
       destruct (from_first_cut KEY p q tail Ek ltac:(lia)) as (? & E & _). congruence. }
  destruct Hseek as (b & rest & -> & -> & _ & _).
  assert (tail = (b ++ rest) ++ q) as -> by (rewrite (from_first_app _ _ q _ Ep) in Ek; congruence).
  pose proof (seek_spec (String.length rest) "[" b rest ltac:(lia)) as Hseek.
  destruct (from_first "[" (b ++ rest)) as [t|] eqn:Et.
  2: { rewrite Hseek. apply Hshort. destruct (decide (String.length q <= String.length body)); [| lia].
       destruct (from_first_cut "[" _ q _ Eb) as (? & E & _); [simpl; lia | congruence]. }
  destruct Hseek as (b' & rest' & -> & -> & Hp & _). apply prefix_spec in Hp as [b1 ->].
  rewrite (from_first_app _ _ q _ Et) in Eb. change ("[" ++ b1) with (String "[" b1) in *. injection Eb as Eb.
  apply read_events_spec; [simpl; lia |]. change (drop_str 1 (String "[" b1)) with b1. rewrite <- app_assoc_str. by rewrite Eb.
Qed.

(** C32. A trace read in chunks gives its events, whatever the chunk size; and a
    file that ends before the closing bracket of the array never passes for a complete one.  [p] is what of the
    trace [content] is there.  When all that is missing is behind the closing bracket, the
    reading gives exactly the events.  Otherwise it gives the first few of them and
    ends with [TruncatedTrace], or silently when it is not strict. *)
Theorem trace_streams content events after p q : trace content events after -> content = p ++ q ->
  if (String.length q <=? String.length after)%nat then
    iter_trace_events chr chunk strict p = (events, Closed)
  else exists k, iter_trace_events chr chunk strict p = (take k events, eof strict).
Proof. apply trace_streams_spec. Qed.

End spec.

(** ** A trace *)

Definition demo_chr (n : Z) : string := String (ascii_of_nat (Z.to_nat n)) "".
Definition demo_content : string := unquote "{^schema^: 1, ^traceEvents^: [ {^cat^: ^kernel^, ^dur^: 1.5} ,
 {^args^: {^grid^: [2, 3]}}], ^t^: 0}".
Definition demo_events : list json :=
  [JDict [("cat", JStr "kernel"); ("dur", JFloat (inject_Z 15 * Qpower (inject_Z 10) (-1)%Z)%Q)];
   JDict [("args", JDict [("grid", JList [JInt 2; JInt 3])])]].

Lemma demo_trace : trace demo_chr demo_content demo_events (unquote ", ^t^: 0}").
Proof.
  eexists _, _. split; [vm_compute; reflexivity |]. split; [vm_compute; reflexivity |].
  eapply (reads_event _ _ (unquote "^cat^: ^kernel^, ^dur^: 1.5}") (unquote " ,
 {^args^: {^grid^: [2, 3]}}], ^t^: 0}")); [vm_compute; reflexivity.. |].
  eapply (reads_event _ _ (unquote "^args^: {^grid^: [2, 3]}}") (unquote "], ^t^: 0}")); [vm_compute; reflexivity.. |].
  by apply reads_close.
Qed.

Lemma trace_streams_witness : exists p q, demo_content = p ++ q /\ q = unquote "d^: [2, 3]}}], ^t^: 0}" /\
  iter_trace_events demo_chr 3 true demo_content = (demo_events, Closed) /\
  exists k, iter_trace_events demo_chr 3 true p = (take k demo_events, TruncatedTrace).
Proof.
  exists (take_str 78 demo_content), (drop_str 78 demo_content). split; [by rewrite take_drop_str |]. split; [reflexivity |]. split.
  - exact (trace_streams demo_chr 3 true ltac:(lia) demo_content demo_events _ demo_content "" demo_trace
      (eq_sym (app_nil_str _))).
  - exact (trace_streams demo_chr 3 true ltac:(lia) demo_content demo_events _ _ _ demo_trace
      (eq_sym (take_drop_str 78 demo_content))).
Defined.
