(* ===== verification/KernelTimeline.v ===== *)
(** * Joining kernels into graph executions

    Model of [_attribute_generations] and [_merge_generations] of
    [scripts/audit_decode_kernel_share.py]: a sweep over one trace's timeline
    with a heap of the ranges that are still open.  Times are exact rationals. *)
From Stdlib Require Import ZArith QArith Lqa Lia String.
From stdpp Require Import base list strings sorting sets.
From S2P Require Import Prelude PyNum PyDict Stats HeapQ.
Open Scope nat_scope.

(** ** Tuples of two numbers and a text, in Python's order *)

Definition span : Type := Q * Q * string.
#[global] Instance span_inhabited : Inhabited span := populate (0%Q, 0%Q, ""%string).

Definition ts (s : span) : Q := s.1.1.
Definition dur (s : span) : Q := s.1.2.
Definition label (s : span) : string := s.2.

(** [a < b] on tuples: the first components that differ decide. *)
Definition tlt (a b : span) : bool :=
  match (ts a ?= ts b)%Q with
  | Lt => true
  | Gt => false
  | Eq => match (dur a ?= dur b)%Q with
          | Lt => true
          | Gt => false
          | Eq => negb (String.leb (label b) (label a))
          end
  end.

(** [sort()] needs only [<]. *)
Definition tle (a b : span) : Prop := tlt b a = false.
#[global] Instance tle_dec : RelDecision tle.
Proof. intros a b. unfold tle. apply _. Defined.

Definition sort (l : list span) : list span := merge_sort tle l.

(** ** The sweep *)

Record usage := Usage { u_count : nat; u_us : Q }.
Record bucket := Bucket { kernel_us : Q; kernel_count : nat; b_kernels : list (string * usage) }.

Definition add_usage (count : nat) (us : Q) (u : option usage) : usage :=
  let u := default (Usage 0 0) u in Usage (u_count u + count) (u_us u + us).

Definition EMPTY : bucket := Bucket 0 0 [].

Definition record (k : span) (b : option bucket) : bucket :=
  let b := default EMPTY b in
  Bucket (kernel_us b + dur k) (S (kernel_count b)) (dict_update (label k) (add_usage 1 (dur k)) (b_kernels b)).

(** [while index < len(annotations) and annotations[index][0] <= ts]. *)
Fixpoint push_started (now : Q) (pending heap : list span) : list span * list span :=
  match pending with
  | [] => ([], heap)
  | a :: rest =>
      if Qle_bool (ts a) now then push_started now rest (heappush tlt heap (ts a + dur a, ts a, label a)%Q)
      else (pending, heap)
  end.

(** [while heap and heap[0][0] < ts]; the fuel is the size of the heap. *)
Fixpoint pop_expired (fuel : nat) (now : Q) (heap : list span) : list span :=
  match fuel, heap with
  | S fuel, root :: _ =>
      if Qltb (ts root) now then
        match heappop tlt heap with Some (_, heap) => pop_expired fuel now heap | None => heap end
      else heap
  | _, _ => heap
  end.

(** [max(heap, key=lambda item: item[1])]: the first of the latest starts. *)
Definition innermost (heap : list span) : option string :=
  match heap with
  | [] => None
  | h :: heap => Some (label (fold_left (fun best h => if Qltb (dur best) (dur h) then h else best) heap h))
  end.

Record sweep := Sweep { pending : list span; heap : list span; out : list (string * bucket) }.

Definition attribute (s : sweep) (k : span) : sweep :=
  let '(pending, heap) := push_started (ts k) (pending s) (heap s) in
  let heap := pop_expired (length heap) (ts k) heap in
  match innermost heap with
  | None => Sweep pending heap (out s)
  | Some range => Sweep pending heap (dict_update range (record k) (out s))
  end.

Definition _attribute_generations (annotations kernels : list span) : list (string * bucket) :=
  out (fold_left attribute (sort kernels) (Sweep (sort annotations) [] [])).

(** One rank's buckets into the audit's. *)
Definition merge_bucket (source : bucket) (b : option bucket) : bucket :=
  let b := default EMPTY b in
  Bucket (kernel_us b + kernel_us source) (kernel_count b + kernel_count source)
    (fold_left (fun d p => dict_update p.1 (add_usage (u_count p.2) (u_us p.2)) d) (b_kernels source) (b_kernels b)).

Definition _merge_generations (target source : list (string * bucket)) : list (string * bucket) :=
  fold_left (fun t p => dict_update p.1 (merge_bucket p.2) t) source target.

(** ** The order is total *)

Lemma tle_iff a b : tle a b <-> (ts a < ts b \/ ts a == ts b /\ (dur a < dur b \/ dur a == dur b /\ String.le (label a) (label b)))%Q.
Proof.
  unfold tle, tlt. destruct (Qcompare_spec (ts b) (ts a)) as [E|E|E].
  - destruct (Qcompare_spec (dur b) (dur a)) as [F|F|F].
    + rewrite negb_false_iff. unfold String.le. split.
      * intros H. right. split; [lra |]. right. split; [lra | by rewrite H].
      * intros [H|[_ [H|[_ H]]]]; [lra | lra |]. by apply Is_true_true.
    + split; [done | intros [H|[_ [H|[H _]]]]; lra].
    + split; [| done]. intros _. right. split; [lra | by left].
  - split; [done | intros [H|[H _]]; lra].
  - split; [| done]. intros _. by left.
Qed.

#[global] Instance tle_trans : Transitive tle.
Proof.
  intros a b c. rewrite !tle_iff. intros [H|[E [H|[F H]]]] [H'|[E' [H'|[F' H']]]].
  all: try (left; lra). all: right; split; [lra |]. all: try (left; lra). right. split; [lra | by trans (label b)].
Qed.

#[global] Instance tle_total : Total tle.
Proof.
  intros a b. rewrite !tle_iff. destruct (Q_dec (ts a) (ts b)) as [[H|H]|E]; [by left; left | by right; left |].
  destruct (Q_dec (dur a) (dur b)) as [[H|H]|F]; [left; right; auto | right; right; split; [lra | by left] |].
  destruct (total String.le (label a) (label b)); [left | right]; right; (split; [lra |]); right; (split; [lra | done]).
Qed.

#[global] Instance tlt_preorder : TotalPreorder tlt.
Proof.
  split.
  - intros a b c Hab Hbc. change (tle a c). by trans b.
  - intros a b H. change (tle a b). destruct (total tle a b) as [?|Hba]; [done |]. unfold tle in Hba. congruence.
Qed.

Lemma tle_ts a b : tle a b -> (ts a <= ts b)%Q.
Proof. rewrite tle_iff. intros [H|[H _]]; lra. Qed.

(** ** What the sweep computes *)

Definition contains (a : span) (now : Q) : Prop := (ts a <= now /\ now <= ts a + dur a)%Q.
Definition entry (a : span) : span := (ts a + dur a, ts a, label a)%Q.

Lemma push_started_spec now pend hp : Sorted.StronglySorted tle pend -> is_heap tlt hp ->
  let '(pend', hp') := push_started now pend hp in
  exists started, pend = started ++ pend' /\ is_heap tlt hp' /\ (forall h, h ∈ hp' <-> h ∈ hp \/ h ∈ map entry started) /\
    Forall (fun a => ts a <= now)%Q started /\ Forall (fun a => now < ts a)%Q pend' /\ Sorted.StronglySorted tle pend'.
Proof.
  revert hp. induction pend as [|a pend IH]; intros hp Hs Hh; simpl.
  - exists []. split_and!; try done. intros h. simpl. set_solver.
  - inversion Hs as [|? ? Hs' Ha]; subst. destruct (Qle_bool (ts a) now) eqn:E.
    + apply Qle_bool_iff in E. destruct (heappush_spec tlt hp (entry a) Hh) as [Hp Hh'].
      specialize (IH _ Hs' Hh'). change (ts a + dur a, ts a, label a)%Q with (entry a).
      destruct (push_started now pend (heappush tlt hp (entry a))) as [pend' hp'].
      destruct IH as (started & -> & ? & Hin & ? & ? & ?). exists (a :: started). split_and!; try done; [| by constructor].
      intros h. rewrite Hin, Hp. simpl. set_solver.
    + exists []. split_and!; try done; [set_solver |]. apply not_true_iff_false in E. rewrite Qle_bool_iff in E.
      apply Qnot_le_lt in E. constructor; [done |]. eapply List.Forall_impl; [| exact Ha]. intros b Hb%tle_ts. lra.
Qed.

Lemma pop_expired_spec fuel now hp : length hp <= fuel -> is_heap tlt hp ->
  is_heap tlt (pop_expired fuel now hp) /\
  forall h, h ∈ pop_expired fuel now hp <-> h ∈ hp /\ (now <= ts h)%Q.
Proof.
  revert hp. induction fuel as [|fuel IH]; intros hp Hf Hh; cbn [pop_expired].
  { destruct hp; [| simpl in Hf; lia]. split; [done |]. set_solver. }
  destruct hp as [|root hp]; [split; [done | set_solver] |].
  assert (Hroot : forall h, h ∈ root :: hp -> (ts root <= ts h)%Q).
  { intros h [i Hi]%list_elem_of_lookup_1. pose proof (is_heap_root tlt _ i Hh (lookup_lt_Some _ _ _ Hi)) as Hle.
    rewrite (list_lookup_total_correct _ _ _ Hi) in Hle. by apply tle_ts. }
  destruct (Qltb (ts root) now) eqn:E.
  - apply Qltb_lt in E. pose proof (heappop_spec tlt _ Hh) as Hpop. destruct (heappop tlt (root :: hp)) as [[item rest]|]; [| done].
    destruct Hpop as (Hp & Hh' & -> & _). change ((root :: hp) !!! 0) with root in Hp.
    apply Permutation_cons_inv in Hp as Hp'. destruct (IH rest) as [Hheap Hin]; [| done |].
    { apply Permutation_length in Hp'. simpl in Hf. lia. }
    split; [done |]. intros h. rewrite Hin, <- Hp', elem_of_cons. split; [tauto |]. intros [[->|?] ?]; [lra | done].
  - apply Qltb_ge in E. split; [done |]. intros h. split; [| tauto]. intros Hin. split; [done |]. pose proof (Hroot h Hin). lra.
Qed.

Lemma innermost_spec hp : match innermost hp with
  | None => hp = []
  | Some l => exists h, h ∈ hp /\ label h = l /\ forall h', h' ∈ hp -> (dur h' <= dur h)%Q
  end.
Proof.
  destruct hp as [|h hp]; [done |]. unfold innermost. set (f := fun best h : span => _).
  enough (H : forall hp best, let m := fold_left f hp best in
    m ∈ best :: hp /\ (dur best <= dur m)%Q /\ forall h', h' ∈ hp -> (dur h' <= dur m)%Q).
  { destruct (H hp h) as (Hin & Hb & Hall). eexists. split; [exact Hin |]. split; [done |].
    intros h' [->|?]%elem_of_cons; [done | by apply Hall]. }
  clear. induction hp as [|h hp IH]; intros best; simpl; [split_and!; [left | lra | set_solver] |].
  destruct (IH (f best h)) as (Hin & Hb & Hall). set (m := fold_left f hp (f best h)) in *.
  assert (Hf : f best h = (if Qltb (dur best) (dur h) then h else best)) by done. rewrite Hf in Hin, Hb.
  destruct (Qltb (dur best) (dur h)) eqn:E; [apply Qltb_lt in E | apply Qltb_ge in E].
  - split_and!; [set_solver | lra |]. intros h' [->|?]%elem_of_cons; [done | by apply Hall].
  - split_and!; [set_solver | done |]. intros h' [->|?]%elem_of_cons; [lra | by apply Hall].
Qed.

(** The ranges begun and not over when the last kernel started are in the heap. *)
Record swept (annotations : list span) (now : option Q) (s : sweep) : Prop := Swept {
  sw_heap : is_heap tlt (heap s);
  sw_pending : Sorted.StronglySorted tle (pending s);
  sw_split : exists begun, annotations = begun ++ pending s /\
    (forall a, a ∈ begun -> exists t, now = Some t /\ (ts a <= t)%Q) /\
    (forall h, h ∈ heap s -> exists a, a ∈ begun /\ h = entry a) /\
    (forall a, a ∈ begun -> (forall t, now = Some t -> (t <= ts a + dur a)%Q) -> entry a ∈ heap s)
}.

Definition joined (annotations : list span) (k : span) (pick : option string) : Prop :=
  match pick with
  | None => forall a, a ∈ annotations -> ~ contains a (ts k)
  | Some range => exists a, a ∈ annotations /\ label a = range /\ contains a (ts k) /\
      forall b, b ∈ annotations -> contains b (ts k) -> (ts b <= ts a)%Q
  end.

Definition put (out : list (string * bucket)) (p : span * option string) : list (string * bucket) :=
  if p.2 is Some range then dict_update range (record p.1) out else out.

Lemma attribute_spec annotations now s k : swept annotations now s -> (forall t, now = Some t -> (t <= ts k)%Q) ->
  exists pick, joined annotations k pick /\ out (attribute s k) = put (out s) (k, pick) /\
    swept annotations (Some (ts k)) (attribute s k).
Proof.
  intros [Hh Hp (begun & Hsplit & Hbegun & Hin & Hopen)] Hnow. unfold attribute.
  pose proof (push_started_spec (ts k) (pending s) (heap s) Hp Hh) as Hpush.
  destruct (push_started (ts k) (pending s) (heap s)) as [pend hp].
  destruct Hpush as (started & Epend & Hh1 & Hin1 & Hst & Hlater & Hp1).
  destruct (pop_expired_spec (length hp) (ts k) hp (le_n _) Hh1) as [Hh2 Hin2].
  set (hp' := pop_expired _ _ _) in *.
  assert (Hsw : forall o, swept annotations (Some (ts k)) (Sweep pend hp' o)).
  { intros o. split; [done | done |]. exists (begun ++ started). split_and!.
    - by rewrite Hsplit, Epend, app_assoc.
    - intros a Ha. exists (ts k). split; [done |]. apply elem_of_app in Ha as [Ha|Ha].
      + destruct (Hbegun a Ha) as (t & Ht & ?). specialize (Hnow t Ht). lra.
      + rewrite Forall_forall in Hst. by apply Hst.
    - intros h [[H|H]%Hin1 _]%Hin2; [destruct (Hin h H) as (a & ? & ->); exists a; set_solver |].
      apply list_elem_of_fmap in H as (a & -> & ?). exists a. set_solver.
    - intros a Ha Hend. apply Hin2. split; [| by apply Hend]. apply Hin1. apply elem_of_app in Ha as [Ha|Ha].
      + left. apply Hopen; [done |]. intros t Ht. specialize (Hnow t Ht). specialize (Hend _ eq_refl). lra.
      + right. by apply list_elem_of_fmap_2. }
  destruct (sw_split _ _ _ (Hsw [])) as (b & E & Hb & Hfrom & Hop). simpl in E, Hfrom, Hop.
  assert (Hcover : forall a, a ∈ annotations -> contains a (ts k) -> entry a ∈ hp').
  { intros a Ha [Hs He]. rewrite E in Ha. apply elem_of_app in Ha as [Ha|Ha]; [apply Hop; [done | by intros t [= <-]] |].
    rewrite Forall_forall in Hlater. specialize (Hlater a Ha). simpl in Hlater. lra. }
  assert (Hmember : forall h, h ∈ hp' -> exists a, a ∈ annotations /\ h = entry a /\ contains a (ts k)).
  { intros h Hh'. destruct (Hfrom h Hh') as (a & Ha & ->). exists a. split; [rewrite E; set_solver |]. split; [done |].
    apply Hin2 in Hh' as [_ Hend]. destruct (Hb a Ha) as (t & [= <-] & ?). by split. }
  pose proof (innermost_spec hp') as Hmax. destruct (innermost hp') as [range|].
  - destruct Hmax as (h & Hh' & <- & Hmax). destruct (Hmember h Hh') as (a & Ha & -> & Hc).
    exists (Some (label (entry a))). split_and!; [| done | apply Hsw].
    exists a. split_and!; try done. intros b' Hb' Hc'. exact (Hmax _ (Hcover b' Hb' Hc')).
  - exists None. split_and!; [| done | apply Hsw]. intros a Ha Hc. specialize (Hcover a Ha Hc). rewrite Hmax in Hcover.
    by apply not_elem_of_nil in Hcover.
Qed.

Lemma attribute_all annotations ks now s : swept annotations now s -> Sorted.StronglySorted tle ks ->
  (forall t k, now = Some t -> k ∈ ks -> (t <= ts k)%Q) ->
  exists picks, Forall2 (joined annotations) ks picks /\ out (fold_left attribute ks s) = fold_left put (zip ks picks) (out s).
Proof.
  revert now s. induction ks as [|k ks IH]; intros now s Hsw Hs Hnow; [by exists [] |].
  inversion Hs as [|? ? Hs' Hk]; subst.
  destruct (attribute_spec annotations now s k Hsw) as (pick & Hj & Eo & Hsw'); [intros t Ht; apply Hnow; [done | left] |].
  destruct (IH _ _ Hsw' Hs') as (picks & Hall & E).
  { intros t k' [= <-] Hk'. rewrite List.Forall_forall in Hk. apply tle_ts, Hk. by apply list_elem_of_In. }
  exists (pick :: picks). split; [by constructor |]. simpl. by rewrite E, Eo.
Qed.

Lemma sort_sorted l : Sorted.StronglySorted tle (sort l).
Proof. apply (StronglySorted_merge_sort tle). Qed.
Lemma sort_perm l : sort l ≡ₚ l.
Proof. apply merge_sort_Permutation. Qed.

Lemma joined_perm annotations annotations' k pick : annotations ≡ₚ annotations' -> joined annotations k pick -> joined annotations' k pick.
Proof.
  intros E. unfold joined. destruct pick as [range|].
  - intros (a & ? & ? & ? & Hb). exists a. rewrite <- E. split_and!; try done. intros b. rewrite <- E. apply Hb.
  - intros H a. rewrite <- E. apply H.
Qed.

(** The sweep is the join: every kernel goes into a range that contains its start and that no
    other such range starts later than, or nowhere when there is none. *)
Lemma attribute_generations_join annotations kernels : exists picks,
  Forall2 (joined annotations) (sort kernels) picks /\
  _attribute_generations annotations kernels = fold_left put (zip (sort kernels) picks) [].
Proof.
  destruct (attribute_all (sort annotations) (sort kernels) None (Sweep (sort annotations) [] [])) as (picks & Hall & E).
  - split; [by intros i; simpl; lia | apply sort_sorted |]. exists []. split_and!; [done | set_solver..].
  - apply sort_sorted.
  - done.
  - exists picks. split; [| done]. eapply Forall2_impl; [exact Hall |]. intros k p. apply joined_perm, sort_perm.
Qed.

(** *** Nothing is lost *)

Definition covered (annotations : list span) (k : span) : bool :=
  existsb (fun a => Qle_bool (ts a) (ts k) && Qle_bool (ts k) (ts a + dur a)) annotations.

Lemma covered_joined annotations k pick : joined annotations k pick ->
  covered annotations k = match pick with Some _ => true | None => false end.
Proof.
  unfold covered. intros Hj. destruct pick as [range|].
  - destruct Hj as (a & Ha & _ & [H1 H2] & _). apply existsb_exists. exists a. split; [by apply list_elem_of_In |].
    apply andb_true_iff. by rewrite !Qle_bool_iff.
  - apply not_true_iff_false. intros (a & Ha & [H1 H2]%andb_true_iff)%existsb_exists. rewrite Qle_bool_iff in H1, H2.
    apply (Hj a); [by apply list_elem_of_In | by split].
Qed.

Lemma put_sums annotations ks picks o : Forall2 (joined annotations) ks picks ->
  let kept := base.filter (covered annotations) ks in
  sum_list_with (fun p => kernel_count p.2) (fold_left put (zip ks picks) o) =
    length kept + sum_list_with (fun p => kernel_count p.2) o /\
  (Qsum (map (fun p => kernel_us p.2) (fold_left put (zip ks picks) o)) ==
    Qsum (map dur kept) + Qsum (map (fun p => kernel_us p.2) o))%Q.
Proof.
  intros Hall. revert o. induction Hall as [|k pick ks picks Hj Hall IH]; intros o; simpl; [split; [done | lra] |].
  destruct (IH (put o (k, pick))) as [Hc Hu]. rewrite Hc, Hu. pose proof (covered_joined _ _ _ Hj) as Hcov.
  rewrite filter_cons, Hcov. unfold put. simpl. destruct pick as [range|]; simpl.
  - rewrite (dict_update_count kernel_count _ _ 1) by (intros [b|]; simpl; lia).
    rewrite (dict_update_us kernel_us _ _ (dur k)) by (intros [b|]; simpl; lra). split; [lia | lra].
  - split; [done | lra].
Qed.

(** The sweep over the timeline is the join it stands for.  Every kernel
    of the trace goes into a graph execution whose range contains its start, and no range
    that contains it starts later; it goes nowhere exactly when no range contains it.  So the
    buckets together hold every covered kernel once, and all of its time. *)
Theorem attribution_innermost annotations kernels :
  let out := _attribute_generations annotations kernels in
  let kept := base.filter (covered annotations) kernels in
  (exists picks, Forall2 (joined annotations) (sort kernels) picks /\ out = fold_left put (zip (sort kernels) picks) []) /\
  sum_list_with (fun p => kernel_count p.2) out = length kept /\
  (Qsum (map (fun p => kernel_us p.2) out) == Qsum (map dur kept))%Q.
Proof.
  destruct (attribute_generations_join annotations kernels) as (picks & Hall & E). simpl. rewrite E.
  split; [by eexists |]. destruct (put_sums annotations _ _ [] Hall) as [Hc Hu]. rewrite Hc, Hu.
  assert (Hp : base.filter (covered annotations) (sort kernels) ≡ₚ base.filter (covered annotations) kernels)
    by (f_equiv; apply sort_perm).
  split; [simpl; rewrite Nat.add_0_r; by rewrite Hp |]. simpl. rewrite (Qsum_perm _ _ (Permutation_map dur Hp)). lra.
Qed.

(** An outer range, one inside it, and kernels in both, in the outer only and in neither. *)
Example nested_ranges :
  map (fun p => (p.1, kernel_count p.2)) (_attribute_generations
    [(0, 10, "outer"%string); (2, 3, "inner"%string)]%Q
    [(1, 1, "k"%string); (6, 1, "k"%string); (3, 1, "m"%string); (11, 1, "k"%string); (5, 9, "m"%string)]%Q) =
  [("outer"%string, 2); ("inner"%string, 2)].
Proof. vm_compute. reflexivity. Qed.
