(* ===== verification/KernelShare.v ===== *)
(** * The decode kernel-share audit

    Model of [audit] of [scripts/audit_decode_kernel_share.py], from the streamed
    events of the traces to the two verdicts.  Floats are exact rationals and
    [round] is to even on them; a non-finite number in a trace reads as an error.
    The launch geometry that is only reported (registers, shared memory, grid,
    block, limiting factor) and the per-graph table are not kept. *)
From Stdlib Require Import ZArith QArith Qround Qabs Lqa Lia String Ascii.
From stdpp Require Import base list strings numbers sorting sets.
From S2P Require Import Prelude PyStr PyNum PyDict Stats PyJson TraceStream KernelTimeline.
#[local] Open Scope string_scope.
#[local] Open Scope nat_scope.

(** ** Names *)

(** [re.compile("a.*b", re.I).search]: [a], and [b] later on the same line. *)
Fixpoint then_on_line (a b s : string) : bool :=
  (String.prefix a s && str_in b (before newline (drop_str (String.length a) s))) ||
  match s with String _ t => then_on_line a b t | EmptyString => false end.

Definition any_in (names : list string) (s : string) : bool := existsb (fun n => str_in n s) names.

(** [FAMILIES], on the lower-case name; the first that matches. *)
Definition FAMILIES : list (string * (string -> bool)) := [
  ("fused_moe", any_in ["exl3_moe"]);
  ("grouped_fat_moe", any_in ["fm_gateup"; "fm_down"; "fm_gather"]);
  ("sparse_mla", fun s => then_on_line "sparse" "mla" s || then_on_line "mla" "sparse" s || then_on_line "flashinfer" "mla" s);
  ("kda", any_in ["fused_recurrent_kda"; "chunk_kda"; "causal_conv1d"; "delta_rule"]);
  ("attention", any_in ["flash_attn"; "fmha"; "attention"; "paged_attention"; "flash_fwd"]);
  ("gemm", any_in ["cutlass"; "gemm"; "sgemm"; "matmul"; "nvjet"; "cublas"]);
  ("collective", any_in ["nccl"])].

Definition classify (name : string) : string :=
  match List.find (fun f => f.2 (lower name)) FAMILIES with
  | Some f => f.1
  | None => "other"
  end.

(** A run of digits at the head of [s]. *)
Definition leading_digits (s : string) : string := (digits s).1.

(** [rank\d+|worker\d+] at the head of [s]. *)
Definition rank_here (s : string) : option string :=
  let at_word w := if String.prefix w s then
      let d := leading_digits (drop_str (String.length w) s) in
      if String.eqb d "" then None else Some (w ++ d)
    else None in
  match at_word "rank" with Some r => Some r | None => at_word "worker" end.

(** [re.search("(?:^|[_.])(rank\d+|worker\d+)", s)], the part behind [^]. *)
Fixpoint rank_inside (s : string) : option string :=
  match s with
  | EmptyString => None
  | String c t =>
      match (if Ascii.eqb c "_" || Ascii.eqb c "." then rank_here t else None) with
      | Some r => Some r
      | None => rank_inside t
      end
  end.

Definition rank_of (name : string) : string :=
  match rank_here name with
  | Some r => r
  | None => default name (rank_inside name)
  end.

(** ** Numbers *)

(** [_derived_occupancy]. *)
Definition _derived_occupancy (args : list (string * json)) : res (option Q) :=
  match dict_get "warps per SM" args with
  | None => Ok None
  | Some warps =>
      if negb (is_number warps) then Ok None
      else
        warps_per_sm ← to_float warps;
        if Qle_bool warps_per_sm 0 then Ok None
        else
          match dict_get "block" args with
          | Some (JList (b0 :: _)) =>
              match as_int b0, dict_get "occupancy" args with
              | Some threads, Some (JDict occ) =>
                  match dict_get "blockLimitWarps" occ ≫= as_int with
                  | Some block_limit =>
                      if (block_limit <=? 0)%Z then Ok None
                      else
                        let warps_per_block := Z.max 1 (threads / 32) in
                        let capacity := (block_limit * warps_per_block)%Z in
                        if (capacity <=? 0)%Z then Ok None
                        else Ok (Some (py_round 2 (100 * warps_per_sm / inject_Z capacity)))
                  | None => Ok None
                  end
              | _, _ => Ok None
              end
          | _ => Ok None
          end
  end.

(** [_grid_volume]: the blocks of the launch. *)
Fixpoint volume (total : Z) (grid : list json) : option Z :=
  match grid with
  | [] => Some total
  | v :: grid =>
      match as_int v with
      | Some value => if (value <=? 0)%Z then None else volume (total * value) grid
      | None => None
      end
  end.

Definition _grid_volume (args : list (string * json)) : option Z :=
  match dict_get "grid" args with
  | Some (JList (v :: grid)) => volume 1 (v :: grid)
  | _ => None
  end.

(** ** The tally *)

(** What one launch adds to the sets of its kernel's row. *)
Record facts := Facts {
  f_regs : option Z; f_smem : option Z; f_grid : option Z; f_block : option (list Z); f_occ : option Z;
  f_derived : option Q; f_limiter : option string; f_graph : option string
}.

(** The sets are lists here; the report sorts them. *)
Record kernel_row := KRow {
  k_family : string; k_count : nat; k_us : Q; k_regs : list Z; k_smem : list Z; k_grid : list Z; k_block : list (list Z);
  k_occ : list Z; k_derived : list Q; k_limiter : list string; k_graphs : list string
}.

(** [_empty_kernel]. *)
Definition _empty_kernel (name : string) : kernel_row := KRow (classify name) 0 0 [] [] [] [] [] [] [] [].

(** A CUDA graph of a rank. *)
Record graph_row := Graph { g_id : string; g_rank : string; g_kernel_count : nat; g_total_us : Q; g_kernels : list (string * Q) }.

(** An entry of [per_trace]. *)
Record trace_row := TraceRow { t_file : string; t_rank : string; t_kernels : nat; t_us : Q; t_ranges : nat }.

(** What the loop over the traces accumulates. *)
Record tally := Tally {
  per_kernel : list (string * kernel_row);
  per_graph : list (string * graph_row);
  attributed : list (string * bucket);
  pieces : list (string * nat);
  total_kernel_us : Q; total_kernel_count : nat; total_memcpy_us : Q; total_ranges : nat;
  per_trace : list trace_row
}.

(** The loop over one trace's events. *)
Record scan := Scan {
  s_tally : tally; trace_kernels : nat; trace_us : Q; annotations : list span; kernels_index : list span
}.

Definition add_memcpy (us : Q) (t : tally) : tally :=
  Tally (per_kernel t) (per_graph t) (attributed t) (pieces t) (total_kernel_us t) (total_kernel_count t)
    (total_memcpy_us t + us) (total_ranges t) (per_trace t).

Definition add_row (us : Q) (f : facts) (graph_key : option string) (r : kernel_row) : kernel_row :=
  KRow (k_family r) (S (k_count r)) (k_us r + us) (option_list (f_regs f) ++ k_regs r) (option_list (f_smem f) ++ k_smem r)
    (option_list (f_grid f) ++ k_grid r) (option_list (f_block f) ++ k_block r) (option_list (f_occ f) ++ k_occ r)
    (option_list (f_derived f) ++ k_derived r) (option_list (f_limiter f) ++ k_limiter r)
    (option_list graph_key ++ k_graphs r).

Definition add_graph (rank gid name : string) (us : Q) (g : option graph_row) : graph_row :=
  let g := default (Graph gid rank 0 0 []) g in
  Graph (g_id g) (g_rank g) (S (g_kernel_count g)) (g_total_us g + us)
    (dict_update name (fun u => default 0 u + us)%Q (g_kernels g)).

(** Graph ids are per process: the key has the rank. *)
Definition graph_key (rank : string) (gid : string) : string := (rank ++ ":" ++ gid)%string.

Definition add_kernel (rank name : string) (us : Q) (f : facts) (t : tally) : tally :=
  let key := graph_key rank <$> f_graph f in
  Tally (dict_update name (fun r => add_row us f key (default (_empty_kernel name) r)) (per_kernel t))
    (match f_graph f with
     | Some gid => dict_update (graph_key rank gid) (add_graph rank gid name us) (per_graph t)
     | None => per_graph t
     end)
    (attributed t) (pieces t) (total_kernel_us t + us) (S (total_kernel_count t)) (total_memcpy_us t) (total_ranges t)
    (per_trace t).

Section audit.
(** [str(v)] of a value that is not a string. *)
Context (py_str : json -> string).

Definition to_str (v : json) : string := match v with JStr s => s | v => py_str v end.

(** What the audit reads of a launch's arguments. *)
Definition launch_facts (args : list (string * json)) : res facts :=
  block ← match dict_get "block" args with
          | Some (JList (b :: l)) => zs ← to_ints (b :: l); Ok (Some zs)
          | _ => Ok None
          end;
  derived ← _derived_occupancy args;
  Ok (Facts (dict_get "registers per thread" args ≫= as_int) (dict_get "shared memory" args ≫= as_int) (_grid_volume args)
        block (dict_get "est. achieved occupancy %" args ≫= as_int) derived
        (match dict_get "occupancy" args with
         | Some (JDict occ) =>
             match dict_get "limitingFactors" occ with
             | Some v => if falsy v then None else Some (to_str v)
             | None => None
             end
         | _ => None
         end)
        (match dict_get "graph id" args with Some JNull | None => None | Some v => Some (to_str v) end)).

(** The body of the loop over the events. *)
Definition audit_event (rank : string) (s : scan) (event : json) : res scan :=
  match event with
  | JDict e =>
      let cat := dict_get "cat" e in
      let d := dict_get "dur" e in
      if is_str "gpu_user_annotation" cat then
        match dict_get "name" e with
        | Some (JStr name) =>
            if has_number d then
              start ← of_option KeyError (dict_get "ts" e) ≫= to_float;
              us ← to_float (default JNull d);
              Ok (Scan (s_tally s) (trace_kernels s) (trace_us s) (annotations s ++ [(start, us, name)]) (kernels_index s))
            else Ok s
        | _ => Ok s
        end
      else if is_str "gpu_memcpy" cat && has_number d then
        us ← to_float (default JNull d);
        Ok (Scan (add_memcpy us (s_tally s)) (trace_kernels s) (trace_us s) (annotations s) (kernels_index s))
      else if negb (is_str "kernel" cat) || negb (has_number d) then Ok s
      else
        let name := match dict_get "name" e with Some v => to_str v | None => "<unnamed>" end in
        us ← to_float (default JNull d);
        args ← match dict_get "args" e with
               | None => Ok []
               | Some v => if falsy v then Ok [] else match v with JDict a => Ok a | _ => Raise AttributeError end
               end;
        start ← match dict_get "ts" e with None => Ok 0%Q | Some v => to_float v end;
        f ← launch_facts args;
        Ok (Scan (add_kernel rank name us f (s_tally s)) (S (trace_kernels s)) (trace_us s + us) (annotations s)
              (kernels_index s ++ [(start, us, name)]))
  | _ => Raise AttributeError
  end.

Fixpoint audit_events (rank : string) (s : scan) (events : list json) : res scan :=
  match events with
  | [] => Ok s
  | e :: events => s ← audit_event rank s e; audit_events rank s events
  end.

(** The end of a trace: its annotations counted, its own join merged in. *)
Definition close_trace (file : string) (s : scan) : tally :=
  let t := s_tally s in
  Tally (per_kernel t) (per_graph t)
    (_merge_generations (attributed t) (_attribute_generations (annotations s) (kernels_index s)))
    (fold_left (fun d a => dict_update (label a) (fun n => S (default 0 n)) d) (annotations s) (pieces t))
    (total_kernel_us t) (total_kernel_count t) (total_memcpy_us t) (total_ranges t + length (annotations s))
    (per_trace t ++ [TraceRow file (rank_of file) (trace_kernels s) (py_round 3 (trace_us s)) (length (annotations s))]).

(** One trace, a file name and its reading: a truncated one raises when its events are used up. *)
Definition audit_trace (t : tally) (trace : string * (list json * ending)) : res tally :=
  let '(file, (events, e)) := trace in
  s ← audit_events (rank_of file) (Scan t 0 0 [] []) events;
  match e with
  | Closed | Stopped => Ok (close_trace file s)
  | TruncatedTrace => Raise ValueError
  end.

Fixpoint audit_traces (t : tally) (traces : list (string * (list json * ending))) : res tally :=
  match traces with
  | [] => Ok t
  | trace :: traces => t ← audit_trace t trace; audit_traces t traces
  end.

Definition NOTHING : tally := Tally [] [] [] [] 0 0 0 0 [].

End audit.

(** ** The report *)

Record kernel_out := KOut {
  ko_name : string; ko_family : string; ko_count : nat; ko_us : Q; ko_mean : Q; ko_share : Q; ko_regs : list Z; ko_smem : list Z;
  ko_grid : list Z; ko_block : list (list Z); ko_occ : list Z; ko_derived : list Q; ko_limiter : list string;
  ko_graphs : list string
}.

(** Python's order of lists: the first difference decides. *)
Fixpoint list_leb (a b : list Z) : bool :=
  match a, b with
  | [], _ => true
  | _ :: _, [] => false
  | x :: a, y :: b => if (x <? y)%Z then true else if (y <? x)%Z then false else list_leb a b
  end.

#[global] Instance Q_eq_dec : EqDecision Q.
Proof. solve_decision. Defined.

(** [x / total if total else 0.0]. *)
Definition share_of (x total : Q) : Q := if Qeq_bool total 0 then 0 else x / total.

Definition kernel_out_of (total : Q) (p : string * kernel_row) : kernel_out :=
  let r := p.2 in
  KOut p.1 (k_family r) (k_count r) (py_round 3 (k_us r)) (py_round 4 (k_us r / inject_Z (Z.of_nat (k_count r))))
    (py_round 6 (share_of (k_us r) total)) (sorted_of Z.leb (k_regs r)) (sorted_of Z.leb (k_smem r))
    (sorted_of Z.leb (k_grid r)) (sorted_of list_leb (k_block r)) (sorted_of Z.leb (k_occ r))
    (sorted_of Qle_bool (k_derived r)) (sorted_of String.leb (k_limiter r)) (sorted_of String.leb (k_graphs r)).

(** [sort(key=total_us, reverse=True)]: stable. *)
Definition by_us (a b : kernel_out) : Prop := Qle (ko_us b) (ko_us a).
#[global] Instance by_us_dec : RelDecision by_us.
Proof. intros a b. unfold by_us. apply _. Defined.

Definition kernels_out (t : tally) : list kernel_out :=
  merge_sort by_us (map (kernel_out_of (total_kernel_us t)) (per_kernel t)).

(** ** The graphs *)

Record graph_out := GOut { go_key : string; go_id : string; go_rank : string; go_count : nat; go_us : Q; go_top : list (string * Q) }.

Definition by_second (a b : string * Q) : Prop := Qle b.2 a.2.
#[global] Instance by_second_dec : RelDecision by_second.
Proof. intros a b. unfold by_second. apply _. Defined.

Definition graph_out_of (g : graph_row) : graph_out :=
  GOut (graph_key (g_rank g) (g_id g)) (g_id g) (g_rank g) (g_kernel_count g) (py_round 3 (g_total_us g))
    (map (fun p => (p.1, py_round 3 p.2)) (take 8 (merge_sort by_second (g_kernels g)))).

Definition by_graph_us (a b : graph_out) : Prop := Qle (go_us b) (go_us a).
#[global] Instance by_graph_us_dec : RelDecision by_graph_us.
Proof. intros a b. unfold by_graph_us. apply _. Defined.

Definition graphs_out (t : tally) : list graph_out := merge_sort by_graph_us (map (fun p => graph_out_of p.2) (per_graph t)).

(** ** Families and verdicts *)

Record family := Family { f_us : Q; f_count : nat; f_kernels : list string }.

Definition add_family (r : kernel_out) (f : option family) : family :=
  let f := default (Family 0 0 []) f in
  Family (py_round 3 (f_us f + ko_us r)) (f_count f + ko_count r) (f_kernels f ++ [ko_name r]).

Definition families (t : tally) : list (string * family) :=
  fold_left (fun d r => dict_update (ko_family r) (add_family r) d) (kernels_out t) [].

Definition family_share (t : tally) (f : family) : Q := py_round 6 (share_of (f_us f) (total_kernel_us t)).

Definition find_family (name : string) (t : tally) : option family :=
  dict_find name (families t).

Inductive verdict29 := STOP_SHARE_BELOW_FLOOR | GAP_CANDIDATE_UNMEASURED | STOP_NO_OCCUPANCY_GAP.
Inductive verdict31 := MLA_STOP_SHARE_BELOW_FLOOR | STOP_NO_TACTIC_DIVERSITY | AUDIT_TACTIC_DIVERSITY.

Definition min_q (l : list Q) : option Q :=
  match l with [] => None | x :: l => Some (fold_left (fun m y => if Qltb y m then y else m) l x) end.
Definition min_z (l : list Z) : option Z := match l with [] => None | x :: l => Some (fold_left Z.min l x) end.

(** The cascade of task 29. *)
Definition decide29 (share floor : Q) (derived : option Q) (est : option Z) (occ_floor : Q) : verdict29 :=
  if Qltb share floor then STOP_SHARE_BELOW_FLOOR
  else if match derived with Some d => Qltb d occ_floor | None => false end then GAP_CANDIDATE_UNMEASURED
  else match est with
       | None => GAP_CANDIDATE_UNMEASURED
       | Some e => if Qltb (inject_Z e) occ_floor then GAP_CANDIDATE_UNMEASURED else STOP_NO_OCCUPANCY_GAP
       end.

Definition fused_rows (t : tally) : list kernel_out :=
  base.filter (fun r => ko_family r = "fused_moe") (kernels_out t).

Definition task29 (moe_share_floor occ_floor : Q) (t : tally) : verdict29 :=
  let share := match find_family "fused_moe" t with Some f => family_share t f | None => 0%Q end in
  decide29 share moe_share_floor (min_q (concat (map ko_derived (fused_rows t)))) (min_z (concat (map ko_occ (fused_rows t)))) occ_floor.

Definition sparse_rows (t : tally) : list kernel_out :=
  base.filter (fun r => ko_family r = "sparse_mla") (kernels_out t).

Definition decode_names (t : tally) : list string :=
  remove_dups (map ko_name (base.filter (fun r => str_in "decode" (lower (ko_name r)) = true /\
    str_in "merge" (lower (ko_name r)) = false) (sparse_rows t))).

Definition task31 (mla_share_floor : Q) (t : tally) : verdict31 :=
  let share := py_round 6 (share_of (Qsum (map ko_us (sparse_rows t))) (total_kernel_us t)) in
  if Qltb share mla_share_floor then MLA_STOP_SHARE_BELOW_FLOOR
  else if length (decode_names t) <=? 1 then STOP_NO_TACTIC_DIVERSITY
  else AUDIT_TACTIC_DIVERSITY.

Record report := Report { r_tally : tally; r_task29 : verdict29; r_task31 : verdict31 }.

Definition audit (py_str : json -> string) (traces : list (string * (list json * ending)))
    (moe_share_floor occ_floor mla_share_floor : Q) : res report :=
  t ← audit_traces py_str NOTHING traces;
  if total_kernel_count t =? 0 then Raise ValueError
  else Ok (Report t (task29 moe_share_floor occ_floor t) (task31 mla_share_floor t)).

(** ** Accounting *)

Definition is_kernel (e : json) : bool :=
  match e with JDict e => is_str "kernel" (dict_get "cat" e) && has_number (dict_get "dur" e) | _ => false end.

Definition event_us (e : json) : Q :=
  match e with
  | JDict e => match to_float (default JNull (dict_get "dur" e)) with Ok us => us | Raise _ => 0 end
  | _ => 0
  end.

(** Launched by a CUDA graph. *)
Definition in_graph (e : json) : bool :=
  match e with
  | JDict e => match dict_get "args" e with
               | Some (JDict args) => match dict_get "graph id" args with Some JNull | None => false | Some _ => true end
               | _ => false
               end
  | _ => false
  end.

Definition kernels_of (events : list json) : list json := base.filter is_kernel events.

Record tally_ok (t : tally) (kernels : list json) : Prop := TallyOk {
  ok_count : total_kernel_count t = length kernels;
  ok_us : (total_kernel_us t == Qsum (map event_us kernels))%Q;
  ok_rows : sum_list_with (fun p => k_count p.2) (per_kernel t) = total_kernel_count t;
  ok_rows_us : (Qsum (map (fun p => k_us p.2) (per_kernel t)) == total_kernel_us t)%Q;
  ok_family : Forall (fun p => k_family p.2 = classify p.1) (per_kernel t);
  ok_keys : NoDup (map fst (per_kernel t));
  ok_graphs : sum_list_with (fun p => g_kernel_count p.2) (per_graph t) = length (base.filter in_graph kernels)
}.

Lemma add_kernel_ok t kernels rank name us f e : tally_ok t kernels -> event_us e = us ->
  in_graph e = (if f_graph f then true else false) -> tally_ok (add_kernel rank name us f t) (kernels ++ [e]).
Proof.
  intros [Hc Hu Hr Hru Hf Hk Hg] He Hin. split; simpl.
  - rewrite length_app. simpl. lia.
  - rewrite map_app, Qsum_app, Hu. simpl. rewrite He. lra.
  - rewrite (dict_update_count k_count _ _ 1) by (intros [r|]; simpl; lia). lia.
  - rewrite (dict_update_us k_us _ _ us) by (intros [r|]; simpl; lra). rewrite Hru. lra.
  - apply dict_update_Forall; [done | done |]. intros v Hv. done.
  - by apply dict_update_nodup.
  - rewrite filter_app, length_app, filter_cons, filter_nil, <- Hg, Hin. destruct (f_graph f); simpl; [| lia].
    rewrite (dict_update_count g_kernel_count _ _ 1) by (intros [r|]; simpl; lia). lia.
Qed.

Lemma kernels_of_app l k : kernels_of (l ++ k) = (kernels_of l ++ kernels_of k)%list.
Proof. apply filter_app. Qed.

Lemma is_str_other a b v : is_str a v = true -> a <> b -> is_str b v = false.
Proof.
  unfold is_str. destruct v as [[| | | | |s| |]|]; try done. intros ->%String.eqb_eq Hne. by apply String.eqb_neq.
Qed.

Lemma kernels_of_single e : kernels_of [e] = if is_kernel e then [e] else [].
Proof. unfold kernels_of. rewrite filter_cons, filter_nil. by destruct (is_kernel e). Qed.

Section accounting.
Context (py_str : json -> string).

Lemma launch_facts_graph e args f : match dict_get "args" e with
    | None => Ok []
    | Some v => if falsy v then Ok [] else match v with JDict a => Ok a | _ => Raise AttributeError end
    end = Ok args -> launch_facts py_str args = Ok f -> in_graph (JDict e) = (if f_graph f then true else false).
Proof.
  intros Ea Ef. unfold launch_facts in Ef. apply bind_Ok in Ef as (block & _ & Ef). apply bind_Ok in Ef as (derived & _ & Ef).
  injection Ef as <-. cbn [f_graph in_graph]. destruct (dict_get "args" e) as [v|]; [| by injection Ea as <-].
  destruct (falsy v) eqn:Ev; [injection Ea as <- | destruct v; try discriminate Ea; injection Ea as <-].
  - destruct v as [| | | | | | |[|]]; try discriminate Ev; done.
  - by destruct (dict_get "graph id" d) as [[]|].
Qed.

Lemma audit_event_ok rank s e s' kernels : tally_ok (s_tally s) kernels -> audit_event py_str rank s e = Ok s' ->
  tally_ok (s_tally s') (kernels ++ kernels_of [e]).
Proof.
  intros Hok E. rewrite kernels_of_single. destruct e as [| | | | | | |d]; try discriminate E.
  unfold audit_event in E. unfold is_kernel at 1. set (dd := dict_get "dur" d) in *.
  destruct (is_str "gpu_user_annotation" (dict_get "cat" d)) eqn:Ea.
  { rewrite (is_str_other _ "kernel" _ Ea) by done.
    rewrite app_nil_r. destruct (dict_get "name" d) as [[]|]; try (by injection E as <-).
    destruct (has_number dd); [| by injection E as <-].
    apply bind_Ok in E as (start & _ & E). apply bind_Ok in E as (us & _ & E). by injection E as <-. }
  destruct (is_str "gpu_memcpy" (dict_get "cat" d) && has_number dd) eqn:Em.
  { apply andb_true_iff in Em as [Em _]. rewrite (is_str_other _ "kernel" _ Em) by done.
    rewrite app_nil_r. apply bind_Ok in E as (us & _ & E). injection E as <-. destruct Hok. by split. }
  destruct (is_str "kernel" (dict_get "cat" d)); simpl in E |- *; [| rewrite app_nil_r; by injection E as <-].
  destruct (has_number dd) eqn:Hn; simpl in E |- *; [| rewrite app_nil_r; by injection E as <-].
  apply bind_Ok in E as (us & Hus & E). apply bind_Ok in E as (args & Ha & E). apply bind_Ok in E as (start & _ & E).
  apply bind_Ok in E as (f & Ef & E). injection E as <-. cbn [s_tally]. apply add_kernel_ok; [done | | by eapply launch_facts_graph].
  unfold event_us. fold dd. by rewrite Hus.
Qed.

Lemma audit_events_ok rank events s s' kernels : tally_ok (s_tally s) kernels -> audit_events py_str rank s events = Ok s' ->
  tally_ok (s_tally s') (kernels ++ kernels_of events).
Proof.
  revert s kernels. induction events as [|e events IH]; intros s kernels Hok E; simpl in E.
  - injection E as <-. by rewrite app_nil_r.
  - apply bind_Ok in E as (s1 & E1 & E). change (e :: events) with ([e] ++ events)%list. rewrite kernels_of_app, app_assoc. eapply IH; [| exact E]. by eapply audit_event_ok.
Qed.

Lemma audit_traces_ok traces t t' kernels : tally_ok t kernels -> audit_traces py_str t traces = Ok t' ->
  tally_ok t' (kernels ++ kernels_of (concat (map (fun p => p.2.1) traces))).
Proof.
  revert t kernels. induction traces as [|[file [events e]] traces IH]; intros t kernels Hok E; simpl in E.
  - injection E as <-. by rewrite app_nil_r.
  - apply bind_Ok in E as (t1 & E1 & E). simpl. rewrite kernels_of_app, app_assoc. eapply IH; [| exact E].
    unfold audit_trace in E1. apply bind_Ok in E1 as (s & Es & E1).
    pose proof (audit_events_ok _ _ _ _ _ (Hok : tally_ok (s_tally (Scan t 0 0 [] [])) kernels) Es) as [].
    destruct e; [| discriminate E1 |]; injection E1 as <-; by split.
Qed.

End accounting.

(** *** The report's rows and families *)

Lemma kernels_out_perm t : kernels_out t ≡ₚ map (kernel_out_of (total_kernel_us t)) (per_kernel t).
Proof. apply merge_sort_Permutation. Qed.

Lemma sum_list_with_perm {A} (f : A -> nat) l k : l ≡ₚ k -> sum_list_with f l = sum_list_with f k.
Proof. induction 1; simpl; lia. Qed.

Lemma sum_list_with_map {A B} (f : B -> nat) (g : A -> B) l : sum_list_with f (map g l) = sum_list_with (fun x => f (g x)) l.
Proof. induction l; simpl; congruence. Qed.

Lemma families_fold rows d : Forall (fun p => rounded 3 (f_us p.2)) d -> Forall (fun r => rounded 3 (ko_us r)) rows ->
  let d' := fold_left (fun d r => dict_update (ko_family r) (add_family r) d) rows d in
  sum_list_with (fun p => f_count p.2) d' = sum_list_with ko_count rows + sum_list_with (fun p => f_count p.2) d /\
  (Qsum (map (fun p => f_us p.2) d') == Qsum (map ko_us rows) + Qsum (map (fun p => f_us p.2) d))%Q /\
  (NoDup (map fst d) -> NoDup (map fst d')).
Proof.
  intros Hd Hrows. revert d Hd. induction Hrows as [|r rows Hr Hrows IH]; intros d Hd; simpl; [split_and!; [done | lra | done] |].
  set (d1 := dict_update (ko_family r) (add_family r) d).
  assert (H1 : Forall (fun p => rounded 3 (f_us p.2)) d1).
  { apply dict_update_Forall; [done | apply py_round_rounded |]. intros v _. apply py_round_rounded. }
  destruct (IH d1 H1) as (Hc & Hu & Hk). rewrite Hc, Hu. split_and!.
  - unfold d1. rewrite (dict_update_count f_count _ _ (ko_count r)) by (intros [f|]; simpl; lia). lia.
  - clear Hc Hu Hk IH H1. enough (Qsum (map (fun p => f_us p.2) d1) == ko_us r + Qsum (map (fun p => f_us p.2) d))%Q by lra.
    unfold d1. clear d1. induction Hd as [|[k f] d Hf Hd IHd]; simpl.
    + rewrite py_round_id; [simpl; lra |]. destruct Hr as [z Hz]. exists z. simpl. rewrite Hz. lra.
    + case_bool_decide; simpl; [| rewrite IHd; lra].
      rewrite py_round_id by (by apply rounded_plus). lra.
  - intros Hnd. apply Hk. by apply dict_update_nodup.
Qed.

Lemma rounding_drift t : (Qabs (Qsum (map ko_us (kernels_out t)) - Qsum (map (fun p => k_us p.2) (per_kernel t))) <=
  inject_Z (Z.of_nat (length (per_kernel t))) * (1 # 2000))%Q.
Proof.
  rewrite (Qsum_perm _ _ (Permutation_map ko_us (kernels_out_perm t))), map_map.
  change (fun x => ko_us (kernel_out_of (total_kernel_us t) x)) with (fun p : string * kernel_row => py_round 3 (k_us p.2)).
  set (f := fun p : string * kernel_row => py_round 3 _). set (g := fun p : string * kernel_row => k_us p.2).
  induction (per_kernel t) as [|[name r] l IH]; [by vm_compute |]. cbn [map length].
  change (Qsum (f (name, r) :: map f l)) with (py_round 3 (k_us r) + Qsum (map f l))%Q.
  change (Qsum (g (name, r) :: map g l)) with (k_us r + Qsum (map g l))%Q.
  pose proof (py_round_close 3 (k_us r)) as H. change ((1 # 2) / inject_Z (Z.pos (10 ^ 3)))%Q with (1 # 2000)%Q in H.
  apply Qabs_Qle_condition in H as [H1 H2]. apply Qabs_Qle_condition in IH as [H3 H4].
  assert (E : (inject_Z (Z.of_nat (S (length l))) == inject_Z (Z.of_nat (length l)) + 1)%Q)
    by (rewrite Nat2Z.inj_succ, <- Z.add_1_r, inject_Z_plus; reflexivity).
  rewrite E. apply Qabs_Qle_condition. split; lra.
Qed.

(** The audit accounts for every kernel event of its traces.  When it
    reports, the number of kernel events is what it counted, their durations are its total,
    each is in the row of one name, in the family its name is classified to, and the rows and
    the families count all of them, the graphs those a graph launched; the families' times are
    off the total by at most half a thousandth of a microsecond per distinct kernel, all of it from rounding
    the rows. *)
Theorem audit_accounts py_str traces moe_share_floor occ_floor mla_share_floor r :
  audit py_str traces moe_share_floor occ_floor mla_share_floor = Ok r ->
  let t := r_tally r in let kernels := kernels_of (concat (map (fun p => p.2.1) traces)) in
  kernels <> [] /\ total_kernel_count t = length kernels /\ (total_kernel_us t == Qsum (map event_us kernels))%Q /\
  NoDup (map ko_name (kernels_out t)) /\ Forall (fun k => ko_family k = classify (ko_name k)) (kernels_out t) /\
  sum_list_with ko_count (kernels_out t) = length kernels /\
  sum_list_with (fun p => g_kernel_count p.2) (per_graph t) = length (base.filter in_graph kernels) /\
  NoDup (map fst (families t)) /\ sum_list_with (fun p => f_count p.2) (families t) = length kernels /\
  (Qabs (Qsum (map (fun p => f_us p.2) (families t)) - total_kernel_us t) <=
     inject_Z (Z.of_nat (length (kernels_out t))) * (1 # 2000))%Q.
Proof.
  unfold audit. intros E. apply bind_Ok in E as (t & Et & E).
  destruct (Nat.eqb_spec (total_kernel_count t) 0) as [|Hpos]; [done |]. injection E as <-. cbn [r_tally].
  destruct (audit_traces_ok py_str traces NOTHING t []) as [Hc Hu Hr Hru Hf Hk Hg]; [split; by try apply NoDup_nil_2 | done |].
  rewrite app_nil_l in Hc, Hu, Hg. set (kernels := kernels_of _) in *. pose proof (kernels_out_perm t) as Hp.
  assert (Hrows : Forall (fun r => rounded 3 (ko_us r)) (kernels_out t)).
  { rewrite Hp. apply Forall_map, Forall_true. intros p. apply py_round_rounded. }
  destruct (families_fold (kernels_out t) [] (Forall_nil_2 _) Hrows) as (Hfc & Hfu & Hfk). fold (families t) in Hfc, Hfu, Hfk.
  change (Qsum (map _ [])) with 0%Q in Hfu. rewrite Qplus_0_r in Hfu.
  assert (Hsum : sum_list_with ko_count (kernels_out t) = length kernels).
  { rewrite (sum_list_with_perm _ _ _ Hp), sum_list_with_map. simpl. lia. }
  split_and!; try done.
  - intros E. rewrite E in Hc. done.
  - rewrite (Permutation_map ko_name Hp), map_map. done.
  - rewrite Hp. apply Forall_map. by eapply Forall_impl; [exact Hf |].
  - apply Hfk. apply NoDup_nil_2.
  - rewrite Hfc, Hsum. simpl. lia.
  - rewrite Hfu. pose proof (rounding_drift t) as Hd. rewrite Hru in Hd.
    assert (length (per_kernel t) = length (kernels_out t)) as El by (rewrite Hp; by rewrite length_map). by rewrite El in Hd.
Qed.

(** ** The verdict of task 29 *)

(** The rule of the script's header: the derived occupancy decides, Kineto's
    estimate only when there is none. *)
Definition documented29 (share floor : Q) (derived : option Q) (est : option Z) (occ_floor : Q) : verdict29 :=
  if Qltb share floor then STOP_SHARE_BELOW_FLOOR
  else match (match derived with Some d => Some d | None => inject_Z <$> est end) with
       | Some occ => if Qltb occ occ_floor then GAP_CANDIDATE_UNMEASURED else STOP_NO_OCCUPANCY_GAP
       | None => GAP_CANDIDATE_UNMEASURED
       end.

(** The verdict follows the registered rule but for one case, which is
    exactly this: the share reaches the floor, the derived occupancy reaches its floor, and
    Kineto's estimate is missing or below.  There the rule stops and the audit keeps
    the gap open, on the estimate the rule does not trust. *)
Theorem decide29_vs_documented share floor derived est occ_floor :
  let off := (floor <= share)%Q /\ (exists d, derived = Some d /\ (occ_floor <= d)%Q) /\
    (forall e, est = Some e -> (inject_Z e < occ_floor)%Q) in
  (off -> decide29 share floor derived est occ_floor = GAP_CANDIDATE_UNMEASURED /\
          documented29 share floor derived est occ_floor = STOP_NO_OCCUPANCY_GAP) /\
  (~ off -> decide29 share floor derived est occ_floor = documented29 share floor derived est occ_floor).
Proof.
  unfold decide29, documented29. split.
  - intros (Hs & (d & -> & Hd) & He). rewrite (proj2 (Qltb_ge _ _) Hs), (proj2 (Qltb_ge _ _) Hd). split; [| done].
    destruct est as [e|]; [| done]. by rewrite (proj2 (Qltb_lt _ _) (He e eq_refl)).
  - intros Hoff. destruct (Qltb share floor) eqn:Es; [done |]. apply Qltb_ge in Es.
    destruct derived as [d|]; [| by destruct est]. destruct (Qltb d occ_floor) eqn:Ed; [done |]. apply Qltb_ge in Ed.
    destruct est as [e|]; simpl.
    + destruct (Qltb (inject_Z e) occ_floor) eqn:Ee; [| done]. apply Qltb_lt in Ee. exfalso. apply Hoff.
      split_and!; [done | by exists d | by intros e' [= <-]].
    + exfalso. apply Hoff. split_and!; [done | by exists d | done].
Qed.

Lemma decide29_vs_documented_witness :
  decide29 (1 # 2) (1 # 20) (Some 80%Q) (Some 0%Z) 50 = GAP_CANDIDATE_UNMEASURED /\
  documented29 (1 # 2) (1 # 20) (Some 80%Q) (Some 0%Z) 50 = STOP_NO_OCCUPANCY_GAP.
Proof.
  apply (proj1 (decide29_vs_documented (1 # 2) (1 # 20) (Some 80%Q) (Some 0%Z) 50)).
  split_and!; [by vm_compute | exists 80%Q; split; [done | by vm_compute] | by intros e [= <-]; vm_compute].
Defined.

(** ** Incomplete traces *)

Lemma truncated_no_tally py_str traces t t' file events : (file, (events, TruncatedTrace)) ∈ traces -> audit_traces py_str t traces <> Ok t'.
Proof.
  revert t. induction traces as [|trace traces IH]; intros t Hin E; [by apply not_elem_of_nil in Hin |].
  simpl in E. apply bind_Ok in E as (t1 & E1 & E). apply elem_of_cons in Hin as [<-|Hin]; [| by eapply IH].
  unfold audit_trace in E1. apply bind_Ok in E1 as (s & _ & E1). done.
Qed.

(** A trace that was cut off before the closing bracket of its events
    never contributes to a report: with such a file among the traces, read strictly in chunks of
    any size, the audit raises. *)
Theorem cut_trace_no_report chr py_str chunk traces file content events after p q moe_share_floor occ_floor mla_share_floor r :
  0 < chunk -> trace chr content events after -> content = (p ++ q)%string -> String.length after < String.length q ->
  (file, iter_trace_events chr chunk true p) ∈ traces ->
  audit py_str traces moe_share_floor occ_floor mla_share_floor <> Ok r.
Proof.
  intros Hc Ht -> Hq Hin E. unfold audit in E. apply bind_Ok in E as (t & Et & _).
  pose proof (trace_streams_spec chr chunk true Hc _ _ _ p q Ht eq_refl) as H.
  rewrite (proj2 (Nat.leb_gt _ _) Hq) in H. destruct H as [k H]. rewrite H in Hin. by eapply truncated_no_tally.
Qed.

(** A run on two kernels, one of them fused. *)
Definition demo_kernel (name : string) (us : Z) : json :=
  JDict [("cat", JStr "kernel"); ("name", JStr name); ("dur", JInt us)].
Definition demo_traces : list (string * (list json * ending)) :=
  [("a.rank0.pt.trace.json", ([demo_kernel "exl3_moe_kernel" 30; demo_kernel "nccl" 10], Closed));
   ("b.rank1.pt.trace.json", ([demo_kernel "exl3_moe_kernel" 50], Closed))].

Lemma audit_accounts_witness : exists r, audit (fun _ => "") demo_traces (1 # 20) 50 (1 # 50) = Ok r /\
  r_task29 r = GAP_CANDIDATE_UNMEASURED /\ total_kernel_count (r_tally r) = 3 /\
  sum_list_with (fun p => f_count p.2) (families (r_tally r)) = 3.
Proof.
  eexists. split; [vm_compute; reflexivity |].
  match goal with |- r_task29 ?r = _ /\ _ =>
    destruct (audit_accounts (fun _ => "") demo_traces (1 # 20) 50 (1 # 50) r) as (_ & Hc & _ & _ & _ & _ & _ & _ & Hf & _) end;
    [vm_compute; reflexivity |].
  split; [reflexivity |]. split; [exact Hc | exact Hf].
Defined.

Lemma cut_trace_no_report_witness : exists p q, demo_content = (p ++ q)%string /\
  forall r, audit (fun _ => "") [("t", iter_trace_events demo_chr 3 true p)] (1 # 20) 50 (1 # 50) <> Ok r.
Proof.
  exists (take_str 78 demo_content), (drop_str 78 demo_content). split; [by rewrite take_drop_str |]. intros r.
  refine (cut_trace_no_report demo_chr (fun _ => "") 3 _ "t" demo_content demo_events _ _ _ _ _ _ r _ demo_trace
    (eq_sym (take_drop_str 78 demo_content)) _ _); [lia | vm_compute; lia | left].
Defined.
