(* ===== verification/PrefillShare.v ===== *)
(** * The prefill kernel-share gate

    Model of [scripts/audit_prefill_kernel_share.py], on the report of
    [KernelShare]: the grouped kernels of a rank, their shares, and the gate over
    the ranks.  The reported texts and the rows copied from the report are not kept. *)
From Stdlib Require Import ZArith QArith Lqa Lia String.
From stdpp Require Import base list strings sorting sets.
From S2P Require Import Prelude PyStr PyNum PyDict Stats PyJson TraceStream KernelTimeline KernelShare.
#[local] Open Scope string_scope.
#[local] Open Scope nat_scope.

Definition ROLES : list (string * string) := [("gather", "fm_gather"); ("gateup", "fm_gateup"); ("down", "fm_down")].

Definition role_of (name : string) : option string :=
  if negb (String.eqb (classify name) "grouped_fat_moe") then None
  else fst <$> List.find (fun r => str_in r.2 (lower name)) ROLES.

(** ** One rank *)

Record grouped_row := Grouped { g_name : string; g_count : nat; g_us : Q; g_share_of_total : Q; g_share_of_e3 : option Q }.

Record rank_summary := Summary { e3_us : Q; grouped : list (string * grouped_row); fused_share : Q; fused_count : nat }.

(** A row and a summary hold the fields that decide the verdict, not those only printed.
    The loop over the kernels: the E3 time and the row of each role. *)
Definition note_kernel (acc : Q * list (string * grouped_row)) (row : kernel_out) : Q * list (string * grouped_row) :=
  match role_of (ko_name row) with
  | None => acc
  | Some role =>
      (acc.1 + ko_us row,
       dict_update role (fun _ => Grouped (ko_name row) (ko_count row) (ko_us row) (ko_share row) None) acc.2)%Q
  end.

Definition with_e3_share (e3 : Q) (row : grouped_row) : grouped_row :=
  Grouped (g_name row) (g_count row) (g_us row) (g_share_of_total row)
    (if Qeq_bool e3 0 then None else Some (py_round 6 (g_us row / e3))).

Definition summarize_rank (r : report) : rank_summary :=
  let t := r_tally r in
  let '(e3, rows) := fold_left note_kernel (kernels_out t) (0%Q, []) in
  Summary e3 (map (fun p => (p.1, with_e3_share e3 p.2)) rows)
    (match find_family "fused_moe" t with Some f => family_share t f | None => 0%Q end)
    (match find_family "fused_moe" t with Some f => f_count f | None => 0 end).

Definition grouped_get (role : string) (body : rank_summary) : option grouped_row :=
  dict_find role (grouped body).

(** ** The gate *)

Inductive verdict := PROCEED | STOP | NO_GROUPED | DECODE_DOMINATED.

Definition absent (body : rank_summary) (role : string) : bool :=
  match grouped_get role body with Some row => Qle_bool (g_us row) 0 | None => true end.

Definition incomplete (body : rank_summary) : bool := existsb (absent body) ["gather"; "gateup"; "down"].

Definition gather_of (body : rank_summary) : res grouped_row := of_option KeyError (grouped_get "gather" body).

Definition fused_ratio (body : rank_summary) : res Q :=
  gather ← gather_of body;
  Ok (inject_Z (Z.of_nat (fused_count body)) / (let c := inject_Z (Z.of_nat (g_count gather)) in if Qltb 1 c then c else 1))%Q.

(** [float(row["share_of_e3"])]. *)
Definition share_of_e3 (body : rank_summary) : res Q := gather ← gather_of body; of_option TypeError (g_share_of_e3 gather).
Definition share_of_total (body : rank_summary) : res Q := gather ← gather_of body; Ok (g_share_of_total gather).

Fixpoint mapM_res {A B} (f : A -> res B) (l : list A) : res (list B) :=
  match l with [] => Ok [] | x :: l => y ← f x; ys ← mapM_res f l; Ok (y :: ys) end.

Definition max_of (l : list Q) : res Q :=
  match l with [] => Raise ValueError | x :: l => Ok (fold_left (fun m y => if Qltb m y then y else m) l x) end.
Definition min_of (l : list Q) : res Q :=
  match l with [] => Raise ValueError | x :: l => Ok (fold_left (fun m y => if Qltb y m then y else m) l x) end.

Definition decide (ranks : list (string * rank_summary))
    (gather_share_floor gather_total_floor decode_share_max fused_call_ratio_max : Q) : res verdict :=
  let bodies := map snd ranks in
  if match ranks with [] => true | _ => false end then Ok NO_GROUPED
  else if existsb (fun body => match grouped body with [] => true | _ => false end) bodies then Ok NO_GROUPED
  else if existsb incomplete bodies then Ok NO_GROUPED
  else
    ratios ← mapM_res fused_ratio bodies;
    worst_decode ← max_of (map fused_share bodies);
    worst_ratio ← max_of ratios;
    if Qltb decode_share_max worst_decode || Qltb fused_call_ratio_max worst_ratio then Ok DECODE_DOMINATED
    else
      e3 ← mapM_res share_of_e3 bodies;
      total ← mapM_res share_of_total bodies;
      min_e3 ← min_of e3;
      min_total ← min_of total;
      Ok (if Qle_bool gather_share_floor min_e3 && Qle_bool gather_total_floor min_total then PROCEED else STOP).

(** [audit_prefill]: a trace is its file name and its reading. *)
Fixpoint rank_summaries (py_str : json -> string) (traces : list (string * (list json * ending)))
    (ranks : list (string * rank_summary)) : res (list (string * rank_summary)) :=
  match traces with
  | [] => Ok ranks
  | (name, trace) :: traces =>
      r ← audit py_str [(name, trace)] (5 # 100) 50 (2 # 100);
      rank_summaries py_str traces (dict_update (rank_of name) (fun _ => summarize_rank r) ranks)
  end.

(** The summaries the report prints, and the verdict on them. *)
Definition audit_prefill (py_str : json -> string) (traces : list (string * (list json * ending)))
    (gather_share_floor gather_total_floor decode_share_max fused_call_ratio_max : Q) : res (list (string * rank_summary) * verdict) :=
  ranks ← rank_summaries py_str traces [];
  v ← decide ranks gather_share_floor gather_total_floor decode_share_max fused_call_ratio_max;
  Ok (ranks, v).

(** [render] multiplies the share of each role's row: it has none when no role took any time. *)
Definition render (ranks : list (string * rank_summary)) : res unit :=
  if existsb (fun p => existsb (fun role => match grouped_get role p.2 with
       | Some row => match g_share_of_e3 row with None => true | Some _ => false end
       | None => false
       end) ["gather"; "gateup"; "down"]) ranks
  then Raise TypeError else Ok tt.

(** The exit code of [main], once the files are there. *)
Definition main (py_str : json -> string) (traces : list (string * (list json * ending)))
    (gather_share_floor gather_total_floor decode_share_max fused_call_ratio_max : Q) : res Z :=
  match audit_prefill py_str traces gather_share_floor gather_total_floor decode_share_max fused_call_ratio_max with
  | Raise ValueError => Ok 2%Z
  | Raise e => Raise e
  | Ok (ranks, v) =>
      _ ← render ranks;
      Ok (match v with PROCEED | STOP => 0%Z | NO_GROUPED | DECODE_DOMINATED => 3%Z end)
  end.

(** ** The gate, rank by rank *)

Lemma mapM_res_Ok {A B} (f : A -> res B) l ys : mapM_res f l = Ok ys <-> Forall2 (fun x y => f x = Ok y) l ys.
Proof.
  revert ys. induction l as [|x l IH]; intros ys; simpl; split; intros H.
  - injection H as <-. constructor.
  - by inversion H.
  - apply bind_Ok in H as (y & Hy & H). apply bind_Ok in H as (ys' & Hys & H). injection H as <-. constructor; [done | by apply IH].
  - inversion H as [|? y ? ys' Hy Hys]; subst. rewrite Hy. simpl. apply IH in Hys. by rewrite Hys.
Qed.

Lemma fold_best (lt : Q -> Q -> bool) (le : Q -> Q -> Prop) l x : Reflexive le -> Transitive le ->
  (forall a b, if lt a b then le a b else le b a) ->
  let m := fold_left (fun m y => if lt m y then y else m) l x in m ∈ x :: l /\ Forall (fun y => le y m) (x :: l).
Proof.
  intros Hr Ht Hlt. revert x. induction l as [|y l IH]; intros x; simpl; [split; [left | by repeat constructor] |].
  set (b := if lt x y then y else x). destruct (IH b) as [Hin Hall]. set (m := fold_left _ l b) in *.
  apply Forall_cons in Hall as [Hb Hall]. specialize (Hlt x y). split.
  - unfold b in Hin. destruct (lt x y); set_solver.
  - unfold b in Hb. destruct (lt x y); repeat constructor; try done; by etrans.
Qed.

Lemma max_of_le l m c : max_of l = Ok m -> ((m <= c)%Q <-> Forall (fun y => y <= c)%Q l).
Proof.
  destruct l as [|x l]; [done |]. simpl. intros [= <-].
  destruct (fold_best Qltb Qle l x) as [Hin Hall]; [intros ?; lra | intros ???; lra | |].
  { intros a b. destruct (Qltb a b) eqn:E; [apply Qltb_lt in E; lra | by apply Qltb_ge]. }
  rewrite Forall_forall in Hall. split.
  - intros Hm. apply Forall_forall. intros y Hy. specialize (Hall y Hy). simpl in Hall. lra.
  - intros Hl. rewrite Forall_forall in Hl. by apply Hl.
Qed.

Lemma min_of_ge l m c : min_of l = Ok m -> ((c <= m)%Q <-> Forall (fun y => c <= y)%Q l).
Proof.
  destruct l as [|x l]; [done |]. simpl. intros [= <-].
  destruct (fold_best (fun m y => Qltb y m) (fun a b => b <= a)%Q l x) as [Hin Hall]; [intros ?; lra | intros ???; lra | |].
  { intros a b. destruct (Qltb b a) eqn:E; [apply Qltb_lt in E; lra | by apply Qltb_ge]. }
  rewrite Forall_forall in Hall. split.
  - intros Hm. apply Forall_forall. intros y Hy. specialize (Hall y Hy). simpl in Hall. lra.
  - intros Hl. rewrite Forall_forall in Hl. by apply Hl.
Qed.

(** What a rank has to show. *)
Definition passes (gather_share_floor gather_total_floor decode_share_max fused_call_ratio_max : Q) (body : rank_summary) : Prop :=
  (forall role, role ∈ ["gather"; "gateup"; "down"] -> exists row, grouped_get role body = Some row /\ (0 < g_us row)%Q) /\
  (fused_share body <= decode_share_max)%Q /\
  (exists ratio, fused_ratio body = Ok ratio /\ (ratio <= fused_call_ratio_max)%Q) /\
  (exists s, share_of_e3 body = Ok s /\ (gather_share_floor <= s)%Q) /\
  (exists s, share_of_total body = Ok s /\ (gather_total_floor <= s)%Q).

Lemma incomplete_false body : incomplete body = false <->
  forall role, role ∈ ["gather"; "gateup"; "down"] -> exists row, grouped_get role body = Some row /\ (0 < g_us row)%Q.
Proof.
  assert (H : forall role, absent body role = false <-> exists row, grouped_get role body = Some row /\ (0 < g_us row)%Q).
  { intros role. unfold absent. destruct (grouped_get role body) as [row|].
    - rewrite <- not_true_iff_false, Qle_bool_iff. split; [intros Hn; exists row; split; [done | by apply Qnot_le_lt] |].
      intros (? & [= <-] & Hlt). lra.
    - split; [done | by intros (? & ? & _)]. }
  unfold incomplete. simpl. rewrite !orb_false_iff, !H. split.
  - intros (H1 & H2 & H3 & _) role. rewrite !elem_of_cons. intros [->|[->|[->|Hn]]]; [done.. |]. by apply not_elem_of_nil in Hn.
  - intros Hr. split_and!; [apply Hr; set_solver.. | done].
Qed.

Lemma existsb_false_iff {A} (f : A -> bool) l : existsb f l = false <-> Forall (fun x => f x = false) l.
Proof. induction l as [|x l IH]; simpl; [done |]. rewrite orb_false_iff, Forall_cons, IH. done. Qed.

Lemma Forall2_exists {A B} (f : A -> res B) (P : B -> Prop) l ys : Forall2 (fun x y => f x = Ok y) l ys ->
  Forall P ys <-> Forall (fun x => exists y, f x = Ok y /\ P y) l.
Proof.
  induction 1 as [|x y l ys Hxy _ IH]; [done |]. rewrite !Forall_cons, IH. split; intros [H1 H2]; (split; [| done]).
  - by exists y.
  - destruct H1 as (y' & E & ?). congruence.
Qed.

Lemma max_of_some l : l <> [] -> exists m, max_of l = Ok m.
Proof. destruct l; [done |]. by eexists. Qed.
Lemma min_of_some l : l <> [] -> exists m, min_of l = Ok m.
Proof. destruct l; [done |]. by eexists. Qed.

Section gate.
Context (gather_share_floor gather_total_floor decode_share_max fused_call_ratio_max : Q).
Abbreviation pass := (passes gather_share_floor gather_total_floor decode_share_max fused_call_ratio_max).
Abbreviation gate ranks := (decide ranks gather_share_floor gather_total_floor decode_share_max fused_call_ratio_max).

Lemma mapM_total {B} (f : rank_summary -> res B) bodies : (forall b, b ∈ bodies -> exists y, f b = Ok y) ->
  exists ys, mapM_res f bodies = Ok ys /\ Forall2 (fun x y => f x = Ok y) bodies ys /\ (bodies <> [] -> ys <> []).
Proof.
  intros Hf. assert (exists ys, Forall2 (fun x y => f x = Ok y) bodies ys) as [ys Hys].
  { induction bodies as [|b l IH]; [by exists [] |]. destruct (Hf b) as [y Hy]; [left |].
    destruct IH as [ys Hys]; [intros b' Hb'; apply Hf; by right |]. exists (y :: ys). by constructor. }
  exists ys. split_and!; [by apply mapM_res_Ok | done |]. intros Hnb ->. by inversion Hys.
Qed.

Lemma gate_closed ranks : gate ranks = Ok PROCEED -> ranks <> [] /\ Forall pass (map snd ranks).
Proof.
  unfold decide. destruct ranks as [|p ranks]; [done |]. set (bodies := map snd (p :: ranks)). intros E. split; [done |].
  destruct (existsb _ bodies); [done |].
  destruct (existsb incomplete bodies) eqn:Ei; [done |]. apply existsb_false_iff in Ei.
  apply bind_Ok in E as (ratios & Er & E). apply bind_Ok in E as (wd & Ewd & E). apply bind_Ok in E as (wr & Ewr & E).
  destruct (_ || _) eqn:Eg; [done |]. apply orb_false_iff in Eg as [Eg1 Eg2]. apply Qltb_ge in Eg1, Eg2.
  apply bind_Ok in E as (e3 & Ee & E). apply bind_Ok in E as (tot & Et & E). apply bind_Ok in E as (me & Eme & E).
  apply bind_Ok in E as (mt & Emt & E). destruct (_ && _) eqn:Ef; [| done]. apply andb_true_iff in Ef as [Ef1 Ef2].
  apply Qle_bool_iff in Ef1, Ef2. rewrite mapM_res_Ok in Er, Ee, Et.
  rewrite (max_of_le _ _ _ Ewd) in Eg1. rewrite Forall_map in Eg1. rewrite (max_of_le _ _ _ Ewr), (Forall2_exists _ _ _ _ Er) in Eg2.
  rewrite (min_of_ge _ _ _ Eme), (Forall2_exists _ _ _ _ Ee) in Ef1. rewrite (min_of_ge _ _ _ Emt), (Forall2_exists _ _ _ _ Et) in Ef2.
  rewrite Forall_forall in *. intros body Hb. unfold passes. rewrite <- incomplete_false. auto 10.
Qed.

Lemma gate_opens ranks : ranks <> [] -> Forall pass (map snd ranks) -> gate ranks = Ok PROCEED.
Proof.
  unfold decide. destruct ranks as [|p ranks]; [done |]. set (bodies := map snd (p :: ranks)). intros _ Hall.
  assert (Hne : bodies <> []) by done. rewrite Forall_forall in Hall.
  rewrite (proj2 (existsb_false_iff _ _)).
  2: { apply Forall_forall. intros b Hb. destruct (Hall b Hb) as [Hr _]. destruct (Hr "gather" ltac:(left)) as (row & E & _).
       unfold grouped_get in E. by destruct (grouped b). }
  rewrite (proj2 (existsb_false_iff _ _)) by (apply Forall_forall; intros b Hb; apply incomplete_false; by apply Hall).
  destruct (mapM_total fused_ratio bodies) as (ratios & -> & H1 & N1);
    [intros b Hb; destruct (Hall b Hb) as (_ & _ & (y & ? & _) & _); by exists y |].
  destruct (mapM_total share_of_e3 bodies) as (e3 & -> & H2 & N2);
    [intros b Hb; destruct (Hall b Hb) as (_ & _ & _ & (y & ? & _) & _); by exists y |].
  destruct (mapM_total share_of_total bodies) as (tot & -> & H3 & N3);
    [intros b Hb; destruct (Hall b Hb) as (_ & _ & _ & _ & (y & ? & _)); by exists y |].
  destruct (max_of_some (map fused_share bodies)) as [wd Ewd]; [done |].
  destruct (max_of_some ratios) as [wr Ewr]; [auto |].
  destruct (min_of_some e3) as [me Eme]; [auto |]. destruct (min_of_some tot) as [mt Emt]; [auto |].
  cbn [mbind res_bind]. rewrite Ewd. cbn [mbind res_bind]. rewrite Ewr. cbn [mbind res_bind].
  rewrite (proj2 (Qltb_ge _ _)) by (apply (max_of_le _ _ _ Ewd), Forall_map, Forall_forall; intros b Hb; by apply Hall).
  rewrite (proj2 (Qltb_ge _ _)) by
    (apply (max_of_le _ _ _ Ewr), (Forall2_exists _ _ _ _ H1), Forall_forall; intros b Hb; by apply Hall).
  cbn [orb mbind res_bind]. rewrite Eme. cbn [mbind res_bind]. rewrite Emt. cbn [mbind res_bind].
  rewrite (proj2 (Qle_bool_iff _ _)) by
    (apply (min_of_ge _ _ _ Eme), (Forall2_exists _ _ _ _ H2), Forall_forall; intros b Hb; by apply Hall).
  by rewrite (proj2 (Qle_bool_iff _ _)) by
    (apply (min_of_ge _ _ _ Emt), (Forall2_exists _ _ _ _ H3), Forall_forall; intros b Hb; by apply Hall).
Qed.

(** The gate proceeds exactly when every rank on its own does: all three
    grouped kernels were captured with positive time, the fused kernel's share and launch ratio
    are within the bounds of a prefill capture, and the gather's share reaches both floors.
    One rank that fails any of them, or no rank at all, keeps the gate closed. *)
Theorem prefill_gate ranks : gate ranks = Ok PROCEED <-> ranks <> [] /\ Forall (fun p => pass p.2) ranks.
Proof.
  rewrite <- (Forall_map snd). split; [apply gate_closed | intros [Hne Hall]; by apply gate_opens].
Qed.

End gate.

(** ** What the shares are shares of *)

Definition of_role (role : string) (k : kernel_out) : Prop := role_of (ko_name k) = Some role.
Definition has_role (k : kernel_out) : Prop := is_Some (role_of (ko_name k)).
#[global] Instance of_role_dec role k : Decision (of_role role k).
Proof. unfold of_role. apply _. Defined.
#[global] Instance has_role_dec k : Decision (has_role k).
Proof. unfold has_role. apply _. Defined.

Definition copied (k : kernel_out) : grouped_row := Grouped (ko_name k) (ko_count k) (ko_us k) (ko_share k) None.

(** The loop sums the rows of all roles and keeps the last row of each. *)
Lemma note_kernels rows acc :
  let acc' := fold_left note_kernel rows acc in
  (acc'.1 == acc.1 + Qsum (map ko_us (base.filter has_role rows)))%Q /\
  forall role, dict_find role acc'.2 = match last (base.filter (of_role role) rows) with
    | Some k => Some (copied k)
    | None => dict_find role acc.2
    end.
Proof.
  revert acc. induction rows as [|k rows IH]; intros acc; simpl; [split; [simpl; lra | done] |].
  destruct (IH (note_kernel acc k)) as [Hs Hf]. rewrite (filter_cons has_role).
  destruct (base.decide (has_role k)) as [[role' Er]|Hn].
  - assert (Hnote : note_kernel acc k = (acc.1 + ko_us k, dict_update role' (fun _ => copied k) acc.2)%Q)
      by (unfold note_kernel; by rewrite Er).
    rewrite Hnote in *. cbn [fst snd] in *. split; [rewrite Hs; simpl; lra |]. intros role. rewrite Hf, filter_cons.
    destruct (base.decide (of_role role k)) as [Hk|Hk]; unfold of_role in Hk; rewrite Er in Hk.
    + injection Hk as ->. rewrite last_cons. destruct (last (base.filter (of_role role) rows)); [done |].
      by rewrite dict_find_update, bool_decide_eq_true_2.
    + destruct (last _); [done |]. rewrite dict_find_update. case_bool_decide; [congruence | done].
  - assert (Er : role_of (ko_name k) = None) by (destruct (role_of (ko_name k)) as [x|] eqn:E; [destruct Hn; by exists x | done]).
    assert (Hnote : note_kernel acc k = acc) by (unfold note_kernel; by rewrite Er). rewrite Hnote in *.
    split; [done |]. intros role. rewrite Hf, filter_cons. rewrite decide_False; [done |]. unfold of_role. by rewrite Er.
Qed.

Lemma grouped_get_map e3 role rows fs fc :
  grouped_get role (Summary e3 (map (fun p => (p.1, with_e3_share e3 p.2)) rows) fs fc) = with_e3_share e3 <$> dict_find role rows.
Proof.
  unfold grouped_get, dict_find. simpl. induction rows as [|[k v] rows IH]; simpl; [done |]. by case_bool_decide.
Qed.

Lemma last_least (P : kernel_out -> Prop) `{forall x, Decision (P x)} rows k : Sorted.StronglySorted by_us rows ->
  last (base.filter P rows) = Some k -> k ∈ rows /\ P k /\ forall k', k' ∈ rows -> P k' -> (ko_us k <= ko_us k')%Q.
Proof.
  intros Hs. induction Hs as [|x rows Hs IH Hx]; [done |]. rewrite filter_cons. rewrite List.Forall_forall in Hx.
  assert (Hrest : last (base.filter P rows) = Some k -> k ∈ x :: rows /\ P k /\
    forall k', k' ∈ x :: rows -> P k' -> (ko_us k <= ko_us k')%Q).
  { intros E. destruct (IH E) as (Hin & Hp & Hall). split_and!; [by right | done |].
    intros k' [->|Hk']%elem_of_cons Hp'; [apply Hx; by apply list_elem_of_In | by apply Hall]. }
  destruct (base.decide (P x)) as [Hp|Hp]; [| exact Hrest]. rewrite last_cons. destruct (last (base.filter P rows)) as [k0|] eqn:El; [exact Hrest |].
  intros [= <-]. split_and!; [left | done |]. intros k' [->|Hk']%elem_of_cons Hp'; [lra |].
  apply last_None in El. assert (k' ∈ base.filter P rows) as Hin by by apply list_elem_of_filter.
  rewrite El in Hin. by apply not_elem_of_nil in Hin.
Qed.

Lemma kernels_out_sorted t : Sorted.StronglySorted by_us (kernels_out t).
Proof.
  apply StronglySorted_merge_sort; [intros a b c; unfold by_us; lra | intros a b; unfold by_us].
  destruct (Qlt_le_dec (ko_us b) (ko_us a)); [left; lra | by right].
Qed.

(** The shares of the gate.  The denominator is the time of every kernel
    with a role; the row of a role is one kernel's, the least of them when several names have
    that role, and its share is of that denominator. *)
Theorem role_row_is_least r role row : grouped_get role (summarize_rank r) = Some row ->
  let rows := kernels_out (r_tally r) in let e3 := e3_us (summarize_rank r) in
  (e3 == Qsum (map ko_us (base.filter has_role rows)))%Q /\
  exists k, k ∈ rows /\ role_of (ko_name k) = Some role /\ g_us row = ko_us k /\ g_share_of_total row = ko_share k /\
    (~ (e3 == 0)%Q -> g_share_of_e3 row = Some (py_round 6 (ko_us k / e3))) /\
    forall k', k' ∈ rows -> role_of (ko_name k') = Some role -> (ko_us k <= ko_us k')%Q.
Proof.
  unfold summarize_rank. pose proof (note_kernels (kernels_out (r_tally r)) (0%Q, [])) as [Hs Hf].
  destruct (fold_left note_kernel _ _) as [e3 rows] eqn:Efold. rewrite grouped_get_map. simpl in Hf. rewrite Hf.
  destruct (last _) as [k|] eqn:El; [| done]. intros [= <-]. cbn [e3_us]. cbn [fst] in Hs.
  destruct (last_least _ _ _ (kernels_out_sorted _) El) as (Hin & Hr & Hall).
  split; [rewrite Hs; lra |]. exists k. split_and!; try done. intros Hne. simpl.
  destruct (Qeq_bool e3 0) eqn:E0; [by apply Qeq_bool_iff in E0 | done].
Qed.

(** Two gather kernels: the gate sees the smaller one's time over the time of all. *)
Definition demo_prefill (rank : string) (gather1 gather2 : Z) : string * (list json * ending) :=
  (rank, ([demo_kernel "fm_gather_a" gather1; demo_kernel "fm_gather_b" gather2; demo_kernel "fm_gateup" 30; demo_kernel "fm_down" 20], Closed)).

Definition demo_report : res report := audit (fun _ => "") [demo_prefill "t.rank0.pt.trace.json" 45 5] (5 # 100) 50 (2 # 100).

Lemma role_row_is_least_witness : exists r row, demo_report = Ok r /\ grouped_get "gather" (summarize_rank r) = Some row /\
  (g_us row == 5)%Q /\ exists k, k ∈ kernels_out (r_tally r) /\ (ko_us k <= 45)%Q /\ g_us row = ko_us k.
Proof.
  eexists _, _. split; [vm_compute; reflexivity |]. split; [vm_compute; reflexivity |]. split; [by vm_compute |].
  match goal with |- exists k, k ∈ kernels_out (r_tally ?r) /\ _ /\ g_us ?row = _ =>
    destruct (role_row_is_least r "gather" row) as (_ & k & Hin & _ & Hus & _ & _ & Hall) end; [vm_compute; reflexivity |].
  exists k. split; [exact Hin |]. split; [| exact Hus]. rewrite <- Hus. by vm_compute.
Defined.

(** A second trace of a rank replaces the first. *)
Example second_trace_wins :
  main (fun _ => "") [demo_prefill "a.rank0.pt.trace.json" 0 0; demo_prefill "b.rank0.pt.trace.json" 40 20]
    (1 # 10) (3 # 100) (3 # 10) 2 = Ok 0%Z /\
  main (fun _ => "") [demo_prefill "a.rank0.pt.trace.json" 0 0; demo_prefill "b.rank1.pt.trace.json" 40 20]
    (1 # 10) (3 # 100) (3 # 10) 2 = Ok 3%Z.
Proof. vm_compute. done. Qed.

(** A capture whose grouped kernels took no time is called inconclusive, and printing that raises. *)
Example idle_capture_unprintable : let traces := [("rank0", ([demo_kernel "fm_gather" 0; demo_kernel "nccl" 7], Closed))] in
  snd <$> match audit_prefill (fun _ => "") traces (1 # 10) (3 # 100) (3 # 10) 2 with Ok r => Some r | Raise _ => None end = Some NO_GROUPED /\
  main (fun _ => "") traces (1 # 10) (3 # 100) (3 # 10) 2 = Raise TypeError.
Proof. vm_compute. done. Qed.
