(* ===== verification/Roofline.v ===== *)
(** * The weight-streaming model of the kernel-share audit

    Model of [_generation_summary], the roofline part of [audit] and
    [parse_roofline] of [scripts/audit_decode_kernel_share.py]: per graph
    execution, the fused kernel's time and the traffic a uniform routing would mean, and
    whether streaming the experts' weights at the given bandwidth can explain the time. *)
From Stdlib Require Import ZArith QArith Qpower Lqa Lia String Ascii.
From stdpp Require Import base list strings sorting sets.
From S2P Require Import Prelude PyStr PyNum PyDict Stats PyJson TraceStream KernelTimeline KernelShare.
#[local] Open Scope string_scope.
#[local] Open Scope nat_scope.

(** ** [re.search(r"_generation_(\d+)\((\d+)\)", label)] *)

Definition generation_here (s : string) : option (Z * Z) :=
  if String.prefix "_generation_" s then
    let '(seqs, t) := digits (drop_str 12 s) in
    match head_is "(" t with
    | Some t =>
        let '(tokens, t) := digits t in
        match head_is ")" t with
        | Some _ => if String.eqb seqs "" || String.eqb tokens "" then None else Some (digits_val 0 seqs, digits_val 0 tokens)
        | None => None
        end
    | None => None
    end
  else None.

Fixpoint GENERATION (s : string) : option (Z * Z) :=
  match generation_here s with
  | Some r => Some r
  | None => match s with String _ t => GENERATION t | EmptyString => None end
  end.

(** ** Graph executions *)

Record roofline := Roofline {
  gbs : Q; expert_bytes_per_rank : Z; moe_layers : Z; n_experts : Z; topk : Z; target_t : list Z
}.

(** [n_experts * (1 - (1 - topk / n_experts) ** tokens)]. *)
Definition uniform_experts (r : roofline) (tokens : Z) : res Q :=
  p ← div_or_raise (inject_Z (topk r)) (inject_Z (n_experts r));
  Ok (inject_Z (n_experts r) * (1 - Qpower (1 - p) tokens))%Q.

(** Bytes streamed over the time: in GB/s. *)
Definition implied_gbs (r : roofline) (calls unique us : Q) : res Q :=
  x ← div_or_raise (calls * unique * inject_Z (expert_bytes_per_rank r)) (us / inject_Z (10 ^ 6)); Ok (x / inject_Z (10 ^ 9))%Q.

(** The experts per call that would take [us] at [gbs]. *)
Definition experts_at_roofline (r : roofline) (calls us : Q) : res Q :=
  div_or_raise (gbs r * inject_Z (10 ^ 9) * (us / inject_Z (10 ^ 6))) (calls * inject_Z (expert_bytes_per_rank r)).

(** The roofline's part of an entry of a graph execution with fused calls, and of a target. *)
Record steps_t := Steps { st_steps : Q; st_us_per_step : Q }.
Record traffic := Traffic { expert_slots : Z; uniform_estimate : Q; implied_gbs_uniform : Q; at_roofline : Q }.

(** An entry of the summary. *)
Record generation := Generation {
  ge_pieces : nat; ge_kernel_count : nat; ge_kernel_us : Q; ge_tokens : option Z; ge_seqs : option Z; families_us : list (string * Q);
  fused_moe_us : Q; fused_moe_calls : nat; fused_moe_share : Q; ge_steps : option steps_t; ge_traffic : option traffic
}.

(** The fused kernel of a bucket: calls and time. *)
Definition fused_of (b : bucket) : nat * Q :=
  fold_left (fun acc p => if String.eqb (classify p.1) "fused_moe" then (acc.1 + u_count p.2, (acc.2 + u_us p.2)%Q) else acc)
    (b_kernels b) (0, 0%Q).

Definition families_of (b : bucket) : list (string * Q) :=
  fold_left (fun d p => dict_update (classify p.1) (fun us => py_round 3 (default 0 us + u_us p.2))%Q d) (b_kernels b) [].

Definition steps_of (r : roofline) (calls : nat) (us : Q) : res (Q * Q) :=
  steps ← div_or_raise (inject_nat calls) (inject_Z (moe_layers r)); per ← div_or_raise us steps; Ok (steps, per).

(** An entry of [_generation_summary]. *)
Definition generation_entry (pieces : list (string * nat)) (r : option roofline) (p : string * bucket) : res generation :=
  let '(calls, us) := fused_of p.2 in
  let tokens := snd <$> GENERATION p.1 in
  let entry := Generation (default 0 (dict_find p.1 pieces)) (kernel_count p.2)
    (py_round 3 (kernel_us p.2)) tokens (fst <$> GENERATION p.1) (families_of p.2) (py_round 3 us) calls
    (py_round 6 (share_of us (kernel_us p.2))) in
  match r with
  | Some r =>
      if calls =? 0 then Ok (entry None None)
      else
        s ← steps_of r calls us;
        let st := Some (Steps (py_round 3 s.1) (py_round 3 s.2)) in
        match tokens with
        | Some t =>
            if (t =? 0)%Z then Ok (entry st None)
            else
              unique ← uniform_experts r t;
              implied ← implied_gbs r (inject_nat calls) unique us;
              at_roof ← experts_at_roofline r (inject_nat calls) us;
              Ok (entry st (Some (Traffic (t * topk r) (py_round 2 unique) (py_round 2 implied) (py_round 2 at_roof))))
        | None => Ok (entry st None)
        end
  | None => Ok (entry None None)
  end.

Definition by_label (a b : string * bucket) : Prop := String.leb a.1 b.1 = true.
#[global] Instance by_label_dec : RelDecision by_label.
Proof. intros a b. unfold by_label. apply _. Defined.

Fixpoint generation_entries (pieces : list (string * nat)) (r : option roofline) (l : list (string * bucket)) :
    res (list (string * generation)) :=
  match l with
  | [] => Ok []
  | p :: l => g ← generation_entry pieces r p; gs ← generation_entries pieces r l; Ok ((p.1, g) :: gs)
  end.

Definition _generation_summary (attributed : list (string * bucket)) (pieces : list (string * nat)) (r : option roofline) :
    res (list (string * generation)) :=
  generation_entries pieces r (merge_sort by_label attributed).

(** ** The target token counts *)

Inductive at_t := NotMeasured | Measured (calls : nat) (s : steps_t) (t : traffic).

(** The calls and the time of the executions of [tokens] tokens. *)
Definition gathered (tokens : Z) (gs : list (string * generation)) : nat * Q :=
  fold_left (fun acc p => if bool_decide (ge_tokens p.2 = Some tokens)
    then (acc.1 + fused_moe_calls p.2, (acc.2 + fused_moe_us p.2)%Q) else acc) gs (0, 0%Q).

Record streaming := Streaming { by_t : list (Z * at_t); viable : bool; measured : nat }.

Definition target_step (r : roofline) (gs : list (string * generation)) (acc : res streaming) (tokens : Z) : res streaming :=
  acc ← acc;
  let '(calls, us) := gathered tokens gs in
  if (calls =? 0) || Qle_bool us 0 then Ok (Streaming (by_t acc ++ [(tokens, NotMeasured)]) false (measured acc))
  else
    steps ← div_or_raise (inject_nat calls) (inject_Z (moe_layers r));
    unique ← uniform_experts r tokens;
    implied ← implied_gbs r (inject_nat calls) unique us;
    at_roof ← experts_at_roofline r (inject_nat calls) us;
    per ← div_or_raise us steps;
    Ok (Streaming
          (by_t acc ++ [(tokens, Measured calls (Steps (py_round 3 steps) (py_round 3 per))
             (Traffic (tokens * topk r) (py_round 2 unique) (py_round 2 implied) (py_round 2 at_roof)))])
          (viable acc && negb (Qltb (inject_Z (tokens * topk r)) at_roof)) (S (measured acc))).

Definition roofline_out (r : roofline) (gs : list (string * generation)) : res streaming :=
  fold_left (target_step r gs) (target_t r) (Ok (Streaming [] true 0)).

Definition all_target_t_measured (r : roofline) (s : streaming) : bool := measured s =? length (target_t r).

(** ** The whole audit *)

(** The parts of the report after the tally: [audit] with a roofline. *)
Record full_report := Full { base_report : report; generations : list (string * generation); streaming_model : option streaming }.

Definition audit_full (py_str : json -> string) (traces : list (string * (list json * ending)))
    (moe_share_floor occ_floor : Q) (r : option roofline) (mla_share_floor : Q) : res full_report :=
  base ← audit py_str traces moe_share_floor occ_floor mla_share_floor;
  gs ← _generation_summary (attributed (r_tally base)) (pieces (r_tally base)) r;
  match r with
  | None => Ok (Full base gs None)
  | Some r => s ← roofline_out r gs; Ok (Full base gs (Some s))
  end.

Fixpoint parse_ints (l : list string) : res (list Z) :=
  match l with
  | [] => Ok []
  | s :: l => z ← of_option ValueError (parse_int s); zs ← parse_ints l; Ok (z :: zs)
  end.

(** [parse_roofline]: no bandwidth, no model. *)
Definition parse_roofline (roofline_gbs : Q) (bytes layers experts k : Z) (target : string) : res (option roofline) :=
  if Qeq_bool roofline_gbs 0 then Ok None
  else if (bytes =? 0)%Z || (layers =? 0)%Z then Raise ValueError
  else targets ← parse_ints (split_char ","%char target); Ok (Some (Roofline roofline_gbs bytes layers experts k targets)).

(** [main]'s exit code, once the files are there: only a [ValueError] is reported. *)
Definition main (py_str : json -> string) (traces : list (string * (list json * ending))) (moe_share_floor occ_floor mla_share_floor : Q)
    (roofline_gbs : Q) (bytes layers experts k : Z) (target : string) : res Z :=
  match r ← parse_roofline roofline_gbs bytes layers experts k target;
        audit_full py_str traces moe_share_floor occ_floor r mla_share_floor with
  | Ok _ => Ok 0%Z
  | Raise ValueError => Ok 2%Z
  | Raise e => Raise e
  end.

(** ** What "viable" says *)

(** Streaming the weights of [experts] experts per call at the bandwidth, in seconds. *)
Definition streaming_seconds (r : roofline) (calls : nat) (experts : Q) : Q :=
  (inject_nat calls * experts * inject_Z (expert_bytes_per_rank r) / (gbs r * inject_Z (10 ^ 9)))%Q.

Definition explained (r : roofline) (gs : list (string * generation)) (tokens : Z) : Prop :=
  let '(calls, us) := gathered tokens gs in
  calls <> 0 /\ (0 < us)%Q /\ (us / inject_Z (10 ^ 6) <= streaming_seconds r calls (inject_Z (tokens * topk r)))%Q.

(** The experts a call could stream in the measured time are at most the slots,
    exactly when the time is at most that of streaming every slot. *)
Lemma at_roofline_le r calls us slots : calls <> 0 -> (0 < gbs r)%Q -> (0 < expert_bytes_per_rank r)%Z ->
  exists at_roof, experts_at_roofline r (inject_nat calls) us = Ok at_roof /\
    ((at_roof <= slots)%Q <-> (us / inject_Z (10 ^ 6) <= streaming_seconds r calls slots)%Q).
Proof.
  intros Hc Hg Hb. unfold experts_at_roofline, streaming_seconds, div_or_raise.
  pose proof (inject_nat_pos calls Hc) as Hn. set (n := inject_nat calls) in *.
  assert (Hbytes : (0 < inject_Z (expert_bytes_per_rank r))%Q) by (unfold Qlt; simpl; lia).
  set (b := inject_Z (expert_bytes_per_rank r)) in *. assert (Hnb : (0 < n * b)%Q) by nra.
  rewrite Qeq_bool_false by lra. eexists. split; [done |]. set (g := (gbs r * inject_Z (10 ^ 9))%Q).
  assert (Hgg : (0 < g)%Q) by (subst g; change (inject_Z (10 ^ 9)) with (1000000000 # 1)%Q; lra).
  set (s := (us / inject_Z (10 ^ 6))%Q). split; intros H.
  - apply Qle_shift_div_l; [done |]. apply Qmult_le_compat_r with (z := (n * b)%Q) in H; [| lra].
    assert (E : (g * s / (n * b) * (n * b) == g * s)%Q) by (field; split; lra). rewrite E in H. lra.
  - apply Qle_shift_div_r; [done |]. apply Qmult_le_compat_r with (z := g) in H; [| lra].
    assert (E : (n * slots * b / g * g == n * slots * b)%Q) by (field; lra). rewrite E in H. lra.
Qed.

(** One target: measured with what the divisions give, or not measured. *)
Lemma target_step_explains r gs acc tokens :
  (0 < gbs r)%Q -> (0 < expert_bytes_per_rank r)%Z -> moe_layers r <> 0%Z -> n_experts r <> 0%Z ->
  exists s, target_step r gs (Ok acc) tokens = Ok s /\
    (viable s = true <-> viable acc = true /\ explained r gs tokens) /\ map fst (by_t s) = (map fst (by_t acc) ++ [tokens])%list.
Proof.
  intros Hg Hb Hl He. unfold target_step, explained. cbn [mbind res_bind]. destruct (gathered tokens gs) as [calls us].
  destruct (Nat.eqb_spec calls 0) as [->|Hc]; cbn [orb].
  { eexists. split; [done |]. split; [split; [done | by intros [_ [? _]]] | cbn [by_t]; by rewrite map_app]. }
  destruct (Qle_bool us 0) eqn:Eu.
  { apply Qle_bool_iff in Eu. eexists. split; [done |]. split; [split; [done | intros [_ [_ [? _]]]; lra] | cbn [by_t]; by rewrite map_app]. }
  assert (Hus : (0 < us)%Q) by (apply Qnot_le_lt; by rewrite <- Qle_bool_iff, Eu).
  destruct (at_roofline_le r calls us (inject_Z (tokens * topk r)) Hc Hg Hb) as (at_roof & Ea & Hle).
  assert (Hn : ~ (inject_nat calls == 0)%Q) by (pose proof (inject_nat_pos calls Hc); lra).
  assert (Hu : ~ (us == 0)%Q) by lra.
  unfold uniform_experts, implied_gbs.
  repeat (first [rewrite Ea | rewrite div_or_raise_ok by nonzero]; cbn [mbind res_bind]).
  eexists. split; [done |]. cbn [viable by_t]. split; [| by rewrite map_app].
  rewrite andb_true_iff, negb_true_iff, Qltb_ge, Hle. tauto.
Qed.

(** The streaming explanation is called viable exactly when it explains every
    target: for each token count of [target_t] fused calls were captured with positive time, and that
    time is no more than streaming the weights of all its expert slots at the given
    bandwidth would take.  A model of positive sizes never divides by zero here. *)
Theorem viable_iff_explained r gs : (0 < gbs r)%Q -> (0 < expert_bytes_per_rank r)%Z -> moe_layers r <> 0%Z -> n_experts r <> 0%Z ->
  exists s, roofline_out r gs = Ok s /\ (viable s = true <-> Forall (explained r gs) (target_t r)) /\ map fst (by_t s) = target_t r.
Proof.
  intros Hg Hb Hl He. unfold roofline_out.
  enough (H : forall l acc, exists s, fold_left (target_step r gs) l (Ok acc) = Ok s /\
    (viable s = true <-> viable acc = true /\ Forall (explained r gs) l) /\ map fst (by_t s) = (map fst (by_t acc) ++ l)%list).
  { destruct (H (target_t r) (Streaming [] true 0)) as (s & Es & Hv & Hm). exists s. split_and!; [done | | done]. rewrite Hv. tauto. }
  induction l as [|tokens l IH]; intros acc; [exists acc; split_and!; [done | split; [by split | by intros []] | by rewrite app_nil_r] |].
  destruct (target_step_explains r gs acc tokens Hg Hb Hl He) as (s1 & E1 & Hv1 & Hm1). cbn [fold_left]. rewrite E1.
  destruct (IH s1) as (s & Es & Hv & Hm). exists s. split_and!; [done | | by rewrite Hm, Hm1, <- app_assoc].
  rewrite Hv, Hv1, Forall_cons. tauto.
Qed.

(** One execution of 1000 fused calls in a second: 40 slots of a megabyte at 50 GB/s stream in
    time, 8 do not. *)
Lemma viable_iff_explained_witness :
  let r := Roofline 50 1000000 40 64 8 [1%Z; 5%Z] in
  let gs := [("a", Generation 1 1000 (1000000 # 2) (Some 5%Z) (Some 5%Z) [] (1000000 # 2) 1000 1 None None);
             ("b", Generation 1 1000 1000000 (Some 1%Z) (Some 1%Z) [] 1000000 1000 1 None None)]%Q in
  (0 < gbs r)%Q /\ (viable <$> match roofline_out r gs with Ok s => Some s | Raise _ => None end) = Some false /\
  exists s, roofline_out r gs = Ok s /\ (viable s = true <-> Forall (explained r gs) (target_t r)) /\ map fst (by_t s) = target_t r.
Proof.
  intros r gs. split; [reflexivity |]. split; [vm_compute; reflexivity |].
  apply (viable_iff_explained r gs); [reflexivity | reflexivity | discriminate | discriminate].
Defined.

(** A graph execution whose fused calls all have duration zero, one kernel beside them: with a
    roofline the audit ends in an uncaught division by zero; without one it reports. *)
Definition idle_execution : list (string * (list json * ending)) :=
  [("rank0", ([JDict [("cat", JStr "gpu_user_annotation"); ("name", JStr "run_generation_1(12)"); ("ts", JInt 0); ("dur", JInt 9)];
               JDict [("cat", JStr "kernel"); ("name", JStr "exl3_moe"); ("ts", JInt 1); ("dur", JInt 0)];
               JDict [("cat", JStr "kernel"); ("name", JStr "nccl"); ("ts", JInt 2); ("dur", JInt 5)]], Closed))].

Example zero_time_generation :
  main (fun _ => "") idle_execution (1 # 20) 50 (1 # 50) 50 1000 40 64 8 "12" = Raise ZeroDivisionError /\
  main (fun _ => "") idle_execution (1 # 20) 50 (1 # 50) 0 0 0 64 8 "12" = Ok 0%Z.
Proof. vm_compute. done. Qed.
