(* ===== verification/WeightBytes.v ===== *)
(** * The weight audit

    Model of [scripts/audit_live_weight_bytes.py]: the safetensors header reader and
    its validation, the classification of target and draft tensors, their sharding over the ranks,
    the totals and the traffic of a verify step.  A file is its bytes, one character
    each; a header's text is UTF-8, so its bytes are its characters.  A TP fraction and every
    byte count are exact rationals. *)
From Stdlib Require Import ZArith QArith Qpower Lqa Lia String Ascii.
From stdpp Require Import base list strings sorting sets.
From S2P Require Import Prelude PyStr PyNum PyDict Stats PyJson TraceStream.
#[local] Open Scope string_scope.
#[local] Open Scope nat_scope.

Definition DTYPE_BYTES : list (string * Z) := [
  ("BOOL", 1%Z); ("U8", 1%Z); ("I8", 1%Z); ("F8_E4M3", 1%Z); ("F8_E4M3FN", 1%Z); ("F8_E5M2", 1%Z);
  ("U16", 2%Z); ("I16", 2%Z); ("F16", 2%Z); ("BF16", 2%Z); ("U32", 4%Z); ("I32", 4%Z); ("F32", 4%Z);
  ("U64", 8%Z); ("I64", 8%Z); ("F64", 8%Z)
].

(** ** A header *)

(** [struct.unpack("<Q", raw)]: the bytes of [raw], least significant first. *)
Fixpoint le_val (raw : string) : Z :=
  match raw with EmptyString => 0 | String c t => Z.of_nat (nat_of_ascii c) + 256 * le_val t end%Z.

(** An [int] that is no [bool]. *)
Fixpoint strict_ints (l : list json) : option (list Z) :=
  match l with
  | [] => Some []
  | v :: l => z ← strict_int v; zs ← strict_ints l; Some (z :: zs)
  end.

(** The dtype's width; a value that is no text is in no dict of texts, and one that cannot be hashed raises. *)
Definition dtype_width (v : option json) : res Z :=
  match v with
  | Some (JStr d) => of_option ValueError (dict_find d DTYPE_BYTES)
  | Some (JList _) | Some (JDict _) => Raise TypeError
  | _ => Raise ValueError
  end.

(** [validate_tensor_entry]: the offsets of a valid entry. *)
Definition validate_tensor_entry (entry : json) (payload_bytes : Z) : res (Z * Z) :=
  match entry with
  | JDict entry =>
      width ← dtype_width (dict_get "dtype" entry);
      match dict_get "shape" entry with
      | Some (JList shape) =>
          match strict_ints shape with
          | Some shape =>
              if negb (forallb (Z.leb 0) shape) then Raise ValueError
              else
                match dict_get "data_offsets" entry with
                | Some (JList [JInt start; JInt stop]) =>
                    if ((start <? 0) || (stop <? start) || (payload_bytes <? stop))%Z then Raise ValueError
                    else if (stop - start =? fold_left Z.mul shape 1 * width)%Z then Ok (start, stop)
                    else Raise ValueError
                | _ => Raise ValueError
                end
          | None => Raise ValueError
          end
      | _ => Raise ValueError
      end
  | _ => Raise ValueError
  end.

(** The loop over the items of the header. *)
Fixpoint header_ranges (items : list (string * json)) (payload_bytes : Z) : res (list (Z * Z * string)) :=
  match items with
  | [] => Ok []
  | (name, entry) :: items =>
      if String.eqb name "__metadata__" then
        match entry with JDict _ => header_ranges items payload_bytes | _ => Raise ValueError end
      else
        r ← validate_tensor_entry entry payload_bytes;
        rs ← header_ranges items payload_bytes;
        Ok ((r.1, r.2, name) :: rs)
  end.

(** Tuples in Python's order. *)
Definition range_lt (a b : Z * Z * string) : bool :=
  ((a.1.1 <? b.1.1) || ((a.1.1 =? b.1.1) && ((a.1.2 <? b.1.2) || ((a.1.2 =? b.1.2) && negb (String.leb b.2 a.2)))))%Z.
Definition range_le (a b : Z * Z * string) : Prop := range_lt b a = false.
#[global] Instance range_le_dec : RelDecision range_le.
Proof. intros a b. unfold range_le. apply _. Defined.

(** The sweep: each range starts where the one before ended. *)
Fixpoint sweep (previous_end : Z) (ranges : list (Z * Z * string)) : res Z :=
  match ranges with
  | [] => Ok previous_end
  | (start, stop, _) :: ranges => if (start =? previous_end)%Z then sweep stop ranges else Raise ValueError
  end.

Section files.
(** The character of a code point, for escapes in names. *)
Context (chr : Z -> string).

(** [read_header]: the items of a valid header. *)
Definition read_header (file : string) : res (list (string * json)) :=
  let raw := take_str 8 file in
  if negb (String.length raw =? 8) then Raise ValueError
  else
    let header_len := le_val raw in
    let header := take_str (Z.to_nat header_len) (drop_str 8 file) in
    if negb (Z.of_nat (String.length header) =? header_len)%Z then Raise ValueError
    else
      decoded ← json_loads chr header;
      match decoded with
      | JDict d =>
          let items := dict_of d in
          let payload_bytes := (Z.of_nat (String.length file) - 8 - header_len)%Z in
          ranges ← header_ranges items payload_bytes;
          previous_end ← sweep 0 (merge_sort range_le ranges);
          if (previous_end =? payload_bytes)%Z then Ok items else Raise ValueError
      | _ => Raise ValueError
      end.
(** A snapshot: the files of a directory by name. *)
Definition snapshot : Type := list (string * string).

Definition read_file (s : snapshot) (name : string) : res string := of_option OtherException (dict_find name s).

(** The text of a file name in the index; any other hashable value names no file. *)
Definition filename_of (v : json) : res string := match v with JStr f => Ok f | _ => Raise TypeError end.

Fixpoint read_headers (s : snapshot) (filenames : list string) : res (list (string * list (string * json))) :=
  match filenames with
  | [] => Ok []
  | f :: fs => text ← read_file s f; h ← read_header text; hs ← read_headers s fs; Ok ((f, h) :: hs)
  end.

Fixpoint filenames_of (weight_map : list (string * json)) : res (list (string * string)) :=
  match weight_map with
  | [] => Ok []
  | (name, v) :: w => f ← filename_of v; fs ← filenames_of w; Ok ((name, f) :: fs)
  end.

Fixpoint indexed (headers : list (string * list (string * json))) (weight_map : list (string * string)) :
    res (list (string * list (string * json))) :=
  match weight_map with
  | [] => Ok []
  | (name, f) :: w =>
      header ← of_option KeyError (dict_find f headers);
      match dict_find name header with
      | Some (JDict entry) => ts ← indexed headers w; Ok ((name, entry) :: ts)
      | _ => Raise ValueError
      end
  end.

(** [read_indexed_tensors]. *)
Definition read_indexed_tensors (s : snapshot) : res (list (string * list (string * json))) :=
  text ← read_file s "model.safetensors.index.json";
  index ← json_loads chr text;
  match index with
  | JDict index =>
      match dict_get "weight_map" index with
      | Some (JDict (p :: weight_map)) =>
          names ← filenames_of (dict_of (p :: weight_map));
          headers ← read_headers s (sorted_of String.leb (map snd names));
          indexed headers names
      | _ => Raise ValueError
      end
  | _ => Raise AttributeError
  end.

(** [read_single_tensors], each with [entry.get(..)] still to come. *)
Definition read_single_tensors (s : snapshot) (name : string) : res (list (string * list (string * json))) :=
  text ← read_file s name;
  header ← read_header text;
  Ok (omap (M := list) (fun p : string * json => match p.2 with JDict entry => if String.eqb p.1 "__metadata__" then None else Some (p.1, entry) | _ => None end) header).

End files.

(** [tensor_bytes]: a [bool] offset is an [int] here. *)
Definition tensor_bytes (entry : list (string * json)) : res Z :=
  match dict_get "data_offsets" entry with
  | Some (JList [a; b]) =>
      match as_int a, as_int b with
      | Some a, Some b => if ((a <? 0) || (b <? a))%Z then Raise ValueError else Ok (b - a)%Z
      | _, _ => Raise ValueError
      end
  | _ => Raise ValueError
  end.

(** ** Classification *)

(** [re.search(r"\.layers\.(\d+)\.", name)]: the number, and what follows the match. *)
Definition numbered_here (word s : string) : option (Z * string) :=
  if String.prefix word s then
    let '(d, t) := digits (drop_str (String.length word) s) in
    match head_is "." t with Some t => if String.eqb d "" then None else Some (digits_val 0 d, t) | None => None end
  else None.

Fixpoint numbered (word s : string) : option (Z * string) :=
  match numbered_here word s with
  | Some r => Some r
  | None => match s with String _ t => numbered word t | EmptyString => None end
  end.

Definition layer_index (name : string) : option Z := fst <$> numbered ".layers." name.

Definition any_in (tokens : list string) (s : string) : bool := existsb (fun t => str_in t s) tokens.
Definition starts_with (p s : string) : bool := String.prefix p s.

(** [config.get("text_config", config)]. *)
Definition text_config (config : json) : res (list (string * json)) :=
  match config with
  | JDict c => match dict_get "text_config" c with
               | None => Ok c
               | Some (JDict t) => Ok t
               | Some _ => Raise AttributeError
               end
  | _ => Raise AttributeError
  end.

Definition int_get (key : string) (text : list (string * json)) : res Z :=
  match dict_get key text with None => Ok 0%Z | Some v => to_int v end.

(** [idx < len(layer_types) and layer_types[idx] == "linear_attention"], of [text.get("layer_types") or []]. *)
Definition is_linear (text : list (string * json)) (idx : Z) : res bool :=
  match dict_get "layer_types" text with
  | None => Ok false
  | Some v =>
      if falsy v then Ok false
      else
        match v with
        | JList l => Ok (match l !! Z.to_nat idx with Some (JStr t) => String.eqb t "linear_attention" | _ => false end)
        | JStr _ => Ok false
        | JDict d => if (idx <? Z.of_nat (length (dict_of d)))%Z then Raise KeyError else Ok false
        | _ => Raise TypeError
        end
  end.

Definition NORM_TOKENS : list string := ["layernorm"; ".norm."; ".norm.weight"; ".hc_"; ".eh_proj"; ".hnorm"; ".enorm"].

Definition below (idx : option Z) (bound : Z) : bool := match idx with Some i => (i <? bound)%Z | None => false end.
Definition at_least (idx : option Z) (bound : Z) : bool := match idx with Some i => (bound <=? i)%Z | None => false end.

(** The tail of [target_category], after the dense test. *)
Definition other_category (name : string) (text : list (string * json)) (idx : option Z) : res string :=
  if str_in ".mlp.gate." name then Ok "target.router"
  else
    match (if str_in ".self_attn." name then idx else None) with
    | Some idx => linear ← is_linear text idx; Ok (if linear : bool then "target.kda" else "target.mla")
    | None => Ok (if any_in NORM_TOKENS name then "target.norm_mhc_aux" else "target.unknown")
    end.

Definition target_category (name : string) (config : json) : res string :=
  text ← text_config config;
  base_layers ← int_get "num_hidden_layers" text;
  let idx := layer_index name in
  if starts_with "model.visual." name then Ok "target.vision"
  else if String.eqb name "model.language_model.embed_tokens.weight" then Ok "target.embedding"
  else if String.eqb name "lm_head.weight" then Ok "target.lm_head"
  else if at_least idx base_layers then Ok "target.mtp_unused_dflash"
  else if str_in ".mlp.experts." name then Ok "target.routed_experts"
  else if str_in ".mlp.shared_experts." name then Ok "target.shared_experts"
  else
    match idx with
    | Some i =>
        dense ← int_get "first_k_dense_replace" text;
        if (i <? dense)%Z && str_in ".mlp." name then Ok "target.dense_mlp" else other_category name text idx
    | None => other_category name text idx
    end.

(** ** Geometry *)

Definition shard (tp_size : Z) : Q := (1 / inject_Z tp_size)%Q.

Fixpoint last_part (s : string) : string :=
  match s with
  | EmptyString => EmptyString
  | String c t => if str_in "." t then last_part t else if Ascii.eqb c "." then t else s
  end.

Definition projection_of (name : string) : string :=
  if str_in ".gate_proj." name then "gate_proj"
  else if str_in ".up_proj." name then "up_proj"
  else if str_in ".down_proj." name then "down_proj"
  else "".

Definition is_one_of (names : list string) (s : string) : bool := existsb (String.eqb s) names.

Definition routed_geometry (name : string) (tp_size : Z) : Q * string :=
  let projection := projection_of name in
  let suffix := last_part name in
  if String.eqb suffix "mcg" then (1%Q, "replicated marker")
  else if is_one_of ["gate_proj"; "up_proj"] projection then
    if is_one_of ["trellis"; "svh"] suffix then (shard tp_size, "column-sharded packed expert")
    else (1%Q, "replicated packed expert metadata")
  else if String.eqb projection "down_proj" then
    if is_one_of ["trellis"; "suh"] suffix then (shard tp_size, "row-sharded packed expert")
    else (1%Q, "replicated packed expert metadata")
  else (1%Q, "unknown routed tensor geometry").

Definition VISION_TOKENS : list string := [
  ".attn.qkv.weight"; ".attn.proj.weight"; ".mlp.gate_proj.weight"; ".mlp.up_proj.weight"; ".mlp.down_proj.weight";
  ".merger.proj.weight"; ".merger.gate_proj.weight"; ".merger.up_proj.weight"; ".merger.down_proj.weight"
].
Definition ATTENTION_TOKENS : list string := [
  ".q_proj."; ".k_proj."; ".v_proj."; ".b_proj."; ".f_b_proj."; ".g_b_proj."; ".q_b_proj."; ".kv_b_proj."; ".o_proj."; "_conv1d."
].

Definition target_geometry (name category : string) (tp_size : Z) : Q * string :=
  if String.eqb category "target.mtp_unused_dflash" then (0%Q, "not loaded by DFlash target path")
  else if String.eqb category "target.unknown" then (1%Q, "unknown target geometry")
  else if (tp_size =? 1)%Z then (1%Q, "single rank")
  else if String.eqb category "target.routed_experts" then routed_geometry name tp_size
  else if is_one_of ["target.embedding"; "target.lm_head"] category then (shard tp_size, "vocabulary-parallel")
  else if String.eqb category "target.vision" then
    if any_in VISION_TOKENS name then (shard tp_size, "vision tensor-parallel linear") else (1%Q, "vision replicated/nonlinear")
  else if any_in [".f_a_proj."; ".g_a_proj."] name then (1%Q, "replicated KDA fused shard")
  else if String.eqb category "target.mla" && any_in [".q_a_proj."; ".kv_a_proj_with_mqa."; ".indexer."] name then
    (1%Q, "replicated MLA/indexer projection")
  else if ends_with ".gate_proj.weight" name || ends_with ".up_proj.weight" name then (shard tp_size, "column-sharded linear")
  else if ends_with ".down_proj.weight" name then (shard tp_size, "row-sharded linear")
  else if is_one_of ["target.kda"; "target.mla"] category && ends_with ".weight" name && any_in ATTENTION_TOKENS name then
    (shard tp_size, "attention tensor-parallel")
  else (1%Q, "replicated").

Definition draft_category (name : string) : string :=
  if starts_with "candidate_selector." name then "draft.selector"
  else if String.eqb name "fc.weight" || any_in [".self_attn."; ".mlp."] name then "draft.backbone_linears"
  else if any_in ["attention_conv.base_kernel"; "attention_conv.kernel_projection.weight"; "mlp_conv.base_kernel";
                  "mlp_conv.kernel_projection.weight"] name then "draft.conv"
  else if is_one_of ["hidden_norm.weight"; "norm.weight"] name || ends_with ".input_layernorm.weight" name
          || ends_with ".post_attention_layernorm.weight" name then "draft.norm"
  else "draft.unknown".

(** ** Collection *)

Record tensor_info := TensorInfo {
  t_name : string; t_dtype : string; disk_bytes : Z; category : string; rank_fraction : Q; geometry : string
}.

Section collect.
Context (chr : Z -> string) (py_str : json -> string).

Definition dtype_str (entry : list (string * json)) : string :=
  match dict_get "dtype" entry with Some (JStr d) => d | Some v => py_str v | None => "unknown" end.

Definition target_info (config : json) (tp_size : Z) (p : string * list (string * json)) : res tensor_info :=
  c ← target_category p.1 config;
  let '(fraction, g) := target_geometry p.1 c tp_size in
  bytes ← tensor_bytes p.2;
  Ok (TensorInfo p.1 (dtype_str p.2) bytes c fraction g).

Definition draft_info (draft_tp_size : Z) (p : string * list (string * json)) : res tensor_info :=
  bytes ← tensor_bytes p.2;
  Ok (TensorInfo p.1 (dtype_str p.2) bytes (draft_category p.1) (shard draft_tp_size)
        (if (1 <? draft_tp_size)%Z then "draft tensor-parallel" else "draft rank 0 only")).

Definition collect_target (s : snapshot) (tp_size : Z) : res (list tensor_info) :=
  text ← read_file s "config.json";
  config ← json_loads chr text;
  tensors ← read_indexed_tensors chr s;
  mapM (target_info config tp_size) tensors.

Definition collect_draft (s : snapshot) (draft_tp_size : Z) : res (list tensor_info) :=
  tensors ← read_single_tensors chr s "model.safetensors";
  mapM (draft_info draft_tp_size) tensors.

End collect.

(** ** Totals *)

Record group := Group { g_disk_bytes : Z; g_rank_bytes : Q; tensor_count : nat }.

Definition rank_bytes_of (t : tensor_info) : Q := (inject_Z (disk_bytes t) * rank_fraction t)%Q.

Definition add_tensor (t : tensor_info) (g : option group) : group :=
  let g := default (Group 0 0 0) g in
  Group (g_disk_bytes g + disk_bytes t) (g_rank_bytes g + rank_bytes_of t) (S (tensor_count g)).

Definition by_key {A} (a b : string * A) : Prop := String.leb a.1 b.1 = true.
#[global] Instance by_key_dec {A} : RelDecision (@by_key A).
Proof. intros a b. unfold by_key. apply _. Defined.

(** [aggregate]. *)
Definition aggregate (tensors : list tensor_info) : list (string * group) :=
  merge_sort by_key (fold_left (fun d t => dict_update (category t) (add_tensor t) d) tensors []).

(** The last [.experts.N.] of the line: [.*] is greedy and stops at a line feed. *)
Fixpoint last_expert (s : string) : option Z :=
  match s with
  | EmptyString => None
  | String c t =>
      let later := if Ascii.eqb c "010" then None else last_expert t in
      match later with Some e => Some e | None => fst <$> numbered_here ".experts." s end
  end.

(** [re.search(r"\.layers\.(\d+)\..*\.experts\.(\d+)\.", name)]. *)
Fixpoint layer_expert (s : string) : option (Z * Z) :=
  match (p ← numbered_here ".layers." s; e ← last_expert p.2; Some (p.1, e)) with
  | Some r => Some r
  | None => match s with String _ t => layer_expert t | EmptyString => None end
  end.

Definition add_expert (expert : Z) (bytes : Q) (l : option (list (Z * Q))) : list (Z * Q) :=
  dict_update expert (fun q => default 0 q + bytes)%Q (default [] l).

(** [routed_bytes_by_layer]. *)
Definition routed_bytes_by_layer (tensors : list tensor_info) : list (Z * list (Z * Q)) :=
  fold_left (fun d t =>
    if String.eqb (category t) "target.routed_experts" then
      match layer_expert (t_name t) with
      | Some (layer, expert) => dict_update layer (add_expert expert (rank_bytes_of t)) d
      | None => d
      end
    else d) tensors [].

(** ** Traffic *)

Definition ALWAYS_TARGET : list string := [
  "target.shared_experts"; "target.dense_mlp"; "target.kda"; "target.mla"; "target.router"; "target.norm_mhc_aux"
].

Definition group_bytes (groups : list (string * group)) (name : string) : Q :=
  match dict_find name groups with Some g => g_rank_bytes g | None => 0 end.

Definition base_bytes (target draft : list tensor_info) : Q :=
  let groups := aggregate target in
  (Qsum (map (group_bytes groups) ALWAYS_TARGET) + 2 * group_bytes groups "target.lm_head"
   + Qsum (map (fun p => g_rank_bytes p.2) (aggregate draft)))%Q.

Definition descending (a b : Q) : Prop := Qle b a.
#[global] Instance descending_dec : RelDecision descending.
Proof. intros a b. unfold descending. apply _. Defined.

(** The largest [active] experts of a layer. *)
Definition layer_bytes (active : Z) (experts : list (Z * Q)) : Q :=
  Qsum (slice_to active (merge_sort descending (map snd experts))).

(** The routed bytes of a scenario. *)
Definition routed_estimate (tensors : list tensor_info) (active : Z) : Q :=
  Qsum (map (fun p => layer_bytes active p.2) (routed_bytes_by_layer tensors)).

Record scenario := Scenario {
  active_experts : Z; total_bytes : Z; routed_bytes : Z; per_token : option (Z * Q)
}.

Definition scenario_of (target draft : list tensor_info) (accepted_per_step : option Q) (active : Z) : res scenario :=
  let routed := routed_estimate target active in
  let total := (base_bytes target draft + routed)%Q in
  let s := Scenario active (round_half_even total) (round_half_even routed) in
  match accepted_per_step with
  | None => Ok (s None)
  | Some accepted =>
      let emitted := (1 + accepted)%Q in
      per ← div_or_raise total emitted;
      Ok (s (Some (round_half_even per, emitted)))
  end.

(** [estimate_traffic]. *)
Definition estimate_traffic (target draft : list tensor_info) (active_experts : list Z) (accepted_per_step : option Q) :
    res (Z * list scenario) :=
  scenarios ← mapM (scenario_of target draft accepted_per_step) active_experts;
  Ok (round_half_even (base_bytes target draft), scenarios).

(** ** The model card *)

Definition is_char (c : ascii) (code : nat) : bool := nat_of_ascii c =? code.

(** [[^\n#]*] from here. *)
Fixpoint run (s : string) : string :=
  match s with
  | String c t => if is_char c 10 || is_char c 35 then "" else String c (run t)
  | EmptyString => ""
  end.

(** [\s*([^\n#]+)]: the blanks are given back one by one until a character is left for the group. *)
Fixpoint value (s : string) : option string :=
  match s with
  | EmptyString => None
  | String c t =>
      let here := if is_char c 10 || is_char c 35 then None else Some (run s) in
      if is_space c then match value t with Some v => Some v | None => here end else here
  end.

(** [re.search(r"(?m)^key:\s*([^\n#]+)", text)]; [start] tells that the text begins a line. *)
Fixpoint field (key : string) (start : bool) (s : string) : option string :=
  match (if start && String.prefix (key ++ ":") s then value (drop_str (S (String.length key)) s) else None) with
  | Some v => Some (strip v)
  | None => match s with String c t => field key (is_char c 10) t | EmptyString => None end
  end.

(** [read_license], of the card's text. *)
Definition read_license (card : option string) : option string :=
  text ← card;
  if negb (starts_with ("---" ++ newline) text) then None
  else
    let rest := drop_str 4 text in
    if negb (str_in (newline ++ "---") rest) then None
    else
      let frontmatter := before (newline ++ "---") rest in
      license_id ← field "license" true frontmatter;
      if negb (String.eqb (lower license_id) "other") then Some license_id
      else match field "license_name" true frontmatter with Some n => Some n | None => Some license_id end.

(** [draft_blocked] of [permission_report]. *)
Definition draft_blocked (draft_license : option string) : bool :=
  match draft_license with
  | Some l => str_in "nc-nd" (replace_all "_" "-" (lower l))
  | None => false
  end.

(** ** The report *)

Record weight_report := WeightReport {
  target_disk_bytes : Z; target_categories : list (string * group); draft_disk_bytes : Z; draft_categories : list (string * group);
  by_rank : list Z; base_per_step : Z; scenarios : list scenario; target_license : option string; draft_license : option string;
  draft_quantization_blocked : bool; unclassified : list tensor_info
}.

Definition unknown (t : tensor_info) : bool := ends_with ".unknown" (category t) || starts_with "unknown" (geometry t).

Definition resident (tensors : list tensor_info) : Q := Qsum (map rank_bytes_of tensors).

Definition rank_total (target draft : list tensor_info) (draft_tp_size : Z) (rank : nat) : Z :=
  round_half_even (resident target + if (Z.of_nat rank <? draft_tp_size)%Z then resident draft else 0)%Q.

Section report.
Context (chr : Z -> string) (py_str : json -> string).

Definition build_report (target_snapshot draft_snapshot : snapshot) (tp_size draft_tp_size : Z) (active_experts : list Z)
    (accepted_per_step : option Q) : res weight_report :=
  target ← collect_target chr py_str target_snapshot tp_size;
  draft ← collect_draft chr py_str draft_snapshot draft_tp_size;
  traffic ← estimate_traffic target draft active_experts accepted_per_step;
  let card := dict_find "README.md" draft_snapshot in
  Ok (WeightReport (Zsum (map disk_bytes target)) (aggregate target) (Zsum (map disk_bytes draft)) (aggregate draft)
        (map (rank_total target draft draft_tp_size) (seq 0 (Z.to_nat tp_size))) traffic.1 traffic.2
        (read_license (dict_find "README.md" target_snapshot)) (read_license card) (draft_blocked (read_license card))
        (base.filter unknown (target ++ draft)%list)).

Definition positive_int (s : string) : res Z :=
  parsed ← of_option ValueError (parse_int s); if (parsed <? 1)%Z then Raise ValueError else Ok parsed.

Definition active_expert_list (s : string) : res (list Z) :=
  counts ← mapM (fun part => positive_int (strip part)) (split_char ","%char s); Ok (sorted_set counts).

(** [main] after the arguments are parsed: the exit code. *)
Definition main (target_snapshot draft_snapshot : snapshot) (tp_size draft_tp_size : Z) (active_experts : list Z)
    (accepted_per_step : option Q) : res Z :=
  if (tp_size <? draft_tp_size)%Z then Raise (SystemExit "--draft-tp-size cannot exceed --tp-size")
  else if match accepted_per_step with Some a => Qltb a 0 | None => false end then Raise (SystemExit "--accepted-per-step must be >= 0")
  else
    report ← build_report target_snapshot draft_snapshot tp_size draft_tp_size active_experts accepted_per_step;
    Ok (match unclassified report with [] => 0%Z | _ => 2%Z end).

End report.

(** ** The header check *)

(** A byte of the payload in a range. *)
Definition holds (i : Z) (r : Z * Z * string) : bool := ((r.1.1 <=? i) && (i <? r.1.2))%Z.

Definition bounded (lo hi : Z) (r : Z * Z * string) : Prop := (lo <= r.1.1 /\ r.1.1 <= r.1.2 /\ r.1.2 <= hi)%Z.

(** The ranges cut [lo, hi) up: every byte is in one range, and an empty range splits none. *)
Record partition (lo hi : Z) (ranges : list (Z * Z * string)) : Prop := Partition {
  part_bounds : (lo <= hi)%Z;
  part_in : Forall (bounded lo hi) ranges;
  part_once : forall i, (lo <= i < hi)%Z -> length (base.filter (fun r => holds i r) ranges) = 1;
  part_empty : forall r e, r ∈ ranges -> e ∈ ranges -> e.1.1 = e.1.2 -> ~ (r.1.1 < e.1.1 < r.1.2)%Z
}.

Lemma partition_perm lo hi l k : l ≡ₚ k -> partition lo hi l -> partition lo hi k.
Proof.
  intros Hp [Hb Hi Ho He]. split; [done | by rewrite <- Hp | |].
  - intros i H. by rewrite <- Hp, Ho.
  - intros r e Hr Hein. rewrite <- Hp in Hr, Hein. by apply He.
Qed.

Lemma range_le_iff a b : range_le a b <->
  (a.1.1 < b.1.1)%Z \/ a.1.1 = b.1.1 /\ ((a.1.2 < b.1.2)%Z \/ a.1.2 = b.1.2 /\ String.le a.2 b.2).
Proof.
  unfold range_le, range_lt, String.le. rewrite Is_true_true. destruct a as [[a1 a2] an], b as [[b1 b2] bn]. cbn [fst snd].
  destruct (Z.ltb_spec b1 a1), (Z.eqb_spec b1 a1), (Z.ltb_spec b2 a2), (Z.eqb_spec b2 a2), (String.leb an bn); simpl;
    split; try done; try lia; intros [?|[? [?|[? ?]]]]; try done; lia.
Qed.

#[global] Instance range_le_trans : Transitive range_le.
Proof.
  intros a b c. rewrite !range_le_iff. intros [H|[E [H|[F H]]]] [H'|[E' [H'|[F' H']]]].
  all: try (left; lia). all: right; split; [lia |]. all: try (left; lia). right. split; [lia | by trans b.2].
Qed.

#[global] Instance range_le_total : Total range_le.
Proof.
  intros a b. rewrite !range_le_iff. destruct (Z.lt_trichotomy a.1.1 b.1.1) as [H|[E|H]]; [by left; left | | by right; left].
  destruct (Z.lt_trichotomy a.1.2 b.1.2) as [H|[F|H]]; [left; auto | | right; auto].
  destruct (total String.le a.2 b.2); [left | right]; right; auto.
Qed.

Lemma filter_zero (i : Z) (ranges : list (Z * Z * string)) : Forall (fun r => (i < r.1.1)%Z) ranges ->
  base.filter (fun r => holds i r) ranges = [].
Proof.
  intros H. apply list_filter_none. intros r Hr Hh. rewrite Forall_forall in H. specialize (H r Hr).
  apply Is_true_true, andb_true_iff in Hh as [Hh _]. lia.
Qed.

Lemma holds_iff i r : holds i r <-> (r.1.1 <= i < r.1.2)%Z.
Proof. unfold holds. rewrite Is_true_true, andb_true_iff, Z.leb_le, Z.ltb_lt. done. Qed.

(** A first range from [lo] on, and a partition of the rest. *)
Lemma partition_grow lo stop name hi ranges : (lo <= stop)%Z -> partition stop hi ranges -> partition lo hi ((lo, stop, name) :: ranges).
Proof.
  intros Hr [Hb Hi Ho He].
  assert (Hall : Forall (fun r => (stop <= r.1.1)%Z) ranges) by (eapply Forall_impl; [exact Hi | by intros x [? ?]]).
  split; [lia | | |].
  - constructor; [unfold bounded; cbn; lia |]. eapply Forall_impl; [exact Hi |]. unfold bounded. lia.
  - intros i Hin. rewrite filter_cons. destruct (base.decide (holds i (lo, stop, name))) as [Hh|Hh]; rewrite holds_iff in Hh; cbn in Hh.
    + rewrite filter_zero; [done |]. eapply Forall_impl; [exact Hall |]. cbn. lia.
    + apply Ho. lia.
  - intros r e [->|Hrin]%elem_of_cons [->|Hein]%elem_of_cons Hz; cbn in *; try lia.
    + rewrite Forall_forall in Hall. specialize (Hall e Hein). lia.
    + rewrite Forall_forall in Hall. specialize (Hall r Hrin). lia.
    + by apply He.
Qed.

(** In a partition no later range starts inside the first one. *)
Lemma partition_starts lo stop name hi ranges : partition lo hi ((lo, stop, name) :: ranges) ->
  Forall (range_le (lo, stop, name)) ranges -> Forall (fun r => (stop <= r.1.1)%Z) ranges.
Proof.
  intros [Hb Hi Ho He] Hle. apply Forall_cons in Hi as [Hi1 Hi]. unfold bounded in Hi1. cbn in Hi1.
  apply Forall_forall. intros x Hx. rewrite Forall_forall in Hle, Hi. specialize (Hle x Hx). apply range_le_iff in Hle. cbn in Hle.
  specialize (Hi x Hx). unfold bounded in Hi. destruct (Z.le_gt_cases stop x.1.1) as [|Hlt]; [done | exfalso].
  destruct (Z.eq_dec x.1.1 x.1.2) as [Ez|Hnz].
  - apply (He (lo, stop, name) x); [left | by right | done | cbn; lia].
  - specialize (Ho x.1.1 ltac:(lia)). rewrite filter_cons, decide_True in Ho by (rewrite holds_iff; cbn; lia).
    assert (Hin : x ∈ base.filter (fun r => holds x.1.1 r) ranges) by (apply list_elem_of_filter; rewrite holds_iff; split; [lia | done]).
    destruct (base.filter _ ranges); [set_solver | done].
Qed.

Lemma partition_shrink lo stop name hi ranges : Forall (range_le (lo, stop, name)) ranges ->
  partition lo hi ((lo, stop, name) :: ranges) -> partition stop hi ranges.
Proof.
  intros Hle Hp. pose proof (partition_starts _ _ _ _ _ Hp Hle) as Hall. destruct Hp as [Hb Hi Ho He].
  apply Forall_cons in Hi as [Hi1 Hi]. unfold bounded in Hi1. cbn in Hi1. split; [lia | | |].
  - apply Forall_forall. intros x Hx. rewrite Forall_forall in Hall, Hi. specialize (Hall x Hx). specialize (Hi x Hx).
    unfold bounded in *. lia.
  - intros i Hin. specialize (Ho i ltac:(lia)). rewrite filter_cons, decide_False in Ho; [done |]. rewrite holds_iff. cbn. lia.
  - intros r e Hrin Hein. apply He; by right.
Qed.

(** The sweep over sorted ranges succeeds exactly on a partition. *)
Lemma sweep_partition ranges lo hi : Sorted.StronglySorted range_le ranges -> Forall (fun r => (r.1.1 <= r.1.2)%Z) ranges ->
  (sweep lo ranges = Ok hi <-> partition lo hi ranges).
Proof.
  intros Hs. revert lo. induction Hs as [|[[start stop] name] ranges Hs IH Hle]; intros lo Hw.
  - simpl. split; intros H.
    + injection H as ->. split; [lia | done | lia | set_solver].
    + destruct H as [Hb _ Ho _]. destruct (Z.eq_dec lo hi) as [->|Hne]; [done |].
      specialize (Ho lo ltac:(lia)). done.
  - apply Forall_cons in Hw as [Hr Hw]. specialize (fun lo => IH lo Hw). cbn [sweep]. cbn in Hr.
    destruct (Z.eqb_spec start lo) as [->|Hne].
    { rewrite IH. split; [by apply partition_grow | by apply partition_shrink]. }
    split; [done |]. intros [Hb Hi Ho _]. exfalso. apply Forall_cons in Hi as [Hi1 Hi]. unfold bounded in Hi1. cbn in Hi1.
    specialize (Ho lo ltac:(lia)). rewrite filter_zero in Ho; [done |]. constructor; [cbn; lia |].
    eapply Forall_impl; [exact Hle |]. intros x Hx. apply range_le_iff in Hx. cbn in Hx. lia.
Qed.

(** An entry of the header that names [stop - start] bytes of the payload, and as many as its shape and dtype need. *)
Definition valid_entry (payload_bytes : Z) (entry : json) (start stop : Z) : Prop :=
  exists d t width shape, entry = JDict d /\ dict_get "dtype" d = Some (JStr t) /\ dict_find t DTYPE_BYTES = Some width /\
    dict_get "shape" d = Some (JList (map JInt shape)) /\ Forall (Z.le 0) shape /\
    dict_get "data_offsets" d = Some (JList [JInt start; JInt stop]) /\ (0 <= start /\ start <= stop /\ stop <= payload_bytes)%Z /\
    (stop - start = fold_left Z.mul shape 1 * width)%Z.

Lemma strict_ints_Some l zs : strict_ints l = Some zs <-> l = map JInt zs.
Proof.
  revert zs. induction l as [|v l IH]; intros zs; simpl.
  - split; [by intros [= <-] | by destruct zs].
  - split.
    + destruct v; simpl; try done. destruct (strict_ints l) as [zs'|]; simpl; [| done]. intros [= <-]. simpl.
      f_equal. by apply IH.
    + destruct zs as [|z zs]; [done |]. intros [= -> ->]. simpl. by rewrite (proj2 (IH zs) eq_refl).
Qed.

Lemma forallb_Zle l : forallb (Z.leb 0) l = true <-> Forall (Z.le 0) l.
Proof. rewrite forallb_forall, Forall_forall. setoid_rewrite <- list_elem_of_In. by setoid_rewrite Z.leb_le. Qed.

Lemma validate_Ok entry payload_bytes r : validate_tensor_entry entry payload_bytes = Ok r <-> valid_entry payload_bytes entry r.1 r.2.
Proof.
  destruct r as [a b]. split.
  - destruct entry as [| | | | | | |d]; try done. unfold validate_tensor_entry. intros E. apply bind_Ok in E as (width & Ew & E).
    destruct (dict_get "shape" d) as [[| | | | | |shape |]|] eqn:Es; try done.
    destruct (strict_ints shape) as [zs|] eqn:Ez; [| done]. apply strict_ints_Some in Ez as ->.
    destruct (forallb _ zs) eqn:Ef; [| done]. apply forallb_Zle in Ef. simpl in E.
    destruct (dict_get "data_offsets" d) as [[| | | | | |[|[| |start| | | | |] [|[| |stop| | | | |] [|]]]|]|] eqn:Eo; try done.
    destruct (Z.ltb_spec start 0), (Z.ltb_spec stop start), (Z.ltb_spec payload_bytes stop); try done. simpl in E.
    destruct (Z.eqb_spec (stop - start) (fold_left Z.mul zs 1%Z * width)); [| done]. injection E as <- <-.
    unfold dtype_width in Ew. destruct (dict_get "dtype" d) as [[| | | | |t| |]|] eqn:Et; try done.
    destruct (dict_find t DTYPE_BYTES) eqn:Ed; [| done]. injection Ew as ->. by exists d, t, width, zs.
  - intros (d & t & width & zs & -> & Et & Ed & Es & Hz & Eo & (H1 & H2 & H3) & Hb). cbn [fst snd] in *. unfold validate_tensor_entry.
    rewrite Et. unfold dtype_width. rewrite Ed. cbn [mbind res_bind of_option]. rewrite Es, (proj2 (strict_ints_Some _ zs) eq_refl).
    rewrite (proj2 (forallb_Zle zs) Hz). cbn [negb]. rewrite Eo.
    destruct (Z.ltb_spec a 0), (Z.ltb_spec b a), (Z.ltb_spec payload_bytes b); try lia. cbn [orb].
    by rewrite Hb, Z.eqb_refl.
Qed.

Definition is_tensor (p : string * json) : Prop := p.1 <> "__metadata__".
Definition metadata_ok (p : string * json) : Prop := p.1 = "__metadata__" -> exists d, p.2 = JDict d.
Definition spans (payload_bytes : Z) (p : string * json) (r : Z * Z * string) : Prop :=
  r.2 = p.1 /\ valid_entry payload_bytes p.2 r.1.1 r.1.2.
#[global] Instance is_tensor_dec p : Decision (is_tensor p).
Proof. unfold is_tensor. apply _. Defined.

Lemma header_ranges_Ok items payload_bytes ranges : header_ranges items payload_bytes = Ok ranges <->
  Forall metadata_ok items /\ Forall2 (spans payload_bytes) (base.filter is_tensor items) ranges.
Proof.
  revert ranges. induction items as [|[name entry] items IH]; intros ranges; simpl.
  - split; [intros [= <-]; split; constructor | intros [_ H]; by inversion H].
  - rewrite Forall_cons, filter_cons. destruct (String.eqb_spec name "__metadata__") as [->|Hne].
    + rewrite decide_False by (unfold is_tensor; naive_solver). unfold metadata_ok at 1. cbn [fst snd].
      destruct entry; try (split; [done | intros [[Hm _] _]; by destruct (Hm eq_refl)]). rewrite IH. naive_solver.
    + rewrite decide_True by done. unfold metadata_ok at 1. cbn [fst snd]. split.
      * intros E. apply bind_Ok in E as ([a b] & Ev & E). apply bind_Ok in E as (rs & Er & E). injection E as <-.
        apply IH in Er as [Hm Hf]. split; [by split |]. constructor; [| done]. split; [done |]. by apply (validate_Ok _ _ (a, b)).
      * intros [[_ Hm] Hf]. inversion Hf as [|? [[a b] n] ? rs [Hn Hv] Hrs]; subst. cbn in Hn, Hv. subst n.
        rewrite (proj2 (validate_Ok entry payload_bytes (a, b)) Hv). cbn [mbind res_bind].
        by rewrite (proj2 (IH rs) (conj Hm Hrs)).
Qed.

(** ** Files *)

Lemma take_str_app a b : take_str (String.length a) (a ++ b) = a.
Proof. induction a as [|c a IH]; [by destruct b |]. change (String c a ++ b) with (String c (a ++ b)). simpl. by rewrite IH. Qed.

Lemma le_val_nonneg raw : (0 <= le_val raw)%Z.
Proof. induction raw; simpl; lia. Qed.

(** The length of the header, its text, and a payload that its tensors cut up. *)
Definition well_formed (chr : Z -> string) (file : string) (items : list (string * json)) : Prop :=
  exists raw header payload d ranges, file = raw ++ header ++ payload /\ String.length raw = 8 /\
    le_val raw = Z.of_nat (String.length header) /\ json_loads chr header = Ok (JDict d) /\ items = dict_of d /\
    Forall metadata_ok items /\
    let payload_bytes := Z.of_nat (String.length payload) in
    Forall2 (spans payload_bytes) (base.filter is_tensor items) ranges /\ partition 0 payload_bytes ranges.

Lemma spans_wide payload_bytes items ranges : Forall2 (spans payload_bytes) items ranges -> Forall (fun r => (r.1.1 <= r.1.2)%Z) ranges.
Proof. induction 1 as [|p r items ranges [_ (d & t & w & z & H)] _ IH]; constructor; [tauto | done]. Qed.

Lemma swept_ranges payload_bytes items ranges hi : Forall2 (spans payload_bytes) items ranges ->
  sweep 0 (merge_sort range_le ranges) = Ok hi <-> partition 0 hi ranges.
Proof.
  intros Hf. pose proof (merge_sort_Permutation range_le ranges) as Hp. rewrite sweep_partition.
  - split; apply partition_perm; [done | by symmetry].
  - apply StronglySorted_merge_sort; apply _.
  - rewrite Hp. by eapply spans_wide.
Qed.

(** The header reader accepts exactly the well-formed files: eight bytes
    of length, that much JSON, and a payload of which every byte belongs to one tensor, each tensor
    as long as its shape and dtype say.  A gap, an overlap, a byte too few or too many, a
    negative or a bool where a size is due: every one of them is refused. *)
Theorem read_header_iff chr file items : read_header chr file = Ok items <-> well_formed chr file items.
Proof.
  unfold read_header. split.
  - set (raw := take_str 8 file). destruct (Nat.eqb_spec (String.length raw) 8) as [Hraw|]; [| done]. cbn [negb].
    set (header := take_str _ _). destruct (Z.eqb_spec (Z.of_nat (String.length header)) (le_val raw)) as [Hh|]; [| done]. cbn [negb].
    intros E. apply bind_Ok in E as (v & Ev & E). destruct v as [| | | | | | |d]; try done. cbv zeta in E.
    apply bind_Ok in E as (ranges & Er & E). apply bind_Ok in E as (previous_end & Es & E).
    destruct (Z.eqb_spec previous_end (Z.of_nat (String.length file) - 8 - le_val raw)) as [->|]; [| done]. injection E as <-.
    set (payload := drop_str (Z.to_nat (le_val raw)) (drop_str 8 file)).
    assert (Hfile : file = raw ++ header ++ payload) by (unfold raw, header, payload; by rewrite !take_drop_str).
    assert (Hlen : (Z.of_nat (String.length file) - 8 - le_val raw)%Z = Z.of_nat (String.length payload)).
    { rewrite Hfile at 1. rewrite !length_app_str. lia. }
    rewrite Hlen in *. apply header_ranges_Ok in Er as [Hm Hf]. exists raw, header, payload, d, ranges.
    do 6 (split; [done |]). split; [done |]. by apply (swept_ranges _ _ _ _ Hf).
  - intros (raw & header & payload & d & ranges & -> & Hraw & Hh & Ev & -> & Hm & Hf & Hp).
    rewrite <- Hraw, take_str_app, drop_app, Hraw, Nat.eqb_refl. cbn [negb].
    rewrite Hh, Nat2Z.id, take_str_app, Z.eqb_refl. cbn [negb]. rewrite Ev. cbn [mbind res_bind]. cbv zeta.
    assert (Hlen : (Z.of_nat (String.length (raw ++ header ++ payload)) - 8 - Z.of_nat (String.length header))%Z
      = Z.of_nat (String.length payload)) by (rewrite !length_app_str; lia).
    rewrite Hlen, (proj2 (header_ranges_Ok _ _ _) (conj Hm Hf)). cbn [mbind res_bind].
    rewrite (proj2 (swept_ranges _ _ _ _ Hf) Hp). cbn [mbind res_bind]. by rewrite Z.eqb_refl.
Qed.

(** ** Traffic *)

(** The [n] first of a descending list are worth at least as much as any [n] of it. *)
Lemma top_worth l picked n : Sorted.StronglySorted descending l -> Forall (Qle 0) l -> picked ⊆+ l -> length picked <= n ->
  (Qsum picked <= Qsum (take n l))%Q.
Proof.
  intros Hs. revert picked n. induction Hs as [|x l Hs IH Hx]; intros picked n Hpos Hsub Hn.
  - apply submseteq_nil_r in Hsub as ->. by destruct n.
  - apply Forall_cons in Hpos as [Hx0 Hpos]. destruct picked as [|y picked].
    { clear -Hx0 Hpos. assert (H : Forall (Qle 0) (take n (x :: l))) by (apply Forall_take; by constructor).
      induction H as [|z k Hz _ IH]; simpl; [lra |]. simpl in IH. lra. }
    destruct n as [|n]; simpl in Hn; [lia |]. simpl. apply submseteq_cons_r in Hsub as [Hsub|(k & Hp & Hsub)].
    + assert (Hy : (y <= x)%Q).
      { rewrite Forall_forall in Hx. apply Hx. eapply elem_of_submseteq; [left | exact Hsub]. }
      assert (Hrest : picked ⊆+ l) by (etrans; [apply submseteq_cons; reflexivity | exact Hsub]).
      specialize (IH picked n Hpos Hrest ltac:(lia)). lra.
    + pose proof (Qsum_perm _ _ Hp) as E. simpl in E. apply Permutation_length in Hp. simpl in Hp.
      specialize (IH k n Hpos Hsub ltac:(lia)). lra.
Qed.

#[global] Instance descending_trans : Transitive descending.
Proof. intros a b c. unfold descending. lra. Qed.
#[global] Instance descending_total : Total descending.
Proof. intros a b. unfold descending. destruct (Qlt_le_dec a b); [right; lra | by left]. Qed.

Lemma slice_to_take {A} n (l : list A) : (0 <= n)%Z -> slice_to n l = take (Z.to_nat n) l.
Proof. intros H. unfold slice_to. destruct (Z.ltb_spec n 0); [lia | done]. Qed.

(** *** The routed experts of a step *)

(** Where a tensor's bytes go: a layer and an expert, for a routed one. *)
Definition routed_slot (t : tensor_info) : option (Z * Z) :=
  if String.eqb (category t) "target.routed_experts" then layer_expert (t_name t) else None.

(** [chosen layer]: the experts a step activates there. *)
Definition activated (chosen : Z -> list Z) (t : tensor_info) : bool :=
  match routed_slot t with Some (layer, expert) => bool_decide (expert ∈ chosen layer) | None => false end.

Definition picked (experts : list Z) (es : list (Z * Q)) : list (Z * Q) := base.filter (fun p => p.1 ∈ experts) es.
Definition picked_bytes (experts : list Z) (es : list (Z * Q)) : Q := Qsum (map snd (picked experts es)).

Definition slot_bytes (experts : list Z) (expert : Z) (bytes : Q) : Q := if bool_decide (expert ∈ experts) then bytes else 0.

Lemma picked_sum experts es : (picked_bytes experts es == Qsum (map (fun p => slot_bytes experts p.1 p.2) es))%Q.
Proof.
  unfold picked_bytes, picked, slot_bytes. induction es as [|p es IH]; [done |]. rewrite filter_cons. simpl.
  case_decide as H; [rewrite bool_decide_eq_true_2 by done | rewrite bool_decide_eq_false_2 by done]; simpl; rewrite IH; lra.
Qed.

Lemma picked_add experts expert bytes l :
  (picked_bytes experts (add_expert expert bytes l) == slot_bytes experts expert bytes + picked_bytes experts (default [] l))%Q.
Proof.
  rewrite !picked_sum. unfold add_expert.
  apply (dict_update_sum (slot_bytes experts)); intros; unfold slot_bytes; case_bool_decide; simpl; lra.
Qed.

(** The loop's dict: keys once, no negative bytes, and the bytes of any choice of experts. *)
Record layers_ok (tensors : list tensor_info) (d : list (Z * list (Z * Q))) : Prop := LayersOk {
  lay_keys : NoDup (map fst d);
  lay_experts : Forall (fun p => NoDup (map fst p.2) /\ Forall (fun e => 0 <= e.2)%Q p.2) d;
  lay_bytes : forall chosen, (Qsum (map rank_bytes_of (base.filter (fun t => activated chosen t) tensors)) ==
    Qsum (map (fun p => picked_bytes (chosen p.1%core) p.2) d))%Q
}.

Lemma add_expert_ok expert bytes l : (0 <= bytes)%Q -> NoDup (map fst (default [] l)) /\ Forall (fun e => 0 <= e.2)%Q (default [] l) ->
  NoDup (map fst (add_expert expert bytes l)) /\ Forall (fun e => 0 <= e.2)%Q (add_expert expert bytes l).
Proof.
  intros Hb [Hk Hp]. split; [by apply dict_update_nodup |]. apply dict_update_Forall; [done | by rewrite Qplus_0_l |].
  intros v Hv. cbn [snd default from_option] in *. change (id v) with v. lra.
Qed.

Lemma routed_layers_ok tensors : Forall (fun t => 0 <= rank_bytes_of t)%Q tensors -> layers_ok tensors (routed_bytes_by_layer tensors).
Proof.
  intros Hpos. unfold routed_bytes_by_layer. rewrite <- (app_nil_l tensors) at 1.
  assert (H0 : layers_ok [] []) by (split; [apply NoDup_nil_2 | constructor | intros chosen; reflexivity]).
  revert H0. generalize ([] : list (Z * list (Z * Q))). generalize ([] : list tensor_info).
  induction Hpos as [|t tensors Ht Hpos IH]; intros seen d Hd; [by rewrite app_nil_r |].
  change (t :: tensors) with ([t] ++ tensors)%list. rewrite (assoc_L app). apply IH. clear IH.
  assert (Hno : routed_slot t = None -> layers_ok (seen ++ [t]) d).
  { intros E. destruct Hd as [H1 H2 H3]. split; [done | done |]. intros chosen. rewrite filter_app, filter_cons, filter_nil.
    rewrite decide_False; [by rewrite app_nil_r |]. intros Hact. unfold activated in Hact. by rewrite E in Hact. }
  unfold routed_slot in Hno. destruct (String.eqb (category t) "target.routed_experts") eqn:Ec; [| by apply Hno].
  destruct (layer_expert (t_name t)) as [[layer expert]|] eqn:El; [| by apply Hno]. clear Hno. destruct Hd as [H1 H2 H3]. split.
  - by apply dict_update_nodup.
  - apply dict_update_Forall; [done | |].
    + apply (add_expert_ok expert _ None); [done | split; [apply NoDup_nil_2 | constructor]].
    + intros v Hv. by apply (add_expert_ok expert _ (Some v)).
  - intros chosen. rewrite filter_app, map_app, Qsum_app, H3, filter_cons, filter_nil.
    rewrite (dict_update_sum (fun k es => picked_bytes (chosen k) es) layer _ (slot_bytes (chosen layer) expert (rank_bytes_of t))).
    + assert (Ha : activated chosen t = bool_decide (expert ∈ chosen layer)) by (unfold activated, routed_slot; by rewrite Ec, El).
      rewrite Ha. unfold slot_bytes. destruct (bool_decide (expert ∈ chosen layer)); simpl; lra.
    + rewrite picked_add. unfold picked_bytes at 1. simpl. lra.
    + intros v. rewrite picked_add. simpl. lra.
Qed.

Lemma picked_length experts es : NoDup (map fst es) -> length (picked experts es) <= length experts.
Proof.
  intros Hk. rewrite <- (length_map fst). apply submseteq_length, NoDup_submseteq.
  - unfold picked. by apply (NoDup_fmap_filter fst).
  - intros x (p & -> & [Hp _]%list_elem_of_filter)%list_elem_of_fmap. done.
Qed.

Lemma filter_submseteq_map {A B} (f : A -> B) (P : A -> Prop) `{!forall x, Decision (P x)} l : map f (base.filter P l) ⊆+ map f l.
Proof. apply fmap_submseteq. apply sublist_submseteq. induction l; [done |]. rewrite filter_cons. case_decide; by constructor. Qed.

(** No choice of [active] experts streams more than the estimate. *)
Lemma layer_worst experts es active : (0 <= active)%Z -> (Z.of_nat (length experts) <= active)%Z ->
  NoDup (map fst es) -> Forall (fun e => 0 <= e.2)%Q es -> (picked_bytes experts es <= layer_bytes active es)%Q.
Proof.
  intros Ha Hl Hk Hp. unfold layer_bytes. rewrite slice_to_take by done. pose proof (merge_sort_Permutation descending (map snd es)) as Hperm.
  apply top_worth.
  - apply StronglySorted_merge_sort; apply _.
  - rewrite Hperm. by apply Forall_map.
  - rewrite Hperm. apply filter_submseteq_map.
  - rewrite length_map. pose proof (picked_length experts es Hk). lia.
Qed.

(** The experts with the most bytes. *)
Definition heavier (a b : Z * Q) : Prop := Qle b.2 a.2.
#[global] Instance heavier_dec : RelDecision heavier.
Proof. intros a b. unfold heavier. apply _. Defined.
#[global] Instance heavier_trans : Transitive heavier.
Proof. intros a b c. unfold heavier. lra. Qed.
#[global] Instance heavier_total : Total heavier.
Proof. intros a b. unfold heavier. destruct (Qlt_le_dec a.2 b.2); [right; lra | by left]. Qed.

Definition heaviest (active : Z) (es : list (Z * Q)) : list Z := map fst (take (Z.to_nat active) (merge_sort heavier es)).

Lemma same_key (es : list (Z * Q)) p q : NoDup (map fst es) -> p ∈ es -> q ∈ es -> p.1 = q.1 -> p = q.
Proof.
  induction es as [|e es IH]; intros Hk Hp Hq E; [set_solver |]. apply NoDup_cons in Hk as [Hne Hk].
  apply elem_of_cons in Hp as [->|Hp]; apply elem_of_cons in Hq as [->|Hq]; [done | | | by apply IH].
  - destruct Hne. rewrite E. by apply (list_elem_of_fmap_2 fst).
  - destruct Hne. rewrite <- E. by apply (list_elem_of_fmap_2 fst).
Qed.

(** Choosing some of the entries by key picks exactly them. *)
Lemma picked_top es top : NoDup (map fst es) -> top ⊆+ es -> NoDup top -> picked (map fst top) es ≡ₚ top.
Proof.
  intros Hk Hsub Hnd. apply NoDup_Permutation; [by apply NoDup_filter, (NoDup_fmap_1 fst) | done |].
  intros p. unfold picked. rewrite list_elem_of_filter. split.
  - intros [(q & E & Hq)%list_elem_of_fmap Hin]. rewrite (same_key es p q); [done | done | done | by eapply elem_of_submseteq | done].
  - intros Hin. split; [by apply (list_elem_of_fmap_2 fst) | by eapply elem_of_submseteq].
Qed.

Lemma sorted_map_snd l : Sorted.StronglySorted heavier l -> Sorted.StronglySorted descending (map snd l).
Proof. induction 1 as [|x l _ IH Hx]; simpl; constructor; [done | by apply Forall_map]. Qed.

Lemma heaviest_bytes active es : (0 <= active)%Z -> NoDup (map fst es) -> Forall (fun e => 0 <= e.2)%Q es ->
  (picked_bytes (heaviest active es) es == layer_bytes active es)%Q.
Proof.
  intros Ha Hk Hp. set (all := merge_sort heavier es). set (top := take (Z.to_nat active) all).
  assert (Hperm : all ≡ₚ es) by apply merge_sort_Permutation.
  assert (Hsub : top ⊆+ es) by (rewrite <- Hperm; apply sublist_submseteq, sublist_take).
  assert (Hnd : NoDup top).
  { eapply sublist_NoDup; [| apply sublist_take]. rewrite Hperm. by apply (NoDup_fmap_1 fst). }
  unfold picked_bytes. change (heaviest active es) with (map fst top). rewrite (Qsum_perm _ _ (Permutation_map snd (picked_top es top Hk Hsub Hnd))).
  unfold layer_bytes. rewrite slice_to_take by done. unfold top.
  assert (Emap : map snd (take (Z.to_nat active) all) = take (Z.to_nat active) (map snd all)) by apply (fmap_take snd). rewrite Emap.
  assert (Hs : Sorted.StronglySorted descending (map snd all)) by (apply sorted_map_snd, StronglySorted_merge_sort; apply _).
  assert (Hpos : Forall (Qle 0) (map snd es)) by (by apply Forall_map).
  assert (Hall : map snd all ≡ₚ map snd es) by (by apply Permutation_map).
  pose proof (merge_sort_Permutation descending (map snd es)) as Hd.
  apply Qle_antisym; apply top_worth.
  - apply StronglySorted_merge_sort; apply _.
  - by rewrite Hd.
  - etrans; [apply sublist_submseteq, sublist_take |]. by rewrite Hd, Hall.
  - rewrite length_take. lia.
  - done.
  - by rewrite Hall.
  - etrans; [apply sublist_submseteq, sublist_take |]. by rewrite Hd, Hall.
  - rewrite length_take. lia.
Qed.

Definition streamed (chosen : Z -> list Z) (tensors : list tensor_info) : Q :=
  Qsum (map rank_bytes_of (base.filter (fun t => activated chosen t) tensors)).

Lemma Qsum_le {A} (f g : A -> Q) l : (forall x, x ∈ l -> f x <= g x)%Q -> (Qsum (map f l) <= Qsum (map g l))%Q.
Proof.
  induction l as [|x l IH]; intros H; simpl; [lra |]. pose proof (H x ltac:(left)).
  specialize (IH (fun y Hy => H y ltac:(by right))). lra.
Qed.

(** The routed bytes of a scenario are the worst case, and no more: however
    a step routes, if it activates at most [active] experts in each layer, the tensors of
    those experts hold at most that many bytes; and some routing of that kind streams
    exactly as many. *)
Theorem routed_is_worst_case tensors active : (0 <= active)%Z -> Forall (fun t => 0 <= rank_bytes_of t)%Q tensors ->
  (forall chosen, (forall layer, Z.of_nat (length (chosen layer)) <= active)%Z -> (streamed chosen tensors <= routed_estimate tensors active)%Q) /\
  exists chosen, (forall layer, Z.of_nat (length (chosen layer)) <= active)%Z /\ (streamed chosen tensors == routed_estimate tensors active)%Q.
Proof.
  intros Ha Hpos. destruct (routed_layers_ok tensors Hpos) as [Hk He Hb]. unfold streamed, routed_estimate.
  rewrite Forall_forall in He. split.
  - intros chosen Hlen. rewrite Hb. apply Qsum_le. intros p Hp. destruct (He p Hp). by apply layer_worst.
  - exists (fun layer => match dict_find layer (routed_bytes_by_layer tensors) with Some es => heaviest active es | None => [] end).
    split.
    + intros layer. destruct (dict_find _ _) as [es|]; [| simpl; lia]. unfold heaviest. rewrite length_map, length_take. lia.
    + rewrite Hb. apply Qle_antisym; apply Qsum_le; intros p Hp; destruct (He p Hp);
        rewrite (dict_find_in _ p.1 p.2) by (destruct p; done); rewrite heaviest_bytes by done; lra.
Qed.

(** ** Residency *)

Definition group_total (groups : list (string * group)) : Z := Zsum (map (fun p => g_disk_bytes p.2) groups).

Lemma Zsum_perm l k : l ≡ₚ k -> Zsum l = Zsum k.
Proof. induction 1; simpl; unfold Zsum in *; simpl in *; lia. Qed.

Lemma add_tensor_total t d : group_total (dict_update (category t) (add_tensor t) d) = (disk_bytes t + group_total d)%Z.
Proof.
  unfold group_total, Zsum. induction d as [|[k g] d IH]; simpl; [lia |]. case_bool_decide; simpl; [lia | rewrite IH; lia].
Qed.

Lemma aggregate_conserves tensors : group_total (aggregate tensors) = Zsum (map disk_bytes tensors) /\
  sum_list_with (fun p => tensor_count p.2) (aggregate tensors) = length tensors /\
  (Qsum (map (fun p => g_rank_bytes p.2) (aggregate tensors)) == resident tensors)%Q.
Proof.
  unfold aggregate. set (d := fold_left _ tensors []). pose proof (merge_sort_Permutation by_key d) as Hp.
  unfold group_total. rewrite (Zsum_perm _ _ (Permutation_map _ Hp)), (Qsum_perm _ _ (Permutation_map (fun p => g_rank_bytes p.2) Hp)).
  assert (Hc : sum_list_with (fun p => tensor_count p.2) (merge_sort by_key d) = sum_list_with (fun p => tensor_count p.2) d)
    by (clear -Hp; induction Hp; simpl; lia). rewrite Hc. clear Hp Hc.
  fold (group_total d). unfold d. clear d.
  enough (H : forall d, let d' := fold_left (fun d t => dict_update (category t) (add_tensor t) d) tensors d in
    group_total d' = (group_total d + Zsum (map disk_bytes tensors))%Z /\
    sum_list_with (fun p => tensor_count p.2) d' = sum_list_with (fun p => tensor_count p.2) d + length tensors /\
    (Qsum (map (fun p => g_rank_bytes p.2) d') == Qsum (map (fun p => g_rank_bytes p.2) d) + resident tensors)%Q).
  { destruct (H []) as (H1 & H2 & H3). split_and!; [done | done |]. rewrite H3. unfold Qsum at 1. simpl. lra. }
  unfold resident. induction tensors as [|t tensors IH]; intros d; simpl; [split_and!; [unfold Zsum; simpl; lia | lia | lra] |].
  destruct (IH (dict_update (category t) (add_tensor t) d)) as (H1 & H2 & H3). rewrite H1, H2, H3, add_tensor_total.
  rewrite (dict_update_count tensor_count _ _ 1) by (intros [g|]; simpl; lia).
  rewrite (dict_update_us g_rank_bytes _ _ (rank_bytes_of t)) by (intros [g|]; simpl; lra).
  split_and!; [unfold Zsum; simpl; lia | lia | lra].
Qed.

Lemma shard_bounds tp : (1 <= tp)%Z -> (0 <= shard tp <= 1)%Q /\ (inject_Z tp * shard tp == 1)%Q.
Proof.
  intros H. unfold shard. assert (Hp : (1 <= inject_Z tp)%Q) by (change 1%Q with (inject_Z 1); by rewrite <- Zle_Qle).
  split; [split |].
  - apply Qle_shift_div_l; lra.
  - apply Qle_shift_div_r; lra.
  - field. lra.
Qed.

(** A rank holds all of a tensor, its share of it, or nothing of a tensor that is not loaded. *)
Definition held (tp : Z) (category : string) (fraction : Q) : Prop :=
  if String.eqb category "target.mtp_unused_dflash" then fraction = 0%Q else fraction = 1%Q \/ fraction = shard tp.

Lemma target_geometry_held name category tp : held tp category (target_geometry name category tp).1.
Proof.
  unfold held, target_geometry, routed_geometry.
  destruct (String.eqb category "target.mtp_unused_dflash"); [done |].
  repeat match goal with |- context [if ?b then _ else _] => destruct b; try (by left); try (by right) end.
Qed.

Definition loaded (target : list tensor_info) : Q :=
  Qsum (map (fun t => if String.eqb (category t) "target.mtp_unused_dflash" then 0 else inject_Z (disk_bytes t))%Q target).

Definition tensor_ok (tp : Z) (t : tensor_info) : Prop := (0 <= disk_bytes t)%Z /\ held tp (category t) (rank_fraction t).

Lemma tensor_bytes_nonneg entry n : tensor_bytes entry = Ok n -> (0 <= n)%Z.
Proof.
  unfold tensor_bytes. destruct (dict_get "data_offsets" entry) as [[| | | | | |[|a [|b [|]]]|]|]; try done.
  destruct (as_int a) as [x|], (as_int b) as [y|]; try done. destruct (Z.ltb_spec x 0), (Z.ltb_spec y x); try done.
  intros [= <-]. lia.
Qed.

Lemma collect_target_ok chr py_str s tp target : collect_target chr py_str s tp = Ok target -> Forall (tensor_ok tp) target.
Proof.
  unfold collect_target. intros E. apply bind_Ok in E as (text & _ & E). apply bind_Ok in E as (config & _ & E).
  apply bind_Ok in E as (tensors & _ & E). apply mapM_Ok in E. induction E as [|p t tensors target Ht _ IH]; constructor; [| done].
  unfold target_info in Ht. apply bind_Ok in Ht as (c & _ & Ht). pose proof (target_geometry_held p.1 c tp) as Hheld.
  destruct (target_geometry p.1 c tp) as [fraction g]. apply bind_Ok in Ht as (n & Hn & Ht). injection Ht as <-.
  split; [by eapply tensor_bytes_nonneg | done].
Qed.

Lemma tensor_ok_share tp t : (1 <= tp)%Z -> tensor_ok tp t ->
  let l := (if String.eqb (category t) "target.mtp_unused_dflash" then 0 else inject_Z (disk_bytes t))%Q in
  (0 <= rank_bytes_of t <= l)%Q /\ (l <= inject_Z tp * rank_bytes_of t)%Q.
Proof.
  intros Htp [Hb Hh]. unfold held in Hh. unfold rank_bytes_of. destruct (shard_bounds tp Htp) as [[S1 S2] S3].
  assert (B : (0 <= inject_Z (disk_bytes t))%Q) by (change 0%Q with (inject_Z 0); by rewrite <- Zle_Qle).
  assert (T : (1 <= inject_Z tp)%Q) by (change 1%Q with (inject_Z 1); by rewrite <- Zle_Qle).
  set (b := inject_Z (disk_bytes t)) in *. set (n := inject_Z tp) in *.
  destruct (String.eqb (category t) "target.mtp_unused_dflash"); [rewrite Hh; split; lra |].
  destruct Hh as [->| ->]; cbv zeta; split; [lra | nra | split; nra |].
  assert (E : (n * (b * shard tp) == b * (n * shard tp))%Q) by ring. rewrite E, S3. lra.
Qed.

(** What the report says of the weights: the categories hold all the bytes and tensors;
    the ranks together hold every byte that is loaded, and each of them no more than all of them;
    and the routed figures are the worst case of [routed_is_worst_case]. *)
Theorem report_accounts chr py_str target_snapshot draft_snapshot tp draft_tp active accepted r : (1 <= tp)%Z ->
  build_report chr py_str target_snapshot draft_snapshot tp draft_tp active accepted = Ok r ->
  exists target draft, collect_target chr py_str target_snapshot tp = Ok target /\ collect_draft chr py_str draft_snapshot draft_tp = Ok draft /\
    group_total (target_categories r) = target_disk_bytes r /\ group_total (draft_categories r) = draft_disk_bytes r /\
    sum_list_with (fun p => tensor_count p.2) (target_categories r) = length target /\
    (resident target <= loaded target <= inject_Z tp * resident target)%Q /\
    Forall2 (fun n s => active_experts s = n /\ routed_bytes s = round_half_even (routed_estimate target n) /\
      total_bytes s = round_half_even (base_bytes target draft + routed_estimate target n)) active (scenarios r) /\
    Forall (fun t => 0 <= rank_bytes_of t)%Q target.
Proof.
  intros Htp E. unfold build_report in E. apply bind_Ok in E as (target & Et & E). apply bind_Ok in E as (draft & Ed & E).
  apply bind_Ok in E as ([base scen] & Es & E). injection E as <-. exists target, draft. split; [done |]. split; [done |].
  cbn [target_categories target_disk_bytes draft_categories draft_disk_bytes scenarios snd].
  destruct (aggregate_conserves target) as (H1 & H2 & _). destruct (aggregate_conserves draft) as (H3 & _ & _).
  pose proof (collect_target_ok _ _ _ _ _ Et) as Hok. do 3 (split; [done |]). split_and!.
  - unfold resident, loaded. apply Qsum_le. intros t Ht. rewrite Forall_forall in Hok. by destruct (tensor_ok_share tp t Htp (Hok t Ht)) as [[_ H] _].
  - unfold resident, loaded. clear -Hok Htp. induction Hok as [|t target Ht _ IH]; [simpl; lra |]. simpl.
    destruct (tensor_ok_share tp t Htp Ht) as [_ H]. simpl in IH, H. lra.
  - unfold estimate_traffic in Es. apply bind_Ok in Es as (l & El & Es). injection Es as _ <-. apply mapM_Ok in El.
    eapply Forall2_impl; [exact El |]. intros n s Hs. unfold scenario_of in Hs. cbv zeta in Hs.
    destruct accepted as [a|]; [apply bind_Ok in Hs as (per & _ & Hs) |]; by injection Hs as <-.
  - eapply Forall_impl; [exact Hok |]. intros t Ht. by destruct (tensor_ok_share tp t Htp Ht) as [[? _] _].
Qed.

(** ** A small model *)

Fixpoint repeat_str (n : nat) (c : ascii) : string := match n with O => "" | S n => String c (repeat_str n c) end.
Definition le8 (n : nat) : string := String (ascii_of_nat (n mod 256)) (String (ascii_of_nat (n / 256)) (repeat_str 6 "000")).
Definition demo_shard (header : string) (payload : nat) : string := le8 (String.length header) ++ header ++ repeat_str payload "x".

Definition demo_header : string := unquote "{^__metadata__^: {}, ^lm_head.weight^: {^dtype^: ^U8^, ^shape^: [4], ^data_offsets^: [8, 12]},
 ^model.language_model.layers.1.mlp.experts.0.up_proj.trellis^: {^dtype^: ^U8^, ^shape^: [2], ^data_offsets^: [0, 2]},
 ^model.language_model.layers.1.mlp.experts.1.up_proj.trellis^: {^dtype^: ^BF16^, ^shape^: [3, 1], ^data_offsets^: [2, 8]}}".
Definition demo_index : string := unquote "{^weight_map^: {^lm_head.weight^: ^a.safetensors^,
 ^model.language_model.layers.1.mlp.experts.0.up_proj.trellis^: ^a.safetensors^,
 ^model.language_model.layers.1.mlp.experts.1.up_proj.trellis^: ^a.safetensors^}}".
Definition demo_target : snapshot := [
  ("config.json", unquote "{^text_config^: {^num_hidden_layers^: 2, ^first_k_dense_replace^: 1}}");
  ("model.safetensors.index.json", demo_index); ("a.safetensors", demo_shard demo_header 12);
  ("README.md", "---" ++ newline ++ "license: other # see below" ++ newline ++ "license_name: glm" ++ newline ++ "---" ++ newline)
].
Definition demo_draft : snapshot := [
  ("model.safetensors", demo_shard (unquote "{^fc.weight^: {^dtype^: ^F16^, ^shape^: [5], ^data_offsets^: [0, 10]}}") 10);
  ("README.md", "---" ++ newline ++ "license: cc-by-nc_nd-4.0" ++ newline ++ "---")
].
Definition demo_audit : res weight_report := build_report demo_chr (fun _ => "") demo_target demo_draft 2 1 [1%Z; 2%Z] (Some 1%Q).

(** A gap of a byte, and the file as it is. *)
Example header_gap : read_header demo_chr (demo_shard demo_header 13) = Raise ValueError /\
  (length <$> match read_header demo_chr (demo_shard demo_header 12) with Ok l => Some l | Raise _ => None end) = Some 4.
Proof. vm_compute. done. Qed.

Example demo_exit : main demo_chr (fun _ => "") demo_target demo_draft 2 1 [1%Z; 2%Z] (Some 1%Q) = Ok 0%Z /\
  match demo_audit with
  | Ok r => (by_rank r, map routed_bytes (scenarios r), target_license r, draft_quantization_blocked r)
            = ([16%Z; 6%Z], [3%Z; 4%Z], Some "glm", true)
  | Raise _ => False
  end.
Proof. vm_compute. done. Qed.

Lemma report_accounts_witness : exists r, demo_audit = Ok r /\ group_total (target_categories r) = 12%Z /\
  exists target, collect_target demo_chr (fun _ => "") demo_target 2 = Ok target /\ (resident target <= loaded target)%Q.
Proof.
  eexists. split; [vm_compute; reflexivity |]. split; [reflexivity |].
  match goal with |- _ => 
    destruct (report_accounts demo_chr (fun _ => "") demo_target demo_draft 2 1 [1%Z; 2%Z] (Some 1%Q) _ ltac:(lia) ltac:(vm_compute; reflexivity))
      as (target & draft & Ht & _ & _ & _ & _ & [Hr _] & _) end.
  exists target. by split.
Defined.

Definition demo_tensors : list tensor_info := match collect_target demo_chr (fun _ => "") demo_target 2 with Ok l => l | Raise _ => [] end.

Lemma routed_is_worst_case_witness : exists chosen, (forall layer, Z.of_nat (length (chosen layer)) <= 1)%Z /\
  (streamed chosen demo_tensors == 3)%Q.
Proof.
  destruct (proj2 (routed_is_worst_case demo_tensors 1 ltac:(lia) ltac:(by apply (bool_decide_unpack _); vm_compute))) as (chosen & Hl & E).
  exists chosen. split; [done |]. rewrite E. by vm_compute.
Defined.
