(* ===== verification/PyRe.v ===== *)
(** * Regular expressions

    The part of Python's [re] the audits use: characters, greedy repetition of
    a character class, sequence, alternation, numbered groups and word boundaries,
    matched by backtracking in Python's order of preference.  The matcher is sound and complete for the
    relation that says what a pattern matches. *)
From Stdlib Require Import ZArith Lia String Ascii.
From stdpp Require Import base list strings.
From S2P Require Import Prelude PyStr.
#[local] Open Scope string_scope.
#[local] Open Scope nat_scope.

Inductive re :=
  | Eps
  | Chr (p : ascii -> bool)
  | Many (p : ascii -> bool)
  | Cat (a b : re)
  | Or (a b : re)
  | Group (n : nat) (r : re)
  | Bound.

(** [\w] and [\s]. *)
Definition is_word (c : ascii) : bool :=
  let n := nat_of_ascii c in
  ((48 <=? n) && (n <=? 57)) || ((65 <=? n) && (n <=? 90)) || ((97 <=? n) && (n <=? 122)) || (n =? 95).

Definition isnt (c d : ascii) : bool := negb (Ascii.eqb c d).

Fixpoint Lit (s : string) : re := match s with EmptyString => Eps | String c t => Cat (Chr (Ascii.eqb c)) (Lit t) end.
Fixpoint Seq (l : list re) : re := match l with [] => Eps | [r] => r | r :: l => Cat r (Seq l) end.
Definition Some1 (p : ascii -> bool) : re := Cat (Chr p) (Many p).
Definition opt (r : re) : re := Or r Eps.

(** ** The matcher *)

(** A position: the character before it and the text after it. *)
Definition at_ : Type := option ascii * string.
Definition groups : Type := list (nat * string).

Definition word_at (c : option ascii) : bool := match c with Some c => is_word c | None => false end.
Definition next (p : at_) : option ascii := match p.2 with String c _ => Some c | EmptyString => None end.
Definition boundary (p : at_) : bool := xorb (word_at p.1) (word_at (next p)).

(** The text between two positions. *)
Definition between (p q : at_) : string := take_str (String.length p.2 - String.length q.2) p.2.

Section match_.
Context {X : Type}.

Fixpoint many (p : ascii -> bool) (prev : option ascii) (s : string) (k : at_ -> option X) : option X :=
  match s with
  | String c t => if p c then match many p (Some c) t k with Some x => Some x | None => k (prev, s) end else k (prev, s)
  | EmptyString => k (prev, s)
  end.

Fixpoint match_ (r : re) (p : at_) (g : groups) (k : at_ -> groups -> option X) : option X :=
  match r with
  | Eps => k p g
  | Chr f => match p.2 with String c t => if f c then k (Some c, t) g else None | EmptyString => None end
  | Many f => many f p.1 p.2 (fun q => k q g)
  | Cat a b => match_ a p g (fun q g => match_ b q g k)
  | Or a b => match match_ a p g k with Some x => Some x | None => match_ b p g k end
  | Group n r => match_ r p g (fun q g => k q ((n, between p q) :: g))
  | Bound => if boundary p then k p g else None
  end.

End match_.

(** [pattern.match] at a position: where the match ends, and the groups. *)
Definition match_here (r : re) (p : at_) : option (at_ * groups) := match_ r p [] (fun q g => Some (q, g)).

(** [pattern.fullmatch]: the groups. *)
Definition fullmatch (r : re) (s : string) : option groups :=
  match_ r (None, s) [] (fun q g => if String.eqb q.2 "" then Some g else None).

Definition group_of (n : nat) (g : groups) : option string := snd <$> List.find (fun p => p.1 =? n) g.

(** A match of [finditer]: its offsets and its groups. *)
Record found := Found { f_start : nat; f_end : nat; f_groups : groups }.

(** [skip] is what is left of the match before. *)
Fixpoint finditer_from (r : re) (offset skip : nat) (prev : option ascii) (s : string) : list found :=
  match skip with
  | S skip => match s with String c t => finditer_from r (S offset) skip (Some c) t | EmptyString => [] end
  | O =>
      let hit := match_here r (prev, s) in
      let l := match hit with Some (q, g) => [Found offset (offset + (String.length s - String.length q.2)) g] | None => [] end in
      match s with
      | String c t =>
          let len := match hit with Some (q, _) => String.length s - String.length q.2 | None => 0 end in
          (l ++ finditer_from r (S offset) (len - 1) (Some c) t)%list
      | EmptyString => l
      end
  end.

Definition finditer (r : re) (s : string) : list found := finditer_from r 0 0 None s.

(** [search]. *)
Definition search (r : re) (s : string) : option found := List.hd_error (finditer r s).

(** ** What a pattern matches *)

Inductive matches : re -> at_ -> at_ -> Prop :=
  | m_eps p : matches Eps p p
  | m_chr f prev c t : f c = true -> matches (Chr f) (prev, String c t) (Some c, t)
  | m_many_stop f p : matches (Many f) p p
  | m_many_more f prev c t q : f c = true -> matches (Many f) (Some c, t) q -> matches (Many f) (prev, String c t) q
  | m_cat a b p q r : matches a p q -> matches b q r -> matches (Cat a b) p r
  | m_or_l a b p q : matches a p q -> matches (Or a b) p q
  | m_or_r a b p q : matches b p q -> matches (Or a b) p q
  | m_group n r p q : matches r p q -> matches (Group n r) p q
  | m_bound p : boundary p = true -> matches Bound p p.

Lemma many_sound {X} f prev s (k : at_ -> option X) x : many f prev s k = Some x ->
  exists q, matches (Many f) (prev, s) q /\ k q = Some x.
Proof.
  revert prev. induction s as [|c t IH]; intros prev E; simpl in E; [exists (prev, ""); split; [constructor | done] |].
  destruct (f c) eqn:Ef; [| exists (prev, String c t); split; [constructor | done]].
  destruct (many f (Some c) t k) as [y|] eqn:Em.
  - injection E as ->. destruct (IH _ Em) as (q & Hq & Hk). exists q. split; [by constructor | done].
  - exists (prev, String c t). split; [constructor | done].
Qed.

Lemma many_complete {X} f prev s q (k : at_ -> option X) : matches (Many f) (prev, s) q -> is_Some (k q) ->
  is_Some (many f prev s k).
Proof.
  intros H Hk. remember (Many f) as r eqn:Er. remember (prev, s) as p eqn:Ep. revert prev s Ep.
  induction H; try done; injection Er as <-; intros prev' s Ep.
  - subst p. destruct s as [|c t]; simpl; [done |]. destruct (f0 c); [| done]. by destruct (many f0 (Some c) t k).
  - injection Ep as <- <-. simpl. rewrite H. destruct (IHmatches eq_refl Hk _ _ eq_refl) as [x ->]. done.
Qed.

Lemma match_sound {X} r p g (k : at_ -> groups -> option X) x : match_ r p g k = Some x ->
  exists q g', matches r p q /\ k q g' = Some x.
Proof.
  revert p g k x. induction r as [|f|f|a IHa b IHb|a IHa b IHb|n r IH|]; intros p g k x E; simpl in E.
  - exists p, g. split; [constructor | done].
  - destruct p as [prev [|c t]]; simpl in E; [done |]. destruct (f c) eqn:Ef; [| done].
    exists (Some c, t), g. split; [by constructor | done].
  - destruct p as [prev s]. destruct (many_sound _ _ _ _ _ E) as (q & Hq & Hk). by exists q, g.
  - destruct (IHa _ _ _ _ E) as (q & g' & Hq & E'). destruct (IHb _ _ _ _ E') as (q2 & g2 & Hq2 & E2).
    exists q2, g2. split; [by econstructor | done].
  - destruct (match_ a p g k) as [y|] eqn:Ea.
    + injection E as ->. destruct (IHa _ _ _ _ Ea) as (q & g' & Hq & Hk). exists q, g'. split; [by constructor | done].
    + destruct (IHb _ _ _ _ E) as (q & g' & Hq & Hk). exists q, g'. split; [by apply m_or_r | done].
  - destruct (IH _ _ _ _ E) as (q & g' & Hq & Hk). exists q, ((n, between p q) :: g'). split; [by constructor | done].
  - destruct (boundary p) eqn:Eb; [| done]. exists p, g. split; [by constructor | done].
Qed.

Lemma match_complete {X} r p q g (k : at_ -> groups -> option X) : matches r p q -> (forall g', is_Some (k q g')) ->
  is_Some (match_ r p g k).
Proof.
  revert p q g k. induction r as [|f|f|a IHa b IHb|a IHa b IHb|n r IH|]; intros p q g k H Hk; simpl.
  - by inversion H; subst.
  - inversion H as [|? ? ? ? Hf| | | | | | |]; subst. simpl. by rewrite Hf.
  - destruct p as [prev s]. by eapply many_complete.
  - inversion H as [| | | |? ? ? ? ? Ha Hb| | | |]; subst. eapply IHa; [exact Ha |]. intros g'. by eapply IHb.
  - inversion H as [| | | | |? ? ? ? Ha|? ? ? ? Hb| |]; subst.
    + by destruct (IHa _ _ g k Ha Hk) as [x ->].
    + destruct (match_ a p g k); [done |]. by eapply IHb.
  - inversion H as [| | | | | | |? ? ? ? Hr|]; subst. by eapply IH.
  - inversion H as [| | | | | | | |? Hb]; subst. by rewrite Hb.
Qed.

Lemma match_here_iff r p : is_Some (match_here r p) <-> exists q, matches r p q.
Proof.
  split.
  - intros [x E]. destruct (match_sound _ _ _ _ _ E) as (q & _ & Hq & _). by exists q.
  - intros [q Hq]. by eapply match_complete.
Qed.

(** A pattern that matches at some offset of a text is found in it. *)
Lemma finditer_none r offset prev s : finditer_from r offset 0 prev s = [] <->
  forall a b, s = a ++ b -> forall q, ~ matches r (match String.length a with O => prev | S n => String.get n a end, b) q.
Proof.
  revert offset prev. induction s as [|c t IH]; intros offset prev; simpl.
  - destruct (match_here r (prev, "")) as [[q g]|] eqn:E; simpl; split; try done.
    + intros H. exfalso. destruct (proj1 (match_here_iff r (prev, "")) (mk_is_Some _ _ E)) as [q' Hq]. by apply (H "" "" eq_refl q').
    + intros _ [|d a] b Hab q' Hq; [| by change (String d a ++ b) with (String d (a ++ b)) in Hab].
      change ("" ++ b) with b in Hab. simpl in Hq. subst b.
      destruct (proj2 (match_here_iff r (prev, "")) (ex_intro _ q' Hq)) as [x Hx]. congruence.
  - destruct (match_here r (prev, String c t)) as [[q g]|] eqn:E; simpl; split; try done.
    + intros H. exfalso. destruct (proj1 (match_here_iff r _) (mk_is_Some _ _ E)) as [q' Hq]. by apply (H "" (String c t) eq_refl q').
    + intros Hn [|d a] b Hab q' Hq.
      * change ("" ++ b) with b in Hab. simpl in Hq. subst b. destruct (proj2 (match_here_iff r _) (ex_intro _ q' Hq)) as [x Hx]. congruence.
      * change (String d a ++ b) with (String d (a ++ b)) in Hab. injection Hab as <- Hab.
        apply (proj1 (IH (S offset) (Some c)) Hn a b Hab q'). simpl in Hq. by destruct a.
    + intros H. apply IH. intros a b Hab q' Hq. apply (H (String c a) b (f_equal (String c) Hab) q'). by destruct a.
Qed.
