(* ===== verification/ImportClosure.v ===== *)
(** * The import closure of the mgemm audit

    Model of [import_closure] and [_resolve_module] of
    [scripts/audit_exl3_mgemm_indices.py]: a worklist over the modules of a
    package.  Python's parser is an argument that gives a module's import statements and the other
    statements the audit looks at; the files of the package are a finite map from their paths.
    The loop stops, and what it returns is reachability by imports. *)
From Stdlib Require Import ZArith Lia String Ascii.
From stdpp Require Import base gmap list strings sets.
From S2P Require Import Prelude PyStr PyDict.
#[local] Open Scope string_scope.
#[local] Open Scope nat_scope.

(** ** Syntax trees, as far as the audit reads them *)

Inductive expr :=
  | Constant (s : string)
  | Name (id : string)
  | Attribute (value : expr) (attr : string)
  | CallE (func : expr) (args : list expr) (keywords : list (option string * expr))
  | Subscript (value slice : expr)
  | Display (elts : list expr)
  | OtherE (children : list expr).

Inductive node :=
  | Import (lineno : Z) (names : list string)
  | ImportFrom (lineno : Z) (level : nat) (module : option string) (names : list string)
  | Assign (targets : list expr) (value : expr)
  | AnnAssign (target : expr) (value : option expr)
  | For (target iter : expr)
  | Call (lineno : Z) (func : expr).

(** [ast.parse]: the functions the module defines at its top, and its nodes in the order of [ast.walk]. *)
Record tree := Tree { top_functions : list string; nodes : list node }.

(** What reading a file gives. *)
Inductive source := Unreadable | Undecodable | Text (s : string).

(** The files below the package's parent directory. *)
Definition files : Type := gmap (list string) source.

Definition STUB_NAMESPACES : list string := ["exllamav3.modules"; "exllamav3.model"; "exllamav3.model.config"].

(** [".".join(parts)]. *)
Fixpoint join_dots (parts : list string) : string :=
  match parts with
  | [] => ""
  | [p] => p
  | p :: ps => p ++ String "." (join_dots ps)
  end.

Section closure.
Context (parse : string -> option tree) (root : string) (fs : files).

(** [base.with_suffix(".py")] of a path whose last part has no dot. *)
Fixpoint with_py (path : list string) : list string :=
  match path with
  | [] => []
  | [last] => [last ++ ".py"]
  | p :: path => p :: with_py path
  end.

(** [_resolve_module]: the file of a name, and whether it is a package. *)
Definition _resolve_module (name : string) : option (source * bool) :=
  let parts := split_char "."%char name in
  let parts := match parts with p :: ps => if String.eqb p root then ps else parts | [] => [] end in
  let base := root :: parts in
  match fs !! with_py base with
  | Some s => Some (s, false)
  | None => match fs !! (base ++ ["__init__.py"])%list with Some s => Some (s, true) | None => None end
  end.

(** What an import statement adds to the queue, in its order. *)
Definition node_refs (package_parts : list string) (n : node) : list (string * bool) :=
  match n with
  | Import _ names => map (fun a => (a, true)) names
  | ImportFrom _ (S drop) module names =>
      if length package_parts <? drop then []
      else
        let base_parts := (take (length package_parts - drop) package_parts ++
                           match module with Some m => split_char "."%char m | None => [] end)%list in
        match base_parts with
        | [] => []
        | _ => let base := join_dots base_parts in
               (base, true) :: map (fun a => (base ++ "." ++ a, false)) names
        end
  | ImportFrom _ O (Some module) names => (module, true) :: map (fun a => (module ++ "." ++ a, false)) names
  | _ => []
  end.

Definition package_parts_of (name : string) (is_package : bool) : list string :=
  let parts := split_char "."%char name in
  if is_package then parts else take (length parts - 1) parts.

Definition tree_refs (name : string) (is_package : bool) (t : tree) : list (string * bool) :=
  flat_map (node_refs (package_parts_of name is_package)) (nodes t).

(** What becomes of a module: a leaf, no file, no text, no parse, or its imports. *)
Inductive visit := Leaf | NoFile | BadRead | BadText | BadParse | Parsed (refs : list (string * bool)).

Definition visit_module (name : string) : visit :=
  if bool_decide (name ∈ STUB_NAMESPACES) then Leaf
  else
    match _resolve_module name with
    | None => NoFile
    | Some (Unreadable, _) => BadRead
    | Some (Undecodable, _) => BadText
    | Some (Text s, is_package) =>
        match parse s with Some t => Parsed (tree_refs name is_package t) | None => BadParse end
    end.

(** The sets of the loop, as lists, and its queue with the end first. *)
Record closure := Closure {
  seen : list string; required : list string; resolvable : list string; unparseable : list string;
  queue : list (string * bool)
}.

Definition require (name : string) (hard : bool) (required : list string) : list string := if hard then name :: required else required.

(** One turn: [queue.pop()], and the body of the loop. *)
Definition turn (c : closure) (name : string) (hard : bool) (rest : list (string * bool)) : res closure :=
  let required := require name hard (required c) in
  if bool_decide (name ∈ seen c) then Ok (Closure (seen c) required (resolvable c) (unparseable c) rest)
  else
    let seen := name :: seen c in
    match visit_module name with
    | Leaf => Ok (Closure seen required (name :: resolvable c) (unparseable c) rest)
    | NoFile => Ok (Closure seen required (resolvable c) (unparseable c) rest)
    | BadRead | BadParse => Ok (Closure seen required (name :: resolvable c) (name :: unparseable c) rest)
    | BadText => Raise ValueError
    | Parsed refs => Ok (Closure seen required (name :: resolvable c) (unparseable c) (reverse refs ++ rest)%list)
    end.

(** The loop; [None] when the fuel is not enough. *)
Fixpoint loop (fuel : nat) (c : closure) : option (res closure) :=
  match queue c with
  | [] => Some (Ok c)
  | (name, hard) :: rest =>
      match fuel with
      | O => None
      | S fuel => match turn c name hard rest with Ok c => loop fuel c | Raise e => Some (Raise e) end
      end
  end.

(** In the package. *)
Definition in_package (name : string) : bool := String.eqb name root || String.prefix (root ++ ".") name.

Definition unresolved (c : closure) : list string :=
  sorted_of String.leb (base.filter (fun n => in_package n = true /\ n ∉ resolvable c) (required c)).

Definition start (seeds : list string) : closure := Closure [] [] [] [] (reverse (map (fun n => (n, true)) seeds)).

(** ** Enough turns *)

(** Every name that leads to a file of the package is one of its names. *)
Definition names_of_base (base : list string) : list string := [join_dots base; join_dots (tail base)].

Definition names_of_path (path : list string) : list string :=
  let parent := take (length path - 1) path in
  let file := default "" (last path) in
  (names_of_base (parent ++ [String.substring 0 (String.length file - 3) file]) ++ names_of_base parent)%list.

Definition all_names : list string := flat_map names_of_path (map fst (map_to_list fs)).

Definition weight (name : string) : nat := match visit_module name with Parsed refs => length refs | _ => 0 end.

Definition budget (names seen : list string) : nat := sum_list_with weight (base.filter (fun n => n ∉ seen) names).

Definition import_closure (seeds : list string) : option (res closure) :=
  loop (length seeds + budget all_names []) (start seeds).

(** ** The loop stops *)

Lemma budget_seen names seen name : name ∈ names -> name ∉ seen -> budget names (name :: seen) + weight name <= budget names seen.
Proof.
  unfold budget. intros Hin Hns. assert (Hle : forall l, sum_list_with weight (base.filter (fun n => n ∉ name :: seen) l)
    <= sum_list_with weight (base.filter (fun n => n ∉ seen) l)).
  { induction l as [|n l IH]; [done |]. rewrite !filter_cons. repeat case_decide; simpl; try lia. set_solver. }
  induction names as [|n names IH]; [set_solver |]. rewrite !filter_cons.
  destruct (base.decide (n = name)) as [->|Hne].
  - rewrite decide_False by set_solver. rewrite decide_True by done. simpl. specialize (Hle names). lia.
  - specialize (IH ltac:(set_solver)). repeat case_decide; simpl; try lia. set_solver.
Qed.

Lemma budget_le names seen name : budget names (name :: seen) <= budget names seen.
Proof.
  unfold budget. induction names as [|n l IH]; [done |]. rewrite !filter_cons. repeat case_decide; simpl; try lia. set_solver.
Qed.

(** A turn uses up at least one unit. *)
Lemma turn_spends names c name hard rest c' : (forall n refs, visit_module n = Parsed refs -> n ∈ names) ->
  queue c = (name, hard) :: rest -> turn c name hard rest = Ok c' ->
  length (queue c') + budget names (seen c') < length (queue c) + budget names (seen c).
Proof.
  intros Hn Hq E. rewrite Hq. unfold turn in E. case_bool_decide as Hs; [injection E as <-; simpl; lia |].
  pose proof (budget_le names (seen c) name) as Hle.
  destruct (visit_module name) as [| | | | |refs] eqn:Ev; try done; injection E as <-; simpl; try lia.
  pose proof (budget_seen names (seen c) name (Hn _ _ Ev) Hs) as H. unfold weight in H. rewrite Ev in H.
  rewrite length_app, length_reverse. lia.
Qed.

Lemma loop_stops names fuel c : (forall n refs, visit_module n = Parsed refs -> n ∈ names) ->
  length (queue c) + budget names (seen c) <= fuel -> is_Some (loop fuel c).
Proof.
  intros Hn. revert c. induction fuel as [|fuel IH]; intros c Hf; simpl; destruct (queue c) as [|[name hard] rest] eqn:Hq; try done.
  - simpl in Hf. lia.
  - destruct (turn c name hard rest) as [c'|e] eqn:E; [| done]. apply IH.
    pose proof (turn_spends names c name hard rest c' Hn Hq E). rewrite Hq in H. lia.
Qed.

(** ** The names *)

Lemma split_nonempty s : split_char "."%char s <> [].
Proof. destruct s as [|c s]; simpl; [done |]. destruct (Ascii.eqb c "."); [done |]. by destruct (split_char _ s). Qed.

Lemma join_cons_char c w ws : join_dots (String c w :: ws) = String c (join_dots (w :: ws)).
Proof. by destruct ws. Qed.

Lemma join_split s : join_dots (split_char "."%char s) = s.
Proof.
  induction s as [|c s IH]; [done |]. simpl. pose proof (split_nonempty s) as Hne. destruct (Ascii.eqb_spec c ".") as [->|Hc].
  - destruct (split_char _ s) as [|w ws]; [done |]. by rewrite <- IH.
  - destruct (split_char _ s) as [|w ws]; [done |]. by rewrite join_cons_char, IH.
Qed.

Lemma with_py_last base (x : string) : with_py (base ++ [x])%list = (base ++ [(x ++ ".py")%string])%list.
Proof. induction base as [|p base IH]; [done |]. simpl. rewrite IH. by destruct (base ++ [x])%list eqn:E; [by destruct base |]. Qed.

Lemma substring_stem x y : String.substring 0 (String.length (x ++ y) - String.length y) (x ++ y) = x.
Proof.
  induction x as [|c x IH].
  - change ("" ++ y) with y. rewrite Nat.sub_diag. by destruct y.
  - change (String c x ++ y) with (String c (x ++ y)). cbn [String.length].
    assert (H : String.length y <= String.length (x ++ y)).
    { clear IH. induction x as [|d x IH]; [done |]. change (String d x ++ y) with (String d (x ++ y)). cbn [String.length]. lia. }
    replace (S (String.length (x ++ y)) - String.length y) with (S (String.length (x ++ y) - String.length y)) by lia.
    cbn [String.substring]. by rewrite IH.
Qed.

Lemma take_last {A} (l : list A) x : take (length (l ++ [x])%list - 1) (l ++ [x])%list = l.
Proof. rewrite length_app. simpl. rewrite Nat.add_sub. by rewrite take_app_length. Qed.

Lemma stem_of_module base : base <> [] ->
  let path := with_py base in let file := default "" (last path) in
  (take (length path - 1) path ++ [String.substring 0 (String.length file - 3) file])%list = base.
Proof.
  destruct base as [|x base _] using rev_ind; [done |]. intros _. cbv zeta. rewrite with_py_last, take_last, last_snoc.
  change 3 with (String.length ".py"). cbn [default from_option]. change (id (x ++ ".py")) with (x ++ ".py"). by rewrite substring_stem.
Qed.

Lemma name_of_base name base : base = root :: (match split_char "."%char name with
    | p :: ps => if String.eqb p root then ps else split_char "."%char name | [] => [] end) -> name ∈ names_of_base base.
Proof.
  intros ->. unfold names_of_base. pose proof (join_split name) as Hj. destruct (split_char "."%char name) as [|p ps] eqn:E;
    [by destruct (split_nonempty name) |]. destruct (String.eqb_spec p root) as [->|]; simpl tail.
  - apply elem_of_cons. by left.
  - apply elem_of_cons. right. apply elem_of_cons. by left.
Qed.

Lemma parsed_named name refs : visit_module name = Parsed refs -> name ∈ all_names.
Proof.
  unfold visit_module. case_bool_decide; [done |]. unfold _resolve_module.
  set (base := root :: _). assert (Hbase : name ∈ names_of_base base) by (by apply name_of_base).
  assert (Hne : base <> []) by done. clearbody base.
  assert (Hpath : forall path s, fs !! path = Some s -> name ∈ names_of_path path -> name ∈ all_names).
  { intros path s Hs Hin. unfold all_names. apply list_elem_of_In, in_flat_map. exists path. split; [| by apply list_elem_of_In].
    apply List.in_map_iff. exists (path, s). split; [done |]. apply list_elem_of_In. by apply elem_of_map_to_list. }
  destruct (fs !! with_py base) as [s|] eqn:E1.
  - intros _. apply (Hpath _ _ E1). unfold names_of_path. apply elem_of_app. left. by rewrite stem_of_module.
  - destruct (fs !! (base ++ ["__init__.py"])%list) as [s|] eqn:E2; [| done]. intros _. apply (Hpath _ _ E2).
    unfold names_of_path. apply elem_of_app. right. by rewrite take_last.
Qed.

Theorem loop_enough seeds : is_Some (import_closure seeds).
Proof.
  apply (loop_stops all_names); [apply parsed_named |]. simpl. by rewrite length_reverse, length_map.
Qed.

(** ** What it computes *)

(** Reached by imports: hard, as a module, or only as a name that may be one. *)
Inductive queued (seeds : list string) : string -> bool -> Prop :=
  | queued_seed name : name ∈ seeds -> queued seeds name true
  | queued_ref name hard refs name' hard' : queued seeds name hard -> visit_module name = Parsed refs -> (name', hard') ∈ refs ->
      queued seeds name' hard'.

Definition processed (c : closure) (name : string) (hard : bool) : Prop :=
  (name, hard) ∈ queue c \/ name ∈ seen c /\ (hard = true -> name ∈ required c).

(** The loop's invariant. *)
Record closing (seeds : list string) (c : closure) : Prop := Closing {
  cl_queue : forall name hard, (name, hard) ∈ queue c -> queued seeds name hard;
  cl_seen : forall name, name ∈ seen c -> exists hard, queued seeds name hard;
  cl_required : forall name, name ∈ required c -> queued seeds name true;
  cl_seeds : forall name, name ∈ seeds -> processed c name true;
  cl_refs : forall name refs name' hard, name ∈ seen c -> visit_module name = Parsed refs -> (name', hard) ∈ refs ->
    processed c name' hard;
  cl_resolvable : forall name, name ∈ resolvable c <-> name ∈ seen c /\ visit_module name <> NoFile;
  cl_unparseable : forall name, name ∈ unparseable c <-> name ∈ seen c /\ (visit_module name = BadRead \/ visit_module name = BadParse);
  cl_text : forall name, name ∈ seen c -> visit_module name <> BadText
}.

Lemma closing_start seeds : closing seeds (start seeds).
Proof.
  assert (Hq : forall name hard, (name, hard) ∈ queue (start seeds) <-> name ∈ seeds /\ hard = true).
  { intros name hard. simpl. rewrite elem_of_reverse, list_elem_of_fmap. naive_solver. }
  split; try (simpl; set_solver).
  - intros name hard [Hin ->]%Hq. by constructor.
  - intros name Hin. left. by apply Hq.
Qed.

Lemma processed_more c c' name hard : (forall n h, (n, h) ∈ queue c -> processed c' n h) ->
  (forall n, n ∈ seen c -> n ∈ seen c') -> (forall n, n ∈ required c -> n ∈ required c') -> processed c name hard -> processed c' name hard.
Proof. intros Hq Hs Hr [H|[H1 H2]]; [by apply Hq |]. right. auto. Qed.

(** What stays when the head of the queue is taken. *)
Lemma taken c c' name hard rest : queue c = (name, hard) :: rest -> (forall n h, (n, h) ∈ rest -> (n, h) ∈ queue c') ->
  seen c' = seen c \/ seen c' = name :: seen c -> name ∈ seen c' -> required c' = require name hard (required c) ->
  forall n h, processed c n h -> processed c' n h.
Proof.
  intros Hq Hrest Hseen Hin Hreq n h. apply processed_more.
  - intros n' h'. rewrite Hq. intros [[= -> ->]|Hr]%elem_of_cons; [| left; auto].
    right. split; [done |]. intros ->. rewrite Hreq. left.
  - intros m. destruct Hseen as [->| ->]; set_solver.
  - intros m. rewrite Hreq. unfold require. destruct hard; set_solver.
Qed.

Lemma required_queued seeds c name hard rest : closing seeds c -> queue c = (name, hard) :: rest ->
  forall n, n ∈ require name hard (required c) -> queued seeds n true.
Proof.
  intros Hc Hq n. unfold require. destruct hard; [| apply (cl_required _ _ Hc)].
  intros [->|Hn]%elem_of_cons; [| by apply (cl_required _ _ Hc)]. apply (cl_queue _ _ Hc). rewrite Hq. left.
Qed.

(** A name that was seen before. *)
Lemma closing_again seeds c name hard rest : closing seeds c -> queue c = (name, hard) :: rest -> name ∈ seen c ->
  closing seeds (Closure (seen c) (require name hard (required c)) (resolvable c) (unparseable c) rest).
Proof.
  intros Hc Hq Hs. set (c' := Closure _ _ _ _ _).
  assert (Hp : forall n h, processed c n h -> processed c' n h) by (apply (taken c c' name hard rest); auto).
  pose proof (required_queued _ _ _ _ _ Hc Hq) as Hreq. destruct Hc as [H1 H2 H3 H4 H5 H6 H7 H8]. split; simpl; try done.
  - intros n h Hin. apply H1. rewrite Hq. by right.
  - intros n Hin. by apply Hp, H4.
  - intros n refs n' h Hin Hv Hr. by eapply Hp, H5.
Qed.

(** A name seen for the first time: it is added to the sets, and its imports to the queue. *)
Lemma closing_first seeds c name hard rest res unp new : closing seeds c -> queue c = (name, hard) :: rest ->
  visit_module name <> BadText ->
  (forall n h, (n, h) ∈ new <-> exists refs, visit_module name = Parsed refs /\ (n, h) ∈ refs) ->
  (forall n, n ∈ res <-> n ∈ resolvable c \/ n = name /\ visit_module name <> NoFile) ->
  (forall n, n ∈ unp <-> n ∈ unparseable c \/ n = name /\ (visit_module name = BadRead \/ visit_module name = BadParse)) ->
  closing seeds (Closure (name :: seen c) (require name hard (required c)) res unp (new ++ rest)).
Proof.
  intros Hc Hq Hbad Hnew Hres Hunp. set (c' := Closure _ _ _ _ _).
  assert (Hp : forall n h, processed c n h -> processed c' n h).
  { apply (taken c c' name hard rest); [done | set_solver | by right | left | done]. }
  pose proof (required_queued _ _ _ _ _ Hc Hq) as Hreq.
  assert (Hname : queued seeds name hard) by (apply (cl_queue _ _ Hc); rewrite Hq; left).
  destruct Hc as [H1 H2 H3 H4 H5 H6 H7 H8]. split; simpl; try done.
  - intros n h [Hin|Hin]%elem_of_app; [| apply H1; rewrite Hq; by right].
    apply Hnew in Hin as (refs & Hv & Hin). by eapply queued_ref.
  - intros n [->|Hin]%elem_of_cons; [by exists hard | by apply H2].
  - intros n Hin. by apply Hp, H4.
  - intros n refs n' h [->|Hin]%elem_of_cons Hv Hr; [| by eapply Hp, H5].
    left. simpl. apply elem_of_app. left. apply Hnew. by exists refs.
  - intros n. rewrite Hres, H6, elem_of_cons. split; [intros [[? ?]|[-> ?]]; auto |]. intros [[->|?] ?]; auto.
  - intros n. rewrite Hunp, H7, elem_of_cons. split; [intros [[? ?]|[-> ?]]; auto |]. intros [[->|?] ?]; auto.
  - intros n [->|Hin]%elem_of_cons; [done | by apply H8].
Qed.

Lemma closing_turn seeds c name hard rest c' : closing seeds c -> queue c = (name, hard) :: rest ->
  turn c name hard rest = Ok c' -> closing seeds c'.
Proof.
  intros Hc Hq E. unfold turn in E. case_bool_decide as Hs; [injection E as <-; by apply closing_again |].
  pose proof (fun res unp => closing_first seeds c name hard rest res unp [] Hc Hq) as Hfirst.
  pose proof (fun res unp new => closing_first seeds c name hard rest res unp new Hc Hq) as Hparsed.
  destruct (visit_module name) as [| | | | |refs] eqn:Ev; try done; injection E as <-;
    [apply Hfirst | apply Hfirst | apply Hfirst | apply Hfirst | apply Hparsed];
    try (intros; rewrite ?elem_of_cons; naive_solver).
  - intros n h. rewrite elem_of_nil. naive_solver.
  - intros n h. rewrite elem_of_nil. naive_solver.
  - intros n h. rewrite elem_of_nil. naive_solver.
  - intros n h. rewrite elem_of_nil. naive_solver.
  - intros n h. rewrite elem_of_reverse. naive_solver.
Qed.

(** A turn that raises read a module that is no UTF-8. *)
Lemma turn_raises seeds c name hard rest e : closing seeds c -> queue c = (name, hard) :: rest -> turn c name hard rest = Raise e ->
  e = ValueError /\ exists n h, queued seeds n h /\ visit_module n = BadText.
Proof.
  intros Hc Hq E. unfold turn in E. case_bool_decide; [done |]. destruct (visit_module name) eqn:Ev; try done.
  injection E as <-. split; [done |]. exists name, hard. split; [| done]. apply (cl_queue _ _ Hc). rewrite Hq. left.
Qed.

Lemma loop_closing seeds fuel c r : closing seeds c -> loop fuel c = Some r ->
  match r with
  | Ok c' => closing seeds c' /\ queue c' = []
  | Raise e => e = ValueError /\ exists n h, queued seeds n h /\ visit_module n = BadText
  end.
Proof.
  revert c. induction fuel as [|fuel IH]; intros c Hc E; simpl in E; destruct (queue c) as [|[name hard] rest] eqn:Hq; try done.
  - by injection E as <-.
  - by injection E as <-.
  - destruct (turn c name hard rest) as [c'|e] eqn:Et.
    + apply (IH c'); [| done]. by eapply closing_turn.
    + injection E as <-. by eapply turn_raises.
Qed.

(** What the closure is: the modules reached from the seeds, the names that have to be modules, and
    those of them inside the package without a file; and the files that could not be read or parsed. *)
Definition is_closure (seeds : list string) (c : closure) : Prop :=
  (forall n, n ∈ seen c <-> exists h, queued seeds n h) /\
  (forall n, n ∈ required c <-> queued seeds n true) /\
  (forall n, n ∈ unresolved c <-> in_package n = true /\ queued seeds n true /\ visit_module n = NoFile) /\
  (forall n, n ∈ unparseable c <-> (exists h, queued seeds n h) /\ (visit_module n = BadRead \/ visit_module n = BadParse)) /\
  (forall n h, queued seeds n h -> visit_module n <> BadText).

Lemma closed_is_closure seeds c : closing seeds c -> queue c = [] -> is_closure seeds c.
Proof.
  intros [H1 H2 H3 H4 H5 H6 H7 H8] Hq.
  assert (Hall : forall n h, queued seeds n h -> n ∈ seen c /\ (h = true -> n ∈ required c)).
  { intros n h. induction 1 as [n Hin|n h refs n' h' _ [IH _] Hv Hin].
    - destruct (H4 n Hin) as [Hq'|?]; [rewrite Hq in Hq'; set_solver | done].
    - destruct (H5 n refs n' h' IH Hv Hin) as [Hq'|?]; [rewrite Hq in Hq'; set_solver | done]. }
  assert (Hseen : forall n, n ∈ seen c <-> exists h, queued seeds n h).
  { intros n. split; [apply H2 | intros [h Hh]; by apply Hall in Hh as [? _]]. }
  assert (Hreq : forall n, n ∈ required c <-> queued seeds n true).
  { intros n. split; [apply H3 | intros Hh; apply Hall in Hh as [_ H]; by apply H]. }
  split; [done |]. split; [done |]. split.
  - intros n. unfold unresolved. rewrite elem_of_sorted_of, list_elem_of_filter, Hreq, H6.
    split.
    + intros [[Hp Hr] Hn]. split; [done |]. split; [done |]. destruct (visit_module n) eqn:Ev; try done;
        destruct Hr; (split; [| done]); apply Hseen; by exists true.
    + intros (Hp & Hn & Hv). split; [| done]. split; [done |]. by intros [_ Hnv].
  - split; [intros n; by rewrite H7, Hseen |]. intros n h Hn. apply H8, Hseen. by exists h.
Qed.

(** C33. The import closure is exactly what imports reach, and the loop that
    computes it stops.  Its modules are the names reached from the seeds through the files that
    parse, the stub namespaces being leaves; unresolved are the names inside the package that some
    import needs as a module and that have no file, however often and in whatever
    order the same name was also met as a mere attribute.  The one error is a file that is
    not UTF-8 among those reached. *)
Theorem import_closure_exact seeds : exists r, import_closure seeds = Some r /\
  match r with
  | Ok c => is_closure seeds c
  | Raise e => e = ValueError /\ exists n h, queued seeds n h /\ visit_module n = BadText
  end.
Proof.
  destruct (loop_enough seeds) as [r E]. exists r. split; [done |].
  pose proof (loop_closing _ _ _ _ (closing_start seeds) E) as H. destruct r as [c|e]; [| done].
  destruct H. by apply closed_is_closure.
Qed.

End closure.
