(* ===== verification/MgemmAudit.v ===== *)
(** * The mgemm audit

    Model of [scripts/audit_exl3_mgemm_indices.py] over [ImportClosure]: the checks on the
    extension's sources, the seeds and the stub contract of the overlay, the call sites, and the verdict.
    [Abort] is [RuntimeError].  Arguments stand for Python's parser and for running the overlay's installer. *)
From Stdlib Require Import ZArith Lia String Ascii.
From stdpp Require Import base gmap list strings sets sorting.
From S2P Require Import Prelude PyStr PyDict PyRe ImportClosure.
#[local] Open Scope string_scope.
#[local] Open Scope nat_scope.

Definition MAX_INDICES_DECL : string := "#define MAX_INDICES 128".
Definition V_INDICES_DECL : string := "__device__ int64_t v_indices[128];".
Definition V_WEIGHTS_DECL : string := "__device__ half v_weights[128];".
Definition SERVING_CALL_GEMM_GR : string := "exl3_gemm_gr(".
Definition SERVING_CALL_GEMM : string := "exl3_gemm(".
Definition SERVING_CLASS : string := "BC_LinearEXL3::run_gr".
Definition SLICED_GUARD : string := "min_index < 0".
Definition PER_MATRIX_GUARD : string := "per-matrix widths incompatible".

Definition is_nl (c : ascii) : bool := Ascii.eqb c "010".
Definition ws : re := Many is_space.
Definition chr_ (c : ascii) : re := Chr (Ascii.eqb c).
Definition ident_start (c : ascii) : bool := is_word c && negb ((48 <=? nat_of_ascii c) && (nat_of_ascii c <=? 57)).

Definition WRITE_RE : re :=
  Seq [Bound; Group 1 (Or (Lit "v_indices") (Lit "v_weights")); ws; chr_ "["; Many (isnt "]"); chr_ "]"; ws; chr_ "="].
Definition GLOBAL_RE : re :=
  Seq [Lit "__global__"; Many (isnt "010"); chr_ "010"; ws; Lit "void"; Some1 is_space; Group 1 (Some1 is_word); ws; chr_ "("].
Definition mgemm_name : re := Cat (Lit "exl3_mgemm") (Many is_word).
Definition CALL_RE : re :=
  Or (Seq [Bound; Lit "ext."; Group 1 mgemm_name; ws; chr_ "("]) (Seq [Bound; Group 2 mgemm_name; ws; chr_ "("]).
Definition EXT_SYMBOL_RE : re := Seq [Bound; Lit "exllamav3_ext."; Group 1 (Cat (Chr ident_start) (Many is_word))].
Definition MGEMM_BIND_RE : re := Seq [Lit "m.def("; ws; chr_ "034"; Group 1 mgemm_name; chr_ "034"].

(** [findall] of a pattern with one group. *)
Definition findall (r : re) (s : string) : list string := map (fun f => default "" (group_of 1 (f_groups f))) (finditer r s).

(** [_read]. *)
Definition _read (f : option source) : res string :=
  match f with
  | None | Some Unreadable => Raise RuntimeError
  | Some Undecodable => Raise ValueError
  | Some (Text s) => Ok s
  end.

Definition require_in (needle s : string) : res unit := if str_in needle s then Ok tt else Raise RuntimeError.

(** ** The extension's sources *)

Record writer := Writer { w_array : string; w_line : nat; w_kernel : option string }.

Definition line_of (s : string) (offset : nat) : nat := str_count newline (take_str offset s) + 1.

(** From the end of a kernel's head to the start of the next one. *)
Fixpoint kernel_bounds (spans : list found) (len : nat) : list (string * nat * nat) :=
  match spans with
  | [] => []
  | f :: spans =>
      (default "" (group_of 1 (f_groups f)), f_end f, match spans with g :: _ => f_start g | [] => len end) :: kernel_bounds spans len
  end.

Definition owner (bounds : list (string * nat * nat)) (offset : nat) : option string :=
  (fun b => b.1.1) <$> List.find (fun b => (b.1.2 <=? offset) && (offset <? b.2)) bounds.

Definition outside (w : writer) : bool := negb (bool_decide (w_kernel w = Some "exl3_mgemm_kernel")).

Record scratch := Scratch { max_indices : Z; writers : list writer; kernels : list string; writes_outside_mgemm_kernel : list writer }.

Definition kernel_scratch (kernel_src : string) : res scratch :=
  _ ← require_in MAX_INDICES_DECL kernel_src;
  _ ← require_in V_INDICES_DECL kernel_src;
  _ ← require_in V_WEIGHTS_DECL kernel_src;
  match finditer GLOBAL_RE kernel_src with
  | [] => Raise RuntimeError
  | spans =>
      let bounds := kernel_bounds spans (String.length kernel_src) in
      let ws := map (fun f => Writer (default "" (group_of 1 (f_groups f))) (line_of kernel_src (f_start f)) (owner bounds (f_start f)))
                  (finditer WRITE_RE kernel_src) in
      match ws with
      | [] => Raise RuntimeError
      | _ => Ok (Scratch 128 ws (map (fun b => b.1.1) bounds) (base.filter (fun w => outside w) ws))
      end
  end.

(** [s.index(needle)]. *)
Fixpoint str_find (needle s : string) : option nat :=
  if String.prefix needle s then Some 0
  else match s with EmptyString => None | String _ t => S <$> str_find needle t end.

(** The text the audit takes for the body of [run_gr]: [end] counts from the start of the file, and is
    added to [start] all the same. *)
Definition serving_body (linear_src : string) : option string :=
  start ← str_find SERVING_CLASS linear_src;
  let rest := drop_str start linear_src in
  Some (match str_find (newline ++ "void ") rest with
        | None => rest
        | Some k => let end_ := start + k in take_str end_ rest
        end).

(** [serving_path]: whether the entry calls [exl3_mgemm]. *)
Definition serving_path (linear_src : string) : res bool :=
  match serving_body linear_src with
  | None => Raise RuntimeError
  | Some body =>
      _ ← require_in SERVING_CALL_GEMM_GR body;
      _ ← require_in SERVING_CALL_GEMM body;
      Ok (str_in "exl3_mgemm" body)
  end.

Definition gemm_guards (gemm_src : string) : res unit :=
  _ ← require_in "exl3_mgemm_gr" gemm_src; _ ← require_in SLICED_GUARD gemm_src; require_in PER_MATRIX_GUARD gemm_src.

Definition mgemm_entry_points (bindings_src : string) : res (list string) :=
  match findall MGEMM_BIND_RE bindings_src with [] => Raise RuntimeError | l => Ok l end.

(** [worst_case_slots]. *)
Record slots := Slots { production_top_k : Z; production_max_num_seqs : Z; production_draft_tokens : Z;
  num_tokens_1_slots_batch_x_topk : Z; num_tokens_gt_1_slots_bszm : Z }.

Definition worst_case_slots (top_k max_num_seqs draft_tokens : Z) : slots :=
  let decode := (max_num_seqs * (draft_tokens + 1))%Z in Slots top_k max_num_seqs draft_tokens decode decode.

(** ** The package *)

Definition is_py (path : list string) : bool :=
  match last path with Some f => String.eqb (String.substring (String.length f - 3) 3 f) ".py" | None => false end.

(** The files [rglob] gives: below the package's directory, no caches. *)
Definition listed (path : list string) : bool := (2 <=? length path) && is_py path && bool_decide ("__pycache__" ∉ path).

Definition stem_of (file : string) : string := if String.eqb file ".py" then file else String.substring 0 (String.length file - 3) file.

(** [_module_name]: a package's [__init__] keeps its name. *)
Definition _module_name (path : list string) : string :=
  join_dots (take (length path - 1) path ++ [stem_of (default "" (last path))])%list.

Definition call_lines (text : string) : list nat := map (fun f => line_of text (f_start f)) (finditer CALL_RE text).

Fixpoint call_sites_of (l : list (list string * source)) (sites : list (string * list nat)) : res (list (string * list nat)) :=
  match l with
  | [] => Ok sites
  | (path, src) :: l =>
      if listed path then
        match src with
        | Unreadable => call_sites_of l sites
        | Undecodable => Raise ValueError
        | Text text => match call_lines text with
                       | [] => call_sites_of l sites
                       | hits => call_sites_of l (dict_set (_module_name path) hits sites)
                       end
        end
      else call_sites_of l sites
  end.

(** [mgemm_call_sites], in the order of the map. *)
Definition mgemm_call_sites (fs : files) : res (list (string * list nat)) := call_sites_of (map_to_list fs) [].

(** ** The overlay *)

(** No argument, no directory, or its Python files in order. *)
Inductive overlay_dir := NoOverlay | MissingOverlay | Overlay (l : list (string * source)).

Definition in_exllamav3 (name : string) : bool := String.eqb name "exllamav3" || String.prefix "exllamav3." name.

Section overlay.
Context (parse : string -> option tree) (run_installer : string -> option (list string)).

(** The modules one statement imports. *)
Definition node_seeds (n : node) : list string :=
  match n with
  | Import _ names => base.filter (fun a => in_exllamav3 a) names
  | ImportFrom _ O (Some module) _ => if in_exllamav3 module then [module] else []
  | _ => []
  end.

Fixpoint seeds_of (l : list (string * source)) : res (list string) :=
  match l with
  | [] => Ok []
  | (_, Undecodable) :: _ => Raise ValueError
  | (_, Unreadable) :: l => seeds_of l
  | (_, Text s) :: l =>
      rest ← seeds_of l;
      Ok (match parse s with Some t => flat_map node_seeds (nodes t) ++ rest | None => rest end)%list
  end.

(** [overlay_module_seeds]. *)
Definition overlay_module_seeds (o : overlay_dir) : res (list string) :=
  match o with
  | NoOverlay => Ok []
  | MissingOverlay | Overlay [] => Raise RuntimeError
  | Overlay l => seeds ← seeds_of l; Ok (sorted_of String.leb seeds)
  end.

Fixpoint symbols_of (l : list (string * source)) : res (list string) :=
  match l with
  | [] => Ok []
  | (_, Undecodable) :: _ => Raise ValueError
  | (_, Unreadable) :: l => symbols_of l
  | (_, Text s) :: l => rest ← symbols_of l; Ok (findall EXT_SYMBOL_RE s ++ rest)%list
  end.

(** [overlay_ext_symbols]. *)
Definition overlay_ext_symbols (o : overlay_dir) : res (list string) :=
  match o with
  | NoOverlay => Ok []
  | MissingOverlay => Raise RuntimeError
  | Overlay l => symbols ← symbols_of l; match symbols with [] => Raise RuntimeError | _ => Ok symbols end
  end.

(** *** What the stub installs *)

Definition _callee_name (func : expr) : option string :=
  match func with Attribute _ attr => Some attr | Name id => Some id | _ => None end.

Definition is_callee (name : string) (func : expr) : bool := bool_decide (_callee_name func = Some name).

(** [_module_type_name]. *)
Definition _module_type_name (value : expr) : list string :=
  match value with
  | CallE func args keywords =>
      if is_callee "ModuleType" func then
        match args with
        | Constant s :: _ => [s]
        | _ => match List.find (fun k => match k with (Some n, Constant _) => String.eqb n "name" | _ => false end) keywords with
               | Some (_, Constant s) => [s]
               | _ => []
               end
        end
      else []
  | _ => []
  end.

Definition is_module_type (value : expr) : bool :=
  match value with CallE func _ _ => is_callee "ModuleType" func | _ => false end.

Definition children (e : expr) : list expr :=
  match e with
  | Attribute v _ => [v]
  | CallE f args kws => f :: args ++ map snd kws
  | Subscript v s => [v; s]
  | Display l | OtherE l => l
  | Constant _ | Name _ => []
  end%list.

Fixpoint size (e : expr) : nat :=
  match e with
  | Attribute v _ => S (size v)
  | CallE f args kws => S (size f + sum_list_with size args + sum_list_with (fun k => size k.2) kws)
  | Subscript v s => S (size v + size s)
  | Display l | OtherE l => S (sum_list_with size l)
  | Constant _ | Name _ => 1
  end.

(** [ast.walk]: breadth first. *)
Fixpoint walk (fuel : nat) (todo : list expr) : list expr :=
  match fuel, todo with
  | S fuel, e :: todo => e :: walk fuel (todo ++ children e)%list
  | _, _ => []
  end.

Definition names_in (e : expr) : list string := omap (M := list) (fun e => match e with Name id => Some id | _ => None end) (walk (size e) [e]).

Definition target_names (targets : list expr) : list string :=
  omap (M := list) (fun e => match e with Name id => Some id | _ => None end) targets.

(** What an assignment assigns, and to what. *)
Definition assigned (n : node) : option (list expr * expr) :=
  match n with
  | Assign targets value => Some (targets, value)
  | AnnAssign target (Some value) => Some ([target], value)
  | _ => None
  end.

(** The variables a module object is assigned to, each with the names it may carry. *)
Definition module_vars (ns : list node) : list (string * list string) :=
  flat_map (fun n => match assigned n with
    | Some (targets, value) => if is_module_type value then map (fun x => (x, _module_type_name value)) (target_names targets) else []
    | None => []
    end) ns.

(** The texts a loop binds its variables to. *)
Definition loop_texts (ns : list node) : list (string * string) :=
  flat_map (fun n => match n with
    | For target (Display items) =>
        flat_map (fun item => match item with
          | Display elts => omap (M := list) (fun p => match p.2 with Constant s => Some (p.1, s) | _ => None end) (zip (names_in target) elts)
          | _ => []
          end) items
    | _ => []
    end) ns.

Definition texts_of {A} (x : string) (l : list (string * A)) : list A := map snd (base.filter (fun p => p.1 = x) l).

Section installed.
Context (ns : list node).

Definition _keys (slice value : expr) : list string :=
  match slice with
  | Constant s => [s]
  | Name id => texts_of id (loop_texts ns)
  | Attribute (Name id) "__name__" =>
      match value with
      | Name x => if String.eqb id x then concat (texts_of x (module_vars ns)) else []
      | _ => []
      end
  | _ => []
  end.

Definition _is_module_value (value : expr) : bool :=
  match value with Name x => bool_decide (x ∈ map fst (module_vars ns)) | _ => is_module_type value end.

(** [_installed_stub_names]. *)
Definition _installed_stub_names : list string :=
  flat_map (fun n => match assigned n with
    | Some (targets, value) =>
        if _is_module_value value then flat_map (fun t => match t with Subscript _ slice => _keys slice value | _ => [] end) targets else []
    | None => []
    end) ns.

End installed.

(** The first of some lines, in the order of the walk. *)
Definition first_line (line : node -> option Z) (ns : list node) : option Z :=
  List.hd_error (omap (M := list) line ns).

Definition installs_at (n : node) : option Z :=
  match n with Call lineno func => if is_callee "inject_config_stub" func then Some lineno else None | _ => None end.

Definition imports_at (n : node) : option Z :=
  match n with
  | ImportFrom lineno _ module _ => if in_exllamav3 (default "" module) then Some lineno else None
  | Import lineno names => if existsb in_exllamav3 names then Some lineno else None
  | _ => None
  end.

Definition installs_first (ns : list node) : bool :=
  match first_line installs_at ns with
  | None => false
  | Some call_line => match first_line imports_at ns with Some i => negb (i <? call_line)%Z | None => true end
  end.

(** [_installer_invocation]. *)
Fixpoint _installer_invocation (l : list (string * source)) : res (option string) :=
  match l with
  | [] => Ok None
  | (_, Unreadable) :: l => _installer_invocation l
  | (_, Undecodable) :: _ => Raise ValueError
  | (name, Text s) :: l =>
      match parse s with
      | Some t => if installs_first (nodes t) then Ok (Some name) else _installer_invocation l
      | None => _installer_invocation l
      end
  end.

Definition missing (names : list string) : list string := base.filter (fun n => n ∉ names) STUB_NAMESPACES.

(** [stub_contract]: the file that runs the installer. *)
Definition stub_contract (o : overlay_dir) : res string :=
  match o with
  | NoOverlay | MissingOverlay => Raise RuntimeError
  | Overlay l =>
      source ← _read (dict_find "exl3_namespace.py" l);
      t ← of_option RuntimeError (parse source);
      if negb (bool_decide ("inject_config_stub" ∈ top_functions t)) then Raise RuntimeError
      else
        match missing (_installed_stub_names (nodes t)) with
        | _ :: _ => Raise RuntimeError
        | [] =>
            installed ← of_option RuntimeError (run_installer source);
            match missing installed with
            | _ :: _ => Raise RuntimeError
            | [] => invoker ← _installer_invocation l; of_option RuntimeError invoker
            end
        end
  end.

(** ** The verdict *)

Inductive verdict := NOT_REACHABLE | REACHABLE_OK | REACHABLE_OVERFLOW | ABORT.

Record report := Report {
  r_verdict : verdict; r_decisive : list string; r_unresolved_calls : list string; r_scratch : scratch; r_closure : closure
}.

(** The deployment: the sources of the extension, the package's parent directory and the overlay. *)
Record deployment := Deployment {
  package_exists : bool; kernel_src : option source; gemm_src : option source; linear_src : option source;
  bindings_src : option source; python_exists : bool; root : string; package : files; overlay : overlay_dir
}.

(** The verdict on the facts. *)
Definition judge (s : scratch) (shapes : slots) (decisive unresolved_calls : list string) : verdict :=
  match writes_outside_mgemm_kernel s with
  | _ :: _ => ABORT
  | [] =>
      match decisive with
      | _ :: _ =>
          let worst := Z.max (num_tokens_1_slots_batch_x_topk shapes) (num_tokens_gt_1_slots_bszm shapes) in
          if (max_indices s <? worst)%Z then REACHABLE_OVERFLOW else REACHABLE_OK
      | [] => match unresolved_calls with _ :: _ => ABORT | [] => NOT_REACHABLE end
      end
  end.

(** [import_closure] as the audit calls it; it always has enough turns. *)
Definition the_closure (d : deployment) (seeds : list string) : res closure :=
  default (Raise OtherException) (import_closure parse (root d) (package d) seeds).

Definition decisive_of (symbols entries : list string) (serving_module : string) (in_sites calls_mgemm : bool) : list string :=
  (base.filter (fun s => s ∈ entries) symbols ++ (if in_sites then [serving_module] else [])
   ++ (if calls_mgemm then [(SERVING_CLASS ++ " -> exl3_mgemm")%string] else []))%list.

Definition audit (d : deployment) (serving_module : string) (shapes : slots) : res report :=
  if negb (package_exists d) then Raise RuntimeError
  else
    kernel ← _read (kernel_src d);
    gemm ← _read (gemm_src d);
    linear ← _read (linear_src d);
    bindings ← _read (bindings_src d);
    s ← kernel_scratch kernel;
    calls_mgemm ← serving_path linear;
    _ ← gemm_guards gemm;
    entries ← mgemm_entry_points bindings;
    _ ← stub_contract (overlay d);
    symbols ← overlay_ext_symbols (overlay d);
    sites ← (if python_exists d then mgemm_call_sites (package d) else Raise RuntimeError);
    overlay_seeds ← overlay_module_seeds (overlay d);
    let seeds := serving_module :: overlay_seeds in
    c ← the_closure d seeds;
    match unresolved (root d) c, unparseable c with
    | [], [] =>
        let in_sites := bool_decide (serving_module ∈ map fst sites) in
        let decisive := decisive_of symbols entries serving_module in_sites calls_mgemm in
        let closure_hits := base.filter (fun n => n ∈ seen c) (map fst sites) in
        let unresolved_calls := base.filter (fun n => n <> serving_module) closure_hits in
        Ok (Report (judge s shapes decisive unresolved_calls) decisive unresolved_calls s c)
    | _, _ => Raise RuntimeError
    end.

(** [main]'s exit code. *)
Definition main (d : deployment) (serving_module : string) (top_k max_num_seqs draft_tokens : Z) : res Z :=
  match audit d serving_module (worst_case_slots top_k max_num_seqs draft_tokens) with
  | Raise RuntimeError => Ok 1%Z
  | Raise e => Raise e
  | Ok r => Ok (match r_verdict r with ABORT => 1 | REACHABLE_OVERFLOW => 2 | _ => 0 end)%Z
  end.

End overlay.

(** ** What a verdict establishes *)

Lemma worst_case_ignores_top_k top_k top_k' max_num_seqs draft_tokens :
  num_tokens_1_slots_batch_x_topk (worst_case_slots top_k max_num_seqs draft_tokens) =
  num_tokens_1_slots_batch_x_topk (worst_case_slots top_k' max_num_seqs draft_tokens).
Proof. done. Qed.

(** A dotted name: no empty part, no cache directory. *)
Definition proper (name : string) : Prop := "" ∉ split_char "."%char name /\ "__pycache__" ∉ split_char "."%char name.

Lemma judge_unreachable s shapes decisive calls : judge s shapes decisive calls = NOT_REACHABLE <->
  writes_outside_mgemm_kernel s = [] /\ decisive = [] /\ calls = [].
Proof.
  unfold judge. destruct (writes_outside_mgemm_kernel s); [| naive_solver]. destruct decisive; [destruct calls; naive_solver |].
  case_match; naive_solver.
Qed.

Lemma call_sites_keys l sites sites' : call_sites_of l sites = Ok sites' ->
  (forall n, n ∈ map fst sites -> n ∈ map fst sites') /\
  forall path text, (path, Text text) ∈ l -> listed path = true -> call_lines text <> [] -> _module_name path ∈ map fst sites'.
Proof.
  revert sites. induction l as [|[path src] l IH]; intros sites E; simpl in E; [injection E as <-; split; [done | set_solver] |].
  assert (Hskip : forall sites, call_sites_of l sites = Ok sites' -> (forall n, n ∈ map fst sites -> n ∈ map fst sites') /\
    forall path text, (path, Text text) ∈ l -> listed path = true -> call_lines text <> [] -> _module_name path ∈ map fst sites')
    by (intros; by apply IH).
  assert (Hother : forall sites, call_sites_of l sites = Ok sites' -> (listed path = true -> forall t, src = Text t -> call_lines t = []) ->
    (forall n, n ∈ map fst sites -> n ∈ map fst sites') /\ forall p t, (p, Text t) ∈ (path, src) :: l ->
    listed p = true -> call_lines t <> [] -> _module_name p ∈ map fst sites').
  { intros k Ek Hno. destruct (Hskip k Ek) as [H1 H2]. split; [done |].
    intros p t [E'|Hin]%elem_of_cons Hl Hc; [| eauto]. injection E' as -> <-. by destruct (Hc (Hno Hl t eq_refl)). }
  destruct (listed path); [| by apply Hother]. destruct src as [| |text]; [by apply Hother | done |].
  destruct (call_lines text) as [|h hits] eqn:Eh; [apply Hother; [done | congruence] |].
  destruct (Hskip _ E) as [H1 H2]. unfold dict_set in H1. split.
  - intros n Hn. apply H1, dict_update_keys. by right.
  - intros p t [E'|Hin]%elem_of_cons; [| eauto]. injection E' as -> ->. intros _ _. apply H1, dict_update_keys. by left.
Qed.

Lemma suffix_py (x : string) : String.substring (String.length (x ++ ".py") - 3) 3 (x ++ ".py") = ".py".
Proof.
  assert (H : forall x y, String.substring (String.length (x ++ y) - String.length y) (String.length y) (x ++ y) = y).
  { clear. intros x y. induction x as [|c x IH].
    - change ("" ++ y) with y. rewrite Nat.sub_diag. induction y as [|c y IH]; [done |]. simpl. by rewrite IH.
    - change (String c x ++ y) with (String c (x ++ y)). cbn [String.length]. rewrite length_app_str in *.
      replace (S (String.length x + String.length y) - String.length y) with (S (String.length x + String.length y - String.length y)) by lia.
      cbn [String.substring]. exact IH. }
  exact (H x ".py").
Qed.

Lemma split_prefix x r : split_char "."%char x = [x] -> split_char "."%char (x ++ String "." r) = x :: split_char "."%char r.
Proof.
  induction x as [|d x IH]; intros E; [done |].
  change (String d x ++ String "." r) with (String d (x ++ String "." r)). simpl in *. destruct (Ascii.eqb d "."); [done |].
  assert (E' : split_char "."%char x = [x]).
  { pose proof (split_nonempty x). destruct (split_char "."%char x) as [|w ws]; [done |]. injection E as -> ->. done. }
  by rewrite (IH E').
Qed.

Lemma stem_of_py (x : string) : x <> "" -> stem_of (x ++ ".py") = x.
Proof.
  intros Hx. unfold stem_of. destruct (String.eqb_spec (x ++ ".py") ".py") as [E|].
  - destruct x as [|c x]; [done |]. apply (f_equal String.length) in E. rewrite length_app_str in E. simpl in E. lia.
  - change 3 with (String.length ".py"). apply substring_stem.
Qed.

(** The file of a module is listed under the module's own name. *)
Lemma listed_module init x : init <> [] -> x <> "" -> "__pycache__" ∉ init ->
  listed (with_py (init ++ [x])%list) = true /\ _module_name (with_py (init ++ [x])%list) = join_dots (init ++ [x])%list.
Proof.
  intros Hi Hx Hc. rewrite with_py_last. split.
  - unfold listed, is_py. rewrite last_snoc, suffix_py, length_app. simpl. destruct init as [|p init]; [done |].
    rewrite bool_decide_eq_true_2; [simpl; by rewrite Nat.add_comm |].
    rewrite elem_of_app, list_elem_of_singleton. intros [?|E]; [done |].
    pose proof (suffix_py x) as H. by rewrite <- E in H.
  - unfold _module_name. rewrite take_last, last_snoc. cbn [default from_option].
    change (id (x ++ ".py")) with (x ++ ".py"). by rewrite stem_of_py.
Qed.

Section soundness.
Context (parse : string -> option tree) (run_installer : string -> option (list string)).

(** A module of the package with a call site is among the audit's call sites. *)
Lemma called_module_found rt fs sites name text : split_char "."%char rt = [rt] -> rt <> "__pycache__" ->
  mgemm_call_sites fs = Ok sites -> proper name -> String.prefix (rt ++ ".") name = true ->
  _resolve_module rt fs name = Some (Text text, false) -> finditer CALL_RE text <> [] -> name ∈ map fst sites.
Proof.
  intros Hrt Hcache Hsites [Hempty Hp] Hpre Hres Hcall. apply prefix_spec in Hpre as [r ->]. rewrite app_assoc_str in *.
  change ("." ++ r) with (String "." r) in *. pose proof (split_prefix rt r Hrt) as Es.
  pose proof (join_split (rt ++ String "." r)) as Hj. unfold _resolve_module in Hres. rewrite Es in Hj, Hempty, Hp, Hres.
  rewrite String.eqb_refl in Hres. destruct (fs !! with_py (rt :: split_char "."%char r)) as [s|] eqn:Ef; [| by case_match].
  injection Hres as ->. destruct (split_char "."%char r) as [|x init _] eqn:Er using rev_ind; [by destruct (split_nonempty r) |].
  change (rt :: init ++ [x])%list with ((rt :: init) ++ [x])%list in *.
  destruct (listed_module (rt :: init) x) as [Hl Hm]; [done | set_solver | set_solver |].
  rewrite <- Hj, <- Hm. destruct (call_sites_keys _ _ _ Hsites) as [_ H]. apply (H _ text); [by apply elem_of_map_to_list | done |].
  unfold call_lines. by destruct (finditer CALL_RE text).
Qed.

(** The modules the serving process imports, from the serving module and the overlay. *)
Definition imported (d : deployment) (serving_module : string) (name : string) (hard : bool) : Prop :=
  exists seeds, overlay_module_seeds parse (overlay d) = Ok seeds /\ queued parse (root d) (package d) (serving_module :: seeds) name hard.


End soundness.

(** ** A small deployment *)

Definition module_type (name : string) : expr := CallE (Attribute (Name "types") "ModuleType") [Constant name] [].

Definition demo_parse (init : string) (s : string) : option tree :=
  if String.eqb s "namespace" then
    Some (Tree ["inject_config_stub"] [
      For (Display [Name "name"; Name "path"])
        (Display [Display [Constant "exllamav3"; OtherE []]; Display [Constant "exllamav3.modules"; OtherE []]; Display [Constant "exllamav3.model"; OtherE []]]);
      Assign [Name "module"] (CallE (Name "ModuleType") [Name "name"] []);
      Assign [Subscript (Name "mapping") (Name "name")] (Name "module");
      Assign [Name "config"] (module_type "exllamav3.model.config");
      Assign [Subscript (Name "mapping") (Attribute (Name "config") "__name__")] (Name "config")])
  else if String.eqb s "exllamav3_ext.exl3_gemm" then
    Some (Tree [] [Call 3 (Name "inject_config_stub"); ImportFrom 5 0 (Some "exllamav3.modules.quant") ["exl3"]])
  else if String.eqb s "serving" then
    Some (Tree [] [ImportFrom 1 3 (Some "model.config") ["Config"]; ImportFrom 2 1 None ["util"]; Import 3 ["torch"]])
  else if String.eqb s "util" then Some (Tree [] [])
  else if String.eqb s init then Some (Tree [] [])
  else None.

Definition demo_install (s : string) : option (list string) := Some STUB_NAMESPACES.

Definition demo_kernel_src : string := String.concat newline [
  MAX_INDICES_DECL; V_INDICES_DECL; V_WEIGHTS_DECL; "template <int b> __global__ __launch_bounds__(256)"; "void exl3_mgemm_kernel(int bszm)";
  "{ v_indices[i] = 0; v_weights [i] = w; }"].
Definition demo_linear (gr_body next_body : string) : string := String.concat newline [
  "#include <torch/extension.h> // bindings of the linear layers, tensor checks and graph launches"; "void BC_LinearEXL3::run_gr(a) {"; gr_body; "}"; ("void BC_Other::run() { " ++ next_body ++ " }")%string].
Definition demo_gr : string := "exl3_gemm_gr(x); exl3_gemm(y);".

Definition demo_deployment (linear init : string) : deployment :=
  Deployment true (Some (Text demo_kernel_src)) (Some (Text "exl3_mgemm_gr min_index < 0 per-matrix widths incompatible"))
    (Some (Text linear)) (Some (Text (unquote "m.def(^exl3_mgemm^, f)"))) true "exllamav3"
    (list_to_map [(["exllamav3"; "modules"; "quant"; "__init__.py"], Text init); (["exllamav3"; "modules"; "quant"; "exl3.py"], Text "serving");
                  (["exllamav3"; "modules"; "quant"; "util.py"], Text "util"); (["exllamav3"; "modules"; "attn.py"], Text "ext.exl3_mgemm(")])
    (Overlay [("exl3_namespace.py", Text "namespace"); ("loader.py", Text "exllamav3_ext.exl3_gemm")]).

Definition demo_audit (linear init : string) : res report :=
  audit (demo_parse init) demo_install (demo_deployment linear init) "exllamav3.modules.quant.exl3" (worst_case_slots 8 4 7).

Definition verdict_of (r : res report) : option verdict := match r with Ok r => Some (r_verdict r) | Raise _ => None end.


(** The same deployment, with a call in the [__init__] of the package the serving module's relative import loads:
    the file's own name ends in [__init__], the import's does not, and the verdict stays. *)
Example package_call_site_missed :
  let init := "exl3_mgemm(x)" in
  verdict_of (demo_audit (demo_linear demo_gr "") init) = Some NOT_REACHABLE /\
  _resolve_module "exllamav3" (package (demo_deployment "" init)) "exllamav3.modules.quant" = Some (Text init, true) /\
  call_lines init = [1].
Proof. vm_compute. done. Qed.

(** The body of the serving entry is cut too late: a call in the function after it counts as its own,
    and makes up for one it does not have. *)
Example next_function_counts :
  serving_path (demo_linear "" demo_gr) = Ok false /\ serving_path (demo_linear demo_gr "exl3_mgemm(z);") = Ok true.
Proof. vm_compute. done. Qed.

(** 4 sequences with 64 experts each are 256 slots; the audit counts 32. *)
Example top_k_does_not_count :
  main (demo_parse "init") demo_install (demo_deployment (demo_linear (demo_gr ++ " exl3_mgemm(z);") "") "init") "exllamav3.modules.quant.exl3" 64 4 7 = Ok 0%Z /\
  verdict_of (audit (demo_parse "init") demo_install (demo_deployment (demo_linear (demo_gr ++ " exl3_mgemm(z);") "") "init")
    "exllamav3.modules.quant.exl3" (worst_case_slots 64 4 7)) = Some REACHABLE_OK.
Proof. vm_compute. done. Qed.
