(* ===== verification/SmokeContract.v ===== *)
(** * The tool-serving smoke

    Model of [scripts/smoke_shared_experts.py]: the declared requests, the contract of
    the tools, the verdict on one tool call, the record of one request, and the receipt of
    a run.  What the server answers and what the log commands print is arbitrary; texts
    are ASCII where a pattern searches them.  A call passes exactly when it answers its
    request. *)
From Stdlib Require Import ZArith QArith Lia String Ascii.
From stdpp Require Import base list strings pretty sets.
From S2P Require Import Prelude PyStr PyNum PyDict PyJson PyRe WindowEnv.
#[local] Open Scope string_scope.

(** ** What is declared *)

Definition REQUESTS : list (string * string * option string) := [
  ("tool-weather", "What is the weather in Lisbon right now? Use the tool, in celsius.", Some "get_weather");
  ("tool-add", "Add 4217 and 1938. Use the tool.", Some "add_numbers");
  ("plain-1", "Reply with exactly the word READY.", None);
  ("plain-2", "Name the three primary colours, comma separated. No other text.", None)].

Record contract := Contract {
  properties : list string;
  expected : list (string * string);
  operand_sets : option (list (list Z)) }.

Definition TOOL_CONTRACT : list (string * contract) := [
  ("get_weather", Contract ["city"; "units"] [("city", "Lisbon"); ("units", "celsius")] None);
  ("add_numbers", Contract ["a"; "b"] [] (Some [[4217; 1938]; [1938; 4217]]%Z))].

(** Patterns under [re.I]. *)
Definition chr_i (c : ascii) : re := Chr (fun d => Ascii.eqb (lower_ascii d) (lower_ascii c)).
Fixpoint LitI (s : string) : re := match s with EmptyString => Eps | String c t => Cat (chr_i c) (LitI t) end.

Definition NAN_RE : re := Or (Seq [Bound; LitI "nan"; Bound]) (LitI "locklock").
Definition ERROR_RE : re :=
  Or (LitI "CUDA error") (Or (LitI "illegal memory access") (Or (LitI "NCCL error") (Or (LitI "NCCL WARN")
    (Or (LitI "RuntimeError") (Or (LitI "EngineDeadError")
      (Or (Seq [LitI "engine core"; Many (isnt "010"); LitI "died"]) (LitI "Traceback (most recent call last)"))))))).

(** [pattern.findall] without groups. *)
Definition findall (r : re) (s : string) : list string :=
  map (fun f => take_str (f_end f - f_start f)%nat (drop_str (f_start f) s)) (finditer r s).

(** ** One tool call *)

Inductive reason :=
  | Undeclared
  | NotInteger
  | NotText
  | OtherCity
  | NotInEnum
  | OtherUnits.

(** The lines of [arg_detail]. *)
Inductive detail :=
  | UndeclaredFunction (name : json)
  | OtherFunction (want : string) (name : string)
  | Unparseable (name : string)
  | NotArguments (name : string)
  | Missing (name : string) (keys : list string)
  | Extra (name : string) (keys : list string)
  | BadArgument (name key : string) (r : reason)
  | WrongOperands (name : string)
  | ArgsOk (name : string)
  | ExpectedOneCall (n : nat)
  | NoToolsOffered (n : nat).

Definition contract_of (tool : string) : res contract := of_option KeyError (dict_find tool TOOL_CONTRACT).

(** [_check_argument]: [None] is the empty string. *)
Definition _check_argument (tool key : string) (value : json) : res (option reason) :=
  c ← contract_of tool;
  if negb (bool_decide (key ∈ properties c)) then Ok (Some Undeclared)
  else if String.eqb tool "add_numbers" then
    Ok (match strict_int value with Some _ => None | None => Some NotInteger end)
  else
    expected ← of_option KeyError (dict_find key (expected c));
    match value with
    | JStr text =>
        if String.eqb (strip text) "" then Ok (Some NotText)
        else if String.eqb key "city" then
          Ok (if str_in (lower expected) (lower text) then None else Some OtherCity)
        else if String.eqb key "units" then
          Ok (if negb (bool_decide (text ∈ ["celsius"; "fahrenheit"])) then Some NotInEnum
              else if String.eqb text expected then None else Some OtherUnits)
        else Ok None
    | _ => Ok (Some NotText)
    end.

(** [got in operand_sets]. *)
Definition operands_equal (got : list json) (set : list Z) : bool :=
  (length got =? length set)%nat && forallb (fun p => num_eq p.1 p.2) (combine got set).

(** The part of [validate_call] after the arguments are an object. *)
Definition check_arguments (name : string) (parsed : list (string * json)) : res (bool * list detail) :=
  c ← contract_of name;
  let declared := properties c in
  let missing := base.filter (fun key => key ∉ map fst parsed) declared in
  let extra := base.filter (fun key => key ∉ declared) (map fst parsed) in
  reasons ← mapM (fun p => r ← _check_argument name p.1 p.2; Ok (p.1, r)) parsed;
  let bad := omap (fun p => BadArgument name p.1 <$> p.2) reasons in
  let found := ((if bool_decide (missing = []) then [] else [Missing name missing]) ++
    (if bool_decide (extra = []) then [] else [Extra name extra]) ++ bad)%list in
  let ok := bool_decide (missing = []) && bool_decide (extra = []) && match bad with [] => true | _ => false end in
  match operand_sets c with
  | Some sets =>
      let got := map (fun key => default JNull (dict_find key parsed)) declared in
      if ok && negb (existsb (operands_equal got) sets) then Ok (false, (found ++ [WrongOperands name])%list)
      else Ok (ok, match found with [] => [ArgsOk name] | _ => found end)
  | None => Ok (ok, match found with [] => [ArgsOk name] | _ => found end)
  end.

Section smoke.
Context (chr : Z -> string) (say : detail -> string).

(** [name not in TOOL_CONTRACT]: an unhashable name raises. *)
Definition declared_function (name : json) : res (option string) :=
  match name with
  | JStr s => Ok (if bool_decide (s ∈ map fst TOOL_CONTRACT) then Some s else None)
  | JList _ | JDict _ => Raise TypeError
  | _ => Ok None
  end.

Definition other_function (expected_function : option string) (name : string) : option detail :=
  want ← expected_function; if String.eqb name want then None else Some (OtherFunction want name).

Definition validate_call (call : json) (expected_function : option string) : res (bool * list detail) :=
  call ← match call with JDict d => Ok d | _ => Raise AttributeError end;
  fn ← or_dict (get "function" call);
  let name := get "name" fn in
  declared ← declared_function name;
  match declared with
  | None => Ok (false, [UndeclaredFunction name])
  | Some name =>
      match other_function expected_function name with
      | Some d => Ok (false, [d])
      | None =>
          let arguments := get "arguments" fn in
          text ← (if falsy arguments then Ok "" else match arguments with JStr s => Ok s | _ => Raise TypeError end);
          match json_loads chr text with
          | Raise _ => Ok (false, [Unparseable name])
          | Ok (JDict d) => check_arguments name (dict_of d)
          | Ok _ => Ok (false, [NotArguments name])
          end
      end
  end.

(** ** One request *)

Inductive outcome :=
  | HTTPError (code : Z) (text : string)
  | Failed (text : string)
  | Answered (elapsed : Q) (data : json).

(** [(data.get("choices") or [{}])[0]]. *)
Definition first_choice (data : json) : res json :=
  d ← match data with JDict d => Ok d | _ => Raise AttributeError end;
  let choices := get "choices" d in
  if falsy choices then Ok (JDict [])
  else match choices with
       | JList (c :: _) => Ok c
       | JStr (String c _) => Ok (JStr (String c ""))
       | JDict _ => Raise KeyError
       | _ => Raise TypeError
       end.

(** The slice, the length, the search and the loop on the two fields, in this order. *)
Definition content_and_calls (content calls : json) : res (string * list json) :=
  _ ← match content with JStr _ | JList _ => Ok () | JDict _ => Raise KeyError | _ => Raise TypeError end;
  _ ← match calls with JStr _ | JList _ | JDict _ => Ok () | _ => Raise TypeError end;
  text ← match content with JStr s => Ok s | _ => Raise TypeError end;
  items ← match calls with JList l => Ok l | _ => Raise AttributeError end;
  Ok (text, items).

Definition json_or (v d : json) : json := if falsy v then d else v.

Definition searched (r : re) (s : string) : bool := match search r s with Some _ => true | None => false end.

Definition _one (name : string) (expected_function : option string) (started : Q) (answer : outcome)
    : res (list (string * json)) :=
  let wants_tool := bool_decide (is_Some expected_function) in
  let record := [("name", JStr name); ("wants_tool", JBool wants_tool);
    ("expected_function", from_option JStr JNull expected_function); ("started", JFloat started)] in
  match answer with
  | HTTPError code text => Ok (record ++ [("ok", JBool false); ("http", JInt code); ("error", JStr (take_str 500 text))])%list
  | Failed text => Ok (record ++ [("ok", JBool false); ("error", JStr text)])%list
  | Answered elapsed data =>
      choice ← first_choice data;
      choice ← match choice with JDict d => Ok d | _ => Raise AttributeError end;
      message ← or_dict (get "message" choice);
      p ← content_and_calls (json_or (get "content" message) (JStr "")) (json_or (get "tool_calls" message) (JList []));
      let '(content, calls) := p in
      let n := length calls in
      let nan := searched NAN_RE content in
      verdicts ← mapM (fun call => validate_call call expected_function) calls;
      let one_missing := wants_tool && negb (n =? 1)%nat in
      let invented := negb wants_tool && negb (n =? 0)%nat in
      let args_ok := negb one_missing && negb invented && forallb fst verdicts in
      let arg_detail := ((if one_missing then [ExpectedOneCall n] else []) ++
        (if invented then [NoToolsOffered n] else []) ++ concat (map snd verdicts))%list in
      let ok := (if wants_tool then negb (n =? 0)%nat else negb (String.eqb (strip content) "")) && args_ok && negb nan in
      Ok (record ++ [("elapsed_s", JFloat elapsed); ("finish_reason", get "finish_reason" choice);
        ("content_head", JStr (take_str 200 content)); ("n_tool_calls", JInt (Z.of_nat n)); ("nan", JBool nan);
        ("tool_args_ok", if wants_tool then JBool args_ok else JNull);
        ("tool_arg_detail", JList (map (fun d => JStr (say d)) arg_detail));
        ("tool_call_required", JBool wants_tool); ("ok", JBool ok)])%list
  end.

(** ** The containers' logs *)

Inductive command :=
  | TimeoutExpired
  | OSError (kind text : string)
  | Done (returncode : Z) (stdout stderr : string).

(** [_logs]: the text, and why it is unknown. *)
Definition _logs (done : command) : string * string :=
  match done with
  | TimeoutExpired => ("", "timed out")
  | OSError kind text => ("", kind ++ ": " ++ text)
  | Done returncode stdout stderr =>
      if negb (returncode =? 0)%Z then
        let detail := splitlines "" (strip (if String.eqb stderr "" then stdout else stderr)) in
        ("", "exit " ++ pretty returncode ++ ": " ++ take_str 200 (default "" (last detail)))
      else (stdout ++ stderr, "")
  end.

(** ** A run *)

Definition round_of (answers : nat -> string -> Q * outcome) (round_no : nat) : res (list (list (string * json))) :=
  batch ← mapM (fun spec => let '(name, _, function) := spec in
                            let a := answers round_no name in _one name function a.1 a.2) REQUESTS;
  Ok (map (fun row => row ++ [("round", JInt (Z.of_nat round_no + 1))])%list batch).

Definition not_ok (row : list (string * json)) : bool := falsy (get "ok" row).
Definition text_field (key : string) (row : list (string * json)) : string := match get key row with JStr s => s | _ => "" end.
Definition int_field (key : string) (row : list (string * json)) : Z := match get key row with JInt z => z | _ => 0%Z end.

Definition main (repeat : Z) (answers : nat -> string -> Q * outcome) (head worker : command) (ts : Q) : res (json * Z) :=
  batches ← mapM (round_of answers) (seq 0 (Z.to_nat repeat));
  let results := concat batches in
  let '(head_log, head_failure) := _logs head in
  let '(worker_log, worker_failure) := _logs worker in
  let errors log := sorted_of String.leb (findall ERROR_RE log) in
  let bad := base.filter (fun r => not_ok r) results in
  let ok := match bad with [] => true | _ => false end
    && bool_decide (errors head_log = []) && bool_decide (errors worker_log = [])
    && String.eqb head_failure "" && String.eqb worker_failure "" in
  Ok (JDict [("ts", JFloat ts); ("repeat", JInt repeat); ("requests", JInt (Z.of_nat (length results)));
    ("failed", JInt (Z.of_nat (length bad)));
    ("failed_names", JList (map (fun r => JStr (text_field "name" r ++ "#" ++ pretty (int_field "round" r))) bad));
    ("any_nan", JBool (existsb (fun r => negb (falsy (get "nan" r))) results));
    ("log_errors", JDict [("head", JList (map JStr (errors head_log))); ("worker", JList (map JStr (errors worker_log)))]);
    ("log_failures", JDict [("head", JStr head_failure); ("worker", JStr worker_failure)]);
    ("ok", JBool ok); ("results", JList (map JDict results))],
    if ok then 0%Z else 1%Z).

End smoke.

(** ** A call passes exactly when it answers its request *)

Lemma str_in_cons n c s : str_in n (String c s) = String.prefix n (String c s) || str_in n s.
Proof. done. Qed.

Lemma lower_space a : is_space a = true -> is_space (lower_ascii a) = true.
Proof. destruct a as [[] [] [] [] [] [] [] []]; intros E; first [reflexivity | discriminate E]. Qed.

(** Blank text holds no letter. *)
Lemma blank_lower s n c : strip s = "" -> is_space c = false -> str_in (String c n) (lower s) = false.
Proof.
  intros Hs Hc. assert (Hstep : forall a s, is_space a = true -> str_in (String c n) (lower s) = false ->
    str_in (String c n) (lower (String a s)) = false).
  { clear s Hs. intros a s Ha IH. cbn [lower]. rewrite str_in_cons, IH, orb_false_r.
    apply not_true_iff_false. intros [b E]%prefix_spec. injection E as E _. by rewrite <- E, lower_space in Hc by done. }
  unfold strip in Hs. induction s as [|a s IH]; [done |]. simpl in Hs. destruct (is_space a) eqn:Ea; [by apply Hstep; auto |].
  simpl in Hs. destruct (rstrip s); [| done]. by rewrite Ea in Hs.
Qed.

(** What the arguments of a request's call are. *)
Definition answered (f : string) (parsed : list (string * json)) : Prop :=
  (f = "add_numbers" /\ exists x y, (x, y) ∈ [(4217, 1938); (1938, 4217)]%Z /\
    parsed ≡ₚ [("a", JInt x); ("b", JInt y)]) \/
  (f = "get_weather" /\ exists city, str_in "lisbon" (lower city) = true /\
    parsed ≡ₚ [("city", JStr city); ("units", JStr "celsius")]).

Lemma dict_two {A} (k1 k2 : string) (d : list (string * A)) : k1 <> k2 -> NoDup (map fst d) ->
  base.filter (fun k => k ∉ map fst d) [k1; k2] = [] -> base.filter (fun k => k ∉ [k1; k2]) (map fst d) = [] ->
  exists x y, d ≡ₚ [(k1, x); (k2, y)].
Proof.
  intros Hne Hnd Hm He. assert (Hperm : map fst d ≡ₚ [k1; k2]).
  { apply NoDup_Permutation; [done | | ].
    - apply NoDup_cons. split; [set_solver | apply NoDup_singleton].
    - intros k. split; intros Hk; apply dec_stable; intros Hn.
      + assert (Hin : k ∈ base.filter (fun k => k ∉ [k1; k2]) (map fst d)) by by apply list_elem_of_filter.
        rewrite He in Hin. by apply elem_of_nil in Hin.
      + assert (Hin : k ∈ base.filter (fun k => k ∉ map fst d) [k1; k2]) by by apply list_elem_of_filter.
        rewrite Hm in Hin. by apply elem_of_nil in Hin. }
  apply symmetry, Permutation_map_inv in Hperm as (l & El & Hp). destruct l as [|[a x] [|[b y] [|]]]; try done.
  injection El as -> ->. by exists x, y.
Qed.

Lemma clean_reasons name parsed reasons :
  mapM (fun p => r ← _check_argument name p.1 p.2; Ok (p.1, r)) parsed = Ok reasons ->
  omap (fun p => BadArgument name p.1 <$> p.2) reasons = [] <-> Forall (fun p => _check_argument name p.1 p.2 = Ok None) parsed.
Proof.
  revert reasons. induction parsed as [|[k v] l IH]; intros reasons E; cbn in E; [injection E as <-; split; constructor |].
  destruct (_check_argument name k v) as [r|] eqn:Er; [| done]. cbn in E.
  destruct (mapM _ l) as [rs|] eqn:El; [| done]. injection E as <-. specialize (IH _ eq_refl). rewrite Forall_cons. cbn.
  rewrite Er. destruct r as [r|]; cbn; [split; [done | by intros [[=] _]] |]. rewrite IH. tauto.
Qed.

Lemma checked_reasons name parsed : Forall (fun p => _check_argument name p.1 p.2 = Ok None) parsed ->
  exists reasons, mapM (fun p => r ← _check_argument name p.1 p.2; Ok (p.1, r)) parsed = Ok reasons.
Proof.
  induction 1 as [|[k v] l E Hl [rs IH]]; [by eexists |]. cbn in *. rewrite E. cbn. rewrite IH. by eexists.
Qed.

Lemma check_arguments_spec f c k1 k2 parsed : contract_of f = Ok c -> properties c = [k1; k2] -> k1 <> k2 ->
  NoDup (map fst parsed) ->
  (exists d, check_arguments f parsed = Ok (true, d)) <->
  exists x y, parsed ≡ₚ [(k1, x); (k2, y)] /\ _check_argument f k1 x = Ok None /\ _check_argument f k2 y = Ok None /\
    match operand_sets c with Some sets => existsb (operands_equal [x; y]) sets = true | None => True end.
Proof.
  intros Ec Ek Hne Hnd. unfold check_arguments. rewrite Ec. cbn [mbind res_bind]. rewrite Ek. cbv zeta.
  assert (Hfind : forall x y, parsed ≡ₚ [(k1, x); (k2, y)] ->
    map (fun key => default JNull (dict_find key parsed)) [k1; k2] = [x; y]).
  { intros x y Hp. cbn [map]. rewrite !(dict_find_in parsed _ x), !(dict_find_in parsed _ y) by (try done; rewrite Hp; set_solver). done. }
  split.
  - intros [d E]. destruct (mapM _ parsed) as [reasons|] eqn:Er; [| done]. cbn [mbind res_bind] in E.
    set (missing := base.filter _ [k1; k2]) in E. set (extra := base.filter _ (map fst parsed)) in E.
    set (bad := omap _ reasons) in E.
    set (ok := bool_decide (missing = []) && bool_decide (extra = []) && match bad with [] => true | _ => false end) in E.
    assert (Hok : ok = true).
    { destruct (operand_sets c); [| by injection E]. destruct (ok && _); [done | by injection E]. }
    unfold ok in Hok. apply andb_true_iff in Hok as [[Hm%bool_decide_eq_true He%bool_decide_eq_true]%andb_true_iff Hb].
    assert (Hbad : bad = []) by by destruct bad. apply (clean_reasons _ _ _ Er) in Hbad.
    destruct (dict_two k1 k2 parsed Hne Hnd Hm He) as (x & y & Hp). exists x, y. split; [done |].
    rewrite Hp in Hbad. apply Forall_cons in Hbad as [Hx [Hy _]%Forall_cons]. split_and!; [done.. |].
    destruct (operand_sets c) as [sets|]; [| done]. rewrite (Hfind x y Hp) in E.
    destruct (existsb _ sets); [done |]. unfold ok in E. rewrite Hm, He in E. destruct bad; [done | done].
  - intros (x & y & Hp & Hx & Hy & Hs).
    assert (Hall : Forall (fun p => _check_argument f p.1 p.2 = Ok None) parsed).
    { rewrite Hp. by repeat constructor. }
    destruct (checked_reasons _ _ Hall) as [reasons Er]. rewrite Er. cbn [mbind res_bind].
    rewrite (proj2 (clean_reasons _ _ _ Er) Hall).
    assert (Hk : forall k, k ∈ map fst parsed <-> k ∈ [k1; k2]) by (intros k; rewrite Hp; done).
    rewrite (list_filter_none (fun key => key ∉ map fst parsed) [k1; k2]) by (intros k; rewrite Hk; tauto).
    rewrite (list_filter_none (fun key => key ∉ [k1; k2]) (map fst parsed)) by (intros k; rewrite Hk; tauto).
    cbn. destruct (operand_sets c) as [sets|]; [| by eexists]. pose proof (Hfind x y Hp) as Hf. cbn in Hf. rewrite Hf, Hs. by eexists.
Qed.

Lemma add_argument k x : k ∈ ["a"; "b"] -> _check_argument "add_numbers" k x = Ok None <-> exists z, x = JInt z.
Proof.
  intros Hk. assert (E : _check_argument "add_numbers" k x = Ok (match strict_int x with Some _ => None | None => Some NotInteger end)).
  { by apply elem_of_cons in Hk as [->|[= ->]%list_elem_of_singleton]. }
  rewrite E. destruct x; simpl; split; intros H; try done; try (by destruct H); by eexists.
Qed.

Lemma city_check text : _check_argument "get_weather" "city" (JStr text) =
  Ok (if String.eqb (strip text) "" then Some NotText
      else if str_in "lisbon" (lower text) then None else Some OtherCity).
Proof. change (_check_argument "get_weather" "city" (JStr text)) with (if String.eqb (strip text) "" then Ok (Some NotText)
    else Ok (if str_in "lisbon" (lower text) then None else Some OtherCity)). by destruct (String.eqb _ ""). Qed.

Lemma units_check text : _check_argument "get_weather" "units" (JStr text) =
  Ok (if String.eqb (strip text) "" then Some NotText
      else if negb (bool_decide (text ∈ ["celsius"; "fahrenheit"])) then Some NotInEnum
      else if String.eqb text "celsius" then None else Some OtherUnits).
Proof. change (_check_argument "get_weather" "units" (JStr text)) with (if String.eqb (strip text) "" then Ok (Some NotText)
    else Ok (if negb (bool_decide (text ∈ ["celsius"; "fahrenheit"])) then Some NotInEnum
             else if String.eqb text "celsius" then None else Some OtherUnits)). by destruct (String.eqb _ ""). Qed.

Lemma city_argument x : _check_argument "get_weather" "city" x = Ok None <-> exists city, x = JStr city /\ str_in "lisbon" (lower city) = true.
Proof.
  destruct x as [| | | | |text| |]; try (split; [done | by intros (? & ? & _)]).
  rewrite city_check.
  destruct (String.eqb_spec (strip text) "") as [Es|Es].
  - split; [done |]. intros (city & [= <-] & Hin). by rewrite (blank_lower text "isbon" "l") in Hin.
  - destruct (str_in _ _) eqn:E; split; try done; [by eexists | intros (city & [= <-] & Hin)]. by rewrite E in Hin.
Qed.

Lemma units_argument x : _check_argument "get_weather" "units" x = Ok None <-> x = JStr "celsius".
Proof.
  destruct x as [| | | | |text| |]; try done.
  rewrite units_check. split.
  - destruct (String.eqb (strip text) ""); [done |]. case_bool_decide; simpl; [| done]. by destruct (String.eqb_spec text "celsius") as [->|].
  - by intros [= ->].
Qed.

Lemma check_arguments_answered f parsed : f ∈ map fst TOOL_CONTRACT -> NoDup (map fst parsed) ->
  (exists d, check_arguments f parsed = Ok (true, d)) <-> answered f parsed.
Proof.
  intros Hf Hnd. unfold answered. apply elem_of_cons in Hf as [Hf|Hf%list_elem_of_singleton]; simpl in Hf; subst f.
  - rewrite (check_arguments_spec "get_weather" (Contract ["city"; "units"] [("city", "Lisbon"); ("units", "celsius")] None)
      "city" "units" parsed eq_refl eq_refl) by done. cbn [operand_sets]. split.
    + intros (x & y & Hp & (city & -> & Hin)%city_argument & ->%units_argument & _). right. by eauto.
    + intros [[[=] _]|(_ & city & Hin & Hp)]. exists (JStr city), (JStr "celsius"). rewrite city_argument, units_argument. by eauto 6.
  - rewrite (check_arguments_spec "add_numbers" (Contract ["a"; "b"] [] (Some [[4217; 1938]; [1938; 4217]]%Z)) "a" "b" parsed eq_refl eq_refl) by done. cbn [operand_sets]. split.
    + intros (x & y & Hp & (m & ->)%add_argument & (n & ->)%add_argument & Hs); [| set_solver..]. left. split; [done |]. exists m, n.
      split; [| done]. simpl in Hs. unfold operands_equal in Hs. simpl in Hs. rewrite !andb_true_r in Hs.
      apply orb_true_iff in Hs as [[->%Z.eqb_eq ->%Z.eqb_eq]%andb_true_iff|Hs]; [set_solver |].
      apply orb_true_iff in Hs as [[->%Z.eqb_eq ->%Z.eqb_eq]%andb_true_iff|]; [set_solver | done].
    + intros [(_ & m & n & Hmn & Hp)|([=] & _)]. exists (JInt m), (JInt n).
      rewrite !add_argument by set_solver. split_and!; [done | by eexists | by eexists |].
      apply elem_of_cons in Hmn as [[= -> ->]|[= -> ->]%list_elem_of_singleton]; done.
Qed.

(** [validate_call] on a call in which every field has its shape. *)
Lemma declared_name name s : declared_function name = Ok (Some s) <-> name = JStr s /\ s ∈ map fst TOOL_CONTRACT.
Proof.
  destruct name; simpl; try (split; [done | by intros [? _]]). case_bool_decide as H; simpl; [| naive_solver].
  split; [by intros [= <-] | by intros [[= <-] _]].
Qed.

Lemma or_dict_named v fn s : or_dict v = Ok fn -> get "name" fn = JStr s -> v = JDict fn.
Proof.
  unfold or_dict. destruct (falsy v) eqn:E; [by intros [= <-] |]. destruct v; try done. by intros [= <-].
Qed.

Lemma validate_named chr c fn name text f : get "function" c = JDict fn -> get "name" fn = JStr name ->
  get "arguments" fn = JStr text ->
  validate_call chr (JDict c) (Some f) =
    if bool_decide (name ∈ map fst TOOL_CONTRACT) then
      if String.eqb name f then
        match json_loads chr text with
        | Raise _ => Ok (false, [Unparseable name])
        | Ok (JDict d) => check_arguments name (dict_of d)
        | Ok _ => Ok (false, [NotArguments name])
        end
      else Ok (false, [OtherFunction f name])
    else Ok (false, [UndeclaredFunction (JStr name)]).
Proof.
  intros Ec En Ea. unfold validate_call. cbn [mbind res_bind]. rewrite Ec.
  assert (Eo : or_dict (JDict fn) = Ok fn) by by destruct fn. rewrite Eo. cbn [mbind res_bind]. cbv zeta. rewrite En.
  cbn [declared_function mbind res_bind]. case_bool_decide; [| done]. unfold other_function. cbn [mbind option_bind].
  destruct (String.eqb name f); [| done]. rewrite Ea. cbn [falsy].
  destruct (String.eqb_spec text "") as [->|]; done.
Qed.

(** Nothing in the check of the arguments raises. *)
Lemma check_argument_total f k x : f ∈ map fst TOOL_CONTRACT -> exists r, _check_argument f k x = Ok r.
Proof.
  intros Hf. apply elem_of_cons in Hf as [Hf|Hf%list_elem_of_singleton]; simpl in Hf; subst f.
  - destruct (bool_decide (k ∈ ["city"; "units"])) eqn:Hk.
    2: { exists (Some Undeclared). unfold _check_argument.
         change (contract_of "get_weather") with
           (Ok (A := contract) (Contract ["city"; "units"] [("city", "Lisbon"); ("units", "celsius")] None)).
         cbn [mbind res_bind properties]. by rewrite Hk. }
    apply bool_decide_eq_true in Hk.
    apply elem_of_cons in Hk as [Hk|Hk%list_elem_of_singleton]; simpl in Hk; subst k; destruct x; try by eexists.
    + rewrite city_check. by eexists.
    + rewrite units_check. by eexists.
  - unfold _check_argument.
    change (contract_of "add_numbers") with (Ok (A := contract) (Contract ["a"; "b"] [] (Some [[4217; 1938]; [1938; 4217]]%Z))).
    cbn [mbind res_bind properties]. destruct (negb _); by eexists.
Qed.

Lemma check_arguments_total f parsed : f ∈ map fst TOOL_CONTRACT -> exists b d, check_arguments f parsed = Ok (b, d).
Proof.
  intros Hf. unfold check_arguments.
  assert (Hc : exists c, contract_of f = Ok c).
  { apply elem_of_cons in Hf as [Hf|Hf%list_elem_of_singleton]; simpl in Hf; subst f; by eexists. }
  destruct Hc as [c ->]. cbn [mbind res_bind].
  assert (Hr : exists reasons, mapM (fun p => r ← _check_argument f p.1 p.2; Ok (p.1, r)) parsed = Ok reasons).
  { induction parsed as [|[k v] l [rs IH]]; [by eexists |]. cbn. destruct (check_argument_total f k v Hf) as [r ->]. cbn.
    rewrite IH. by eexists. }
  destruct Hr as [reasons ->]. cbn [mbind res_bind]. cbv zeta. destruct (operand_sets c); [destruct (_ && negb _) |]; by do 2 eexists.
Qed.

(** The verdict on a tool request's call: it passes exactly when it calls the function
    asked for with arguments that are an object of the declared keys and the values asked
    for, the two operands in either order, or the city in any case and the unit.  A call that
    is an object whose function is one, named by a text and with a text of arguments, always gets a verdict. *)
Theorem validate_call_iff chr call f : f ∈ map fst TOOL_CONTRACT ->
  ((exists d, validate_call chr call (Some f) = Ok (true, d)) <->
   exists c fn text d, call = JDict c /\ get "function" c = JDict fn /\ get "name" fn = JStr f /\
     get "arguments" fn = JStr text /\ json_loads chr text = Ok (JDict d) /\ answered f (dict_of d)) /\
  (forall c fn name text, call = JDict c -> get "function" c = JDict fn -> get "name" fn = JStr name ->
     get "arguments" fn = JStr text -> exists b d, validate_call chr call (Some f) = Ok (b, d)).
Proof.
  intros Hf. split; [split |].
  - intros [d E]. destruct call as [| | | | | | |c]; try done. unfold validate_call in E. cbn [mbind res_bind] in E.
    destruct (or_dict (get "function" c)) as [fn|] eqn:Efn; [| done]. cbn [mbind res_bind] in E. cbv zeta in E.
    destruct (declared_function (get "name" fn)) as [[name|]|] eqn:En; [| done..]. cbn [mbind res_bind] in E.
    apply declared_name in En as [En _].
    unfold other_function in E. cbn [mbind option_bind] in E. destruct (String.eqb_spec name f) as [->|]; [| done].
    destruct (falsy (get "arguments" fn)) eqn:Ea; [done |].
    destruct (get "arguments" fn) as [| | | | |text| |] eqn:Et; try done. cbn [mbind res_bind] in E.
    destruct (json_loads chr text) as [[| | | | | | |d0]|] eqn:El; try done.
    exists c, fn, text, d0. split_and!; try done; [by eapply or_dict_named |].
    apply check_arguments_answered; [done | apply dict_of_nodup | by eexists].
  - intros (c & fn & text & d & -> & Ec & En & Ea & El & Hans).
    apply check_arguments_answered in Hans as [r Er]; [| done | apply dict_of_nodup]. exists r.
    rewrite (validate_named chr c fn f text) by done. by rewrite bool_decide_eq_true_2, String.eqb_refl, El.
  - intros c fn name text -> Ec En Ea. rewrite (validate_named chr c fn name text) by done.
    destruct (bool_decide (name ∈ map fst TOOL_CONTRACT)) eqn:Hn; [| by do 2 eexists]. apply bool_decide_eq_true in Hn.
    destruct (String.eqb name f); [| by do 2 eexists].
    destruct (json_loads chr text) as [[| | | | | | |d0]|]; try by do 2 eexists. by apply check_arguments_total.
Qed.

Lemma validate_call_iff_witness :
  "add_numbers" ∈ map fst TOOL_CONTRACT /\
  let call := JDict [("function", JDict [("name", JStr "add_numbers");
    ("arguments", JStr (unquote "{^a^: 1938, ^b^: 4217}"))])] in
  exists d, validate_call (fun _ => "") call (Some "add_numbers") = Ok (true, d).
Proof.
  split; [apply list_elem_of_further, list_elem_of_here |]. simpl.
  apply (validate_call_iff (fun _ => "") _ "add_numbers"); [apply list_elem_of_further, list_elem_of_here |].
  do 4 eexists. split_and!; [reflexivity.. | vm_compute; reflexivity |].
  left. split; [reflexivity |]. exists 1938%Z, 4217%Z. split; [apply list_elem_of_further, list_elem_of_here | reflexivity].
Defined.

(** Booleans are no operands, and the other tool's call is none of this request. *)
Example bool_operand : validate_call (fun _ => "") (JDict [("function", JDict [("name", JStr "add_numbers");
    ("arguments", JStr (unquote "{^a^: true, ^b^: 4217}"))])]) (Some "add_numbers") =
  Ok (false, [BadArgument "add_numbers" "a" NotInteger]).
Proof. vm_compute. reflexivity. Qed.

Example other_tool : validate_call (fun _ => "") (JDict [("function", JDict [("name", JStr "add_numbers");
    ("arguments", JStr (unquote "{^a^: 1938, ^b^: 4217}"))])]) (Some "get_weather") =
  Ok (false, [OtherFunction "get_weather" "add_numbers"]).
Proof. vm_compute. reflexivity. Qed.
