(* ===== verification/SharedExpertsGate.v ===== *)
(** * The gate of the shared-experts window

    Model of [scripts/run_shared_experts_window.py]: the receipt of one measured arm, and
    the comparison of two arms and a smoke under the registered gate.  A receipt is a JSON
    value of any shape; commands and benchmark files are arguments.  [ADOPT] is
    given exactly on clean evidence, and the smoke's own receipts are such evidence when
    it exits with zero. *)
From Stdlib Require Import ZArith QArith Qabs Lqa Lia String Ascii.
From stdpp Require Import base list strings sets sorting.
From S2P Require Import Prelude PyStr PyNum PyDict PyJson WindowEnv SmokeContract.
#[local] Open Scope string_scope.

Definition MARKER : string := "[glm53-shared-experts-early]".
Definition LANES : list string := ["structured"; "prose"; "essay"].
Definition FLOORS : list (string * Q) := [("structured", 688 # 10); ("prose", 30); ("essay", 20)]%Q.
Definition PARITY : Q := 97 # 100.
Definition MEMFREE_FLOOR_KIB : Z := 2621440.
Definition NODES : list string := ["head"; "worker"].

(** What a line of the report says; its label comes first in the list's pairs. *)
Inductive complaint :=
  | NotAnObject
  | Field (key : string) (v : json)
  | EntryNotObject (index : nat)
  | EntryUnnamed (index : nat)
  | LaneResults (lane : string) (count : nat)
  | UnexpectedLanes (lanes : list string)
  | LaneField (lane key : string) (v : json)
  | Incoherent (lane : string)
  | NoMemFree
  | NoMemFreeEntry (node : string)
  | Samples (node : string) (v : json)
  | MemFreeMin (node : string) (v : json)
  | MemFreeLow (node : string) (low : Z)
  | NoMarkerCounts
  | MarkerCount (node : string) (v : json)
  | FlagNotArmed
  | NoSmoke
  | NoContract
  | ResultNotObject (index : nat)
  | ResultUnnamed (index : nat)
  | ResultField (index : nat) (key : string) (v : json)
  | ResultNotPassing (index : nat)
  | PlainReports (index : nat) (v : json)
  | PlainCalls (index : nat) (calls : Z)
  | ToolCalls (index : nat) (calls : Z)
  | ResultsForRequests (results : nat) (requests : Z)
  | RoundResults (name : string) (round : Z) (count : nat)
  | UnexpectedRequests (keys : list (string * Z))
  | LogScan (node : string)
  | LogErrors (node : string) (v : json)
  | LogCollection (node : string) (v : json).

Definition problem : Type := string * complaint.

(** [if c: problems.append(...)]. *)
Definition when (c : bool) (p : problem) : list problem := if c then [p] else [].

(** ** Receipts *)

(** The least magnitude that does not convert to a float. *)
Definition FLOAT_LIMIT : Z := (2 ^ 1024 - 2 ^ 970)%Z.

(** An integer too large for a float makes [math.isfinite] raise; a literal as large is infinite. *)
Definition _positive_number (value : json) : res bool :=
  match value with
  | JInt z => if (FLOAT_LIMIT <=? Z.abs z)%Z then Raise OtherException else Ok (0 <? z)%Z
  | JFloat q => Ok (negb (Qle_bool (inject_Z FLOAT_LIMIT) (Qabs q)) && negb (Qle_bool q 0))
  | _ => Ok false
  end.

Definition _lane_entries (receipt : json) : list json :=
  match receipt with
  | JDict d => match get "lanes" d with JList l => l | _ => [] end
  | _ => []
  end.

Definition lane_name (row : json) : option string :=
  match row with JDict d => match get "lane" d with JStr s => Some s | _ => None end | _ => None end.

(** [out.setdefault]: the first row of a lane stays. *)
Definition _lane_rows (receipt : json) : list (string * list (string * json)) :=
  fold_left (fun out row =>
    match row, lane_name row with
    | JDict d, Some lane => match dict_find lane out with Some _ => out | None => dict_set lane d out end
    | _, _ => out
    end) (_lane_entries receipt) [].

Definition _median_lane (receipt : json) (lane : string) : json :=
  match receipt with
  | JDict _ => match dict_find lane (_lane_rows receipt) with Some row => get "tok_s_median" row | None => JNull end
  | _ => JNull
  end.

Definition entry_problem (label : string) (index : nat) (row : json) : list problem :=
  match row with
  | JDict d => match get "lane" d with JStr _ => [] | _ => [(label, EntryUnnamed index)] end
  | _ => [(label, EntryNotObject index)]
  end.

(** The body of the loop over [LANES] on a lane's row. *)
Definition row_problems (label lane : string) (row : list (string * json)) : res (list problem) :=
  let median := get "tok_s_median" row in
  positive ← _positive_number median;
  Ok (when (negb (num_eq (get "returncode" row) 0)) (label, LaneField lane "returncode" (get "returncode" row)) ++
      when (negb positive) (label, LaneField lane "tok_s_median" median) ++
      when (negb (is_bool false (get "any_nan" row))) (label, LaneField lane "any_nan" (get "any_nan" row)) ++
      when (bool_decide (lane ∈ ["prose"; "essay"]) && negb (is_bool true (get "coherent" row))) (label, Incoherent lane))%list.

Definition lane_problems (label : string) (rows : list (string * list (string * json))) (lane : string) : res (list problem) :=
  match dict_find lane rows with None => Ok [] | Some row => row_problems label lane row end.

Definition memory_problems (label : string) (mem : json) : list problem :=
  match mem with
  | JDict mem =>
      concat (map (fun node =>
        match get node mem with
        | JDict entry =>
            let samples := get "samples" entry in
            let low := get "min_kib" entry in
            (when (match strict_int samples with Some n => (n <=? 0)%Z | None => true end) (label, Samples node samples) ++
             match strict_int low with
             | Some z => if (z <=? 0)%Z then [(label, MemFreeMin node low)]
                         else when (z <? MEMFREE_FLOOR_KIB)%Z (label, MemFreeLow node z)
             | None => [(label, MemFreeMin node low)]
             end)%list
        | _ => [(label, NoMemFreeEntry node)]
        end) NODES)
  | _ => [(label, NoMemFree)]
  end.

Definition marker_problems (label : string) (marks : json) (expect_markers : Z) : list problem :=
  match marks with
  | JDict marks =>
      concat (map (fun node => when (negb (num_eq (get node marks) expect_markers)) (label, MarkerCount node (get node marks))) NODES)
  | _ => [(label, NoMarkerCounts)]
  end.

Definition _receipt_failures (label : string) (receipt : json) (expect_markers : Z) : res (list problem) :=
  match receipt with
  | JDict d =>
      let entries := _lane_entries receipt in
      let seen := tally (omap lane_name entries) in
      let extra := sorted_of String.leb (base.filter (fun lane => lane ∉ LANES) (map fst seen)) in
      let rows := _lane_rows receipt in
      lanes ← mapM (lane_problems label rows) LANES;
      Ok (concat (map (fun key => when (negb (num_eq (get key d) 200)) (label, Field key (get key d))) ["health_before"; "health_after"]) ++
          when (match get "lanes" d with JList _ => false | _ => true end) (label, Field "lanes" (get "lanes" d)) ++
          concat (imap (entry_problem label) entries) ++
          concat (map (fun lane => when (negb (tally_of lane seen =? 1)%nat) (label, LaneResults lane (tally_of lane seen))) LANES) ++
          when (negb (bool_decide (extra = []))) (label, UnexpectedLanes extra) ++
          concat lanes ++
          memory_problems label (get "memfree" d) ++
          marker_problems label (get "marker_counts" d) expect_markers)%list
  | _ => Ok [(label, NotAnObject)]
  end.

(** ** The smoke's contract *)

(** The Python objects a module may have under the two names. *)
Inductive obj :=
  | ONone
  | OStr (s : string)
  | OList (l : list obj)
  | OTuple (l : list obj)
  | ODict (keys : list string)
  | OOther.

(** The loaded module: its two attributes, where it has them. *)
Definition module_ : Type := option obj * option obj.

Definition named (o : obj) : option string := match o with OStr s => if String.eqb s "" then None else Some s | _ => None end.

Definition declared_function (contracts : list string) (function : obj) : option (option string) :=
  match function with
  | ONone => Some None
  | _ => f ← named function; if bool_decide (f ∈ contracts) then Some (Some f) else None
  end.

(** One turn of the loop: [None] is [return None]. *)
Definition declare (contracts : list string) (out : list (string * option string)) (entry : obj)
    : option (list (string * option string)) :=
  match entry with
  | OList [name; prompt; function] | OTuple [name; prompt; function] =>
      name ← named name;
      _ ← named prompt;
      function ← declared_function contracts function;
      if bool_decide (name ∈ map fst out) then None else Some (out ++ [(name, function)])%list
  | _ => None
  end.

Fixpoint declare_all (contracts : list string) (out : list (string * option string)) (declared : list obj)
    : option (list (string * option string)) :=
  match declared with
  | [] => Some out
  | entry :: declared => out ← declare contracts out entry; declare_all contracts out declared
  end.

Definition _expected_requests (module : option module_) : option (list (string * option string)) :=
  match module with
  | Some (Some (OList (entry :: declared)), Some (ODict contracts)) => declare_all contracts [] (entry :: declared)
  | _ => None
  end.

(** The module [smoke_shared_experts] is. *)
Definition shipped : module_ :=
  (Some (OList (map (fun r => let '(name, prompt, function) := r in
      OTuple [OStr name; OStr prompt; from_option OStr ONone function]) REQUESTS)),
   Some (ODict (map fst TOOL_CONTRACT))).

(** ** The smoke's receipt *)

Definition smoke_say (c : complaint) : problem := ("smoke", c).

(** [isinstance(v, int) and not isinstance(v, bool) and lo <= v], negated. *)
Definition not_at_least (lo : Z) (v : json) : bool := match strict_int v with Some z => (z <? lo)%Z | None => true end.

Definition same_text (v : json) (want : option string) : bool :=
  match v, want with JNull, None => true | JStr s, Some w => String.eqb s w | _, _ => false end.

(** [_result_failures]; [known] is what the contract says of the result's name. *)
Definition identity_problems (index : nat) (result : list (string * json)) (want_function : option string) : list problem :=
  (when (negb (same_text (get "expected_function" result) want_function))
     (smoke_say (ResultField index "expected_function" (get "expected_function" result))) ++
   concat (map (fun field => when (negb (is_bool (bool_decide (is_Some want_function)) (get field result)))
     (smoke_say (ResultField index field (get field result)))) ["wants_tool"; "tool_call_required"]))%list.

Definition kind_problems (index : nat) (result : list (string * json)) (want_function : option string) (calls : Z) : list problem :=
  match want_function with
  | None =>
      (when (match get "tool_args_ok" result with JNull => false | _ => true end)
         (smoke_say (PlainReports index (get "tool_args_ok" result))) ++
       when (negb (calls =? 0)%Z) (smoke_say (PlainCalls index calls)))%list
  | Some _ =>
      (when (negb (is_bool true (get "tool_args_ok" result))) (smoke_say (ResultField index "tool_args_ok" (get "tool_args_ok" result))) ++
       when (negb (calls =? 1)%Z) (smoke_say (ToolCalls index calls)))%list
  end.

Definition _result_failures (index : nat) (result : json) (expected : option (list (string * option string))) : list problem :=
  match result with
  | JDict result =>
      let name := get "name" result in
      let head :=
        (when (match name with JStr s => String.eqb s "" | _ => true end) (smoke_say (ResultUnnamed index)) ++
         when (not_at_least 1 (get "round" result)) (smoke_say (ResultField index "round" (get "round" result))) ++
         when (negb (is_bool true (get "ok" result))) (smoke_say (ResultNotPassing index)) ++
         when (negb (is_bool false (get "nan" result))) (smoke_say (ResultField index "nan" (get "nan" result))))%list in
      let calls := get "n_tool_calls" result in
      match strict_int calls with
      | Some n =>
          if (n <? 0)%Z then (head ++ [smoke_say (ResultField index "n_tool_calls" calls)])%list
          else
            let known := expected ← expected; match name with JStr s => dict_find s expected | _ => None end in
            match known with
            | Some want => (head ++ identity_problems index result want ++ kind_problems index result want n)%list
            | None => head
            end
      | None => (head ++ [smoke_say (ResultField index "n_tool_calls" calls)])%list
      end
  | _ => [smoke_say (ResultNotObject index)]
  end.

(** The key under which a result is counted. *)
Definition result_key (result : json) : option (string * Z) :=
  match result with
  | JDict d => match get "name" d, get "round" d with JStr name, JInt round => Some (name, round) | _, _ => None end
  | _ => None
  end.

Definition key_leb (a b : string * Z) : bool :=
  match String.compare a.1 b.1 with Lt => true | Gt => false | Eq => (a.2 <=? b.2)%Z end.

(** [range(1, repeat + 1)]. *)
Definition rounds (repeat : Z) : list Z := map (fun n => Z.of_nat n + 1)%Z (seq 0 (Z.to_nat repeat)).

Definition wanted (expected : list (string * option string)) (repeat : Z) : list (string * Z) :=
  concat (map (fun name => map (pair name) (rounds repeat)) (map fst expected)).

Definition coverage_problems (expected : list (string * option string)) (repeat : Z) (results : list json) : list problem :=
  let seen := tally (omap result_key results) in
  let extra := sorted_of key_leb (base.filter (fun key =>
    negb (bool_decide (key.1 ∈ map fst expected)) || negb ((1 <=? key.2) && (key.2 <=? repeat))%Z) (map fst seen)) in
  (concat (map (fun key => when (negb (tally_of key seen =? 1)%nat) (smoke_say (RoundResults key.1 key.2 (tally_of key seen))))
     (wanted expected repeat)) ++
   when (negb (bool_decide (extra = []))) (smoke_say (UnexpectedRequests extra)))%list.

Definition results_problems (smoke : list (string * json)) (expected : option (list (string * option string))) : list problem :=
  match get "results" smoke with
  | JList results =>
      (match strict_int (get "requests" smoke) with
       | Some n => when (negb (Z.of_nat (length results) =? n)%Z) (smoke_say (ResultsForRequests (length results) n))
       | None => []
       end ++
       concat (imap (fun index result => _result_failures index result expected) results) ++
       match expected, strict_int (get "repeat" smoke) with
       | Some expected, Some repeat => coverage_problems expected repeat results
       | _, _ => []
       end)%list
  | v => [smoke_say (Field "results" v)]
  end.

Definition log_error_problems (errors : json) : list problem :=
  match errors with
  | JDict errors =>
      concat (map (fun node =>
        match get node errors with
        | JList [] => []
        | JList l => [smoke_say (LogErrors node (JList l))]
        | _ => [smoke_say (LogScan node)]
        end) NODES)
  | v => [smoke_say (Field "log_errors" v)]
  end.

Definition log_failure_problems (failures : json) : list problem :=
  match failures with
  | JDict failures =>
      concat (map (fun node =>
        match get node failures with
        | JStr s => when (negb (String.eqb s "")) (smoke_say (LogCollection node (JStr s)))
        | v => [smoke_say (LogCollection node v)]
        end) NODES)
  | v => [smoke_say (Field "log_failures" v)]
  end.

Definition smoke_failures (module : option module_) (smoke : json) : list problem :=
  match smoke with
  | JDict d =>
      let expected := _expected_requests module in
      (when (negb (is_bool true (get "ok" d))) (smoke_say (Field "ok" (get "ok" d))) ++
       when (negb (num_eq (get "failed" d) 0)) (smoke_say (Field "failed" (get "failed" d))) ++
       when (negb (is_bool false (get "any_nan" d))) (smoke_say (Field "any_nan" (get "any_nan" d))) ++
       when (match expected with None => true | Some _ => false end) (smoke_say NoContract) ++
       when (not_at_least 1 (get "repeat" d)) (smoke_say (Field "repeat" (get "repeat" d))) ++
       when (not_at_least 1 (get "requests" d)) (smoke_say (Field "requests" (get "requests" d))) ++
       results_problems d expected ++
       log_error_problems (get "log_errors" d) ++
       log_failure_problems (get "log_failures" d))%list
  | _ => [smoke_say NotAnObject]
  end.

(** ** The comparison *)

Definition armed_flag (armed : json) : bool :=
  match armed with
  | JDict d => match get "effective_env" d with
               | JDict env => is_str "1" (dict_get "GLM53_SHARED_EXPERTS_EARLY" env)
               | _ => false
               end
  | _ => false
  end.

(** [smoke] is [None] when no receipt was supplied; a receipt that is [null] counts as none. *)
Definition gate_failures (module : option module_) (control armed smoke : json) : res (list problem) :=
  c ← _receipt_failures "control" control 0;
  a ← _receipt_failures "armed" armed 3;
  Ok (c ++ a ++ when (negb (armed_flag armed)) ("armed", FlagNotArmed) ++
      match smoke with JNull => [smoke_say NoSmoke] | _ => smoke_failures module smoke end)%list.

Inductive throughput := ADOPT | NEED_MORE_DATA | REVERT | PARTIAL_GATE | INVALID.
#[export] Instance throughput_eq_dec : EqDecision throughput.
Proof. solve_decision. Defined.

Record lane_row := LaneRow {
  lane : string;
  r_control : json;
  r_armed : json;
  figures : option (Q * Q * bool * bool * Q) (* delta_pct, ratio, parity, above_floor, floor *) }.

(** A positive number as a float. *)
Definition as_q (v : json) : Q := match v with JInt z => inject_Z z | JFloat q => q | _ => 0%Q end.

Definition compare_lane (control armed : json) (acc : list lane_row * throughput) (lane : string) : res (list lane_row * throughput) :=
  let c := _median_lane control lane in
  let a := _median_lane armed lane in
  c_ok ← _positive_number c;
  usable ← (if c_ok : bool then _positive_number a else Ok false);
  if negb usable then Ok ((acc.1 ++ [LaneRow lane c a None])%list, NEED_MORE_DATA)
  else
    floor ← of_option KeyError (dict_find lane FLOORS);
    let ratio := (as_q a / as_q c)%Q in
    let above_parity := Qle_bool PARITY ratio in
    let above_floor := Qle_bool floor (as_q a) in
    Ok ((acc.1 ++ [LaneRow lane c a (Some ((ratio - 1) * 100, ratio, above_parity, above_floor, floor)%Q)])%list,
        if above_parity && above_floor then acc.2 else REVERT).

Fixpoint compare_lanes (control armed : json) (acc : list lane_row * throughput) (lanes : list string) : res (list lane_row * throughput) :=
  match lanes with
  | [] => Ok acc
  | lane :: lanes => acc ← compare_lane control armed acc lane; compare_lanes control armed acc lanes
  end.

Definition nan_or_malformed (row : json) : bool := match row with JDict d => negb (is_bool false (get "any_nan" d)) | _ => true end.

Definition compare_rows (control armed : json) : res (list lane_row * throughput) :=
  acc ← compare_lanes control armed ([], ADOPT) LANES;
  Ok (acc.1, if existsb nan_or_malformed (_lane_entries control ++ _lane_entries armed) then REVERT else acc.2).

Record document := Document {
  d_rows : list lane_row;
  d_gate_failures : list problem;
  d_complete : bool;
  d_verdict : throughput;
  d_memfree : json * json;
  d_marker_counts : json;
  d_effective_env : json }.

Definition field_of (key : string) (receipt : json) : json := match receipt with JDict d => get key d | _ => JNull end.

(** An empty path is no path. *)
Definition smoke_receipt (load : string -> res json) (smoke : option string) : res json :=
  match smoke with Some path => if String.eqb path "" then Ok JNull else load path | None => Ok JNull end.

(** [compare], up to printing; [load] reads a file and parses it. *)
Definition compare (module : option module_) (load : string -> res json) (control armed : string) (smoke : option string) : res document :=
  c ← load control;
  a ← load armed;
  s ← smoke_receipt load smoke;
  problems ← gate_failures module c a s;
  rows ← compare_rows c a;
  let verdict := match problems with [] => rows.2 | _ => match smoke with None => PARTIAL_GATE | Some _ => INVALID end end in
  Ok (Document rows.1 problems (match problems with [] => true | _ => false end) verdict
        (field_of "memfree" c, field_of "memfree" a) (field_of "marker_counts" a) (field_of "effective_env" a)).

(** ** Measuring an arm *)

(** [int(out) if out.isdigit()]. *)
Fixpoint all_digits (s : string) : bool := match s with EmptyString => true | String c t => is_digit c && all_digits t end.
Definition digits_int (out : string) : option Z :=
  if negb (String.eqb out "") && all_digits out then Some (digits_val 0 out) else None.

(** [MemWatch]: the samples one node gave, and their summary. *)
Definition samples_of (outs : list string) : list Z := omap (fun out => digits_int (strip out)) outs.
Definition summary (values : list Z) : json :=
  JDict [("min_kib", match values with [] => JNull | v :: vs => JInt (fold_left Z.min vs v) end);
    ("max_kib", match values with [] => JNull | v :: vs => JInt (fold_left Z.max vs v) end);
    ("samples", JInt (Z.of_nat (length values)))].

Definition WANTED_ENV : list string := ["GLM53_SHARED_EXPERTS_EARLY"; "GLM53_ROUTER_ONCE"; "GLM53_INDEXER_WORKSPACE"].

Definition _effective_env (raw : string) : list (string * string) :=
  dict_of (base.filter (fun p => p.1 ∈ WANTED_ENV) (omap partition_eq (splitlines "" raw))).

Definition _marker_present (out : string) : Z := default (-1)%Z (digits_int (strip out)).

(** What one benchmark run leaves: its exit code, and the text of its file if there is one. *)
Definition lane_run : Type := Z * option string.

Section measure.
Context (chr : Z -> string) (target : string -> string).

Definition _run_lane (lane : string) (done : lane_run) : res (list (string * json)) :=
  payload ← match done.2 with Some text => json_loads chr text | None => Ok (JDict []) end;
  payload ← match payload with JDict d => Ok d | _ => Raise AttributeError end;
  Ok [("lane", JStr lane); ("returncode", JInt done.1); ("tok_s_median", get "tok_s_median" payload);
    ("tok_s_min", get "tok_s_min" payload); ("tok_s_max", get "tok_s_max" payload); ("ttft_median_s", get "ttft_median_s" payload);
    ("accept_ratio_median", get "accept_ratio_median" payload); ("accepted_per_step_median", get "accepted_per_step_median" payload);
    ("completion_tokens_median", get "completion_tokens_median" payload); ("any_nan", get "any_nan" payload);
    ("coherent", get "coherent" payload); ("health_code_after", get "health_code_after" payload); ("receipt", JStr (target lane))].

Record arm := Arm {
  phase : string;
  ts : Q;
  runs : Z;
  cap : Z;
  health_before : Z;
  health_after : Z;
  env_text : string;
  marker_out : string -> string;
  memory_outs : string -> list string;
  warmup : string -> res ();
  bench : string -> res lane_run }.

(** The loop over [LANES]; a command that times out raises. *)
Definition measure_lane (a : arm) (lane : string) : res (list (string * json)) :=
  _ ← warmup a lane;
  done ← bench a lane;
  _run_lane lane done.

Definition EARLY : string := "GLM53_SHARED_EXPERTS_EARLY".
Definition expected_markers (env : list (string * string)) : Z :=
  if String.eqb (default "<unset>" (dict_find EARLY env)) "1" then 3 else 0.

Definition receipt_of (a : arm) (env : list (string * string)) (marks : list (string * Z)) (lanes : list (list (string * json))) : json :=
  JDict [("phase", JStr (phase a)); ("ts", JFloat (ts a)); ("runs_per_lane", JInt (runs a)); ("cap", JInt (cap a));
    ("health_before", JInt (health_before a)); ("health_after", JInt (health_after a));
    ("effective_env", JDict (map (fun p => (p.1, JStr p.2)) env));
    ("marker_counts", JDict (map (fun p => (p.1, JInt p.2)) marks));
    ("memfree", JDict (map (fun node => (node, summary (samples_of (memory_outs a node)))) NODES));
    ("lanes", JList (map JDict lanes))].

(** [measure]: the exit code, and the receipt when one is written. *)
Definition measure (a : arm) : res (Z * option json) :=
  if negb (health_before a =? 200)%Z then Ok (2%Z, None)
  else
    let env := _effective_env (env_text a) in
    let marks := map (fun node => (node, _marker_present (marker_out a node))) NODES in
    if existsb (fun p => negb (p.2 =? expected_markers env)%Z) marks then Ok (2%Z, None)
    else
      lanes ← mapM (measure_lane a) LANES;
      Ok (0%Z, Some (receipt_of a env marks lanes)).

End measure.

(** ** Silence *)

Lemma when_nil c p : when c p = [] <-> c = false.
Proof. by destruct c. Qed.

Lemma concat_map_nil {A B} (f : A -> list B) l : concat (map f l) = [] <-> forall x, x ∈ l -> f x = [].
Proof.
  induction l as [|x l IH]; simpl; [by split; [intros _ x Hx; set_solver |] |].
  rewrite app_nil, IH. split; [intros [? ?] y [->|?]%elem_of_cons; auto | intros H; split; [apply H; set_solver | intros y ?; apply H; set_solver]].
Qed.

Lemma concat_imap_nil {A B} (f : nat -> A -> list B) l : concat (imap f l) = [] <-> forall i x, l !! i = Some x -> f i x = [].
Proof.
  revert f. induction l as [|x l IH]; intros f; simpl; [by split |]. rewrite app_nil, IH. split.
  - intros [Hx Hl] [|i] y E; [by injection E as <- | by apply (Hl i)].
  - intros H. split; [by apply (H 0%nat) |]. intros i y E. by apply (H (S i)).
Qed.

Lemma sorted_of_nil {A} `{EqDecision A} (leb : A -> A -> bool) l : sorted_of leb l = [] <-> l = [].
Proof.
  split; [| by intros ->]. intros E. destruct l as [|x l]; [done |]. assert (Hx : x ∈ sorted_of leb (x :: l)) by (apply elem_of_sorted_of; left).
  rewrite E in Hx. by apply elem_of_nil in Hx.
Qed.

Lemma filter_nil_Forall {A} (P : A -> Prop) `{!forall x, Decision (P x)} l : base.filter P l = [] <-> Forall (fun x => ~ P x) l.
Proof.
  rewrite Forall_forall. split; [| apply list_filter_none]. intros E x Hx HP.
  assert (Hin : x ∈ base.filter P l) by by apply list_elem_of_filter. rewrite E in Hin. by apply elem_of_nil in Hin.
Qed.

Lemma negb_false_eq b : negb b = false <-> b = true.
Proof. by destruct b. Qed.

(** ** Clean evidence *)

Definition clean_row (lane : string) (row : list (string * json)) : Prop :=
  num_eq (get "returncode" row) 0 = true /\ _positive_number (get "tok_s_median" row) = Ok true /\
  get "any_nan" row = JBool false /\ (lane ∈ ["prose"; "essay"] -> get "coherent" row = JBool true).

(** One row for each lane, and each of them clean. *)
Definition clean_lanes (rows : list (list (string * json))) : Prop :=
  map (get "lane") rows ≡ₚ map JStr LANES /\
  forall row lane, row ∈ rows -> get "lane" row = JStr lane -> clean_row lane row.

Definition clean_memory (mem : list (string * json)) : Prop :=
  forall node, node ∈ NODES -> exists entry n low, get node mem = JDict entry /\
    get "samples" entry = JInt n /\ (0 < n)%Z /\ get "min_kib" entry = JInt low /\ (MEMFREE_FLOOR_KIB <= low)%Z.

Definition clean_receipt (receipt : json) (markers : Z) : Prop :=
  exists d rows mem marks, receipt = JDict d /\
    num_eq (get "health_before" d) 200 = true /\ num_eq (get "health_after" d) 200 = true /\
    get "lanes" d = JList (map JDict rows) /\ clean_lanes rows /\
    get "memfree" d = JDict mem /\ clean_memory mem /\
    get "marker_counts" d = JDict marks /\ forall node, node ∈ NODES -> num_eq (get node marks) markers = true.

(** *** Lanes *)

Lemma entries_named label entries : (forall i x, entries !! i = Some x -> entry_problem label i x = []) <->
  exists rows names, entries = map JDict rows /\ map (get "lane") rows = map JStr names.
Proof.
  split.
  - induction entries as [|x l IH]; intros H; [by exists [], [] |].
    destruct IH as (rows & names & -> & E); [intros i y Hy; by specialize (H (S i) y Hy); destruct y as [| | | | | | |d]; [..| simpl in *; destruct (get "lane" d)] |].
    pose proof (H 0%nat x eq_refl) as Hx. destruct x as [| | | | | | |d]; try done. simpl in Hx.
    destruct (get "lane" d) as [| | | | |name| |] eqn:En; try done. exists (d :: rows), (name :: names). simpl. by rewrite En, E.
  - intros (rows & names & -> & E) i x Hx. apply list_lookup_fmap_Some in Hx as (d & -> & Hd). simpl.
    assert (Hn : (get "lane" <$> rows !! i) = Some (get "lane" d)) by by rewrite Hd.
    rewrite <- list_lookup_fmap in Hn. change (get "lane" <$> rows) with (map (get "lane") rows) in Hn. rewrite E in Hn.
    apply list_lookup_fmap_Some in Hn as (name & -> & _). done.
Qed.

Lemma names_of rows names : map (get "lane") rows = map JStr names -> omap lane_name (map JDict rows) = names.
Proof.
  revert names. induction rows as [|d rows IH]; intros [|n names] E; try done. injection E as En E.
  change (omap lane_name (map JDict (d :: rows))) with (match lane_name (JDict d) with
    Some y => y :: omap lane_name (map JDict rows) | None => omap lane_name (map JDict rows) end).
  cbn [lane_name]. by rewrite En, (IH names).
Qed.

Definition add_row (out : list (string * list (string * json))) (row : json) : list (string * list (string * json)) :=
  match row, lane_name row with
  | JDict d, Some lane => match dict_find lane out with Some _ => out | None => dict_set lane d out end
  | _, _ => out
  end.

(** The first row of a name is the one found. *)
Lemma rows_found rows names out lane : map (get "lane") rows = map JStr names -> NoDup names ->
  (forall n, n ∈ names -> dict_find n out = None) ->
  forall row, dict_find lane (fold_left add_row (map JDict rows) out) = Some row <->
    dict_find lane out = Some row \/ (row ∈ rows /\ get "lane" row = JStr lane).
Proof.
  revert names out. induction rows as [|d rows IH]; intros [|n names] out E Hnd Hout row; simpl in E; try done; [set_solver |].
  injection E as En E. apply NoDup_cons in Hnd as [Hn Hnd]. cbn [map fold_left]. unfold add_row at 2. cbn [lane_name]. rewrite En.
  rewrite Hout by left. unfold dict_set. rewrite (IH names); [| done | done |].
  - rewrite dict_find_update. case_bool_decide as Hl; [subst n |].
    + rewrite (Hout lane) by left. setoid_rewrite elem_of_cons. split.
      * intros [[= ->]|[Hr El]]; right; auto.
      * intros [?|[[->|Hr] El]]; [done | by left | by right].
    + setoid_rewrite elem_of_cons. split; [intros [?|[Hr El]]; auto |].
      intros [?|[[->|Hr] El]]; [by left | | by right]. rewrite En in El. by injection El.
  - intros m Hm. rewrite dict_find_update. case_bool_decide; subst; [done |]. apply Hout. by right.
Qed.

Lemma lane_row_found d rows names lane row : get "lanes" d = JList (map JDict rows) -> map (get "lane") rows = map JStr names ->
  NoDup names -> dict_find lane (_lane_rows (JDict d)) = Some row <-> row ∈ rows /\ get "lane" row = JStr lane.
Proof.
  intros El E Hnd. unfold _lane_rows, _lane_entries. rewrite El.
  pose proof (rows_found rows names [] lane E Hnd ltac:(done) row) as H. unfold add_row in H. rewrite H. split; [by intros [?|?] | by right].
Qed.

Lemma JStr_perm names wanted : map JStr names ≡ₚ map JStr wanted <-> names ≡ₚ wanted.
Proof.
  split; [| by intros ->]. intros (l & E & ->)%Permutation_map_inv.
  assert (Hinj : forall a b, map JStr a = map JStr b -> a = b).
  { induction a as [|x a IH]; intros [|y b]; simpl; try done. intros [= -> ?]. f_equal. by apply IH. }
  by rewrite (Hinj _ _ E).
Qed.

Lemma named_rows rows wanted : map (get "lane") rows ≡ₚ map JStr wanted ->
  exists names, map (get "lane") rows = map JStr names /\ names ≡ₚ wanted.
Proof. intros (l & E & Hl)%Permutation_map_inv. exists l. by split. Qed.

Lemma LANES_nodup : NoDup LANES.
Proof. unfold LANES. repeat (apply NoDup_cons; split; [set_solver |]). constructor. Qed.

Lemma row_problems_nil label lane row : row_problems label lane row = Ok [] <-> clean_row lane row.
Proof.
  unfold row_problems, clean_row. destruct (_positive_number _) as [b|e]; cbn; [| split; [done | by intros (_ & ? & _)]].
  split.
  - intros [= H]. rewrite !app_nil, !when_nil, !negb_false_eq, is_bool_eq in H. destruct H as (Hr & -> & Hn & Hc). split_and!; try done.
    intros Hl. rewrite bool_decide_eq_true_2 in Hc by done. by apply negb_false_eq, is_bool_eq in Hc.
  - intros (Hr & [= ->] & Hn & Hc). rewrite Hr, Hn. simpl. case_bool_decide as Hl; [| done]. by rewrite (Hc Hl).
Qed.

Lemma mapM_nil {A B} (f : A -> res (list B)) l : (exists k, mapM f l = Ok k /\ concat k = []) <-> Forall (fun x => f x = Ok []) l.
Proof.
  induction l as [|x l IH]; [split; [constructor | by exists []] |]. rewrite Forall_cons, <- IH. split.
  - intros (k & E & Ek). cbn in E. destruct (f x) as [y|]; [| done]. cbn in E. destruct (mapM f l) as [ys|]; [| done].
    injection E as <-. apply app_nil in Ek as [-> Ek]. by eauto.
  - intros (E & k & Ek & Hk). exists ([] :: k). cbn. by rewrite E, Ek.
Qed.

Lemma memory_silent label mem : memory_problems label mem = [] <-> exists m, mem = JDict m /\ clean_memory m.
Proof.
  destruct mem as [| | | | | | |m]; try (split; [done | by intros (? & ? & _)]). unfold memory_problems. rewrite concat_map_nil.
  transitivity (clean_memory m); [| naive_solver]. unfold clean_memory. apply forall_proper. intros node.
  destruct (get node m) as [| | | | | | |entry]; try (split; [naive_solver | intros H Hn; destruct (H Hn) as (? & ? & ? & ? & _); done]).
  split; intros H Hn; specialize (H Hn).
  - apply app_nil in H as [Hs Hl]. apply when_nil in Hs. destruct (get "samples" entry) as [| |n| | | | |] eqn:Es; try done.
    simpl in Hs. destruct (get "min_kib" entry) as [| |low| | | | |] eqn:El; try done. simpl in Hl.
    destruct (low <=? 0)%Z; [done |]. apply when_nil in Hl. exists entry, n, low. split_and!; try done; [by apply Z.leb_gt | by apply Z.ltb_ge].
  - destruct H as (e & n & low & [= <-] & -> & Hn0 & -> & Hlow). simpl. assert (E1 : (n <=? 0)%Z = false) by by apply Z.leb_gt.
    unfold MEMFREE_FLOOR_KIB in Hlow. assert (E2 : (low <=? 0)%Z = false) by (apply Z.leb_gt; lia).
    rewrite E1, E2. apply when_nil. by apply Z.ltb_ge.
Qed.

Lemma markers_nil label marks n : marker_problems label marks n = [] <->
  exists m, marks = JDict m /\ forall node, node ∈ NODES -> num_eq (get node m) n = true.
Proof.
  destruct marks as [| | | | | | |m]; try (split; [done | by intros (? & ? & _)]). unfold marker_problems. rewrite concat_map_nil.
  setoid_rewrite when_nil. setoid_rewrite negb_false_eq. naive_solver.
Qed.

(** The structural checks on the lanes: the entries are rows, one for each lane. *)
Lemma lanes_counted label entries :
  (concat (imap (entry_problem label) entries) = [] /\
   concat (map (fun lane => when (negb (tally_of lane (tally (omap lane_name entries)) =? 1)%nat)
     (label, LaneResults lane (tally_of lane (tally (omap lane_name entries))))) LANES) = [] /\
   sorted_of String.leb (base.filter (fun lane => lane ∉ LANES) (map fst (tally (omap lane_name entries)))) = []) <->
  exists rows, entries = map JDict rows /\ map (get "lane") rows ≡ₚ map JStr LANES.
Proof.
  rewrite concat_imap_nil, entries_named, concat_map_nil, sorted_of_nil, filter_nil_Forall.
  setoid_rewrite when_nil. setoid_rewrite negb_false_eq. setoid_rewrite Nat.eqb_eq. split.
  - intros ((rows & names & -> & E) & Hone & Hin). exists rows. split; [done |]. rewrite E, JStr_perm. rewrite (names_of _ _ E) in Hone, Hin.
    apply tally_exact; [apply LANES_nodup |]. split; [by apply Forall_forall |].
    eapply Forall_impl; [exact Hin |]. intros x. apply dec_stable.
  - intros (rows & -> & Hp). destruct (named_rows _ _ Hp) as (names & E & Hn). rewrite (names_of _ _ E).
    apply (tally_exact _ _ LANES_nodup) in Hn as [Hone Hin]. split_and!; [by exists rows, names | by apply Forall_forall |].
    eapply Forall_impl; [exact Hin |]. intros x Hx Hnx. done.
Qed.

(** A receipt without complaint is clean evidence, and conversely. *)
Lemma receipt_clean label receipt markers : _receipt_failures label receipt markers = Ok [] <-> clean_receipt receipt markers.
Proof.
  destruct receipt as [| | | | | | |d]; try (split; [done | by intros (? & ? & ? & ? & ? & _)]).
  unfold _receipt_failures. cbv zeta. set (E := _lane_entries (JDict d)). split.
  - intros H. destruct (mapM (lane_problems label (_lane_rows (JDict d))) LANES) as [lanes|] eqn:Em; [| done]. cbn [mbind res_bind] in H.
    apply Ok_inj in H. apply app_nil in H as [Hh [Hl [He [Hc [Hx [Hk [Hm Hq]%app_nil]%app_nil]%app_nil]%app_nil]%app_nil]%app_nil].
    rewrite concat_map_nil in Hh. setoid_rewrite when_nil in Hh. setoid_rewrite negb_false_eq in Hh.
    apply when_nil, negb_false_eq, bool_decide_eq_true in Hx.
    destruct (proj1 (lanes_counted label E) (conj He (conj Hc Hx))) as (rows & HE & Hp).
    apply memory_silent in Hm as (mem & Emem & Hmem). apply markers_nil in Hq as (marks & Emarks & Hmarks).
    assert (El : get "lanes" d = JList (map JDict rows)).
    { unfold E, _lane_entries in HE. apply when_nil in Hl. destruct (get "lanes" d); try done. by rewrite HE. }
    exists d, rows, mem, marks. split_and!; try done; [apply Hh; set_solver | apply Hh; set_solver |]. split; [done |].
    intros row lane Hr Hlane. destruct (named_rows _ _ Hp) as (names & En & Hn).
    assert (Hin : lane ∈ LANES).
    { rewrite <- Hn. assert (Hj : JStr lane ∈ map (get "lane") rows) by (apply list_elem_of_fmap; by exists row).
      rewrite En in Hj. apply list_elem_of_fmap in Hj as (? & [= ->] & ?). done. }
    assert (Hall : Forall (fun lane => lane_problems label (_lane_rows (JDict d)) lane = Ok []) LANES) by (apply mapM_nil; by exists lanes).
    rewrite Forall_forall in Hall. specialize (Hall _ Hin). unfold lane_problems in Hall.
    rewrite (proj2 (lane_row_found d rows names lane row El En ltac:(rewrite Hn; apply LANES_nodup))) in Hall by done.
    by apply row_problems_nil in Hall.
  - intros (d' & rows & mem & marks & [= <-] & Hb & Ha & El & (Hp & Hrows) & Emem & Hmem & Emarks & Hmarks).
    assert (HE : E = map JDict rows) by (unfold E, _lane_entries; by rewrite El).
    destruct (named_rows _ _ Hp) as (names & En & Hn).
    assert (Hall : Forall (fun lane => lane_problems label (_lane_rows (JDict d)) lane = Ok []) LANES).
    { apply Forall_forall. intros lane _. unfold lane_problems. destruct (dict_find lane _) as [row|] eqn:Er; [| done].
      apply row_problems_nil. apply (lane_row_found d rows names) in Er as [Hr Hlane]; [by apply Hrows | done | done |].
      rewrite Hn. apply LANES_nodup. }
    apply mapM_nil in Hall as (lanes & -> & Hk). cbn [mbind res_bind]. f_equal.
    destruct (proj2 (lanes_counted label E)) as (He & Hc & Hx); [by exists rows |].
    rewrite He, Hc, Hx, Hk, El, (proj2 (memory_silent label _)), (proj2 (markers_nil label _ markers)) by (by eexists).
    cbn. by rewrite Hb, Ha.
Qed.

(** *** The smoke *)

Lemma declare_named contracts out entry out' : declare contracts out entry = Some out' ->
  exists name function, out' = (out ++ [(name, function)])%list /\ name <> "" /\ name ∉ map fst out.
Proof.
  unfold declare. destruct entry as [| |[|a [|b [|c [|]]]]|[|a [|b [|c [|]]]]| |]; try done.
  all: destruct (named a) as [n|] eqn:En; [| done]; cbn [mbind option_bind]; destruct (named b); [| done]; cbn [mbind option_bind];
    destruct (declared_function contracts c) as [f|]; [| done]; cbn [mbind option_bind];
    destruct (bool_decide (n ∈ map fst out)) eqn:Hin; [done |]; apply bool_decide_eq_false in Hin; intros [= <-]; exists n, f;
    split_and!; [done | | done]; destruct a as [|m| | | |]; try done; simpl in En; by destruct (String.eqb_spec m ""); simplify_eq.
Qed.

Lemma declare_all_ok contracts declared out e : declare_all contracts out declared = Some e ->
  NoDup (map fst out) -> "" ∉ map fst out -> NoDup (map fst e) /\ "" ∉ map fst e.
Proof.
  revert out. induction declared as [|entry l IH]; intros out E Hnd Hne; simpl in E; [by injection E as <- |].
  destruct (declare contracts out entry) as [out'|] eqn:Ed; [| done]. apply declare_named in Ed as (n & f & -> & Hn & Hin).
  apply (IH _ E); rewrite map_app; simpl; [| set_solver]. apply NoDup_app. split_and!; [done | set_solver | apply NoDup_singleton].
Qed.

Lemma expected_ok module e : _expected_requests module = Some e -> NoDup (map fst e) /\ "" ∉ map fst e.
Proof.
  unfold _expected_requests. destruct module as [[[[| |[|x l]| | |]|] [[| | | |contracts|]|]]|]; try done.
  intros E. apply (declare_all_ok contracts (x :: l) [] e E); [constructor | set_solver].
Qed.

Lemma rounds_elem repeat z : z ∈ rounds repeat <-> (1 <= z <= repeat)%Z.
Proof.
  unfold rounds. rewrite list_elem_of_fmap. setoid_rewrite elem_of_seq. split; [intros (n & -> & ?); lia |].
  intros Hz. exists (Z.to_nat (z - 1)). lia.
Qed.

Lemma wanted_elem e repeat k : k ∈ wanted e repeat <-> k.1 ∈ map fst e /\ (1 <= k.2 <= repeat)%Z.
Proof.
  unfold wanted. rewrite <- flat_map_concat_map, <- rounds_elem. destruct k as [n z]. cbn [fst snd].
  rewrite list_elem_of_In, in_flat_map. setoid_rewrite <- list_elem_of_In. split.
  - intros (m & Hm & Hz). by apply list_elem_of_fmap in Hz as (? & [= -> ->] & ?).
  - intros [Hn Hz]. exists n. split; [done |]. apply list_elem_of_fmap. by exists z.
Qed.

Lemma wanted_nodup e repeat : NoDup (map fst e) -> NoDup (wanted e repeat).
Proof.
  unfold wanted. induction (map fst e) as [|n l IH]; simpl; [constructor |]. intros [Hn Hl]%NoDup_cons. apply NoDup_app.
  split_and!; [| | by apply IH].
  - apply (NoDup_fmap_2 _). unfold rounds. apply (NoDup_fmap_2_strong _); [intros; lia | apply NoDup_seq].
  - intros [a z] Ha Hb. apply list_elem_of_fmap in Ha as (? & [= -> _] & _). rewrite <- flat_map_concat_map in Hb.
    apply list_elem_of_In, in_flat_map in Hb as (m & Hm%list_elem_of_In & Hb%list_elem_of_In).
    apply list_elem_of_fmap in Hb as (? & [= -> _] & _). done.
Qed.

(** A passing result of a request, whose kind the contract gives. *)
Definition clean_result (want_function : option string) (r : list (string * json)) : Prop :=
  get "ok" r = JBool true /\ get "nan" r = JBool false /\
  same_text (get "expected_function" r) want_function = true /\
  get "wants_tool" r = JBool (bool_decide (is_Some want_function)) /\
  get "tool_call_required" r = JBool (bool_decide (is_Some want_function)) /\
  match want_function with
  | None => get "tool_args_ok" r = JNull /\ get "n_tool_calls" r = JInt 0
  | Some _ => get "tool_args_ok" r = JBool true /\ get "n_tool_calls" r = JInt 1
  end.

Definition key_of (r : list (string * json)) : json * json := (get "name" r, get "round" r).
Definition json_key (k : string * Z) : json * json := (JStr k.1, JInt k.2).

(** Each request of each round once, and each of them passing. *)
Definition clean_results (e : list (string * option string)) (repeat : Z) (results : list (list (string * json))) : Prop :=
  map key_of results ≡ₚ map json_key (wanted e repeat) /\
  forall r name want, r ∈ results -> get "name" r = JStr name -> dict_find name e = Some want -> clean_result want r.

Definition clean_smoke (module : option module_) (smoke : json) : Prop :=
  exists d e repeat results errors failures, smoke = JDict d /\ _expected_requests module = Some e /\
    get "ok" d = JBool true /\ num_eq (get "failed" d) 0 = true /\ get "any_nan" d = JBool false /\
    get "repeat" d = JInt repeat /\ (0 < repeat)%Z /\
    get "requests" d = JInt (Z.of_nat (length results)) /\ results <> [] /\
    get "results" d = JList (map JDict results) /\ clean_results e repeat results /\
    get "log_errors" d = JDict errors /\ (forall node, node ∈ NODES -> get node errors = JList []) /\
    get "log_failures" d = JDict failures /\ (forall node, node ∈ NODES -> get node failures = JStr "").

Lemma not_at_least_false lo v : not_at_least lo v = false <-> exists z, v = JInt z /\ (lo <= z)%Z.
Proof.
  unfold not_at_least. destruct v; simpl; try (split; [done | by intros (? & ? & _)]). rewrite Z.ltb_ge. naive_solver.
Qed.

Lemma strict_int_not v : strict_int v = None -> forall z, v <> JInt z.
Proof. by intros H z ->. Qed.

(** What one result has to say when it is counted and its name is known. *)
Lemma result_nil index result e :
  _result_failures index result (Some e) = [] <->
  exists r name round n, result = JDict r /\ key_of r = json_key (name, round) /\ name <> "" /\ (1 <= round)%Z /\
    get "ok" r = JBool true /\ get "nan" r = JBool false /\ get "n_tool_calls" r = JInt n /\ (0 <= n)%Z /\
    forall want, dict_find name e = Some want -> clean_result want r.
Proof.
  destruct result as [| | | | | | |r]; try (split; [done | by intros (? & ? & ? & ? & ? & _)]).
  unfold _result_failures. cbv zeta. split.
  - destruct (strict_int (get "n_tool_calls" r)) as [n|] eqn:En; [| intros H; by apply app_nil in H as [_ ?]].
    apply strict_int_Some in En. destruct (n <? 0)%Z eqn:Hn; [intros H; by apply app_nil in H as [_ ?] |]. apply Z.ltb_ge in Hn.
    cbn [mbind option_bind]. intros H.
    assert (Hhead : (when (match get "name" r with JStr s => String.eqb s "" | _ => true end) (smoke_say (ResultUnnamed index)) ++
         when (not_at_least 1 (get "round" r)) (smoke_say (ResultField index "round" (get "round" r))) ++
         when (negb (is_bool true (get "ok" r))) (smoke_say (ResultNotPassing index)) ++
         when (negb (is_bool false (get "nan" r))) (smoke_say (ResultField index "nan" (get "nan" r))))%list = []).
    { destruct (match get "name" r with JStr s => dict_find s e | _ => None end); [by apply app_nil in H as [? _] | done]. }
    apply app_nil in Hhead as [Hname [Hround [Hok Hnan]%app_nil]%app_nil].
    rewrite when_nil in Hname, Hround, Hok, Hnan. rewrite negb_false_eq, is_bool_eq in Hok, Hnan.
    apply not_at_least_false in Hround as (round & Eround & Hround).
    destruct (get "name" r) as [| | | | |name| |] eqn:Ename; try done. apply String.eqb_neq in Hname.
    exists r, name, round, n. unfold key_of, json_key. rewrite Ename, Eround. split_and!; try done.
    intros want Hw. rewrite Hw in H. apply app_nil in H as [_ [Hid Hkind]%app_nil].
    apply app_nil in Hid as [Hf Hid]. rewrite when_nil, negb_false_eq in Hf. rewrite concat_map_nil in Hid.
    setoid_rewrite when_nil in Hid. setoid_rewrite negb_false_eq in Hid. setoid_rewrite is_bool_eq in Hid.
    unfold clean_result. split_and!; try done; [apply Hid; set_solver | apply Hid; set_solver |].
    destruct want; apply app_nil in Hkind as [Ha Hc]; rewrite when_nil in Ha, Hc; apply negb_false_eq, Z.eqb_eq in Hc; subst n.
    + by apply negb_false_eq, is_bool_eq in Ha.
    + by destruct (get "tool_args_ok" r).
  - intros (r' & name & round & n & [= <-] & Ek & Hname & Hround & Hok & Hnan & En & Hn & Hw). injection Ek as E1 E2.
    rewrite En, E1, E2, Hok, Hnan. cbn [strict_int]. rewrite (proj2 (Z.ltb_ge n 0)) by done. rewrite (proj2 (String.eqb_neq name "")) by done.
    unfold not_at_least. cbn [strict_int]. rewrite (proj2 (Z.ltb_ge round 1)) by done. cbn [when negb is_bool Bool.eqb app mbind option_bind].
    destruct (dict_find name e) as [want|] eqn:Ew; [| done]. destruct (Hw _ eq_refl) as (_ & _ & Hf & Hwt & Htr & Hkind).
    unfold identity_problems, kind_problems. rewrite Hf. cbn [map concat]. rewrite Hwt, Htr. cbn [is_bool]. rewrite Bool.eqb_reflx. cbn.
    destruct want; destruct Hkind as [-> Hc]; rewrite Hc in En; injection En as <-; done.
Qed.

Lemma keys_of results keys : map key_of results = map json_key keys -> omap result_key (map JDict results) = keys.
Proof.
  revert keys. induction results as [|r l IH]; intros [|[n z] keys] E; try done. injection E as En Ez E.
  change (omap result_key (map JDict (r :: l))) with (match result_key (JDict r) with
    Some y => y :: omap result_key (map JDict l) | None => omap result_key (map JDict l) end).
  cbn [result_key]. by rewrite En, Ez, (IH keys).
Qed.

Lemma json_key_perm keys results want : map key_of results = map json_key keys ->
  (map key_of results ≡ₚ map json_key want <-> keys ≡ₚ want).
Proof.
  intros ->. split; [| by intros ->]. intros (l & E & Hp)%Permutation_map_inv. rewrite Hp. clear Hp.
  revert l E. induction keys as [|[n z] k IH]; intros [|[m y] l] E; try done. injection E as -> -> E. by rewrite (IH l E).
Qed.

Lemma coverage_nil e repeat results : NoDup (map fst e) -> coverage_problems e repeat results = [] <->
  omap result_key results ≡ₚ wanted e repeat.
Proof.
  intros Hnd. rewrite <- (tally_exact _ _ (wanted_nodup e repeat Hnd)). unfold coverage_problems. cbv zeta. rewrite app_nil, concat_map_nil.
  rewrite when_nil, negb_false_eq, bool_decide_eq_true, sorted_of_nil, filter_nil_Forall, !Forall_forall.
  setoid_rewrite when_nil. setoid_rewrite negb_false_eq. setoid_rewrite Nat.eqb_eq. 
  apply Morphisms_Prop.and_iff_morphism; [done |]. apply forall_proper. intros k. apply forall_proper. intros _. rewrite wanted_elem.
  destruct (bool_decide (k.1 ∈ map fst e)) eqn:Ek; [apply bool_decide_eq_true in Ek | apply bool_decide_eq_false in Ek]; simpl.
  - destruct ((1 <=? k.2) && (k.2 <=? repeat))%Z eqn:Er; simpl.
    + bool_to_prop. split; [intros _; split; [done | lia] | tauto].
    + split; [by intros []|]. intros [_ [H1 H2]]. apply andb_false_iff in Er as [?|?]; bool_to_prop; lia.
  - split; [by intros []| tauto].
Qed.

(** The results: all well formed with their keys, and the keys are the wanted ones. *)
Lemma results_nil e repeat results : NoDup (map fst e) -> "" ∉ map fst e ->
  (concat (imap (fun index result => _result_failures index result (Some e)) results) = [] /\ coverage_problems e repeat results = []) <->
  exists rs, results = map JDict rs /\ clean_results e repeat rs.
Proof.
  intros Hnd Hne. rewrite concat_imap_nil, coverage_nil by done. split.
  - intros [Hres Hcov].
    assert (Hform : exists rs keys, results = map JDict rs /\ map key_of rs = map json_key keys /\
      forall r name want, r ∈ rs -> get "name" r = JStr name -> dict_find name e = Some want -> clean_result want r).
    { clear Hcov. assert (Hres' : forall x, x ∈ results -> exists i, _result_failures i x (Some e) = []).
      { intros x [i Hi]%list_elem_of_lookup. exists i. by apply Hres. }
      clear Hres. induction results as [|x l IH]; [exists [], []; split_and!; [done.. | set_solver] |].
      destruct IH as (rs & keys & -> & Ek & Hc); [intros; apply Hres'; set_solver |].
      destruct (Hres' x ltac:(left)) as [i Hx]. apply result_nil in Hx as (r & name & round & n & -> & Ekey & _ & _ & _ & _ & _ & _ & Hw).
      exists (r :: rs), ((name, round) :: keys). split_and!; [done | simpl; by rewrite Ekey, Ek |].
      intros r' name' want [->|Hr]%elem_of_cons En Hf; [| by apply (Hc r' name')]. injection Ekey as En' _. rewrite En' in En.
      injection En as <-. by apply Hw. }
    destruct Hform as (rs & keys & -> & Ek & Hc). rewrite (keys_of _ _ Ek) in Hcov. exists rs. split; [done |]. split; [| done].
    by apply (json_key_perm keys).
  - intros (rs & -> & Hp & Hc). pose proof Hp as (keys & Ek & Hk)%Permutation_map_inv. split; [| by rewrite (keys_of _ _ Ek)].
    intros i x Hx. apply list_lookup_fmap_Some in Hx as (r & -> & Hr). apply list_elem_of_lookup_2 in Hr.
    assert (Hin : key_of r ∈ map json_key keys) by (rewrite <- Ek; apply list_elem_of_fmap; by exists r).
    apply list_elem_of_fmap in Hin as ([name round] & Ekey & Hin). rewrite <- Hk in Hin. apply wanted_elem in Hin as [Hname Hround].
    simpl in Hname, Hround. pose proof Hname as Hf. apply list_elem_of_fmap in Hf as ([? want] & Heq & Hf). simpl in Heq. subst.
    apply (dict_find_in e _ want Hnd) in Hf. injection Ekey as En Ez. pose proof (Hc r _ _ Hr En Hf) as Hcl.
    assert (Hn : exists n, get "n_tool_calls" r = JInt n /\ (0 <= n)%Z).
    { destruct Hcl as (_ & _ & _ & _ & _ & Hk'). destruct want; destruct Hk' as [_ ->]; by eexists. }
    destruct Hn as (n & Hn & Hn0). apply result_nil. exists r, s, round, n. destruct Hcl as (Ho & Hna & Hrest).
    split_and!; try done; [unfold key_of, json_key; by rewrite En, Ez | by intros -> | lia |].
    intros want' Hw. rewrite Hf in Hw. injection Hw as <-. done.
Qed.

Lemma log_errors_nil v : log_error_problems v = [] <-> exists d, v = JDict d /\ forall node, node ∈ NODES -> get node d = JList [].
Proof.
  destruct v as [| | | | | | |d]; try (split; [done | by intros (? & ? & _)]). unfold log_error_problems. rewrite concat_map_nil.
  transitivity (forall node, node ∈ NODES -> get node d = JList []); [| naive_solver].
  apply forall_proper. intros node. apply forall_proper. intros _. by destruct (get node d) as [| | | | | |[|]|].
Qed.

Lemma log_failures_nil v : log_failure_problems v = [] <-> exists d, v = JDict d /\ forall node, node ∈ NODES -> get node d = JStr "".
Proof.
  destruct v as [| | | | | | |d]; try (split; [done | by intros (? & ? & _)]). unfold log_failure_problems. rewrite concat_map_nil.
  transitivity (forall node, node ∈ NODES -> get node d = JStr ""); [| naive_solver].
  apply forall_proper. intros node. apply forall_proper. intros _. destruct (get node d) as [| | | | |s| |]; try done.
  rewrite when_nil, negb_false_eq, String.eqb_eq. naive_solver.
Qed.

(** A smoke's receipt without complaint is clean evidence, and conversely. *)
Lemma smoke_clean module smoke : smoke_failures module smoke = [] <-> clean_smoke module smoke.
Proof.
  destruct smoke as [| | | | | | |d]; try (split; [done | by intros (? & ? & ? & ? & ? & ? & ? & _)]).
  unfold smoke_failures. cbv zeta. split.
  - intros [Hok [Hf [Hn [He [Hr [Hq [Hres [Hle Hlf]%app_nil]%app_nil]%app_nil]%app_nil]%app_nil]%app_nil]%app_nil]%app_nil.
    rewrite when_nil in Hok, Hf, Hn, He, Hr, Hq. rewrite negb_false_eq in Hok, Hf, Hn. rewrite is_bool_eq in Hok, Hn.
    apply not_at_least_false in Hr as (repeat & Er & Hr). apply not_at_least_false in Hq as (requests & Eq & Hq).
    destruct (_expected_requests module) as [e|] eqn:Ee; [| done]. destruct (expected_ok _ _ Ee) as [Hnd Hne].
    apply log_errors_nil in Hle as (errors & Ele & Hle). apply log_failures_nil in Hlf as (failures & Elf & Hlf).
    unfold results_problems in Hres. destruct (get "results" d) as [| | | | | |results|] eqn:Eres; try done. rewrite Er, Eq in Hres.
    cbn [strict_int] in Hres. apply app_nil in Hres as [Hlen Hres%app_nil]. apply (results_nil e repeat results Hnd Hne) in Hres as (rs & -> & Hc).
    apply when_nil, negb_false_eq, Z.eqb_eq in Hlen. rewrite length_map in Hlen.
    exists d, e, repeat, rs, errors, failures. split_and!; try done; [lia | by rewrite Eq, Hlen |]. intros ->. simpl in Hlen. lia.
  - intros (d' & e & repeat & rs & errors & failures & [= <-] & Ee & Hok & Hf & Hn & Er & Hr & Eq & Hne0 & Eres & Hc & Ele & Hle & Elf & Hlf).
    destruct (expected_ok _ _ Ee) as [Hnd Hne].
    assert (Hrn : exists rs', map JDict rs = map JDict rs' /\ clean_results e repeat rs') by by exists rs.
    apply (results_nil e repeat (map JDict rs) Hnd Hne) in Hrn as [Hf1 Hf2].
    unfold results_problems. rewrite Hok, Hf, Hn, Ee, Er, Eq, Eres, Ele, Elf. cbn [is_bool Bool.eqb negb when app strict_int].
    rewrite Hf1, Hf2, length_map, Z.eqb_refl. unfold not_at_least. cbn [strict_int].
    rewrite (proj2 (Z.ltb_ge repeat 1)) by lia. rewrite (proj2 (Z.ltb_ge (Z.of_nat (length rs)) 1)) by (destruct rs; simpl; [done | lia]).
    rewrite (proj2 (log_errors_nil (JDict errors))), (proj2 (log_failures_nil (JDict failures))) by by eexists. done.
Qed.

(** ** The verdict *)

Definition median_of (receipt : json) (lane : string) (q : Q) : Prop :=
  exists d rows row, receipt = JDict d /\ get "lanes" d = JList (map JDict rows) /\ row ∈ rows /\
    get "lane" row = JStr lane /\ as_q (get "tok_s_median" row) = q.

(** At or above parity with the control, and at or above the lane's floor. *)
Definition lane_meets (control armed : json) (lane : string) : Prop :=
  exists floor qc qa, dict_find lane FLOORS = Some floor /\ median_of control lane qc /\ median_of armed lane qa /\
    (PARITY <= qa / qc)%Q /\ (floor <= qa)%Q.

(** The registered gate. *)
Definition adoptable (module : option module_) (control armed smoke : json) : Prop :=
  clean_receipt control 0 /\ clean_receipt armed 3 /\ armed_flag armed = true /\ clean_smoke module smoke /\
  forall lane, lane ∈ LANES -> lane_meets control armed lane.

Lemma JDict_inj (rows rows' : list (list (string * json))) : map JDict rows = map JDict rows' -> rows = rows'.
Proof. revert rows'. induction rows as [|x l IH]; intros [|y k] E; try done. injection E as -> E. f_equal. by apply IH. Qed.

Lemma clean_median receipt markers lane : clean_receipt receipt markers -> lane ∈ LANES ->
  _positive_number (_median_lane receipt lane) = Ok true /\
  forall q, median_of receipt lane q <-> q = as_q (_median_lane receipt lane).
Proof.
  intros (d & rows & mem & marks & -> & _ & _ & El & (Hp & Hrows) & _) Hlane.
  destruct (named_rows _ _ Hp) as (names & En & Hn).
  assert (Hnd : NoDup names) by (rewrite Hn; apply LANES_nodup).
  assert (Hin : JStr lane ∈ map (get "lane") rows) by (rewrite En; apply list_elem_of_fmap; exists lane; by rewrite Hn).
  apply list_elem_of_fmap in Hin as (row & Elane & Hrow). symmetry in Elane.
  unfold _median_lane. rewrite (proj2 (lane_row_found d rows names lane row El En Hnd)) by done.
  split; [by apply Hrows with lane |]. intros q. split.
  - intros (d' & rows' & row' & [= <-] & El' & Hr' & Ell' & <-). rewrite El in El'.
    assert (Hf' : dict_find lane (_lane_rows (JDict d)) = Some row').
    { injection El' as <-%JDict_inj. by apply (lane_row_found d rows names lane row' El En Hnd). }
    rewrite (proj2 (lane_row_found d rows names lane row El En Hnd)) in Hf' by done. by injection Hf' as ->.
  - intros ->. by exists d, rows, row.
Qed.

Lemma compare_lanes_clean control armed lanes acc : clean_receipt control 0 -> clean_receipt armed 3 ->
  (forall lane, lane ∈ lanes -> lane ∈ LANES) ->
  exists out, compare_lanes control armed acc lanes = Ok out /\
    (out.2 = ADOPT <-> acc.2 = ADOPT /\ forall lane, lane ∈ lanes -> lane_meets control armed lane).
Proof.
  intros Hc Ha. revert acc. induction lanes as [|lane lanes IH]; intros acc Hsub; [exists acc; split; [done | set_solver] |].
  assert (Hlane : lane ∈ LANES) by (apply Hsub; left).
  destruct (clean_median _ _ lane Hc Hlane) as [Hpc Hqc]. destruct (clean_median _ _ lane Ha Hlane) as [Hpa Hqa].
  cbn [compare_lanes]. unfold compare_lane. cbv zeta. rewrite Hpc. cbn [mbind res_bind]. rewrite Hpa. cbn [mbind res_bind negb].
  assert (Hfl : exists floor, dict_find lane FLOORS = Some floor).
  { apply elem_of_cons in Hlane as [->|[->|[->|Hlane]%elem_of_cons]%elem_of_cons]; [by eexists.. | set_solver]. }
  destruct Hfl as [floor Hfl]. rewrite Hfl. cbn [of_option mbind res_bind].
  set (qc := as_q (_median_lane control lane)) in *. set (qa := as_q (_median_lane armed lane)) in *.
  assert (Hmeets : lane_meets control armed lane <-> Qle_bool PARITY (qa / qc) && Qle_bool floor qa = true).
  { rewrite andb_true_iff, !Qle_bool_iff. split.
    - intros (f & c & a & Ef & ->%Hqc & ->%Hqa & H1 & H2). rewrite Hfl in Ef. by injection Ef as <-.
    - intros [H1 H2]. exists floor, qc, qa. by rewrite Hqc, Hqa. }
  match goal with |- exists out, compare_lanes _ _ ?x lanes = _ /\ _ => destruct (IH x) as (out & Eout & Hout) end;
    [intros l Hl; apply Hsub; by right |]. exists out. split; [done |]. rewrite Hout. cbn [snd].
  assert (Hcons : (forall l, l ∈ lane :: lanes -> lane_meets control armed l) <->
    lane_meets control armed lane /\ forall l, l ∈ lanes -> lane_meets control armed l).
  { split; [intros H; split; [apply H; left | intros l Hl; apply H; by right] | intros [H1 H2] l [->|Hl]%elem_of_cons; auto]. }
  rewrite Hcons, Hmeets. destruct (Qle_bool PARITY _ && _); [tauto |]. split; [by intros [? _] | by intros (_ & ? & _)].
Qed.

Lemma clean_entries receipt markers : clean_receipt receipt markers -> existsb nan_or_malformed (_lane_entries receipt) = false.
Proof.
  intros (d & rows & mem & marks & -> & _ & _ & El & (Hp & Hrows) & _). destruct (named_rows _ _ Hp) as (names & En & Hn).
  unfold _lane_entries. rewrite El. apply not_true_iff_false. intros (x & Hx%list_elem_of_In & Hbad)%existsb_exists.
  apply list_elem_of_fmap in Hx as (row & -> & Hrow). assert (Hin : get "lane" row ∈ map JStr names).
  { rewrite <- En. apply list_elem_of_fmap. by exists row. }
  apply list_elem_of_fmap in Hin as (lane & Elane & _). destruct (Hrows row lane Hrow Elane) as (_ & _ & Hn' & _).
  simpl in Hbad. by rewrite Hn' in Hbad.
Qed.

Lemma compare_rows_clean control armed : clean_receipt control 0 -> clean_receipt armed 3 ->
  exists out, compare_rows control armed = Ok out /\
    (out.2 = ADOPT <-> forall lane, lane ∈ LANES -> lane_meets control armed lane).
Proof.
  intros Hc Ha. destruct (compare_lanes_clean control armed LANES ([], ADOPT) Hc Ha ltac:(done)) as (out & E & Hout).
  unfold compare_rows. rewrite E. cbn [mbind res_bind]. eexists. split; [done |]. cbn [snd].
  rewrite existsb_app, (clean_entries _ _ Hc), (clean_entries _ _ Ha). simpl. rewrite Hout. simpl. tauto.
Qed.

Lemma gate_clean module control armed smoke : gate_failures module control armed smoke = Ok [] <->
  clean_receipt control 0 /\ clean_receipt armed 3 /\ armed_flag armed = true /\ clean_smoke module smoke.
Proof.
  unfold gate_failures. rewrite <- (receipt_clean "control"), <- (receipt_clean "armed"), <- smoke_clean.
  assert (Hs : (match smoke with JNull => [smoke_say NoSmoke] | _ => smoke_failures module smoke end) = [] <-> smoke_failures module smoke = [])
    by by destruct smoke.
  rewrite <- Hs. destruct (_receipt_failures "control" control 0) as [c|]; cbn [mbind res_bind]; [| split; [done | by intros [? _]]].
  destruct (_receipt_failures "armed" armed 3) as [a|]; cbn [mbind res_bind]; [| split; [done | by intros (_ & ? & _)]].
  split.
  - intros E. apply Ok_inj in E. apply app_nil in E as [-> [-> [Hf Hm]%app_nil]%app_nil].
    rewrite when_nil, negb_false_eq in Hf. done.
  - intros ([= ->] & [= ->] & -> & ->). done.
Qed.

(** C35. The comparison of two receipts and a smoke answers [ADOPT] exactly when the registered
    gate is met: both receipts are clean evidence, with the marker counts of a stock and of an
    armed image, the flag is set in the armed container, the smoke has every request of every round
    once and passing, and every lane is at or above 97 % of the control and its floor.  Shapes are arbitrary: evidence
    that is missing, doubled or malformed is not clean. *)
Theorem gate_adopts module load control armed smoke :
  (exists doc, compare module load control armed smoke = Ok doc /\ d_verdict doc = ADOPT) <->
  exists path c a s, smoke = Some path /\ path <> "" /\ load control = Ok c /\ load armed = Ok a /\ load path = Ok s /\
    adoptable module c a s.
Proof.
  unfold compare, adoptable. split.
  - intros (doc & E & Hv). destruct (load control) as [c|]; [| done]. destruct (load armed) as [a|]; [| done]. cbn [mbind res_bind] in E.
    destruct (smoke_receipt load smoke) as [s|] eqn:Es; [| done]. cbn [mbind res_bind] in E.
    destruct (gate_failures module c a s) as [problems|] eqn:Eg; [| done]. cbn [mbind res_bind] in E.
    destruct (compare_rows c a) as [rows|] eqn:Er; [| done]. cbn [mbind res_bind] in E. injection E as <-. cbn [d_verdict] in Hv.
    destruct problems; [| by destruct smoke]. apply gate_clean in Eg as (Hc & Ha & Hf & Hs).
    destruct (compare_rows_clean c a Hc Ha) as (out & Eo & Hout). rewrite Er in Eo. injection Eo as <-.
    assert (Hnull : s <> JNull) by (intros ->; by destruct Hs as (? & ? & ? & ? & ? & ? & ? & _)).
    unfold smoke_receipt in Es. destruct smoke as [path|]; [| by injection Es as <-]. destruct (String.eqb_spec path "") as [|Hp]; [by injection Es as <- |].
    exists path, c, a, s. split_and!; try done. by apply Hout.
  - intros (path & c & a & s & -> & Hp & -> & -> & Es & Hc & Ha & Hf & Hs & Hl). cbn [mbind res_bind].
    unfold smoke_receipt. rewrite (proj2 (String.eqb_neq path "")) by done. rewrite Es. cbn [mbind res_bind].
    rewrite (proj2 (gate_clean module c a s)) by done. cbn [mbind res_bind].
    destruct (compare_rows_clean c a Hc Ha) as (out & -> & Hout). cbn [mbind res_bind]. eexists. split; [done |]. by apply Hout.
Qed.

(** ** The smoke's own receipts *)

Definition EXPECTED : list (string * option string) := map (fun r => (r.1.1, r.2)) REQUESTS.

Lemma shipped_expected : _expected_requests (Some shipped) = Some EXPECTED.
Proof. vm_compute. reflexivity. Qed.

Section receipts.
Context (chr : Z -> string) (say : detail -> string).

(** A record is passing for the gate exactly when it says so itself. *)
Lemma record_clean name f started answer row round : _one chr say name f started answer = Ok row ->
  let row := (row ++ [("round", JInt round)])%list in
  key_of row = json_key (name, round) /\ (not_ok row = false <-> clean_result f row).
Proof.
  unfold _one. destruct answer as [code text|text|elapsed data].
  1,2: intros [= <-]; split; [done |]; split; [done | by intros ([=] & _)].
  destruct (first_choice data) as [choice|]; [| done]. cbn [mbind res_bind].
  destruct (match choice with JDict _ => _ | _ => _ end) as [d|]; [| done]. cbn [mbind res_bind].
  destruct (or_dict (get "message" d)) as [message|]; [| done]. cbn [mbind res_bind].
  destruct (content_and_calls _ _) as [[content calls]|]; [| done]. cbn [mbind res_bind]. cbv zeta.
  destruct (mapM _ calls) as [verdicts|]; [| done]. cbn [mbind res_bind].
  set (nan := searched NAN_RE content). set (n := length calls).
  set (args := negb (bool_decide (is_Some f) && _) && _ && _). set (ok := (if bool_decide _ then _ else _) && args && negb nan).
  set (details := map _ _). intros [= <-]. cbv zeta. split; [done |].
  change (not_ok _) with (negb ok). unfold clean_result.
  change (get "ok" _) with (JBool ok). change (get "nan" _) with (JBool nan). change (get "wants_tool" _) with (JBool (bool_decide (is_Some f))).
  change (get "tool_call_required" _) with (JBool (bool_decide (is_Some f))). change (get "n_tool_calls" _) with (JInt (Z.of_nat n)).
  change (get "expected_function" _) with (from_option JStr JNull f).
  change (get "tool_args_ok" _) with (if bool_decide (is_Some f) then JBool args else JNull).
  rewrite negb_false_eq. split; [| by intros ([=] & _)]. intros Hok. unfold ok in *. rewrite Hok.
  apply andb_true_iff in Hok as [[_ Hargs]%andb_true_iff Hnan]. rewrite Hargs. apply negb_true_iff in Hnan as ->.
  unfold args in Hargs. apply andb_true_iff in Hargs as [[H1 H2]%andb_true_iff _]. destruct f as [f|].
  - rewrite bool_decide_eq_true_2 in * by by eexists. simpl in H1, H2. split_and!; try done; [by apply String.eqb_eq |].
    apply negb_true_iff, negb_false_eq, Nat.eqb_eq in H1. by rewrite H1.
  - rewrite bool_decide_eq_false_2 in * by by intros [? ?]. simpl in H2. split_and!; try done.
    apply negb_true_iff, negb_false_eq, Nat.eqb_eq in H2. by rewrite H2.
Qed.

(** One round: every request once, in the order declared. *)
Lemma round_clean answers r batch : round_of chr say answers r = Ok batch ->
  map key_of batch = map (fun name => json_key (name, Z.of_nat r + 1)%Z) (map fst EXPECTED) /\
  Forall2 (fun p row => not_ok row = false <-> clean_result p.2 row) EXPECTED batch.
Proof.
  unfold round_of, EXPECTED. destruct (mapM _ REQUESTS) as [rows|] eqn:E; [| done]. cbn [mbind res_bind]. intros [= <-].
  apply mapM_Ok in E. rewrite !map_map. induction E as [|[[name p] f] row specs rows Hrow _ [IH1 IH2]]; [by split |].
  destruct (record_clean _ _ _ _ _ (Z.of_nat r + 1) Hrow) as [Hk Hc]. split; [simpl; by rewrite Hk, IH1 |]. simpl. by constructor.
Qed.

Definition by_rounds (names : list string) (rounds : list Z) : list (string * Z) :=
  concat (map (fun r => map (fun name => (name, r)) names) rounds).

Lemma by_rounds_wanted e repeat : NoDup (map fst e) -> by_rounds (map fst e) (rounds repeat) ≡ₚ wanted e repeat.
Proof.
  intros Hnd. apply NoDup_Permutation; [| by apply wanted_nodup |].
  - unfold by_rounds. assert (Hr : NoDup (rounds repeat)) by (unfold rounds; apply (NoDup_fmap_2_strong _); [intros; lia | apply NoDup_seq]).
    induction Hr as [|z l Hz Hl IH]; simpl; [constructor |]. apply NoDup_app. split_and!; [by apply (NoDup_fmap_2 _) | | done].
    intros [a b] Ha Hb. apply list_elem_of_fmap in Ha as (? & [= -> ->] & _). rewrite <- flat_map_concat_map in Hb.
    apply list_elem_of_In, in_flat_map in Hb as (m & Hm%list_elem_of_In & Hb%list_elem_of_In).
    apply list_elem_of_fmap in Hb as (? & [= _ ->] & _). done.
  - intros [name z]. rewrite wanted_elem, <- rounds_elem. unfold by_rounds. rewrite <- flat_map_concat_map.
    rewrite list_elem_of_In, in_flat_map. setoid_rewrite <- list_elem_of_In. simpl. split.
    + intros (m & Hm & Hz). by apply list_elem_of_fmap in Hz as (? & [= -> ->] & ?).
    + intros [Hn Hz]. exists z. split; [done |]. apply list_elem_of_fmap. by exists name.
Qed.

Lemma run_clean answers repeat batches : mapM (round_of chr say answers) (seq 0 (Z.to_nat repeat)) = Ok batches ->
  map key_of (concat batches) = map json_key (by_rounds (map fst EXPECTED) (rounds repeat)) /\
  forall row, row ∈ concat batches -> exists p, p ∈ EXPECTED /\ get "name" row = JStr p.1 /\ (not_ok row = false <-> clean_result p.2 row).
Proof.
  intros E%mapM_Ok. unfold by_rounds, rounds. induction E as [|r batch rs batches Hb _ [IH1 IH2]]; [split; [done | set_solver] |].
  apply round_clean in Hb as [Hk Hc]. split.
  - cbn [concat map]. rewrite !map_app. f_equal; [rewrite Hk; by rewrite (map_map (fun name => (name, _))) | done].
  - intros row [Hrow|?]%elem_of_app; [| by apply IH2]. apply list_elem_of_lookup in Hrow as [i Hi].
    destruct (Forall2_lookup_r _ _ _ _ _ Hc Hi) as (p & Hp & Hpc). exists p. split_and!; [by eapply list_elem_of_lookup_2 | | done].
    assert (Hkey : map key_of batch !! i = Some (key_of row)) by (change (map key_of batch) with (key_of <$> batch); by rewrite list_lookup_fmap, Hi).
    rewrite Hk in Hkey. rewrite map_map in Hkey. apply list_lookup_fmap_Some in Hkey as (p' & Ek & Hp'). rewrite Hp in Hp'. injection Hp' as <-.
    by injection Ek.
Qed.

Lemma expected_find p name want : p ∈ EXPECTED -> p.1 = name -> dict_find name EXPECTED = Some want -> want = p.2.
Proof.
  intros Hp <- Hf. destruct p as [n f]. rewrite (dict_find_in EXPECTED n f) in Hf; [by injection Hf | | done].
  apply (expected_ok (Some shipped)). apply shipped_expected.
Qed.

(** C36. The two scripts agree: the gate has no complaint about a receipt the smoke wrote exactly
    when the smoke exited with zero and ran at least one round.  Whatever the server answered and the log
    commands did, an exit of zero means every request of every round is there once, passed by
    the contract, with clean logs collected from both nodes. *)
Theorem smoke_receipt_accepted repeat answers head worker ts receipt code :
  SmokeContract.main chr say repeat answers head worker ts = Ok (receipt, code) ->
  smoke_failures (Some shipped) receipt = [] <-> code = 0%Z /\ (0 < repeat)%Z.
Proof.
  unfold main. destruct (mapM _ (seq 0 (Z.to_nat repeat))) as [batches|] eqn:Eb; [| done]. cbn [mbind res_bind]. cbv zeta.
  destruct (run_clean _ _ _ Eb) as [Hkeys Hrows]. set (results := concat batches) in *.
  destruct (_logs head) as [hl hf], (_logs worker) as [wl wf]. set (he := sorted_of _ (findall _ hl)). set (we := sorted_of _ (findall _ wl)).
  set (bad := base.filter _ results). set (ok := _ && _). intros [= <- <-]. rewrite smoke_clean. split.
  - intros (d & e & k & rs & errors & failures & [= <-] & _ & [= Hok] & _ & _ & [= <-] & Hr & _). rewrite Hok. done.
  - destruct ok eqn:Hok; [| by intros [? _]]. intros [_ Hrep]. unfold ok in Hok.
    apply andb_true_iff in Hok as [[[[Hb Hhe%bool_decide_eq_true]%andb_true_iff Hwe%bool_decide_eq_true]%andb_true_iff
      ->%String.eqb_eq]%andb_true_iff ->%String.eqb_eq].
    assert (Hbad : bad = []) by by destruct bad. unfold bad in Hbad. apply filter_nil_Forall in Hbad. rewrite Forall_forall in Hbad.
    assert (Hclean : forall row, row ∈ results -> exists p, p ∈ EXPECTED /\ get "name" row = JStr p.1 /\ clean_result p.2 row).
    { intros row Hrow. destruct (Hrows row Hrow) as (p & Hp & Hn & Hc). exists p. split_and!; try done. apply Hc.
      apply not_true_iff_false. intros E. apply (Hbad row Hrow). by rewrite E. }
    assert (Hnan : existsb (fun r => negb (falsy (get "nan" r))) results = false).
    { apply not_true_iff_false. intros (row & Hrow%list_elem_of_In & Hbr)%existsb_exists.
      destruct (Hclean row Hrow) as (p & _ & _ & _ & En & _). by rewrite En in Hbr. }
    destruct (expected_ok _ _ shipped_expected) as [Hnd _].
    eexists _, EXPECTED, repeat, results, _, _. split; [done |]. split; [apply shipped_expected |].
    split; [done |]. split; [by change (get "failed" _) with (JInt (Z.of_nat (length bad))); unfold bad; rewrite (proj2 (filter_nil_Forall _ results)) by by apply Forall_forall |].
    split; [change (get "any_nan" _) with (JBool (existsb (fun r => negb (falsy (get "nan" r))) results)); by rewrite Hnan |].
    split_and!; try done.
    + intros E. rewrite E in Hkeys. symmetry in Hkeys. apply map_eq_nil in Hkeys. 
      assert (Hin : ("plain-1", 1%Z) ∈ by_rounds (map fst EXPECTED) (rounds repeat)).
      { rewrite by_rounds_wanted by done. apply wanted_elem. split; [set_solver | simpl; lia]. }
      rewrite Hkeys in Hin. by apply elem_of_nil in Hin.
    + split; [rewrite Hkeys; by rewrite by_rounds_wanted |]. intros r name want Hr En Hf.
      destruct (Hclean r Hr) as (p & Hp & En' & Hc). rewrite En in En'. injection En' as En'.
      by rewrite (expected_find p name want Hp (eq_sym En') Hf).
    + intros node [->|[->|Hn]%elem_of_cons]%elem_of_cons; [| | by apply elem_of_nil in Hn].
      * change (get "head" _) with (JList (map JStr he)). by rewrite Hhe.
      * change (get "worker" _) with (JList (map JStr we)). by rewrite Hwe.
    + intros node [->|[->|Hn]%elem_of_cons]%elem_of_cons; [done | done | by apply elem_of_nil in Hn].
Qed.

End receipts.

(** ** The measured receipt *)

Section measured.
Context (chr : Z -> string) (target : string -> string).

Lemma run_lane_name lane done row : _run_lane chr target lane done = Ok row -> get "lane" row = JStr lane.
Proof.
  unfold _run_lane. destruct (match done.2 with Some _ => _ | None => _ end) as [p|]; [| done]. cbn [mbind res_bind].
  destruct (match p with JDict _ => _ | _ => _ end); [| done]. cbn [mbind res_bind]. by intros [= <-].
Qed.

Lemma measured_rows a rows : mapM (measure_lane chr target a) LANES = Ok rows ->
  map (get "lane") rows = map JStr LANES /\ Forall2 (fun lane row => measure_lane chr target a lane = Ok row) LANES rows.
Proof.
  intros E%mapM_Ok. split; [| done]. induction E as [|lane row lanes rows Hrow _ IH]; [done |]. simpl. rewrite IH. f_equal.
  unfold measure_lane in Hrow. destruct (warmup a lane); [| done]. cbn [mbind res_bind] in Hrow. destruct (bench a lane); [| done].
  by eapply run_lane_name.
Qed.

(** The container's flag survives the receipt. *)
Lemma env_flag env : NoDup (map fst env) ->
  is_str "1" (dict_get EARLY (map (fun p => (p.1, JStr p.2)) env)) = String.eqb (default "<unset>" (dict_find EARLY env)) "1".
Proof.
  intros Hnd. unfold dict_get. assert (H : forall acc, (acc = None \/ EARLY ∉ map fst env) ->
    fold_left (fun acc p => if String.eqb p.1 EARLY then Some p.2 else acc) (map (fun p => (p.1, JStr p.2)) env) acc =
    match dict_find EARLY env with Some v => Some (JStr v) | None => acc end).
  { induction env as [|[k v] env IH]; intros acc Hacc; [done |]. apply NoDup_cons in Hnd as [Hk Hnd]. cbn [map fold_left fst snd].
    unfold dict_find. cbn [List.find fst]. destruct (String.eqb_spec k EARLY) as [->|Hne].
    - rewrite (IH Hnd) by by right. rewrite bool_decide_eq_true_2 by done. simpl. destruct (dict_find EARLY env) eqn:Ef; [| done].
      exfalso. apply Hk. unfold dict_find in Ef. destruct (List.find _ env) as [[k' v']|] eqn:E; [| done].
      apply find_some in E as [Hin%list_elem_of_In Hb%bool_decide_eq_true]. simpl in Hb. subst. by apply (list_elem_of_fmap_2 fst _ (EARLY, v')).
    - rewrite bool_decide_eq_false_2 by done. apply IH; [done |]. destruct Hacc as [->|Hn]; [by left | right; set_solver]. }
  rewrite H by by left. by destruct (dict_find EARLY env).
Qed.

Lemma min_at_least v vs : (MEMFREE_FLOOR_KIB <= fold_left Z.min vs v)%Z <-> Forall (fun z => MEMFREE_FLOOR_KIB <= z)%Z (v :: vs).
Proof.
  revert v. induction vs as [|w vs IH]; intros v; simpl.
  - by rewrite Forall_singleton.
  - rewrite IH, !Forall_cons, Z.min_glb_iff. tauto.
Qed.

Lemma summary_clean values : (exists entry n low, summary values = JDict entry /\ get "samples" entry = JInt n /\ (0 < n)%Z /\
    get "min_kib" entry = JInt low /\ (MEMFREE_FLOOR_KIB <= low)%Z) <->
  values <> [] /\ Forall (fun z => MEMFREE_FLOOR_KIB <= z)%Z values.
Proof.
  destruct values as [|v vs].
  - split; [intros (entry & n & low & [= <-] & [= <-] & ? & _); simpl in *; lia | by intros []].
  - rewrite <- min_at_least. split.
    + intros (entry & n & low & [= <-] & _ & _ & [= <-] & H). done.
    + intros [_ H]. eexists _, _, _. split_and!; [done | done | simpl; lia | done | done].
Qed.

Lemma measured_flag a env marks lanes : NoDup (map fst env) ->
  (if armed_flag (receipt_of a env marks lanes) then 3 else 0)%Z = expected_markers env.
Proof.
  intros Hnd. unfold armed_flag, receipt_of. change (get "effective_env" _) with (JDict (map (fun p => (p.1, JStr p.2)) env)). cbv iota.
  change "GLM53_SHARED_EXPERTS_EARLY" with EARLY. by rewrite env_flag.
Qed.

Lemma measured_memory a env marks lanes :
  (exists mem, field_of "memfree" (receipt_of a env marks lanes) = JDict mem /\ clean_memory mem) <->
  forall node, node ∈ NODES -> samples_of (memory_outs a node) <> [] /\ Forall (fun z => MEMFREE_FLOOR_KIB <= z)%Z (samples_of (memory_outs a node)).
Proof.
  setoid_rewrite <- summary_clean. change (field_of "memfree" _) with (JDict (map (fun node => (node, summary (samples_of (memory_outs a node)))) NODES)).
  split.
  - intros (mem & [= <-] & H) node Hn. specialize (H node Hn). by apply elem_of_cons in Hn as [->|[->|Hn%elem_of_nil]%elem_of_cons].
  - intros H. eexists. split; [done |]. intros node Hn. specialize (H node Hn).
    by apply elem_of_cons in Hn as [->|[->|Hn%elem_of_nil]%elem_of_cons].
Qed.

(** Rows in the order of the lanes. *)
Lemma rows_at rows i lane row : map (get "lane") rows = map JStr LANES -> LANES !! i = Some lane -> rows !! i = Some row ->
  get "lane" row = JStr lane.
Proof.
  intros En Hl Hr. assert (Hg : map (get "lane") rows !! i = Some (get "lane" row)).
  { change (map (get "lane") rows) with (get "lane" <$> rows). by rewrite list_lookup_fmap, Hr. }
  rewrite En in Hg. change (map JStr LANES) with (JStr <$> LANES) in Hg. rewrite list_lookup_fmap, Hl in Hg. by injection Hg.
Qed.

Lemma clean_in_order rows : map (get "lane") rows = map JStr LANES -> clean_lanes rows <-> Forall2 clean_row LANES rows.
Proof.
  intros En. unfold clean_lanes. split.
  - intros [_ Hc]. apply Forall2_same_length_lookup_2; [by apply (f_equal length) in En; rewrite !length_map in En |].
    intros i lane row Hl Hr. apply Hc; [by eapply list_elem_of_lookup_2 | by eapply rows_at].
  - intros Hc. split; [by rewrite En |]. intros row lane [i Hi]%list_elem_of_lookup El.
    destruct (Forall2_lookup_r _ _ _ _ _ Hc Hi) as (l & Hl & Hcl). rewrite (rows_at rows i l row En Hl Hi) in El. by injection El as <-.
Qed.


End measured.

(** ** A run from the smoke to the verdict *)

Definition demo_message (content : string) (calls : list json) : json :=
  JDict [("choices", JList [JDict [("message", JDict [("content", JStr content); ("tool_calls", JList calls)]); ("finish_reason", JStr "stop")]])].
Definition demo_call (name arguments : string) : json :=
  JDict [("function", JDict [("name", JStr name); ("arguments", JStr (unquote arguments))])].
Definition demo_answers (_ : nat) (name : string) : Q * outcome :=
  (0%Q, Answered 1 (
    if String.eqb name "tool-weather" then demo_message "" [demo_call "get_weather" "{^city^: ^Lisbon, Portugal^, ^units^: ^celsius^}"]
    else if String.eqb name "tool-add" then demo_message "" [demo_call "add_numbers" "{^a^: 1938, ^b^: 4217}"]
    else demo_message "READY" [])).
Definition demo_smoke : res (json * Z) :=
  SmokeContract.main (fun _ => "") (fun _ => "") 2 demo_answers (Done 0 "INFO serving" "") (Done 0 "" "") 0.

Lemma smoke_receipt_accepted_witness :
  match demo_smoke with
  | Ok (receipt, code) => code = 0%Z /\ smoke_failures (Some shipped) receipt = []
  | Raise _ => False
  end.
Proof.
  destruct demo_smoke as [[receipt code]|] eqn:E; [| vm_compute in E; discriminate E].
  assert (Hc : code = 0%Z) by (vm_compute in E; injection E as _ <-; reflexivity).
  split; [exact Hc |]. unfold demo_smoke in E.
  apply (smoke_receipt_accepted (fun _ => "") (fun _ => "") 2 demo_answers (Done 0 "INFO serving" "") (Done 0 "" "") 0 receipt code E).
  split; [exact Hc | reflexivity].
Defined.

(** No round is no evidence, although the smoke exits with zero. *)
Example empty_smoke : match SmokeContract.main (fun _ => "") (fun _ => "") 0 demo_answers (Done 0 "" "") (Done 0 "" "") 0 with
  | Ok (receipt, code) => code = 0%Z /\ smoke_failures (Some shipped) receipt =
      [("smoke", Field "repeat" (JInt 0)); ("smoke", Field "requests" (JInt 0))]
  | Raise _ => False end.
Proof. vm_compute. split; reflexivity. Qed.

Definition demo_file (median : string) : string :=
  unquote ("{^tok_s_median^: " ++ median ++ ", ^any_nan^: false, ^coherent^: true}").
Definition demo_arm (flag marker : string) (structured prose essay : string) : arm :=
  Arm "arm" 0 5 512 200 200 ("PATH=/bin" ++ newline ++ "GLM53_SHARED_EXPERTS_EARLY=" ++ flag ++ newline) (fun _ => marker ++ newline)
    (fun _ => ["4000000"; "timeout"; "3900000" ++ newline]) (fun _ => Ok ())
    (fun lane => Ok (0%Z, Some (demo_file (if String.eqb lane "structured" then structured else if String.eqb lane "prose" then prose else essay)))).
Definition demo_measure (a : arm) : res (Z * option json) := measure (fun _ => "") (fun lane => lane ++ ".json") a.


(** The whole pipeline: two measured arms and a smoke, compared. *)
Definition demo_load (path : string) : res json :=
  if String.eqb path "smoke" then fst <$> demo_smoke
  else p ← demo_measure (if String.eqb path "armed" then demo_arm "1" "3" "71.35" "32.92" "25.16" else demo_arm "0" "0" "71.15" "31.84" "24.09");
       of_option OtherException p.2.

Example demo_adopts : d_verdict <$> compare (Some shipped) demo_load "control" "armed" (Some "smoke") = Ok ADOPT.
Proof. vm_compute. reflexivity. Qed.
Example demo_partial : d_verdict <$> compare (Some shipped) demo_load "control" "armed" None = Ok PARTIAL_GATE.
Proof. vm_compute. reflexivity. Qed.
Example demo_swapped : d_verdict <$> compare (Some shipped) demo_load "armed" "control" (Some "smoke") = Ok INVALID.
Proof. vm_compute. reflexivity. Qed.
Example unmarked_arm : demo_measure (demo_arm "1" "0" "1" "1" "1") = Ok (2%Z, None).
Proof. vm_compute. reflexivity. Qed.

(** An integer median too large for a float is no verdict but an exception. *)
Example huge_median_raises : row_problems "armed" "prose" [("tok_s_median", JInt (10 ^ 400))] = Raise OtherException.
Proof. vm_compute. reflexivity. Qed.
