(* ===== verification/OccupancyGate.v ===== *)
(** * The occupancy gate

    Model of [scripts/audit_e3_occupancy.py]: reading the CSV of a profiler capture, and
    the decision it leads to.  Texts are ASCII where a pattern or [isdigit] looks at them; floats are exact.  A decision other than
    [ABORT] is given exactly on a complete and usable capture, and an open gap is the
    gap of some launch; the converse does not hold, because the two minima of a kernel may come
    from different launches. *)
From Stdlib Require Import ZArith QArith Qminmax Lqa Lia String Ascii.
From stdpp Require Import base list strings sets sorting.
From S2P Require Import Prelude PyStr PyNum PyDict PyRe Stats WindowEnv.
#[local] Open Scope string_scope.

Definition KERNELS : list string := ["fm_gateup_kernel"; "fm_down_kernel"].

(** A canonical metric, its CSV labels and its raw names. *)
Definition METRICS : list (string * (list string * list string)) := [
  ("registers_per_thread", (["Registers Per Thread"], ["launch__registers_per_thread"]));
  ("block_size", (["Block Size"], ["launch__block_size"]));
  ("grid_size", (["Grid Size"], ["launch__grid_size"]));
  ("smem_static", (["Static Shared Memory Per Block"], ["launch__shared_mem_per_block_static"]));
  ("smem_dynamic", (["Dynamic Shared Memory Per Block"], ["launch__shared_mem_per_block_dynamic"]));
  ("block_limit_registers", (["Block Limit Registers"], ["launch__occupancy_limit_registers"]));
  ("block_limit_shared_mem", (["Block Limit Shared Mem"], ["launch__occupancy_limit_shared_mem"]));
  ("block_limit_warps", (["Block Limit Warps"], ["launch__occupancy_limit_warps"]));
  ("block_limit_sm", (["Block Limit SM"], ["launch__occupancy_limit_blocks"]));
  ("theoretical_occupancy_pct", (["Theoretical Occupancy"], ["sm__maximum_warps_per_active_cycle_pct"]));
  ("achieved_occupancy_pct", (["Achieved Occupancy"], ["sm__warps_active.avg.pct_of_peak_sustained_active"]));
  ("waves_per_sm", (["Waves Per SM"], ["launch__waves_per_multiprocessor"]))].

Definition REQUIRED : list string := ["registers_per_thread"; "block_size"; "grid_size"; "block_limit_registers";
  "block_limit_shared_mem"; "block_limit_warps"; "theoretical_occupancy_pct"; "achieved_occupancy_pct"; "waves_per_sm"].

(** ** Values *)

Definition is_letter (c : ascii) : bool := let n := nat_of_ascii c in ((65 <=? n) && (n <=? 90) || (97 <=? n) && (n <=? 122))%nat.
Definition digit (c : ascii) : bool := let n := nat_of_ascii c in ((48 <=? n) && (n <=? 57))%nat.
Definition one (s : string) : re := Chr (fun c => str_in (String c "") s).

Definition _NUMBER : re := Seq [
  Many is_space;
  Group 1 (Seq [opt (one "-+"); Some1 digit; opt (Seq [one "."; Some1 digit])]);
  Many is_space;
  opt (Cat (Chr (fun c => is_letter c || Ascii.eqb c "%")) (Many (fun c => is_letter c || Ascii.eqb c "%" || Ascii.eqb c "/")));
  Many is_space].

Definition _number (text : string) : option Q :=
  g ← fullmatch _NUMBER text;
  parse_float (default "" (group_of 1 g)).

Definition _lookup (metric : string * (list string * list string)) : list (string * string) :=
  map (fun label => (lower (strip label), metric.1)) (metric.2.1 ++ metric.2.2)%list.

Definition lookup_table : list (string * string) := dict_of (concat (map _lookup METRICS)).

(** ** CSV, in the excel dialect, not strict *)

Inductive csv_state := StartRecord | StartField | InField | InQuoted | QuoteInQuoted.

Definition QUOTE : ascii := "034"%char.

(** One pass over the text: the state, the field and the record being read. *)
Fixpoint csv_records (s : string) (state : csv_state) (field : string) (record : list string) : list (list string) :=
  match s with
  | EmptyString =>
      match state with
      | StartRecord => []
      | _ => [record ++ [field]]%list
      end
  | String c s =>
      let end_field := (record ++ [field])%list in
      match state with
      | StartRecord | StartField =>
          if Ascii.eqb c "010" then
            (match state with StartRecord => [] | _ => end_field end) :: csv_records s StartRecord "" []
          else if Ascii.eqb c QUOTE then csv_records s InQuoted field record
          else if Ascii.eqb c "," then csv_records s StartField "" end_field
          else csv_records s InField (field ++ String c "") record
      | InField =>
          if Ascii.eqb c "010" then end_field :: csv_records s StartRecord "" []
          else if Ascii.eqb c "," then csv_records s StartField "" end_field
          else csv_records s InField (field ++ String c "") record
      | InQuoted =>
          if Ascii.eqb c QUOTE then csv_records s QuoteInQuoted field record
          else csv_records s InQuoted (field ++ String c "") record
      | QuoteInQuoted =>
          if Ascii.eqb c QUOTE then csv_records s InQuoted (field ++ String c "") record
          else if Ascii.eqb c "," then csv_records s StartField "" end_field
          else if Ascii.eqb c "010" then end_field :: csv_records s StartRecord "" []
          else csv_records s InField (field ++ String c "") record
      end
  end.

(** [csv.reader] on a text. *)
Definition csv_reader (s : string) : list (list string) := csv_records s StartRecord "" [].

(** The text from the header's line on. *)
Fixpoint from_header (lines : list string) : option (list string) :=
  match lines with
  | [] => None
  | line :: rest => if str_in "Metric Name" line then Some lines else from_header rest
  end.

Definition _csv_body (text : string) : res string :=
  lines ← of_option ValueError (from_header (splitlines "" text));
  Ok (String.concat newline lines).

(** [csv.DictReader]: the names, and the rows; empty records are skipped, missing fields are [None]. *)
Definition row_dict (names record : list string) : list (string * option string) :=
  dict_of (combine names (map Some record) ++ map (fun name => (name, None)) (drop (length record) names))%list.

Definition cell (key : string) (row : list (string * option string)) : string :=
  match dict_find key row with Some (Some v) => v | _ => "" end.

Definition dict_reader (body : string) : list string * list (list (string * option string)) :=
  match csv_reader body with
  | [] => ([], [])
  | names :: records => (names, map (row_dict names) (base.filter (fun r => r <> []) records))
  end.

(** ** The capture *)

Abbreviation metrics := (list (string * option Q)).
Abbreviation launches := (list (string * metrics)).
Abbreviation capture := (list (string * launches)).

Definition get_launch (kernel launch : string) (c : capture) : option metrics :=
  l ← dict_find kernel c; dict_find launch l.

(** A change of [out[kernel][launch]], both of which may be new. *)
Definition update_launch (kernel launch : string) (f : option metrics -> metrics) (c : capture) : capture :=
  dict_update kernel (fun l : option launches => dict_update launch f (default [] l)) c.

(** [out.setdefault(kernel, {}).setdefault(launch, {})]. *)
Definition open_record (kernel launch : string) (c : capture) : capture := update_launch kernel launch (default []) c.

(** [record[canonical] = value], unless a readable one stands. *)
Definition note (canonical : string) (value : option Q) (m : metrics) : metrics :=
  match dict_find canonical m with Some (Some _) => m | _ => dict_set canonical value m end.

Definition set_metric (kernel launch canonical : string) (value : option Q) (c : capture) : capture :=
  update_launch kernel launch (fun m => note canonical value (default [] m)) c.

(** The columns: kernel, launch id, metric name, metric value. *)
Record columns := Columns { kernel_key : string; id_key : string; metric_key : string; value_key : string }.

Definition find_columns (names : list string) : res columns :=
  let fields := dict_of (map (fun name => (lower (strip name), name)) (base.filter (fun name => name <> "") names)) in
  let field name := of_option ValueError (dict_find name fields) in
  metric ← field "metric name";
  value ← field "metric value";
  kernel ← match dict_find "kernel name" fields, dict_find "function name" fields, dict_find "kernel" fields with
           | Some k, _, _ => Ok k
           | None, Some k, _ => Ok k
           | None, None, Some k => Ok k
           | None, None, None => Raise ValueError
           end;
  id ← field "id";
  Ok (Columns kernel id metric value).

Definition read_row (k : columns) (out : capture) (row : list (string * option string)) : res capture :=
  let kernel := strip (cell (kernel_key k) row) in
  let launch := strip (cell (id_key k) row) in
  let canonical := dict_find (lower (strip (cell (metric_key k) row))) lookup_table in
  if String.eqb kernel "" then
    if negb (String.eqb launch "") && bool_decide (is_Some canonical) then Raise ValueError else Ok out
  else
    match List.find (fun name => str_in name kernel) KERNELS with
    | None => Ok out
    | Some short =>
        if String.eqb launch "" then Raise ValueError
        else
          let out := open_record short launch out in
          match canonical with
          | None => Ok out
          | Some canonical => Ok (set_metric short launch canonical (_number (cell (value_key k) row)) out)
          end
    end.

Fixpoint read_rows (k : columns) (out : capture) (rows : list (list (string * option string))) : res capture :=
  match rows with
  | [] => Ok out
  | row :: rows => out ← read_row k out row; read_rows k out rows
  end.

Definition parse_csv (text : string) : res capture :=
  body ← _csv_body text;
  let '(names, rows) := dict_reader body in
  k ← find_columns names;
  read_rows k [] rows.

(** ** The judgement *)

Inductive decision := STOP_REGISTER_HEADROOM | STOP_NO_GAP | OPEN_GAP | ABORT.
#[export] Instance decision_eq_dec : EqDecision decision.
Proof. solve_decision. Defined.

(** Why a capture is not judged. *)
Inductive flaw :=
  | MissingKernels (names : list string)
  | LaunchCount (total expected : Z)
  | NoLaunch (kernel : string)
  | DifferentMetrics (kernel : string)
  | MissingMetrics (kernel launch : string) (keys : list string)
  | Unreadable (kernel launch : string) (keys : list string)
  | OutOfDomain (kernel launch key : string)
  | AboveTheoretical (kernel launch : string)
  | Unparseable.

Definition all_digits (s : string) : bool := negb (String.eqb s "") && (fix go s := match s with EmptyString => true | String c t => digit c && go t end) s.

(** [_launch_order]: numbers first, by value. *)
Definition _launch_order (launch : string) : Z * string :=
  match parse_int launch with
  | Some z => if all_digits launch then (z, "") else (2 ^ 30, launch)%Z
  | None => (2 ^ 30, launch)%Z
  end.

Definition order_leb (a b : Z * string) : bool :=
  match (a.1 ?= b.1)%Z with Lt => true | Gt => false | Eq => String.leb a.2 b.2 end.
Definition in_order (l : launches) : list string :=
  map snd (merge_sort (by_leb (fun a b => order_leb a.1 b.1)) (map (fun p => (_launch_order p.1, p.1)) l)).

(** [metrics[key]] of a readable metric. *)
Definition reading (key : string) (m : metrics) : Q := match dict_find key m with Some (Some q) => q | _ => 0%Q end.

Definition Qleb_strict (a b : Q) : bool := negb (Qle_bool b a).

Definition _launch_problem (kernel launch : string) (m : metrics) : option flaw :=
  let missing := base.filter (fun key => key ∉ map fst m) REQUIRED in
  let unreadable := sorted_of String.leb (map fst (base.filter (fun p => p.2 = None) m)) in
  let regs := reading "registers_per_thread" m in
  let block := reading "block_size" m in
  let grid := reading "grid_size" m in
  let theoretical := reading "theoretical_occupancy_pct" m in
  let achieved := reading "achieved_occupancy_pct" m in
  let out key := Some (OutOfDomain kernel launch key) in
  if negb (bool_decide (missing = [])) then Some (MissingMetrics kernel launch missing)
  else if negb (bool_decide (unreadable = [])) then Some (Unreadable kernel launch unreadable)
  else if Qle_bool regs 0 then out "registers_per_thread"
  else if Qle_bool block 0 then out "block_size"
  else if Qle_bool grid 0 then out "grid_size"
  else if negb (Qleb_strict 0 theoretical && Qle_bool theoretical 100) then out "theoretical_occupancy_pct"
  else if negb (Qleb_strict 0 achieved && Qle_bool achieved 100) then out "achieved_occupancy_pct"
  else if Qleb_strict (theoretical + (5 # 100)) achieved then Some (AboveTheoretical kernel launch)
  else match List.find (fun key => Qleb_strict (reading key m) 0)
               ["block_limit_registers"; "block_limit_shared_mem"; "block_limit_warps"; "waves_per_sm"] with
       | Some key => out key
       | None => None
       end.

(** Equality of the sets of keys. *)
Definition same_keys (a b : list string) : bool :=
  forallb (fun k => bool_decide (k ∈ b)) a && forallb (fun k => bool_decide (k ∈ a)) b.

(** The first problem of a kernel, with its launches in order. *)
Definition kernel_problem (c : capture) (name : string) : option flaw :=
  let l := default [] (dict_find name c) in
  match l with
  | [] => Some (NoLaunch name)
  | (_, first) :: _ =>
      if negb (forallb (fun p => same_keys (map fst p.2) (map fst first)) l)
      then Some (DifferentMetrics name)
      else List.hd_error (omap (fun launch => m ← dict_find launch l; _launch_problem name launch m) (in_order l))
  end.

Definition capture_problem (c : capture) (expected_launches : option Z) : option flaw :=
  let missing := base.filter (fun name => name ∉ map fst c) KERNELS in
  let total := Z.of_nat (sum_list_with (fun p => length p.2) c) in
  if negb (bool_decide (missing = [])) then Some (MissingKernels missing)
  else match expected_launches with
       | Some n => if negb (total =? n)%Z then Some (LaunchCount total n)
                   else List.hd_error (omap (kernel_problem c) KERNELS)
       | None => List.hd_error (omap (kernel_problem c) KERNELS)
       end.

(** [min(record[key] for record in launches.values())]. *)
Definition least (key : string) (l : launches) : Q :=
  match map (fun p => reading key p.2) l with
  | [] => 0%Q
  | q :: qs => fold_left (fun m x => if Qleb_strict x m then x else m) qs q
  end.

Record kernel_report := KernelReport {
  launch_count : nat;
  k_metrics : list (string * Q);
  k_launches : launches;
  achieved_over_theoretical : Q;
  k_verdict : decision }.

Definition judge_kernel (regs_stop achieved_ratio : Q) (l : launches) : kernel_report :=
  let keys := match in_order l with launch :: _ => map fst (default [] (dict_find launch l)) | [] => [] end in
  let regs := least "registers_per_thread" l in
  let ratio := (least "achieved_occupancy_pct" l / least "theoretical_occupancy_pct" l)%Q in
  let verdict := if Qleb_strict regs_stop regs then STOP_REGISTER_HEADROOM
                 else if Qle_bool achieved_ratio ratio then STOP_NO_GAP else OPEN_GAP in
  KernelReport (length l) (map (fun key => (key, least key l)) keys)
    (omap (fun launch => m ← dict_find launch l; Some (launch, m)) (in_order l)) (py_round 4 ratio) verdict.

Record report := Report {
  kernels : list (string * kernel_report);
  verdict : decision;
  flawed : option flaw }.

Definition overall (verdicts : list decision) : decision :=
  if existsb (fun v => bool_decide (v = OPEN_GAP)) verdicts then OPEN_GAP
  else if forallb (fun v => bool_decide (v = STOP_REGISTER_HEADROOM)) verdicts then STOP_REGISTER_HEADROOM
  else STOP_NO_GAP.

Definition judge (c : capture) (regs_stop achieved_ratio : Q) (expected_launches : option Z) : report :=
  match capture_problem c expected_launches with
  | Some f => Report [] ABORT (Some f)
  | None =>
      let ks := map (fun name => (name, judge_kernel regs_stop achieved_ratio (default [] (dict_find name c)))) KERNELS in
      Report ks (overall (map (fun k => k_verdict k.2) ks)) None
  end.

(** [main]: the report and the exit code; a [ValueError] of the parser is an abort too. *)
Definition main (text : string) (regs_stop achieved_ratio : Q) (expected_launches : option Z) : res (report * Z) :=
  r ← match parse_csv text with
      | Ok c => Ok (judge c regs_stop achieved_ratio expected_launches)
      | Raise ValueError => Ok (Report [] ABORT (Some Unparseable))
      | Raise e => Raise e
      end;
  Ok (r, if bool_decide (verdict r = ABORT) then 1%Z else 0%Z).

(** ** What a record holds *)

(** The rows of one launch of one kernel that give a metric, by the values they give. *)
Definition row_of (k : columns) (kernel launch : string) (row : list (string * option string)) : bool :=
  negb (String.eqb (strip (cell (kernel_key k) row)) "") &&
  match List.find (fun name => str_in name (strip (cell (kernel_key k) row))) KERNELS with
  | Some short => String.eqb short kernel && String.eqb (strip (cell (id_key k) row)) launch
  | None => false
  end.

Definition gives (k : columns) (metric : string) (row : list (string * option string)) : option (option Q) :=
  match dict_find (lower (strip (cell (metric_key k) row))) lookup_table with
  | Some m => if String.eqb m metric then Some (_number (cell (value_key k) row)) else None
  | None => None
  end.

Definition readings (k : columns) (kernel launch metric : string) (rows : list (list (string * option string))) : list (option Q) :=
  omap (gives k metric) (base.filter (fun row => row_of k kernel launch row = true) rows).

(** The first readable value; [Some None] when a value was stated and none could be read. *)
Definition first_readable (stands : option (option Q)) (l : list (option Q)) : option (option Q) :=
  fold_left (fun acc v => match acc with Some (Some q) => acc | _ => Some v end) l stands.

Definition metric_of (kernel launch metric : string) (c : capture) : option (option Q) :=
  m ← get_launch kernel launch c; dict_find metric m.

Lemma get_update kernel launch kernel' launch' f (c : capture) :
  get_launch kernel launch (update_launch kernel' launch' f c) =
  if bool_decide (kernel' = kernel) && bool_decide (launch' = launch)
  then Some (f (get_launch kernel' launch' c)) else get_launch kernel launch c.
Proof.
  unfold get_launch, update_launch. rewrite dict_find_update. case_bool_decide as Hk; simpl; [subst kernel' | done].
  rewrite dict_find_update. case_bool_decide as Hl; simpl; [subst launch' |].
  - by destruct (dict_find kernel c).
  - by destruct (dict_find kernel c).
Qed.

Lemma note_find metric canonical value m : dict_find metric (note canonical value m) =
  if bool_decide (canonical = metric) then first_readable (dict_find metric m) [value] else dict_find metric m.
Proof.
  unfold note, first_readable, dict_set. simpl. case_bool_decide as E; [subst canonical |].
  - destruct (dict_find metric m) as [[q|]|] eqn:Em; [done | by rewrite dict_find_update, bool_decide_eq_true_2..].
  - destruct (dict_find canonical m) as [[q|]|]; [done | by rewrite dict_find_update, bool_decide_eq_false_2..].
Qed.

Lemma read_row_spec k out row out' kernel launch metric : read_row k out row = Ok out' ->
  metric_of kernel launch metric out' =
    (if row_of k kernel launch row then first_readable (metric_of kernel launch metric out) (option_list (gives k metric row))
     else metric_of kernel launch metric out) /\
  (is_Some (get_launch kernel launch out') <-> is_Some (get_launch kernel launch out) \/ row_of k kernel launch row = true).
Proof.
  unfold read_row, row_of. cbv zeta. destruct (String.eqb (strip (cell (kernel_key k) row)) ""); cbn [negb andb].
  { destruct (_ && _); [done |]. intros [= <-]. split; [done | naive_solver]. }
  destruct (List.find _ KERNELS) as [short|]; [| intros [= <-]; split; [done | naive_solver]].
  destruct (String.eqb (strip (cell (id_key k) row)) ""); [done |]. set (id := strip (cell (id_key k) row)).
  assert (Hsame : (String.eqb short kernel && String.eqb id launch) = (bool_decide (short = kernel) && bool_decide (id = launch))).
  { f_equal; apply eq_bool_prop_intro; rewrite !Is_true_true, String.eqb_eq, bool_decide_eq_true; done. }
  rewrite Hsame. clear Hsame. unfold metric_of, gives, set_metric, open_record.
  destruct (dict_find _ lookup_table) as [canonical|]; intros [= <-].
  - rewrite !get_update. destruct (bool_decide (short = kernel)) eqn:Ek; [| split; [done | naive_solver]].
    destruct (bool_decide (id = launch)) eqn:El; [| split; [done | naive_solver]]. simpl. apply bool_decide_eq_true in Ek, El. subst short launch.
    rewrite !bool_decide_eq_true_2 by done. simpl. split; [| naive_solver].
    rewrite note_find. destruct (get_launch kernel id out) as [m|]; simpl; case_bool_decide as Em;
      (destruct (String.eqb_spec canonical metric); [| done]; done) || (destruct (String.eqb_spec canonical metric); done).
  - rewrite get_update. destruct (bool_decide (short = kernel)) eqn:Ek; [| split; [done | naive_solver]].
    destruct (bool_decide (id = launch)) eqn:El; [| split; [done | naive_solver]]. simpl. apply bool_decide_eq_true in Ek, El. subst short launch.
    split; [by destruct (get_launch kernel id out) | naive_solver].
Qed.

Lemma first_readable_app stands a b : first_readable stands (a ++ b)%list = first_readable (first_readable stands a) b.
Proof. apply fold_left_app. Qed.

Lemma readings_cons k kernel launch metric row rows : readings k kernel launch metric (row :: rows) =
  ((if row_of k kernel launch row then option_list (gives k metric row) else []) ++ readings k kernel launch metric rows)%list.
Proof.
  unfold readings. rewrite filter_cons. destruct (row_of k kernel launch row); simpl; [| done].
  by destruct (gives k metric row).
Qed.

Lemma read_rows_spec k rows : forall out out', read_rows k out rows = Ok out' -> forall kernel launch metric,
  metric_of kernel launch metric out' = first_readable (metric_of kernel launch metric out) (readings k kernel launch metric rows) /\
  (is_Some (get_launch kernel launch out') <-> is_Some (get_launch kernel launch out) \/ exists row, row ∈ rows /\ row_of k kernel launch row = true).
Proof.
  induction rows as [|row rows IH]; intros out out' E kernel launch metric; simpl in E.
  - injection E as <-. split; [done |]. split; [by left | intros [?|(? & ?%elem_of_nil & _)]; done].
  - destruct (read_row k out row) as [mid|] eqn:Er; [| done]. simpl in E. destruct (IH _ _ E kernel launch metric) as [IH1 IH2].
    destruct (read_row_spec _ _ _ _ kernel launch metric Er) as [H1 H2]. split.
    + rewrite IH1, H1, readings_cons, first_readable_app. by destruct (row_of k kernel launch row).
    + rewrite IH2, H2. setoid_rewrite elem_of_cons. split.
      * intros [[?|?]|(r & ? & ?)]; [by left | right; exists row; auto | right; exists r; auto].
      * intros [?|(r & [->|?] & ?)]; [by left; left | by left; right | right; by exists r].
Qed.

(** Launches are not merged: a record exists exactly for the launches some row names, and a metric of it is the
    first readable value the rows of that launch of that kernel state for it. *)
Theorem records_faithful k rows out : read_rows k [] rows = Ok out -> forall kernel launch,
  (is_Some (get_launch kernel launch out) <-> exists row, row ∈ rows /\ row_of k kernel launch row = true) /\
  forall metric, metric_of kernel launch metric out = first_readable None (readings k kernel launch metric rows).
Proof.
  intros E kernel launch. split; [| intros metric; apply (read_rows_spec _ _ _ _ E kernel launch metric)].
  rewrite (proj2 (read_rows_spec _ _ _ _ E kernel launch "")). split; [intros [[? ?]|?]; done | by right].
Qed.

(** *** Keys are unique *)

Definition dict_wf {A} (P : A -> Prop) (d : list (string * A)) : Prop := NoDup (map fst d) /\ Forall (fun p => P p.2) d.
Definition metrics_wf (m : metrics) : Prop := NoDup (map fst m).
Definition capture_wf (c : capture) : Prop := dict_wf (dict_wf metrics_wf) c.

Lemma dict_update_wf {A} (P : A -> Prop) k f (d : list (string * A)) : dict_wf P d -> P (f None) ->
  (forall v, P v -> P (f (Some v))) -> dict_wf P (dict_update k f d).
Proof. intros [Hnd HP] Hn Hs. split; [by apply dict_update_nodup | by apply dict_update_Forall; auto]. Qed.

Lemma update_launch_wf kernel launch f c : capture_wf c -> metrics_wf (f None) ->
  (forall m, metrics_wf m -> metrics_wf (f (Some m))) -> capture_wf (update_launch kernel launch f c).
Proof.
  intros Hc Hn Hs. apply dict_update_wf; [done | |].
  - apply dict_update_wf; [split; constructor | done | done].
  - intros l Hl. by apply dict_update_wf.
Qed.

Lemma note_wf canonical value m : metrics_wf m -> metrics_wf (note canonical value m).
Proof. unfold note, metrics_wf. intros Hm. destruct (dict_find canonical m) as [[?|]|]; [done | by apply dict_update_nodup..]. Qed.

Lemma read_row_wf k out row out' : read_row k out row = Ok out' -> capture_wf out -> capture_wf out'.
Proof.
  intros E Hout. unfold read_row in E. cbv zeta in E. destruct (String.eqb _ ""); [destruct (_ && _); [done | by injection E as <-] |].
  destruct (List.find _ KERNELS); [| by injection E as <-]. destruct (String.eqb _ ""); [done |].
  assert (Ho : forall kernel launch, capture_wf (open_record kernel launch out)) by (intros; apply update_launch_wf; [done | constructor | done]).
  destruct (dict_find _ lookup_table); injection E as <-; [| done].
  apply update_launch_wf; [done | apply note_wf; constructor | intros; by apply note_wf].
Qed.

Lemma parse_wf text c : parse_csv text = Ok c -> capture_wf c.
Proof.
  unfold parse_csv. destruct (_csv_body text) as [body|]; [| done]. cbn [mbind res_bind]. destruct (dict_reader body) as [names rows].
  destruct (find_columns names) as [k|]; [| done]. cbn [mbind res_bind].
  assert (H : forall out, capture_wf out -> read_rows k out rows = Ok c -> capture_wf c); [| apply H; split; constructor].
  induction rows as [|row rows IH]; intros out Hout E; simpl in E; [by injection E as <- |].
  destruct (read_row k out row) as [mid|] eqn:Er; [| done]. apply (IH mid); [by eapply read_row_wf | done].
Qed.

(** The parser refuses with a [ValueError] or not at all. *)
Lemma find_columns_raises names e : find_columns names = Raise e -> e = ValueError.
Proof.
  unfold find_columns. cbv zeta. set (fields := dict_of _). intros E.
  repeat match type of E with context [dict_find ?k fields] => destruct (dict_find k fields); cbn [mbind res_bind of_option] in E end;
    first [by injection E | done].
Qed.

Lemma read_row_raises k out row e : read_row k out row = Raise e -> e = ValueError.
Proof.
  unfold read_row. cbv zeta. destruct (String.eqb _ ""); [by destruct (_ && _); intros [= <-] |]. destruct (List.find _ KERNELS); [| done].
  destruct (String.eqb _ ""); [by intros [= <-] |]. by destruct (dict_find _ lookup_table).
Qed.

Lemma parse_raises text e : parse_csv text = Raise e -> e = ValueError.
Proof.
  unfold parse_csv, _csv_body. destruct (from_header _) as [lines|]; [| by intros [= <-]]. cbn [mbind res_bind of_option].
  destruct (dict_reader _) as [names rows]. destruct (find_columns names) as [k|e'] eqn:Ek; cbn [mbind res_bind];
    [| intros [= <-]; by eapply find_columns_raises].
  generalize (@nil (string * launches)) as out. induction rows as [|row rows IH]; intros out; simpl; [done |].
  destruct (read_row k out row) as [mid|e'] eqn:Er; [apply IH |]. intros [= <-]. by eapply read_row_raises.
Qed.

(** ** What the decision means *)

(** A launch that can be judged. *)
Definition usable_launch (m : metrics) : Prop :=
  (forall key, key ∈ REQUIRED -> key ∈ map fst m) /\ (forall p, p ∈ m -> p.2 <> None) /\
  (0 < reading "registers_per_thread" m)%Q /\ (0 < reading "block_size" m)%Q /\ (0 < reading "grid_size" m)%Q /\
  (0 < reading "theoretical_occupancy_pct" m <= 100)%Q /\ (0 < reading "achieved_occupancy_pct" m <= 100)%Q /\
  (reading "achieved_occupancy_pct" m <= reading "theoretical_occupancy_pct" m + (5 # 100))%Q /\
  forall key, key ∈ ["block_limit_registers"; "block_limit_shared_mem"; "block_limit_warps"; "waves_per_sm"] -> (0 <= reading key m)%Q.

(** A capture that can be judged: both kernels, the launches asked for, and in each kernel launches with the same metrics, all usable. *)
Definition usable (c : capture) (expected_launches : option Z) : Prop :=
  (forall n, expected_launches = Some n -> Z.of_nat (sum_list_with (fun p => length p.2) c) = n) /\
  forall name, name ∈ KERNELS -> exists l, dict_find name c = Some l /\ l <> [] /\
    (forall p q, p ∈ l -> q ∈ l -> forall key, key ∈ map fst p.2 <-> key ∈ map fst q.2) /\ forall p, p ∈ l -> usable_launch p.2.

Lemma Qleb_strict_lt a b : Qleb_strict a b = true <-> (a < b)%Q.
Proof.
  unfold Qleb_strict. rewrite negb_true_iff. split; intros H.
  - apply Qnot_le_lt. intros Hle%Qle_bool_iff. congruence.
  - apply not_true_iff_false. intros Hle%Qle_bool_iff. by apply Qlt_not_le in H.
Qed.

Lemma Qleb_strict_ge a b : Qleb_strict a b = false <-> (b <= a)%Q.
Proof. rewrite <- Qle_bool_iff. unfold Qleb_strict. by destruct (Qle_bool b a). Qed.

Lemma Qle_bool_gt a b : Qle_bool a b = false <-> (b < a)%Q.
Proof. rewrite <- Qleb_strict_lt. unfold Qleb_strict. by destruct (Qle_bool a b). Qed.

Lemma filter_empty {A} (P : A -> Prop) `{!forall x, Decision (P x)} l : base.filter P l = [] <-> forall x, x ∈ l -> ~ P x.
Proof.
  split; [| apply list_filter_none]. intros E x Hx HP.
  assert (Hin : x ∈ base.filter P l) by by apply list_elem_of_filter. rewrite E in Hin. by apply elem_of_nil in Hin.
Qed.

Lemma sorted_none {A} `{EqDecision A} (leb : A -> A -> bool) l : sorted_of leb l = [] <-> l = [].
Proof.
  split; [| by intros ->]. intros E. destruct l as [|x l]; [done |].
  assert (Hx : x ∈ sorted_of leb (x :: l)) by (apply elem_of_sorted_of; left). rewrite E in Hx. by apply elem_of_nil in Hx.
Qed.

Lemma find_none {A} (f : A -> bool) l : List.find f l = None <-> forall x, x ∈ l -> f x = false.
Proof.
  split; [intros H x Hx%list_elem_of_In; by apply (find_none f l) |]. induction l as [|x l IH]; intros H; [done |]. simpl.
  rewrite H by left. apply IH. intros y Hy. apply H. by right.
Qed.

Ltac refuse_when b := destruct b eqn:?; [split; [done | intros; exfalso] |].

Lemma launch_problem_none kernel launch m : _launch_problem kernel launch m = None <-> usable_launch m.
Proof.
  unfold _launch_problem, usable_launch. cbv zeta.
  set (missing := base.filter _ REQUIRED). set (unreadable := sorted_of _ _).
  assert (Hm : missing = [] <-> forall key, key ∈ REQUIRED -> key ∈ map fst m).
  { unfold missing. rewrite filter_empty. split; intros H key Hk; [by apply dec_stable, H | intros Hn; by apply Hn, H]. }
  assert (Hu : unreadable = [] <-> forall p, p ∈ m -> p.2 <> None).
  { unfold unreadable. rewrite sorted_none. split; [intros E%map_eq_nil; exact (proj1 (filter_empty _ m) E) |].
    intros H. by rewrite (proj2 (filter_empty (fun p : string * option Q => p.2 = None) m) H). }
  rewrite <- Hm, <- Hu. clear Hm Hu. clearbody missing unreadable.
  destruct (decide (missing = [])) as [Em|Em]; [rewrite bool_decide_eq_true_2 by done | rewrite bool_decide_eq_false_2 by done; by split; [| intros []]].
  destruct (decide (unreadable = [])) as [Eu|Eu]; [rewrite bool_decide_eq_true_2 by done | rewrite bool_decide_eq_false_2 by done; by split; [| intros (_ & ? & _)]].
  cbn [negb]. set (regs := reading "registers_per_thread" m). set (block := reading "block_size" m). set (grid := reading "grid_size" m).
  set (th := reading "theoretical_occupancy_pct" m). set (ach := reading "achieved_occupancy_pct" m).
  destruct (Qle_bool regs 0) eqn:E1; [apply Qle_bool_iff in E1; split; [done | intros (_ & _ & ? & _); lra] | apply Qle_bool_gt in E1].
  destruct (Qle_bool block 0) eqn:E2; [apply Qle_bool_iff in E2; split; [done | intros (_ & _ & _ & ? & _); lra] | apply Qle_bool_gt in E2].
  destruct (Qle_bool grid 0) eqn:E3; [apply Qle_bool_iff in E3; split; [done | intros (_ & _ & _ & _ & ? & _); lra] | apply Qle_bool_gt in E3].
  assert (Hin : forall q, (Qleb_strict 0 q && Qle_bool q 100) = true <-> (0 < q <= 100)%Q).
  { intros q. by rewrite andb_true_iff, Qleb_strict_lt, Qle_bool_iff. }
  destruct (Qleb_strict 0 th && _) eqn:E4; [apply Hin in E4 | split; [done |]; intros (_ & _ & _ & _ & _ & H%Hin & _); by rewrite E4 in H].
  destruct (Qleb_strict 0 ach && _) eqn:E5; [apply Hin in E5 | split; [done |]; intros (_ & _ & _ & _ & _ & _ & H%Hin & _); by rewrite E5 in H].
  cbn [negb]. destruct (Qleb_strict (th + _) ach) eqn:E6; [apply Qleb_strict_lt in E6; split; [done | intros (_ & _ & _ & _ & _ & _ & _ & ? & _); lra] |].
  apply Qleb_strict_ge in E6. destruct (List.find _ _) as [key|] eqn:Ef.
  - split; [done |]. intros (_ & _ & _ & _ & _ & _ & _ & _ & H). apply find_some in Ef as [Hk%list_elem_of_In Hb%Qleb_strict_lt].
    specialize (H key Hk). lra.
  - split; [intros _ | done]. split_and!; try done; try apply E4; try apply E5.
    intros key Hk. apply Qleb_strict_ge. by apply (proj1 (find_none _ _) Ef).
Qed.

Lemma hd_omap_none {A B} (f : A -> option B) l : List.hd_error (omap f l) = None <-> forall x, x ∈ l -> f x = None.
Proof.
  induction l as [|x l IH]; [split; [by intros _ x Hx%elem_of_nil | done] |]. cbn. destruct (f x) as [y|] eqn:E.
  - split; [done |]. intros H. specialize (H x ltac:(left)). by rewrite E in H.
  - rewrite IH. setoid_rewrite elem_of_cons. split; [intros H y [->|?]; auto | intros H y ?; auto].
Qed.

Lemma in_order_elem l x : x ∈ in_order l <-> x ∈ map fst l.
Proof.
  unfold in_order. rewrite merge_sort_Permutation, map_map. done.
Qed.

Lemma same_keys_iff a b : same_keys a b = true <-> forall key, key ∈ a <-> key ∈ b.
Proof.
  unfold same_keys. rewrite andb_true_iff, !forallb_forall. setoid_rewrite <- list_elem_of_In. setoid_rewrite bool_decide_eq_true.
  naive_solver.
Qed.

Lemma kernel_problem_none (c : capture) name (l : launches) : dict_find name c = Some l -> NoDup (map fst l) -> kernel_problem c name = None <->
  l <> [] /\ (forall p q, p ∈ l -> q ∈ l -> forall key, key ∈ map fst p.2 <-> key ∈ map fst q.2) /\ forall p, p ∈ l -> usable_launch p.2.
Proof.
  intros Hl Hnd. unfold kernel_problem. rewrite Hl. cbn [default from_option id]. cbv zeta.
  destruct l as [|[n0 first] l'] eqn:El; [by split; [| intros []] |]. rewrite <- El in *. clear Hl.
  assert (Hfirst : (n0, first) ∈ l) by (rewrite El; left).
  assert (Hs : forallb (fun p => same_keys (map fst p.2) (map fst first)) l = true <->
    forall p q, p ∈ l -> q ∈ l -> forall key, key ∈ map fst p.2 <-> key ∈ map fst q.2).
  { rewrite forallb_forall. setoid_rewrite <- list_elem_of_In. setoid_rewrite same_keys_iff. split.
    - intros H p q Hp Hq key. by rewrite (H p Hp), (H q Hq).
    - intros H p Hp key. apply (H p (n0, first) Hp Hfirst). }
  destruct (forallb _ l) eqn:Ef; cbn [negb].
  - rewrite hd_omap_none. assert (Hp : (forall x, x ∈ in_order l -> (m ← dict_find x l; _launch_problem name x m) = None) <-> forall p, p ∈ l -> usable_launch p.2).
    { split.
      - intros H [x m] Hx. assert (Hin : x ∈ in_order l) by (apply in_order_elem; by apply (list_elem_of_fmap_2 fst _ (x, m))).
        specialize (H x Hin). rewrite (dict_find_in l x m Hnd Hx) in H. by apply launch_problem_none in H.
      - intros H x Hx%in_order_elem. apply list_elem_of_fmap in Hx as ([? m] & -> & Hx). cbn [fst]. rewrite (dict_find_in l _ m Hnd Hx).
        apply launch_problem_none. by apply (H _ Hx). }
    rewrite Hp, <- Hs. rewrite El. naive_solver.
  - split; [done |]. intros (_ & H%Hs & _). done.
Qed.

Lemma capture_problem_none (c : capture) expected_launches : capture_wf c -> capture_problem c expected_launches = None <-> usable c expected_launches.
Proof.
  intros [Hnd Hwf]. rewrite Forall_forall in Hwf.
  assert (Hl : forall name l, dict_find name c = Some l -> NoDup (map fst l)).
  { intros name l Hf. unfold dict_find in Hf. destruct (List.find _ c) as [[n' l']|] eqn:E; [| done]. injection Hf as <-.
    apply find_some in E as [Hin%list_elem_of_In _]. by apply (Hwf _ Hin). }
  unfold capture_problem, usable. cbv zeta. set (missing := base.filter _ KERNELS).
  assert (Hm : missing = [] <-> forall name, name ∈ KERNELS -> exists l, dict_find name c = Some l).
  { unfold missing. rewrite filter_empty. apply forall_proper. intros name. apply forall_proper. intros _.
    rewrite dict_find_keys. split; [intros Hn; by apply dec_stable in Hn as [l ?]; exists l | intros [l ?] Hn; apply Hn; by exists l]. }
  clearbody missing. destruct (decide (missing = [])) as [Em|Em].
  2: { rewrite bool_decide_eq_false_2 by done. split; [done |]. intros [_ H]. exfalso. apply Em, Hm. intros name Hn.
       destruct (H name Hn) as (l & ? & _). by exists l. }
  rewrite bool_decide_eq_true_2 by done. cbn [negb]. pose proof (proj1 Hm Em) as Hfound.
  assert (Hk : List.hd_error (omap (kernel_problem c) KERNELS) = None <-> forall name, name ∈ KERNELS -> exists l, dict_find name c = Some l /\ l <> [] /\
    (forall p q, p ∈ l -> q ∈ l -> forall key, key ∈ map fst p.2 <-> key ∈ map fst q.2) /\ forall p, p ∈ l -> usable_launch p.2).
  { rewrite hd_omap_none. apply forall_proper. intros name. split; intros H Hn; specialize (H Hn).
    - destruct (Hfound name Hn) as [l El]. exists l. split; [done |]. by apply (kernel_problem_none c name l El (Hl _ _ El)).
    - destruct H as (l & El & H). by apply (kernel_problem_none c name l El (Hl _ _ El)). }
  destruct expected_launches as [n|]; [destruct (Z.eqb_spec (Z.of_nat (sum_list_with (fun p => length p.2) c)) n) as [E|E] |]; cbn [negb].
  - rewrite Hk. split; [intros H; split; [by intros ? [= <-] | done] | by intros []].
  - split; [done |]. intros [H _]. by specialize (H n eq_refl).
  - rewrite Hk. split; [by intros H | by intros []].
Qed.

(** The least reading is one of the readings and below all of them. *)
Lemma fold_least qs : forall q, let m := fold_left (fun m x => if Qleb_strict x m then x else m) qs q in
  (m = q \/ m ∈ qs) /\ (m <= q)%Q /\ forall x, x ∈ qs -> (m <= x)%Q.
Proof.
  induction qs as [|y qs IH]; intros q; simpl; [split_and!; [by left | apply Qle_refl | by intros x Hx%elem_of_nil] |].
  destruct (Qleb_strict y q) eqn:E.
  - apply Qleb_strict_lt in E. destruct (IH y) as (H1 & H2 & H3). split_and!.
    + right. apply elem_of_cons. destruct H1 as [H1|H1]; [by left | by right].
    + apply Qlt_le_weak. by eapply Qle_lt_trans.
    + intros x [->|Hx]%elem_of_cons; [done | by apply H3].
  - apply Qleb_strict_ge in E. destruct (IH q) as (H1 & H2 & H3). split_and!.
    + destruct H1 as [H1|H1]; [by left | right; by right].
    + done.
    + intros x [->|Hx]%elem_of_cons; [by eapply Qle_trans | by apply H3].
Qed.

Lemma least_spec key (l : launches) : l <> [] ->
  (exists p, p ∈ l /\ least key l = reading key p.2) /\ forall p, p ∈ l -> (least key l <= reading key p.2)%Q.
Proof.
  intros Hl. unfold least. destruct l as [|p0 l]; [done |]. cbn [map].
  destruct (fold_least (map (fun p => reading key p.2) l) (reading key p0.2)) as (H1 & H2 & H3). split.
  - destruct H1 as [H1|H1]; [exists p0; split; [left | done] |].
    apply list_elem_of_fmap in H1 as (p & E & Hp). exists p. split; [by right | done].
  - intros p [->|Hp]%elem_of_cons; [done |]. apply H3. apply list_elem_of_fmap. by exists p.
Qed.

Lemma overall_open v : overall v = OPEN_GAP <-> OPEN_GAP ∈ v.
Proof.
  unfold overall. destruct (existsb _ v) eqn:E.
  - split; [intros _ | done]. apply existsb_exists in E as (x & Hx%list_elem_of_In & ->%bool_decide_eq_true). done.
  - split; [by destruct (forallb _ v) |]. intros H. apply not_true_iff_false in E. exfalso. apply E, existsb_exists.
    exists OPEN_GAP. split; [by apply list_elem_of_In | done].
Qed.

Lemma overall_registers v : overall v = STOP_REGISTER_HEADROOM <-> forall x, x ∈ v -> x = STOP_REGISTER_HEADROOM.
Proof.
  unfold overall. destruct (existsb _ v) eqn:E.
  - split; [done |]. intros H. apply existsb_exists in E as (x & Hx%list_elem_of_In & ->%bool_decide_eq_true). by specialize (H _ Hx).
  - destruct (forallb _ v) eqn:Ef; split; try done.
    + intros _ x Hx%list_elem_of_In. rewrite forallb_forall in Ef. by apply Ef, bool_decide_eq_true in Hx.
    + intros H. apply not_true_iff_false in Ef. exfalso. apply Ef, forallb_forall. intros x Hx%list_elem_of_In. by rewrite (H x Hx).
Qed.

Lemma overall_decides v : overall v <> ABORT.
Proof. unfold overall. destruct (existsb _ v); [done |]. by destruct (forallb _ v). Qed.

(** An open gap of a kernel is a gap of one of its launches. *)
Lemma kernel_open regs_stop ratio l : l <> [] -> (forall p, p ∈ l -> usable_launch p.2) ->
  k_verdict (judge_kernel regs_stop ratio l) = OPEN_GAP ->
  (exists p, p ∈ l /\ (reading "achieved_occupancy_pct" p.2 < ratio * reading "theoretical_occupancy_pct" p.2)%Q) /\
  (exists p, p ∈ l /\ (reading "registers_per_thread" p.2 <= regs_stop)%Q).
Proof.
  intros Hl Hu. unfold judge_kernel. cbv zeta. cbn [k_verdict].
  destruct (Qleb_strict regs_stop _) eqn:Er; [done |]. destruct (Qle_bool ratio _) eqn:Ea; [done |]. intros _.
  apply Qleb_strict_ge in Er. apply Qle_bool_gt in Ea.
  destruct (least_spec "registers_per_thread" l Hl) as [(pr & Hpr & Er') _]. split; [| exists pr; by rewrite <- Er'].
  destruct (least_spec "achieved_occupancy_pct" l Hl) as [(pa & Hpa & Ea') _]. rewrite Ea' in Ea.
  destruct (least_spec "theoretical_occupancy_pct" l Hl) as [(pt & Hpt & Et) Hth]. exists pa. split; [done |].
  specialize (Hth pa Hpa). rewrite Et in *.
  assert (Hpos : (0 < reading "theoretical_occupancy_pct" pt.2)%Q) by apply (Hu pt Hpt).
  assert (Hach : (0 < reading "achieved_occupancy_pct" pa.2)%Q) by apply (Hu pa Hpa).
  set (a := reading "achieved_occupancy_pct" pa.2) in *. set (t := reading "theoretical_occupancy_pct" pt.2) in *.
  assert (Hlt : (a < ratio * t)%Q).
  { apply (Qmult_lt_r _ _ t Hpos) in Ea. rewrite Qmult_comm, Qmult_div_r in Ea by lra. done. }
  assert (Hr : (0 < ratio)%Q).
  { apply Qnot_le_lt. intros Hneg. assert ((ratio * t <= 0 * t)%Q) by (apply Qmult_le_compat_r; [done | lra]). lra. }
  eapply Qlt_le_trans; [exact Hlt |]. rewrite !(Qmult_comm ratio). apply Qmult_le_compat_r; [done | lra].
Qed.

Lemma kernel_registers regs_stop ratio l : l <> [] ->
  k_verdict (judge_kernel regs_stop ratio l) = STOP_REGISTER_HEADROOM <->
  forall p, p ∈ l -> (regs_stop < reading "registers_per_thread" p.2)%Q.
Proof.
  intros Hl. unfold judge_kernel. cbv zeta. cbn [k_verdict]. destruct (least_spec "registers_per_thread" l Hl) as [(pr & Hpr & Er) Hle].
  destruct (Qleb_strict regs_stop _) eqn:E.
  - apply Qleb_strict_lt in E. split; [| done]. intros _ p Hp. specialize (Hle p Hp). lra.
  - apply Qleb_strict_ge in E. rewrite Er in E. split; [by destruct (Qle_bool ratio _) |]. intros H. specialize (H pr Hpr). lra.
Qed.


(** ** Captures *)

Definition demo_line (kernel launch metric value : string) : string :=
  unquote ("^" ++ launch ++ "^,^void " ++ kernel ++ "<4, 2>(half *)^,^" ++ metric ++ "^,^" ++ value ++ "^") ++ newline.
Definition demo_launch (kernel launch regs theoretical achieved : string) : string :=
  String.concat "" (map (fun p => demo_line kernel launch p.1 p.2) [("Registers Per Thread", regs ++ " register/thread"); ("Block Size", "256");
    ("Grid Size", "48"); ("Block Limit Registers", "2"); ("Block Limit Shared Mem", "3"); ("Block Limit Warps", "6");
    ("Theoretical Occupancy", theoretical ++ " %"); ("sm__warps_active.avg.pct_of_peak_sustained_active", achieved); ("Waves Per SM", "0.5")]).
Definition demo_capture (launches : list string) : string :=
  "==PROF== Connected" ++ newline ++ unquote "^ID^,^Kernel Name^,^Metric Name^,^Metric Value^" ++ newline ++ String.concat "" launches.
Definition demo_main (launches : list string) : res (decision * Z) :=
  r ← main (demo_capture launches) 96 (8 # 10) None; Ok (verdict r.1, r.2).

Example open_gap : demo_main [demo_launch "fm_gateup_kernel" "0" "80" "50" "30.5"; demo_launch "fm_down_kernel" "1" "128" "50" "49"] = Ok (OPEN_GAP, 0%Z).
Proof. vm_compute. reflexivity. Qed.

(** The minima of a kernel may come from different launches: launch 2 is at 60 % of its theoretical
    occupancy, but is measured against the theoretical occupancy of launch 0. *)
Example hidden_gap : demo_main [demo_launch "fm_gateup_kernel" "0" "80" "50" "49"; demo_launch "fm_gateup_kernel" "2" "80" "100" "60";
  demo_launch "fm_down_kernel" "1" "80" "50" "49"] = Ok (STOP_NO_GAP, 0%Z).
Proof. vm_compute. reflexivity. Qed.
Example gap_alone : demo_main [demo_launch "fm_gateup_kernel" "2" "80" "100" "60"; demo_launch "fm_down_kernel" "1" "80" "50" "49"] = Ok (OPEN_GAP, 0%Z).
Proof. vm_compute. reflexivity. Qed.

Example unreadable_value : demo_main [demo_launch "fm_gateup_kernel" "0" "80" "50" "N/A"; demo_launch "fm_down_kernel" "1" "80" "50" "49"] = Ok (ABORT, 1%Z).
Proof. vm_compute. reflexivity. Qed.
Example missing_kernel : demo_main [demo_launch "fm_gateup_kernel" "0" "80" "50" "49"] = Ok (ABORT, 1%Z).
Proof. vm_compute. reflexivity. Qed.
Example no_header : main "==ERROR== No kernels were profiled" 96 (8 # 10) None = Ok (Report [] ABORT (Some Unparseable), 1%Z).
Proof. vm_compute. reflexivity. Qed.
