(* ===== verification/QualProbe.v ===== *)
(** * The qualification window's probe

    Model of [scripts/probe_v149_qualification.py]: the counters read from the metrics
    page, the streaming loop, a decode run and a cold-prefill run, what makes a run
    invalid, the calibration of a prompt, the summary and the main loop with the
    receipts it writes.  The server is an argument: its metrics pages, its
    answer line by line with the clock reading taken for each, and its tokenizer.
    Floats are exact; a NaN or infinite counter has no value, so a page with one is
    unreadable, as in the code, and a speculation counter with one raises.  Texts are
    8-bit: line ends, digits and word characters outside ASCII are not recognised.

    An accepted prefill run is proved cold; the judge of the window takes the
    receipt of a probe exactly when the probe exited with zero. *)
From Stdlib Require Import ZArith QArith Qabs Lqa Lia String Ascii.
From stdpp Require Import base list strings sets pretty.
From S2P Require Import Prelude PyStr PyNum PyDict PyRe PyJson Stats AuditV149 SmokeContract.
#[local] Open Scope string_scope.
#[local] Open Scope list_scope.

Definition DECODE_KINDS : list string := ["structured"; "essay"; "hashmap"].
Definition PREFILL_KINDS : list (string * Z) := [("prefill60k", 60000%Z); ("prefill240k", 240000%Z)].
Definition KINDS : list string := DECODE_KINDS ++ map fst PREFILL_KINDS.
Definition TASK : string := "Reply with OK.".
Definition PREFILL_TARGET_TOLERANCE : Q := 5 # 100.

Definition contains_nan (text : string) : bool := if search NAN_RE text then true else false.

(** ** Counters *)

(** [str.splitlines]. *)
Definition line_end (c : ascii) : bool :=
  let n := nat_of_ascii c in ((10 <=? n) && (n <=? 13) || (28 <=? n) && (n <=? 30))%nat.
Fixpoint splitlines_from (cur : string) (cr : bool) (s : string) : list string :=
  match s with
  | EmptyString => if String.eqb cur "" then [] else [cur]
  | String c t =>
      if cr && Ascii.eqb c "010" then splitlines_from cur false t
      else if line_end c then cur :: splitlines_from "" (Ascii.eqb c "013") t
      else splitlines_from (cur ++ String c "")%string false t
  end.
Definition splitlines (s : string) : list string := splitlines_from "" false s.

(** [name{labels} value]; a line has no newline before which [$] could match. *)
Definition metric_line (name : re) : re :=
  Seq [name; Lit "{"; Group 2 (Many (isnt "}")); Lit "}"; Some1 is_space; Group 3 (Some1 (fun c => negb (is_space c)))].
Definition SPEC_RE : re := metric_line (Group 1 (Cat (Lit "vllm:spec_decode_") (Some1 is_word))).
Definition cache_name (suffix : string) : re :=
  Seq [Lit "vllm:prefix_cache_"; Group 1 (Or (Lit "queries") (Lit "hits")); Lit suffix].
Definition PREFIX_CACHE_RE : re := metric_line (cache_name "_total").
Definition PREFIX_CACHE_CREATED_RE : re := metric_line (cache_name "_created").

Definition group (n : nat) (g : groups) : string := default "" (group_of n g).

(** A line of the page that names a counter: its key and its value as text. *)
Definition series_key (prefix : string) (g : groups) : string :=
  (prefix ++ group 1 g ++ "{" ++ group 2 g ++ "}")%string.
Definition cache_sample (line : string) : option (string * string) :=
  match fullmatch PREFIX_CACHE_RE line with
  | Some g => Some (series_key "" g, group 3 g)
  | None =>
      match fullmatch PREFIX_CACHE_CREATED_RE line with
      | Some g => Some (series_key "created:" g, group 3 g)
      | None => None
      end
  end.

Definition counters : Type := list (string * Q).

Fixpoint cache_samples (out : counters) (lines : list string) : counters :=
  match lines with
  | [] => out
  | line :: lines =>
      match cache_sample line with
      | None => cache_samples out lines
      | Some (key, raw) =>
          match parse_float raw with
          | Some v => if Qltb v 0 then [] else cache_samples (dict_set key v out) lines
          | None => []
          end
      end
  end.

(** [None] is a page that could not be read. *)
Definition prefix_cache_snapshot (page : option string) : counters :=
  match page with Some body => cache_samples [] (splitlines body) | None => [] end.

Definition is_created (key : string) : bool := String.prefix "created:" key.
Definition series (d : counters) : counters := base.filter (fun p => is_created p.1 = false) d.
Definition same_keys (a b : counters) : bool :=
  forallb (fun k => bool_decide (k ∈ map fst b)) (map fst a) && forallb (fun k => bool_decide (k ∈ map fst a)) (map fst b).

(** [sums] with [seen]: a kind that was not seen has no sum. *)
Record deltas := Deltas { queries_delta : option Q; hits_delta : option Q }.
Definition bump (q : Q) (total : option Q) : option Q := Some (default 0 total + q)%Q.
Definition series_kind (key : string) : string := before "{" key.
Definition count_delta (key : string) (q : Q) (d : deltas) : deltas :=
  if String.eqb (series_kind key) "queries" then Deltas (bump q (queries_delta d)) (hits_delta d)
  else if String.eqb (series_kind key) "hits" then Deltas (queries_delta d) (bump q (hits_delta d)) else d.

Fixpoint accumulate (earlier later : counters) (d : deltas) (l : counters) : option deltas :=
  match l with
  | [] => Some d
  | (key, value) :: l =>
      match dict_find ("created:" ++ key)%string earlier, dict_find ("created:" ++ key)%string later, dict_find key later with
      | Some life, Some life', Some value' =>
          if negb (Qeq_bool life life') then None
          else if Qltb value' value then None
          else accumulate earlier later (count_delta key (value' - value)%Q d) l
      | _, _, _ => None
      end
  end.

Definition nonneg (q : option Q) : option Q := match q with Some q => if Qle_bool 0 q then Some q else None | None => None end.

Definition prefix_cache_delta (earlier later : counters) : deltas :=
  let none := Deltas None None in
  match series earlier with
  | [] => none
  | s =>
      if same_keys s (series later) then
        match accumulate earlier later (Deltas None None) s with
        | Some d => Deltas (nonneg (queries_delta d)) (nonneg (hits_delta d))
        | None => none
        end
      else none
  end.

(** *** Speculation counters *)

Definition POSITION_RE : re :=
  Seq [Lit "position="; Chr (Ascii.eqb "034"); Group 1 (Some1 is_digit); Chr (Ascii.eqb "034")].

Fixpoint spec_samples (out : counters) (lines : list string) : res counters :=
  match lines with
  | [] => Ok out
  | line :: lines =>
      match fullmatch SPEC_RE line with
      | None => spec_samples out lines
      | Some g =>
          value ← of_option ValueError (parse_float (group 3 g));
          let name := group 1 g in
          if ends_with "_created" name then spec_samples out lines
          else if str_in "per_pos" name then
            match search POSITION_RE (group 2 g) with
            | Some f => spec_samples (dict_set ("pos:" ++ group 1 (f_groups f))%string value out) lines
            | None => spec_samples out lines
            end
          else spec_samples (dict_update name (fun o => default 0 o + value)%Q out) lines
      end
  end.

(** Unlike the cache counters, a page that cannot be read raises. *)
Definition spec_snapshot (page : option string) : res counters :=
  match page with Some body => spec_samples [] (splitlines body) | None => Raise OtherException end.

Record spec := Spec {
  drafts : Z;
  draft_tokens : Z;
  accepted : Z;
  accept_ratio : option Q;
  accepted_per_step : option Q;
  pos : list Q }.

Definition advance (earlier later : counters) (key : string) : Q :=
  (default 0 (dict_find key later) - default 0 (dict_find key earlier))%Q.
Definition truncate (q : Q) : Z := Z.quot (Qnum q) (Z.pos (Qden q)).
Definition ratio (n : positive) (a b : Q) : option Q := if Qeq_bool b 0 then None else Some (py_round n (a / b)).

Definition spec_delta (earlier later : counters) : spec :=
  let d := advance earlier later "vllm:spec_decode_num_drafts_total" in
  let t := advance earlier later "vllm:spec_decode_num_draft_tokens_total" in
  let a := advance earlier later "vllm:spec_decode_num_accepted_tokens_total" in
  Spec (truncate d) (truncate t) (truncate a) (ratio 4 a t) (ratio 3 a d)
    (map (fun i => default 0%Q (ratio 4 (advance earlier later ("pos:" ++ pretty (Z.of_nat i))%string) d)) (seq 0 7)).

(** ** The stream *)

Definition is_bspace (c : ascii) : bool := let n := nat_of_ascii c in ((n =? 32) || (9 <=? n) && (n <=? 13))%nat.

(** [bytes.strip]. *)
Fixpoint bytes_lstrip (s : string) : string :=
  match s with String c t => if is_bspace c then bytes_lstrip t else s | EmptyString => "" end.
Fixpoint bytes_rstrip (s : string) : string :=
  match s with
  | String c t => match bytes_rstrip t with EmptyString => if is_bspace c then "" else String c "" | r => String c r end
  | EmptyString => ""
  end.
Definition bytes_strip (s : string) : string := bytes_rstrip (bytes_lstrip s).

(** What the loop has gathered; [JNull] is [None]. *)
Record stream := Stream {
  first : option Q;
  last : option Q;
  chunks : list json;
  st_usage : json;
  st_finish : json }.
Definition stream0 : stream := Stream None None [] JNull JNull.

(** The outcome of opening the request: refused, or a status and the lines that
    come, each with the clock's reading when it is handled, and how it ends. *)
Inductive connection :=
  | Refused (e : exn)
  | Opened (status : Z) (lines : list (string * Q)) (broken : option exn).

Record raw_run := RawRun {
  rr_http : option Z;
  rr_error : option exn;
  first_s : option Q;
  last_s : option Q;
  ended_s : Q;
  started_s : Q;
  rr_text : string;
  rr_usage : json;
  rr_finish : json }.

(** The first true value, or the last. *)
Fixpoint py_ors (l : list json) (d : json) : json :=
  match l with [] => d | v :: l => if falsy v then py_ors l d else v end.

(** [choices[0]], used as a dict. *)
Definition first_choice (choices : json) : res (list (string * json)) :=
  match choices with
  | JList (JDict c :: _) => Ok c
  | JList _ | JStr _ => Raise AttributeError
  | JDict _ => Raise KeyError
  | _ => Raise TypeError
  end.

(** ["".join(chunks)]. *)
Fixpoint join_text (l : list json) : res string :=
  match l with
  | [] => Ok ""
  | JStr s :: l => t ← join_text l; Ok (s ++ t)%string
  | _ :: _ => Raise TypeError
  end.

Definition take_usage (s : stream) (v : json) : stream :=
  if falsy v then s else Stream (first s) (last s) (chunks s) v (st_finish s).
Definition take_content (s : stream) (v : json) (now : Q) : stream :=
  if falsy v then s else Stream (Some (default now (first s))) (Some now) (chunks s ++ [v]) (st_usage s) (st_finish s).
Definition take_finish (s : stream) (v : json) : stream :=
  if falsy v then s else Stream (first s) (last s) (chunks s) (st_usage s) v.

Section probe.
Context (chr : Z -> string).

(** One event: what an exception leaves done stays done. *)
Definition stream_event (s : stream) (obj : json) (now : Q) : stream * option exn :=
  match obj with
  | JDict d =>
      let s := take_usage s (get "usage" d) in
      let choices := get "choices" d in
      if falsy choices then (s, None)
      else
        match first_choice choices with
        | Raise e => (s, Some e)
        | Ok choice =>
            match or_dict (get "delta" choice) with
            | Raise e => (s, Some e)
            | Ok delta =>
                let content := py_ors [get "content" delta; get "reasoning" delta; get "reasoning_content" delta] (JStr "") in
                (take_finish (take_content s content now) (get "finish_reason" choice), None)
            end
        end
  | _ => (s, Some AttributeError)
  end.

Definition stream_line (s : stream) (raw_line : string) (now : Q) : stream * option exn :=
  let line := bytes_strip raw_line in
  if negb (String.prefix "data:" line) then (s, None)
  else
    let payload := bytes_strip (drop_str 5 line) in
    if String.eqb payload "[DONE]" then (s, None)
    else match json_loads chr payload with Ok obj => stream_event s obj now | Raise _ => (s, None) end.

Fixpoint stream_lines (s : stream) (lines : list (string * Q)) : stream * option exn :=
  match lines with
  | [] => (s, None)
  | (l, now) :: lines =>
      match stream_line s l now with
      | (s, Some e) => (s, Some e)
      | (s, None) => stream_lines s lines
      end
  end.

Definition _stream (c : connection) (started ended : Q) : res raw_run :=
  let '(http, s, error) :=
    match c with
    | Refused e => (None, stream0, Some e)
    | Opened status lines broken =>
        let '(s, e) := stream_lines stream0 lines in (Some status, s, match e with Some e => Some e | None => broken end)
    end in
  text ← join_text (chunks s);
  Ok (RawRun http error (first s) (last s) ended started text
        (if falsy (st_usage s) then JDict [] else st_usage s) (st_finish s)).

(** ** One run *)

(** What the server and the clock do during a run. *)
Record world := World {
  page_before : option string;
  page_after : option string;
  answer : connection;
  started : Q;
  ended : Q;
  salt : string }.

(** [int(usage.get(key) or 0)]. *)
Definition count_of (key : string) (usage : list (string * json)) : res Z :=
  let v := get key usage in if falsy v then Ok 0%Z else to_int v.

Definition usage_of (raw : raw_run) : res (list (string * json)) :=
  match rr_usage raw with JDict d => Ok d | _ => Raise AttributeError end.

Definition ttft_of (raw : raw_run) : option Q := (fun f => f - started_s raw)%Q <$> first_s raw.

Record decode := Decode {
  d_http : option Z;
  d_error : option exn;
  d_ttft_s : option Q;
  d_wall_s : Q;
  d_decode_s : option Q;
  d_tok_s : option Q;
  d_completion_tokens : Z;
  d_prompt_tokens : Z;
  d_finish_reason : json;
  d_nan : bool;
  d_text_head : string;
  d_spec : spec }.

Definition decode_run (w : world) : res decode :=
  earlier ← spec_snapshot (page_before w);
  raw ← _stream (answer w) (started w) (ended w);
  later ← spec_snapshot (page_after w);
  usage ← usage_of raw;
  completion_tokens ← count_of "completion_tokens" usage;
  prompt_tokens ← count_of "prompt_tokens" usage;
  let decode_s := match first_s raw, last_s raw with Some f, Some l => Some (l - f)%Q | _, _ => None end in
  let tok_s :=
    match decode_s with
    | Some s => if Qltb 0 s && (1 <? completion_tokens)%Z then Some (inject_Z (completion_tokens - 1) / s)%Q else None
    | None => None
    end in
  Ok (Decode (rr_http raw) (rr_error raw) (ttft_of raw) (ended_s raw - started_s raw)%Q decode_s tok_s
        completion_tokens prompt_tokens (rr_finish raw) (contains_nan (rr_text raw)) (take_str 400 (rr_text raw))
        (spec_delta earlier later)).

(** Why a run is invalid. *)
Inductive why :=
  | Errored (e : exn)
  | HttpStatus (status : option Z)
  | NoFirstToken
  | NotMoreThanOne (completion_tokens : Z)
  | NaNMarkerSeen
  | ShortCompletion (completion_tokens : Z)
  | NoPromptTokens
  | NoPrefillRate
  | OffTarget (prompt_tokens : Z)
  | WarmField (cached_tokens : json)
  | NoTelemetry
  | NotAttributable (queries : Q)
  | WarmCounter (hits : Q).

Definition decode_run_invalid (run : decode) (max_tokens : Z) : option why :=
  match d_error run with
  | Some e => Some (Errored e)
  | None =>
      if bool_decide (d_http run <> Some 200%Z) then Some (HttpStatus (d_http run))
      else match d_ttft_s run with
      | None => Some NoFirstToken
      | Some _ =>
          match d_tok_s run with
          | None => Some (NotMoreThanOne (d_completion_tokens run))
          | Some _ =>
              if d_nan run then Some NaNMarkerSeen
              else if (d_completion_tokens run <? max_tokens)%Z then Some (ShortCompletion (d_completion_tokens run))
              else None
          end
      end
  end.

(** *** The prompt of a cold run *)

Fixpoint times (n : nat) (s : string) : string := match n with O => "" | S n => (s ++ times n s)%string end.
Definition FILLER : string := "the ".
Definition build_user_text (n_filler : Z) (salt : string) : string :=
  (salt ++ newline ++ times (Z.to_nat n_filler) FILLER ++ newline ++ TASK)%string.

Context (tokenize : string -> res Z).

Definition far (got target : Z) : bool := Qltb (5 # 1000) (Qabs (inject_Z (got - target)) / inject_Z target).

(** The filler count, what the server counts, and the text. *)
Definition calibrate (target : Z) (salt : string) : res (Z * Z * string) :=
  let text n := build_user_text n salt in
  overhead ← tokenize (text 0%Z);
  let n := Z.max (target - overhead) 1 in
  got ← tokenize (text n);
  p ← (if (0 <? got)%Z && far got target then
         let per := (inject_Z (got - overhead) / inject_Z n)%Q in
         let n := if Qltb 0 per then Z.max (round_half_even (inject_Z (target - overhead) / per)) 1 else n in
         got ← tokenize (text n); Ok (n, got)
       else Ok (n, got));
  let '(n, got) := p in
  if far got target then
    let n := Z.max (n + (target - got)) 1 in
    got ← tokenize (text n); Ok (n, got, text n)
  else Ok (n, got, text n).

Record prefill := Prefill {
  p_http : option Z;
  p_error : option exn;
  p_target : Z;
  filler_count : Z;
  tokenize_estimate : Z;
  p_prompt_tokens : Z;
  cached_tokens : json;
  cache_queries_delta : option Q;
  cache_hits_delta : option Q;
  p_ttft_s : option Q;
  p_wall_s : Q;
  p_prefill_tok_s : option Q;
  p_finish_reason : json;
  p_nan : bool;
  p_text_head : string }.

Definition prefill_run (target : Z) (w : world) : res prefill :=
  c ← calibrate target (salt w);
  let '(filler, estimate, _) := c in
  raw ← _stream (answer w) (started w) (ended w);
  usage ← usage_of raw;
  prompt_tokens ← count_of "prompt_tokens" usage;
  let cached := match get "prompt_tokens_details" usage with JDict d => get "cached_tokens" d | _ => JNull end in
  let d := prefix_cache_delta (prefix_cache_snapshot (page_before w)) (prefix_cache_snapshot (page_after w)) in
  let ttft := ttft_of raw in
  let rate :=
    match ttft with
    | Some t => if Qltb 0 t && negb (prompt_tokens =? 0)%Z then Some (inject_Z prompt_tokens / t)%Q else None
    | None => None
    end in
  Ok (Prefill (rr_http raw) (rr_error raw) target filler estimate prompt_tokens cached (queries_delta d) (hits_delta d)
        ttft (ended_s raw - started_s raw)%Q rate (rr_finish raw) (contains_nan (rr_text raw)) (take_str 120 (rr_text raw))).

(** Whether the run was cold, by the field or else by the counters. *)
Definition cache_verdict (run : prefill) : option why :=
  match cached_tokens run with
  | JNull =>
      match cache_queries_delta run, cache_hits_delta run with
      | Some queries, Some hits =>
          if Qltb queries (inject_Z (p_prompt_tokens run)) then Some (NotAttributable queries)
          else if negb (Qeq_bool hits 0) then Some (WarmCounter hits) else None
      | _, _ => Some NoTelemetry
      end
  | cached => if num_eq cached 0 then None else Some (WarmField cached)
  end.

Definition prefill_run_invalid (run : prefill) : option why :=
  match p_error run with
  | Some e => Some (Errored e)
  | None =>
      if bool_decide (p_http run <> Some 200%Z) then Some (HttpStatus (p_http run))
      else match p_ttft_s run with
      | None => Some NoFirstToken
      | Some _ =>
          if (p_prompt_tokens run =? 0)%Z then Some NoPromptTokens
          else match p_prefill_tok_s run with
          | None => Some NoPrefillRate
          | Some _ =>
              if Qltb PREFILL_TARGET_TOLERANCE (Qabs (inject_Z (p_prompt_tokens run - p_target run)) / inject_Z (p_target run))
              then Some (OffTarget (p_prompt_tokens run))
              else match cache_verdict run with
              | Some reason => Some reason
              | None => if p_nan run then Some NaNMarkerSeen else None
              end
          end
      end
  end.

Definition cache_hit_observed (run : prefill) : bool :=
  match cached_tokens run with
  | JNull => match cache_hits_delta run with Some hits => negb (Qeq_bool hits 0) | None => false end
  | cached => negb (num_eq cached 0)
  end.

(** ** The block *)

Inductive run := DecodeRun (r : decode) | PrefillRun (r : prefill).

Definition run_rate (r : run) : option Q := match r with DecodeRun r => d_tok_s r | PrefillRun r => p_prefill_tok_s r end.
Definition run_nan (r : run) : bool := match r with DecodeRun r => d_nan r | PrefillRun r => p_nan r end.
Definition run_cache_hit (r : run) : bool := match r with DecodeRun _ => false | PrefillRun r => cache_hit_observed r end.
Definition run_ttft (r : run) : option Q := match r with DecodeRun r => d_ttft_s r | PrefillRun r => p_ttft_s r end.
Definition run_spec (r : run) : option spec := match r with DecodeRun r => Some (d_spec r) | PrefillRun _ => None end.

Definition is_decode (kind : string) : bool := existsb (String.eqb kind) DECODE_KINDS.

(** The fields that a block of the other kind does not have are [None]. *)
Record summary := Summary {
  s_kind : string;
  s_runs : list (Z * run);
  s_invalid : list (Z * run * why);
  s_valid_runs : Z;
  rate_median : option Q;
  rate_min : option Q;
  rate_max : option Q;
  ttft_median_s : option Q;
  accepted_per_step_median : option Q;
  accept_ratio_median : option Q;
  s_any_nan : option bool;
  s_any_cache_hit : option bool }.

(** [statistics.median(values) if values else None]. *)
Definition median_or_none (l : list Q) : option Q := match median l with Ok m => Some m | Raise _ => None end.

Definition summarize (kind : string) (runs : list (Z * run)) (invalid : list (Z * run * why)) : summary :=
  let all := map snd runs in
  let values := omap run_rate all in
  let s := sorted values in
  let specs := omap run_spec all in
  let decode := is_decode kind in
  let when (b : bool) (q : option Q) := if b then q else None in
  Summary kind runs invalid (Z.of_nat (length values)) (median_or_none values) (hd_error s) (hd_error (rev s))
    (when decode (median_or_none (omap run_ttft all)))
    (when decode (median_or_none (omap accepted_per_step specs)))
    (when decode (median_or_none (omap accept_ratio specs)))
    (if decode then Some (existsb run_nan all) else None)
    (if decode then None else Some (existsb run_cache_hit (all ++ map (fun p => p.1.2) invalid))).

(** The receipts written, in order, and how [main] ends. *)
Inductive outcome := Exit (code : Z) | Crashed (e : exn).

Section main.
Context (kind : string) (max_tokens : Z).

Definition observe (w : world) : res run :=
  if is_decode kind then DecodeRun <$> decode_run w
  else match dict_find kind PREFILL_KINDS with Some target => PrefillRun <$> prefill_run target w | None => Raise KeyError end.

Definition run_invalid (r : run) : option why :=
  match r with DecodeRun r => decode_run_invalid r max_tokens | PrefillRun r => prefill_run_invalid r end.

Fixpoint observe_all (i : Z) (runs : list (Z * run)) (invalid : list (Z * run * why)) (ws : list world)
  : list summary * res (list (Z * run) * list (Z * run * why)) :=
  match ws with
  | [] => ([], Ok (runs, invalid))
  | w :: ws =>
      match observe w with
      | Raise e => ([], Raise e)
      | Ok r =>
          let '(runs, invalid) :=
            match run_invalid r with
            | Some reason => (runs, invalid ++ [(i, r, reason)])
            | None => (runs ++ [(i, r)], invalid)
            end in
          let '(written, rest) := observe_all (i + 1) runs invalid ws in
          (summarize kind runs invalid :: written, rest)
      end
  end.

(** [worlds i] is the [i]th run's, [served] the answer to the question which model is served. *)
Definition probe_main (n : nat) (health : Z) (served : res string) (worlds : nat -> world) : list summary * outcome :=
  if (n <? 1)%nat then ([], Exit 2)
  else if negb (health =? 200)%Z then ([], Exit 2)
  else
    match served with
    | Raise e => ([], Crashed e)
    | Ok _ =>
        match observe_all 1 [] [] (map worlds (seq 0 n)) with
        | (written, Raise e) => (written, Crashed e)
        | (written, Ok (runs, invalid)) =>
            let s := summarize kind runs invalid in
            (written ++ [s], Exit (if (s_valid_runs s =? Z.of_nat n)%Z then 0 else 1))
        end
    end.

End main.
End probe.

(** ** What the judge reads of a receipt *)

Section receipt.
Context (reason_text : why -> string).

Definition judged_run (r : run) : probe_run :=
  match r with
  | DecodeRun r => ProbeRun (NFin <$> d_tok_s r) None
  | PrefillRun r => ProbeRun None (NFin <$> p_prefill_tok_s r)
  end.

Definition judged (s : summary) : AuditV149.probe :=
  AuditV149.Probe (VStr (s_kind s)) (default false (s_any_nan s)) (default false (s_any_cache_hit s))
    (map (fun p => InvalidRun (run_nan p.1.2) (reason_text p.2)) (s_invalid s))
    (VInt (s_valid_runs s)) (map (fun p => judged_run p.2) (s_runs s)).

End receipt.

(** ** The counters between two pages *)

Definition grown (later : counters) (p : string * Q) : Q := (default 0 (dict_find p.1 later) - p.2)%Q.

(** A series with the same lifetime on both pages that has not gone back. *)
Definition steady (earlier later : counters) (p : string * Q) : Prop :=
  exists life life' value',
    dict_find ("created:" ++ p.1)%string earlier = Some life /\ dict_find ("created:" ++ p.1)%string later = Some life' /\
    (life == life')%Q /\ dict_find p.1 later = Some value' /\ (p.2 <= value')%Q.

Definition of_kind (k : string) (l : counters) : counters := base.filter (fun p => series_kind p.1 = k) l.
Definition growth (k : string) (later l : counters) : Q := Qsum (map (grown later) (of_kind k l)).

(** Two pages that describe the same counters. *)
Definition comparable (earlier later : counters) : Prop :=
  series earlier <> [] /\
  (forall key, key ∈ map fst (series earlier) <-> key ∈ map fst (series later)) /\
  Forall (steady earlier later) (series earlier).

Lemma accumulate_iff earlier later l : forall d d', accumulate earlier later d l = Some d' <->
  Forall (steady earlier later) l /\ d' = fold_left (fun d p => count_delta p.1 (grown later p) d) l d.
Proof.
  induction l as [|[key v] l IH]; intros d d'; simpl.
  { split; [intros [= ->]; by split; [constructor |] | by intros [_ ->]]. }
  rewrite Forall_cons. unfold steady at 1, grown at 2. simpl.
  destruct (dict_find ("created:" ++ key)%string earlier) as [life|]; [| split; [done | by intros [[(? & ? & ? & ? & _) _] _]]].
  destruct (dict_find ("created:" ++ key)%string later) as [life'|]; [| split; [done | by intros [[(? & ? & ? & _ & ? & _) _] _]]].
  destruct (dict_find key later) as [v'|]; [| split; [done | by intros [[(? & ? & ? & _ & _ & _ & ? & _) _] _]]]. simpl.
  destruct (Qeq_bool life life') eqn:El; simpl.
  2:{ split; [done |]. intros [[(? & ? & ? & [= <-] & [= <-] & E%Qeq_bool_iff & _) _] _]. congruence. }
  destruct (Qltb v' v) eqn:Ev.
  { split; [done |]. intros [[(? & ? & ? & _ & _ & _ & [= <-] & E%Qltb_ge) _] _]. congruence. }
  rewrite IH. split; intros [H1 H2]; [| by destruct H1].
  split; [| done]. split; [| done]. exists life, life', v'. apply Qeq_bool_iff in El. apply Qltb_ge in Ev. done.
Qed.

Lemma of_kind_cons k p l : of_kind k (p :: l) = if bool_decide (series_kind p.1 = k) then p :: of_kind k l else of_kind k l.
Proof. unfold of_kind. cbn. by case_decide; case_bool_decide. Qed.

Lemma fold_sums later l : forall d, let d' := fold_left (fun d p => count_delta p.1 (grown later p) d) l d in
  (default 0 (queries_delta d') == default 0 (queries_delta d) + growth "queries" later l)%Q /\
  (default 0 (hits_delta d') == default 0 (hits_delta d) + growth "hits" later l)%Q /\
  (is_Some (queries_delta d') <-> is_Some (queries_delta d) \/ of_kind "queries" l <> []) /\
  (is_Some (hits_delta d') <-> is_Some (hits_delta d) \/ of_kind "hits" l <> []).
Proof.
  induction l as [|p l IH]; intros d; simpl.
  { unfold growth, of_kind. simpl. repeat split; try lra; naive_solver. }
  destruct (IH (count_delta p.1 (grown later p) d)) as (Hq & Hh & Sq & Sh). clear IH.
  unfold growth in *. rewrite !of_kind_cons, Hq, Hh, Sq, Sh. unfold count_delta.
  repeat case_bool_decide; destruct (String.eqb_spec (series_kind p.1) "queries"), (String.eqb_spec (series_kind p.1) "hits");
    simpl; try congruence; unfold bump; simpl; repeat split; try lra; naive_solver.
Qed.

Lemma growth_nonneg k earlier later l : Forall (steady earlier later) l -> (0 <= growth k later l)%Q.
Proof.
  unfold growth. induction 1 as [|p l (? & ? & v' & _ & _ & _ & E & Hv) _ IH]; [done |].
  rewrite of_kind_cons. case_bool_decide; [| done]. simpl. unfold grown at 1. rewrite E. simpl. lra.
Qed.

(** Nothing that only grows adds up to nothing unless it stands still. *)
Lemma growth_zero k earlier later l : Forall (steady earlier later) l ->
  (growth k later l == 0)%Q <-> forall key v, (key, v) ∈ l -> series_kind key = k -> exists v', dict_find key later = Some v' /\ (v' == v)%Q.
Proof.
  induction 1 as [|p l Hp Hl IH]; [split; [intros _ ? ? H; by apply not_elem_of_nil in H | done] |].
  pose proof (growth_nonneg k _ _ _ Hl) as Hn. destruct p as [key v]. destruct Hp as (? & ? & v' & _ & _ & _ & E & Hv). simpl in E, Hv.
  unfold growth in *. rewrite of_kind_cons. simpl. case_bool_decide as Ek; simpl.
  - unfold grown at 1. cbn [fst snd]. rewrite E. cbn [default option_rect from_option id]. split.
    + intros H0 key2 v2 [[= -> ->]|Hin]%elem_of_cons Hk2; [exists v'; split; [done | lra] |].
      apply IH; [lra | done | done].
    + intros H. destruct (H key v ltac:(by left) Ek) as (v2 & E2 & Hv2).
      assert (v2 = v') as -> by congruence.
      rewrite (proj2 IH) by (intros; eapply H; [by right | done]). lra.
  - rewrite IH. split; intros H key2 v2; [| intros; eapply H; [by right | done]].
    intros [[= -> ->]|Hin]%elem_of_cons Hk2; [done | by eapply H].
Qed.

Lemma same_series_iff a b : same_keys a b = true <-> forall key, key ∈ map fst a <-> key ∈ map fst b.
Proof.
  unfold same_keys. rewrite andb_true_iff, !forallb_forall. split.
  - intros [H1 H2] key. split; intros Hk; [specialize (H1 key) | specialize (H2 key)]; rewrite bool_decide_eq_true in *;
      [apply H1 | apply H2]; by apply list_elem_of_In.
  - intros H. split; intros key Hk%list_elem_of_In; apply bool_decide_eq_true; by apply H.
Qed.

Lemma delta_iff earlier later q h : prefix_cache_delta earlier later = Deltas (Some q) (Some h) ->
  comparable earlier later /\ of_kind "queries" (series earlier) <> [] /\ of_kind "hits" (series earlier) <> [] /\
  (q == growth "queries" later (series earlier))%Q /\ (h == growth "hits" later (series earlier))%Q.
Proof.
  unfold prefix_cache_delta, comparable. destruct (series earlier) as [|p0 s0] eqn:Es; [done |]. set (s := p0 :: s0) in *.
  destruct (same_keys s (series later)) eqn:Ek; [| done]. pose proof (proj1 (same_series_iff _ _) Ek) as Hkeys.
  destruct (accumulate _ _ _ _) as [d|] eqn:Ea; [| done]. apply accumulate_iff in Ea as [Hs Hd].
  destruct (fold_sums later s (Deltas None None)) as (Hq & Hh & Sq & Sh). rewrite <- Hd in Hq, Hh, Sq, Sh. simpl in *.
  intros [= Eq Eh]. destruct (queries_delta d) as [q'|], (hits_delta d) as [h'|]; try done. simpl in *.
  assert (q' = q) as -> by (destruct (Qle_bool 0 q'); congruence). assert (h' = h) as -> by (destruct (Qle_bool 0 h'); congruence).
  split; [done |]. split; [by destruct (proj1 Sq ltac:(eauto)) as [[]|] |]. split; [by destruct (proj1 Sh ltac:(eauto)) as [[]|] |].
  split; lra.
Qed.

Lemma delta_comparable earlier later : comparable earlier later ->
  of_kind "queries" (series earlier) <> [] -> of_kind "hits" (series earlier) <> [] ->
  exists q h, prefix_cache_delta earlier later = Deltas (Some q) (Some h).
Proof.
  unfold prefix_cache_delta, comparable. intros (Hne & Hkeys & Hs) Hq Hh. pose proof (proj2 (same_series_iff _ _) Hkeys) as Hk.
  pose proof (growth_nonneg "queries" _ _ _ Hs) as Nq. pose proof (growth_nonneg "hits" _ _ _ Hs) as Nh.
  destruct (series earlier) as [|p0 s0]; [done |]. set (s := p0 :: s0) in *. rewrite Hk.
  rewrite (proj2 (accumulate_iff _ _ _ _ _) (conj Hs eq_refl)).
  destruct (fold_sums later s (Deltas None None)) as (Gq & Gh & Sq & Sh). set (d := fold_left _ s _) in *. clearbody d.
  destruct (proj2 Sq (or_intror Hq)) as [q Eq]. destruct (proj2 Sh (or_intror Hh)) as [h Eh]. exists q, h.
  rewrite Eq, Eh in *. simpl in *.
  rewrite (proj2 (Qle_bool_iff 0 q)), (proj2 (Qle_bool_iff 0 h)) by lra. done.
Qed.

(** *** What a page must say to be read *)

Definition readable (lines : list string) : Prop :=
  forall line key raw, line ∈ lines -> cache_sample line = Some (key, raw) -> exists v, parse_float raw = Some v /\ (0 <= v)%Q.

Lemma cache_samples_readable lines : forall out, cache_samples out lines <> [] -> readable lines.
Proof.
  induction lines as [|line lines IH]; intros out H l key raw Hin E; [by apply not_elem_of_nil in Hin |].
  simpl in H. apply elem_of_cons in Hin as [->|Hin].
  - rewrite E in H. destruct (parse_float raw) as [v|]; [| done]. exists v. split; [done |].
    destruct (Qltb v 0) eqn:Ev; [done | by apply Qltb_ge].
  - destruct (cache_sample line) as [[k' raw']|]; [| by eapply IH].
    destruct (parse_float raw') as [v|]; [| done]. destruct (Qltb v 0); [done | by eapply IH].
Qed.

Lemma series_none d : series d <> [] -> d <> [].
Proof. by intros H ->. Qed.

Lemma snapshot_page page : series (prefix_cache_snapshot page) <> [] -> exists body, page = Some body /\ readable (splitlines body).
Proof.
  intros H%series_none. destruct page as [body|]; [| done]. exists body. split; [done |]. by eapply cache_samples_readable.
Qed.

(** ** An accepted prefill run *)

(** The engine's own evidence that a run of [prompt_tokens] tokens hit nothing: two
    readable pages of the same counter lifetimes, on which every hits counter stood
    still and the queries counters grew by at least the prompt. *)
Definition counters_cold (w : world) (prompt_tokens : Z) : Prop :=
  exists body body', page_before w = Some body /\ page_after w = Some body' /\
    readable (splitlines body) /\ readable (splitlines body') /\
    let earlier := prefix_cache_snapshot (page_before w) in
    let later := prefix_cache_snapshot (page_after w) in
    comparable earlier later /\
    of_kind "queries" (series earlier) <> [] /\ of_kind "hits" (series earlier) <> [] /\
    (forall key v, (key, v) ∈ series earlier -> series_kind key = "hits" -> exists v', dict_find key later = Some v' /\ (v' == v)%Q) /\
    (inject_Z prompt_tokens <= growth "queries" later (series earlier))%Q.

Lemma counters_cold_iff w prompt_tokens :
  let d := prefix_cache_delta (prefix_cache_snapshot (page_before w)) (prefix_cache_snapshot (page_after w)) in
  counters_cold w prompt_tokens <->
  exists q h, d = Deltas (Some q) (Some h) /\ (inject_Z prompt_tokens <= q)%Q /\ (h == 0)%Q.
Proof.
  intros d. unfold counters_cold, d. split.
  - intros (_ & _ & _ & _ & _ & _ & Hc & Hq & Hh & Hz & Hp). destruct (delta_comparable _ _ Hc Hq Hh) as (q & h & E).
    exists q, h. split; [done |]. apply delta_iff in E as (_ & _ & _ & Eq & Eh). rewrite Eq, Eh. split; [done |].
    by eapply growth_zero; [apply Hc |].
  - intros (q & h & E & Hp & H0). apply delta_iff in E as (Hc & Hq & Hh & Eq & Eh).
    destruct (snapshot_page _ (proj1 Hc)) as (body & Hb & Rb).
    destruct (snapshot_page (page_after w)) as (body' & Hb' & Rb').
    { intros E. destruct Hc as (Hne & Hk & _). destruct (series _) as [|p s]; [done |]. specialize (Hk p.1). rewrite E in Hk.
      apply proj1 in Hk. by eapply not_elem_of_nil, Hk; left. }
    exists body, body'. rewrite <- Hb, <- Hb'. split; [done |]. split; [done |]. split; [done |]. split; [done |]. cbv zeta.
    split; [done |]. split; [done |]. split; [done |]. split; [| lra].
    intros key v. eapply growth_zero; [apply Hc | lra].
Qed.

(** The rate of a run is the prompt over the time to the first token. *)
Lemma prefill_fields chr tokenize target w r : prefill_run chr tokenize target w = Ok r ->
  let d := prefix_cache_delta (prefix_cache_snapshot (page_before w)) (prefix_cache_snapshot (page_after w)) in
  p_target r = target /\ cache_queries_delta r = queries_delta d /\ cache_hits_delta r = hits_delta d /\
  p_prefill_tok_s r =
    match p_ttft_s r with
    | Some t => if Qltb 0 t && negb (p_prompt_tokens r =? 0)%Z then Some (inject_Z (p_prompt_tokens r) / t)%Q else None
    | None => None
    end.
Proof.
  unfold prefill_run. intros ([[filler estimate] text] & _ & H)%bind_Ok. apply bind_Ok in H as (raw & _ & H).
  apply bind_Ok in H as (usage & _ & H). apply bind_Ok in H as (tokens & _ & H). by injection H as <-.
Qed.

Lemma cache_verdict_none r : cache_verdict r = None <->
  (cached_tokens r <> JNull /\ num_eq (cached_tokens r) 0 = true) \/
  (cached_tokens r = JNull /\ exists q h, cache_queries_delta r = Some q /\ cache_hits_delta r = Some h /\
    (inject_Z (p_prompt_tokens r) <= q)%Q /\ (h == 0)%Q).
Proof.
  unfold cache_verdict. destruct (cached_tokens r) as [|b|z|q| |s|l|d] eqn:E.
  1:{ destruct (cache_queries_delta r) as [q|]; [| naive_solver]. destruct (cache_hits_delta r) as [h|]; [| naive_solver].
      destruct (Qltb q _) eqn:E1.
      - apply Qltb_lt in E1. split; [done |]. intros [[? _]|(_ & ? & ? & [= <-] & [= <-] & ? & _)]; [done | lra].
      - apply Qltb_ge in E1. destruct (Qeq_bool h 0) eqn:E2; simpl.
        + split; [| done]. intros _. right. split; [done |]. exists q, h. apply Qeq_bool_iff in E2. done.
        + split; [done |]. intros [[? _]|(_ & ? & ? & _ & [= <-] & _ & H%Qeq_bool_iff)]; [done | congruence]. }
  all: match goal with |- (if ?b then _ else _) = _ <-> _ => destruct b eqn:E1 end; naive_solver.
Qed.

Lemma share_iff a t (n d : positive) : (0 < t)%Z ->
  Qltb (Z.pos n # d) (Qabs (inject_Z a) / inject_Z t) = false <-> (Z.pos d * Z.abs a <= Z.pos n * t)%Z.
Proof.
  intros Ht. rewrite Qltb_ge. assert (0 < inject_Z t)%Q as Hq by (unfold Qlt; simpl; lia).
  assert (Qabs (inject_Z a) / inject_Z t <= (Z.pos n # d) <-> Qabs (inject_Z a) <= (Z.pos n # d) * inject_Z t)%Q as ->.
  { split; intros H; [| by apply Qle_shift_div_r].
    apply Qle_trans with (Qabs (inject_Z a) / inject_Z t * inject_Z t)%Q; [apply Qle_lteq; right; field; lra |].
    apply Qmult_le_compat_r; [done | lra]. }
  change (Qabs (inject_Z a)) with (inject_Z (Z.abs a)). unfold Qle. simpl. lia.
Qed.

Lemma prefill_invalid_none r : (0 < p_target r)%Z -> prefill_run_invalid r = None <->
  p_error r = None /\ p_http r = Some 200%Z /\ is_Some (p_ttft_s r) /\ is_Some (p_prefill_tok_s r) /\
  (20 * Z.abs (p_prompt_tokens r - p_target r) <= p_target r)%Z /\ p_nan r = false /\ cache_verdict r = None.
Proof.
  intros Ht. unfold prefill_run_invalid. destruct (p_error r); [split; [done | by intros [? _]] |].
  case_bool_decide as Hh; [split; [done | by intros (_ & ? & _)] |].
  destruct (p_ttft_s r); [| split; [done | by intros (_ & _ & [? ?] & _)]].
  destruct (p_prefill_tok_s r).
  2:{ case_if; split; try done; by intros (_ & _ & _ & [? ?] & _). }
  pose proof (share_iff (p_prompt_tokens r - p_target r) _ 5 100 Ht) as Hq. destruct (Z.eqb_spec (p_prompt_tokens r) 0) as [E0|_].
  { split; [done |]. intros (_ & _ & _ & _ & H & _). lia. }
  unfold PREFILL_TARGET_TOLERANCE. destruct (Qltb _ _).
  { split; [done |]. intros (_ & _ & _ & _ & H & _). enough (true = false) by done. apply Hq. lia. }
  apply proj1 in Hq. specialize (Hq eq_refl).
  assert (20 * Z.abs (p_prompt_tokens r - p_target r) <= p_target r)%Z by lia.
  destruct (cache_verdict r); [split; [done | by intros (_ & _ & _ & _ & _ & _ & ?)] |].
  destruct (p_nan r); [split; [done | by intros (_ & _ & _ & _ & _ & ? & _)] |]. by repeat split.
Qed.

(** C39. A cold-prefill run is accepted exactly when the request succeeded with a
    first token after a positive time, its prompt is within five percent of the
    target, its text has no marker, and it is proved cold: by the field of the
    answer when there is one, else by the engine's counters, on which both pages must be
    readable, every series keep its lifetime and not go back, every hits
    series stand still and the queries grow by at least the prompt. *)
Theorem accepted_prefill_cold chr tokenize target w r (Htarget : (0 < target)%Z)
  (Hrun : prefill_run chr tokenize target w = Ok r) :
  prefill_run_invalid r = None <->
  p_error r = None /\ p_http r = Some 200%Z /\ (exists t, p_ttft_s r = Some t /\ (0 < t)%Q) /\
  (20 * Z.abs (p_prompt_tokens r - target) <= target)%Z /\ p_nan r = false /\
  ((cached_tokens r <> JNull /\ num_eq (cached_tokens r) 0 = true) \/
   (cached_tokens r = JNull /\ counters_cold w (p_prompt_tokens r))).
Proof.
  apply prefill_fields in Hrun as (<- & Eq & Eh & Er). rewrite prefill_invalid_none, cache_verdict_none, counters_cold_iff by done.
  rewrite Eq, Eh. set (d := prefix_cache_delta _ _) in *. clearbody d.
  assert (Hd : forall P : Q -> Q -> Prop, (exists q h, queries_delta d = Some q /\ hits_delta d = Some h /\ P q h) <->
    exists q h, d = Deltas (Some q) (Some h) /\ P q h).
  { intros P. destruct d as [q h]. simpl. split; intros (q' & h' & H); exists q', h'; naive_solver congruence. }
  rewrite Hd. clear Hd Eq Eh. split.
  - intros (He & Hh & [t Ht] & [v Hv] & Hp & Hn & Hc). repeat (split; [done |]). split; [| done].
    exists t. split; [done |]. rewrite Hv, Ht in Er. destruct (Qltb 0 t) eqn:E; [by apply Qltb_lt | done].
  - intros (He & Hh & (t & Ht & H0) & Hp & Hn & Hc). repeat (split; [done || by rewrite Ht |]). split; [| done].
    rewrite Er, Ht. apply Qltb_lt in H0. rewrite H0. destruct (Z.eqb_spec (p_prompt_tokens r) 0); [lia | done].
Qed.

(** *** Calibration *)

Lemma far_iff got target : (0 < target)%Z -> far got target = false <-> (200 * Z.abs (got - target) <= target)%Z.
Proof. intros Ht. unfold far. rewrite share_iff by done. lia. Qed.

Lemma round_nearest a b : (0 < b)%Z -> (2 * Z.abs (b * round_half_even (inject_Z a / inject_Z b) - a) <= b)%Z.
Proof.
  intros Hb. pose proof (round_half_even_close (inject_Z a / inject_Z b)) as H. set (k := round_half_even _) in *. clearbody k.
  assert (0 < inject_Z b)%Q as Hq by (unfold Qlt; simpl; lia).
  assert (inject_Z b * (inject_Z a / inject_Z b) == inject_Z a)%Q as E by (field; lra).
  apply Qabs_Qle_condition in H as [H1 H2].
  assert (- inject_Z b <= 2 * (inject_Z b * inject_Z k - inject_Z a) <= inject_Z b)%Q as [H3 H4] by (rewrite <- E; split; nra).
  clear -H3 H4. unfold Qle in *. simpl in *. lia.
Qed.

(** A tokenizer that counts a fixed number for each filler and for the rest: the prompt is
    within half a percent, and what is returned is what was counted last. *)
Lemma calibrate_affine tokenize target salt overhead per :
  (forall n, (0 <= n)%Z -> tokenize (build_user_text n salt) = Ok (overhead + per * n)%Z) ->
  (0 <= overhead < target)%Z -> (1 <= per)%Z -> (200 * per <= target)%Z ->
  exists n got, calibrate tokenize target salt = Ok (n, got, build_user_text n salt) /\
    tokenize (build_user_text n salt) = Ok got /\ (200 * Z.abs (got - target) <= target)%Z.
Proof.
  intros Htok Ho Hp Ht. unfold calibrate. rewrite Htok by lia. cbn [mbind res_bind].
  set (n0 := Z.max (target - (overhead + per * 0)) 1). assert (n0 = target - overhead)%Z as En0 by lia. clearbody n0.
  rewrite Htok by lia. cbn [mbind res_bind]. set (got0 := (overhead + per * n0)%Z).
  destruct (far got0 target) eqn:Ef.
  - assert (0 <? got0 = true)%Z as -> by (apply Z.ltb_lt; lia). simpl.
    assert (inject_Z (got0 - (overhead + per * 0)) / inject_Z n0 == inject_Z per)%Q as Eper.
    { replace (got0 - (overhead + per * 0))%Z with (per * n0)%Z by lia. rewrite inject_Z_mult. field. apply inject_Z_neq. lia. }
    assert (Qltb 0 (inject_Z (got0 - (overhead + per * 0)) / inject_Z n0) = true) as ->.
    { apply Qltb_lt. rewrite Eper. unfold Qlt. simpl. lia. }
    set (n1 := Z.max _ 1). assert (H1 : (200 * Z.abs (overhead + per * n1 - target) <= target)%Z).
    { pose proof (round_nearest (target - overhead) per ltac:(lia)) as Hr.
      assert (round_half_even (inject_Z (target - (overhead + per * 0)) / (inject_Z (got0 - (overhead + per * 0)) / inject_Z n0)) =
        round_half_even (inject_Z (target - overhead) / inject_Z per)) as Er.
      { apply round_half_even_proper. rewrite Eper. by replace (target - (overhead + per * 0))%Z with (target - overhead)%Z by lia. }
      unfold n1. rewrite Er. clear - Hr Ho Hp Ht. set (k := round_half_even _) in *. clearbody k.
      destruct (Z.max_spec k 1) as [[Hk ->]|[Hk ->]]; [assert (per * k <= 0)%Z by nia |]; lia. }
    assert (0 <= n1)%Z by lia. clearbody n1. rewrite Htok by done. simpl. rewrite (proj2 (far_iff _ target ltac:(lia)) H1).
    exists n1, (overhead + per * n1)%Z. by rewrite Htok.
  - rewrite andb_false_r. cbn [mbind res_bind]. rewrite Ef. exists n0, got0. split; [done |]. split; [by rewrite Htok by lia |].
    by apply far_iff; [lia |].
Qed.

(** *** The rate of a decode run *)

Definition timed (s : stream) : Prop :=
  match chunks s with
  | [] => first s = None /\ last s = None
  | [_] => is_Some (first s) /\ first s = last s
  | _ => is_Some (first s) /\ is_Some (last s)
  end.

Lemma take_content_timed s v now : timed s -> timed (take_content s v now).
Proof.
  unfold take_content, timed. destruct (falsy v); [done |]. destruct s as [f l c u fin]; simpl.
  destruct c as [|c1 [|c2 c]]; simpl; [intros [-> _]; by split; [eexists |] | |]; intros _; by split; eexists.
Qed.

Lemma stream_event_timed s obj now s' e : timed s -> stream_event s obj now = (s', e) -> timed s'.
Proof.
  intros Hs. unfold stream_event. destruct obj; try by intros [= <- _].
  assert (Hu : timed (take_usage s (get "usage" d))) by (unfold take_usage; by destruct (falsy _)).
  destruct (falsy (get "choices" d)); [by intros [= <- _] |]. destruct (first_choice _) as [choice|]; [| by intros [= <- _]].
  destruct (or_dict _) as [delta|]; [| by intros [= <- _]]. intros [= <- _]. unfold take_finish.
  pose proof (take_content_timed _ (py_ors [get "content" delta; get "reasoning" delta; get "reasoning_content" delta] (JStr "")) now Hu) as H.
  by destruct (falsy (get "finish_reason" choice)).
Qed.

Lemma stream_lines_timed chr lines : forall s s' e, timed s -> stream_lines chr s lines = (s', e) -> timed s'.
Proof.
  induction lines as [|[l now] lines IH]; intros s s' e Hs E; simpl in E; [by injection E as <- _ |].
  assert (Hl : forall s1 e1, stream_line chr s l now = (s1, e1) -> timed s1).
  { unfold stream_line. intros s1 e1. case_if; [by intros [= <- _] |]. case_if; [by intros [= <- _] |].
    destruct (json_loads _ _); [by apply stream_event_timed | by intros [= <- _]]. }
  destruct (stream_line chr s l now) as [s1 [e1|]] eqn:E1; [injection E as <- _; by eapply Hl |]. eapply IH, E. by eapply Hl.
Qed.

(** An accepted decode run measured an interval between two pieces of text: no rate comes
    of one piece, or of pieces that came at one reading of the clock. *)
Lemma accepted_decode_rate chr w r max_tokens : decode_run chr w = Ok r -> decode_run_invalid r max_tokens = None ->
  exists status lines broken s e f l,
    answer w = Opened status lines broken /\ stream_lines chr stream0 lines = (s, e) /\
    (2 <= length (chunks s))%nat /\ first s = Some f /\ last s = Some l /\ (f < l)%Q /\
    (1 < d_completion_tokens r)%Z /\ (max_tokens <= d_completion_tokens r)%Z /\
    d_tok_s r = Some (inject_Z (d_completion_tokens r - 1) / (l - f))%Q.
Proof.
  unfold decode_run. intros (before & _ & H)%bind_Ok. apply bind_Ok in H as (raw & Hraw & H).
  apply bind_Ok in H as (after & _ & H). apply bind_Ok in H as (usage & _ & H). apply bind_Ok in H as (completion & _ & H).
  apply bind_Ok in H as (prompt & _ & H). injection H as <-. unfold decode_run_invalid.
  cbn [d_error d_http d_ttft_s d_tok_s d_nan d_completion_tokens].
  destruct (rr_error raw); [done |]. case_bool_decide as Hh; [done |]. destruct (ttft_of raw); [| done].
  unfold _stream in Hraw. destruct (answer w) as [e|status lines broken].
  { apply bind_Ok in Hraw as (? & _ & [= <-]). done. }
  destruct (stream_lines chr stream0 lines) as [s e] eqn:Es. apply bind_Ok in Hraw as (text & _ & [= <-]).
  cbn [first_s last_s]. assert (Ht : timed s) by (eapply stream_lines_timed, Es; by split).
  destruct (first s) as [f|] eqn:Ef; [| done]. destruct (last s) as [l|] eqn:El; [| done].
  destruct (Qltb 0 (l - f)) eqn:Epos; [| done]. destruct (Z.ltb_spec 1 completion); [| done]. cbn [andb].
  destruct (contains_nan _); [done |]. destruct (Z.ltb_spec completion max_tokens); [done |]. intros _. apply Qltb_lt in Epos.
  exists status, lines, broken, s, e, f, l. split; [done |]. split; [done |]. split.
  - unfold timed in Ht. rewrite Ef, El in Ht. destruct (chunks s) as [|c [|c2 cs]]; [by destruct Ht | | simpl; lia].
    destruct Ht as [_ [= ->]]. lra.
  - repeat (split; [done || lra |]). done.
Qed.

(** ** The block *)

Lemma no_hit r : cache_verdict r = None -> cache_hit_observed r = false.
Proof.
  unfold cache_hit_observed. intros [[Hc Hz]|(-> & q & h & _ & -> & _ & ->%Qeq_bool_iff)]%cache_verdict_none; [| done].
  destruct (cached_tokens r); first [done | by rewrite Hz].
Qed.

Section block.
Context (chr : Z -> string) (tokenize : string -> res Z) (kind : string) (max_tokens : Z).
Context (Hkind : In kind KINDS).

Definition accepted_run (r : run) : Prop :=
  (exists w, observe chr tokenize kind w = Ok r) /\ run_invalid max_tokens r = None.
Definition good_world (w : world) : Prop :=
  exists r, observe chr tokenize kind w = Ok r /\ run_invalid max_tokens r = None.

(** What the judge looks at in an accepted run. *)
Lemma accepted_facts r : accepted_run r ->
  (exists q, run_rate r = Some q /\ judged_run r = if is_decode kind then ProbeRun (Some (NFin q)) None else ProbeRun None (Some (NFin q))) /\
  run_nan r = false /\ run_cache_hit r = false.
Proof.
  intros [[w Hw] Hv]. unfold observe in Hw. destruct (is_decode kind) eqn:Ek.
  - destruct (decode_run chr w) as [d|]; [| done]. injection Hw as <-. simpl in Hv. unfold decode_run_invalid in Hv.
    destruct (d_error d); [done |]. case_bool_decide; [done |]. destruct (d_ttft_s d) as [t|]; [| done]. simpl.
    destruct (d_tok_s d) as [q|]; [| done]. destruct (d_nan d); [done |]. split; [| done]. by exists q.
  - destruct (dict_find kind PREFILL_KINDS) as [target|] eqn:Et; [| done].
    destruct (prefill_run chr tokenize target w) as [p|] eqn:Ep; [| done]. injection Hw as <-. simpl in Hv.
    assert (0 < p_target p)%Z as Ht.
    { apply prefill_fields in Ep as (-> & _). clear -Hkind Ek Et.
      unfold KINDS, DECODE_KINDS in Hkind. simpl in Hkind. destruct Hkind as [<-|[<-|[<-|[<-|[<-|[]]]]]]; try done;
        by injection Et as <-. }
    apply (prefill_invalid_none _ Ht) in Hv as (_ & _ & _ & [q Hq] & _ & Hn & Hc).
    split; [exists q; simpl; by rewrite Hq |]. split; [done | by apply no_hit].
Qed.

Definition tidy (runs : list (Z * run)) : Prop := Forall (fun p => accepted_run p.2) runs.

Lemma tidy_rates runs : tidy runs -> length (omap run_rate (map snd runs)) = length runs.
Proof.
  induction 1 as [|p runs Hp _ IH]; [done |]. apply accepted_facts in Hp as [(q & Hq & _) _]. cbn [map omap list_omap]. rewrite Hq. simpl. by f_equal.
Qed.

Lemma tidy_flags runs : tidy runs -> existsb run_nan (map snd runs) = false /\ existsb run_cache_hit (map snd runs) = false.
Proof.
  induction 1 as [|p runs Hp _ [IH1 IH2]]; [done |]. simpl. apply accepted_facts in Hp as (_ & -> & ->). done.
Qed.

Lemma tidy_values text runs invalid : tidy runs ->
  lane_values (judged text (summarize kind runs invalid)) kind = Ok (omap run_rate (map snd runs)).
Proof.
  intros H. unfold lane_values. cbn [AuditV149.runs judged s_runs summarize].
  change (existsb (String.eqb kind) ["structured"; "essay"; "hashmap"]) with (is_decode kind).
  induction H as [|p runs Hp _ IH]; [done |]. cbn [map]. apply accepted_facts in Hp as [(q & Hq & ->) _].
  cbn [omap list_omap snd]. rewrite Hq. destruct (is_decode kind); cbn [AuditV149.tok_s AuditV149.prefill_tok_s finite_values] in *; by rewrite IH.
Qed.

(** The loop: after [j] runs the [j]th receipt is on disk, and an exception leaves
    the ones before it. *)
Lemma observe_all_spec ws : forall i runs invalid written rest, tidy runs ->
  observe_all chr tokenize kind max_tokens i runs invalid ws = (written, rest) ->
  (forall j s, written !! j = Some s -> exists runs' invalid', s = summarize kind runs' invalid' /\ tidy runs' /\
    length runs' + length invalid' = length runs + length invalid + S j)%nat /\
  match rest with
  | Ok (runs', invalid') =>
      length written = length ws /\ tidy runs' /\
      (length runs' + length invalid' = length runs + length invalid + length ws)%nat /\
      (length invalid <= length invalid')%nat /\
      (length invalid' = length invalid <-> Forall good_world ws)
  | Raise e => exists w, ws !! length written = Some w /\ observe chr tokenize kind w = Raise e
  end.
Proof.
  induction ws as [|w ws IH]; intros i runs invalid written rest Ht E; cbn [observe_all] in E.
  { injection E as <- <-. split; [done |]. repeat split; try done; simpl; lia. }
  destruct (observe chr tokenize kind w) as [r|e] eqn:Ew.
  2:{ injection E as <- <-. split; [done |]. by exists w. }
  set (st := match run_invalid max_tokens r with Some _ => _ | None => _ end) in E.
  assert (Hst : tidy st.1 /\ (length st.1 + length st.2 = S (length runs + length invalid))%nat /\
    ((good_world w /\ length st.2 = length invalid) \/ (~ good_world w /\ length st.2 = S (length invalid)))).
  { unfold st. destruct (run_invalid max_tokens r) as [reason|] eqn:Ei; simpl; rewrite length_app; simpl.
    - split; [done |]. split; [lia |]. right. split; [| lia]. intros (r' & E1 & E2). congruence.
    - split; [| split; [lia |]; left; split; [by exists r | done]]. apply Forall_app. split; [done |]. constructor; [| done].
      split; [by exists w | done]. }
  clearbody st. destruct st as [runs1 invalid1]. simpl in Hst. destruct Hst as (Ht1 & Hl1 & Hg).
  destruct (observe_all _ _ _ _ _ runs1 invalid1 ws) as [written1 rest1] eqn:E1. injection E as <- <-.
  destruct (IH _ _ _ _ _ Ht1 E1) as [Hw Hr]. split.
  - intros [|j] s; simpl.
    + intros [= <-]. exists runs1, invalid1. split; [done |]. split; [done | lia].
    + intros (runs' & invalid' & -> & Ht' & Hl)%Hw. exists runs', invalid'. split; [done |]. split; [done | lia].
  - destruct rest1 as [[runs' invalid']|e]; [| done]. destruct Hr as (Hlw & Ht' & Hl & Hle & Hall). simpl.
    split; [lia |]. split; [done |]. split; [lia |]. rewrite Forall_cons, <- Hall. destruct Hg as [[Hg Hi]|[Hg Hi]]; split; try lia; naive_solver lia.
Qed.

Lemma median_ok l : l <> [] -> exists m, median l = Ok m.
Proof.
  intros H. unfold median. rewrite sorted_length. destruct l as [|v l]; [done |]. simpl length. cbn [Nat.eqb].
  destruct (Nat.odd _); by eexists.
Qed.

(** A receipt the judge takes has as many accepted runs as are required; one of
    accepted runs only is taken. *)
Section judge.
Context (text : why -> string) (fs : files) (r : receipt) (arm path : string) (required : nat).
Context (Hreq : table_find kind REQUIRED_RUNS = Some (Z.of_nat required)) (Hpos : required <> 0%nat).
Context (Hpath : table_find kind (default [] (table_find arm (probes r))) = Some path) (Hne : path <> "").

Definition taken : Prop := exists number, arm_evidence fs r kind arm = Ok ([], number) /\ number <> NoNumber.

Lemma valid_runs_tidy runs invalid : tidy runs -> s_valid_runs (summarize kind runs invalid) = Z.of_nat (length runs).
Proof. intros H. unfold summarize. cbn [s_valid_runs]. by rewrite tidy_rates. Qed.

Lemma judged_valid runs invalid : tidy runs ->
  py_int (py_or (p_valid_runs (judged text (summarize kind runs invalid))) (VInt 0)) = Ok (Z.of_nat (length runs)).
Proof.
  intros H. cbn [judged p_valid_runs]. rewrite (valid_runs_tidy _ _ H). unfold py_or. simpl.
  by destruct (Z.eqb_spec (Z.of_nat (length runs)) 0) as [->|].
Qed.

Lemma taken_enough runs invalid : tidy runs -> fs path = Some (judged text (summarize kind runs invalid)) ->
  taken -> (required <= length runs)%nat.
Proof.
  intros Ht Hfs (number & E & Hn).
  pose proof (judged_valid _ invalid Ht) as Hv. set (p := judged text _) in *. clearbody p.
  unfold arm_evidence in E. rewrite Hpath in E. destruct path as [|c rest]; [done |]. rewrite Hfs in E.
  case_bool_decide; [by injection E as _ <- |]. destruct (any_nan p); [by injection E as _ <- |].
  destruct (any_cache_hit p); [by injection E as _ <- |]. rewrite Hv in E. unfold table_get in E. rewrite Hreq in E. simpl in E.
  destruct (Z.ltb_spec (Z.of_nat (length runs)) (Z.of_nat required)); [by injection E as _ <- | lia].
Qed.

Lemma enough_taken runs : tidy runs -> length runs = required -> fs path = Some (judged text (summarize kind runs [])) -> taken.
Proof.
  intros Ht Hl Hfs. pose proof (judged_valid _ [] Ht) as Hv. pose proof (tidy_values text _ [] Ht) as Hvals.
  pose proof (tidy_rates _ Ht) as Hlen. destruct (tidy_flags _ Ht) as [Hnan Hhit]. unfold taken, arm_evidence.
  rewrite Hpath. destruct path as [|c rest]; [done |]. rewrite Hfs. rewrite bool_decide_eq_false_2 by (intros H; by apply H).
  assert (any_nan (judged text (summarize kind runs [])) = false) as ->.
  { cbn [judged any_nan s_any_nan summarize]. destruct (is_decode kind); [exact Hnan | done]. }
  assert (any_cache_hit (judged text (summarize kind runs [])) = false) as ->.
  { cbn [judged any_cache_hit s_any_cache_hit summarize map]. rewrite app_nil_r. destruct (is_decode kind); [done | exact Hhit]. }
  rewrite Hv, Hvals. unfold table_get. rewrite Hreq. cbn [mbind res_bind].
  rewrite Hl, Z.ltb_irrefl. rewrite Hlen, Hl, Z.ltb_irrefl. cbn [judged invalid_runs s_invalid summarize map List.filter].
  destruct (omap run_rate (map snd runs)) as [|v vs] eqn:Ev; [simpl in Hlen; lia |].
  unfold range_over_median. destruct (median_ok (v :: vs) ltac:(done)) as [m ->]. cbn [mbind res_bind].
  eexists. split; [reflexivity |]. by destruct (Qltb _ _).
Qed.

End judge.

Lemma all_good n worlds : Forall good_world (map worlds (seq 0 n)) <-> forall i, (i < n)%nat -> good_world (worlds i).
Proof. rewrite Forall_fmap, Forall_seq. split; intros H i Hi; apply (H i); lia. Qed.

(** The last receipt on disk, and how the block ended. *)
Lemma last_receipt n health served worlds written s out :
  probe_main chr tokenize kind max_tokens n health served worlds = (written ++ [s], out) ->
  exists runs invalid, s = summarize kind runs invalid /\ tidy runs /\
    (length runs + length invalid <= n)%nat /\
    (out = Exit 0 <-> length runs = n) /\ (length runs = n <-> forall i, (i < n)%nat -> good_world (worlds i)).
Proof.
  unfold probe_main. intros E. case_if_in E; [by destruct written |]. case_if_in E; [by destruct written |].
  destruct served as [?|e]; [| by destruct written].
  destruct (observe_all _ _ _ _ _ _ _ _) as [ws rest] eqn:Eo.
  destruct (observe_all_spec _ _ _ _ _ _ ltac:(constructor) Eo) as [Hw Hr]. pose proof (all_good n worlds) as Hg. destruct rest as [[runs invalid]|e].
  - injection E as E <-. apply app_inj_tail in E as [_ <-]. destruct Hr as (_ & Ht & Hl & _ & Hall).
    rewrite length_map, length_seq in Hl. simpl in Hl, Hall. exists runs, invalid. split; [done |]. split; [done |]. split; [lia |].
    rewrite (tidy_rates _ Ht), <- Hg, <- Hall. split; [| clear -Hl; lia].
    destruct (Z.eqb_spec (Z.of_nat (length runs)) (Z.of_nat n)); split; try done; lia.
  - injection E as -> <-. destruct Hr as (w & Hlk & Hraise).
    destruct (Hw (length written) s) as (runs & invalid & -> & Ht & Hl); [by rewrite lookup_app_r, Nat.sub_diag |].
    pose proof (lookup_lt_Some _ _ _ Hlk) as Hlt. rewrite length_map, length_seq, length_app in Hlt. simpl in Hl, Hlt.
    exists runs, invalid. split; [done |]. split; [done |]. split; [lia |]. split; [split; [done | lia] |].
    rewrite <- Hg. split; [lia |]. intros H. apply Forall_lookup_1 with (1 := H) in Hlk as (r & Hr & _). congruence.
Qed.

End block.

(** C40. The probe and the judge agree.  Take any block of as many runs as the contract
    requires of the lane, and the last receipt it wrote, whether it ended or
    crashed: the judge has no objection to the receipt, and takes a number from it, exactly when
    the probe exited with zero; and that is when every run of the block was observed and valid. *)
Theorem judge_takes_clean_block chr tokenize lane max_tokens n health served worlds written s out
  text fs r arm path (Hlane : In lane KINDS) (Hreq : table_find lane REQUIRED_RUNS = Some (Z.of_nat n))
  (Hpath : table_find lane (default [] (table_find arm (probes r))) = Some path) (Hne : path <> "")
  (Hmain : probe_main chr tokenize lane max_tokens n health served worlds = (written ++ [s], out))
  (Hfile : fs path = Some (judged text s)) :
  ((exists number, arm_evidence fs r lane arm = Ok ([], number) /\ number <> NoNumber) <-> out = Exit 0) /\
  (out = Exit 0 <-> forall i, (i < n)%nat -> exists run,
    observe chr tokenize lane (worlds i) = Ok run /\ run_invalid max_tokens run = None).
Proof.
  destruct (last_receipt chr tokenize lane max_tokens Hlane _ _ _ _ _ _ _ Hmain) as (runs & invalid & -> & Ht & Hl & Hout & Hall).
  assert (n <> 0%nat) as Hn by (intros ->; clear -Hlane Hreq; destruct Hlane as [<-|[<-|[<-|[<-|[<-|[]]]]]]; by vm_compute in Hreq).
  split; [| by rewrite Hout, Hall]. rewrite Hout. split.
  - intros H. eapply taken_enough in H; eauto. lia.
  - intros E. eapply enough_taken; eauto. by destruct invalid; [| simpl in Hl; lia].
Qed.

(** No receipt of the probe says that a NaN was seen: the flag looks at the accepted runs,
    which have none. *)
Lemma any_nan_never chr tokenize kind max_tokens n health served worlds written out : In kind KINDS ->
  probe_main chr tokenize kind max_tokens n health served worlds = (written, out) ->
  forall s, s ∈ written -> s_any_nan s <> Some true.
Proof.
  intros Hkind E s Hs.
  assert (exists runs invalid, s = summarize kind runs invalid /\ tidy chr tokenize kind max_tokens runs) as (runs & invalid & -> & Ht).
  { unfold probe_main in E. case_if_in E; [injection E as <- _; by apply not_elem_of_nil in Hs |].
    case_if_in E; [injection E as <- _; by apply not_elem_of_nil in Hs |].
    destruct served as [?|?]; [| injection E as <- _; by apply not_elem_of_nil in Hs].
    destruct (observe_all _ _ _ _ _ _ _ _) as [ws rest] eqn:Eo.
    destruct (observe_all_spec chr tokenize kind max_tokens Hkind _ _ _ _ _ _ ltac:(constructor) Eo) as [Hw Hr].
    assert (Hin : forall s, s ∈ ws -> exists runs invalid, s = summarize kind runs invalid /\ tidy chr tokenize kind max_tokens runs).
    { intros s' [j Hj]%list_elem_of_lookup. destruct (Hw _ _ Hj) as (runs & invalid & -> & Ht & _). by exists runs, invalid. }
    destruct rest as [[runs invalid]|e]; injection E as <- _; [| by apply Hin].
    apply elem_of_app in Hs as [Hs|Hs]; [by apply Hin |]. apply list_elem_of_singleton in Hs as ->.
    exists runs, invalid. split; [done | apply Hr]. }
  cbn [s_any_nan summarize]. destruct (tidy_flags _ _ _ _ Hkind _ Ht) as [-> _]. by destruct (is_decode kind).
Qed.

(** ** Runs *)

(** Apostrophes for quotation marks. *)
Fixpoint quoted (s : string) : string :=
  match s with
  | String c t => String (if Ascii.eqb c "'" then "034"%char else c) (quoted t)
  | EmptyString => ""
  end.
Definition eol : string := newline.
Definition no_chr (_ : Z) : string := "?".

(** A page: queries, hits and the creation time of both. *)
Definition cache_page (queries hits created : string) : string :=
  quoted ("# HELP vllm:prefix_cache_hits_total" ++ eol
    ++ "vllm:prefix_cache_queries_total{engine='0'} " ++ queries ++ eol
    ++ "vllm:prefix_cache_queries_created{engine='0'} " ++ created ++ eol
    ++ "vllm:prefix_cache_hits_total{engine='0'} " ++ hits ++ eol
    ++ "vllm:prefix_cache_hits_created{engine='0'} " ++ created ++ eol)%string.

Definition event (content usage : string) : string :=
  quoted ("data: {'choices': [{'delta': {'content': '" ++ content ++ "'}, 'finish_reason': null}], 'usage': " ++ usage ++ "}" ++ eol)%string.
Definition usage_event (usage : string) : string := quoted ("data: {'choices': [], 'usage': " ++ usage ++ "}" ++ eol)%string.

Definition four_per_filler (text : string) : res Z := Ok (Z.of_nat (str_count "the " text) + 5)%Z.
Definition prefill_world (page : string) (details : string) : world :=
  World (Some (cache_page "100.0" "7.0" "1.7e9")) (Some page)
    (Opened 200 [(event "OK" "null", 5 # 2); (usage_event ("{'prompt_tokens': 40, 'completion_tokens': 1" ++ details ++ "}")%string, 3 # 1); ("data: [DONE]", 3 # 1)] None)
    (1 # 2) (7 # 2) "salt".

(** The run's own tokens, and no hit. *)
Definition cold_world : world := prefill_world (cache_page "140.0" "7.0" "1.7e9") "".
Definition verdict_on (w : world) : option (option why) :=
  match prefill_run no_chr four_per_filler 40 w with Ok r => Some (prefill_run_invalid r) | Raise _ => None end.

Example cold_accepted : verdict_on cold_world = Some None.
Proof. vm_compute. reflexivity. Qed.

(** A hit, with the field of the answer absent. *)
Example hit_rejected : verdict_on (prefill_world (cache_page "140.0" "39.0" "1.7e9") "") = Some (Some (WarmCounter (32 # 1))).
Proof. vm_compute. reflexivity. Qed.
(** Frozen counters. *)
Example frozen_rejected : verdict_on (prefill_world (cache_page "100.0" "7.0" "1.7e9") "") = Some (Some (NotAttributable 0)).
Proof. vm_compute. reflexivity. Qed.
(** A reset that traffic has caught up with: only the creation time tells. *)
Example caught_up_rejected : verdict_on (prefill_world (cache_page "140.0" "7.0" "1.8e9") "") = Some (Some NoTelemetry).
Proof. vm_compute. reflexivity. Qed.
(** A counter that is no number spoils the page. *)
Example nan_counter_rejected : verdict_on (prefill_world (cache_page "140.0" "NaN" "1.7e9") "") = Some (Some NoTelemetry).
Proof. vm_compute. reflexivity. Qed.
(** The field of the answer decides alone when it is there. *)
Example field_decides :
  verdict_on (prefill_world (cache_page "140.0" "39.0" "1.7e9") ", 'prompt_tokens_details': {'cached_tokens': 0}") = Some None.
Proof. vm_compute. reflexivity. Qed.

Definition cold_run : prefill :=
  Prefill (Some 200%Z) None 40 35 40 40 JNull (Some (40 # 1)%Q) (Some (0 # 1)%Q) (Some (8 # 4)%Q) (12 # 4)%Q (Some (160 # 8)%Q) JNull false "OK".

Lemma accepted_prefill_cold_witness :
  prefill_run no_chr four_per_filler 40 cold_world = Ok cold_run /\ counters_cold cold_world 40.
Proof.
  assert (E : prefill_run no_chr four_per_filler 40 cold_world = Ok cold_run) by (vm_compute; reflexivity).
  split; [exact E |].
  destruct (proj1 (accepted_prefill_cold no_chr four_per_filler 40 cold_world cold_run eq_refl E) ltac:(vm_compute; reflexivity))
    as (_ & _ & _ & _ & _ & [[H _]|[_ H]]); [by destruct H | exact H].
Defined.

(** The same run refused by the server, while another client hit the cache: it is not rejected as
    warm, and the receipt says all the same that a hit was seen. *)
Definition refused_world : world :=
  World (Some (cache_page "100.0" "7.0" "1.7e9")) (Some (cache_page "140.0" "39.0" "1.7e9")) (Refused OtherException) 0 1 "salt".
Definition one_run (w : world) : option (list (option why) * option bool) :=
  match prefill_run no_chr four_per_filler 40 w with
  | Ok r =>
      match prefill_run_invalid r with
      | Some reason => Some ([Some reason], s_any_cache_hit (summarize "prefill60k" [] [(1%Z, PrefillRun r, reason)]))
      | None => Some ([None], s_any_cache_hit (summarize "prefill60k" [(1%Z, PrefillRun r)] []))
      end
  | Raise _ => None
  end.
Example refused_counts_as_hit : one_run refused_world = Some ([Some (Errored OtherException)], Some true).
Proof. vm_compute. reflexivity. Qed.

(** *** A decode block *)

Definition spec_page (drafts drafted taken : string) : string :=
  quoted ("vllm:spec_decode_num_drafts_total{engine='0'} " ++ drafts ++ eol
    ++ "vllm:spec_decode_num_draft_tokens_total{engine='0'} " ++ drafted ++ eol
    ++ "vllm:spec_decode_num_accepted_tokens_total{engine='0'} " ++ taken ++ eol
    ++ "vllm:spec_decode_num_accepted_tokens_per_pos_total{engine='0',position='0'} " ++ taken ++ eol
    ++ "vllm:spec_decode_num_drafts_created{engine='0'} 1.7e9" ++ eol)%string.
Definition decode_world (text : string) (last : Q) (tokens : string) : world :=
  World (Some (spec_page "0.0" "0.0" "0.0")) (Some (spec_page "4.0" "12.0" "6.0"))
    (Opened 200 [(event "1 2" "null", 1 # 1); (event text "null", last); (usage_event ("{'completion_tokens': " ++ tokens ++ "}")%string, 9 # 1)] None)
    (1 # 2) (10 # 1) "".

Definition rate_and_reason (w : world) : option (option Q * spec * option why) :=
  match decode_run no_chr w with Ok r => Some (d_tok_s r, d_spec r, decode_run_invalid r 5) | Raise _ => None end.

Definition reason_of (w : world) : option (option why) := snd <$> rate_and_reason w.

Example decode_rate : rate_and_reason (decode_world " 3 4 5" 3 "5") =
  Some (Some (4 # 2)%Q, Spec 4 12 6 (Some (5000 # 10000)%Q) (Some (1500 # 1000)%Q)
    [15000 # 10000; 0 # 10000; 0 # 10000; 0 # 10000; 0 # 10000; 0 # 10000; 0 # 10000]%Q, None).
Proof. vm_compute. reflexivity. Qed.
Example nan_rejected : reason_of (decode_world " NaN 5" 3 "5") = Some (Some NaNMarkerSeen).
Proof. vm_compute. reflexivity. Qed.
Example short_rejected : reason_of (decode_world " 4 5" 3 "4") = Some (Some (ShortCompletion 4)).
Proof. vm_compute. reflexivity. Qed.
(** Two pieces at one reading of the clock: the reason names a token count that is fine. *)
Example collapsed_rejected : reason_of (decode_world " 4 5" 1 "5") = Some (Some (NotMoreThanOne 5)).
Proof. vm_compute. reflexivity. Qed.

(** Nine clean runs of a lane, and the judge with the receipt. *)
Definition clean_block (worlds : nat -> world) : list summary * outcome :=
  probe_main no_chr four_per_filler "structured" 5 9 200 (Ok "GLM") worlds.
Definition clean_worlds (_ : nat) : world := decode_world " 3 4 5" 3 "5".
Definition last_summary (block : list summary * outcome) : summary := List.last block.1 (summarize "" [] []).
Definition file_of (s : summary) : files := fun path => if String.eqb path "probe.json" then Some (judged (fun _ => "") s) else None.
Definition window : receipt :=
  Receipt (AuditV149.arms good_window) (AuditV149.probe_blocks good_window) (pool_capacity_before good_window)
    (r_gates good_window) [("a", [("structured", "probe.json")])].

Lemma judge_takes_clean_block_witness :
  (clean_block clean_worlds).2 = Exit 0 /\
  exists number, arm_evidence (file_of (last_summary (clean_block clean_worlds))) window "structured" "a" = Ok ([], number) /\ number <> NoNumber.
Proof.
  assert (E : clean_block clean_worlds = (removelast (clean_block clean_worlds).1 ++ [last_summary (clean_block clean_worlds)], Exit 0))
    by (vm_compute; reflexivity).
  split; [vm_compute; reflexivity |].
  exact (proj2 (proj1 (judge_takes_clean_block no_chr four_per_filler "structured" 5 9 200 (Ok "GLM") clean_worlds _ _ _
    (fun _ => "") (file_of (last_summary (clean_block clean_worlds))) window "a" "probe.json"
    (or_introl eq_refl) eq_refl eq_refl ltac:(discriminate) E eq_refl)) eq_refl).
Defined.

(** A run that saw a NaN: the probe exits with one, and the judge names the excluded run. *)
Definition one_nan (i : nat) : world := if (i =? 4)%nat then decode_world " NaN 5" 3 "5" else clean_worlds i.
Example nan_block :
  (clean_block one_nan).2 = Exit 1 /\
  arm_evidence (file_of (last_summary (clean_block one_nan))) window "structured" "a" =
    Ok ([ExcludedCorrupted "a" "structured"; TooFewRuns "a" "structured"], NoNumber).
Proof. vm_compute. by split. Qed.

(** A metrics page that cannot be read ends the block; the two receipts before it stay. *)
Definition lost_page (i : nat) : world :=
  if (i =? 2)%nat then World None None (Refused OtherException) 0 1 "" else clean_worlds i.
Example crash_keeps_receipts :
  (length (clean_block lost_page).1, s_valid_runs (last_summary (clean_block lost_page)), (clean_block lost_page).2) =
  (2%nat, 2%Z, Crashed OtherException).
Proof. vm_compute. reflexivity. Qed.
